(* ===== verification/_CoqProject ===== *)
-Q . S2P
Prelude.v
CoyoteDefs.v
IbvStructs.v
CProcess.v
CProcessFacts.v
CProcessCtrl.v
Bitstreams.v
CSched.v
CSchedFacts.v
CThread.v
CArbiter.v
CService.v
IbvQp.v
ToeTypes.v
StateTable.v
SarTables.v
PortTable.v
Timers.v
EventEngine.v
KvTable.v
HashTable.v
SessionLookup.v
SessionLookupFacts.v
Axi.v
Streams.v
StreamsFacts.v
Wire.v
Ipv4.v
Ipv4Facts.v
Crc.v
CrcFacts.v
CrcWire.v
IbTypes.v
LinkedQueues.v
MultiQueue.v
MultiQueueFacts.v
Retransmitter.v
RetransmitterFacts.v
IbTables.v
IbRx.v
IbRxFacts.v
IbTx.v
IbTxFacts.v
IbWire.v
IbPath.v
Ethernet.v
Arp.v
IpHandler.v
Udp.v
FrameWire.v
ArpWire.v
NetWire.v
RxFsm.v
RxFsmFacts.v
TcpHeader.v
RxEngine.v
TxEngine.v
TcpChecksum.v
Icmp.v
IcmpFacts.v
Dhcp.v
DhcpFacts.v
TcpSegment.v
AppRx.v
AppTx.v
AppFacts.v
TcpWire.v
TxFacts.v
RxMemory.v
TxMemory.v
Driver.v
DriverFacts.v
DrvPidFacts.v
DrvMmu.v
DrvTlbFacts.v
DrvMmuFacts.v
DrvFops.v
DrvFopsFacts.v
