(* ===== verification/Prelude.v ===== *)
(** * vFPIO: the host library, the driver, the TCP offload engine, RoCE v2 and the network stack

    vFPIO is a shell for FPGAs (a fork of Coyote): user logic runs in virtual
    FPGAs (vFPGAs), and host programs and a network stack reach it through the
    shell.  This library models the core of its C and C++: the host library, the
    memory management of the kernel driver, and the hardware that is written as C++ for high level synthesis (HLS).

    ** The program

    The host library, [src/sw].  A [cProcess] is a user process attached to one
    vFPGA: it maps the control plane, pins memory, posts transfers and RDMA
    work requests and polls for their completion.  A [cSched] grants the vFPGA
    to one request at a time and reconfigures it from the bitstreams it holds.
    A [cThread] runs queued tasks on a [cProcess], a [cArbiter] spreads tasks
    over threads, and a [cService] is a daemon that takes tasks from clients
    over a socket ([cLib]) and schedules them.  [ibvQpConn] and [ibvQpMap] set
    up RDMA queue pairs with a remote node.

    The kernel driver, [src/driver].  It hands out pages of card memory and process
    identifiers, pins pages of users and writes them to the TLBs of a vFPGA, on
    request of the library and on page faults, and takes them back.

    The network stack, [src/hw/services/network/hls].  A frame is sorted by
    [ip_handler], its header taken off and checked by [ipv4]; [udp], the ARP,
    ICMP and DHCP modules and the two transports are behind it, and
    [mac_ip_encode] makes frames of what they send.  The TCP offload engine (TOE,
    [toe]) has the tables the engines share, timers, an event engine, the RX and
    the TX engine and the interfaces to the application.  The RoCE v2 transport
    ([ib_transport_protocol], [rocev2], [crc]) has a receive and a transmit path,
    tables of queue pairs, a retransmitter and the invariant CRC.  All of it are HLS
    processes that run one iteration per clock cycle and talk through FIFOs.

    ** The files

    Shared:
    - [Prelude]: machine words, bit fields and the tactics [solve_bits] and
      [solve_fits]; the state and exception monad [M] with its Hoare triples;
      little-endian bytes; FIFOs; runs of concurrent components ([steps],
      [steps_invariant]).
    - [Axi] (axi_utils.hpp, packet.hpp): words of a stream, headers collected and
      emitted word by word, and [runs], the runs of a process that never blocks.
      [Streams] and [StreamsFacts]: the shifts, mergers and splitters of axi_utils,
      and [packet], the relation between the words of a packet and its bytes.
      [Wire]: what every protocol needs of packets, such as putting a header in
      front and taking it off.

    Host library:
    - [CoyoteDefs] (cDefs.hpp), [IbvStructs] (ibvStructs), [CProcess] (cProcess,
      every member function as a computation over the object and the log of what it
      does to the driver and the device, an [Env] that answers from the history),
      [CProcessFacts], [CProcessCtrl]; [Bitstreams] and [CSched] (cSched, sequential
      and concurrent half), [CSchedFacts]; [CThread] (cThread, cTask); [CArbiter];
      [CService] (cService, cLib); [IbvQp] (ibvQpConn, ibvQpMap).

    Kernel driver:
    - [Driver] (static configuration, the pools of pages and of process identifiers),
      [DriverFacts], [DrvPidFacts]; [DrvMmu] (fpga_mmu.c, and fpga_mmap), a computation
      per function over tables, locks and a trace of what the kernel and the device see;
      [DrvTlbFacts] (entries of the TLBs), [DrvMmuFacts] (mappings); [DrvFops]
      (fpga_fops.c, fpga_isr.c: requests, releases, page faults), [DrvFopsFacts].

    TOE:
    - [ToeTypes]: the build parameters as the class [ToeConfig], the structs, tables
      indexed by session.  [StateTable], [SarTables] (rx_sar_table, tx_sar_table),
      [PortTable], [Timers], [EventEngine] (event_engine, ack_delay): one definition per process.
    - [KvTable]: the interface of a hash table, as a class with laws.  [HashTable]
      (hash_table): the cuckoo table, which is an instance.  [SessionLookup]
      (session_lookup_controller) and [SessionLookupFacts]: proved against [KvTable].
    - [RxFsm] (the TCP state machine of rx_engine.cpp), [RxFsmFacts], [TcpHeader]
      (toe_internals.hpp), [RxEngine] (the rest of rx_engine.cpp), [RxMemory] (its
      memory writer), [TcpChecksum]; [TxEngine] (tx_engine.cpp), [TcpSegment] (the
      headers it writes), [TxMemory] (memory reads), [TxFacts] (retransmission);
      [TcpWire]: a segment from the TX engine of one node to the RX engine of another.
    - [AppRx], [AppTx] (rx_app_if, rx_app_stream_if, tx_app_if, tx_app_interface,
      tx_app_stream_if, the memory readers of toe.cpp), [AppFacts].

    RoCE v2:
    - [IbTypes]: structs and header fields.  [LinkedQueues], [MultiQueue],
      [MultiQueueFacts] (multi_queue.hpp); [Retransmitter], [RetransmitterFacts]
      (retransmitter.hpp), which shares the linked queues; [IbTables] (conn_table,
      state_table, msn_table, read_req_table, transport_timer).
    - [IbRx], [IbRxFacts] and [IbTx], [IbTxFacts]: the receive and the transmit path of
      ib_transport_protocol.cpp; [IbWire]: a payload from one node to the
      other; [IbPath]: the requests of a queue pair from one node to the other.
    - [Crc] (crc.cpp), [CrcFacts] (the code as a polynomial code), [CrcWire] (packets
      through both paths).

    Network:
    - [Ipv4], [Ipv4Facts] (ipv4, ipv4_utils: header, both directions, checksum);
      [Ethernet] (ethernet, padding, mac_ip_encode); [IpHandler]; [Udp]; [FrameWire]
      and [NetWire]: a datagram through all of them; [Arp] (arp_server_subnet),
      [ArpWire]; [Icmp] (icmp_server), [IcmpFacts]; [Dhcp] (dhcp_client), [DhcpFacts].

    ** How the code is represented

    Integers are [Z] reduced with [wrap] or [sext] where the code stores them
    in a type of that width.  Sequential host code is a computation in [M]: a
    [throw] keeps the effects made before it, undefined behaviour is the
    outcome [Undef], and a polling loop takes fuel and ends in [Spin] when it
    is used up; the theorems about loops assume a device that answers within
    [N] reads and conclude for every fuel from [N] on.  Concurrent code is a
    function from a label, the choice of the next atomic section, and a state
    to the next state; a section that cannot run is [Blocked].  A run is a list
    of labels, so a theorem about all lists is one about all interleavings.

    An HLS process is a function of its static variables and streams; one
    application is one iteration.  Streams are lists.  Where the order of
    processes matters (the tables, the session lookup, the queues, the
    retransmitter) a write to a full FIFO is [Blocked] and the theorems are about
    all interleavings; a process that only turns input into output is run by
    itself ([runs], some number of iterations), on a whole packet, and theorems
    compose such runs along the FIFOs.  Each call of a process in the source is an
    instance with registers of its own.  A static table is a map with the zero
    entry as default, and an index outside it is undefined.  Local variables the
    code reads before assigning them are parameters.  Widths of words, build
    options and table sizes are parameters too, with the bounds the theorems need.

    ** What is shown

    - Host process: posted transfers and work requests are the ones asked for,
      in order and within flow control; locks are taken and released in pairs
      on every path, from the construction of the object to its destruction; host buffers are aligned and inside their mapping.
    - Driver: pages of card memory and process identifiers are exclusive while a chunk
      besides the last of a pool is free; the library reads the configuration the
      registers have; TLB entries say the page, the process and the addresses; what a
      mapping takes its release gives back, for the process with identifier 0, and for
      every other process no page ever comes back.
    - Scheduling: a request let through is alone on the vFPGA with its operator
      loaded, and every request is served in a bounded number of steps; tasks of a
      thread run once and in order; requests survive the socket of the service.
    - TOE tables: locked sessions are stable under every interleaving; port checks are answered in order;
      an unacknowledged session is aborted after four retransmissions, one in
      TIME_WAIT is released exactly when its time is up; the cuckoo
      table refines a map that may lose a pair; forward and reverse lookup of
      sessions agree, and session identifiers are neither lost nor doubled.
    - TOE engines: the state machine keeps the lock discipline of the state table
      and goes, for every state and kind of segment, to exactly the state of a table; a segment that the TX
      engine builds arrives at the RX engine of the other node with its fields,
      payload and a right checksum; a retransmission sends every byte between what
      is acknowledged and what was sent; data the application hands over never
      overwrites unacknowledged data, and comes out of memory as it was written,
      also where the buffer wraps around if the word the code never assigns
      there has no keep bit set.
    - RoCE v2: packets are numbered without gaps, the receiver accepts exactly
      the next one, also after duplicates and losses, and what one node sends the
      other accepts, each counting the packets of a read by itself; payloads arrive with the
      headers they were sent with; the queues refine lists and the retransmitter
      refines a list of unacknowledged packets per queue pair; the CRC is the
      remainder by the polynomial of Ethernet, packets get through both paths
      unchanged, with or without the check of the CRC, and with it a packet changed in
      a burst of at most 32 bits is counted.
    - Network: the checksum is that of RFC 1071 for all widths; a datagram arrives
      as it was sent; an address is resolved by one request and one reply; echo
      requests and only they are answered, with a right checksum; the messages of
      the DHCP client are laid out as RFC 2131 says, and an address it takes is one
      that was offered, requested and acknowledged.
    - Where the code does not do what it means to, a theorem or an example says what
      it does: sizes that wrap, sessions lost, memory read from the wrong place,
      retransmissions with a second FIN, and others.

    ** What is not modelled

    Console output, daemonisation and socket setup; RTL; test benches and example
    applications.  The top level functions of the HLS modules declare FIFOs and
    call the processes; they have no state, and the theorems compose the processes
    as they do.  The multi queue and the table of read requests are modelled
    although the transport instantiates them in commented-out code only.  The TX
    engine is that of builds with [TCP_NODELAY]: the other branch does not compile.
    Not part of the stack as it is built, and left out: IPv6 and ICMPv6 (the IP
    version is 4), the older ARP server, flow_control.hpp.  The [TIME_*] constants
    of the synthesis build of the TOE are computed in floating point and stay
    parameters.  Of the driver, the requests that write a network register or read
    statistics, the buses, DMA engines and sysfs, [kfree] and cache maintenance; the
    answers of the kernel are parameters, and the device completes the transfers the
    driver polls for.  In [CProcess] the driver is the environment of the ioctl and mmap
    calls; only the configuration word is followed from one to the other. *)
From stdpp Require Import base numbers list gmap strings relations.
From Stdlib Require Import ZArith Lia.

#[global] Set Warnings "-notation-overridden".

Declare Scope word_scope.
Delimit Scope word_scope with word.

Local Open Scope Z_scope.

(** ** Machine words

    A C++ [uintN_t] and an HLS [ap_uint<N>] are integers kept below [2^N]:
    every store reduces its value with [wrap].  [sext] is the reading of the
    same bits as a two's complement [intN_t]. *)

Definition wrap (w x : Z) : Z := x mod 2 ^ w.

Definition sext (w x : Z) : Z :=
  let u := wrap w x in if u <? 2 ^ (w - 1) then u else u - 2 ^ w.

Abbreviation u8 := (wrap 8).
Abbreviation u16 := (wrap 16).
Abbreviation u32 := (wrap 32).
Abbreviation u64 := (wrap 64).

(** [fits w x]: [x] is a value a [w]-bit unsigned variable can hold. *)
Definition fits (w x : Z) : Prop := 0 <= x < 2 ^ w.

(** [bits x lo w] is the field of [w] bits of [x] that starts at bit [lo]:
    [(x >> lo) & ((1 << w) - 1)] in C++ and [x(lo + w - 1, lo)] in HLS. *)
Definition bits (x lo w : Z) : Z := Z.land (Z.shiftr x lo) (Z.ones w).

(** [set_bits x lo w v] is the HLS assignment [x(lo + w - 1, lo) = v]. *)
Definition set_bits (x lo w v : Z) : Z :=
  Z.lor (Z.ldiff x (Z.shiftl (Z.ones w) lo)) (Z.shiftl (wrap w v) lo).

(** [flag b c] is the C++ expression [b ? c : 0x0]. *)
Definition flag (b : bool) (c : Z) : Z := if b then c else 0.

Lemma pow2_pos (w : Z) : 0 <= w -> 0 < 2 ^ w.
Proof. intros. apply Z.pow_pos_nonneg; lia. Qed.

Lemma wrap_range (w x : Z) : 0 <= w -> fits w (wrap w x).
Proof. intros. apply Z.mod_pos_bound, pow2_pos; lia. Qed.

Lemma wrap_small (w x : Z) : fits w x -> wrap w x = x.
Proof. apply Z.mod_small. Qed.

Lemma wrap_wrap (w x : Z) : 0 <= w -> wrap w (wrap w x) = wrap w x.
Proof. intros. apply wrap_small, wrap_range; lia. Qed.

Lemma wrap_land (w x : Z) : 0 <= w -> wrap w x = Z.land x (Z.ones w).
Proof. intros. by rewrite Z.land_ones. Qed.

Lemma wrap_testbit (w x i : Z) :
  0 <= w -> 0 <= i -> Z.testbit (wrap w x) i = (i <? w) && Z.testbit x i.
Proof.
  intros. rewrite wrap_land by lia. rewrite Z.land_spec, andb_comm.
  destruct (Z.ltb_spec i w).
  - by rewrite Z.ones_spec_low by lia.
  - by rewrite Z.ones_spec_high by lia.
Qed.

Lemma wrap_add_l (w x y : Z) : wrap w (wrap w x + y) = wrap w (x + y).
Proof. apply Zplus_mod_idemp_l. Qed.

Lemma wrap_add_r (w x y : Z) : wrap w (x + wrap w y) = wrap w (x + y).
Proof. apply Zplus_mod_idemp_r. Qed.

Lemma wrap_sub_l (w x y : Z) : wrap w (wrap w x - y) = wrap w (x - y).
Proof. apply Zminus_mod_idemp_l. Qed.

Lemma wrap_sub_r (w x y : Z) : wrap w (x - wrap w y) = wrap w (x - y).
Proof. apply Zminus_mod_idemp_r. Qed.

(** ** Bit fields *)

Lemma bits_wrap (x lo w : Z) : 0 <= w -> bits x lo w = wrap w (Z.shiftr x lo).
Proof. intros. unfold bits. by rewrite <- wrap_land. Qed.

Lemma bits_range (x lo w : Z) : 0 <= w -> fits w (bits x lo w).
Proof. intros. rewrite bits_wrap by lia. by apply wrap_range. Qed.

Lemma bits_0 (lo w : Z) : bits 0 lo w = 0.
Proof. unfold bits. by rewrite Z.shiftr_0_l. Qed.

Lemma bits_lor (x y lo w : Z) : bits (Z.lor x y) lo w = Z.lor (bits x lo w) (bits y lo w).
Proof. unfold bits. by rewrite Z.shiftr_lor, Z.land_lor_distr_l. Qed.

Lemma bits_testbit (x lo w i : Z) :
  0 <= w -> 0 <= i -> 0 <= lo ->
  Z.testbit (bits x lo w) i = (i <? w) && Z.testbit x (i + lo).
Proof. intros. rewrite bits_wrap, wrap_testbit, Z.shiftr_spec by lia. done. Qed.

Lemma bits_shiftl_eq (v lo w : Z) : 0 <= lo -> 0 <= w -> bits (Z.shiftl v lo) lo w = wrap w v.
Proof.
  intros. rewrite bits_wrap by lia. f_equal.
  rewrite Z.shiftr_shiftl_l by lia. by rewrite Z.sub_diag, Z.shiftl_0_r.
Qed.

Lemma bits_shiftl_high (v k lo w : Z) :
  0 <= lo -> 0 <= w -> lo + w <= k -> bits (Z.shiftl v k) lo w = 0.
Proof.
  intros. apply Z.bits_inj'. intros i Hi. rewrite bits_testbit, Z.bits_0 by lia.
  destruct (Z.ltb_spec i w); [|done]. rewrite Z.shiftl_spec, Z.testbit_neg_r by lia. done.
Qed.

Lemma fits_testbit (w x i : Z) : 0 <= w -> fits w x -> w <= i -> Z.testbit x i = false.
Proof.
  intros Hw Hx Hi. rewrite <- (wrap_small w x Hx), wrap_testbit by lia.
  destruct (Z.ltb_spec i w); [lia | done].
Qed.

Lemma bits_shiftl_low (n v k lo w : Z) :
  0 <= n -> fits n v -> 0 <= k -> 0 <= w -> k + n <= lo -> bits (Z.shiftl v k) lo w = 0.
Proof.
  intros. apply Z.bits_inj'. intros i Hi. rewrite bits_testbit, Z.bits_0 by lia.
  destruct (Z.ltb_spec i w); [|done].
  rewrite Z.shiftl_spec by lia. cbn. apply (fits_testbit n); auto with lia.
Qed.

(** A field inside the part of [v] that [Z.shiftl v k] keeps. *)
Lemma bits_shiftl_in (v k lo w : Z) :
  0 <= k -> k <= lo -> 0 <= w -> bits (Z.shiftl v k) lo w = bits v (lo - k) w.
Proof.
  intros. apply Z.bits_inj'. intros i Hi. rewrite !bits_testbit by lia.
  rewrite Z.shiftl_spec by lia. by replace (i + lo - k) with (i + (lo - k)) by lia.
Qed.

Lemma fits_weaken (m n x : Z) : m <= n -> fits m x -> fits n x.
Proof.
  unfold fits. intros. destruct (Z.le_gt_cases 0 m).
  - pose proof (Z.pow_le_mono_r 2 m n). lia.
  - rewrite (Z.pow_neg_r 2 m) in * by lia. lia.
Qed.

Lemma fits_flag (b : bool) : fits 1 (Z.b2z b).
Proof. unfold fits. destruct b; cbn; lia. Qed.

Lemma flag_shiftl (b : bool) (k : Z) : flag b (Z.shiftl 1 k) = Z.shiftl (Z.b2z b) k.
Proof. destruct b; [done|]. cbn. by rewrite Z.shiftl_0_l. Qed.

Lemma fits_land_ones (x n : Z) : 0 <= n -> fits n (Z.land x (Z.ones n)).
Proof. intros. rewrite <- wrap_land by lia. by apply wrap_range. Qed.

Lemma fits_land_mask (n x m : Z) : 0 <= n -> fits n m -> fits n (Z.land x m).
Proof.
  intros Hn Hm. rewrite <- (wrap_small n m Hm), wrap_land, Z.land_assoc by lia.
  by apply fits_land_ones.
Qed.

Lemma fits_lor (n x y : Z) : 0 <= n -> fits n x -> fits n y -> fits n (Z.lor x y).
Proof.
  intros Hn Hx Hy. rewrite <- (wrap_small n x), <- (wrap_small n y), !wrap_land by done.
  rewrite <- Z.land_lor_distr_l. by apply fits_land_ones.
Qed.

Lemma fits_lxor (n x y : Z) : 0 <= n -> fits n x -> fits n y -> fits n (Z.lxor x y).
Proof.
  intros Hn Hx Hy. rewrite <- (wrap_small n x), <- (wrap_small n y) by done.
  assert (Z.lxor (wrap n x) (wrap n y) = wrap n (Z.lxor x y)) as ->; [|by apply wrap_range].
  apply Z.bits_inj'. intros i Hi. rewrite Z.lxor_spec, !wrap_testbit, Z.lxor_spec by lia.
  by destruct (i <? n).
Qed.

Lemma fits_shiftl (n k m x : Z) :
  0 <= k -> 0 <= n -> n + k <= m -> fits n x -> fits m (Z.shiftl x k).
Proof.
  unfold fits. intros Hk Hn Hm Hx. rewrite Z.shiftl_mul_pow2 by lia.
  pose proof (pow2_pos k Hk). pose proof (Z.pow_le_mono_r 2 (n + k) m ltac:(lia) Hm) as Hp.
  rewrite Z.pow_add_r in Hp by lia. nia.
Qed.

Lemma wrap_land_mask (n x m : Z) : 0 <= n -> fits n m -> wrap n (Z.land x m) = Z.land x m.
Proof. intros. by apply wrap_small, fits_land_mask. Qed.

Lemma wrap_b2z (n : Z) (b : bool) : 1 <= n -> wrap n (Z.b2z b) = Z.b2z b.
Proof. intros. apply wrap_small, (fits_weaken 1); [lia | apply fits_flag]. Qed.

(** Assigning a field and reading it back; the other fields stay. *)
Lemma set_bits_testbit (x lo w v i : Z) :
  0 <= lo -> 0 <= w -> 0 <= i ->
  Z.testbit (set_bits x lo w v) i =
    if (lo <=? i) && (i <? lo + w) then Z.testbit v (i - lo) else Z.testbit x i.
Proof.
  intros. unfold set_bits. rewrite Z.lor_spec, Z.ldiff_spec, !Z.shiftl_spec by lia.
  destruct (Z.leb_spec lo i); cbn.
  - rewrite wrap_testbit by lia.
    destruct (Z.ltb_spec (i - lo) w), (Z.ltb_spec i (lo + w)); try lia; cbn.
    + rewrite Z.ones_spec_low by lia. by rewrite andb_false_r.
    + rewrite Z.ones_spec_high by lia. by rewrite andb_true_r, orb_false_r.
  - rewrite !(Z.testbit_neg_r _ (i - lo)) by lia. by rewrite andb_true_r, orb_false_r.
Qed.

Lemma bits_set_bits_eq (x lo w v : Z) :
  0 <= lo -> 0 <= w -> bits (set_bits x lo w v) lo w = wrap w v.
Proof.
  intros. apply Z.bits_inj'. intros i Hi.
  rewrite bits_testbit, set_bits_testbit, wrap_testbit by lia.
  destruct (Z.ltb_spec i w); cbn; [|done].
  replace ((lo <=? i + lo) && (i + lo <? lo + w)) with true by lia.
  by replace (i + lo - lo) with i by lia.
Qed.

Lemma bits_set_bits_ne (x lo w v lo' w' : Z) :
  0 <= lo -> 0 <= w -> 0 <= lo' -> 0 <= w' -> lo' + w' <= lo \/ lo + w <= lo' ->
  bits (set_bits x lo w v) lo' w' = bits x lo' w'.
Proof.
  intros. apply Z.bits_inj'. intros i Hi.
  rewrite !bits_testbit, set_bits_testbit by lia.
  destruct (Z.ltb_spec i w'); cbn; [|done].
  by replace ((lo <=? i + lo') && (i + lo' <? lo + w)) with false by lia.
Qed.

(** [solve_bits] reads a field out of a word assembled with [Z.lor] and
    [Z.shiftl] from parts whose widths are syntactically known. *)
Create HintDb regs discriminated.

Ltac width_of v :=
  lazymatch v with
  | Z.b2z _ => constr:(1)
  | Z.land _ ?m => let n := eval vm_compute in (Z.log2 m + 1) in constr:(n)
  | wrap ?n _ => constr:(n)
  | bits _ _ ?n => constr:(n)
  | _ => match goal with H : fits ?n v |- _ => constr:(n) end
  end.

Ltac solve_fits :=
  lazymatch goal with
  | |- fits _ (Z.b2z _) => apply fits_flag
  | |- fits _ (Z.land _ _) => apply fits_land_mask; [lia | unfold fits; cbn; lia]
  | |- fits _ (wrap _ _) => apply wrap_range; lia
  | |- fits _ (bits _ _ _) => apply bits_range; lia
  | |- _ => first [assumption | unfold fits; lia]
  end.

Ltac bits_step :=
  match goal with
  | |- context [bits (Z.lor _ _) _ _] => rewrite !bits_lor
  | |- context [flag _ (Z.shiftl 1 _)] => rewrite !flag_shiftl
  | |- context [bits (Z.shiftl ?v ?k) ?lo ?w] =>
      first
        [ rewrite (bits_shiftl_eq v lo w) by lia
        | rewrite (bits_shiftl_high v k lo w) by lia
        | let n := width_of v in
          rewrite (bits_shiftl_low n v k lo w) by first [lia | solve_fits] ]
  | |- context [Z.lor 0 _] => rewrite !Z.lor_0_l
  | |- context [Z.lor _ 0] => rewrite !Z.lor_0_r
  | |- context [wrap _ (Z.b2z _)] => rewrite !wrap_b2z by lia
  | |- context [wrap ?n (Z.land ?x ?m)] =>
      rewrite (wrap_land_mask n x m) by first [lia | unfold fits; cbn; lia]
  end.

Ltac solve_bits := repeat bits_step; try done.

(** ** A state and exception monad

    The host software mutates members, performs system calls and throws.  A
    computation maps a state to an outcome and the state at that point: a
    [throw] keeps the effects made before it.  [Undef] is undefined behaviour
    of the C++ code, [Spin] a polling loop that used up the fuel it was given. *)

Inductive outcome (A : Type) : Type :=
| Ret (a : A)
| Throw (msg : string)
| Undef (why : string)
| Spin.
Arguments Ret {A} a.
Arguments Throw {A} msg.
Arguments Undef {A} why.
Arguments Spin {A}.

Definition M (S A : Type) : Type := S -> outcome A * S.

#[export] Instance M_ret {S : Type} : MRet (M S) := fun A a s => (Ret a, s).

#[export] Instance M_bind {S : Type} : MBind (M S) := fun A B k m s =>
  match m s with
  | (Ret a, s') => k a s'
  | (Throw e, s') => (Throw e, s')
  | (Undef e, s') => (Undef e, s')
  | (Spin, s') => (Spin, s')
  end.

Definition gets {S A : Type} (f : S -> A) : M S A := fun s => (Ret (f s), s).
Definition modify {S : Type} (f : S -> S) : M S unit := fun s => (Ret tt, f s).
Definition throw {S A : Type} (e : string) : M S A := fun s => (Throw e, s).
Definition undef {S A : Type} (e : string) : M S A := fun s => (Undef e, s).
Definition spin {S A : Type} : M S A := fun s => (Spin, s).
Definition skip {S : Type} : M S unit := mret tt.
Definition when {S : Type} (b : bool) (m : M S unit) : M S unit := if b then m else skip.

(** Iterating a command over a list, as a range-based [for] does. *)
Fixpoint for_each {S A : Type} (f : A -> M S unit) (l : list A) : M S unit :=
  match l with
  | [] => skip
  | x :: l' => f x ;; for_each f l'
  end.

Lemma bind_ret_l {S A B : Type} (a : A) (k : A -> M S B) : (mret a ≫= k) = k a.
Proof. done. Qed.

(** [triple P m Q E]: from a state satisfying [P], the command does not run
    into undefined behaviour, a normal return satisfies [Q] and a throw [E]. *)
Definition triple {S A : Type} (P : S -> Prop) (m : M S A) (Q : A -> S -> Prop)
    (E : S -> Prop) : Prop :=
  forall s, P s ->
    match m s with
    | (Ret a, s') => Q a s'
    | (Throw _, s') => E s'
    | (Undef _, _) => False
    | (Spin, _) => True
    end.

Lemma triple_conseq {S A} (P P' : S -> Prop) (m : M S A) (Q Q' : A -> S -> Prop)
    (E E' : S -> Prop) :
  triple P' m Q' E' -> (forall s, P s -> P' s) -> (forall a s, Q' a s -> Q a s) ->
  (forall s, E' s -> E s) -> triple P m Q E.
Proof.
  intros Hm HP HQ HE s Hs. specialize (Hm s (HP s Hs)).
  destruct (m s) as [[a|e|e|] s']; auto.
Qed.

Lemma triple_bind {S A B} (P : S -> Prop) (m : M S A) (k : A -> M S B)
    (R : A -> S -> Prop) (Q : B -> S -> Prop) (E : S -> Prop) :
  triple P m R E -> (forall a, triple (R a) (k a) Q E) -> triple P (m ≫= k) Q E.
Proof.
  intros Hm Hk s Hs. unfold mbind, M_bind. specialize (Hm s Hs).
  destruct (m s) as [[a|e|e|] s']; auto. by apply Hk.
Qed.

Lemma triple_ret {S A} (P : S -> Prop) (a : A) (Q : A -> S -> Prop) (E : S -> Prop) :
  (forall s, P s -> Q a s) -> triple P (mret a) Q E.
Proof. intros H s Hs. by apply H. Qed.

Lemma triple_skip {S} (P : S -> Prop) (Q : unit -> S -> Prop) (E : S -> Prop) :
  (forall s, P s -> Q tt s) -> triple P skip Q E.
Proof. apply triple_ret. Qed.

Lemma triple_gets {S A} (P : S -> Prop) (f : S -> A) (Q : A -> S -> Prop) (E : S -> Prop) :
  (forall s, P s -> Q (f s) s) -> triple P (gets f) Q E.
Proof. intros H s Hs. by apply H. Qed.

Lemma triple_modify {S} (P : S -> Prop) (f : S -> S) (Q : unit -> S -> Prop) (E : S -> Prop) :
  (forall s, P s -> Q tt (f s)) -> triple P (modify f) Q E.
Proof. intros H s Hs. by apply H. Qed.

Lemma triple_throw {S A} (P : S -> Prop) (e : string) (Q : A -> S -> Prop) (E : S -> Prop) :
  (forall s, P s -> E s) -> triple P (throw e) Q E.
Proof. intros H s Hs. by apply H. Qed.

Lemma triple_spin {S A} (P : S -> Prop) (Q : A -> S -> Prop) (E : S -> Prop) :
  triple P spin Q E.
Proof. done. Qed.

Lemma triple_if {S A} (b : bool) (P : S -> Prop) (m n : M S A) (Q : A -> S -> Prop)
    (E : S -> Prop) :
  (b = true -> triple P m Q E) -> (b = false -> triple P n Q E) ->
  triple P (if b then m else n) Q E.
Proof. destruct b; auto. Qed.

Lemma triple_when {S} (b : bool) (P : S -> Prop) (m : M S unit) (Q : unit -> S -> Prop)
    (E : S -> Prop) :
  (b = true -> triple P m Q E) -> (b = false -> forall s, P s -> Q tt s) ->
  triple P (when b m) Q E.
Proof. destruct b; cbn; auto using triple_skip. Qed.

Lemma triple_for_each {S A} (I : S -> Prop) (f : A -> M S unit) (l : list A) (E : S -> Prop) :
  (forall x, x ∈ l -> triple I (f x) (fun _ => I) E) -> triple I (for_each f l) (fun _ => I) E.
Proof.
  induction l as [|x l IH]; cbn; intros Hf.
  - by apply triple_skip.
  - eapply triple_bind; [apply Hf; left|]. intros []. apply IH. intros y Hy. apply Hf. by right.
Qed.

(** ** Byte strings: the little-endian layout [memcpy] moves on the host *)

Fixpoint le_bytes (n : nat) (z : Z) : list Z :=
  match n with
  | O => []
  | S n' => wrap 8 z :: le_bytes n' (Z.shiftr z 8)
  end.

Fixpoint le_val (l : list Z) : Z :=
  match l with
  | [] => 0
  | b :: l' => b + 2 ^ 8 * le_val l'
  end.

Lemma length_le_bytes (n : nat) (z : Z) : length (le_bytes n z) = n.
Proof. revert z. induction n; intros; cbn; auto. Qed.

Lemma le_val_bytes (n : nat) (z : Z) : le_val (le_bytes n z) = wrap (8 * Z.of_nat n) z.
Proof.
  revert z. induction n as [|n IH]; intros z; cbn [le_bytes le_val].
  - unfold wrap. cbn. by rewrite Z.mod_1_r.
  - rewrite IH. unfold wrap. rewrite Z.shiftr_div_pow2 by lia.
    replace (8 * Z.of_nat (S n)) with (8 + 8 * Z.of_nat n) by lia.
    rewrite Z.pow_add_r by lia. pose proof (pow2_pos (8 * Z.of_nat n)).
    rewrite Z.rem_mul_r by lia. lia.
Qed.

(** ** FIFOs

    A [hls::stream] is the list of the elements it holds, oldest first; the
    processes read its head and append at its end.  [full] compares with the
    depth the design gives the stream. *)

Definition s_full {A : Type} (depth : nat) (s : list A) : bool := (depth <=? length s)%nat.

Lemma s_full_spec {A : Type} (depth : nat) (s : list A) :
  s_full depth s = true <-> (depth <= length s)%nat.
Proof. apply Nat.leb_le. Qed.

(** Case analysis on the matches and conditionals in the goal or hypotheses. *)
Ltac split_ifs :=
  repeat match goal with
  | |- context [if ?b then _ else _] => destruct b eqn:?
  | |- context [match ?x with _ => _ end] => destruct x eqn:?
  end.

Ltac simpl_bools :=
  rewrite ?andb_true_iff, ?andb_false_iff, ?orb_true_iff, ?orb_false_iff, ?negb_true_iff,
    ?negb_false_iff, ?Z.eqb_eq, ?Z.eqb_neq, ?Z.ltb_lt, ?Z.ltb_ge, ?Z.leb_le, ?Z.leb_gt in *.

(** Evaluates the decisions on closed propositions. *)
Ltac eval_decide :=
  repeat match goal with
  | |- context [bool_decide ?P] =>
      let b := eval vm_compute in (bool_decide P) in
      lazymatch b with
      | true => change (bool_decide P) with true
      | false => change (bool_decide P) with false
      end
  | |- context [@decide ?P ?d] =>
      let b := eval vm_compute in (bool_decide P) in
      lazymatch b with
      | true => rewrite (decide_True (P := P)) by reflexivity
      | false => rewrite (decide_False (P := P)) by discriminate
      end
  end.

(** Computations without a polling loop always produce an outcome. *)
Definition never_spins {S A : Type} (m : M S A) : Prop := forall s, fst (m s) <> Spin.

Lemma never_spins_bind {S A B} (m : M S A) (k : A -> M S B) :
  never_spins m -> (forall a, never_spins (k a)) -> never_spins (m ≫= k).
Proof.
  intros Hm Hk s. unfold mbind, M_bind. specialize (Hm s).
  destruct (m s) as [[a|e|e|] s']; cbn in *; try done. apply Hk.
Qed.

Lemma never_spins_for_each {S A} (f : A -> M S unit) (l : list A) :
  (forall x, never_spins (f x)) -> never_spins (for_each f l).
Proof.
  intros Hf. induction l as [|x l IH]; cbn [for_each]; [done|].
  by apply never_spins_bind.
Qed.

Lemma never_spins_ret {S A} (a : A) : never_spins (mret a : M S A).
Proof. done. Qed.
Lemma never_spins_gets {S A} (f : S -> A) : never_spins (gets f).
Proof. done. Qed.
Lemma never_spins_modify {S} (f : S -> S) : never_spins (modify f).
Proof. done. Qed.
Lemma never_spins_throw {S A} (e : string) : never_spins (throw e : M S A).
Proof. done. Qed.
Lemma never_spins_undef {S A} (e : string) : never_spins (undef e : M S A).
Proof. done. Qed.
Lemma never_spins_when {S} (b : bool) (m : M S unit) : never_spins m -> never_spins (when b m).
Proof. by destruct b. Qed.

Create HintDb spins discriminated.
#[export] Hint Resolve never_spins_ret never_spins_gets never_spins_modify never_spins_throw
  never_spins_undef never_spins_when never_spins_for_each : spins.

Ltac spins_step :=
  match goal with
  | |- never_spins (mbind _ _) => apply never_spins_bind; [|intros ?]
  | |- never_spins (if ?b then _ else _) => destruct b
  | |- never_spins (match ?x with _ => _ end) => destruct x
  | |- never_spins skip => apply never_spins_ret
  end.
Ltac spins_tac := repeat first [solve [auto with spins] | spins_step | apply never_spins_when].

(** A command that always produces an outcome and never throws returns. *)
Lemma triple_returns {S A} (P : S -> Prop) (m : M S A) (Q : A -> S -> Prop) (s : S) :
  triple P m Q (fun _ => False) -> never_spins m -> P s ->
  exists a s', m s = (Ret a, s') /\ Q a s'.
Proof.
  intros Ht Hn Hs. specialize (Ht s Hs). specialize (Hn s).
  destruct (m s) as [[a|e|e|] s']; cbn in *; try done. by exists a, s'.
Qed.

(** ** Steps of concurrent components

    An atomic section of a thread, chosen by a label, is blocked (its guard or
    mutex does not let it run), has no defined behaviour, or leads on. *)
Inductive step_result (S : Type) : Type :=
| Blocked
| StepUndef (why : string)
| Next (s : S).
Arguments Blocked {S}.
Arguments StepUndef {S} why.
Arguments Next {S} s.

Section step_runs.
Context {S L : Type} (step : L -> S -> step_result S).

(** Running a list of sections; the run ends at the first that is blocked or
    undefined. *)
Fixpoint steps (ls : list L) (s : S) : step_result S :=
  match ls with
  | [] => Next s
  | l :: ls' =>
      match step l s with
      | Next s' => steps ls' s'
      | Blocked => Blocked
      | StepUndef e => StepUndef e
      end
  end.

Lemma steps_app (l1 l2 : list L) (s s1 : S) :
  steps l1 s = Next s1 -> steps (l1 ++ l2) s = steps l2 s1.
Proof.
  revert s. induction l1 as [|l l1 IH]; intros s; cbn [steps app].
  - by intros [= ->].
  - destruct (step l s); try done. apply IH.
Qed.

(** An invariant of the steps that [ok] admits holds along every run of them. *)
Lemma steps_invariant (ok : L -> Prop) (I : S -> Prop) :
  (forall l s s', ok l -> I s -> step l s = Next s' -> I s') ->
  forall ls s s', Forall ok ls -> I s -> steps ls s = Next s' -> I s'.
Proof.
  intros Hstep ls s s' Hls. revert s. induction Hls as [|l ls Hl Hls IH]; intros s HI.
  - by intros [= <-].
  - cbn [steps]. destruct (step l s) eqn:Hl1; try done. apply IH. by eapply Hstep.
Qed.

(** The same for an invariant that speaks of the steps taken so far. *)
Lemma steps_history (I : list L -> S -> Prop) :
  (forall h l s s', I h s -> step l s = Next s' -> I (h ++ [l]) s') ->
  forall ls s s', I [] s -> steps ls s = Next s' -> I ls s'.
Proof.
  intros Hstep ls. change ls with ([] ++ ls) at 2. generalize (@nil L). induction ls as [|l ls IH]; intros h s s' HI.
  - intros [= <-]. by rewrite app_nil_r.
  - cbn [steps]. destruct (step l s) as [| |s1] eqn:Hl; try done. intros Hs.
    rewrite cons_middle, app_assoc. eapply IH; [by eapply Hstep | done].
Qed.

(** And such a run never becomes undefined, if no admitted step does. *)
Lemma steps_defined (ok : L -> Prop) (I : S -> Prop) :
  (forall l s s', ok l -> I s -> step l s = Next s' -> I s') ->
  (forall l s e, ok l -> I s -> step l s <> StepUndef e) ->
  forall ls s e, Forall ok ls -> I s -> steps ls s <> StepUndef e.
Proof.
  intros Hstep Hdef ls s e Hls. revert s. induction Hls as [|l ls Hl Hls IH]; intros s HI; [done|].
  cbn [steps]. destruct (step l s) eqn:Hl1.
  - done.
  - intros [= ->]. by apply (Hdef l s e).
  - apply IH. by eapply Hstep.
Qed.
End step_runs.
