(* ===== verification/CoyoteDefs.v ===== *)
(** The shared definitions of the host software, [src/sw/include/cDefs.hpp]:
    control-register layout, enumerations, register indices, constants, the
    transfer descriptors and the board configuration word.  Macros and
    [constexpr] constants are [Z]; their C++ type only matters where a value
    is stored or combined, which the users of the constants write out. *)

From stdpp Require Import base numbers list gmap strings.
From Stdlib Require Import ZArith Lia.
From S2P Require Import Prelude.

Local Open Scope Z_scope.

(** ** High and low halves

    The macros are textual: the width and signedness of the shift are those of
    the argument.  [HIGH_16] is applied to the [int] a lane extraction yields,
    so its shift is arithmetic; [Z.shiftr] is that shift on a signed value. *)
Definition HIGH_32 (data : Z) : Z := Z.shiftr (Z.shiftr data 16) 16.
Definition LOW_32 (data : Z) : Z := Z.land data 0xffffffff.
Definition HIGH_16 (data : Z) : Z := Z.shiftr data 16.
Definition LOW_16 (data : Z) : Z := Z.land data 0xffff.

(** ** Control register *)
Definition CTRL_START_RD : Z := Z.shiftl 1 0.
Definition CTRL_START_WR : Z := Z.shiftl 1 1.
Definition CTRL_SYNC_RD : Z := Z.shiftl 1 2.
Definition CTRL_SYNC_WR : Z := Z.shiftl 1 3.
Definition CTRL_STREAM_RD : Z := Z.shiftl 1 4.
Definition CTRL_STREAM_WR : Z := Z.shiftl 1 5.
Definition CTRL_CLR_STAT_RD : Z := Z.shiftl 1 6.
Definition CTRL_CLR_STAT_WR : Z := Z.shiftl 1 7.
Definition CTRL_DEST_RD : Z := 9.
Definition CTRL_PID_RD : Z := 17.
Definition CTRL_PID_WR : Z := 23.
Definition CTRL_DEST_MASK : Z := 0xf.
Definition CTRL_PID_MASK : Z := 0x3f.

(** ** RDMA post register *)
Definition RDMA_POST_OFFS : Z := 0.
Definition RDMA_OPCODE_OFFS : Z := 1.
Definition RDMA_OPCODE_MASK : Z := 0x1f.
Definition RDMA_PID_OFFS : Z := 6.
Definition RDMA_PID_MASK : Z := 0x3f.
Definition RDMA_VFID_OFFS : Z := 12.
Definition RDMA_VFID_MASK : Z := 0xf.
Definition RDMA_HOST_OFFS : Z := 16.
Definition RDMA_MODE_OFFS : Z := 17.
Definition RDMA_LAST_OFFS : Z := 18.
Definition RDMA_CLR_OFFS : Z := 19.

#[export] Hint Unfold CTRL_START_RD CTRL_START_WR CTRL_SYNC_RD CTRL_SYNC_WR CTRL_STREAM_RD
  CTRL_STREAM_WR CTRL_CLR_STAT_RD CTRL_CLR_STAT_WR CTRL_DEST_RD CTRL_PID_RD CTRL_PID_WR
  CTRL_DEST_MASK CTRL_PID_MASK RDMA_POST_OFFS RDMA_OPCODE_OFFS RDMA_OPCODE_MASK RDMA_PID_OFFS
  RDMA_PID_MASK RDMA_VFID_OFFS RDMA_VFID_MASK RDMA_HOST_OFFS RDMA_MODE_OFFS RDMA_LAST_OFFS
  RDMA_CLR_OFFS : regs.

(** ** Driver requests

    The [ioctl] commands, [_IOW('D', n, ...)] and [_IOR('D', n, ...)]; a
    request is identified by its command. *)
Inductive IoctlCmd : Type :=
| IOCTL_ALLOC_HOST_USER_MEM
| IOCTL_FREE_HOST_USER_MEM
| IOCTL_ALLOC_HOST_PR_MEM
| IOCTL_FREE_HOST_PR_MEM
| IOCTL_MAP_USER
| IOCTL_UNMAP_USER
| IOCTL_REGISTER_PID
| IOCTL_UNREGISTER_PID
| IOCTL_RECONFIG_LOAD
| IOCTL_ARP_LOOKUP
| IOCTL_WRITE_CTX
| IOCTL_WRITE_CONN
| IOCTL_READ_CNFG
| IOCTL_NET_DROP.

#[export] Instance IoctlCmd_eq_dec : EqDecision IoctlCmd.
Proof. solve_decision. Defined.

(** ** Enumerations *)
Inductive CoyoteOper : Type := NOOP | READ | WRITE | TRANSFER | OFFLOAD | SYNC.
Inductive CoyoteAlloc : Type := REG_4K | HUGE_2M | HOST_2M | RCNFG_2M.
Inductive IODevs : Type :=
| HOST_MEM
| FPGA_DRAM
| RDMA_0_HOST_SEND
| RDMA_0_HOST_RECEIVE
| RDMA_0_CARD_SEND
| RDMA_0_CARD_RECEIVE
| RDMA_1_HOST_SEND
| RDMA_1_HOST_RECEIVE
| RDMA_1_CARD_SEND
| RDMA_1_CARD_RECEIVE
| ERROR_DEV.
Inductive ibvOpcode : Type :=
| IBV_WR_RDMA_READ
| IBV_WR_RDMA_WRITE
| IBV_WR_SEND
| IBV_WR_IMMED_LOW
| IBV_WR_IMMED_MID
| IBV_WR_IMMED_HIGH.

#[export] Instance CoyoteOper_eq_dec : EqDecision CoyoteOper.
Proof. solve_decision. Defined.
#[export] Instance CoyoteAlloc_eq_dec : EqDecision CoyoteAlloc.
Proof. solve_decision. Defined.
#[export] Instance IODevs_eq_dec : EqDecision IODevs.
Proof. solve_decision. Defined.
#[export] Instance ibvOpcode_eq_dec : EqDecision ibvOpcode.
Proof. solve_decision. Defined.

(** [static_cast<uint8_t>(io_dev)]. *)
Definition io_dev_code (d : IODevs) : Z :=
  match d with
  | HOST_MEM => 0x01
  | FPGA_DRAM => 0x02
  | RDMA_0_HOST_SEND => 5
  | RDMA_0_HOST_RECEIVE => 9
  | RDMA_0_CARD_SEND => 6
  | RDMA_0_CARD_RECEIVE => 10
  | RDMA_1_HOST_SEND => 17
  | RDMA_1_HOST_RECEIVE => 33
  | RDMA_1_CARD_SEND => 18
  | RDMA_1_CARD_RECEIVE => 34
  | ERROR_DEV => 255
  end.

(** [static_cast<uint64_t>(wr->opcode)]. *)
Definition opcode_code (o : ibvOpcode) : Z :=
  match o with
  | IBV_WR_RDMA_READ => 0
  | IBV_WR_RDMA_WRITE => 1
  | IBV_WR_SEND => 2
  | IBV_WR_IMMED_LOW => 3
  | IBV_WR_IMMED_MID => 4
  | IBV_WR_IMMED_HIGH => 5
  end.

(** ** Register indices *)
Module CnfgAvxRegs.
Definition CTRL_REG : Z := 0.
Definition STAT_REG : Z := 4.
Definition RDMA_POST_REG : Z := 16.
Definition RDMA_POST_REG_0 : Z := 17.
Definition RDMA_STAT_REG : Z := 19.
Definition RDMA_CMPLT_REG : Z := 20.
Definition REQ_COUNT_REG : Z := 51.
Definition IO_SWITCH_REG : Z := 53.
Definition PRIO_STAT_REG : Z := 54.
Definition STAT_DMA_REG : Z := 64.
End CnfgAvxRegs.

Module CnfgLegRegs.
Definition CTRL_REG : Z := 0.
Definition VADDR_RD_REG : Z := 1.
Definition LEN_RD_REG : Z := 2.
Definition VADDR_WR_REG : Z := 3.
Definition LEN_WR_REG : Z := 4.
Definition STAT_CMD_USED_RD_REG : Z := 9.
Definition STAT_CMD_USED_WR_REG : Z := 10.
Definition RDMA_POST_REG : Z := 32.
Definition RDMA_POST_REG_0 : Z := 33.
Definition RDMA_POST_REG_1 : Z := 34.
Definition RDMA_POST_REG_2 : Z := 35.
Definition RDMA_POST_REG_3 : Z := 36.
Definition RDMA_STAT_CMD_USED_REG : Z := 41.
Definition RDMA_CMPLT_REG : Z := 43.
Definition STAT_DMA_REG : Z := 64.
Definition IO_SWITCH_REG : Z := 127.
Definition STAT_RDMA_REG : Z := 128.
End CnfgLegRegs.

(** ** Constants *)
Definition hugePageSize : Z := 2 * 1024 * 1024.
Definition pageShift : Z := 12.
Definition hugePageShift : Z := 21.
Definition pidBits : Z := 6.
Definition pidMask : Z := 0x3f.
Definition nRegMask : Z := 0xf.
Definition cmdFifoDepth : Z := 32.
Definition cmdFifoThr : Z := 10.
Definition nCpidMax : Z := 64.
Definition ctrlRegionSize : Z := 64 * 1024.
Definition cnfgRegionSize : Z := 64 * 1024.
Definition cnfgAvxRegionSize : Z := 256 * 1024.
Definition wbackRegionSize : Z := 4 * nCpidMax * 4.
Definition mmapCtrl : Z := Z.shiftl 0x0 pageShift.
Definition mmapCnfg : Z := Z.shiftl 0x1 pageShift.
Definition mmapCnfgAvx : Z := Z.shiftl 0x2 pageShift.
Definition mmapWb : Z := Z.shiftl 0x3 pageShift.
Definition mmapBuff : Z := Z.shiftl 0x200 pageShift.
Definition mmapPr : Z := Z.shiftl 0x400 pageShift.
Definition axiDataWidth : Z := 64.
Definition qsfpOffsAvx : Z := 8.
Definition qsfpOffsLeg : Z := 16.
Definition qpContextQpnOffs : Z := 32.
Definition qpContextRpsnOffs : Z := 0.
Definition qpContextLpsnOffs : Z := 24.
Definition qpContextRkeyOffs : Z := 0.
Definition qpContextVaddrOffs : Z := 16.
Definition connContextLqpnOffs : Z := 0.
Definition connContextRqpnOffs : Z := 16.
Definition connContextPortOffs : Z := 40.
Definition ibvImmedHigh : Z := 1.
Definition ibvImmedMid : Z := 0.
Definition recvBuffSize : Z := 1024.
Definition defOpClose : Z := 0.

#[export] Hint Unfold qpContextQpnOffs qpContextRpsnOffs qpContextLpsnOffs qpContextRkeyOffs
  qpContextVaddrOffs connContextLqpnOffs connContextRqpnOffs connContextPortOffs : regs.

(** ** Operations *)
Definition isRead (oper : CoyoteOper) : bool :=
  bool_decide (oper = READ) || bool_decide (oper = OFFLOAD) || bool_decide (oper = TRANSFER).
Definition isWrite (oper : CoyoteOper) : bool :=
  bool_decide (oper = WRITE) || bool_decide (oper = SYNC) || bool_decide (oper = TRANSFER).
Definition isSync (oper : CoyoteOper) : bool :=
  bool_decide (oper = OFFLOAD) || bool_decide (oper = SYNC).

(** ** Structs *)
Record csAlloc : Type := mk_csAlloc { alloc : CoyoteAlloc; n_pages : Z }.

Record csInvokeAll : Type := mk_csInvokeAll {
  oper : CoyoteOper;
  src_addr : Z;
  dst_addr : Z;
  src_len : Z;
  dst_len : Z;
  clr_stat : bool;
  poll : bool;
  dest : Z;
  stream : bool;
  req_count : Z;
  prio : Z
}.

Record csInvoke : Type := mk_csInvoke {
  i_oper : CoyoteOper;
  i_addr : Z;
  i_len : Z;
  i_clr_stat : bool;
  i_poll : bool;
  i_dest : Z;
  i_stream : bool
}.

Record fCnfg : Type := mk_fCnfg {
  en_avx : bool;
  en_bypass : bool;
  en_tlbf : bool;
  en_wb : bool;
  en_strm : bool;
  en_mem : bool;
  en_pr : bool;
  en_rdma_0 : bool;
  en_rdma_1 : bool;
  en_rdma : bool;
  en_tcp_0 : bool;
  en_tcp_1 : bool;
  en_tcp : bool;
  en_net_0 : bool;
  en_net_1 : bool;
  en_net : bool;
  n_fpga_chan : Z;
  n_fpga_reg : Z;
  qsfp : Z;
  qsfp_offs : Z
}.

(** The members before [parseCnfg] runs. *)
Definition fCnfg_default : fCnfg :=
  mk_fCnfg false false false false false false false false false false false false false false
    false false 0 0 0 0.

Definition parseCnfg (cnfg : Z) : fCnfg :=
  let bit i := bool_decide (Z.land (Z.shiftr cnfg i) 0x1 <> 0) in
  let avx := bit 0 in
  let rdma_0 := bit 16 in
  let rdma_1 := bit 17 in
  let tcp_0 := bit 18 in
  let tcp_1 := bit 19 in
  let net_0 := rdma_0 || tcp_0 in
  let net_1 := rdma_1 || tcp_1 in
  {| en_avx := avx;
     en_bypass := bit 1;
     en_tlbf := bit 2;
     en_wb := bit 3;
     en_strm := bit 4;
     en_mem := bit 5;
     en_pr := bit 6;
     en_rdma_0 := rdma_0;
     en_rdma_1 := rdma_1;
     en_rdma := rdma_0 || rdma_1;
     en_tcp_0 := tcp_0;
     en_tcp_1 := tcp_1;
     en_tcp := tcp_0 || tcp_1;
     en_net_0 := net_0;
     en_net_1 := net_1;
     en_net := net_0 || net_1;
     n_fpga_chan := Z.land (Z.shiftr cnfg 32) 0xff;
     n_fpga_reg := Z.land (Z.shiftr cnfg 48) 0xff;
     qsfp := Z.b2z net_1;
     qsfp_offs := if net_1 then (if avx then qsfpOffsAvx else qsfpOffsLeg) else 0 |}.

(** The well-formedness the rest of the software relies on: the configuration
    came out of [parseCnfg]. *)
Definition cnfg_wf (c : fCnfg) : Prop :=
  qsfp c = Z.b2z (en_net_1 c) /\
  qsfp_offs c = (if en_net_1 c then (if en_avx c then qsfpOffsAvx else qsfpOffsLeg) else 0).

Lemma parseCnfg_wf (cnfg : Z) : cnfg_wf (parseCnfg cnfg).
Proof. by split. Qed.

Lemma cnfg_wf_qsfp (c : fCnfg) : cnfg_wf c -> qsfp c = 0 \/ qsfp c = 1.
Proof. intros [-> _]. destruct (en_net_1 c); auto. Qed.

#[export] Hint Resolve parseCnfg_wf : regs.

Lemma isRead_isWrite_cases (o : CoyoteOper) :
  o = NOOP \/ isRead o = true \/ isWrite o = true.
Proof. destruct o; cbn; auto. Qed.

Lemma io_dev_code_u8 (d : IODevs) : fits 8 (io_dev_code d).
Proof. destruct d; unfold fits; cbn; lia. Qed.

Lemma opcode_code_fits (o : ibvOpcode) : fits 5 (opcode_code o).
Proof. destruct o; unfold fits; cbn; lia. Qed.
