(* ===== verification/IbvStructs.v ===== *)
(** The RDMA verbs data of the host software, [src/sw/include/ibvStructs.hpp]
    and [src/sw/src/ibvStructs.cpp]: a queue with its textual global ID, queue
    pairs, scatter-gather entries, work requests, and the queue-pair ID pool.

    A [char] buffer is the list of its byte values.  [sscanf("%x")] and the
    [ostringstream] formatting of [uintToGid] are written out as the C and C++
    libraries document them. *)

From stdpp Require Import base numbers list gmap strings.
From Stdlib Require Import ZArith Lia.
From S2P Require Import Prelude CoyoteDefs.

Local Open Scope Z_scope.

(** ** Queues *)
Record ibvQ : Type := mk_ibvQ {
  ip_addr : Z;
  qpn : Z;
  psn : Z;
  rkey : Z;
  vaddr : Z;
  size : Z;
  gid : list Z
}.

Definition set_gid (g : list Z) (q : ibvQ) : ibvQ :=
  mk_ibvQ (ip_addr q) (qpn q) (psn q) (rkey q) (vaddr q) (size q) g.

(** [gid] is a [char[33]] that starts out zeroed. *)
Definition ibvQ_zero : ibvQ := mk_ibvQ 0 0 0 0 0 0 (replicate 33 0).

(** [ntohl] on a little-endian host. *)
Definition ntohl (v : Z) : Z :=
  Z.lor (Z.lor (Z.shiftl (bits v 0 8) 24) (Z.shiftl (bits v 8 8) 16))
        (Z.lor (Z.shiftl (bits v 16 8) 8) (bits v 24 8)).

(** Value of a hexadecimal digit character. *)
Definition hex_val (c : Z) : option Z :=
  if (48 <=? c) && (c <=? 57) then Some (c - 48)
  else if (97 <=? c) && (c <=? 102) then Some (c - 87)
  else if (65 <=? c) && (c <=? 70) then Some (c - 55)
  else None.

Definition hex_digit (d : Z) : Z := if d <? 10 then 48 + d else 87 + d.

Definition is_space (c : Z) : bool := (c =? 32) || ((9 <=? c) && (c <=? 13)).

Fixpoint skip_space (l : list Z) : list Z :=
  match l with
  | c :: l' => if is_space c then skip_space l' else l
  | [] => []
  end.

Fixpoint scan_digits (acc : Z) (l : list Z) : Z :=
  match l with
  | c :: l' => match hex_val c with Some d => scan_digits (16 * acc + d) l' | None => acc end
  | [] => acc
  end.

Definition skip_0x (l : list Z) : list Z :=
  match l with
  | c :: x :: l' => if (c =? 48) && ((x =? 120) || (x =? 88)) then l' else l
  | _ => l
  end.

(** The value [sscanf(l, "%x", &v32)] leaves in [v32], which held 0. *)
Definition sscanf_x (l : list Z) : Z :=
  match skip_space l with
  | c :: l' =>
      if c =? 43 then u32 (scan_digits 0 (skip_0x l'))
      else if c =? 45 then u32 (- scan_digits 0 (skip_0x l'))
      else u32 (scan_digits 0 (skip_0x (c :: l')))
  | [] => 0
  end.

(** The eight digits [setw(8) << setfill('0') << hex] prints for a [uint32_t]. *)
Definition hex8 (v : Z) : list Z :=
  (fun i => hex_digit (bits v (4 * i) 4)) <$> [7; 6; 5; 4; 3; 2; 1; 0].

(** [memcpy(buf + i, data, |data|)] inside the buffer. *)
Definition put_slice (buf : list Z) (i : nat) (data : list Z) : list Z :=
  take i buf ++ data ++ drop (i + length data) buf.

Definition gidToUint (idx : nat) (q : ibvQ) : Z :=
  if (24 <? idx)%nat then 0
  else
    let tmp := take 8 (drop idx (gid q)) in
    ntohl (sscanf_x tmp).

Definition uintToGid (idx : nat) (ip : Z) (q : ibvQ) : ibvQ :=
  set_gid (put_slice (gid q) idx (hex8 ip)) q.

(** ** Queue pairs *)
Record ibvQp : Type := mk_ibvQp { id : Z; local : ibvQ; remote : ibvQ }.

(** ** Work requests

    The [union] of [ibvSge] holds the member last written; reading another
    one is type punning, which the users of the type treat as undefined. *)
Inductive ibvSge : Type :=
| SgeRdma (local_offs remote_offs len : Z)
| SgeSend (local_addr len : Z)
| SgeImmed (params : list Z).

Record ibvSendFlags : Type := mk_ibvSendFlags { host : bool; mode : bool; last : bool; clr : bool }.

Record ibvSendWr : Type := mk_ibvSendWr {
  opcode : ibvOpcode;
  sg_list : list ibvSge;
  num_sge : Z;
  send_flags : ibvSendFlags
}.

Definition isRDMA (wr : ibvSendWr) : bool :=
  bool_decide (opcode wr = IBV_WR_RDMA_READ) || bool_decide (opcode wr = IBV_WR_RDMA_WRITE).
Definition isSEND (wr : ibvSendWr) : bool := bool_decide (opcode wr = IBV_WR_SEND).

(** ** Queue-pair ID pool

    [pool] is an array and a pointer into it its index; the pointer one past
    the last element is the array's length.  The constructor neither allocates
    the array nor sets [free]: both are taken as the memory holds them. *)
Module ibvQpPool.

Record el : Type := mk_el { el_id : Z; free : bool; next : nat }.
Record t : Type := mk_pool { n_free_el : Z; pool : list el; curr_el : nat }.

Definition init (n_el : nat) (mem : nat -> el) : t :=
  {| n_free_el := u32 (Z.of_nat n_el);
     pool := (fun i => mk_el (Z.of_nat i) (free (mem i)) (i + 1)%nat) <$> seq 0 n_el;
     curr_el := 0 |}.

Definition acquire (p : t) : outcome (Z * t) :=
  if negb (n_free_el p =? 0) then
    match pool p !! curr_el p with
    | None => Undef "dereference past the end of the pool"
    | Some e =>
        Ret (el_id e,
             mk_pool (u32 (n_free_el p - 1))
                     (<[curr_el p := mk_el (el_id e) false (next e)]> (pool p)) (next e))
    end
  else Ret (-1, p).

Definition release (i : nat) (p : t) : outcome (bool * t) :=
  match pool p !! i with
  | None => Undef "index outside the pool"
  | Some e =>
      if negb (free e) then
        Ret (true, mk_pool (u32 (n_free_el p + 1))
                           (<[i := mk_el (el_id e) (free e) (curr_el p)]> (pool p)) i)
      else Ret (false, p)
  end.

End ibvQpPool.

(** ** Lemmas on the textual global ID *)

Lemma ntohl_fits (v : Z) : fits 32 (ntohl v).
Proof.
  assert (forall i, 32 <= i -> Z.testbit (ntohl v) i = false) as Hhi.
  { intros i Hi. unfold ntohl. rewrite !Z.lor_spec, !Z.shiftl_spec by lia.
    rewrite !(fits_testbit 8) by first [lia | apply bits_range; lia]. done. }
  split.
  - unfold ntohl. rewrite !Z.lor_nonneg, !Z.shiftl_nonneg.
    repeat split; apply bits_range; lia.
  - destruct (Z.lt_ge_cases (ntohl v) (2 ^ 32)) as [|Hge]; [done|].
    pose proof (Z.log2_le_pow2 (ntohl v) 32 ltac:(lia)) as [Hlog _].
    specialize (Hlog Hge). pose proof (Z.bit_log2 (ntohl v) ltac:(lia)) as Hb.
    by rewrite (Hhi (Z.log2 (ntohl v)) Hlog) in Hb.
Qed.

Lemma ntohl_involutive (v : Z) : fits 32 v -> ntohl (ntohl v) = v.
Proof.
  intros Hv. apply Z.bits_inj'. intros i Hi.
  destruct (Z.lt_ge_cases i 32) as [Hlt|Hge].
  2:{ rewrite (fits_testbit 32 v), (fits_testbit 32 (ntohl _)) by (auto using ntohl_fits; lia). done. }
  assert (forall x lo, bits (ntohl x) lo 8 = bits x (24 - lo) 8 \/ ~ (lo ∈ [0; 8; 16; 24])) as Hswap.
  { intros x lo. destruct (decide (lo ∈ [0; 8; 16; 24])) as [Hin|]; [left | by right].
    unfold ntohl. rewrite <- (Z.shiftl_0_r (bits x 24 8)).
    rewrite !elem_of_cons, elem_of_nil in Hin.
    destruct Hin as [->|[->|[->|[->|[]]]]]; solve_bits;
      by rewrite wrap_small by (apply bits_range; lia). }
  assert (forall x lo, lo ∈ [0; 8; 16; 24] -> bits (ntohl x) lo 8 = bits x (24 - lo) 8) as Hsw.
  { intros x lo Hlo. by destruct (Hswap x lo). }
  set (lo := i / 8 * 8).
  assert (lo ∈ [0; 8; 16; 24] /\ 24 - lo ∈ [0; 8; 16; 24] /\ lo <= i < lo + 8) as (H1 & H2 & H3).
  { subst lo. pose proof (Z.div_pos i 8). pose proof (Z.div_lt_upper_bound i 8 4).
    pose proof (Z.div_mod i 8 ltac:(lia)). pose proof (Z.mod_pos_bound i 8).
    assert (i / 8 = 0 \/ i / 8 = 1 \/ i / 8 = 2 \/ i / 8 = 3) as Hc by lia.
    rewrite !elem_of_cons. lia. }
  pose proof (Hsw (ntohl v) lo H1) as E. rewrite (Hsw v (24 - lo) H2) in E.
  replace (24 - (24 - lo)) with lo in E by lia.
  apply (f_equal (fun z => Z.testbit z (i - lo))) in E.
  rewrite !bits_testbit in E by lia.
  replace (i - lo <? 8) with true in E by lia.
  by replace (i - lo + lo) with i in E by lia.
Qed.

Lemma hex_val_digit (d : Z) : 0 <= d < 16 -> hex_val (hex_digit d) = Some d.
Proof.
  intros. unfold hex_val, hex_digit. destruct (Z.ltb_spec d 10).
  - replace ((48 <=? 48 + d) && (48 + d <=? 57)) with true by lia. f_equal. lia.
  - replace ((48 <=? 87 + d) && (87 + d <=? 57)) with false by lia.
    replace ((97 <=? 87 + d) && (87 + d <=? 102)) with true by lia. f_equal. lia.
Qed.

Lemma scan_digits_hex (acc : Z) (ds : list Z) :
  Forall (fun d => 0 <= d < 16) ds ->
  scan_digits acc (hex_digit <$> ds) = fold_left (fun a d => 16 * a + d) ds acc.
Proof.
  revert acc. induction ds as [|d ds IH]; intros acc Hds; [done|].
  apply Forall_cons in Hds as [Hd Hds]. cbn. rewrite hex_val_digit by done. by apply IH.
Qed.

(** A first character that is a digit starts a plain number. *)
Lemma sscanf_x_digits (d e : Z) (ds : list Z) :
  Forall (fun d => 0 <= d < 16) (d :: e :: ds) ->
  sscanf_x (hex_digit <$> (d :: e :: ds)) =
    u32 (fold_left (fun a d => 16 * a + d) (d :: e :: ds) 0).
Proof.
  intros Hall. rewrite <- scan_digits_hex by done. cbn [fmap list_fmap].
  apply Forall_cons in Hall as [Hd Hall]. apply Forall_cons in Hall as [He _].
  assert (48 <= hex_digit d <= 57 \/ 97 <= hex_digit d <= 102) as Hrd
    by (unfold hex_digit; destruct (Z.ltb_spec d 10); lia).
  assert (48 <= hex_digit e <= 57 \/ 97 <= hex_digit e <= 102) as Hre
    by (unfold hex_digit; destruct (Z.ltb_spec e 10); lia).
  generalize dependent (hex_digit e). intros ce Hre.
  generalize dependent (hex_digit d). intros cd Hrd.
  unfold sscanf_x. cbn [skip_space].
  replace (is_space cd) with false by (unfold is_space; lia).
  replace (cd =? 43) with false by lia. replace (cd =? 45) with false by lia.
  unfold skip_0x. replace ((ce =? 120) || (ce =? 88)) with false by lia.
  by rewrite andb_false_r.
Qed.

Lemma bits_nibble_step (v j k : Z) :
  0 <= k -> j = k + 1 -> 16 * Z.shiftr v (4 * j) + bits v (4 * k) 4 = Z.shiftr v (4 * k).
Proof.
  intros ? ->. rewrite bits_wrap, !Z.shiftr_div_pow2 by lia. unfold wrap.
  replace (4 * (k + 1)) with (4 * k + 4) by lia.
  rewrite Z.pow_add_r by lia. rewrite <- Z.div_div by (pose proof (pow2_pos (4 * k)); lia).
  pose proof (Z.div_mod (v / 2 ^ (4 * k)) (2 ^ 4) ltac:(lia)). lia.
Qed.

Lemma sscanf_x_hex8 (v : Z) : fits 32 v -> sscanf_x (hex8 v) = v.
Proof.
  intros Hv.
  change (hex8 v) with
    (hex_digit <$> (bits v (4 * 7) 4 :: bits v (4 * 6) 4 ::
       ((fun i => bits v (4 * i) 4) <$> [5; 4; 3; 2; 1; 0]))).
  rewrite sscanf_x_digits by (repeat constructor; apply (bits_range v _ 4); lia).
  cbn [fmap list_fmap].
  cbn [fold_left].
  replace (16 * 0) with (16 * Z.shiftr v (4 * 8)).
  2:{ rewrite Z.shiftr_div_pow2 by lia. rewrite Z.div_small by (apply Hv). done. }
  rewrite !bits_nibble_step by lia.
  rewrite Z.shiftr_0_r. by apply wrap_small.
Qed.

Lemma length_hex8 (v : Z) : length (hex8 v) = 8%nat.
Proof. done. Qed.

(** ** The buffer the global ID lives in *)

Lemma put_slice_length (buf data : list Z) (i : nat) :
  (i + length data <= length buf)%nat -> length (put_slice buf i data) = length buf.
Proof. intros. unfold put_slice. rewrite !length_app, length_take, length_drop. lia. Qed.

Lemma put_slice_same (buf data : list Z) (i : nat) :
  (i <= length buf)%nat -> take (length data) (drop i (put_slice buf i data)) = data.
Proof.
  intros. unfold put_slice.
  rewrite drop_app_ge by (rewrite length_take; lia).
  rewrite length_take, Nat.min_l, Nat.sub_diag, drop_0 by lia. by rewrite take_app_length.
Qed.

Lemma put_slice_other (buf data : list Z) (i j n : nat) :
  (i + length data <= length buf)%nat ->
  (j + n <= i \/ i + length data <= j)%nat ->
  take n (drop j (put_slice buf i data)) = take n (drop j buf).
Proof.
  intros Hlen Hdisj. apply list_eq. intros k.
  destruct (decide (k < n)%nat) as [Hk|Hk].
  2:{ by rewrite !lookup_take_ge by lia. }
  rewrite !lookup_take_lt, !lookup_drop by done. unfold put_slice.
  destruct Hdisj.
  - rewrite lookup_app_l by (rewrite length_take; lia). by rewrite lookup_take_lt by lia.
  - rewrite lookup_app_r by (rewrite length_take; lia).
    rewrite length_take, Nat.min_l by lia.
    rewrite lookup_app_r by lia. rewrite lookup_drop. f_equal. lia.
Qed.

(** ** Properties *)

(** what [uintToGid] writes at an offset, [gidToUint] reads back there with
    the byte order of [ntohl], and the words at the other offsets the software
    uses (0, 8, 16, 24) are left as they were. *)
Theorem gid_roundtrip (q : ibvQ) (ip : Z) (i j : nat) :
  length (gid q) = 33%nat -> fits 32 ip ->
  i ∈ [0; 8; 16; 24]%nat -> j ∈ [0; 8; 16; 24]%nat ->
  length (gid (uintToGid i ip q)) = 33%nat /\
  gidToUint j (uintToGid i ip q) = if decide (i = j) then ntohl ip else gidToUint j q.
Proof.
  intros Hlen Hip Hi Hj. rewrite !elem_of_cons, elem_of_nil in Hi, Hj.
  unfold uintToGid, gidToUint; cbn [gid set_gid].
  split; [by rewrite put_slice_length by (rewrite length_hex8, Hlen; lia)|].
  rewrite (proj2 (Nat.ltb_ge 24 j)) by lia.
  case_decide as Hij.
  - subst j. rewrite <- (length_hex8 ip) at 1. rewrite put_slice_same by lia.
    by rewrite sscanf_x_hex8.
  - by rewrite put_slice_other by (rewrite ?length_hex8, ?Hlen; lia).
Qed.

Lemma gid_roundtrip_witness :
  fits 32 0x0a000001 /\
  gidToUint 8 (uintToGid 8 0x0a000001 ibvQ_zero) = 0x0100000a.
Proof.
  split; [unfold fits; lia|].
  refine (proj2 (gid_roundtrip ibvQ_zero 0x0a000001 8 8 eq_refl _ _ _)).
  - unfold fits; lia.
  - repeat constructor.
  - repeat constructor.
Defined.

(** [release] never marks an element as free, so releasing an ID twice
    succeeds both times and links the element to itself: from then on every
    [acquire] hands out that same ID, for as long as the count lasts. *)
Theorem pool_double_release (p : ibvQpPool.t) (i : nat) (e : ibvQpPool.el) (k : nat) :
  ibvQpPool.pool p !! i = Some e -> ibvQpPool.free e = false ->
  0 <= ibvQpPool.n_free_el p < 2 ^ 32 - 2 -> Z.of_nat k <= ibvQpPool.n_free_el p + 2 ->
  exists p1 p2,
    ibvQpPool.release i p = Ret (true, p1) /\
    ibvQpPool.release i p1 = Ret (true, p2) /\
    exists ps : list ibvQpPool.t, length ps = S k /\ ps !! 0%nat = Some p2 /\
      forall n pa pb, ps !! n = Some pa -> ps !! S n = Some pb ->
        ibvQpPool.acquire pa = Ret (ibvQpPool.el_id e, pb).
Proof.
  intros Hi Hfree Hn Hk. pose proof (lookup_lt_Some _ _ _ Hi) as Hlt.
  set (e' := ibvQpPool.mk_el (ibvQpPool.el_id e) false i).
  set (q n := ibvQpPool.mk_pool (ibvQpPool.n_free_el p + 2 - Z.of_nat n)
                (<[i := e']> (ibvQpPool.pool p)) i).
  eexists _, (q 0%nat). split; [|split].
  - unfold ibvQpPool.release. by rewrite Hi, Hfree.
  - unfold ibvQpPool.release; cbn. rewrite list_lookup_insert_eq by done. cbn.
    unfold q. rewrite list_insert_insert, decide_True by done.
    rewrite !wrap_small by (unfold fits, wrap; rewrite ?Z.mod_small by lia; lia).
    do 3 f_equal; lia.
  - exists (q <$> seq 0 (S k)). split; [by rewrite length_fmap, length_seq|].
    split; [done|]. intros n pa pb Ha Hb.
    apply list_lookup_fmap_Some in Ha as (na & -> & Ha).
    apply list_lookup_fmap_Some in Hb as (nb & -> & Hb).
    apply lookup_seq in Ha as [-> Ha]. apply lookup_seq in Hb as [-> Hb]. cbn [Nat.add].
    unfold ibvQpPool.acquire, q; cbn [ibvQpPool.n_free_el ibvQpPool.curr_el ibvQpPool.pool].
    replace (_ =? 0) with false by lia. cbn [negb].
    rewrite list_lookup_insert_eq by done. cbn.
    rewrite list_insert_insert, decide_True by done.
    rewrite wrap_small by (unfold fits; lia). do 3 f_equal; lia.
Qed.

Lemma pool_double_release_witness :
  exists p1 p2,
    ibvQpPool.release 0 (ibvQpPool.mk_pool 1 [ibvQpPool.mk_el 7 false 1; ibvQpPool.mk_el 8 false 2] 1)
      = Ret (true, p1) /\
    ibvQpPool.release 0 p1 = Ret (true, p2) /\
    exists ps : list ibvQpPool.t, length ps = 3%nat /\ ps !! 0%nat = Some p2 /\
      forall n pa pb, ps !! n = Some pa -> ps !! S n = Some pb ->
        ibvQpPool.acquire pa = Ret (7, pb).
Proof.
  apply (pool_double_release
           (ibvQpPool.mk_pool 1 [ibvQpPool.mk_el 7 false 1; ibvQpPool.mk_el 8 false 2] 1)
           0 (ibvQpPool.mk_el 7 false 1) 2); cbn; try reflexivity; lia.
Defined.
