(* ===== verification/CProcess.v ===== *)
(** The Coyote process, [src/sw/include/cProcess.hpp] and
    [src/sw/src/cProcess.cpp]: one user process attached to a vFPGA.  It maps
    the vFPGA's control plane, manages user memory, posts data transfers and
    RDMA commands, polls for completion and switches the IO device.

    A [cProcess] object is the record [cProcess]; its member functions are
    computations over it.  Everything the object does to the outside world is
    an [Event] of its [log] (newest first).  What the outside world answers -
    the driver's [ioctl] results, the addresses of [mmap], the value a device
    register holds when it is read - comes from an [Env], a function of the
    history so far.  [EN_AVX] is defined in cDefs.hpp, so the code under it is
    compiled and [fCnfg::en_avx] chooses between the AVX and the legacy
    registers at run time. *)

From stdpp Require Import base numbers list gmap strings.
From Stdlib Require Import ZArith Lia.
From S2P Require Import Prelude CoyoteDefs IbvStructs.

Local Open Scope Z_scope.

(** ** The outside world *)
Inductive Lock : Type := plock | dlock | mlock.

#[export] Instance Lock_eq_dec : EqDecision Lock.
Proof. solve_decision. Defined.

Inductive Event : Type :=
| EOpen (vfid : Z)
| EClose
| EIoctl (cmd : IoctlCmd) (args : list Z)
| EMmap (len offs : Z)
| EMmapAnon (len : Z)
| EMunmap (addr len : Z)
| EMemalign (align len addr : Z)
| EFree (addr : Z)
| EMemcpy (dst src len : Z)
| ELock (l : Lock)
| EUnlock (l : Lock)
| ESchedLock (cpid oid priority : Z)
| ESchedUnlock (cpid : Z)
| EAvxWrite (reg e3 e2 e1 e0 : Z)
| EAvxRead (reg : Z)
| ELegWrite (reg val : Z)
| ELegRead (reg : Z)
| EWbackRead (idx : Z)
| ECtrlWrite (offs val : Z)
| ECtrlRead (offs : Z)
| ESleepNs (ns : Z)
| ESleepUs (us : Z)
| EMutexOpen (name : string)
| EMutexRemove (name : string).

(** [open] yields a descriptor or -1, [ioctl] its return code and the contents
    of the argument array afterwards, [mmap] an address or [MAP_FAILED],
    [munmap] its return code. *)
Record Env : Type := mk_Env {
  env_open : list Event -> Z;
  env_ioctl : list Event -> IoctlCmd -> list Z -> Z * list Z;
  env_mmap : list Event -> Z -> Z;
  env_munmap : list Event -> Z -> Z -> Z;
  env_memalign : list Event -> Z -> Z;
  env_avx : list Event -> Z -> Z;
  env_leg : list Event -> Z -> Z;
  env_wback : list Event -> Z -> Z;
  env_ctrl : list Event -> Z -> Z
}.

Definition MAP_FAILED : Z := -1.

(** ** State *)
Definition mappedVal : Type := csAlloc * Z.

Record cProcess : Type := mk_cProcess {
  fd : Z;
  vfid : Z;
  cpid : Z;
  pid : Z;
  fcnfg : fCnfg;
  csched : bool;
  rd_cmd_cnt : Z;
  wr_cmd_cnt : Z;
  rdma_cmd_cnt : Z;
  cnfg_reg_avx : Z;
  cnfg_reg : Z;
  ctrl_reg : Z;
  wback : Z;
  mapped_pages : gmap Z mappedVal;
  mapped_upages : gset Z;
  last_qp : Z;
  log : list Event
}.

(** The members before the constructor's body, with the in-class initialisers. *)
Definition cProcess_init (vfid pid : Z) (csched : bool) : cProcess :=
  mk_cProcess 0 vfid (-1) pid fCnfg_default csched 0 0 0 0 0 0 0 ∅ ∅ 0 [].

Section setters.
Context (s : cProcess).
Definition set_fd (v : Z) := mk_cProcess v (vfid s) (cpid s) (pid s) (fcnfg s) (csched s)
  (rd_cmd_cnt s) (wr_cmd_cnt s) (rdma_cmd_cnt s) (cnfg_reg_avx s) (cnfg_reg s) (ctrl_reg s)
  (wback s) (mapped_pages s) (mapped_upages s) (last_qp s) (log s).
Definition set_cpid (v : Z) := mk_cProcess (fd s) (vfid s) v (pid s) (fcnfg s) (csched s)
  (rd_cmd_cnt s) (wr_cmd_cnt s) (rdma_cmd_cnt s) (cnfg_reg_avx s) (cnfg_reg s) (ctrl_reg s)
  (wback s) (mapped_pages s) (mapped_upages s) (last_qp s) (log s).
Definition set_fcnfg (v : fCnfg) := mk_cProcess (fd s) (vfid s) (cpid s) (pid s) v (csched s)
  (rd_cmd_cnt s) (wr_cmd_cnt s) (rdma_cmd_cnt s) (cnfg_reg_avx s) (cnfg_reg s) (ctrl_reg s)
  (wback s) (mapped_pages s) (mapped_upages s) (last_qp s) (log s).
Definition set_cnts (rd wr rdma : Z) := mk_cProcess (fd s) (vfid s) (cpid s) (pid s) (fcnfg s)
  (csched s) rd wr rdma (cnfg_reg_avx s) (cnfg_reg s) (ctrl_reg s)
  (wback s) (mapped_pages s) (mapped_upages s) (last_qp s) (log s).
Definition set_regs (avx leg ctrl wb : Z) := mk_cProcess (fd s) (vfid s) (cpid s) (pid s)
  (fcnfg s) (csched s) (rd_cmd_cnt s) (wr_cmd_cnt s) (rdma_cmd_cnt s) avx leg ctrl wb
  (mapped_pages s) (mapped_upages s) (last_qp s) (log s).
Definition set_pages (v : gmap Z mappedVal) := mk_cProcess (fd s) (vfid s) (cpid s) (pid s)
  (fcnfg s) (csched s) (rd_cmd_cnt s) (wr_cmd_cnt s) (rdma_cmd_cnt s) (cnfg_reg_avx s)
  (cnfg_reg s) (ctrl_reg s) (wback s) v (mapped_upages s) (last_qp s) (log s).
Definition set_upages (v : gset Z) := mk_cProcess (fd s) (vfid s) (cpid s) (pid s)
  (fcnfg s) (csched s) (rd_cmd_cnt s) (wr_cmd_cnt s) (rdma_cmd_cnt s) (cnfg_reg_avx s)
  (cnfg_reg s) (ctrl_reg s) (wback s) (mapped_pages s) v (last_qp s) (log s).
Definition set_last_qp (v : Z) := mk_cProcess (fd s) (vfid s) (cpid s) (pid s)
  (fcnfg s) (csched s) (rd_cmd_cnt s) (wr_cmd_cnt s) (rdma_cmd_cnt s) (cnfg_reg_avx s)
  (cnfg_reg s) (ctrl_reg s) (wback s) (mapped_pages s) (mapped_upages s) v (log s).
Definition set_log (v : list Event) := mk_cProcess (fd s) (vfid s) (cpid s) (pid s)
  (fcnfg s) (csched s) (rd_cmd_cnt s) (wr_cmd_cnt s) (rdma_cmd_cnt s) (cnfg_reg_avx s)
  (cnfg_reg s) (ctrl_reg s) (wback s) (mapped_pages s) (mapped_upages s) (last_qp s) v.
End setters.

Definition set_rd (v : Z) (s : cProcess) := set_cnts s v (wr_cmd_cnt s) (rdma_cmd_cnt s).
Definition set_wr (v : Z) (s : cProcess) := set_cnts s (rd_cmd_cnt s) v (rdma_cmd_cnt s).
Definition set_rdma (v : Z) (s : cProcess) := set_cnts s (rd_cmd_cnt s) (wr_cmd_cnt s) v.

Abbreviation P := (M cProcess).

Definition emit (e : Event) : P unit := modify (fun s => set_log s (e :: log s)).

(** ** Locks

    A [named_mutex] is not recursive: locking it again from the holder or
    unlocking it without holding it has no defined outcome. *)
Fixpoint held (l : Lock) (h : list Event) : bool :=
  match h with
  | [] => false
  | ELock l' :: h' => if decide (l = l') then true else held l h'
  | EUnlock l' :: h' => if decide (l = l') then false else held l h'
  | _ :: h' => held l h'
  end.

Definition lock (l : Lock) : P unit :=
  h ← gets log;
  if held l h then undef "lock of a mutex already held" else emit (ELock l).

Definition unlock (l : Lock) : P unit :=
  h ← gets log;
  if held l h then emit (EUnlock l) else undef "unlock of a mutex not held".

(** The name [literal + vfid] given to a [named_mutex]: adding an [int] to a
    string literal moves the pointer, so the name is a suffix of the literal;
    past its end the pointer is invalid. *)
Definition mutex_name (literal : string) (vfid : Z) : option string :=
  if (0 <=? vfid) && (vfid <=? Z.of_nat (String.length literal)) then
    Some (String.substring (Z.to_nat vfid) (String.length literal - Z.to_nat vfid) literal)
  else None.

Definition plock_name (vfid : Z) : option string := mutex_name "vpga_mtx_user_" vfid.
Definition dlock_name (vfid : Z) : option string := mutex_name "vfpga_mtx_data_" vfid.
Definition mlock_name (vfid : Z) : option string := mutex_name "vpga_mtx_mem_" vfid.
(** The names the destructor removes. *)
Definition removed_names (vfid : Z) : list (option string) :=
  [mutex_name "vfpga_mtx_user_" vfid; mutex_name "vfpga_mtx_data_" vfid;
   mutex_name "vfpga_mtx_mem_" vfid].

(** ** The heap

    Memory is allocated from its [memalign] to its [free]; [free] of a null
    pointer does nothing, of any other address that is not allocated it has no
    defined outcome. *)
Fixpoint allocated (a : Z) (h : list Event) : bool :=
  match h with
  | [] => false
  | EMemalign _ _ b :: h' => if decide (b = a) then true else allocated a h'
  | EFree b :: h' => if decide (b = a) then false else allocated a h'
  | _ :: h' => allocated a h'
  end.

Definition heap_free (a : Z) : P unit :=
  h ← gets log;
  if (a =? 0) || allocated a h then emit (EFree a) else undef "free of memory not allocated".

(** ** AVX lanes *)
Definition extract_epi32 (v i : Z) : Z := sext 32 (bits v (32 * i) 32).
Definition extract_epi64 (v i : Z) : Z := sext 64 (bits v (64 * i) 64).

Section operations.
Variable env : Env.
(** Bound on the iterations of each polling loop. *)
Variable fuel : nat.

(** ** System calls and register accesses *)
Definition ioctl (cmd : IoctlCmd) (args : list Z) : P (Z * list Z) :=
  h ← gets log;
  emit (EIoctl cmd args) ;;
  mret (env_ioctl env h cmd args).

Definition mmap (len offs : Z) : P Z :=
  h ← gets log; emit (EMmap len offs) ;; mret (env_mmap env h len).
Definition mmap_anon (len : Z) : P Z :=
  h ← gets log; emit (EMmapAnon len) ;; mret (env_mmap env h len).
Definition munmap (addr len : Z) : P Z :=
  h ← gets log; emit (EMunmap addr len) ;; mret (env_munmap env h addr len).
Definition memalign (align len : Z) : P Z :=
  h ← gets log;
  let a := env_memalign env h len in
  emit (EMemalign align len a) ;; mret a.
Definition read_avx (reg : Z) : P Z :=
  h ← gets log; emit (EAvxRead reg) ;; mret (env_avx env h reg).
Definition read_leg (reg : Z) : P Z :=
  h ← gets log; emit (ELegRead reg) ;; mret (u64 (env_leg env h reg)).
Definition read_wback (idx : Z) : P Z :=
  h ← gets log; emit (EWbackRead idx) ;; mret (u32 (env_wback env h idx)).
Definition write_avx (reg e3 e2 e1 e0 : Z) : P unit := emit (EAvxWrite reg e3 e2 e1 e0).
Definition write_leg (reg val : Z) : P unit := emit (ELegWrite reg val).

Definition setCSR (val offs : Z) : P unit := emit (ECtrlWrite offs val).
Definition getCSR (offs : Z) : P Z :=
  h ← gets log; emit (ECtrlRead offs) ;; mret (u64 (env_ctrl env h offs)).

(** ** Control plane mapping *)
Definition mmapFpga : P unit :=
  c ← gets fcnfg;
  (if en_avx c then
     a ← mmap cnfgAvxRegionSize mmapCnfgAvx;
     modify (fun s => set_regs s a (cnfg_reg s) (ctrl_reg s) (wback s)) ;;
     when (a =? MAP_FAILED) (throw "cnfg_reg_avx mmap failed")
   else
     a ← mmap cnfgRegionSize mmapCnfg;
     modify (fun s => set_regs s (cnfg_reg_avx s) a (ctrl_reg s) (wback s)) ;;
     when (a =? MAP_FAILED) (throw "cnfg_reg mmap failed")) ;;
  a ← mmap ctrlRegionSize mmapCtrl;
  modify (fun s => set_regs s (cnfg_reg_avx s) (cnfg_reg s) a (wback s)) ;;
  when (a =? MAP_FAILED) (throw "ctrl_reg mmap failed") ;;
  when (en_wb c)
    (a ← mmap wbackRegionSize mmapWb;
     modify (fun s => set_regs s (cnfg_reg_avx s) (cnfg_reg s) (ctrl_reg s) a) ;;
     when (a =? MAP_FAILED) (throw "wback mmap failed")).

Definition munmapFpga : P unit :=
  c ← gets fcnfg;
  (if en_avx c then
     a ← gets cnfg_reg_avx;
     rc ← munmap a cnfgAvxRegionSize;
     when (negb (rc =? 0)) (throw "cnfg_reg_avx munmap failed")
   else
     a ← gets cnfg_reg;
     rc ← munmap a cnfgRegionSize;
     when (negb (rc =? 0)) (throw "cnfg_reg munmap failed")) ;;
  a ← gets ctrl_reg;
  rc ← munmap a ctrlRegionSize;
  when (negb (rc =? 0)) (throw "ctrl_reg munmap failed") ;;
  when (en_wb c)
    (a ← gets wback;
     rc ← munmap a wbackRegionSize;
     when (negb (rc =? 0)) (throw "wback munmap failed")) ;;
  modify (fun s => set_regs s 0 0 0 0).

(** ** Memory management *)
Definition userMap (addr len : Z) : P unit :=
  c ← gets cpid;
  r ← ioctl IOCTL_MAP_USER [addr; u64 len; u64 c];
  if negb (fst r =? 0) then throw "ioctl_map_user() failed"
  else modify (fun s => set_upages s ({[addr]} ∪ mapped_upages s)).

(** The erasure from [mapped_upages] is commented out in the source. *)
Definition userUnmap (addr : Z) : P unit :=
  c ← gets cpid;
  pages ← gets mapped_upages;
  when (bool_decide (addr ∈ pages))
    (r ← ioctl IOCTL_UNMAP_USER [addr; u64 c];
     when (negb (fst r =? 0)) (throw "ioctl_unmap_user() failed")).

(** [((p + hugePageSize - 1) >> hugePageShift) << hugePageShift] on a
    64-bit address. *)
Definition align_huge (p : Z) : Z :=
  u64 (Z.shiftl (Z.shiftr (u64 (p + hugePageSize - 1)) hugePageShift) hugePageShift).

(** [mapped_pages.emplace]: an entry already there is kept. *)
Definition emplace_page (mem : Z) (v : mappedVal) : P unit :=
  modify (fun s =>
    match mapped_pages s !! mem with
    | Some _ => s
    | None => set_pages s (<[mem := v]> (mapped_pages s))
    end).

(** The sizes are [uint32_t] products. *)
Definition getMem (cs_alloc : csAlloc) : P Z :=
  if 0 <? n_pages cs_alloc then
    c ← gets cpid;
    r ← match alloc cs_alloc with
        | REG_4K =>
            let size := u32 (n_pages cs_alloc * Z.shiftl 1 pageShift) in
            mem ← memalign axiDataWidth size;
            userMap mem size ;; mret (mem, 0)
        | HUGE_2M =>
            let size := u32 (n_pages cs_alloc * Z.shiftl 1 hugePageShift) in
            mem ← mmap_anon size;
            userMap mem size ;; mret (mem, 0)
        | HOST_2M =>
            lock mlock ;;
            r ← ioctl IOCTL_ALLOC_HOST_USER_MEM [u64 (n_pages cs_alloc); u64 c];
            if negb (fst r =? 0) then
              unlock mlock ;; throw "ioctl_alloc_host_user_mem() failed"
            else
              a ← mmap (u32 (u32 (n_pages cs_alloc + 1) * hugePageSize)) mmapBuff;
              if a =? MAP_FAILED then
                unlock mlock ;; throw "get_host_mem mmap failed"
              else
                unlock mlock ;; mret (align_huge a, a)
        | RCNFG_2M => mret (0, 0)
        end;
    emplace_page (fst r) (cs_alloc, snd r) ;;
    mret (fst r)
  else mret 0.

(** The erasure from [mapped_pages] is commented out in the source. *)
Definition freeMem (addr : Z) : P unit :=
  c ← gets cpid;
  pages ← gets mapped_pages;
  match pages !! addr with
  | None => skip
  | Some mapped =>
      match alloc (fst mapped) with
      | REG_4K => userUnmap addr ;; heap_free addr
      | HUGE_2M =>
          let size := u32 (n_pages (fst mapped) * Z.shiftl 1 hugePageShift) in
          userUnmap addr ;; munmap addr size ;; skip
      | HOST_2M =>
          lock mlock ;;
          rc ← munmap (snd mapped) (u32 (u32 (n_pages (fst mapped) + 1) * hugePageSize));
          if negb (rc =? 0) then unlock mlock ;; throw "free_host_mem munmap failed"
          else
            r ← ioctl IOCTL_FREE_HOST_USER_MEM [addr; u64 c];
            if negb (fst r =? 0) then
              unlock mlock ;; throw "ioctl_free_host_user_mem() failed"
            else unlock mlock
      | RCNFG_2M => skip
      end
  end.

(** ** Scheduling *)
Definition pLock (oid priority : Z) : P unit :=
  b ← gets csched;
  c ← gets cpid;
  if (b : bool) then emit (ESchedLock c oid priority) else lock plock.

Definition pUnlock : P unit :=
  b ← gets csched;
  c ← gets cpid;
  if (b : bool) then emit (ESchedUnlock c) else unlock plock.

(** ** Bulk transfers *)

(** [cnt > (cmd_fifo_depth - cmd_fifo_thr)] *)
Definition over_thr (cnt : Z) : bool := cmdFifoDepth - cmdFifoThr <? cnt.

(** The loops that wait for room in a command FIFO: [while (cnt > thr)
    { cnt = <used register>; if (cnt > thr) nanosleep(100); }]. *)
Fixpoint drain (n : nat) (get : cProcess -> Z) (set : Z -> cProcess -> cProcess)
    (used : P Z) : P unit :=
  c ← gets get;
  if over_thr c then
    match n with
    | O => spin
    | S n' =>
        v ← used;
        modify (set v) ;;
        when (over_thr v) (emit (ESleepNs 100)) ;;
        drain n' get set used
    end
  else skip.

Definition used_rd : P Z :=
  c ← gets fcnfg;
  if en_avx c then
    v ← read_avx CnfgAvxRegs.STAT_REG; mret (u32 (LOW_16 (extract_epi32 v 0)))
  else v ← read_leg CnfgLegRegs.STAT_CMD_USED_RD_REG; mret (u32 v).

Definition used_wr : P Z :=
  c ← gets fcnfg;
  if en_avx c then
    v ← read_avx CnfgAvxRegs.STAT_REG; mret (u32 (HIGH_16 (extract_epi32 v 0)))
  else v ← read_leg CnfgLegRegs.STAT_CMD_USED_WR_REG; mret (u32 v).

(** [checkCompleted]: the completion counter of the operation's direction. *)
Definition checkCompleted (coper : CoyoteOper) : P Z :=
  c ← gets fcnfg;
  p ← gets cpid;
  if isWrite coper then
    if en_wb c then read_wback (p + nCpidMax)
    else if en_avx c then
      v ← read_avx (CnfgAvxRegs.STAT_DMA_REG + p); mret (u32 (extract_epi32 v 1))
    else v ← read_leg (CnfgLegRegs.STAT_DMA_REG + p); mret (u32 (HIGH_32 v))
  else
    if en_wb c then read_wback p
    else if en_avx c then
      v ← read_avx (CnfgAvxRegs.STAT_DMA_REG + p); mret (u32 (extract_epi32 v 0))
    else v ← read_leg (CnfgLegRegs.STAT_DMA_REG + p); mret (u32 (LOW_32 v)).

(** [while(!checkCompleted(oper)) nanosleep(100);] *)
Fixpoint poll_completed (n : nat) (coper : CoyoteOper) : P unit :=
  v ← checkCompleted coper;
  if v =? 0 then
    match n with
    | O => spin
    | S n' => emit (ESleepNs 100) ;; poll_completed n' coper
    end
  else skip.

(** The control words [invoke] composes. *)
Definition len_cmd (cs : csInvokeAll) : Z := Z.lor (Z.shiftl (dst_len cs) 32) (src_len cs).

Definition ctrl_rd (cpid : Z) (cs : csInvokeAll) : Z :=
  Z.lor (Z.lor (Z.lor (Z.lor (Z.lor
    (flag (isRead (oper cs)) CTRL_START_RD)
    (flag (clr_stat cs) CTRL_CLR_STAT_RD))
    (flag (stream cs) CTRL_STREAM_RD))
    (Z.shiftl (Z.land (dest cs) CTRL_DEST_MASK) CTRL_DEST_RD))
    (Z.shiftl (Z.land cpid CTRL_PID_MASK) CTRL_PID_RD))
    (flag (bool_decide (oper cs = OFFLOAD)) CTRL_SYNC_RD).

Definition ctrl_wr (cpid : Z) (cs : csInvokeAll) : Z :=
  Z.lor (Z.lor (Z.lor (Z.lor
    (flag (isWrite (oper cs)) CTRL_START_WR)
    (flag (clr_stat cs) CTRL_CLR_STAT_WR))
    (flag (stream cs) CTRL_STREAM_WR))
    (Z.shiftl (Z.land cpid CTRL_PID_MASK) CTRL_PID_WR))
    (flag (bool_decide (oper cs = SYNC)) CTRL_SYNC_WR).

(** The AVX control word is the read half followed by the write half. *)
Definition ctrl_cmd (cpid : Z) (cs : csInvokeAll) : Z :=
  Z.lor (Z.lor (Z.lor (Z.lor (Z.lor (ctrl_rd cpid cs)
    (flag (isWrite (oper cs)) CTRL_START_WR))
    (flag (clr_stat cs) CTRL_CLR_STAT_WR))
    (flag (stream cs) CTRL_STREAM_WR))
    (Z.shiftl (Z.land cpid CTRL_PID_MASK) CTRL_PID_WR))
    (flag (bool_decide (oper cs = SYNC)) CTRL_SYNC_WR).

Definition post_transfer (cs : csInvokeAll) : P unit :=
  c ← gets fcnfg;
  p ← gets cpid;
  if en_avx c then
    write_avx CnfgAvxRegs.PRIO_STAT_REG 0 0 0 (prio cs) ;;
    write_avx CnfgAvxRegs.REQ_COUNT_REG 0 0 0 (req_count cs) ;;
    write_avx CnfgAvxRegs.CTRL_REG (len_cmd cs) (dst_addr cs) (src_addr cs) (ctrl_cmd p cs)
  else
    write_leg CnfgLegRegs.VADDR_RD_REG (src_addr cs) ;;
    write_leg CnfgLegRegs.LEN_RD_REG (src_len cs) ;;
    write_leg CnfgLegRegs.CTRL_REG (ctrl_rd p cs) ;;
    write_leg CnfgLegRegs.VADDR_WR_REG (dst_addr cs) ;;
    write_leg CnfgLegRegs.LEN_WR_REG (dst_len cs) ;;
    write_leg CnfgLegRegs.CTRL_REG (ctrl_wr p cs).

Definition invoke (cs : csInvokeAll) : P unit :=
  c ← gets fcnfg;
  if isSync (oper cs) && negb (en_mem c) then skip
  else if decide (oper cs = NOOP) then skip
  else
    lock dlock ;;
    when (isRead (oper cs)) (drain fuel rd_cmd_cnt set_rd used_rd) ;;
    when (isWrite (oper cs)) (drain fuel wr_cmd_cnt set_wr used_wr) ;;
    post_transfer cs ;;
    modify (fun s => set_rd (u32 (rd_cmd_cnt s + 1)) s) ;;
    modify (fun s => set_wr (u32 (wr_cmd_cnt s + 1)) s) ;;
    unlock dlock ;;
    when (poll cs) (poll_completed fuel (oper cs)).

(** The single-buffer overload. *)
Definition widen (cs : csInvoke) : csInvokeAll :=
  {| oper := i_oper cs;
     src_addr := if isRead (i_oper cs) then i_addr cs else 0;
     dst_addr := if isWrite (i_oper cs) then i_addr cs else 0;
     src_len := if isRead (i_oper cs) then i_len cs else 0;
     dst_len := if isWrite (i_oper cs) then i_len cs else 0;
     clr_stat := i_clr_stat cs;
     poll := i_poll cs;
     dest := i_dest cs;
     stream := i_stream cs;
     req_count := 0;
     prio := 0 |}.

Definition invoke_single (cs : csInvoke) : P unit := invoke (widen cs).

(** ** Polling *)
Definition clear_ctrl (cpid : Z) : Z :=
  Z.lor (Z.lor (Z.lor CTRL_CLR_STAT_RD CTRL_CLR_STAT_WR)
    (Z.shiftl (Z.land cpid CTRL_PID_MASK) CTRL_PID_RD))
    (Z.shiftl (Z.land cpid CTRL_PID_MASK) CTRL_PID_WR).

Definition clearCompleted : P unit :=
  c ← gets fcnfg;
  p ← gets cpid;
  if en_avx c then write_avx CnfgAvxRegs.CTRL_REG 0 0 0 (clear_ctrl p)
  else write_leg CnfgLegRegs.CTRL_REG (clear_ctrl p).

(** ** RDMA acknowledgements *)
Definition ibvCheckAcks : P Z :=
  c ← gets fcnfg;
  p ← gets cpid;
  if en_wb c then read_wback (p + (if qsfp c =? 0 then 2 else 3) * nCpidMax)
  else if en_avx c then
    v ← read_avx (CnfgAvxRegs.STAT_DMA_REG + p);
    mret (u32 (if qsfp c =? 0 then extract_epi32 v 2 else extract_epi32 v 3))
  else
    v ← read_leg (CnfgLegRegs.STAT_RDMA_REG + p);
    mret (u32 (if qsfp c =? 0 then LOW_32 v else HIGH_32 v)).

Definition checkIbvAcks : P Z :=
  c ← gets fcnfg;
  p ← gets cpid;
  if en_wb c then read_wback (u32 (p + qsfp c * nCpidMax + 2 * nCpidMax))
  else if en_avx c then
    v ← read_avx (CnfgAvxRegs.STAT_DMA_REG + p);
    mret (u32 (if qsfp c =? 0 then extract_epi32 v 2 else extract_epi32 v 3))
  else
    v ← read_leg (CnfgLegRegs.STAT_DMA_REG + p + nCpidMax);
    mret (u32 (if qsfp c =? 0 then LOW_32 v else HIGH_32 v)).

(** Completion queue: the process ID and sequence number of a valid entry;
    the C++ result is -1 and [cpid] unchanged for an invalid one. *)
Definition ibvGetCompleted (cpid_ref : Z) : P (Z * Z) :=
  c ← gets fcnfg;
  m ← (if en_avx c then
         v ← read_avx CnfgAvxRegs.RDMA_CMPLT_REG; mret (u64 (extract_epi64 v 0))
       else read_leg CnfgLegRegs.RDMA_CMPLT_REG);
  if negb (Z.land m 0x1 =? 0) then mret (Z.land (Z.shiftr m 16) 0x3f, sext 32 (HIGH_32 m))
  else mret (cpid_ref, -1).

Definition clearIbvAcks : P unit :=
  c ← gets fcnfg;
  p ← gets cpid;
  let w := Z.lor (Z.shiftl (Z.land p RDMA_PID_MASK) RDMA_PID_OFFS)
                 (Z.shiftl 0x1 RDMA_CLR_OFFS) in
  if en_avx c then write_avx CnfgAvxRegs.RDMA_POST_REG 0 0 0 w
  else write_leg CnfgLegRegs.RDMA_POST_REG w.

(** ** RDMA commands *)
Definition postPrep (offs_3 offs_2 offs_1 offs_0 offs_reg : Z) : P unit :=
  lock dlock ;;
  c ← gets fcnfg;
  (if en_avx c then
     write_avx (CnfgAvxRegs.RDMA_POST_REG_0 + qsfp_offs c + offs_reg) offs_3 offs_2 offs_1 offs_0
   else
     write_leg (CnfgLegRegs.RDMA_POST_REG_0 + qsfp_offs c + offs_reg * 4) offs_0 ;;
     write_leg (CnfgLegRegs.RDMA_POST_REG_1 + qsfp_offs c + offs_reg * 4) offs_1 ;;
     write_leg (CnfgLegRegs.RDMA_POST_REG_2 + qsfp_offs c + offs_reg * 4) offs_2 ;;
     write_leg (CnfgLegRegs.RDMA_POST_REG_3 + qsfp_offs c + offs_reg * 4) offs_3) ;;
  unlock dlock.

Definition used_rdma : P Z :=
  c ← gets fcnfg;
  if en_avx c then
    v ← read_avx (CnfgAvxRegs.RDMA_STAT_REG + qsfp_offs c); mret (u32 (extract_epi32 v 0))
  else v ← read_leg (CnfgLegRegs.RDMA_STAT_CMD_USED_REG + qsfp_offs c); mret (u32 v).

Definition postCmd (offs_3 offs_2 offs_1 offs_0 : Z) : P unit :=
  lock dlock ;;
  drain fuel rdma_cmd_cnt set_rdma used_rdma ;;
  c ← gets fcnfg;
  (if en_avx c then
     write_avx (CnfgAvxRegs.RDMA_POST_REG + qsfp_offs c) offs_3 offs_2 offs_1 offs_0 ;;
     modify (fun s => set_rdma (u32 (rdma_cmd_cnt s + 1)) s)
   else
     write_leg (CnfgLegRegs.RDMA_POST_REG_0 + qsfp_offs c) offs_0 ;;
     write_leg (CnfgLegRegs.RDMA_POST_REG_1 + qsfp_offs c) offs_1 ;;
     write_leg (CnfgLegRegs.RDMA_POST_REG_2 + qsfp_offs c) offs_2 ;;
     write_leg (CnfgLegRegs.RDMA_POST_REG_3 + qsfp_offs c) offs_3 ;;
     write_leg (CnfgLegRegs.RDMA_POST_REG + qsfp_offs c) 0x1 ;;
     modify (fun s => set_rdma (u32 (rdma_cmd_cnt s + 1)) s)) ;;
  unlock dlock.

(** The command word of a work request. *)
Definition post_word (qp : ibvQp) (wr : ibvSendWr) : Z :=
  Z.lor (Z.lor (Z.lor (Z.lor (Z.lor (Z.lor (Z.lor
    (Z.shiftl 0x1 RDMA_POST_OFFS)
    (Z.shiftl (Z.land (opcode_code (opcode wr)) RDMA_OPCODE_MASK) RDMA_OPCODE_OFFS))
    (Z.shiftl (Z.land (qpn (local qp)) RDMA_PID_MASK) RDMA_PID_OFFS))
    (Z.shiftl (Z.land (Z.shiftr (qpn (local qp)) 6) RDMA_VFID_MASK) RDMA_VFID_OFFS))
    (Z.shiftl (Z.land (Z.b2z (host (send_flags wr))) 0x1) RDMA_HOST_OFFS))
    (Z.shiftl (Z.land (Z.b2z (mode (send_flags wr))) 0x1) RDMA_MODE_OFFS))
    (Z.shiftl (Z.land (Z.b2z (last (send_flags wr))) 0x1) RDMA_LAST_OFFS))
    (Z.shiftl (Z.land (Z.b2z (clr (send_flags wr))) 0x1) RDMA_CLR_OFFS).

(** The entries the loops [for(i = 0; i < wr->num_sge; i++)] visit. *)
Definition sges (wr : ibvSendWr) : P (list ibvSge) :=
  if Z.of_nat (length (sg_list wr)) <? num_sge wr then undef "sg_list read out of bounds"
  else mret (take (Z.to_nat (num_sge wr)) (sg_list wr)).

(** Local target: the data is copied, whatever the opcode. *)
Definition copy_sge (qp : ibvQp) (sge : ibvSge) : P unit :=
  match sge with
  | SgeRdma lo ro len =>
      emit (EMemcpy (u64 (vaddr (remote qp) + ro)) (u64 (vaddr (local qp) + lo)) len)
  | _ => undef "read of an inactive union member"
  end.

Definition post_sge (qp : ibvQp) (wr : ibvSendWr) (sge : ibvSge) : P unit :=
  let offs_0 := post_word qp wr in
  if isRDMA wr then
    match sge with
    | SgeRdma lo ro len =>
        postCmd len (u64 (vaddr (remote qp) + ro)) (u64 (vaddr (local qp) + lo)) offs_0
    | _ => undef "read of an inactive union member"
    end
  else if isSEND wr then
    match sge with
    | SgeSend la len => postCmd 0 len la offs_0
    | _ => undef "read of an inactive union member"
    end
  else
    match sge with
    | SgeImmed params =>
        let high := bool_decide (opcode wr = IBV_WR_IMMED_HIGH) in
        let mid := bool_decide (opcode wr = IBV_WR_IMMED_MID) in
        let need := if high then 8%nat else if mid then 7%nat else 3%nat in
        if (length params <? need)%nat then undef "params read out of bounds"
        else
          let p i := default 0 (params !! i) in
          when high (postPrep 0 0 0 (p 7%nat) ibvImmedHigh) ;;
          when (high || mid) (postPrep (p 6%nat) (p 5%nat) (p 4%nat) (p 3%nat) ibvImmedMid) ;;
          postCmd (p 2%nat) (p 1%nat) (p 0%nat) offs_0
    | _ => undef "read of an inactive union member"
    end.

Definition ibvPostSend (qp : ibvQp) (wr : ibvSendWr) : P unit :=
  c ← gets fcnfg;
  when (en_rdma c)
    (l ← sges wr;
     (if ip_addr (local qp) =? ip_addr (remote qp) then for_each (copy_sge qp) l
      else for_each (post_sge qp wr) l) ;;
     modify (fun s => set_last_qp s (id qp))).

(** ** Network management *)
Definition doArpLookup (ip : Z) : P unit :=
  c ← gets fcnfg;
  r ← ioctl IOCTL_ARP_LOOKUP [qsfp c; ip];
  if negb (fst r =? 0) then throw "ioctl_arp_lookup() failed" else emit (ESleepUs 100).

Definition qp_context (c : fCnfg) (qp : ibvQp) : list Z :=
  [qsfp c;
   Z.shiftl (Z.land (qpn (local qp)) 0x3ff) qpContextQpnOffs;
   Z.lor (Z.shiftl (Z.land (psn (local qp)) 0xffffff) qpContextLpsnOffs)
         (Z.shiftl (Z.land (psn (remote qp)) 0xffffff) qpContextRpsnOffs);
   Z.lor (Z.shiftl (Z.land (vaddr (remote qp)) 0xffffffffffff) qpContextVaddrOffs)
         (Z.shiftl (Z.land (rkey (remote qp)) 0xffff) qpContextRkeyOffs)].

Definition writeQpContext (qp : ibvQp) : P unit :=
  c ← gets fcnfg;
  when (en_rdma c)
    (r ← ioctl IOCTL_WRITE_CTX (qp_context c qp);
     when (negb (fst r =? 0)) (throw "ioctl_write_ctx() failed")).

Definition conn_context (c : fCnfg) (qp : ibvQp) (port : Z) : list Z :=
  [qsfp c;
   Z.lor (Z.lor (Z.shiftl (Z.land port 0xffff) connContextPortOffs)
                (Z.shiftl (Z.land (qpn (remote qp)) 0xffffff) connContextRqpnOffs))
         (Z.shiftl (Z.land (qpn (local qp)) 0xffff) connContextLqpnOffs);
   Z.lor (Z.shiftl (Z.land (gidToUint 8 (remote qp)) 0xffffffff) 32)
         (Z.shiftl (Z.land (gidToUint 0 (remote qp)) 0xffffffff) 0);
   Z.lor (Z.shiftl (Z.land (gidToUint 24 (remote qp)) 0xffffffff) 32)
         (Z.shiftl (Z.land (gidToUint 16 (remote qp)) 0xffffffff) 0)].

Definition writeConnContext (qp : ibvQp) (port : Z) : P unit :=
  c ← gets fcnfg;
  when (en_rdma c)
    (r ← ioctl IOCTL_WRITE_CONN (conn_context c qp port);
     when (negb (fst r =? 0)) (throw "ioctl_write_conn() failed")).

Definition netDrop (clr dir : bool) (packet_id : Z) : P unit :=
  c ← gets fcnfg;
  r ← ioctl IOCTL_NET_DROP [qsfp c; Z.b2z clr; Z.b2z dir; packet_id];
  when (negb (fst r =? 0)) (throw "ioctl_net_drop() failed").

(** ** IO switch *)
Definition ioSwitch (io_dev : IODevs) : P unit :=
  c ← gets fcnfg;
  if en_avx c then write_avx CnfgAvxRegs.IO_SWITCH_REG 0 0 0 (io_dev_code io_dev)
  else write_leg CnfgLegRegs.IO_SWITCH_REG (io_dev_code io_dev).

(** Always through the AVX mapping, whatever [en_avx] says. *)
Definition ioStatus : P Z :=
  a ← gets cnfg_reg_avx;
  if a =? 0 then undef "null pointer dereference"
  else v ← read_avx CnfgAvxRegs.IO_SWITCH_REG; mret (u64 (extract_epi64 v 0)).

Definition userInIOSwtch (user_req : Z) : IODevs :=
  if user_req =? 1 then HOST_MEM
  else if user_req =? 2 then FPGA_DRAM
  else if user_req =? 5 then RDMA_0_HOST_SEND
  else if user_req =? 9 then RDMA_0_HOST_RECEIVE
  else if user_req =? 6 then RDMA_0_CARD_SEND
  else if user_req =? 10 then RDMA_0_CARD_RECEIVE
  else if user_req =? 17 then RDMA_1_HOST_SEND
  else if user_req =? 33 then RDMA_1_HOST_RECEIVE
  else if user_req =? 18 then RDMA_1_CARD_SEND
  else if user_req =? 34 then RDMA_1_CARD_RECEIVE
  else ERROR_DEV.

(** ** Construction and destruction

    The constructor starts from [cProcess_init]; the second element of the
    [ioctl] argument is uninitialised before the first call, and is 0 here.
    The destructor visits the two containers in an unspecified order. *)
Definition with_name (f : string -> Event) (n : option string) : P unit :=
  match n with
  | Some name => emit (f name)
  | None => undef "pointer past the end of a string literal"
  end.

Definition ctor : P unit :=
  v ← gets vfid;
  p ← gets pid;
  for_each (with_name EMutexOpen) [plock_name v; dlock_name v; mlock_name v] ;;
  h ← gets log;
  emit (EOpen v) ;;
  modify (fun s => set_fd s (env_open env h)) ;;
  if env_open env h =? -1 then throw "cProcess could not be obtained" else
  r ← ioctl IOCTL_REGISTER_PID [u64 p; 0];
  if negb (fst r =? 0) then throw "ioctl_register_pid() failed" else
  modify (fun s => set_cpid s (sext 32 (default 0 (snd r !! 1%nat)))) ;;
  r ← ioctl IOCTL_READ_CNFG (snd r);
  if negb (fst r =? 0) then throw "ioctl_read_cnfg() failed" else
  modify (fun s => set_fcnfg s (parseCnfg (u64 (default 0 (snd r !! 0%nat))))) ;;
  mmapFpga ;;
  clearCompleted.

Definition dtor : P unit :=
  c ← gets cpid;
  ioctl IOCTL_UNREGISTER_PID [u64 c] ;;
  us ← gets mapped_upages;
  for_each userUnmap (elements us) ;;
  modify (fun s => set_upages s ∅) ;;
  ps ← gets mapped_pages;
  for_each freeMem (map_to_list ps).*1 ;;
  modify (fun s => set_pages s ∅) ;;
  munmapFpga ;;
  v ← gets vfid;
  for_each (with_name EMutexRemove) (removed_names v) ;;
  emit EClose.
End operations.
