(* ===== verification/CProcessFacts.v ===== *)
(** What the definitions of [CProcess] guarantee: the lock discipline of every
    member function, the command words and context blocks they hand to the
    hardware, flow control, memory management and the IO switch. *)

From stdpp Require Import base numbers list gmap strings.
From Stdlib Require Import ZArith Lia.
From S2P Require Import Prelude CoyoteDefs IbvStructs CProcess.

Local Open Scope Z_scope.

(** ** Lock discipline *)

(** [locked L s]: the locks held by the history of [s] are those of [L]. *)
Definition locked (L : list Lock) (s : cProcess) : Prop :=
  forall l, held l (log s) = bool_decide (l ∈ L).

Definition lock_event (e : Event) : bool :=
  match e with ELock _ | EUnlock _ => true | _ => false end.

Lemma held_other (l : Lock) (e : Event) (h : list Event) :
  lock_event e = false -> held l (e :: h) = held l h.
Proof. by destruct e. Qed.

Section locks.
Context (L L0 : list Lock).
Abbreviation keeps m := (triple (locked L) m (fun _ => locked L) (locked L0)).

Lemma keeps_emit (e : Event) : lock_event e = false -> keeps (emit e).
Proof. intros He. apply triple_modify. intros s Hs l. cbn [log set_log]. by rewrite held_other. Qed.

Lemma keeps_modify (f : cProcess -> cProcess) :
  (forall s, log (f s) = log s) -> keeps (modify f).
Proof. intros Hf. apply triple_modify. intros s Hs l. by rewrite Hf. Qed.

Lemma keeps_gets {A} (f : cProcess -> A) : keeps (gets f).
Proof. by apply triple_gets. Qed.

Lemma keeps_ret {A} (a : A) : keeps (mret a : P A).
Proof. by apply triple_ret. Qed.

Lemma keeps_when (b : bool) (m : P unit) : keeps m -> keeps (when b m).
Proof. intros Hm. by apply triple_when. Qed.

Lemma keeps_spin {A} : keeps (spin : P A).
Proof. apply triple_spin. Qed.

Lemma locks_lock (l : Lock) :
  l ∉ L -> triple (locked L) (lock l) (fun _ => locked (l :: L)) (locked L0).
Proof.
  intros Hl s Hs. unfold lock, mbind, M_bind, gets. cbv beta iota.
  rewrite (Hs l), bool_decide_false by done. cbn. intros l'. cbn [log set_log held].
  case_decide as E.
  - subst. rewrite bool_decide_true by left. done.
  - rewrite (Hs l'). apply bool_decide_ext. rewrite elem_of_cons. intuition congruence.
Qed.

Lemma locks_unlock (l : Lock) :
  l ∉ L -> triple (locked (l :: L)) (unlock l) (fun _ => locked L) (locked L0).
Proof.
  intros Hl s Hs. unfold unlock, mbind, M_bind, gets. cbv beta iota.
  rewrite (Hs l), bool_decide_true by left. cbn. intros l'. cbn [log set_log held].
  case_decide as E.
  - subst. by rewrite bool_decide_false.
  - rewrite (Hs l'). apply bool_decide_ext. rewrite elem_of_cons. intuition congruence.
Qed.
End locks.

Create HintDb locks discriminated.
#[export] Hint Resolve keeps_emit keeps_gets keeps_ret keeps_spin locks_lock locks_unlock : locks.

Ltac not_in := first [assumption | by (rewrite ?elem_of_cons, ?elem_of_nil; intuition congruence)].

(** [lock_tac] walks a member function, tracking the set of locks held. *)
Ltac lock_step :=
  match goal with
  | |- triple _ (mbind _ _) _ _ => eapply triple_bind; [|intros ?]
  | |- triple _ (if ?b then _ else _) _ _ => destruct b
  | |- triple _ (match ?x with _ => _ end) _ _ => destruct x
  | |- triple _ (when _ _) _ _ => apply keeps_when
  | |- triple _ (emit _) _ _ => apply keeps_emit; reflexivity
  | |- triple _ (gets _) _ _ => apply keeps_gets
  | |- triple _ (mret _) _ _ => apply keeps_ret
  | |- triple _ skip _ _ => apply keeps_ret
  | |- triple _ spin _ _ => apply keeps_spin
  | |- triple _ (throw _) _ _ => apply triple_throw; auto
  | |- triple _ (lock _) _ _ => apply locks_lock; not_in
  | |- triple _ (unlock _) _ _ => apply locks_unlock; not_in
  | |- triple _ (modify _) _ _ => apply keeps_modify; intros ?; first [solve [auto] | repeat case_match; reflexivity]
  end.

#[export] Hint Extern 0 (_ ∉ _) => not_in : locks.

Ltac lock_tac := repeat first [solve [cbv beta; eauto 2 with locks] | lock_step].

Section lock_lemmas.
Context (env : Env) (L L0 : list Lock).
Abbreviation keeps m := (triple (locked L) m (fun _ => locked L) (locked L0)).

Lemma keeps_ioctl (cmd : IoctlCmd) (args : list Z) : keeps (ioctl env cmd args).
Proof. unfold ioctl. lock_tac. Qed.
Lemma keeps_mmap (len offs : Z) : keeps (mmap env len offs).
Proof. unfold mmap. lock_tac. Qed.
Lemma keeps_mmap_anon (len : Z) : keeps (mmap_anon env len).
Proof. unfold mmap_anon. lock_tac. Qed.
Lemma keeps_munmap (addr len : Z) : keeps (munmap env addr len).
Proof. unfold munmap. lock_tac. Qed.
Lemma keeps_memalign (al len : Z) : keeps (memalign env al len).
Proof. unfold memalign. lock_tac. Qed.
Lemma keeps_read_avx (reg : Z) : keeps (read_avx env reg).
Proof. unfold read_avx. lock_tac. Qed.
Lemma keeps_read_leg (reg : Z) : keeps (read_leg env reg).
Proof. unfold read_leg. lock_tac. Qed.
Lemma keeps_read_wback (idx : Z) : keeps (read_wback env idx).
Proof. unfold read_wback. lock_tac. Qed.
End lock_lemmas.

#[export] Hint Resolve keeps_ioctl keeps_mmap keeps_mmap_anon keeps_munmap keeps_memalign
  keeps_read_avx keeps_read_leg keeps_read_wback : locks.

Section lock_lemmas2.
Context (env : Env) (L L0 : list Lock).
Abbreviation keeps m := (triple (locked L) m (fun _ => locked L) (locked L0)).

Lemma keeps_used_rd : keeps (used_rd env).
Proof. unfold used_rd. lock_tac. Qed.
Lemma keeps_used_wr : keeps (used_wr env).
Proof. unfold used_wr. lock_tac. Qed.
Lemma keeps_used_rdma : keeps (used_rdma env).
Proof. unfold used_rdma. lock_tac. Qed.
Lemma keeps_checkCompleted (o : CoyoteOper) : keeps (checkCompleted env o).
Proof. unfold checkCompleted. lock_tac. Qed.
Lemma keeps_poll_completed (n : nat) (o : CoyoteOper) : keeps (poll_completed env n o).
Proof.
  induction n as [|n IH]; cbn [poll_completed].
  all: eapply triple_bind; [apply keeps_checkCompleted|intros v]; lock_tac.
Qed.
End lock_lemmas2.

#[export] Hint Resolve keeps_used_rd keeps_used_wr keeps_used_rdma keeps_checkCompleted
  keeps_poll_completed : locks.

Section lock_members.
Context (env : Env) (fuel : nat) (L : list Lock) (Hd : dlock ∉ L) (Hm : mlock ∉ L).

Lemma keeps_drain (L1 L0 : list Lock) (n : nat) (get : cProcess -> Z)
    (set : Z -> cProcess -> cProcess) (used : P Z) :
  (forall v s, log (set v s) = log s) ->
  triple (locked L1) used (fun _ => locked L1) (locked L0) ->
  triple (locked L1) (drain n get set used) (fun _ => locked L1) (locked L0).
Proof.
  intros Hset Hused. induction n as [|n IH]; cbn [drain]; lock_tac.
Qed.

(** A member function gives back the locks it takes. *)
Abbreviation keeps_locks m := (triple (locked L) m (fun _ => locked L) (locked L)).

Lemma keeps_mmapFpga : keeps_locks (mmapFpga env).
Proof. unfold mmapFpga. lock_tac. Qed.
Lemma keeps_munmapFpga : keeps_locks (munmapFpga env).
Proof. unfold munmapFpga. lock_tac. Qed.
Lemma keeps_userMap (addr len : Z) : keeps_locks (userMap env addr len).
Proof. unfold userMap. lock_tac. Qed.
Lemma keeps_userUnmap (addr : Z) : keeps_locks (userUnmap env addr).
Proof. unfold userUnmap. lock_tac. Qed.
#[local] Hint Resolve keeps_mmapFpga keeps_munmapFpga keeps_userMap keeps_userUnmap : locks.

Lemma keeps_getMem (a : csAlloc) : keeps_locks (getMem env a).
Proof. unfold getMem, emplace_page. lock_tac. Qed.

Lemma keeps_invoke (cs : csInvokeAll) : keeps_locks (invoke env fuel cs).
Proof.
  unfold invoke, post_transfer, write_avx, write_leg. lock_tac.
  all: apply keeps_drain; auto with locks.
Qed.
Lemma keeps_clearCompleted : keeps_locks clearCompleted.
Proof. unfold clearCompleted, write_avx, write_leg. lock_tac. Qed.
Lemma keeps_postPrep (a b c d r : Z) : keeps_locks (postPrep a b c d r).
Proof. unfold postPrep, write_avx, write_leg. lock_tac. Qed.
Lemma keeps_postCmd (a b c d : Z) : keeps_locks (postCmd env fuel a b c d).
Proof.
  unfold postCmd, write_avx, write_leg. lock_tac.
  apply keeps_drain; auto with locks.
Qed.
End lock_members.

#[export] Hint Resolve keeps_mmapFpga keeps_munmapFpga keeps_userMap keeps_userUnmap keeps_getMem
  keeps_invoke keeps_clearCompleted keeps_postPrep keeps_postCmd : locks.

(** ** What the member functions leave alone *)

(** [moves R m]: every run of [m] takes the state along [R]. *)
Definition moves {A} (R : relation cProcess) (m : P A) : Prop := forall s, R s (snd (m s)).

(** The members that only construction, [getMem] and destruction change, and
    memory that stays allocated. *)
Definition frame (s s' : cProcess) : Prop :=
  csched s' = csched s /\ vfid s' = vfid s /\ cnfg_reg_avx s' = cnfg_reg_avx s /\
  mapped_pages s' = mapped_pages s /\
  (forall a, allocated a (log s) = true -> allocated a (log s') = true).

#[export] Instance frame_preorder : PreOrder frame.
Proof.
  split.
  - intros s. repeat split; auto.
  - intros s1 s2 s3 (? & ? & ? & ? & ?) (? & ? & ? & ? & ?). repeat split; try congruence. auto.
Qed.

Section moves.
Context (R : relation cProcess) `{PreOrder cProcess R}.

Lemma moves_bind {A B} (m : P A) (k : A -> P B) :
  moves R m -> (forall a, moves R (k a)) -> moves R (m ≫= k).
Proof.
  intros Hm Hk s. unfold mbind, M_bind. specialize (Hm s).
  destruct (m s) as [[a|e|e|] s']; cbn in *; try done. etrans; [done|apply Hk].
Qed.

Lemma moves_same {A} (m : P A) : (forall s, snd (m s) = s) -> moves R m.
Proof. intros E s. by rewrite E. Qed.

Lemma moves_when (b : bool) (m : P unit) : moves R m -> moves R (when b m).
Proof. destruct b; [done|]. intros _. by apply moves_same. Qed.

Lemma moves_for_each {A} (f : A -> P unit) (l : list A) :
  (forall x, moves R (f x)) -> moves R (for_each f l).
Proof.
  intros Hf. induction l as [|x l IH]; cbn [for_each]; [by apply moves_same|].
  apply moves_bind; [apply Hf|by intros _].
Qed.
End moves.

Lemma frame_emit (e : Event) : (forall a, e <> EFree a) -> moves frame (emit e).
Proof.
  intros He s. repeat split. intros a Ha. cbn [emit modify snd log set_log].
  destruct e; cbn [allocated]; try done; [by case_decide|by destruct (He addr)].
Qed.

Lemma triple_moves {A} (R : relation cProcess) (Pre J E : cProcess -> Prop) (m : P A)
    (Q : A -> cProcess -> Prop) :
  triple Pre m Q E -> moves R m -> (forall s s', R s s' -> J s -> J s') ->
  triple (fun s => Pre s /\ J s) m (fun a s => Q a s /\ J s) E.
Proof.
  intros Ht Hm HJ s [Hs Hj]. specialize (Ht s Hs). specialize (Hm s).
  destruct (m s) as [[a|e|e|] s']; cbn in *; eauto.
Qed.

Lemma triple_get {A} (f : cProcess -> A) (Pre E : cProcess -> Prop) :
  triple Pre (gets f) (fun _ => Pre) E.
Proof. by intros s. Qed.

Lemma triple_assoc {A B C} (m : P A) (f : A -> P B) (g : B -> P C) (Pre E : cProcess -> Prop)
    (Q : C -> cProcess -> Prop) :
  triple Pre (m ≫= fun a => f a ≫= g) Q E -> triple Pre ((m ≫= f) ≫= g) Q E.
Proof.
  intros Ht s Hs. specialize (Ht s Hs). unfold mbind, M_bind in *.
  by destruct (m s) as [[a|e|e|] s'].
Qed.

Lemma triple_fact {A} (H : Prop) (Pre E : cProcess -> Prop) (m : P A) (Q : A -> cProcess -> Prop) :
  (H -> triple Pre m Q E) -> triple (fun s => H /\ Pre s) m Q E.
Proof. intros Ht s [? ?]. by apply Ht. Qed.

Lemma held_app (l : Lock) (w h : list Event) :
  Forall (fun e => lock_event e = false) w -> held l (w ++ h) = held l h.
Proof. induction 1 as [|e w He _ IH]; cbn [app]; [done|]. by rewrite held_other. Qed.

Create HintDb frame discriminated.
Ltac frame_step :=
  match goal with
  | |- moves _ (mbind _ _) => apply moves_bind; [apply _| |intros ?]
  | |- moves _ (if ?b then _ else _) => destruct b
  | |- moves _ (match ?x with _ => _ end) => destruct x
  | |- moves _ (when _ _) => apply moves_when; [apply _|]
  | |- moves _ (for_each _ _) => apply moves_for_each; [apply _|intros ?]
  | |- moves _ (emit _) => apply frame_emit; intros ? ?; discriminate
  | |- moves _ (modify _) => intros ?; repeat split; auto
  | |- moves _ _ => apply moves_same; [apply _|done]
  end.
Ltac frame_tac := repeat first [solve [eauto 1 with frame] | frame_step].

Section frames.
Context (env : Env) (fuel : nat).

Lemma frame_lock (l : Lock) : moves frame (lock l).
Proof. unfold lock. frame_tac. Qed.
Lemma frame_unlock (l : Lock) : moves frame (unlock l).
Proof. unfold unlock. frame_tac. Qed.
Lemma frame_ioctl (cmd : IoctlCmd) (args : list Z) : moves frame (ioctl env cmd args).
Proof. unfold ioctl. frame_tac. Qed.
Lemma frame_mmap (len offs : Z) : moves frame (mmap env len offs).
Proof. unfold mmap. frame_tac. Qed.
Lemma frame_munmap (addr len : Z) : moves frame (munmap env addr len).
Proof. unfold munmap. frame_tac. Qed.
#[local] Hint Resolve frame_lock frame_unlock frame_ioctl frame_mmap frame_munmap : frame.

Lemma frame_userMap (addr len : Z) : moves frame (userMap env addr len).
Proof. unfold userMap. frame_tac. Qed.
Lemma frame_userUnmap (addr : Z) : moves frame (userUnmap env addr).
Proof. unfold userUnmap. frame_tac. Qed.

Lemma frame_drain (n : nat) (get : cProcess -> Z) (set : Z -> cProcess -> cProcess) (used : P Z) :
  (forall v s, frame s (set v s)) -> moves frame used -> moves frame (drain n get set used).
Proof.
  intros Hset Hused. induction n as [|n IH]; cbn [drain].
  all: apply moves_bind; [apply _|by apply moves_same; [apply _|]|intros c].
  all: destruct (over_thr c); [|by apply moves_same; [apply _|]].
  - by apply moves_same; [apply _|].
  - apply moves_bind; [apply _|done|intros v].
    apply moves_bind; [apply _|intros s; apply Hset|intros _]. frame_tac.
Qed.

Lemma frame_reads (o : CoyoteOper) :
  moves frame (used_rd env) /\ moves frame (used_wr env) /\ moves frame (used_rdma env) /\
  moves frame (checkCompleted env o).
Proof.
  unfold used_rd, used_wr, used_rdma, checkCompleted, read_avx, read_leg, read_wback.
  split_and!; frame_tac.
Qed.

Lemma frame_poll (n : nat) (o : CoyoteOper) : moves frame (poll_completed env n o).
Proof.
  destruct (frame_reads o) as (_ & _ & _ & Hc).
  induction n as [|n IH]; cbn [poll_completed].
  all: apply moves_bind; [apply _|done|intros v]; frame_tac.
Qed.

Lemma frame_invoke (cs : csInvokeAll) : moves frame (invoke env fuel cs).
Proof.
  destruct (frame_reads (oper cs)) as (H1 & H2 & _ & _).
  unfold invoke, post_transfer, write_avx, write_leg. frame_tac; try apply frame_poll.
  all: apply frame_drain; [intros v s; repeat split; auto|done].
Qed.

Lemma frame_ibvPostSend (qp : ibvQp) (wr : ibvSendWr) : moves frame (ibvPostSend env fuel qp wr).
Proof.
  destruct (frame_reads NOOP) as (_ & _ & Hr & _).
  assert (forall a b c d, moves frame (postCmd env fuel a b c d)) as Hc.
  { intros. unfold postCmd, write_avx, write_leg. frame_tac.
    apply frame_drain; [intros v s; repeat split; auto|done]. }
  assert (forall a b c d r, moves frame (postPrep a b c d r)) as Hp.
  { intros. unfold postPrep, write_avx, write_leg. frame_tac. }
  unfold ibvPostSend, sges, copy_sge, post_sge. cbv zeta. frame_tac; auto.
Qed.
End frames.

#[export] Hint Resolve frame_lock frame_unlock frame_ioctl frame_mmap frame_munmap frame_userMap
  frame_userUnmap frame_invoke frame_ibvPostSend : frame.

(** What construction and destruction leave alone as well. *)
Definition same_start (s s' : cProcess) : Prop :=
  csched s' = csched s /\ vfid s' = vfid s /\ mapped_pages s' = mapped_pages s.

#[export] Instance same_start_preorder : PreOrder same_start.
Proof.
  split; [by intros s|]. intros s1 s2 s3 (? & ? & ?) (? & ? & ?). repeat split; congruence.
Qed.

Lemma start_members (env : Env) :
  moves same_start (ctor env) /\ moves same_start (munmapFpga env).
Proof.
  unfold ctor, mmapFpga, munmapFpga, mmap, munmap, ioctl, with_name, clearCompleted, write_avx,
    write_leg.
  split; repeat match goal with
  | |- moves _ (emit _) => intros ?; by repeat split
  | |- moves _ (modify _) => intros ?; by repeat split
  | _ => frame_step
  end.
Qed.

(** ** Memory that may be freed *)

(** Every page buffer recorded, but those of the addresses [F] already given to
    [freeMem], is allocated (or null).  [sc], [vf] and [r] are the members no
    call changes. *)
Definition live (F : list Z) (s : cProcess) : Prop :=
  forall a v, mapped_pages s !! a = Some v -> alloc (fst v) = REG_4K -> a ∉ F ->
    a = 0 \/ allocated a (log s) = true.

Definition heap_ok (sc : bool) (vf r : Z) (F : list Z) (s : cProcess) : Prop :=
  csched s = sc /\ vfid s = vf /\ cnfg_reg_avx s = r /\ live F s.

(** What holds when a call throws: only the program's own [pLock] can be held. *)
Definition quiet (s : cProcess) : Prop :=
  held dlock (log s) = false /\ held mlock (log s) = false.

Section heap.
Context (env : Env) (L : list Lock) (Hd : dlock ∉ L) (Hm : mlock ∉ L) (sc : bool) (vf r : Z).
Abbreviation ok F := (fun s => locked L s /\ heap_ok sc vf r F s).

Lemma locked_quiet (s : cProcess) : locked L s -> quiet s.
Proof. intros H. by split; rewrite (H _), bool_decide_false. Qed.

Lemma heap_frame (F : list Z) (s s' : cProcess) :
  frame s s' -> heap_ok sc vf r F s -> heap_ok sc vf r F s'.
Proof.
  intros (H1 & H2 & H3 & H4 & H5) (? & ? & ? & Hl). repeat split; try congruence.
  intros a v. rewrite H4. intros Ha Hv HF. destruct (Hl a v Ha Hv HF); auto.
Qed.

Lemma heap_weaken (F F' : list Z) (s : cProcess) :
  F ⊆ F' -> heap_ok sc vf r F s -> heap_ok sc vf r F' s.
Proof. intros HF (? & ? & ? & Hl). repeat split; auto. intros a v Ha Hv Hn. eauto. Qed.

(** A call that keeps the locks and the frame. *)
Lemma ok_framed {A} (F : list Z) (m : P A) :
  triple (locked L) m (fun _ => locked L) (locked L) -> moves frame m ->
  triple (ok F) m (fun _ => ok F) quiet.
Proof.
  intros Ht Hf. eapply triple_moves; [|exact Hf|apply heap_frame].
  eapply triple_conseq; [exact Ht|done|done|apply locked_quiet].
Qed.

Lemma ok_heap_free (F : list Z) (a : Z) (v : mappedVal) (pages : gmap Z mappedVal) :
  a ∉ F -> pages !! a = Some v -> alloc (fst v) = REG_4K ->
  triple (fun s => ok F s /\ mapped_pages s = pages) (heap_free a) (fun _ => ok (a :: F)) quiet.
Proof.
  intros HF Hp Hv s [[HL (H1 & H2 & H3 & Hl)] Hs]. subst pages.
  unfold heap_free, mbind, M_bind, gets. cbv beta iota.
  replace ((a =? 0) || allocated a (log s)) with true
    by (destruct (Hl a v Hp Hv HF) as [->| ->]; by rewrite ?orb_true_r).
  cbn [emit modify]. split; [intros l; apply HL|repeat split; auto].
  intros b w Hb Hw Hn. apply not_elem_of_cons in Hn as [Hne Hn].
  cbn [log set_log allocated]. rewrite decide_False by done. eauto.
Qed.

Lemma ok_freeMem (F : list Z) (a : Z) :
  a ∉ F -> triple (ok F) (freeMem env a) (fun _ => ok (a :: F)) quiet.
Proof.
  intros HF. unfold freeMem.
  assert (forall s, ok F s -> ok (a :: F) s) as Hw.
  { intros s [? ?]. split; [done|]. eapply heap_weaken; [|done]. set_solver. }
  eapply triple_bind; [apply triple_get|intros c; cbv beta].
  apply (triple_bind _ _ _ (fun pages s => ok F s /\ mapped_pages s = pages));
    [by apply triple_gets|intros pages].
  destruct (pages !! a) as [v|] eqn:Hp; [|apply triple_skip; intros s [? _]; auto].
  destruct (alloc (fst v)) eqn:Hv.
  - apply (triple_bind _ _ _ (fun _ s => ok F s /\ mapped_pages s = pages)).
    + apply (triple_moves frame); [|apply frame_userUnmap|by intros s s' (_ & _ & _ & -> & _)].
      apply ok_framed; [by apply keeps_userUnmap|apply frame_userUnmap].
    + intros []. by eapply ok_heap_free.
  - eapply triple_conseq; [apply (ok_framed F); [lock_tac|frame_tac]|by intros s [? _]| |done].
    auto.
  - eapply triple_conseq; [apply (ok_framed F); [lock_tac|frame_tac]|by intros s [? _]| |done].
    auto.
  - apply triple_skip. intros s [? _]. auto.
Qed.

(** [emplace] of a block that is allocated when it is a page buffer. *)
Lemma ok_emplace (F : list Z) (cs : csAlloc) (x : Z * Z) :
  triple (fun s => ok F s /\ (alloc cs = REG_4K -> allocated (fst x) (log s) = true))
    (emplace_page (fst x) (cs, snd x)) (fun _ => ok F) quiet.
Proof.
  apply triple_modify. intros s [[HL (H1 & H2 & H3 & Hl)] Ha].
  destruct (mapped_pages s !! fst x) eqn:E; [by repeat split|].
  split; [exact HL|repeat split; auto].
  intros b v. cbn [mapped_pages set_pages log]. intros Hb Hv HF.
  destruct (decide (fst x = b)) as [<-|Hne].
  - rewrite lookup_insert_eq in Hb. simplify_eq. cbn in Hv. right. by apply Ha.
  - rewrite lookup_insert_ne in Hb by done. by apply (Hl b v).
Qed.

Lemma ok_memalign (F : list Z) (al len : Z) :
  triple (ok F) (memalign env al len)
    (fun x s => ok F s /\ allocated x (log s) = true) quiet.
Proof.
  intros s [HL HJ]. unfold memalign, mbind, M_bind, gets. cbv beta iota zeta.
  cbn [emit modify mret M_ret]. split; [split; [intros l; apply HL|]|].
  - eapply heap_frame; [|exact HJ]. repeat split. intros a Ha.
    cbn [log set_log allocated]. by case_decide.
  - cbn [log set_log allocated]. by rewrite decide_True.
Qed.

Lemma ok_getMem (F : list Z) (cs : csAlloc) : triple (ok F) (getMem env cs) (fun _ => ok F) quiet.
Proof.
  unfold getMem. destruct (0 <? n_pages cs); [|by apply triple_ret].
  eapply triple_bind; [apply triple_get|intros c; cbv beta].
  eapply (triple_bind _ _ _ (fun x s => ok F s /\
    (alloc cs = REG_4K -> allocated (fst x) (log s) = true)));
    [|intros x; eapply triple_bind; [apply ok_emplace|intros []; by apply triple_ret]].
  destruct (alloc cs) eqn:Ha.
  - eapply triple_bind; [apply ok_memalign|intros mem].
    apply (triple_bind _ _ _ (fun _ s => ok F s /\ allocated mem (log s) = true)).
    + eapply triple_moves; [by apply (ok_framed F), frame_userMap; apply keeps_userMap
        |apply frame_userMap|]. intros s s' (_ & _ & _ & _ & Hmono). apply Hmono.
    + intros []. apply triple_ret. by intros s [? ?].
  - eapply triple_conseq; [apply (ok_framed F); [lock_tac|unfold mmap_anon; frame_tac]|done| |done].
    by intros x s ?.
  - eapply triple_conseq; [apply (ok_framed F); [lock_tac|frame_tac]|done| |done].
    by intros x s ?.
  - apply triple_ret. by intros s ?.
Qed.

Lemma ok_freeMem_all (F l : list Z) :
  NoDup l -> (forall a, a ∈ l -> a ∉ F) ->
  triple (ok F) (for_each (freeMem env) l) (fun _ => ok (reverse l ++ F)) quiet.
Proof.
  intros Hnd. revert F. induction Hnd as [|a l Ha Hnd IH]; intros F HF; cbn [for_each].
  - by apply triple_skip.
  - eapply triple_bind; [apply ok_freeMem, HF; left|intros []].
    rewrite reverse_cons, <- app_assoc. apply IH. intros b Hb. apply not_elem_of_cons.
    split; [by intros ->|]. apply HF. by right.
Qed.

(** ** Destruction *)

(** The names the destructor hands to [named_mutex::remove]. *)
Definition removed (v : Z) (s : cProcess) : Prop :=
  forall nm, Some nm ∈ removed_names v -> EMutexRemove nm ∈ log s.

Lemma mutex_name_some (lit : string) (v : Z) :
  0 <= v <= Z.of_nat (String.length lit) -> exists n, mutex_name lit v = Some n.
Proof. intros H. unfold mutex_name. replace (_ && _) with true by lia. eauto. Qed.

Lemma removed_names_some (v : Z) :
  0 <= v <= 14 -> forall n, n ∈ removed_names v -> exists nm, n = Some nm.
Proof.
  intros Hv n Hn. unfold removed_names in Hn. rewrite !elem_of_cons, elem_of_nil in Hn.
  destruct Hn as [->|[->|[->|[]]]]; apply mutex_name_some; cbn; lia.
Qed.

(** The loop over names that are all defined. *)
Lemma with_names_run (f : string -> Event) (ns : list string) (s : cProcess) :
  for_each (with_name f) (Some <$> ns) s = (Ret tt, set_log s (reverse (f <$> ns) ++ log s)).
Proof.
  revert s. induction ns as [|n ns IH]; intros s; cbn -[reverse].
  - by destruct s.
  - unfold mbind, M_bind. cbn -[reverse]. rewrite IH, reverse_cons, <- app_assoc. by destruct s.
Qed.

Lemma locked_names (L1 : list Lock) (f : string -> Event) (ns : list string) (s : cProcess) :
  (forall n, lock_event (f n) = false) -> locked L1 s ->
  locked L1 (set_log s (reverse (f <$> ns) ++ log s)).
Proof.
  intros Hf HL l. cbn [log set_log]. rewrite held_app; [apply HL|].
  rewrite <- fmap_reverse, Forall_fmap. apply Forall_forall. intros n _. apply Hf.
Qed.

Lemma names_defined (l : list (option string)) :
  (forall n, n ∈ l -> exists nm, n = Some nm) -> exists ns, l = Some <$> ns.
Proof.
  induction l as [|n l IH]; intros Hl; [by exists []|].
  destruct (Hl n ltac:(left)) as [nm ->].
  destruct IH as [ns ->]; [intros m Hmem; apply Hl; by right|]. by exists (nm :: ns).
Qed.

Lemma dtor_defined : 0 <= vf <= 14 ->
  triple (ok []) (dtor env) (fun _ s => locked L s /\ removed vf s) quiet.
Proof.
  intros Hvf. unfold dtor.
  eapply triple_bind; [apply triple_get|intros c; cbv beta].
  eapply triple_bind; [apply (ok_framed []); [apply keeps_ioctl|frame_tac]|intros ?; cbv beta].
  eapply triple_bind; [apply triple_get|intros us; cbv beta].
  eapply triple_bind; [apply (ok_framed []); [|frame_tac]|intros []; cbv beta].
  { apply triple_for_each. intros x _. by apply keeps_userUnmap. }
  eapply triple_bind; [apply (ok_framed []); [lock_tac|frame_tac]|intros []; cbv beta].
  eapply triple_bind; [apply triple_get|intros ps; cbv beta].
  eapply triple_bind; [apply ok_freeMem_all; [apply NoDup_fst_map_to_list|set_solver]
    |intros []; cbv beta].
  apply (triple_bind _ _ _ (fun _ s => locked L s /\ vfid s = vf)).
  { apply triple_modify. by intros s [? (_ & ? & _)]. }
  intros []. apply (triple_bind _ _ _ (fun _ s => locked L s /\ vfid s = vf)).
  { apply (triple_moves same_start); [|apply start_members|by intros s s' (_ & -> & _)].
    eapply triple_conseq; [by apply keeps_munmapFpga|done|done|apply locked_quiet]. }
  intros []. apply (triple_bind _ _ _ (fun v s => v = vf /\ locked L s)).
  { apply triple_gets. by intros s [? ->]. }
  intros v s [-> HL]. destruct (names_defined (removed_names vf)) as [ns Hns];
    [by apply removed_names_some|].
  unfold mbind, M_bind. rewrite Hns, with_names_run. cbn [emit modify]. split.
  - intros l. cbn [log set_log]. rewrite (held_other _ EClose) by done.
    apply (locked_names L EMutexRemove ns s); [done|exact HL].
  - intros nm Hnm. rewrite Hns in Hnm. apply list_elem_of_fmap in Hnm as (nm' & [= ->] & Hin).
    cbn [log set_log]. right. apply elem_of_app. left. apply elem_of_reverse.
    by apply list_elem_of_fmap_2.
Qed.
End heap.

(** ** Construction *)
Section construction.
Context (env : Env) (vf p : Z) (sc : bool) (Hvf : 0 <= vf <= 13).

Lemma ctor_locks :
  triple (fun s => locked [] s /\ vfid s = vf) (ctor env) (fun _ => locked []) (locked []).
Proof.
  unfold ctor. eapply (triple_bind _ _ _ (fun v s => v = vf /\ locked [] s)).
  { apply triple_gets. by intros s [? ->]. }
  intros v. apply triple_fact. intros ->.
  eapply triple_bind; [apply keeps_gets|intros q].
  destruct (names_defined [plock_name vf; dlock_name vf; mlock_name vf]) as [ns ->].
  { intros n Hn. rewrite !elem_of_cons, elem_of_nil in Hn.
    destruct Hn as [->|[->|[->|[]]]]; apply mutex_name_some; cbn; lia. }
  apply (triple_bind _ _ _ (fun _ => locked [])); [|intros []; lock_tac].
  intros s HL. rewrite with_names_run. by apply locked_names.
Qed.

Lemma ctor_defined :
  triple (fun s => s = cProcess_init vf p sc) (ctor env)
    (fun _ s => locked [] s /\ heap_ok sc vf (cnfg_reg_avx s) [] s) quiet.
Proof.
  intros s ->. pose proof (proj1 (start_members env) (cProcess_init vf p sc)) as (H1 & H2 & H3).
  pose proof (ctor_locks (cProcess_init vf p sc)) as Hl.
  destruct (ctor env _) as [[[]|e|e|] s']; cbn in *; try by (apply Hl; split).
  - split; [by apply Hl|]. repeat split; auto. intros a v. by rewrite H3, lookup_empty.
  - apply (locked_quiet []); [not_in..|]. by apply Hl.
Qed.
End construction.

(** ** The calls a program makes on a [cProcess] *)
Inductive Call : Type :=
| CUserMap (addr len : Z)
| CUserUnmap (addr : Z)
| CGetMem (a : csAlloc)
| CFreeMem (addr : Z)
| CLock (oid priority : Z)
| CUnlock
| CInvoke (cs : csInvokeAll)
| CInvokeSingle (cs : csInvoke)
| CCheckCompleted (o : CoyoteOper)
| CClearCompleted
| CCheckAcks
| CIbvCheckAcks
| CGetCompleted (cpid : Z)
| CClearAcks
| CPostSend (qp : ibvQp) (wr : ibvSendWr)
| CArpLookup (ip : Z)
| CWriteContext (qp : ibvQp) (port : Z)
| CNetDrop (clr dir : bool) (id : Z)
| CSetCSR (val offs : Z)
| CGetCSR (offs : Z)
| CIoSwitch (d : IODevs)
| CIoStatus.

Definition exec (env : Env) (fuel : nat) (c : Call) : P unit :=
  match c with
  | CUserMap a l => userMap env a l
  | CUserUnmap a => userUnmap env a
  | CGetMem a => getMem env a ;; skip
  | CFreeMem a => freeMem env a
  | CLock oid priority => pLock oid priority
  | CUnlock => pUnlock
  | CInvoke cs => invoke env fuel cs
  | CInvokeSingle cs => invoke_single env fuel cs
  | CCheckCompleted o => checkCompleted env o ;; skip
  | CClearCompleted => clearCompleted
  | CCheckAcks => checkIbvAcks env ;; skip
  | CIbvCheckAcks => ibvCheckAcks env ;; skip
  | CGetCompleted c => ibvGetCompleted env c ;; skip
  | CClearAcks => clearIbvAcks
  | CPostSend qp wr => ibvPostSend env fuel qp wr
  | CArpLookup ip => doArpLookup env ip
  | CWriteContext qp port => writeQpContext env qp ;; writeConnContext env qp port
  | CNetDrop c d i => netDrop env c d i
  | CSetCSR v o => setCSR v o
  | CGetCSR o => getCSR env o ;; skip
  | CIoSwitch d => ioSwitch d
  | CIoStatus => ioStatus env ;; skip
  end.

(** A work request is well formed when the scatter-gather entries it announces
    are there and hold the union member its opcode uses. *)
Definition sge_ok (local_target : bool) (wr : ibvSendWr) (g : ibvSge) : bool :=
  match g with
  | SgeRdma _ _ _ => local_target || isRDMA wr
  | SgeSend _ _ => negb local_target && isSEND wr
  | SgeImmed ps =>
      negb local_target && negb (isRDMA wr) && negb (isSEND wr) &&
      ((if decide (opcode wr = IBV_WR_IMMED_HIGH) then 8
        else if decide (opcode wr = IBV_WR_IMMED_MID) then 7 else 3) <=? length ps)%nat
  end.

Definition wr_ok (qp : ibvQp) (wr : ibvSendWr) : Prop :=
  num_sge wr <= Z.of_nat (length (sg_list wr)) /\
  Forall (fun g => sge_ok (ip_addr (local qp) =? ip_addr (remote qp)) wr g = true) (sg_list wr).

(** What a program has to respect in a call: [r] is the address of the AVX
    registers, [lk] whether it holds its own lock, [F] what it has freed. *)
Definition call_ok (r : Z) (lk : bool) (F : list Z) (c : Call) : Prop :=
  match c with
  | CPostSend qp wr => wr_ok qp wr
  | CFreeMem a => a ∉ F
  | CLock _ _ => lk = false
  | CUnlock => lk = true
  | CIoStatus => r <> 0
  | _ => True
  end.

Definition lock_after (lk : bool) (c : Call) : bool :=
  match c with CLock _ _ => true | CUnlock => false | _ => lk end.
Definition freed_after (F : list Z) (c : Call) : list Z :=
  match c with CFreeMem a => a :: F | _ => F end.

Fixpoint program_ok (r : Z) (lk : bool) (F : list Z) (cs : list Call) : Prop :=
  match cs with
  | [] => True
  | c :: cs' => call_ok r lk F c /\ program_ok r (lock_after lk c) (freed_after F c) cs'
  end.

(** Running a list of calls; a call that throws ends it. *)
Fixpoint run_calls (env : Env) (fuel : nat) (cs : list Call) : P unit :=
  match cs with
  | [] => skip
  | c :: cs' => exec env fuel c ;; run_calls env fuel cs'
  end.

(** Without a scheduler the program's lock is the mutex [plock]. *)
Definition own_locks (sc lk : bool) : list Lock := if negb sc && lk then [plock] else [].

Section calls.
Context (env : Env) (fuel : nat) (L : list Lock) (Hd : dlock ∉ L) (Hm : mlock ∉ L).

Lemma keeps_post_sge (qp : ibvQp) (wr : ibvSendWr) (g : ibvSge) :
  sge_ok false wr g = true ->
  triple (locked L) (post_sge env fuel qp wr g) (fun _ => locked L) (locked L).
Proof.
  destruct wr as [op l n fl]. unfold post_sge, sge_ok, isRDMA, isSEND; cbn [opcode].
  destruct op, g as [| |ps]; eval_decide; cbn -[Nat.leb Nat.ltb]; intros Hok;
    try discriminate Hok.
  all: try (apply Nat.leb_le, Nat.ltb_ge in Hok; rewrite Hok).
  all: lock_tac.
Qed.

Lemma keeps_ibvPostSend (qp : ibvQp) (wr : ibvSendWr) :
  wr_ok qp wr -> triple (locked L) (ibvPostSend env fuel qp wr) (fun _ => locked L) (locked L).
Proof.
  intros [Hn Hall]. unfold ibvPostSend, sges.
  replace (Z.of_nat (length (sg_list wr)) <? num_sge wr) with false by lia.
  apply (Forall_take _ (Z.to_nat (num_sge wr))) in Hall. rewrite Forall_forall in Hall.
  eapply triple_bind; [lock_step|intros c].
  apply keeps_when. rewrite bind_ret_l.
  apply (triple_bind _ _ _ (fun _ => locked L)); [|intros []; lock_step].
  destruct (ip_addr (local qp) =? ip_addr (remote qp)) eqn:Hip;
    apply (triple_for_each (locked L)); intros g Hg;
    specialize (Hall g Hg).
  - destruct g; cbn in Hall; try done. unfold copy_sge. lock_step.
  - by apply keeps_post_sge.
Qed.
End calls.

Lemma own_lock (sc : bool) (vf r : Z) (F : list Z) (oid priority : Z) :
  triple (fun s => locked [] s /\ heap_ok sc vf r F s) (pLock oid priority)
    (fun _ s => locked (own_locks sc true) s /\ heap_ok sc vf r F s) quiet.
Proof.
  intros s [HL HJ]. unfold pLock, mbind, M_bind, gets. cbv beta iota.
  rewrite (proj1 HJ). destruct sc.
  - cbn. split; [intros l; apply HL|]. eapply heap_frame; [|exact HJ]. by repeat split.
  - pose proof (locks_lock [] [] plock ltac:(not_in) s HL) as H.
    pose proof (frame_lock plock s) as Hf. revert H Hf.
    destruct (lock plock s) as [[[]|e|e|] s']; cbn; intros H Hf; try done.
    split; [done|]. by eapply heap_frame.
Qed.

Lemma own_unlock (sc : bool) (vf r : Z) (F : list Z) :
  triple (fun s => locked (own_locks sc true) s /\ heap_ok sc vf r F s) pUnlock
    (fun _ s => locked [] s /\ heap_ok sc vf r F s) quiet.
Proof.
  intros s [HL HJ]. unfold pUnlock, mbind, M_bind, gets. cbv beta iota.
  rewrite (proj1 HJ). destruct sc.
  - cbn. split; [intros l; apply HL|]. eapply heap_frame; [|exact HJ]. by repeat split.
  - pose proof (locks_unlock [] [] plock ltac:(not_in) s HL) as H.
    pose proof (frame_unlock plock s) as Hf. revert H Hf.
    destruct (unlock plock s) as [[[]|e|e|] s']; cbn; intros H Hf; try done.
    split; [done|]. by eapply heap_frame.
Qed.

Lemma own_locks_free (sc lk : bool) :
  (dlock ∉ own_locks sc lk) /\ (mlock ∉ own_locks sc lk).
Proof. destruct sc, lk; cbn; split; not_in. Qed.

Lemma exec_ok (env : Env) (fuel : nat) (sc lk : bool) (vf r : Z) (F : list Z) (c : Call) :
  call_ok r lk F c ->
  triple (fun s => locked (own_locks sc lk) s /\ heap_ok sc vf r F s) (exec env fuel c)
    (fun _ s => locked (own_locks sc (lock_after lk c)) s /\
                heap_ok sc vf r (freed_after F c) s) quiet.
Proof.
  destruct (own_locks_free sc lk) as [Hd Hm].
  destruct c; cbn [exec call_ok lock_after freed_after]; intros Hok.
  3: eapply triple_bind; [by apply ok_getMem|intros ?; by apply triple_skip].
  3: by apply ok_freeMem.
  3: subst lk; destruct sc; apply own_lock.
  3: subst lk; replace (own_locks sc false) with (@nil Lock) by (by destruct sc); apply own_unlock.
  all: try (apply ok_framed; [done..|by apply keeps_ibvPostSend|apply frame_ibvPostSend]).
  17: { intros s [HL HJ]. unfold ioStatus, mbind, M_bind, gets. cbv beta iota.
    destruct HJ as (H1 & H2 & H3 & H4). rewrite H3. apply Z.eqb_neq in Hok. rewrite Hok.
    by repeat split. }
  all: apply ok_framed; [done..| |].
  all: unfold invoke_single, ibvCheckAcks, checkIbvAcks, ibvGetCompleted, clearIbvAcks,
    doArpLookup, writeQpContext, writeConnContext, netDrop, setCSR, getCSR, ioSwitch,
    clearCompleted, checkCompleted, read_avx, read_leg, read_wback, write_avx, write_leg.
  all: first [solve [lock_tac]|solve [frame_tac]].
Qed.

Lemma run_calls_ok (env : Env) (fuel : nat) (sc destroyed lk : bool) (vf r : Z) (F : list Z)
    (cs : list Call) :
  0 <= vf <= 14 -> program_ok r lk F cs ->
  (destroyed = true -> F = [] /\ forall a, CFreeMem a ∉ cs) ->
  triple (fun s => locked (own_locks sc lk) s /\ heap_ok sc vf r F s)
    (run_calls env fuel cs ;; when destroyed (dtor env))
    (fun _ => locked (own_locks sc (foldl lock_after lk cs))) quiet.
Proof.
  intros Hvf. revert F lk. induction cs as [|c cs IH]; intros F lk Hok HF;
    cbn [run_calls foldl].
  - unfold skip. rewrite bind_ret_l. destruct (own_locks_free sc lk) as [Hd Hm]. apply triple_when.
    + intros Hde. destruct (HF Hde) as [-> _].
      eapply triple_conseq; [exact (dtor_defined env _ Hd Hm sc vf r Hvf)|done| |done].
      by intros [] s [? _].
    + by intros _ s [? _].
  - destruct Hok as [Hc Hok]. apply triple_assoc.
    eapply triple_bind; [by apply exec_ok|intros []].
    apply IH; [done|]. intros Hde. destruct (HF Hde) as [-> Hn]. split.
    + destruct c; try done. destruct (Hn addr). left.
    + intros a Ha. apply (Hn a). by right.
Qed.


(** ** Command words *)

(** The fields of a transfer control word, as the hardware slices it. *)
Record CtrlWord : Type := mk_CtrlWord {
  w_start_rd : Z; w_start_wr : Z; w_sync_rd : Z; w_sync_wr : Z; w_stream_rd : Z; w_stream_wr : Z;
  w_clr_rd : Z; w_clr_wr : Z; w_irq : Z; w_dest_rd : Z; w_dest_wr : Z; w_pid_rd : Z; w_pid_wr : Z
}.

Definition decode_ctrl (w : Z) : CtrlWord :=
  mk_CtrlWord (bits w 0 1) (bits w 1 1) (bits w 2 1) (bits w 3 1) (bits w 4 1) (bits w 5 1)
    (bits w 6 1) (bits w 7 1) (bits w 8 1) (bits w 9 4) (bits w 13 4) (bits w 17 6) (bits w 23 6).

Ltac unfold_words :=
  unfold ctrl_cmd, ctrl_rd, ctrl_wr, clear_ctrl, post_word, qp_context, conn_context;
  autounfold with regs.

(** The control word the descriptor asks for: the interrupt and the
    write-destination fields are not used. *)
Definition spec_ctrl (cpid : Z) (cs : csInvokeAll) : CtrlWord :=
  {| w_start_rd := Z.b2z (isRead (oper cs));
     w_start_wr := Z.b2z (isWrite (oper cs));
     w_sync_rd := Z.b2z (bool_decide (oper cs = OFFLOAD));
     w_sync_wr := Z.b2z (bool_decide (oper cs = SYNC));
     w_stream_rd := Z.b2z (stream cs);
     w_stream_wr := Z.b2z (stream cs);
     w_clr_rd := Z.b2z (clr_stat cs);
     w_clr_wr := Z.b2z (clr_stat cs);
     w_irq := 0;
     w_dest_rd := dest cs mod 16;
     w_dest_wr := 0;
     w_pid_rd := cpid mod 64;
     w_pid_wr := cpid mod 64 |}.

Lemma ctrl_cmd_decode (cpid : Z) (cs : csInvokeAll) :
  decode_ctrl (ctrl_cmd cpid cs) = spec_ctrl cpid cs.
Proof.
  unfold decode_ctrl, spec_ctrl. unfold_words.
  change (dest cs mod 16) with (dest cs mod 2 ^ 4). change (cpid mod 64) with (cpid mod 2 ^ 6).
  rewrite <- !Z.land_ones by lia. change (Z.ones 4) with 15. change (Z.ones 6) with 63.
  f_equal; solve_bits.
Qed.

(** In legacy mode the two halves go out separately; the hardware takes the
    read fields from the first word and the write fields from the second. *)
Definition decode_halves (rd wr : Z) : CtrlWord :=
  mk_CtrlWord (bits rd 0 1) (bits wr 1 1) (bits rd 2 1) (bits wr 3 1) (bits rd 4 1) (bits wr 5 1)
    (bits rd 6 1) (bits wr 7 1) (bits rd 8 1) (bits rd 9 4) (bits wr 13 4) (bits rd 17 6)
    (bits wr 23 6).

Lemma ctrl_halves_decode (cpid : Z) (cs : csInvokeAll) :
  decode_halves (ctrl_rd cpid cs) (ctrl_wr cpid cs) = spec_ctrl cpid cs.
Proof.
  unfold decode_halves, spec_ctrl. unfold_words.
  change (dest cs mod 16) with (dest cs mod 2 ^ 4). change (cpid mod 64) with (cpid mod 2 ^ 6).
  rewrite <- !Z.land_ones by lia. change (Z.ones 4) with 15. change (Z.ones 6) with 63.
  f_equal; solve_bits.
Qed.

(** The transfer a command asks the hardware for; the AVX registers also
    carry its priority and its request count. *)
Record Transfer : Type := mk_Transfer {
  t_src : Z; t_src_len : Z; t_dst : Z; t_dst_len : Z; t_ctrl : CtrlWord; t_prio : option (Z * Z)
}.

Definition spec_transfer (c : fCnfg) (cpid : Z) (cs : csInvokeAll) : Transfer :=
  mk_Transfer (src_addr cs) (src_len cs) (dst_addr cs) (dst_len cs) (spec_ctrl cpid cs)
    (if en_avx c then Some (prio cs, req_count cs) else None).

(** The register writes of a posted command, newest first, and what the
    hardware makes of them. *)
Definition transfer_events (c : fCnfg) (cpid : Z) (cs : csInvokeAll) : list Event :=
  if en_avx c then
    [EAvxWrite CnfgAvxRegs.CTRL_REG (len_cmd cs) (dst_addr cs) (src_addr cs) (ctrl_cmd cpid cs);
     EAvxWrite CnfgAvxRegs.REQ_COUNT_REG 0 0 0 (req_count cs);
     EAvxWrite CnfgAvxRegs.PRIO_STAT_REG 0 0 0 (prio cs)]
  else
    [ELegWrite CnfgLegRegs.CTRL_REG (ctrl_wr cpid cs);
     ELegWrite CnfgLegRegs.LEN_WR_REG (dst_len cs);
     ELegWrite CnfgLegRegs.VADDR_WR_REG (dst_addr cs);
     ELegWrite CnfgLegRegs.CTRL_REG (ctrl_rd cpid cs);
     ELegWrite CnfgLegRegs.LEN_RD_REG (src_len cs);
     ELegWrite CnfgLegRegs.VADDR_RD_REG (src_addr cs)].

Definition observe (evs : list Event) : option Transfer :=
  match evs with
  | [EAvxWrite r3 len dst src ctrl; EAvxWrite r2 a3 a2 a1 count; EAvxWrite r1 b3 b2 b1 pr] =>
      if bool_decide ([r1; r2; r3] =
           [CnfgAvxRegs.PRIO_STAT_REG; CnfgAvxRegs.REQ_COUNT_REG; CnfgAvxRegs.CTRL_REG]) &&
         bool_decide ([a3; a2; a1; b3; b2; b1] = [0; 0; 0; 0; 0; 0]) then
        Some (mk_Transfer src (bits len 0 32) dst (bits len 32 32) (decode_ctrl ctrl)
                (Some (pr, count)))
      else None
  | [ELegWrite r6 wr; ELegWrite r5 dl; ELegWrite r4 da; ELegWrite r3 rd; ELegWrite r2 sl;
     ELegWrite r1 sa] =>
      if bool_decide ([r1; r2; r3; r4; r5; r6] =
           [CnfgLegRegs.VADDR_RD_REG; CnfgLegRegs.LEN_RD_REG; CnfgLegRegs.CTRL_REG;
            CnfgLegRegs.VADDR_WR_REG; CnfgLegRegs.LEN_WR_REG; CnfgLegRegs.CTRL_REG]) then
        Some (mk_Transfer sa sl da dl (decode_halves rd wr) None)
      else None
  | _ => None
  end.

Lemma observe_transfer_events (c : fCnfg) (cpid : Z) (cs : csInvokeAll) :
  fits 32 (src_len cs) -> fits 32 (dst_len cs) ->
  observe (transfer_events c cpid cs) = Some (spec_transfer c cpid cs).
Proof.
  intros Hs Hd. unfold transfer_events, spec_transfer. destruct (en_avx c); cbn [observe].
  - rewrite !bool_decide_true by done. cbn [andb].
    rewrite ctrl_cmd_decode. unfold len_cmd. rewrite !bits_lor.
    rewrite (bits_shiftl_high _ 32 0 32), bits_shiftl_eq by lia.
    rewrite <- (Z.shiftl_0_r (src_len cs)) at 1 2.
    rewrite bits_shiftl_eq, (bits_shiftl_low 32) by (auto; lia).
    by rewrite Z.lor_0_l, Z.lor_0_r, !wrap_small.
  - rewrite bool_decide_true by done. by rewrite ctrl_halves_decode.
Qed.

(** ** Waiting for the hardware *)

(** The events of a polling loop. *)
Definition is_wait (e : Event) : Prop :=
  match e with EAvxRead _ | ELegRead _ | EWbackRead _ | ESleepNs _ => True | _ => False end.

(** A computation that reads one register: its value and the event it logs
    depend on the configuration, the process ID and the history only. *)
Definition reader (m : P Z) (val : fCnfg -> Z -> list Event -> Z) (ev : fCnfg -> Z -> Event) :=
  (forall s, m s = (Ret (val (fcnfg s) (cpid s) (log s)),
                    set_log s (ev (fcnfg s) (cpid s) :: log s))) /\
  (forall c p, is_wait (ev c p)).

Section readers.
Context (env : Env).

Definition rd_val (c : fCnfg) (p : Z) (h : list Event) : Z :=
  if en_avx c then u32 (LOW_16 (extract_epi32 (env_avx env h CnfgAvxRegs.STAT_REG) 0))
  else u32 (u64 (env_leg env h CnfgLegRegs.STAT_CMD_USED_RD_REG)).
Definition wr_val (c : fCnfg) (p : Z) (h : list Event) : Z :=
  if en_avx c then u32 (HIGH_16 (extract_epi32 (env_avx env h CnfgAvxRegs.STAT_REG) 0))
  else u32 (u64 (env_leg env h CnfgLegRegs.STAT_CMD_USED_WR_REG)).
Definition rd_ev (c : fCnfg) (p : Z) : Event :=
  if en_avx c then EAvxRead CnfgAvxRegs.STAT_REG
  else ELegRead CnfgLegRegs.STAT_CMD_USED_RD_REG.
Definition wr_ev (c : fCnfg) (p : Z) : Event :=
  if en_avx c then EAvxRead CnfgAvxRegs.STAT_REG
  else ELegRead CnfgLegRegs.STAT_CMD_USED_WR_REG.

Definition cmpl_val (o : CoyoteOper) (c : fCnfg) (p : Z) (h : list Event) : Z :=
  if isWrite o then
    if en_wb c then u32 (env_wback env h (p + nCpidMax))
    else if en_avx c then u32 (extract_epi32 (env_avx env h (CnfgAvxRegs.STAT_DMA_REG + p)) 1)
    else u32 (HIGH_32 (u64 (env_leg env h (CnfgLegRegs.STAT_DMA_REG + p))))
  else
    if en_wb c then u32 (env_wback env h p)
    else if en_avx c then u32 (extract_epi32 (env_avx env h (CnfgAvxRegs.STAT_DMA_REG + p)) 0)
    else u32 (LOW_32 (u64 (env_leg env h (CnfgLegRegs.STAT_DMA_REG + p)))).
Definition cmpl_ev (o : CoyoteOper) (c : fCnfg) (p : Z) : Event :=
  if en_wb c then EWbackRead (if isWrite o then p + nCpidMax else p)
  else if en_avx c then EAvxRead (CnfgAvxRegs.STAT_DMA_REG + p)
  else ELegRead (CnfgLegRegs.STAT_DMA_REG + p).

Lemma used_rd_reader : reader (used_rd env) rd_val rd_ev.
Proof.
  split; [intros s | intros c p]; unfold used_rd, rd_val, rd_ev.
  - unfold mbind, M_bind, gets; cbv beta iota. by destruct (en_avx (fcnfg s)).
  - by destruct (en_avx c).
Qed.

Lemma used_wr_reader : reader (used_wr env) wr_val wr_ev.
Proof.
  split; [intros s | intros c p]; unfold used_wr, wr_val, wr_ev.
  - unfold mbind, M_bind, gets; cbv beta iota. by destruct (en_avx (fcnfg s)).
  - by destruct (en_avx c).
Qed.

Lemma checkCompleted_reader (o : CoyoteOper) :
  reader (checkCompleted env o) (cmpl_val o) (cmpl_ev o).
Proof.
  split; [intros s | intros c p]; unfold checkCompleted, cmpl_val, cmpl_ev.
  - unfold mbind, M_bind, gets; cbv beta iota.
    by destruct (isWrite o), (en_wb (fcnfg s)), (en_avx (fcnfg s)).
  - by destruct (en_wb c), (en_avx c).
Qed.
End readers.

(** The history after [k] turns of a polling loop that found nothing. *)
Fixpoint spun (e : Event) (h : list Event) (k : nat) : list Event :=
  match k with O => h | S k' => ESleepNs 100 :: e :: spun e h k' end.

Lemma spun_shift (e : Event) (h : list Event) (k : nat) :
  spun e (ESleepNs 100 :: e :: h) k = spun e h (S k).
Proof. induction k as [|k IH]; cbn; [done|]. by rewrite IH. Qed.

(** Of [N] consecutive reads in a polling loop, one satisfies [ok]. *)
Definition answers (N : nat) (val : list Event -> Z) (e : Event) (ok : Z -> Prop) : Prop :=
  forall h, exists k, (k < N)%nat /\ ok (val (spun e h k)).

(** A counter member of the object, with the laws of its accessors. *)
Record counter_laws (get : cProcess -> Z) (set : Z -> cProcess -> cProcess) : Prop := {
  cl_get_set v s : get (set v s) = v;
  cl_set_set v v' s : set v (set v' s) = set v s;
  cl_set_get s : set (get s) s = s;
  cl_get_log s h : get (set_log s h) = get s;
  cl_set_log v s h : set_log (set v s) h = set v (set_log s h);
  cl_log v s : log (set v s) = log s;
  cl_fcnfg v s : fcnfg (set v s) = fcnfg s;
  cl_cpid v s : cpid (set v s) = cpid s
}.

Lemma rd_laws : counter_laws rd_cmd_cnt set_rd.
Proof. split; intros; by destruct s. Qed.
Lemma wr_laws : counter_laws wr_cmd_cnt set_wr.
Proof. split; intros; by destruct s. Qed.
Lemma rdma_laws : counter_laws rdma_cmd_cnt set_rdma.
Proof. split; intros; by destruct s. Qed.

Lemma set_log_id (s : cProcess) : set_log s (log s) = s.
Proof. by destruct s. Qed.

Lemma drain_stop (n : nat) get set used (s : cProcess) :
  over_thr (get s) = false -> drain n get set used s = (Ret tt, s).
Proof. intros H. destruct n; cbn [drain]; unfold mbind, M_bind; cbn [gets]; by rewrite H. Qed.

Lemma drain_step (n : nat) get set (used : P Z) (s s' : cProcess) (v : Z) :
  over_thr (get s) = true -> used s = (Ret v, s') ->
  drain (S n) get set used s =
    drain n get set used
      (if over_thr v then set_log (set v s') (ESleepNs 100 :: log (set v s')) else set v s').
Proof.
  intros H Hu. cbn [drain]. unfold mbind, M_bind, modify; cbn [gets]. rewrite H, Hu.
  by destruct (over_thr v).
Qed.

(** [waited b val e c h v h']: a loop run only when [b] holds, from counter
    [c] and history [h].  With room by [c] it reads nothing; otherwise it reads
    register [e] until one answer leaves room, sleeping after each of those
    that do not, and [v] is that first answer. *)
Definition waited (b : bool) (val : list Event -> Z) (e : Event) (c : Z) (h : list Event)
    (v : Z) (h' : list Event) : Prop :=
  if b && (cmdFifoDepth - cmdFifoThr <? c) then
    exists k, (forall j, (j < k)%nat -> cmdFifoDepth - cmdFifoThr < val (spun e h j)) /\
      v = val (spun e h k) /\ v <= cmdFifoDepth - cmdFifoThr /\ h' = e :: spun e h k
  else v = c /\ h' = h.

(** [polled b val e h h']: when [b] holds, register [e] is read until the
    first answer other than 0; otherwise nothing happens. *)
Definition polled (b : bool) (val : list Event -> Z) (e : Event) (h h' : list Event) : Prop :=
  if b then
    exists k, (forall j, (j < k)%nat -> val (spun e h j) = 0) /\ val (spun e h k) <> 0 /\
      h' = e :: spun e h k
  else h' = h.

Lemma spun_waits (e : Event) (h : list Event) (k : nat) :
  is_wait e -> exists w, spun e h k = w ++ h /\ Forall is_wait w.
Proof.
  intros He. induction k as [|k (w & Hk & Hw)]; cbn; [by exists []|].
  rewrite Hk. exists (ESleepNs 100 :: e :: w). by repeat constructor.
Qed.

Lemma waited_waits (b : bool) val (e : Event) (c : Z) (h h' : list Event) (v : Z) :
  is_wait e -> waited b val e c h v h' ->
  exists w, h' = w ++ h /\ Forall is_wait w.
Proof.
  intros He. unfold waited. destruct (b && _).
  - intros (k & _ & _ & _ & ->). destruct (spun_waits e h k He) as (w & -> & Hw).
    exists (e :: w). by repeat constructor.
  - intros [_ ->]. by exists [].
Qed.

Lemma waited_room (val : list Event -> Z) (e : Event) (c v : Z) (h h' : list Event) :
  waited true val e c h v h' -> v <= cmdFifoDepth - cmdFifoThr.
Proof.
  unfold waited. cbn [andb]. destruct (Z.ltb_spec (cmdFifoDepth - cmdFifoThr) c).
  - by intros (k & _ & _ & ? & _).
  - intros [-> _]. lia.
Qed.

(** One more turn in front of a loop that still has to wait. *)
Lemma waited_turn (val : list Event -> Z) (e : Event) (c v : Z) (h h' : list Event) :
  over_thr c = true -> over_thr (val h) = true ->
  waited true val e (val h) (ESleepNs 100 :: e :: h) v h' -> waited true val e c h v h'.
Proof.
  unfold waited, over_thr. cbn [andb]. intros -> Ho. rewrite Ho.
  intros (k & Hk & Hv & Hr & Hh). exists (S k). rewrite spun_shift in Hv, Hh.
  split; [|by rewrite Hv in Hr |- *].
  intros [|j] Hj; [cbn [spun]; lia|]. rewrite <- (spun_shift e h j). apply Hk. lia.
Qed.

Lemma drain_exact (N n : nat) get set (used : P Z) val ev (s : cProcess) :
  counter_laws get set -> reader used val ev ->
  answers N (val (fcnfg s) (cpid s)) (ev (fcnfg s) (cpid s)) (fun v => over_thr v = false) ->
  (N <= n)%nat ->
  exists v h', drain n get set used s = (Ret tt, set v (set_log s h')) /\
    waited true (val (fcnfg s) (cpid s)) (ev (fcnfg s) (cpid s)) (get s) (log s) v h'.
Proof.
  intros L [Hused Hev] Hans Hn. destruct (Hans (log s)) as (k & Hk & Hok).
  assert (k < n)%nat as Hkn by lia. clear Hk Hn Hans. revert s n Hkn Hok.
  induction k as [|k IH]; intros s n Hkn Hok.
  all: destruct (over_thr (get s)) eqn:Ho;
    [|exists (get s), (log s); unfold waited; unfold over_thr in Ho;
      by rewrite set_log_id, (cl_set_get _ _ L), Ho, drain_stop].
  all: destruct n as [|n]; [lia|]; rewrite (drain_step _ _ _ _ _ _ _ Ho (Hused s)).
  all: set (v1 := val (fcnfg s) (cpid s) (log s)) in *.
  all: destruct (over_thr v1) eqn:Hv1; [try (subst v1; cbn [spun] in Hok; congruence)|
    exists v1, (ev (fcnfg s) (cpid s) :: log s);
    rewrite drain_stop by (by rewrite (cl_get_set _ _ L));
    split; [done|]; unfold waited; unfold over_thr in Ho, Hv1; rewrite Ho;
    exists 0%nat; repeat split; [intros; lia|lia]].
  set (h1 := ESleepNs 100 :: ev (fcnfg s) (cpid s) :: log s).
  assert (set_log (set v1 (set_log s (ev (fcnfg s) (cpid s) :: log s)))
    (ESleepNs 100 :: log (set v1 (set_log s (ev (fcnfg s) (cpid s) :: log s)))) =
    set v1 (set_log s h1)) as ->.
  { rewrite (cl_log _ _ L), (cl_set_log _ _ L). by destruct s. }
  destruct (IH (set v1 (set_log s h1)) n) as (v & h' & Hd & Hw); [lia| |].
  { rewrite (cl_fcnfg _ _ L), (cl_cpid _ _ L), (cl_log _ _ L). cbn [log set_log fcnfg cpid].
    unfold h1. by rewrite spun_shift. }
  rewrite Hd. exists v, h'. split.
  - rewrite (cl_set_log _ _ L), (cl_set_set _ _ L). by destruct s.
  - apply waited_turn; [done..|].
    by rewrite (cl_fcnfg _ _ L), (cl_cpid _ _ L), (cl_log _ _ L), (cl_get_set _ _ L) in Hw.
Qed.

Lemma drain_total (N n : nat) get set (used : P Z) val ev (s : cProcess) :
  counter_laws get set -> reader used val ev ->
  answers N (val (fcnfg s) (cpid s)) (ev (fcnfg s) (cpid s)) (fun v => over_thr v = false) ->
  (N <= n)%nat ->
  exists v w, drain n get set used s = (Ret tt, set v (set_log s (w ++ log s))) /\
    over_thr v = false /\ Forall is_wait w.
Proof.
  intros L Hr Hans Hn.
  destruct (drain_exact N n get set used val ev s L Hr Hans Hn) as (v & h' & Hd & Hw).
  destruct (waited_waits _ _ _ _ _ _ _ (proj2 Hr _ _) Hw) as (w & -> & Hall).
  exists v, w. split; [done|split; [|done]]. apply waited_room in Hw. unfold over_thr. lia.
Qed.

Lemma poll_exact (env : Env) (N n : nat) (o : CoyoteOper) (s : cProcess) :
  answers N (cmpl_val env o (fcnfg s) (cpid s)) (cmpl_ev o (fcnfg s) (cpid s))
    (fun v => v <> 0) ->
  (N <= n)%nat ->
  exists h', poll_completed env n o s = (Ret tt, set_log s h') /\
    polled true (cmpl_val env o (fcnfg s) (cpid s)) (cmpl_ev o (fcnfg s) (cpid s)) (log s) h'.
Proof.
  intros Hans Hn. destruct (checkCompleted_reader env o) as [Hread Hev].
  destruct (Hans (log s)) as (k & Hk & Hok).
  assert (k < n)%nat as Hkn by lia. clear Hk Hn Hans. revert s n Hkn Hok.
  induction k as [|k IH]; intros s n Hkn Hok.
  all: destruct n as [|n]; [lia|]; cbn [poll_completed]; unfold mbind, M_bind; rewrite Hread.
  all: destruct (cmpl_val env o (fcnfg s) (cpid s) (log s) =? 0) eqn:E;
    [|eexists; split; [done|]; exists 0%nat; repeat split; [intros; lia|cbn; lia]].
  - cbn [spun] in Hok. apply Z.eqb_eq in E. congruence.
  - cbn [emit modify].
    set (s1 := set_log _ _). destruct (IH s1 n) as (h' & Hw & k' & Hk' & Hn' & Hh'); [lia| |].
    { subst s1; cbn [log set_log fcnfg cpid]. by rewrite spun_shift. }
    subst s1. cbn [log set_log fcnfg cpid] in *. rewrite spun_shift in Hn', Hh'.
    rewrite Hw. exists h'. split; [done|]. exists (S k'). split; [|done].
    intros [|j] Hj; [cbn [spun]; lia|]. rewrite <- (spun_shift _ (log s) j). apply Hk'. lia.
Qed.

(** The device keeps answering: in every polling loop of [invoke], one of [N]
    consecutive reads finds room or a completion. *)
Record responsive (env : Env) (N : nat) (c : fCnfg) (p : Z) (o : CoyoteOper) : Prop := {
  resp_rd : answers N (rd_val env c p) (rd_ev c p) (fun v => over_thr v = false);
  resp_wr : answers N (wr_val env c p) (wr_ev c p) (fun v => over_thr v = false);
  resp_cmpl : answers N (cmpl_val env o c p) (cmpl_ev o c p) (fun v => v <> 0)
}.

Lemma drain_when (N n : nat) (b : bool) get set (used : P Z) val ev (s : cProcess) :
  counter_laws get set -> reader used val ev ->
  answers N (val (fcnfg s) (cpid s)) (ev (fcnfg s) (cpid s)) (fun v => over_thr v = false) ->
  (N <= n)%nat ->
  exists v h', when b (drain n get set used) s = (Ret tt, set v (set_log s h')) /\
    waited b (val (fcnfg s) (cpid s)) (ev (fcnfg s) (cpid s)) (get s) (log s) v h'.
Proof.
  intros L Hr Hans Hn. destruct b; cbn [when]; [by apply (drain_exact N)|].
  exists (get s), (log s). cbn. by rewrite set_log_id, (cl_set_get _ _ L).
Qed.

Lemma post_transfer_events (cs : csInvokeAll) (s : cProcess) :
  post_transfer cs s = (Ret tt, set_log s (transfer_events (fcnfg s) (cpid s) cs ++ log s)).
Proof.
  unfold post_transfer, transfer_events, mbind, M_bind, gets; cbv beta iota.
  by destruct (en_avx (fcnfg s)).
Qed.

Lemma wait_no_lock (w : list Event) :
  Forall is_wait w -> Forall (fun e => lock_event e = false) w.
Proof. intros H. eapply Forall_impl; [exact H|]. by intros []. Qed.

Lemma transfer_no_lock (c : fCnfg) (p : Z) (cs : csInvokeAll) :
  Forall (fun e => lock_event e = false) (transfer_events c p cs).
Proof. unfold transfer_events. destruct (en_avx c); repeat constructor. Qed.

Lemma poll_when (env : Env) (N n : nat) (b : bool) (o : CoyoteOper) (s : cProcess) :
  answers N (cmpl_val env o (fcnfg s) (cpid s)) (cmpl_ev o (fcnfg s) (cpid s))
    (fun v => v <> 0) ->
  (N <= n)%nat ->
  exists h', when b (poll_completed env n o) s = (Ret tt, set_log s h') /\
    polled b (cmpl_val env o (fcnfg s) (cpid s)) (cmpl_ev o (fcnfg s) (cpid s)) (log s) h'.
Proof.
  intros. destruct b; [by eapply poll_exact|].
  exists (log s). cbn. by rewrite set_log_id.
Qed.

(** C1: for a transfer - any operation but NOOP, and SYNC or OFFLOAD on shells
    with card memory only, lengths of 32 bits - by a thread that does not hold the device
    lock, and with a responsive device, [invoke] terminates, and its whole history
    is determined.  It takes the device lock; a read that finds its counter
    above [cmdFifoDepth - cmdFifoThr] reads the fill level of its queue, and
    sleeps after each answer that leaves no room, until the first that does,
    which the counter becomes; a write does the same with its own counter and
    level; neither happens in the other direction.  It then posts exactly one
    transfer - the one the descriptor asks for, in the AVX registers with its
    priority and request count, or in the legacy ones -, counts it in both
    directions and releases the lock; and when the descriptor asks for it, and
    only then, it reads the completion counter of the direction until it is
    not 0. *)
Theorem invoke_posts_transfer (env : Env) (fuel N : nat) (cs : csInvokeAll) (s : cProcess) :
  oper cs <> NOOP -> (isSync (oper cs) = true -> en_mem (fcnfg s) = true) ->
  fits 32 (src_len cs) -> fits 32 (dst_len cs) ->
  held dlock (log s) = false -> responsive env N (fcnfg s) (cpid s) (oper cs) ->
  (N <= fuel)%nat ->
  exists rd wr h1 h2 evs h3,
    waited (isRead (oper cs)) (rd_val env (fcnfg s) (cpid s)) (rd_ev (fcnfg s) (cpid s))
      (rd_cmd_cnt s) (ELock dlock :: log s) rd h1 /\
    waited (isWrite (oper cs)) (wr_val env (fcnfg s) (cpid s)) (wr_ev (fcnfg s) (cpid s))
      (wr_cmd_cnt s) h1 wr h2 /\
    observe evs = Some (spec_transfer (fcnfg s) (cpid s) cs) /\
    polled (poll cs) (cmpl_val env (oper cs) (fcnfg s) (cpid s))
      (cmpl_ev (oper cs) (fcnfg s) (cpid s)) (EUnlock dlock :: evs ++ h2) h3 /\
    invoke env fuel cs s =
      (Ret tt, set_log (set_wr (u32 (wr + 1)) (set_rd (u32 (rd + 1)) s)) h3).
Proof.
  intros Hop Hsync Hsl Hdl Hlock [Hrd Hwr Hc] Hfuel.
  unfold invoke, mbind, M_bind at 1, gets. cbv beta iota.
  replace (isSync (oper cs) && negb (en_mem (fcnfg s))) with false
    by (destruct (isSync (oper cs)); [by rewrite Hsync|done]).
  rewrite decide_False by done. unfold lock. unfold mbind, M_bind, gets. cbv beta iota.
  rewrite Hlock. cbn [emit modify].
  set (s1 := set_log s (ELock dlock :: log s)).
  destruct (drain_when N fuel (isRead (oper cs)) rd_cmd_cnt set_rd (used_rd env)
    (rd_val env) rd_ev s1) as (rd & h1 & -> & Hw1);
    [apply rd_laws|apply used_rd_reader|done|done|].
  set (s2 := set_rd rd (set_log s1 h1)).
  destruct (drain_when N fuel (isWrite (oper cs)) wr_cmd_cnt set_wr (used_wr env)
    (wr_val env) wr_ev s2) as (wr & h2 & -> & Hw2);
    [apply wr_laws|apply used_wr_reader|done|done|].
  set (s3 := set_wr wr (set_log s2 h2)).
  rewrite post_transfer_events. cbn [modify].
  set (evs := transfer_events (fcnfg s3) (cpid s3) cs).
  unfold unlock, mbind, M_bind, gets. cbv beta iota.
  assert (held dlock (evs ++ h2) = true) as Hheld.
  { destruct (waited_waits _ _ _ _ _ _ _ (proj2 (used_rd_reader env) _ _) Hw1) as (w1 & -> & ?).
    destruct (waited_waits _ _ _ _ _ _ _ (proj2 (used_wr_reader env) _ _) Hw2) as (w2 & -> & ?).
    subst s2 s1. cbn [log set_log set_rd set_cnts].
    rewrite !held_app by (first [apply transfer_no_lock | by apply wait_no_lock]).
    cbn [held]. by rewrite decide_True. }
  cbn [log set_log set_rd set_wr set_cnts s3 s2 s1].
  rewrite Hheld. cbn [emit modify].
  match goal with |- context [when (poll cs) _ ?x] =>
    destruct (poll_when env N fuel (poll cs) (oper cs) x Hc Hfuel) as (h3 & -> & Hw3) end.
  exists rd, wr, h1, h2, evs, h3.
  split; [done|split; [done|split; [by apply observe_transfer_events|by split]]].
Qed.

(** A device whose queues are empty and whose counters read 1. *)
Definition ready_env : Env :=
  mk_Env (fun _ => 3) (fun _ c args => (0, match c with
                                         | IOCTL_REGISTER_PID => [0; 5]
                                         | IOCTL_READ_CNFG => [0x10061; 5]
                                         | _ => args end))
    (fun h _ => 0x7f0000001000 + 0x10000000 * Z.of_nat (length h)) (fun _ _ _ => 0)
    (fun h _ => 0x550000000040 + 0x10000 * Z.of_nat (length h))
    (fun _ reg => if reg =? CnfgAvxRegs.STAT_REG then 0
                  else if 64 <=? reg then 0x00000001000000010000000100000001 else 0)
    (fun _ reg => if 64 <=? reg then 0x0000000100000001 else 0) (fun _ _ => 1) (fun _ _ => 0).

Definition ready_proc : cProcess :=
  mk_cProcess 3 0 5 100 (parseCnfg 0x10061) false 30 0 0 0x1000 0 0x2000 0 ∅ ∅ 0 [].

Definition read_descr : csInvokeAll :=
  mk_csInvokeAll READ 0x1000 0 64 0 true true 3 true 0 0.

Lemma answers_now (N : nat) (val : list Event -> Z) (e : Event) (ok : Z -> Prop) :
  (0 < N)%nat -> (forall h, ok (val h)) -> answers N val e ok.
Proof. intros HN Hok h. exists 0%nat. split; [done|apply Hok]. Qed.

Lemma ready_responsive (c : fCnfg) (p : Z) (o : CoyoteOper) :
  en_avx c = true -> en_wb c = false -> 0 <= p -> responsive ready_env 1 c p o.
Proof.
  intros Ha Hw Hp.
  split; apply answers_now; try lia; intros h;
    unfold rd_val, wr_val, cmpl_val; rewrite ?Ha, ?Hw; cbn [env_avx ready_env].
  - done.
  - done.
  - replace (CnfgAvxRegs.STAT_DMA_REG + p =? CnfgAvxRegs.STAT_REG) with false
      by (unfold CnfgAvxRegs.STAT_DMA_REG, CnfgAvxRegs.STAT_REG; lia).
    replace (64 <=? CnfgAvxRegs.STAT_DMA_REG + p) with true
      by (unfold CnfgAvxRegs.STAT_DMA_REG; lia).
    by destruct (isWrite o).
Qed.

Lemma invoke_posts_transfer_witness :
  exists rd wr h1 h2 evs h3,
    waited true (rd_val ready_env (fcnfg ready_proc) 5) (EAvxRead CnfgAvxRegs.STAT_REG)
      30 [ELock dlock] rd h1 /\
    waited false (wr_val ready_env (fcnfg ready_proc) 5) (EAvxRead CnfgAvxRegs.STAT_REG)
      0 h1 wr h2 /\
    observe evs = Some (spec_transfer (fcnfg ready_proc) 5 read_descr) /\
    polled true (cmpl_val ready_env READ (fcnfg ready_proc) 5)
      (EAvxRead (CnfgAvxRegs.STAT_DMA_REG + 5)) (EUnlock dlock :: evs ++ h2) h3 /\
    invoke ready_env 1 read_descr ready_proc =
      (Ret tt, set_log (set_wr (u32 (wr + 1)) (set_rd (u32 (rd + 1)) ready_proc)) h3).
Proof.
  apply (invoke_posts_transfer ready_env 1 1 read_descr ready_proc).
  - discriminate.
  - intros H. discriminate H.
  - unfold fits; cbn; lia.
  - unfold fits; cbn; lia.
  - reflexivity.
  - apply ready_responsive; try reflexivity. cbn; lia.
  - lia.
Defined.


(** ** RDMA commands *)

(** The fields of an RDMA post word. *)
Record PostWord : Type := mk_PostWord {
  pw_post : Z; pw_opcode : Z; pw_pid : Z; pw_vfid : Z; pw_host : Z; pw_mode : Z; pw_last : Z;
  pw_clr : Z
}.

Definition decode_post (w : Z) : PostWord :=
  mk_PostWord (bits w 0 1) (bits w 1 5) (bits w 6 6) (bits w 12 4) (bits w 16 1) (bits w 17 1)
    (bits w 18 1) (bits w 19 1).

(** A queue pair's number holds the process ID in its low six bits and the
    vFPGA in the next four. *)
Definition spec_post (qp : ibvQp) (wr : ibvSendWr) : PostWord :=
  {| pw_post := 1;
     pw_opcode := opcode_code (opcode wr);
     pw_pid := qpn (local qp) mod 64;
     pw_vfid := (qpn (local qp) / 64) mod 16;
     pw_host := Z.b2z (host (send_flags wr));
     pw_mode := Z.b2z (mode (send_flags wr));
     pw_last := Z.b2z (last (send_flags wr));
     pw_clr := Z.b2z (clr (send_flags wr)) |}.

Lemma land_b2z (b : bool) : Z.land (Z.b2z b) 1 = Z.b2z b.
Proof. by destruct b. Qed.

Lemma post_word_decode (qp : ibvQp) (wr : ibvSendWr) :
  decode_post (post_word qp wr) = spec_post qp wr.
Proof.
  unfold decode_post, spec_post. unfold_words. rewrite !land_b2z.
  change (qpn (local qp) mod 64) with (qpn (local qp) mod 2 ^ 6).
  change ((qpn (local qp) / 64) mod 16) with ((qpn (local qp) / 2 ^ 6) mod 2 ^ 4).
  rewrite <- !Z.land_ones, <- Z.shiftr_div_pow2 by lia.
  change (Z.ones 6) with 63. change (Z.ones 4) with 15.
  assert (Z.land (opcode_code (opcode wr)) 31 = opcode_code (opcode wr)) as ->
    by (by destruct (opcode wr)).
  pose proof (opcode_code_fits (opcode wr)) as Hop.
  change (Z.shiftl 1 0) with (Z.shiftl (Z.b2z true) 0).
  f_equal; solve_bits. by rewrite wrap_small.
Qed.

(** The register writes of one command and of a preparation, newest first. *)
Definition cmd_writes (c : fCnfg) (o3 o2 o1 o0 : Z) : list Event :=
  if en_avx c then [EAvxWrite (CnfgAvxRegs.RDMA_POST_REG + qsfp_offs c) o3 o2 o1 o0]
  else
    [ELegWrite (CnfgLegRegs.RDMA_POST_REG + qsfp_offs c) 1;
     ELegWrite (CnfgLegRegs.RDMA_POST_REG_3 + qsfp_offs c) o3;
     ELegWrite (CnfgLegRegs.RDMA_POST_REG_2 + qsfp_offs c) o2;
     ELegWrite (CnfgLegRegs.RDMA_POST_REG_1 + qsfp_offs c) o1;
     ELegWrite (CnfgLegRegs.RDMA_POST_REG_0 + qsfp_offs c) o0].

Definition prep_writes (c : fCnfg) (o3 o2 o1 o0 r : Z) : list Event :=
  if en_avx c then [EAvxWrite (CnfgAvxRegs.RDMA_POST_REG_0 + qsfp_offs c + r) o3 o2 o1 o0]
  else
    [ELegWrite (CnfgLegRegs.RDMA_POST_REG_3 + qsfp_offs c + r * 4) o3;
     ELegWrite (CnfgLegRegs.RDMA_POST_REG_2 + qsfp_offs c + r * 4) o2;
     ELegWrite (CnfgLegRegs.RDMA_POST_REG_1 + qsfp_offs c + r * 4) o1;
     ELegWrite (CnfgLegRegs.RDMA_POST_REG_0 + qsfp_offs c + r * 4) o0].

Definition rdma_val (env : Env) (c : fCnfg) (p : Z) (h : list Event) : Z :=
  if en_avx c then u32 (extract_epi32 (env_avx env h (CnfgAvxRegs.RDMA_STAT_REG + qsfp_offs c)) 0)
  else u32 (u64 (env_leg env h (CnfgLegRegs.RDMA_STAT_CMD_USED_REG + qsfp_offs c))).
Definition rdma_ev (c : fCnfg) (p : Z) : Event :=
  if en_avx c then EAvxRead (CnfgAvxRegs.RDMA_STAT_REG + qsfp_offs c)
  else ELegRead (CnfgLegRegs.RDMA_STAT_CMD_USED_REG + qsfp_offs c).

Lemma used_rdma_reader (env : Env) : reader (used_rdma env) (rdma_val env) rdma_ev.
Proof.
  split; [intros s | intros c p]; unfold used_rdma, rdma_val, rdma_ev.
  - unfold mbind, M_bind, gets; cbv beta iota. by destruct (en_avx (fcnfg s)).
  - by destruct (en_avx c).
Qed.

(** One scatter-gather entry as a group of events, newest first; [w] are the
    reads that wait for room in the command queue. *)
Definition cmd_group (c : fCnfg) (o3 o2 o1 o0 : Z) (w : list Event) : list Event :=
  EUnlock dlock :: cmd_writes c o3 o2 o1 o0 ++ w ++ [ELock dlock].
Definition prep_group (c : fCnfg) (o3 o2 o1 o0 r : Z) : list Event :=
  EUnlock dlock :: prep_writes c o3 o2 o1 o0 r ++ [ELock dlock].

Definition sge_group (c : fCnfg) (qp : ibvQp) (wr : ibvSendWr) (g : ibvSge) (w : list Event)
    : list Event :=
  let o0 := post_word qp wr in
  match g with
  | SgeRdma lo ro len =>
      cmd_group c len (u64 (vaddr (remote qp) + ro)) (u64 (vaddr (local qp) + lo)) o0 w
  | SgeSend la len => cmd_group c 0 len la o0 w
  | SgeImmed ps =>
      let p i := default 0 (ps !! i) in
      cmd_group c (p 2%nat) (p 1%nat) (p 0%nat) o0 w ++
      (if bool_decide (opcode wr = IBV_WR_IMMED_HIGH) || bool_decide (opcode wr = IBV_WR_IMMED_MID)
       then prep_group c (p 6%nat) (p 5%nat) (p 4%nat) (p 3%nat) ibvImmedMid else []) ++
      (if bool_decide (opcode wr = IBV_WR_IMMED_HIGH)
       then prep_group c 0 0 0 (p 7%nat) ibvImmedHigh else [])
  end.

Definition rdma_responsive (env : Env) (N : nat) (c : fCnfg) (p : Z) : Prop :=
  answers N (rdma_val env c p) (rdma_ev c p) (fun v => over_thr v = false).

(** The state after a group of RDMA events: only the history and the RDMA
    counter changed, and the counter respects the threshold. *)
Definition posted (s : cProcess) (grp : list Event) (s' : cProcess) : Prop :=
  exists v, s' = set_rdma (u32 (v + 1)) (set_log s (grp ++ log s)) /\
    v <= cmdFifoDepth - cmdFifoThr.

Lemma run_lock (l : Lock) (s : cProcess) :
  held l (log s) = false -> lock l s = (Ret tt, set_log s (ELock l :: log s)).
Proof. intros H. unfold lock, mbind, M_bind, gets. by rewrite H. Qed.

Lemma run_unlock (l : Lock) (s : cProcess) :
  held l (log s) = true -> unlock l s = (Ret tt, set_log s (EUnlock l :: log s)).
Proof. intros H. unfold unlock, mbind, M_bind, gets. by rewrite H. Qed.

Lemma held_inside (l : Lock) (w h : list Event) :
  Forall (fun e => lock_event e = false) w -> held l (w ++ ELock l :: h) = true.
Proof. intros H. rewrite held_app by done. cbn. by rewrite decide_True. Qed.

Lemma held_unlocked (l : Lock) (h : list Event) : held l (EUnlock l :: h) = false.
Proof. cbn. by rewrite decide_True. Qed.

Lemma cmd_writes_no_lock (c : fCnfg) (o3 o2 o1 o0 : Z) :
  Forall (fun e => lock_event e = false) (cmd_writes c o3 o2 o1 o0).
Proof. unfold cmd_writes. destruct (en_avx c); repeat constructor. Qed.

Lemma prep_writes_no_lock (c : fCnfg) (o3 o2 o1 o0 r : Z) :
  Forall (fun e => lock_event e = false) (prep_writes c o3 o2 o1 o0 r).
Proof. unfold prep_writes. destruct (en_avx c); repeat constructor. Qed.

Lemma postCmd_total (env : Env) (N n : nat) (o3 o2 o1 o0 : Z) (s : cProcess) :
  held dlock (log s) = false -> rdma_responsive env N (fcnfg s) (cpid s) -> (N <= n)%nat ->
  exists w s', postCmd env n o3 o2 o1 o0 s = (Ret tt, s') /\ Forall is_wait w /\
    posted s (cmd_group (fcnfg s) o3 o2 o1 o0 w) s' /\ held dlock (log s') = false.
Proof.
  intros Hl Hr Hn. unfold postCmd, mbind, M_bind at 1. rewrite run_lock by done.
  set (s1 := set_log s (ELock dlock :: log s)). unfold mbind, M_bind at 1.
  destruct (drain_total N n rdma_cmd_cnt set_rdma (used_rdma env) (rdma_val env) rdma_ev s1)
    as (v & w & -> & Hv & Hw); [apply rdma_laws|apply used_rdma_reader|done|done|].
  set (s2 := set_rdma v (set_log s1 (w ++ log s1))).
  set (s3 := set_rdma (u32 (v + 1)) (set_log s2 (cmd_writes (fcnfg s) o3 o2 o1 o0 ++ log s2))).
  assert (held dlock (log s3) = true) as Hheld.
  { cbn. rewrite app_assoc. apply held_inside, Forall_app.
    split; [apply cmd_writes_no_lock | by apply wait_no_lock]. }
  exists w, (set_log s3 (EUnlock dlock :: log s3)). split; [|split; [done|split]].
  - unfold mbind, M_bind, gets. cbv beta iota. rewrite <- (run_unlock dlock s3) by done.
    subst s3 s2 s1. unfold cmd_writes. cbn [fcnfg set_rdma set_cnts set_log].
    by destruct (en_avx (fcnfg s)).
  - exists v. split; [|unfold over_thr in Hv; lia].
    subst s3 s2 s1. unfold cmd_group. cbn. by rewrite <- !app_assoc.
  - apply held_unlocked.
Qed.

Lemma postPrep_total (o3 o2 o1 o0 r : Z) (s : cProcess) :
  held dlock (log s) = false ->
  exists s', postPrep o3 o2 o1 o0 r s = (Ret tt, s') /\
    s' = set_log s (prep_group (fcnfg s) o3 o2 o1 o0 r ++ log s) /\ held dlock (log s') = false.
Proof.
  intros Hl. unfold postPrep, mbind, M_bind at 1. rewrite run_lock by done.
  set (s1 := set_log s (ELock dlock :: log s)).
  set (s3 := set_log s1 (prep_writes (fcnfg s) o3 o2 o1 o0 r ++ log s1)).
  assert (held dlock (log s3) = true) as Hheld.
  { cbn. apply held_inside, prep_writes_no_lock. }
  exists (set_log s3 (EUnlock dlock :: log s3)). split; [|split].
  - unfold mbind, M_bind, gets. cbv beta iota. rewrite <- (run_unlock dlock s3) by done.
    subst s3 s1. unfold prep_writes. cbn [fcnfg set_log]. by destruct (en_avx (fcnfg s)).
  - subst s3 s1. unfold prep_group. cbn. by rewrite <- !app_assoc.
  - apply held_unlocked.
Qed.

Lemma sge_ok_immed (wr : ibvSendWr) (ps : list Z) :
  sge_ok false wr (SgeImmed ps) = true ->
  isRDMA wr = false /\ isSEND wr = false /\
  (length ps <? (if bool_decide (opcode wr = IBV_WR_IMMED_HIGH) then 8
                 else if bool_decide (opcode wr = IBV_WR_IMMED_MID) then 7 else 3))%nat = false.
Proof.
  cbn. rewrite !andb_true_iff, !negb_true_iff. intros [[? ?] Hlen].
  split; [done|split; [done|]]. apply Nat.leb_le in Hlen. apply Nat.ltb_ge.
  revert Hlen. by repeat case_decide; repeat case_bool_decide.
Qed.

Lemma run_when_prep (b : bool) (o3 o2 o1 o0 r : Z) (s : cProcess) :
  held dlock (log s) = false ->
  exists s', when b (postPrep o3 o2 o1 o0 r) s = (Ret tt, s') /\
    s' = set_log s ((if b then prep_group (fcnfg s) o3 o2 o1 o0 r else []) ++ log s) /\
    held dlock (log s') = false.
Proof.
  intros Hl. destruct b; cbn [when]; [by apply postPrep_total|].
  exists s. cbn. by rewrite set_log_id.
Qed.

Lemma post_sge_total (env : Env) (N n : nat) (qp : ibvQp) (wr : ibvSendWr) (g : ibvSge)
    (s : cProcess) :
  sge_ok false wr g = true -> held dlock (log s) = false ->
  rdma_responsive env N (fcnfg s) (cpid s) -> (N <= n)%nat ->
  exists w s', post_sge env n qp wr g s = (Ret tt, s') /\ Forall is_wait w /\
    posted s (sge_group (fcnfg s) qp wr g w) s' /\ held dlock (log s') = false.
Proof.
  intros Hok Hl Hr Hn. destruct g as [lo ro len|la len|ps].
  - unfold post_sge. cbn in Hok |- *. rewrite Hok. by apply (postCmd_total env N).
  - unfold post_sge. cbn in Hok |- *. rewrite Hok.
    assert (isRDMA wr = false) as ->
      by (revert Hok; unfold isRDMA, isSEND; by destruct (opcode wr)).
    by apply (postCmd_total env N).
  - destruct (sge_ok_immed wr ps Hok) as (H1 & H2 & H3).
    unfold post_sge. cbv zeta. rewrite H1, H2, H3. cbn [sge_group].
    set (hi := bool_decide (opcode wr = IBV_WR_IMMED_HIGH)).
    set (mi := bool_decide (opcode wr = IBV_WR_IMMED_MID)).
    unfold mbind, M_bind.
    destruct (run_when_prep hi 0 0 0 (default 0 (ps !! 7%nat)) ibvImmedHigh s Hl)
      as (s1 & -> & Hs1 & Hl1).
    destruct (run_when_prep (hi || mi) (default 0 (ps !! 6%nat)) (default 0 (ps !! 5%nat))
      (default 0 (ps !! 4%nat)) (default 0 (ps !! 3%nat)) ibvImmedMid s1 Hl1)
      as (s2 & -> & Hs2 & Hl2).
    destruct (postCmd_total env N n (default 0 (ps !! 2%nat)) (default 0 (ps !! 1%nat))
      (default 0 (ps !! 0%nat)) (post_word qp wr) s2) as (w & s3 & -> & Hw & (v & Hs3 & Hv) & Hl3);
      [done|by rewrite Hs2, Hs1|done|].
    exists w, s3. split; [done|split; [done|split; [|done]]].
    exists v. split; [|done]. rewrite Hs3, Hs2, Hs1. cbn [fcnfg set_log log].
    by rewrite <- !app_assoc.
Qed.

(** The history and counter after posting a list of entries. *)
Definition posted_all (qp : ibvQp) (wr : ibvSendWr) (l : list ibvSge) (s s' : cProcess) : Prop :=
  exists v groups,
    s' = set_rdma v (set_log s (concat (rev groups) ++ log s)) /\
    Forall2 (fun g grp => exists w, Forall is_wait w /\ grp = sge_group (fcnfg s) qp wr g w)
      l groups.

Lemma for_each_post_total (env : Env) (N n : nat) (qp : ibvQp) (wr : ibvSendWr) (l : list ibvSge)
    (s : cProcess) :
  Forall (fun g => sge_ok false wr g = true) l -> held dlock (log s) = false ->
  rdma_responsive env N (fcnfg s) (cpid s) -> (N <= n)%nat ->
  exists s', for_each (post_sge env n qp wr) l s = (Ret tt, s') /\ posted_all qp wr l s s'.
Proof.
  intros Hall. revert s. induction Hall as [|g l Hg _ IH]; intros s Hl Hr Hn; cbn [for_each].
  - exists s. split; [done|]. exists (rdma_cmd_cnt s), []. cbn.
    rewrite set_log_id, (cl_set_get _ _ rdma_laws). by split.
  - destruct (post_sge_total env N n qp wr g s Hg Hl Hr Hn)
      as (w & s1 & Hs1 & Hw & (v1 & E1 & _) & Hl1).
    destruct (IH s1) as (s2 & Hs2 & v2 & groups & E2 & HF); [done|by rewrite E1|done|].
    unfold mbind, M_bind. rewrite Hs1, Hs2. exists s2. split; [done|].
    exists v2, (sge_group (fcnfg s) qp wr g w :: groups). split.
    + rewrite E2, E1. cbn [rev]. rewrite concat_app, <- app_assoc. cbn [concat].
      rewrite app_nil_r. done.
    + constructor; [by exists w|]. by rewrite E1 in HF.
Qed.

(** posting a work request to a remote queue pair with a responsive device
    terminates and issues, in the order of the scatter-gather list, one command
    per entry - for an immediate, preceded by the preparation writes its length
    needs - each within its own lock section, with the post word of the request. *)
Theorem ibvPostSend_posts (env : Env) (N n : nat) (qp : ibvQp) (wr : ibvSendWr) (s : cProcess) :
  en_rdma (fcnfg s) = true -> ip_addr (local qp) <> ip_addr (remote qp) -> wr_ok qp wr ->
  held dlock (log s) = false -> rdma_responsive env N (fcnfg s) (cpid s) -> (N <= n)%nat ->
  decode_post (post_word qp wr) = spec_post qp wr /\
  exists s', ibvPostSend env n qp wr s = (Ret tt, set_last_qp s' (id qp)) /\
    posted_all qp wr (take (Z.to_nat (num_sge wr)) (sg_list wr)) s s'.
Proof.
  intros Hen Hip [Hnum Hall] Hl Hr Hn. split; [apply post_word_decode|].
  apply Z.eqb_neq in Hip. rewrite Hip in Hall.
  unfold ibvPostSend, sges, mbind, M_bind, gets. cbv beta iota. rewrite Hen. cbn [when].
  replace (Z.of_nat (length (sg_list wr)) <? num_sge wr) with false by lia.
  cbn [mret M_ret]. rewrite Hip.
  apply (Forall_take _ (Z.to_nat (num_sge wr))) in Hall.
  destruct (for_each_post_total env N n qp wr _ s Hall Hl Hr Hn) as (s' & Hs' & Hp).
  rewrite Hs'. by exists s'.
Qed.

Definition imm_qp : ibvQp :=
  mk_ibvQp 9 (mk_ibvQ 1 0x45 0 0 0x1000 64 []) (mk_ibvQ 2 0x11 0 0 0x9000 64 []).
Definition mid_wr : ibvSendWr :=
  mk_ibvSendWr IBV_WR_IMMED_MID [SgeImmed [1; 2; 3; 4; 5; 6; 7]] 1
    (mk_ibvSendFlags true false true false).

Lemma ibvPostSend_posts_witness :
  decode_post (post_word imm_qp mid_wr) = mk_PostWord 1 4 5 1 1 0 1 0 /\
  exists s', ibvPostSend ready_env 1 imm_qp mid_wr ready_proc = (Ret tt, set_last_qp s' 9) /\
    posted_all imm_qp mid_wr [SgeImmed [1; 2; 3; 4; 5; 6; 7]] ready_proc s'.
Proof.
  apply (ibvPostSend_posts ready_env 1 1 imm_qp mid_wr ready_proc).
  - reflexivity.
  - discriminate.
  - split; [reflexivity|]. repeat constructor.
  - reflexivity.
  - apply answers_now; [lia|]. intros h. reflexivity.
  - lia.
Defined.

(** ** Memory management *)

Lemma hugePageSize_pow : hugePageSize = 2 ^ 21.
Proof. done. Qed.

Lemma align_huge_spec (p : Z) :
  0 <= p -> p + hugePageSize <= 2 ^ 64 ->
  align_huge p mod hugePageSize = 0 /\ p <= align_huge p < p + hugePageSize.
Proof.
  intros Hp Hb. unfold align_huge, hugePageShift. rewrite hugePageSize_pow in *.
  rewrite (wrap_small 64 (_ - 1)) by (unfold fits; lia).
  rewrite Z.shiftl_mul_pow2, Z.shiftr_div_pow2 by lia.
  pose proof (Z.div_mod (p + 2 ^ 21 - 1) (2 ^ 21) ltac:(lia)) as Hd.
  pose proof (Z.mod_pos_bound (p + 2 ^ 21 - 1) (2 ^ 21) ltac:(lia)).
  set (q := (p + 2 ^ 21 - 1) / 2 ^ 21) in *.
  rewrite wrap_small by (unfold fits; lia).
  split; [by rewrite Z.mod_mul|lia].
Qed.

(** The calls of an environment whose driver requests succeed. *)
Record driver_ok (env : Env) : Prop := {
  ok_ioctl h c args : fst (env_ioctl env h c args) = 0;
  ok_munmap h a l : env_munmap env h a l = 0
}.

(** a host buffer of up to 2046 huge pages is aligned to 2 MB and lies
    inside the region mapped for it, and the object records it. *)
Theorem getMem_host_inside (env : Env) (n : Z) (s : cProcess) :
  driver_ok env -> held mlock (log s) = false -> 0 < n <= 2046 ->
  let base := env_mmap env
    (EIoctl IOCTL_ALLOC_HOST_USER_MEM [u64 n; u64 (cpid s)] :: ELock mlock :: log s)
    ((n + 1) * hugePageSize) in
  0 <= base -> base + (n + 1) * hugePageSize <= 2 ^ 64 ->
  exists mem s',
    getMem env (mk_csAlloc HOST_2M n) s = (Ret mem, s') /\
    EMmap ((n + 1) * hugePageSize) mmapBuff ∈ log s' /\
    mem mod hugePageSize = 0 /\
    base <= mem /\ mem + n * hugePageSize <= base + (n + 1) * hugePageSize /\
    (mapped_pages s !! mem = None ->
     mapped_pages s' = <[mem := (mk_csAlloc HOST_2M n, base)]> (mapped_pages s)) /\
    held mlock (log s') = false.
Proof.
  intros [Hio _] Hl Hn base Hb Hb64. set (size := (n + 1) * hugePageSize) in *.
  assert (u32 (u32 (n + 1) * hugePageSize) = size) as Hsize.
  { subst size. rewrite hugePageSize_pow in *.
    by rewrite (wrap_small 32 (n + 1)), wrap_small by (unfold fits; lia). }
  destruct (align_huge_spec base Hb) as [Hal Hin].
  { subst size. rewrite hugePageSize_pow in *. lia. }
  unfold getMem. cbn [n_pages alloc]. replace (0 <? n) with true by lia.
  unfold mbind, M_bind, gets. cbv beta iota. rewrite run_lock by done.
  unfold ioctl, mbind, M_bind, gets. cbn [emit modify mret M_ret]. cbn [log set_log cpid].
  rewrite Hio. cbn [Z.eqb negb]. unfold mmap, mbind, M_bind, gets. cbn [emit modify mret M_ret].
  cbn [log set_log]. rewrite Hsize. fold base.
  replace (base =? MAP_FAILED) with false by (unfold MAP_FAILED; lia).
  rewrite run_unlock by (cbn; by rewrite decide_True).
  cbn [log set_log fst snd mret M_ret].
  exists (align_huge base). eexists. split; [reflexivity|].
  split; [|split; [done|split; [lia|split; [subst size; rewrite hugePageSize_pow in *; lia|split]]]].
  - cbn. case_match; cbn; repeat constructor.
  - intros Hnone. cbn. by rewrite Hnone.
  - cbn. case_match; cbn; by rewrite decide_True.
Qed.

Definition host_base : Z := 0x7f0020001000.

Lemma getMem_host_inside_witness :
  exists mem s',
    getMem ready_env (mk_csAlloc HOST_2M 3) ready_proc = (Ret mem, s') /\
    EMmap ((3 + 1) * hugePageSize) mmapBuff ∈ log s' /\
    mem mod hugePageSize = 0 /\
    host_base <= mem /\ mem + 3 * hugePageSize <= host_base + (3 + 1) * hugePageSize /\
    (mapped_pages ready_proc !! mem = None ->
     mapped_pages s' = <[mem := (mk_csAlloc HOST_2M 3, host_base)]> (mapped_pages ready_proc)) /\
    held mlock (log s') = false.
Proof.
  apply (getMem_host_inside ready_env 3 ready_proc).
  - split; reflexivity.
  - reflexivity.
  - lia.
  - vm_compute; discriminate.
  - vm_compute; discriminate.
Defined.

(** the product of the mapping is computed in 32 bits, so every request
    from 2047 pages on maps less memory than the buffer it hands out - none at
    all for 2047 pages. *)
Theorem getMem_host_size_wraps (env : Env) (n : Z) (s : cProcess) :
  driver_ok env -> held mlock (log s) = false -> 2047 <= n < 2 ^ 32 ->
  exists len,
    EMmap len mmapBuff ∈ log (snd (getMem env (mk_csAlloc HOST_2M n) s)) /\
    len < n * hugePageSize /\ (n = 2047 -> len = 0).
Proof.
  intros [Hio _] Hl Hn. exists (u32 (u32 (n + 1) * hugePageSize)).
  split; [|split].
  - unfold getMem. cbn [n_pages alloc]. replace (0 <? n) with true by lia.
    unfold mbind, M_bind, gets. cbv beta iota. rewrite run_lock by done.
    unfold ioctl, mbind, M_bind, gets. cbn [emit modify mret M_ret]. cbn [log set_log cpid].
    rewrite Hio. cbn [Z.eqb negb]. unfold mmap, mbind, M_bind, gets. cbn [emit modify mret M_ret].
    cbn [log set_log]. destruct (_ =? MAP_FAILED).
    all: rewrite run_unlock by (cbn; by rewrite decide_True).
    + cbn. repeat constructor.
    + cbn. case_match; cbn; repeat constructor.
  - pose proof (wrap_range 32 (u32 (n + 1) * hugePageSize) ltac:(lia)) as [_ H].
    destruct (decide (n = 2047)) as [->|]; [by vm_compute|].
    rewrite hugePageSize_pow in *. lia.
  - intros ->. by vm_compute.
Qed.

Lemma getMem_host_size_wraps_witness :
  exists len,
    EMmap len mmapBuff ∈ log (snd (getMem ready_env (mk_csAlloc HOST_2M 2047) ready_proc)) /\
    len < 2047 * hugePageSize /\ (2047 = 2047 -> len = 0).
Proof.
  apply (getMem_host_size_wraps ready_env 2047 ready_proc); [split; reflexivity|reflexivity|lia].
Defined.

(** [freeMem] does not forget the buffer: a page buffer freed a second time - by
    the program or by the destructor, which frees every buffer recorded - is
    handed to [free] when it is no longer allocated. *)
Theorem freed_buffer_freed_again (env : Env) (a n b : Z) (s : cProcess) :
  driver_ok env -> a <> 0 -> allocated a (log s) = true ->
  mapped_pages s !! a = Some (mk_csAlloc REG_4K n, b) ->
  fst ((freeMem env a ;; freeMem env a) s) = Undef "free of memory not allocated".
Proof.
  intros [Hio _] Ha Hall Hp.
  assert (forall s1, mapped_pages s1 !! a = Some (mk_csAlloc REG_4K n, b) ->
    exists h, allocated a h = allocated a (log s1) /\
      freeMem env a s1 = heap_free a (set_log s1 h)) as Hf.
  { intros s1 H1. unfold freeMem, mbind, M_bind, gets. cbv beta iota. rewrite H1. cbn [alloc fst].
    unfold userUnmap, mbind, M_bind, gets. cbv beta iota. destruct (bool_decide _); cbn [when].
    - unfold ioctl, mbind, M_bind, gets. cbn. rewrite Hio. cbn.
      by exists (EIoctl IOCTL_UNMAP_USER [a; u64 (cpid s1)] :: log s1).
    - exists (log s1). by rewrite set_log_id. }
  destruct (Hf s Hp) as (h & Hh & E). unfold mbind, M_bind. rewrite E.
  unfold heap_free at 1, mbind, M_bind, gets. cbn [log set_log]. rewrite Hh, Hall, orb_true_r.
  cbn [emit modify]. destruct (Hf (set_log (set_log s h) (EFree a :: h)) Hp) as (h2 & Hh2 & E2).
  cbn [log set_log] in *. rewrite E2. unfold heap_free, mbind, M_bind, gets. cbn [log set_log].
  rewrite Hh2. cbn. rewrite decide_True by done. apply Z.eqb_neq in Ha. by rewrite Ha.
Qed.

Definition page_proc : cProcess :=
  set_log (set_pages ready_proc {[ 0x5000 := (mk_csAlloc REG_4K 1, 0) ]})
    [EMemalign axiDataWidth 4096 0x5000].

Lemma freed_buffer_freed_again_witness :
  fst ((freeMem ready_env 0x5000 ;; freeMem ready_env 0x5000) page_proc) =
    Undef "free of memory not allocated".
Proof.
  apply (freed_buffer_freed_again ready_env 0x5000 1 0 page_proc).
  - split; reflexivity.
  - discriminate.
  - reflexivity.
  - reflexivity.
Defined.

(** A program that frees its buffer and then destroys the object. *)
Example freed_then_destroyed :
  fst ((freeMem ready_env 0x5000 ;; dtor ready_env) page_proc) =
    Undef "free of memory not allocated".
Proof. vm_compute. reflexivity. Qed.
