(* ===== verification/CProcessCtrl.v ===== *)
(** More guarantees of [CProcess]: the RDMA contexts handed to the driver, the
    acknowledgement counters, the writeback layout, the IO switch and the names
    of the inter-process mutexes. *)

From stdpp Require Import base numbers list gmap strings.
From Stdlib Require Import ZArith Lia.
From S2P Require Import Prelude CoyoteDefs IbvStructs CProcess CProcessFacts.

Local Open Scope Z_scope.

(** ** Contexts *)

(** The fields the driver forwards to the RDMA stack, as it slices them out of
    the argument words of the two [ioctl]s. *)
Record Context : Type := mk_Context {
  x_qpn : Z; x_lpsn : Z; x_rpsn : Z; x_vaddr : Z; x_rkey : Z;
  x_lqpn : Z; x_rqpn : Z; x_port : Z; x_gid : list Z
}.

Definition decode_context (qp conn : list Z) : option Context :=
  match qp, conn with
  | [_; q0; q1; q2], [_; c0; c1; c2] =>
      Some (mk_Context (bits q0 32 10) (bits q1 24 24) (bits q1 0 24) (bits q2 16 48)
              (bits q2 0 16) (bits c0 0 16) (bits c0 16 24) (bits c0 40 16)
              [bits c1 0 32; bits c1 32 32; bits c2 0 32; bits c2 32 32])
  | _, _ => None
  end.

Definition spec_context (qp : ibvQp) (port : Z) : Context :=
  {| x_qpn := wrap 10 (qpn (local qp));
     x_lpsn := wrap 24 (psn (local qp));
     x_rpsn := wrap 24 (psn (remote qp));
     x_vaddr := wrap 48 (vaddr (remote qp));
     x_rkey := wrap 16 (rkey (remote qp));
     x_lqpn := wrap 16 (qpn (local qp));
     x_rqpn := wrap 24 (qpn (remote qp));
     x_port := wrap 16 port;
     x_gid := [wrap 32 (gidToUint 0 (remote qp)); wrap 32 (gidToUint 8 (remote qp));
               wrap 32 (gidToUint 16 (remote qp)); wrap 32 (gidToUint 24 (remote qp))] |}.

Lemma land_mask_wrap (n x m : Z) : 0 <= n -> m = Z.ones n -> Z.land x m = wrap n x.
Proof. intros Hn ->. by rewrite wrap_land. Qed.

Lemma context_decodes (c : fCnfg) (qp : ibvQp) (port : Z) :
  decode_context (qp_context c qp) (conn_context c qp port) = Some (spec_context qp port).
Proof.
  unfold decode_context, spec_context, qp_context, conn_context. autounfold with regs.
  rewrite !(land_mask_wrap 10 _ 0x3ff), !(land_mask_wrap 24 _ 0xffffff),
    !(land_mask_wrap 48 _ 0xffffffffffff), !(land_mask_wrap 16 _ 0xffff),
    !(land_mask_wrap 32 _ 0xffffffff) by (try lia; reflexivity).
  f_equal. f_equal; [..|f_equal; [|f_equal; [|f_equal; [|f_equal]]]]; solve_bits; rewrite ?wrap_wrap by lia; done.
Qed.

(** writing the context and the connection of a queue pair hands the
    driver two commands whose words decode to exactly the numbers, addresses,
    key, port and global identifier of the pair, each truncated to the width
    of its field; a failing command is reported and ends the sequence. *)
Theorem contexts_reach_driver (env : Env) (qp : ibvQp) (port : Z) (s : cProcess) :
  en_rdma (fcnfg s) = true ->
  exists q c,
    decode_context q c = Some (spec_context qp port) /\
    let e1 := EIoctl IOCTL_WRITE_CTX q in
    let e2 := EIoctl IOCTL_WRITE_CONN c in
    (writeQpContext env qp ;; writeConnContext env qp port) s =
      if negb (fst (env_ioctl env (log s) IOCTL_WRITE_CTX q) =? 0) then
        (Throw "ioctl_write_ctx() failed", set_log s (e1 :: log s))
      else if negb (fst (env_ioctl env (e1 :: log s) IOCTL_WRITE_CONN c) =? 0) then
        (Throw "ioctl_write_conn() failed", set_log s (e2 :: e1 :: log s))
      else (Ret tt, set_log s (e2 :: e1 :: log s)).
Proof.
  intros Hr. exists (qp_context (fcnfg s) qp), (conn_context (fcnfg s) qp port).
  split; [apply context_decodes|].
  unfold writeQpContext, writeConnContext, ioctl, emit, mbind, M_bind, gets, modify, mret, M_ret.
  cbn [log set_log fcnfg]. rewrite Hr. cbn [when log set_log].
  destruct (negb (fst (env_ioctl env (log s) _ _) =? 0)); cbn [when throw]; [done|].
  cbn -[Z.eqb qp_context conn_context]. rewrite Hr. cbn -[Z.eqb qp_context conn_context].
  by destruct (negb _).
Qed.

(** A process with RDMA, and a queue pair. *)
Definition rdma_proc : cProcess := set_fcnfg (cProcess_init 0 0 false) (parseCnfg 0x10001).

Lemma contexts_reach_driver_witness :
  exists q c,
    decode_context q c = Some (spec_context imm_qp 18515) /\
    let e1 := EIoctl IOCTL_WRITE_CTX q in
    let e2 := EIoctl IOCTL_WRITE_CONN c in
    (writeQpContext ready_env imm_qp ;;
     writeConnContext ready_env imm_qp 18515) rdma_proc =
      if negb (fst (env_ioctl ready_env (log rdma_proc) IOCTL_WRITE_CTX q) =? 0) then
        (Throw "ioctl_write_ctx() failed", set_log rdma_proc (e1 :: log rdma_proc))
      else if negb (fst (env_ioctl ready_env (e1 :: log rdma_proc) IOCTL_WRITE_CONN c) =? 0) then
        (Throw "ioctl_write_conn() failed", set_log rdma_proc (e2 :: e1 :: log rdma_proc))
      else (Ret tt, set_log rdma_proc (e2 :: e1 :: log rdma_proc)).
Proof.
  apply (contexts_reach_driver ready_env imm_qp 18515 rdma_proc).
  reflexivity.
Defined.

(** ** Completion and acknowledgement counters *)

(** The three ways a program polls the counters of its process. *)
Inductive Counter : Type := CRead | CWrite | CAck.

Definition poll_counter (env : Env) (k : Counter) : P Z :=
  match k with
  | CRead => checkCompleted env READ
  | CWrite => checkCompleted env WRITE
  | CAck => ibvCheckAcks env
  end.

Lemma wback_index (env : Env) (k : Counter) (s : cProcess) (i : Z) (h : list Event) :
  en_wb (fcnfg s) = true -> cnfg_wf (fcnfg s) ->
  log (snd (poll_counter env k s)) = EWbackRead i :: h ->
  i = cpid s + match k with CRead => 0 | CWrite => 1 | CAck => 2 + qsfp (fcnfg s) end * nCpidMax /\
  fst (poll_counter env k s) = Ret (u32 (env_wback env (log s) i)).
Proof.
  intros Hwb Hwf. destruct k; cbn [poll_counter].
  all: unfold checkCompleted, ibvCheckAcks, read_wback, emit, mbind, M_bind, gets, modify, mret, M_ret.
  all: cbn -[nCpidMax]; rewrite Hwb; cbn -[nCpidMax].
  - intros [= <- _]. split; [lia|done].
  - intros [= <- _]. split; [lia|done].
  - intros [= <- _]. split; [|done]. destruct (cnfg_wf_qsfp _ Hwf) as [-> | ->]; cbn; lia.
Qed.

(** with writeback enabled every counter a process polls lies inside the
    writeback region, and different processes or different counters are at
    different words of it. *)
Theorem writeback_layout (env1 env2 : Env) (k1 k2 : Counter) (s1 s2 : cProcess) (i1 i2 : Z)
    (h1 h2 : list Event) :
  en_wb (fcnfg s1) = true -> cnfg_wf (fcnfg s1) -> 0 <= cpid s1 < nCpidMax ->
  en_wb (fcnfg s2) = true -> cnfg_wf (fcnfg s2) -> 0 <= cpid s2 < nCpidMax ->
  log (snd (poll_counter env1 k1 s1)) = EWbackRead i1 :: h1 ->
  log (snd (poll_counter env2 k2 s2)) = EWbackRead i2 :: h2 ->
  0 <= 4 * i1 /\ 4 * i1 + 4 <= wbackRegionSize /\
  (i1 = i2 -> cpid s1 = cpid s2 /\ k1 = k2 /\
    (k1 = CAck -> qsfp (fcnfg s1) = qsfp (fcnfg s2))).
Proof.
  intros Hb1 Hw1 Hc1 Hb2 Hw2 Hc2 H1 H2.
  apply wback_index in H1 as [-> _]; [|done..]. apply wback_index in H2 as [-> _]; [|done..].
  unfold wbackRegionSize, nCpidMax in *.
  destruct (cnfg_wf_qsfp _ Hw1) as [-> | ->], (cnfg_wf_qsfp _ Hw2) as [-> | ->].
  all: destruct k1, k2; repeat split; try lia; intros; try lia; try done.
Qed.

(** A process with writeback, for the witnesses. *)
Definition wb_proc (cpid : Z) : cProcess :=
  set_cpid (set_fcnfg (cProcess_init 0 0 false) (parseCnfg 0x10008)) cpid.

Lemma writeback_layout_witness :
  0 <= 4 * 67 /\ 4 * 67 + 4 <= wbackRegionSize /\
  (67 = 131 -> 3 = 3 /\ CWrite = CAck /\ (CWrite = CAck -> 0 = 0)).
Proof.
  apply (writeback_layout ready_env ready_env CWrite CAck (wb_proc 3) (wb_proc 3) 67 131 [] []);
    first [reflexivity | apply parseCnfg_wf | cbn; unfold nCpidMax; lia].
Defined.

(** the two ways of polling RDMA acknowledgements agree on every
    configuration the shell reports: same register or writeback word, same
    value, same effects. *)
Theorem checkIbvAcks_ibvCheckAcks (env : Env) (s : cProcess) :
  cnfg_wf (fcnfg s) -> 0 <= cpid s < nCpidMax ->
  checkIbvAcks env s = ibvCheckAcks env s.
Proof.
  intros Hwf Hc. unfold nCpidMax in Hc. unfold checkIbvAcks, ibvCheckAcks, mbind, M_bind, gets. cbv beta iota.
  destruct (en_wb (fcnfg s)).
  - f_equal. destruct (cnfg_wf_qsfp _ Hwf) as [-> | ->]; cbn [Z.eqb]; unfold nCpidMax.
    all: rewrite wrap_small by (unfold fits; lia).
    all: lia.
  - destruct (en_avx (fcnfg s)); [done|].
    unfold CnfgLegRegs.STAT_DMA_REG, CnfgLegRegs.STAT_RDMA_REG, nCpidMax.
    by replace (64 + cpid s + 64) with (128 + cpid s) by lia.
Qed.

Lemma checkIbvAcks_ibvCheckAcks_witness :
  checkIbvAcks ready_env (wb_proc 5) = ibvCheckAcks ready_env (wb_proc 5).
Proof.
  apply (checkIbvAcks_ibvCheckAcks ready_env (wb_proc 5));
    [apply parseCnfg_wf | cbn; unfold nCpidMax; lia].
Defined.

(** ** The IO switch *)

(** The value a device register was last written with. *)
Definition avx_holds (env : Env) (reg : Z) : Prop :=
  forall h e, env_avx env (EAvxWrite reg 0 0 0 e :: h) reg = e.

(** the device an IO-switch command selects is the one the status register
    reports, for every device; on a shell without AVX the status cannot be read
    at all (a null pointer is dereferenced). *)
Theorem ioSwitch_status (env : Env) (d : IODevs) (s : cProcess) :
  avx_holds env CnfgAvxRegs.IO_SWITCH_REG ->
  let query := (ioSwitch d ;; v ← ioStatus env; mret (userInIOSwtch v)) in
  (en_avx (fcnfg s) = true -> cnfg_reg_avx s <> 0 -> fst (query s) = Ret d) /\
  (en_avx (fcnfg s) = false -> cnfg_reg_avx s = 0 ->
    fst (query s) = Undef "null pointer dereference").
Proof.
  intros Hreg. cbv zeta.
  unfold ioSwitch, ioStatus, read_avx, write_avx, write_leg, emit, mbind, M_bind, gets, modify, mret, M_ret.
  split; intros Ha Hc; rewrite Ha; cbn [cnfg_reg_avx set_log log fst].
  - apply Z.eqb_neq in Hc as ->. cbn [fst log set_log]. rewrite Hreg. by destruct d.
  - by rewrite Hc.
Qed.

Definition register_env : Env :=
  mk_Env (fun _ => 3) (fun _ _ _ => (0, [])) (fun _ _ => 0x7000) (fun _ _ _ => 0) (fun _ _ => 0x9000)
    (fun h r => match h with EAvxWrite r' _ _ _ e :: _ => if r =? r' then e else 0 | _ => 0 end)
    (fun _ _ => 0) (fun _ _ => 0) (fun _ _ => 0).

Lemma ioSwitch_status_witness :
  let query := (ioSwitch RDMA_1_CARD_SEND ;; v ← ioStatus register_env; mret (userInIOSwtch v)) in
  let s := set_regs (set_fcnfg (wb_proc 0) (parseCnfg 1)) 0x7000 0 0 0 in
  (en_avx (fcnfg s) = true -> cnfg_reg_avx s <> 0 -> fst (query s) = Ret RDMA_1_CARD_SEND) /\
  (en_avx (fcnfg s) = false -> cnfg_reg_avx s = 0 ->
    fst (query s) = Undef "null pointer dereference").
Proof.
  apply (ioSwitch_status register_env RDMA_1_CARD_SEND
           (set_regs (set_fcnfg (wb_proc 0) (parseCnfg 1)) 0x7000 0 0 0)).
  intros h e. reflexivity.
Defined.

(** ** Inter-process mutexes *)

Definition lock_name (l : Lock) (vfid : Z) : option string :=
  match l with plock => plock_name vfid | dlock => dlock_name vfid | mlock => mlock_name vfid end.

(** The vFPGAs [0 .. n-1] with each lock. *)
Definition lock_ids (n : nat) : list (Lock * Z) :=
  [plock; dlock; mlock] ≫= fun l => (fun v => (l, Z.of_nat v)) <$> seq 0 n.

Lemma lock_ids_elem (n : nat) (l : Lock) (v : Z) :
  0 <= v < Z.of_nat n -> (l, v) ∈ lock_ids n.
Proof.
  intros Hv. unfold lock_ids. apply list_elem_of_bind. exists l. split.
  - apply list_elem_of_fmap. exists (Z.to_nat v). rewrite Z2Nat.id by lia. split; [done|].
    apply elem_of_seq. lia.
  - destruct l; rewrite !elem_of_cons; auto.
Qed.

Lemma lock_names_NoDup :
  forallb (fun '(l1, v1) => forallb (fun '(l2, v2) =>
    bool_decide (lock_name l1 v1 <> lock_name l2 v2) || bool_decide (l1 = l2) && (v1 =? v2))
    (lock_ids 12)) (lock_ids 12) = true.
Proof. vm_compute. reflexivity. Qed.

(** for the vFPGAs 0 to 11 the names are pairwise distinct, so processes
    on different vFPGAs, and different locks of one process, never share a
    mutex; from 12 on they do. *)
Theorem lock_name_inj (l1 l2 : Lock) (v1 v2 : Z) :
  0 <= v1 < 12 -> 0 <= v2 < 12 -> lock_name l1 v1 = lock_name l2 v2 -> l1 = l2 /\ v1 = v2.
Proof.
  intros H1 H2 He. pose proof lock_names_NoDup as H.
  rewrite forallb_forall in H.
  specialize (H (l1, v1) (proj1 (list_elem_of_In _ _) (lock_ids_elem 12 l1 v1 H1))).
  cbv beta iota in H. rewrite forallb_forall in H.
  specialize (H (l2, v2) (proj1 (list_elem_of_In _ _) (lock_ids_elem 12 l2 v2 H2))).
  cbv beta iota in H. rewrite bool_decide_false in H by auto. cbn [orb] in H.
  apply andb_true_iff in H as [Ha Hb]. apply bool_decide_eq_true in Ha. split; [done|lia].
Qed.

Lemma lock_name_inj_witness : plock = plock /\ 11 = 11.
Proof. apply (lock_name_inj plock plock 11 11); [lia|lia|reflexivity]. Defined.

Example lock_name_clash : lock_name plock 13 = lock_name mlock 12.
Proof. reflexivity. Qed.

(** The removed names are those of the vFPGA below. *)
Lemma removed_names_below (v : Z) :
  2 <= v <= 12 -> plock_name (v - 1) ∈ removed_names v /\ plock_name v ∉ removed_names v.
Proof.
  intros Hv.
  assert (v = 2 \/ v = 3 \/ v = 4 \/ v = 5 \/ v = 6 \/ v = 7 \/ v = 8 \/ v = 9 \/ v = 10 \/
          v = 11 \/ v = 12) as H by lia.
  repeat (destruct H as [->|H]); [..|subst v].
  all: unfold removed_names; split; [by left|rewrite !elem_of_cons, elem_of_nil; by intros [|[|[|]]]].
Qed.

(** destroying a process removes the user mutex of the vFPGA with the next
    lower number, which other processes may hold, and not its own: of a process
    with no recorded buffer the destructor does nothing undefined, and one that
    returns has done so. *)
Theorem dtor_removes_neighbour (env : Env) (sc : bool) (v r : Z) :
  2 <= v <= 12 ->
  exists other, plock_name (v - 1) = Some other /\ plock_name v ∉ removed_names v /\
    triple (fun s => locked [] s /\ heap_ok sc v r [] s) (dtor env)
      (fun _ s' => EMutexRemove other ∈ log s') (fun _ => True).
Proof.
  intros Hv. destruct (removed_names_below v Hv) as [Hin Hnin].
  destruct (removed_names_some v ltac:(lia) _ Hin) as [nm Hnm].
  exists nm. split; [done|split; [done|]]. rewrite Hnm in Hin.
  eapply triple_conseq; [apply (dtor_defined env [] (not_elem_of_nil _) (not_elem_of_nil _)
    sc v r); lia|done| |done].
  intros [] s' [_ Hr]. by apply Hr.
Qed.

Lemma dtor_removes_neighbour_witness :
  exists other, plock_name (3 - 1) = Some other /\ plock_name 3 ∉ removed_names 3 /\
    triple (fun s => locked [] s /\ heap_ok false 3 0 [] s) (dtor ready_env)
      (fun _ s' => EMutexRemove other ∈ log s') (fun _ => True).
Proof. apply (dtor_removes_neighbour ready_env false 3 0). lia. Defined.
