(* ===== verification/Bitstreams.v ===== *)
(** The bitstream store of the scheduler, the sequential half of
    [src/sw/src/cSched.cpp]: pinned memory for partial bitstreams, loading a
    bitstream file into it, and starting the reconfiguration.  The object is
    the record [store]; calls to the driver are events, as for [CProcess]. *)

From stdpp Require Import base numbers list gmap strings.
From Stdlib Require Import ZArith Lia.
From S2P Require Import Prelude CoyoteDefs IbvStructs CProcess CProcessFacts.

Local Open Scope Z_scope.

Record store : Type := mk_store {
  st_vfid : Z;
  st_fcnfg : fCnfg;
  st_pages : gmap Z mappedVal;
  bstreams : gmap Z (Z * Z);
  (** the 32-bit words written to a buffer, by its address *)
  st_mem : gmap Z (list Z);
  (** whether the scheduler thread was started *)
  joinable : bool;
  st_log : list Event
}.

Definition store_init (vfid : Z) : store := mk_store vfid fCnfg_default ∅ ∅ ∅ false [].

Definition st_set_pages (v : gmap Z mappedVal) (s : store) : store :=
  mk_store (st_vfid s) (st_fcnfg s) v (bstreams s) (st_mem s) (joinable s) (st_log s).
Definition st_set_bstreams (v : gmap Z (Z * Z)) (s : store) : store :=
  mk_store (st_vfid s) (st_fcnfg s) (st_pages s) v (st_mem s) (joinable s) (st_log s).
Definition st_set_mem (v : gmap Z (list Z)) (s : store) : store :=
  mk_store (st_vfid s) (st_fcnfg s) (st_pages s) (bstreams s) v (joinable s) (st_log s).
Definition st_set_log (v : list Event) (s : store) : store :=
  mk_store (st_vfid s) (st_fcnfg s) (st_pages s) (bstreams s) (st_mem s) (joinable s) v.
Definition st_set_fcnfg (v : fCnfg) (s : store) : store :=
  mk_store (st_vfid s) v (st_pages s) (bstreams s) (st_mem s) (joinable s) (st_log s).

Abbreviation B := (M store).

Definition st_emit (e : Event) : B unit := modify (fun s => st_set_log (e :: st_log s) s).

Definition mLock : B unit :=
  h ← gets st_log;
  if held mlock h then undef "lock of a mutex already held" else st_emit (ELock mlock).

Definition mUnlock : B unit :=
  h ← gets st_log;
  if held mlock h then st_emit (EUnlock mlock) else undef "unlock of a mutex not held".

(** ** Bytes and words of a bitstream *)

(** One turn of the loop that fills the buffer: four calls of [readByte], most
    significant byte first. *)
Definition word_be (b0 b1 b2 b3 : Z) : Z :=
  Z.lor (Z.lor (Z.lor (Z.shiftl b0 24) (Z.shiftl b1 16)) (Z.shiftl b2 8)) b3.

(** [for (i = 0; i < len / 4; i++)]: the words of the whole groups of four. *)
Fixpoint words_be (bytes : list Z) : list Z :=
  match bytes with
  | b0 :: b1 :: b2 :: b3 :: rest => word_be b0 b1 b2 b3 :: words_be rest
  | _ => []
  end.

Section store_operations.
Variable env : Env.
(** The file system: the bytes of a file, if it can be opened. *)
Variable files : string -> option (list Z).

Definition st_ioctl (cmd : IoctlCmd) (args : list Z) : B (Z * list Z) :=
  h ← gets st_log; st_emit (EIoctl cmd args) ;; mret (env_ioctl env h cmd args).
Definition st_mmap (len offs : Z) : B Z :=
  h ← gets st_log; st_emit (EMmap len offs) ;; mret (env_mmap env h len).
Definition st_munmap (addr len : Z) : B Z :=
  h ← gets st_log; st_emit (EMunmap addr len) ;; mret (env_munmap env h addr len).

(** [getMem]: only reconfiguration memory may be asked for. *)
Definition st_getMem (cs_alloc : csAlloc) : B Z :=
  if 0 <? n_pages cs_alloc then
    match alloc cs_alloc with
    | RCNFG_2M =>
        mLock ;;
        r ← st_ioctl IOCTL_ALLOC_HOST_PR_MEM [u64 (n_pages cs_alloc); 0];
        if negb (fst r =? 0) then
          mUnlock ;; throw "ioctl_alloc_host_pr_mem mapping failed"
        else
          a ← st_mmap (u32 (u32 (n_pages cs_alloc + 1) * hugePageSize)) mmapPr;
          if a =? MAP_FAILED then
            mUnlock ;; throw "get_pr_mem mmap failed"
          else
            mUnlock ;;
            modify (fun s =>
              match st_pages s !! align_huge a with
              | Some _ => s
              | None => st_set_pages (<[align_huge a := (cs_alloc, a)]> (st_pages s)) s
              end) ;;
            mret (align_huge a)
    | _ => throw "unauthorized memory allocation"
    end
  else mret 0.

(** [freeMem], which does forget the buffer. *)
Definition st_freeMem (vaddr : Z) : B unit :=
  ps ← gets st_pages;
  match (ps !! vaddr : option mappedVal) with
  | None => skip
  | Some mapped =>
      match alloc (fst mapped) with
      | RCNFG_2M =>
          mLock ;;
          rc ← st_munmap (snd mapped) (u32 (u32 (n_pages (fst mapped) + 1) * hugePageSize));
          if negb (rc =? 0) then mUnlock ;; throw "free_pr_mem munmap failed"
          else
            r ← st_ioctl IOCTL_FREE_HOST_PR_MEM [vaddr];
            if negb (fst r =? 0) then mUnlock ;; throw "ioctl_free_host_pr_mem failed"
            else
              mUnlock ;;
              modify (fun s => st_set_pages (delete vaddr (st_pages s)) s)
      | _ => throw "unauthorized memory deallocation"
      end
  end.

(** [reconfigure(vaddr, len)] *)
Definition reconfigure_load (vaddr len : Z) : B unit :=
  c ← gets st_fcnfg;
  when (en_pr c)
    (r ← st_ioctl IOCTL_RECONFIG_LOAD [vaddr; len];
     when (negb (fst r =? 0)) (throw "ioctl_reconfig_load failed")).

(** [reconfigure(oid)]: without a bitstream, nothing. *)
Definition reconfigure_oid (oid : Z) : B unit :=
  bs ← gets bstreams;
  match bs !! oid with
  | Some (vaddr, len) => reconfigure_load vaddr len
  | None => skip
  end.

Definition addBitstream (name : string) (oid : Z) : B unit :=
  bs ← gets bstreams;
  match bs !! oid with
  | Some _ => throw "bitstream with same operation ID already present"
  | None =>
      match files name with
      | None => throw "Bitstream could not be opened"
      | Some bytes =>
          let len := u32 (Z.of_nat (length bytes)) in
          let n_pages := u32 (u32 (len + hugePageSize) - 1) / hugePageSize in
          vaddr ← st_getMem (mk_csAlloc RCNFG_2M n_pages);
          let words := words_be (take (Z.to_nat len) bytes) in
          (if decide (words = []) then skip
           else if vaddr =? 0 then undef "write through a null pointer"
           else modify (fun s => st_set_mem (<[vaddr := words]> (st_mem s)) s)) ;;
          modify (fun s => st_set_bstreams (<[oid := (vaddr, len)]> (bstreams s)) s)
      end
  end.

Definition removeBitstream (oid : Z) : B unit :=
  bs ← gets bstreams;
  match bs !! oid with
  | Some bstream =>
      st_freeMem (fst bstream) ;;
      modify (fun s => st_set_bstreams (delete oid (bstreams s)) s)
  | None => skip
  end.

Definition checkBitstream (oid : Z) : B bool :=
  bs ← gets bstreams; mret (bool_decide (is_Some (bs !! oid))).

(** The constructor; [tmp[0]] is the configuration word the driver fills in. *)
Definition st_ctor : B unit :=
  v ← gets st_vfid;
  for_each (fun n =>
      match n with
      | Some name => st_emit (EMutexOpen name)
      | None => undef "pointer past the end of a string literal"
      end) [plock_name v; mlock_name v] ;;
  h ← gets st_log;
  st_emit (EOpen v) ;;
  if env_open env h =? -1 then throw "cSched could not be obtained"
  else
    r ← st_ioctl IOCTL_READ_CNFG [0; 0];
    if negb (fst r =? 0) then throw "ioctl_read_cnfg() failed"
    else modify (st_set_fcnfg (parseCnfg (u64 (default 0 (snd r !! 0%nat))))).

(** [for (auto &it : m) body(it.first)]: when the body erases the element the
    loop stands on, the increment of the iterator has no meaning. *)
Fixpoint for_keys {A} (get : store -> gmap Z A) (body : Z -> B unit) (ks : list Z) : B unit :=
  match ks with
  | [] => skip
  | k :: ks' =>
      body k ;;
      m ← gets get;
      if decide (m !! k = None) then undef "increment of an iterator to an erased element"
      else for_keys get body ks'
  end.

(** The destructor: [run = false] and the join of a thread that may never have
    been started, which throws. *)
Definition st_dtor : B unit :=
  j ← gets joinable;
  if negb (j : bool) then throw "std::system_error"
  else
    bs ← gets bstreams;
    for_keys bstreams removeBitstream (map_to_list bs).*1 ;;
    ps ← gets st_pages;
    for_keys st_pages st_freeMem (map_to_list ps).*1 ;;
    v ← gets st_vfid;
    match mutex_name "vfpga_mtx_mem_" v with
    | Some name => st_emit (EMutexRemove name)
    | None => undef "pointer past the end of a string literal"
    end ;;
    st_emit EClose.
End store_operations.

(** ** Words and bytes *)

(** The bytes of a word, most significant first. *)
Definition word_bytes (w : Z) : list Z := [bits w 24 8; bits w 16 8; bits w 8 8; bits w 0 8].

Lemma word_bytes_be (b0 b1 b2 b3 : Z) :
  fits 8 b0 -> fits 8 b1 -> fits 8 b2 -> fits 8 b3 ->
  word_bytes (word_be b0 b1 b2 b3) = [b0; b1; b2; b3].
Proof.
  intros H0 H1 H2 H3. unfold word_bytes, word_be. rewrite <- (Z.shiftl_0_r b3).
  repeat f_equal; solve_bits; by rewrite ?Z.shiftl_0_r, wrap_small.
Qed.

Lemma words_be_bytes (bytes : list Z) :
  Forall (fits 8) bytes ->
  concat (word_bytes <$> words_be bytes) = take (4 * (length bytes / 4)) bytes.
Proof.
  remember (length bytes) as n eqn:Hn. revert bytes Hn.
  induction (lt_wf n) as [n _ IH]; intros bytes Hn Hb.
  destruct bytes as [|b0 [|b1 [|b2 [|b3 rest]]]]; try (by subst n).
  apply Forall_cons in Hb as [H0 Hb]. apply Forall_cons in Hb as [H1 Hb].
  apply Forall_cons in Hb as [H2 Hb]. apply Forall_cons in Hb as [H3 Hb].
  change (length (b0 :: b1 :: b2 :: b3 :: rest)) with (4 + length rest)%nat in Hn.
  cbn [words_be fmap list_fmap concat]. rewrite word_bytes_be by done.
  rewrite (IH (length rest)) by (lia || done).
  replace (n / 4)%nat with (S (length rest / 4)).
  - by replace (4 * S (length rest / 4))%nat with (S (S (S (S (4 * (length rest / 4)))))) by lia.
  - rewrite Hn. replace (4 + length rest)%nat with (1 * 4 + length rest)%nat by lia.
    by rewrite Nat.div_add_l by lia.
Qed.

Lemma words_be_nil (bytes : list Z) : words_be bytes = [] -> (length bytes < 4)%nat.
Proof. destruct bytes as [|? [|? [|? [|? ?]]]]; cbn; try lia; done. Qed.

(** ** Memory *)

Definition store_ok (s : store) : Prop :=
  held mlock (st_log s) = false /\ map_Forall (fun _ m => alloc (fst m) = RCNFG_2M) (st_pages s).

Definition pages_for (len : Z) : Z := (len + hugePageSize - 1) / hugePageSize.

(** The state after [getMem] has pinned [n] pages whose mapping starts at [base]. *)
Definition pinned (n base : Z) (s : store) : store :=
  let s1 := st_set_log (EUnlock mlock :: EMmap ((n + 1) * hugePageSize) mmapPr ::
    EIoctl IOCTL_ALLOC_HOST_PR_MEM [u64 n; 0] :: ELock mlock :: st_log s) s in
  match st_pages s !! align_huge base with
  | Some _ => s1
  | None => st_set_pages (<[align_huge base := (mk_csAlloc RCNFG_2M n, base)]> (st_pages s)) s1
  end.

Definition mapping (env : Env) (n : Z) (s : store) : Z :=
  env_mmap env (EIoctl IOCTL_ALLOC_HOST_PR_MEM [u64 n; 0] :: ELock mlock :: st_log s)
    ((n + 1) * hugePageSize).

Lemma run_mLock (s : store) :
  held mlock (st_log s) = false -> mLock s = (Ret tt, st_set_log (ELock mlock :: st_log s) s).
Proof. intros H. unfold mLock, mbind, M_bind, gets. by rewrite H. Qed.

Lemma run_mUnlock (s : store) :
  held mlock (st_log s) = true -> mUnlock s = (Ret tt, st_set_log (EUnlock mlock :: st_log s) s).
Proof. intros H. unfold mUnlock, mbind, M_bind, gets. by rewrite H. Qed.

Lemma run_getMem (env : Env) (n : Z) (s : store) :
  driver_ok env -> held mlock (st_log s) = false -> 0 < n <= 2046 ->
  mapping env n s <> MAP_FAILED ->
  st_getMem env (mk_csAlloc RCNFG_2M n) s =
    (Ret (align_huge (mapping env n s)), pinned n (mapping env n s) s).
Proof.
  intros [Hio _] Hl Hn Hm.
  assert (u32 (u32 (n + 1) * hugePageSize) = (n + 1) * hugePageSize) as Hsize.
  { rewrite hugePageSize_pow in *. by rewrite (wrap_small 32 (n + 1)), wrap_small by (unfold fits; lia). }
  unfold st_getMem. cbn [n_pages alloc]. replace (0 <? n) with true by lia.
  unfold mbind, M_bind. rewrite run_mLock by done.
  unfold st_ioctl, mbind, M_bind, gets. cbn [st_emit modify mret M_ret st_log st_set_log].
  rewrite Hio. cbn [Z.eqb negb]. unfold st_mmap, mbind, M_bind, gets.
  cbn [st_emit modify mret M_ret st_log st_set_log]. rewrite Hsize. fold (mapping env n s).
  apply Z.eqb_neq in Hm as ->.
  rewrite run_mUnlock by (cbn; by rewrite decide_True).
  cbn [st_set_log modify mret M_ret st_log st_pages]. unfold pinned.
  cbn [st_set_log st_log st_pages]. by destruct (st_pages s !! _).
Qed.

Lemma pages_for_spec (len : Z) :
  0 < len <= 2 ^ 31 ->
  u32 (u32 (u32 len + hugePageSize) - 1) / hugePageSize = pages_for len /\
  0 < pages_for len <= 1024 /\ len <= pages_for len * hugePageSize.
Proof.
  intros Hlen. unfold pages_for. rewrite hugePageSize_pow.
  rewrite (wrap_small 32 len) by (unfold fits; lia).
  rewrite (wrap_small 32 (len + _)), (wrap_small 32 (_ - 1)) by (unfold fits; lia).
  split; [done|].
  pose proof (Z.div_mod (len + 2 ^ 21 - 1) (2 ^ 21) ltac:(lia)) as Hd.
  pose proof (Z.mod_pos_bound (len + 2 ^ 21 - 1) (2 ^ 21) ltac:(lia)).
  set (q := (len + 2 ^ 21 - 1) / 2 ^ 21) in *. lia.
Qed.

(** loading a bitstream file puts its bytes, in order and most significant
    first within each 32-bit word, into pinned memory that holds them, records
    it under the operator number with the length of the file, and a
    reconfiguration for that operator hands exactly this buffer to the driver.
    When the length is not a multiple of four the last bytes of the file are
    not written. *)
Theorem addBitstream_loads (env : Env) (files : string -> option (list Z)) (name : string)
    (oid : Z) (bytes : list Z) (s : store) :
  driver_ok env -> held mlock (st_log s) = false -> bstreams s !! oid = None ->
  files name = Some bytes -> Forall (fits 8) bytes ->
  let len := Z.of_nat (length bytes) in
  4 <= len <= 2 ^ 31 ->
  let n := pages_for len in
  let base := mapping env n s in
  0 < base -> base + (n + 1) * hugePageSize <= 2 ^ 64 ->
  exists vaddr ws s',
    addBitstream env files name oid s = (Ret tt, s') /\
    bstreams s' = <[oid := (vaddr, len)]> (bstreams s) /\
    base <= vaddr /\ vaddr + len <= base + (n + 1) * hugePageSize /\
    st_mem s' !! vaddr = Some ws /\
    concat (word_bytes <$> ws) = take (4 * (length bytes / 4)) bytes /\
    held mlock (st_log s') = false /\
    (en_pr (st_fcnfg s) = true ->
     reconfigure_oid env oid s' =
       (Ret tt, st_set_log (EIoctl IOCTL_RECONFIG_LOAD [vaddr; len] :: st_log s') s')).
Proof.
  intros Hok Hl Hoid Hf Hb len Hlen n base Hbase Htop.
  destruct (pages_for_spec len ltac:(lia)) as (Hn & Hnb & Hcap). fold n in Hnb, Hcap.
  assert (u32 len = len) as Hu by (apply wrap_small; unfold fits; lia).
  destruct (align_huge_spec base) as [_ Hal]; [lia|rewrite hugePageSize_pow in *; lia|].
  exists (align_huge base), (words_be bytes).
  unfold addBitstream, mbind, M_bind, gets. rewrite Hoid, Hf. fold len.
  rewrite Hn. fold n. rewrite run_getMem by (done || (fold base; unfold MAP_FAILED; lia) || lia).
  fold base. rewrite Hu, take_ge by lia.
  rewrite decide_False by (intros ?%words_be_nil; lia).
  replace (align_huge base =? 0) with false by lia.
  cbn [modify]. eexists. split; [reflexivity|].
  assert (forall p : store, p = pinned n base s -> bstreams p = bstreams s /\ st_fcnfg p = st_fcnfg s /\
    held mlock (st_log p) = false) as Hpin.
  { intros p ->. unfold pinned. destruct (st_pages s !! _); cbn; by rewrite decide_True. }
  destruct (Hpin _ eq_refl) as (H1 & H2 & H3).
  cbn [bstreams st_set_bstreams st_set_mem st_mem st_log]. rewrite H1.
  split; [done|]. split; [lia|]. split; [lia|]. split; [by rewrite lookup_insert_eq|].
  split; [by apply words_be_bytes|]. split; [done|].
  intros Hpr. unfold reconfigure_oid, mbind, M_bind, gets.
  cbn [bstreams st_set_bstreams]. rewrite lookup_insert_eq.
  unfold reconfigure_load, mbind, M_bind, gets. cbn [st_fcnfg st_set_bstreams st_set_mem].
  rewrite H2, Hpr. cbn [when]. unfold st_ioctl, mbind, M_bind, gets, st_emit, modify, mret, M_ret.
  by rewrite (ok_ioctl env Hok).
Qed.

Definition demo_store : store :=
  mk_store 1 (parseCnfg 0x40) ∅ ∅ ∅ true [].
Definition demo_files (name : string) : option (list Z) :=
  if decide (name = "op.bin") then Some [0xaa; 0x99; 0x55; 0x66; 1; 2] else None.

Lemma addBitstream_loads_witness :
  exists vaddr ws s',
    addBitstream ready_env demo_files "op.bin" 3 demo_store = (Ret tt, s') /\
    bstreams s' = <[3 := (vaddr, 6)]> ∅ /\
    mapping ready_env 1 demo_store <= vaddr /\
    vaddr + 6 <= mapping ready_env 1 demo_store + (1 + 1) * hugePageSize /\
    st_mem s' !! vaddr = Some ws /\
    concat (word_bytes <$> ws) = [0xaa; 0x99; 0x55; 0x66] /\
    held mlock (st_log s') = false /\
    (en_pr (st_fcnfg demo_store) = true ->
     reconfigure_oid ready_env 3 s' =
       (Ret tt, st_set_log (EIoctl IOCTL_RECONFIG_LOAD [vaddr; 6] :: st_log s') s')).
Proof.
  apply (addBitstream_loads ready_env demo_files "op.bin" 3 [0xaa; 0x99; 0x55; 0x66; 1; 2] demo_store).
  - split; reflexivity.
  - reflexivity.
  - reflexivity.
  - reflexivity.
  - repeat constructor; discriminate.
  - vm_compute. split; discriminate.
  - vm_compute. reflexivity.
  - vm_compute. discriminate.
Defined.

(** a second bitstream for an operator and a file that cannot be opened are
    refused without any effect; a refusal of the driver is reported with the
    store unchanged and the memory lock released. *)
Theorem addBitstream_refused (env : Env) (files : string -> option (list Z)) (name : string)
    (oid : Z) (s : store) :
  (forall b, bstreams s !! oid = Some b ->
    addBitstream env files name oid s =
      (Throw "bitstream with same operation ID already present", s)) /\
  (bstreams s !! oid = None -> files name = None ->
    addBitstream env files name oid s = (Throw "Bitstream could not be opened", s)) /\
  (forall bytes, bstreams s !! oid = None -> files name = Some bytes ->
    0 < Z.of_nat (length bytes) <= 2 ^ 31 -> held mlock (st_log s) = false ->
    (forall h args, fst (env_ioctl env h IOCTL_ALLOC_HOST_PR_MEM args) <> 0) ->
    exists s', addBitstream env files name oid s =
        (Throw "ioctl_alloc_host_pr_mem mapping failed", s') /\
      bstreams s' = bstreams s /\ st_pages s' = st_pages s /\ st_mem s' = st_mem s /\
      held mlock (st_log s') = false).
Proof.
  split; [|split].
  - intros b Hb. unfold addBitstream, mbind, M_bind, gets. by rewrite Hb.
  - intros Hb Hf. unfold addBitstream, mbind, M_bind, gets. by rewrite Hb, Hf.
  - intros bytes Hb Hf Hlen Hl Hio.
    destruct (pages_for_spec _ Hlen) as (Hn & Hnb & _).
    unfold addBitstream, mbind, M_bind, gets. rewrite Hb, Hf, Hn.
    unfold st_getMem. cbn [n_pages alloc]. replace (0 <? pages_for _) with true by lia.
    unfold mbind, M_bind. rewrite run_mLock by done.
    unfold st_ioctl, mbind, M_bind, gets. cbn [st_emit modify mret M_ret st_log st_set_log].
    pose proof (Hio (ELock mlock :: st_log s) [u64 (pages_for (Z.of_nat (length bytes))); 0]) as H.
    apply Z.eqb_neq in H. rewrite H. cbn [negb].
    rewrite run_mUnlock by (cbn; by rewrite decide_True).
    eexists. split; [reflexivity|]. cbn. by rewrite decide_True.
Qed.

Lemma addBitstream_refused_witness :
  (forall b, bstreams demo_store !! 3 = Some b ->
    addBitstream ready_env demo_files "none" 3 demo_store =
      (Throw "bitstream with same operation ID already present", demo_store)) /\
  (bstreams demo_store !! 3 = None -> demo_files "none" = None ->
    addBitstream ready_env demo_files "none" 3 demo_store =
      (Throw "Bitstream could not be opened", demo_store)) /\
  (forall bytes, bstreams demo_store !! 3 = None -> demo_files "none" = Some bytes ->
    0 < Z.of_nat (length bytes) <= 2 ^ 31 -> held mlock (st_log demo_store) = false ->
    (forall h args, fst (env_ioctl ready_env h IOCTL_ALLOC_HOST_PR_MEM args) <> 0) ->
    exists s', addBitstream ready_env demo_files "none" 3 demo_store =
        (Throw "ioctl_alloc_host_pr_mem mapping failed", s') /\
      bstreams s' = bstreams demo_store /\ st_pages s' = st_pages demo_store /\
      st_mem s' = st_mem demo_store /\ held mlock (st_log s') = false).
Proof. apply (addBitstream_refused ready_env demo_files "none" 3 demo_store). Defined.

(** Freeing a recorded buffer forgets it. *)
Lemma run_freeMem (env : Env) (a : Z) (m : mappedVal) (s : store) :
  driver_ok env -> held mlock (st_log s) = false ->
  st_pages s !! a = Some m -> alloc (fst m) = RCNFG_2M ->
  exists h, st_freeMem env a s = (Ret tt, st_set_pages (delete a (st_pages s)) (st_set_log h s)) /\
    held mlock h = false.
Proof.
  intros [Hio Hmu] Hl Ha Hr. unfold st_freeMem, mbind, M_bind, gets. cbv beta iota. rewrite Ha, Hr.
  rewrite run_mLock by done. unfold st_munmap, st_ioctl, mbind, M_bind, gets.
  cbn [st_emit modify mret M_ret st_log st_set_log]. rewrite Hmu. cbn [Z.eqb negb].
  rewrite Hio. cbn [Z.eqb negb]. rewrite run_mUnlock by (cbn; by rewrite decide_True).
  eexists. split; [reflexivity|]. cbn. by rewrite decide_True.
Qed.

Lemma run_removeBitstream (env : Env) (oid : Z) (b : Z * Z) (s : store) :
  driver_ok env -> store_ok s -> bstreams s !! oid = Some b ->
  exists s', removeBitstream env oid s = (Ret tt, s') /\ bstreams s' = delete oid (bstreams s) /\
    st_pages s' = delete (fst b) (st_pages s) /\ held mlock (st_log s') = false.
Proof.
  intros Hok [Hl Hp] Hb. unfold removeBitstream, mbind, M_bind, gets. rewrite Hb.
  destruct (st_pages s !! fst b) as [m|] eqn:Hm.
  - destruct (run_freeMem env (fst b) m s Hok Hl Hm (Hp _ _ Hm)) as (h & -> & Hh).
    eexists. split; [reflexivity|]. by cbn.
  - unfold st_freeMem, mbind, M_bind, gets. cbv beta iota. rewrite Hm.
    eexists. split; [reflexivity|]. cbn. split; [done|]. split; [|done]. by rewrite delete_id.
Qed.

(** removing a bitstream undoes adding it: the table and the pinned memory
    are those of before, so the operator can be registered again. *)
Theorem add_remove_roundtrip (env : Env) (files : string -> option (list Z)) (name : string)
    (oid : Z) (bytes : list Z) (s : store) :
  driver_ok env -> store_ok s -> bstreams s !! oid = None -> files name = Some bytes ->
  let len := Z.of_nat (length bytes) in
  0 < len <= 2 ^ 31 ->
  let base := mapping env (pages_for len) s in
  0 < base -> base + (pages_for len + 1) * hugePageSize <= 2 ^ 64 ->
  st_pages s !! align_huge base = None ->
  exists s', (addBitstream env files name oid ;; removeBitstream env oid) s = (Ret tt, s') /\
    bstreams s' = bstreams s /\ st_pages s' = st_pages s /\ store_ok s'.
Proof.
  intros Hok [Hl Hp] Hoid Hf len Hlen base Hbase Htop Hfresh.
  destruct (pages_for_spec len Hlen) as (Hn & Hnb & Hcap).
  assert (u32 len = len) as Hu by (apply wrap_small; unfold fits; lia).
  destruct (align_huge_spec base) as [_ Hal]; [lia|rewrite hugePageSize_pow in *; lia|].
  assert (exists s1, addBitstream env files name oid s = (Ret tt, s1) /\
    bstreams s1 = <[oid := (align_huge base, len)]> (bstreams s) /\
    st_pages s1 = <[align_huge base := (mk_csAlloc RCNFG_2M (pages_for len), base)]> (st_pages s) /\
    held mlock (st_log s1) = false) as (s1 & Hadd & Hb1 & Hp1 & Hl1).
  { unfold addBitstream, mbind, M_bind, gets. rewrite Hoid, Hf. fold len. rewrite Hn.
    rewrite run_getMem by (done || (fold base; unfold MAP_FAILED; lia) || lia).
    fold base. rewrite Hu. unfold pinned. rewrite Hfresh.
    replace (align_huge base =? 0) with false by lia.
    destruct (decide _); cbn; eexists; (split; [reflexivity|]); cbn; by rewrite decide_True. }
  destruct (run_removeBitstream env oid (align_huge base, len) s1 Hok) as (s' & Hrem & Hb' & Hp' & Hl').
  - split; [done|]. rewrite Hp1. by apply map_Forall_insert_2.
  - by rewrite Hb1, lookup_insert_eq.
  - exists s'. unfold mbind, M_bind. rewrite Hadd. split; [exact Hrem|].
    cbn [fst] in Hp'. rewrite Hb1, delete_insert_id in Hb' by done.
    rewrite Hp1, delete_insert_id in Hp' by done.
    split; [done|]. split; [done|]. split; [done|]. by rewrite Hp'.
Qed.

Lemma add_remove_roundtrip_witness :
  exists s', (addBitstream ready_env demo_files "op.bin" 3 ;; removeBitstream ready_env 3) demo_store =
      (Ret tt, s') /\ bstreams s' = ∅ /\ st_pages s' = ∅ /\ store_ok s'.
Proof.
  apply (add_remove_roundtrip ready_env demo_files "op.bin" 3 [0xaa; 0x99; 0x55; 0x66; 1; 2] demo_store).
  - split; reflexivity.
  - split; [reflexivity|apply map_Forall_empty].
  - reflexivity.
  - reflexivity.
  - vm_compute. split; [reflexivity|discriminate].
  - vm_compute. reflexivity.
  - vm_compute. discriminate.
  - reflexivity.
Defined.

(** the destructor erases from the table it iterates over, so destroying a
    scheduler that still has a bitstream is undefined; and one whose thread was
    never started throws. *)
Theorem dtor_with_bitstreams (env : Env) (s : store) :
  driver_ok env -> store_ok s ->
  (joinable s = true -> bstreams s <> ∅ ->
    fst (st_dtor env s) = Undef "increment of an iterator to an erased element") /\
  (joinable s = false -> fst (st_dtor env s) = Throw "std::system_error").
Proof.
  intros Hok Hs. split; intros Hj; unfold st_dtor, mbind, M_bind, gets; rewrite Hj; cbn [negb].
  - intros Hb. destruct (map_to_list (bstreams s)) as [|[oid b] l] eqn:Hl.
    { apply map_to_list_empty_iff in Hl. done. }
    assert (bstreams s !! oid = Some b) as Hlk
      by (apply elem_of_map_to_list; rewrite Hl; by left).
    destruct (run_removeBitstream env oid b s Hok Hs Hlk) as (s' & Hrem & Hb' & _).
    cbn [fmap list_fmap fst for_keys]. unfold mbind, M_bind, gets. rewrite Hrem.
    rewrite decide_True; [done|]. by rewrite Hb', lookup_delete_eq.
  - done.
Qed.

Lemma dtor_with_bitstreams_witness :
  let s := st_set_bstreams {[3 := (0x200000, 8)]} demo_store in
  (joinable s = true -> bstreams s <> ∅ ->
    fst (st_dtor ready_env s) = Undef "increment of an iterator to an erased element") /\
  (joinable s = false -> fst (st_dtor ready_env s) = Throw "std::system_error").
Proof.
  apply (dtor_with_bitstreams ready_env (st_set_bstreams {[3 := (0x200000, 8)]} demo_store)).
  - split; reflexivity.
  - split; [reflexivity|apply map_Forall_empty].
Defined.
