(* ===== verification/CSched.v ===== *)
(** The vFPGA scheduler, [src/sw/include/cSched.hpp] and
    [src/sw/src/cSched.cpp]: the queue of load requests, the thread that serves
    them and the client side ([pLock], [pUnlock]), as an interleaving of the
    sections the code runs under its mutexes; and the bitstream store.

    [sched] is the scheduler object together with the threads that call it.
    [exec] runs one atomic section, chosen by a [label]; a run of the program
    is a list of labels.  The clock is a label too: [LTimeout] is the expiry of
    [cmplTimeout]. *)

From stdpp Require Import base numbers list gmap strings.
From Stdlib Require Import ZArith Lia.
From S2P Require Import Prelude CoyoteDefs.

Local Open Scope Z_scope.

(** ** The request queue *)
Record cLoad : Type := mk_cLoad { l_cpid : Z; l_oid : Z; l_priority : Z }.

#[export] Instance cLoad_eq_dec : EqDecision cLoad.
Proof. solve_decision. Defined.

(** [taskCmprSched::operator()]: the first request is served after the second. *)
Definition taskCmprSched (priority reorder : bool) (req1 req2 : cLoad) : bool :=
  if priority && (l_priority req1 <? l_priority req2) then true
  else if reorder && (l_priority req1 =? l_priority req2) && (l_oid req2 <? l_oid req1) then true
  else false.

(** [top] of the [priority_queue]: an element no other one comes before; which
    one of several is not specified. *)
Definition is_top (priority reorder : bool) (q : list cLoad) (r : cLoad) : bool :=
  forallb (fun x => negb (taskCmprSched priority reorder r x)) q.

(** ** The scheduler and its clients *)

(** Where [processRequests] is: at the loop test, past it, with a request
    popped, with the vFPGA locked, with the operator loaded, waiting for
    completion; it left the loop; an exception ended the program. *)
Inductive spc : Type :=
| SLoop
| SEnter
| SPopped (r : cLoad)
| SOwned (r : cLoad)
| SLoaded (r : cLoad)
| SWaiting (r : cLoad)
| SExited
| SAborted.

(** A client thread inside [pLock] or between [pLock] and [pUnlock]. *)
Inductive client : Type := CWait (oid priority : Z) | CRun (oid priority : Z).

(** Who holds the inter-process mutex of the vFPGA. *)
Inductive owner : Type := ONone | OSched | OOther.

#[export] Instance owner_eq_dec : EqDecision owner.
Proof. solve_decision. Defined.
#[export] Instance client_eq_dec : EqDecision client.
Proof. solve_decision. Defined.
#[export] Instance spc_eq_dec : EqDecision spc.
Proof. solve_decision. Defined.

Record sched : Type := mk_sched {
  pc : spc;
  run : bool;
  queue : list cLoad;
  curr_oid : Z;
  curr_cpid : Z;
  curr_run : bool;
  plock : owner;
  clients : gmap nat client;
  bitstreams : gset Z;
  (** the operator the last successful [IOCTL_RECONFIG_LOAD] put on the vFPGA *)
  loaded : option Z
}.

(** After [run_sched]. *)
Definition sched_init (bs : gset Z) : sched :=
  mk_sched SLoop true [] (-1) (-1) false ONone ∅ bs None.

Definition set_pc (p : spc) (s : sched) : sched :=
  mk_sched p (run s) (queue s) (curr_oid s) (curr_cpid s) (curr_run s) (plock s) (clients s)
    (bitstreams s) (loaded s).
Definition set_run (b : bool) (s : sched) : sched :=
  mk_sched (pc s) b (queue s) (curr_oid s) (curr_cpid s) (curr_run s) (plock s) (clients s)
    (bitstreams s) (loaded s).
Definition set_queue (q : list cLoad) (s : sched) : sched :=
  mk_sched (pc s) (run s) q (curr_oid s) (curr_cpid s) (curr_run s) (plock s) (clients s)
    (bitstreams s) (loaded s).
Definition set_oper (oid : Z) (l : option Z) (s : sched) : sched :=
  mk_sched (pc s) (run s) (queue s) oid (curr_cpid s) (curr_run s) (plock s) (clients s)
    (bitstreams s) l.
Definition set_curr (c : Z) (b : bool) (s : sched) : sched :=
  mk_sched (pc s) (run s) (queue s) (curr_oid s) c b (plock s) (clients s)
    (bitstreams s) (loaded s).
Definition set_plock (o : owner) (s : sched) : sched :=
  mk_sched (pc s) (run s) (queue s) (curr_oid s) (curr_cpid s) (curr_run s) o (clients s)
    (bitstreams s) (loaded s).
Definition set_clients (c : gmap nat client) (s : sched) : sched :=
  mk_sched (pc s) (run s) (queue s) (curr_oid s) (curr_cpid s) (curr_run s) (plock s) c
    (bitstreams s) (loaded s).
Definition set_bitstreams (b : gset Z) (s : sched) : sched :=
  mk_sched (pc s) (run s) (queue s) (curr_oid s) (curr_cpid s) (curr_run s) (plock s) (clients s)
    b (loaded s).

(** The atomic sections. *)
Inductive label : Type :=
| LSubmit (t : nat) (oid priority : Z)  (* pLock, first half: enqueue *)
| LWake (t : nat)                       (* pLock, second half: cv_rcnfg *)
| LFinish (t : nat)                     (* pUnlock *)
| LTest                                 (* the while condition *)
| LPop (i : nat)                        (* top and pop *)
| LRetry                                (* empty queue: unlock, sleep *)
| LAcquire                              (* plock.lock() *)
| LReconfigure (ok : bool)              (* the reconfiguration, with the ioctl's result *)
| LNotify                               (* curr_cpid, curr_run, notify_all *)
| LCompleted                            (* wait_for returned true *)
| LTimeout                              (* wait_for returned false *)
| LStop                                 (* the destructor's run = false *)
| LExtern (lock : bool)                 (* another process takes or releases the vFPGA *)
| LAdd (oid : Z)                        (* addBitstream *)
| LRemove (oid : Z).                    (* removeBitstream *)

Section scheduler.
(** [priority] and [reorder] of the constructor, [fcnfg.en_pr], and the Coyote
    process number each client thread passes to [pLock]. *)
Variables (priority reorder en_pr : bool) (cpid_of : nat -> Z).

Definition request (t : nat) (oid prio : Z) : cLoad := mk_cLoad (cpid_of t) oid prio.

(** [reconfigure(oid)]: what ends up on the vFPGA, [None] if the ioctl failed. *)
Definition reconfigure (oid : Z) (ok : bool) (s : sched) : option (option Z) :=
  if decide (oid ∈ bitstreams s) then
    if en_pr then (if ok then Some (Some oid) else None) else Some (loaded s)
  else Some (loaded s).

(** The body of the loop, by sections. *)
Definition sched_step (l : label) (s : sched) : option sched :=
  match l, pc s with
  | LTest, SLoop =>
      if run s || negb (bool_decide (queue s = [])) then Some (set_pc SEnter s)
      else Some (set_pc SExited s)
  | LRetry, SEnter => if decide (queue s = []) then Some (set_pc SLoop s) else None
  | LPop i, SEnter =>
      match queue s !! i with
      | Some r =>
          if is_top priority reorder (queue s) r then
            Some (set_pc (SPopped r) (set_queue (delete i (queue s)) s))
          else None
      | None => None
      end
  | LAcquire, SPopped r =>
      if decide (plock s = ONone) then Some (set_pc (SOwned r) (set_plock OSched s)) else None
  | LReconfigure ok, SOwned r =>
      if en_pr then
        if curr_oid s =? l_oid r then Some (set_pc (SLoaded r) s)
        else
          match reconfigure (l_oid r) ok s with
          | Some l => Some (set_pc (SLoaded r) (set_oper (l_oid r) l s))
          | None => Some (set_pc SAborted s)
          end
      else Some (set_pc (SLoaded r) s)
  | LNotify, SLoaded r => Some (set_pc (SWaiting r) (set_curr (l_cpid r) true s))
  | LCompleted, SWaiting r =>
      if curr_run s then None else Some (set_pc SLoop (set_plock ONone s))
  | LTimeout, SWaiting r =>
      if curr_run s then Some (set_pc SLoop (set_plock ONone s)) else None
  | _, _ => None
  end.

Definition client_step (l : label) (s : sched) : option sched :=
  match l with
  | LSubmit t oid prio =>
      match clients s !! t with
      | None =>
          Some (set_clients (<[t := CWait oid prio]> (clients s))
                  (set_queue (queue s ++ [request t oid prio]) s))
      | Some _ => None
      end
  | LWake t =>
      match clients s !! t with
      | Some (CWait oid prio) =>
          if curr_run s && (curr_cpid s =? cpid_of t) then
            Some (set_clients (<[t := CRun oid prio]> (clients s)) s)
          else None
      | _ => None
      end
  | LFinish t =>
      match clients s !! t with
      | Some (CRun oid prio) =>
          let s' := set_clients (delete t (clients s)) s in
          Some (if curr_cpid s =? cpid_of t then set_curr (curr_cpid s) false s' else s')
      | _ => None
      end
  | _ => None
  end.

Definition env_step (l : label) (s : sched) : option sched :=
  match l with
  | LStop => Some (set_run false s)
  | LExtern true => if decide (plock s = ONone) then Some (set_plock OOther s) else None
  | LExtern false => if decide (plock s = OOther) then Some (set_plock ONone s) else None
  | LAdd oid =>
      if decide (oid ∈ bitstreams s) then None else Some (set_bitstreams ({[oid]} ∪ bitstreams s) s)
  | LRemove oid => Some (set_bitstreams (bitstreams s ∖ {[oid]}) s)
  | _ => None
  end.

Definition exec (l : label) (s : sched) : option sched :=
  if decide (pc s = SAborted) then None
  else
    match l with
    | LSubmit _ _ _ | LWake _ | LFinish _ => client_step l s
    | LStop | LExtern _ | LAdd _ | LRemove _ => env_step l s
    | _ => sched_step l s
    end.

Fixpoint execs (ls : list label) (s : sched) : option sched :=
  match ls with
  | [] => Some s
  | l :: ls' => s' ← exec l s; execs ls' s'
  end.
End scheduler.
