(* ===== verification/CSchedFacts.v ===== *)
(** What the definitions of [CSched] guarantee: the order in which requests are
    served, exclusive use of the vFPGA with the right operator loaded, every
    request is served, and the ways these can be lost: a task that outlives
    its timeout, two threads under one Coyote process number, a bitstream
    registered after its first use. *)

From stdpp Require Import base numbers list gmap strings.
From Stdlib Require Import ZArith Lia.
From S2P Require Import Prelude CoyoteDefs CSched.

Local Open Scope Z_scope.

(** ** The order of the queue *)

Lemma cmpr_spec (p o : bool) (a b : cLoad) :
  taskCmprSched p o a b = true <->
  (p = true /\ l_priority a < l_priority b) \/
  (o = true /\ l_priority a = l_priority b /\ l_oid b < l_oid a).
Proof.
  unfold taskCmprSched.
  destruct p, o, (Z.ltb_spec (l_priority a) (l_priority b)),
    (Z.eqb_spec (l_priority a) (l_priority b)), (Z.ltb_spec (l_oid b) (l_oid a)); cbn [andb].
  all: intuition (congruence || lia).
Qed.

Lemma cmpr_irrefl (p o : bool) (a : cLoad) : taskCmprSched p o a a = false.
Proof. apply not_true_iff_false. rewrite cmpr_spec. lia. Qed.

Lemma cmpr_trans (p o : bool) (a b c : cLoad) :
  taskCmprSched p o a b = true -> taskCmprSched p o b c = true -> taskCmprSched p o a c = true.
Proof. intros H1%cmpr_spec H2%cmpr_spec. apply cmpr_spec. destruct p, o; intuition lia. Qed.

(** Two requests neither of which comes before the other. *)
Definition tied (p o : bool) (a b : cLoad) : Prop :=
  taskCmprSched p o a b = false /\ taskCmprSched p o b a = false.

Lemma cmpr_false (p o : bool) (a b : cLoad) :
  taskCmprSched p o a b = false <->
  (p = true -> l_priority b <= l_priority a) /\
  (o = true -> l_priority a = l_priority b -> l_oid a <= l_oid b).
Proof.
  rewrite <- not_true_iff_false. setoid_rewrite cmpr_spec. destruct p, o; intuition lia.
Qed.

(** the comparator is a strict weak ordering, as [priority_queue] requires,
    exactly when priorities are taken into account or requests are not
    reordered; with [priority = false] and [reorder = true] being tied is not
    transitive and the queue has no defined order. *)
Theorem cmpr_strict_weak (p o : bool) :
  (p = true \/ o = false) <->
  (forall a b c, tied p o a b -> tied p o b c -> tied p o a c).
Proof.
  split.
  - intros Hpo a b c [H1%cmpr_false H2%cmpr_false] [H3%cmpr_false H4%cmpr_false].
    split; apply cmpr_false; destruct p, o, Hpo as [|]; try done; intuition lia.
  - intros H. destruct p; [by left|]. destruct o; [|by right]. exfalso.
    specialize (H (mk_cLoad 0 2 0) (mk_cLoad 0 0 1) (mk_cLoad 0 1 0)).
    vm_compute in H. destruct H; try split; auto; discriminate.
Qed.

Lemma is_top_spec (p o : bool) (q : list cLoad) (r : cLoad) :
  is_top p o q r = true <-> forall x, x ∈ q -> taskCmprSched p o r x = false.
Proof.
  unfold is_top. rewrite forallb_forall. split.
  - intros H x Hx. apply negb_true_iff, H. by apply list_elem_of_In.
  - intros H x Hx. apply negb_true_iff, H. by apply list_elem_of_In.
Qed.

(** A nonempty queue has a top. *)
Lemma top_exists (p o : bool) (q : list cLoad) :
  q <> [] -> exists i r, q !! i = Some r /\ is_top p o q r = true.
Proof.
  intros Hq. cut (exists r, r ∈ q /\ is_top p o q r = true).
  { intros (r & Hr & Ht). apply list_elem_of_lookup in Hr as [i Hi]. eauto. }
  induction q as [|a q IH]; [done|]. destruct (decide (q = [])) as [->|Hne].
  - exists a. split; [by left|]. apply is_top_spec. intros x ->%list_elem_of_singleton.
    apply cmpr_irrefl.
  - destruct (IH Hne) as (r & Hr & Ht). rewrite is_top_spec in Ht.
    destruct (taskCmprSched p o r a) eqn:Hra.
    + exists a. split; [by left|]. apply is_top_spec. intros x [->|Hx]%elem_of_cons.
      * apply cmpr_irrefl.
      * apply not_true_iff_false. intros Hax. specialize (Ht x Hx).
        by rewrite (cmpr_trans p o r a x Hra Hax) in Ht.
    + exists r. split; [by right|]. apply is_top_spec. intros x [->|Hx]%elem_of_cons; auto.
Qed.

(** with the default settings the request taken from the queue has the
    highest priority of all that wait, and among those of this priority the
    lowest operator number; nothing else leaves the queue. *)
Theorem pop_most_urgent (en_pr : bool) (cpid_of : nat -> Z) (i : nat) (s s' : sched) :
  exec true true en_pr cpid_of (LPop i) s = Some s' ->
  exists r, pc s' = SPopped r /\ queue s ≡ₚ r :: queue s' /\
    forall x, x ∈ queue s -> l_priority x <= l_priority r /\
      (l_priority x = l_priority r -> l_oid r <= l_oid x).
Proof.
  unfold exec. case_decide; [done|]. cbn [sched_step].
  destruct (pc s); try done. destruct (queue s !! i) as [r|] eqn:Hi; [|done].
  destruct (is_top _ _ _ _) eqn:Ht; intros [= <-]. exists r. cbn [pc set_pc queue set_queue].
  split; [done|]. split; [by apply delete_Permutation|]. intros x Hx.
  rewrite is_top_spec in Ht. specialize (Ht x Hx). apply cmpr_false in Ht as [H1 H2].
  specialize (H1 eq_refl). split; [done|]. intros Hp. apply H2; auto.
Qed.

Lemma pop_most_urgent_witness :
  exists r, SPopped (mk_cLoad 2 5 7) = SPopped r /\
    [mk_cLoad 0 1 3; mk_cLoad 1 6 7; mk_cLoad 2 5 7] ≡ₚ r :: [mk_cLoad 0 1 3; mk_cLoad 1 6 7] /\
    forall x, x ∈ [mk_cLoad 0 1 3; mk_cLoad 1 6 7; mk_cLoad 2 5 7] ->
      l_priority x <= l_priority r /\ (l_priority x = l_priority r -> l_oid r <= l_oid x).
Proof.
  apply (pop_most_urgent true (fun _ => 0) 2
    (set_pc SEnter (set_queue [mk_cLoad 0 1 3; mk_cLoad 1 6 7; mk_cLoad 2 5 7] (sched_init ∅)))
    (set_pc (SPopped (mk_cLoad 2 5 7)) (set_queue [mk_cLoad 0 1 3; mk_cLoad 1 6 7] (sched_init ∅)))).
  vm_compute. reflexivity.
Defined.

(** ** Exclusive use of the vFPGA *)

(** The requests the scheduler still owes: queued, or taken and not finished. *)
Definition inhand (s : sched) : list cLoad :=
  match pc s with
  | SPopped r | SOwned r | SLoaded r => [r]
  | SWaiting r => if curr_run s then [r] else []
  | _ => []
  end.

Definition pending (s : sched) : list cLoad := queue s ++ inhand s.

Definition owning (p : spc) : bool :=
  match p with SOwned _ | SLoaded _ | SWaiting _ => true | _ => false end.

Definition calm (l : label) : Prop := match l with LTimeout => False | _ => True end.

Section exclusive.
Context (p o en_pr : bool) (cpid_of : nat -> Z).
Context (Hinj : forall t t', cpid_of t = cpid_of t' -> t = t').

Definition asks (t : nat) (c : client) : cLoad :=
  match c with CWait oid prio | CRun oid prio => request cpid_of t oid prio end.

(** The clients and the scheduler agree on who is owed what. *)
Record books (cl : gmap nat client) (pend : list cLoad) : Prop := {
  bk_back r : r ∈ pend -> exists t c, cl !! t = Some c /\ r = asks t c;
  bk_fwd t c : cl !! t = Some c -> asks t c ∈ pend;
  bk_nodup : NoDup (l_cpid <$> pend)
}.

Record Inv (s : sched) : Prop := {
  inv_books : books (clients s) (pending s);
  inv_run t oid prio : clients s !! t = Some (CRun oid prio) ->
    pc s = SWaiting (request cpid_of t oid prio) /\ curr_run s = true;
  inv_curr : match pc s with SWaiting r => curr_cpid s = l_cpid r | _ => curr_run s = false end;
  inv_plock : plock s = OSched <-> owning (pc s) = true
}.

Lemma asks_cpid (t : nat) (c : client) : l_cpid (asks t c) = cpid_of t.
Proof. by destruct c. Qed.

Lemma books_perm (cl : gmap nat client) (l l' : list cLoad) :
  l ≡ₚ l' -> books cl l -> books cl l'.
Proof.
  intros Hl [H1 H2 H3]. split.
  - intros r Hr. apply H1. by rewrite Hl.
  - intros t c Hc. rewrite <- Hl. by apply H2.
  - by rewrite <- Hl.
Qed.

Lemma books_submit (cl : gmap nat client) (l : list cLoad) (t : nat) (oid prio : Z) :
  cl !! t = None -> books cl l ->
  books (<[t := CWait oid prio]> cl) (request cpid_of t oid prio :: l).
Proof.
  intros Ht [H1 H2 H3].
  assert (forall r, r ∈ l -> l_cpid r <> cpid_of t) as Hnew.
  { intros r Hr Heq. destruct (H1 r Hr) as (t' & c & Hc & ->). rewrite asks_cpid in Heq.
    apply Hinj in Heq as ->. by rewrite Ht in Hc. }
  split.
  - intros r [->|Hr]%elem_of_cons.
    + exists t, (CWait oid prio). by rewrite lookup_insert_eq.
    + destruct (H1 r Hr) as (t' & c & Hc & ->). exists t', c. split; [|done].
      rewrite lookup_insert_ne; [done|]. intros <-. by rewrite Ht in Hc.
  - intros t' c. destruct (decide (t = t')) as [<-|Hne].
    + rewrite lookup_insert_eq. intros [= <-]. by left.
    + rewrite lookup_insert_ne by done. intros Hc. right. by apply H2.
  - cbn. apply NoDup_cons. split; [|done]. intros (r & Hr & Hin)%list_elem_of_fmap.
    by apply (Hnew r).
Qed.

Lemma books_wake (cl : gmap nat client) (l : list cLoad) (t : nat) (oid prio : Z) :
  cl !! t = Some (CWait oid prio) -> books cl l -> books (<[t := CRun oid prio]> cl) l.
Proof.
  intros Ht [H1 H2 H3]. split; [| |done].
  - intros r Hr. destruct (H1 r Hr) as (t' & c & Hc & ->).
    destruct (decide (t = t')) as [<-|Hne].
    + exists t, (CRun oid prio). rewrite lookup_insert_eq. split; [done|].
      rewrite Ht in Hc. by injection Hc as <-.
    + exists t', c. by rewrite lookup_insert_ne.
  - intros t' c. destruct (decide (t = t')) as [<-|Hne].
    + rewrite lookup_insert_eq. intros [= <-]. by apply (H2 t (CWait oid prio)).
    + rewrite lookup_insert_ne by done. apply H2.
Qed.

Lemma books_finish (cl : gmap nat client) (l : list cLoad) (t : nat) (oid prio : Z) :
  cl !! t = Some (CRun oid prio) -> books cl (l ++ [request cpid_of t oid prio]) ->
  books (delete t cl) l.
Proof.
  intros Ht [H1 H2 H3]. rewrite fmap_app in H3. apply NoDup_app in H3 as (H3 & Hdis & _).
  assert (forall r, r ∈ l -> l_cpid r <> cpid_of t) as Hnew.
  { intros r Hr Heq. apply (Hdis (l_cpid r)); [by apply list_elem_of_fmap_2|].
    rewrite Heq. by left. }
  split; [| |done].
  - intros r Hr. destruct (H1 r) as (t' & c & Hc & Heq); [by apply elem_of_app; left|].
    exists t', c. split; [|done]. rewrite lookup_delete_ne; [done|]. intros <-.
    apply (Hnew r Hr). rewrite Heq. apply asks_cpid.
  - intros t' c [Hne Hc]%lookup_delete_Some. apply H2, elem_of_app in Hc as [|Hc]; [done|].
    apply list_elem_of_singleton in Hc. destruct Hne. apply Hinj.
    by rewrite <- (asks_cpid t' c), Hc.
Qed.

(** The thread a request in the books belongs to. *)
Lemma books_owner (cl : gmap nat client) (l : list cLoad) (r : cLoad) (t : nat) (c : client) :
  books cl l -> r ∈ l -> l_cpid r = cpid_of t -> cl !! t = Some c -> r = asks t c.
Proof.
  intros [H1 _ _] Hr Ht Hc. destruct (H1 r Hr) as (t' & c' & Hc' & ->).
  rewrite asks_cpid in Ht. apply Hinj in Ht as ->. by simplify_eq.
Qed.

Lemma Inv_init (bs : gset Z) : Inv (sched_init bs).
Proof.
  split; cbn; try done.
  - split; cbn; try done; [|by constructor]. intros r Hr. by apply elem_of_nil in Hr.
Qed.

(** A step that leaves the clients, the books and the current task alone. *)
Lemma Inv_quiet (s s' : sched) :
  Inv s -> clients s' = clients s -> pending s ≡ₚ pending s' ->
  (forall r, pc s <> SWaiting r) -> (forall r, pc s' <> SWaiting r) ->
  curr_run s' = curr_run s -> (plock s' = OSched <-> owning (pc s') = true) -> Inv s'.
Proof.
  intros [Hb Hr Hc Hp] Hcl Hpend Hw Hw' Hcr Hpl. split; [| | |done].
  - rewrite Hcl. by eapply books_perm.
  - intros t oid prio Ht. rewrite Hcl in Ht. destruct (Hr t oid prio Ht) as [Hpc _].
    by apply Hw in Hpc.
  - assert (curr_run s' = false) as H.
    { rewrite Hcr. destruct (pc s); try done. by destruct (Hw r). }
    destruct (pc s') as [| | | | |r| |]; try done. by destruct (Hw' r).
Qed.

Lemma Inv_sched_step (l : label) (s s' : sched) :
  calm l -> Inv s -> sched_step p o en_pr l s = Some s' -> Inv s' \/ pc s' = SAborted.
Proof.
  intros Hl HI Hstep. pose proof HI as [Hb Hr Hc Hp].
  destruct l; cbn [sched_step] in Hstep; try discriminate Hstep.
  all: destruct (pc s) as [| |r|r|r|r| |] eqn:Hpc; try discriminate Hstep.
  - (* LTest *) left. case_match; injection Hstep as <-.
    all: apply (Inv_quiet s); try done; cbn; try by rewrite Hpc.
    all: unfold pending, inhand; cbn; by rewrite Hpc.
  - (* LPop *) left. destruct (queue s !! i) as [r|] eqn:Hi; [|done].
    destruct (is_top _ _ _ _); [|done]. injection Hstep as <-.
    apply (Inv_quiet s); try done; cbn; try by rewrite Hpc.
    unfold pending, inhand; cbn. rewrite Hpc, app_nil_r.
    rewrite (delete_Permutation _ _ _ Hi) at 1. apply Permutation_cons_append.
  - (* LRetry *) left. case_decide; [|done]. injection Hstep as <-.
    apply (Inv_quiet s); try done; cbn; try by rewrite Hpc.
    unfold pending, inhand; cbn; by rewrite Hpc.
  - (* LAcquire *) left. case_decide; [|done]. injection Hstep as <-.
    apply (Inv_quiet s); try done; cbn; try by rewrite Hpc.
    unfold pending, inhand; cbn; by rewrite Hpc.
  - (* LReconfigure *)
    assert (forall x, queue x = queue s -> clients x = clients s -> pc x = SLoaded r ->
      curr_run x = curr_run s -> plock x = plock s -> Inv x) as Hquiet.
    { intros x H1 H2 H3 H4 H5. apply (Inv_quiet s); try done; cbn.
      - unfold pending, inhand. by rewrite H1, H3, Hpc.
      - by rewrite Hpc.
      - by rewrite H3.
      - rewrite H5, H3. by rewrite Hp. }
    repeat case_match; try discriminate Hstep; injection Hstep as <-; auto.
  - (* LNotify *) left. injection Hstep as <-. split; cbn; try done.
    + unfold pending, inhand in *. cbn. by rewrite Hpc in Hb.
    + intros t oid prio Ht. destruct (Hr t oid prio Ht) as [? _]. congruence.
  - (* LCompleted *) left. destruct (curr_run s) eqn:Hcr; [done|]. injection Hstep as <-.
    split; cbn; try done.
    + unfold pending, inhand in *. cbn. by rewrite Hpc, Hcr in Hb.
    + intros t oid prio Ht. destruct (Hr t oid prio Ht) as [_ ?]. congruence.
  - (* LTimeout *) by destruct Hl.
Qed.

Lemma Inv_client_step (l : label) (s s' : sched) :
  Inv s -> client_step cpid_of l s = Some s' -> Inv s'.
Proof.
  intros [Hb Hr Hc Hp] Hstep.
  destruct l; cbn [client_step] in Hstep; try discriminate Hstep.
  - (* LSubmit *) destruct (clients s !! t) eqn:Ht; [done|]. injection Hstep as <-.
    split; cbn; try done.
    + eapply books_perm; [|by apply books_submit]. unfold pending, inhand. cbn.
      rewrite <- app_assoc, Permutation_middle. done.
    + intros t' oid' prio'. destruct (decide (t = t')) as [<-|Hne].
      * by rewrite lookup_insert_eq.
      * rewrite lookup_insert_ne by done. apply Hr.
  - (* LWake *) destruct (clients s !! t) as [[oid prio|]|] eqn:Ht; try done.
    destruct (curr_run s) eqn:Hcr, (Z.eqb_spec (curr_cpid s) (cpid_of t)) as [Heq|]; try done.
    injection Hstep as <-.
    destruct (pc s) as [| | | | |r| |] eqn:Hpc; try congruence.
    assert (r = request cpid_of t oid prio) as ->.
    { eapply (books_owner _ _ r t (CWait oid prio)); [exact Hb| |congruence|done].
      unfold pending, inhand. rewrite Hpc, Hcr. apply elem_of_app. right. by left. }
    split; cbn; try done.
    + by apply books_wake.
    + intros t' oid' prio'. destruct (decide (t = t')) as [<-|Hne].
      * rewrite lookup_insert_eq. intros [= <- <-]. by rewrite Hpc.
      * rewrite lookup_insert_ne by done. rewrite Hpc, Hcr. apply Hr.
    + by rewrite Hpc.
    + by rewrite Hpc.
  - (* LFinish *) destruct (clients s !! t) as [[|oid prio]|] eqn:Ht; try done.
    injection Hstep as <-. destruct (Hr t oid prio Ht) as [Hpc Hcr].
    rewrite Hpc in Hc. cbn in Hc. rewrite Hc, Z.eqb_refl.
    assert (books (delete t (clients s)) (queue s)) as Hb'.
    { eapply books_finish; [done|]. unfold pending, inhand in Hb. by rewrite Hpc, Hcr in Hb. }
    split; cbn; try done.
    + unfold pending, inhand. cbn. by rewrite Hpc, app_nil_r.
    + intros t' oid' prio' [Hne Ht']%lookup_delete_Some.
      destruct (Hr t' oid' prio' Ht') as [Hpc' _]. rewrite Hpc in Hpc'.
      injection Hpc' as He. apply Hinj in He. by destruct Hne.
    + by rewrite Hpc.
Qed.

Lemma Inv_exec (l : label) (s s' : sched) :
  calm l -> Inv s -> exec p o en_pr cpid_of l s = Some s' -> Inv s' \/ pc s' = SAborted.
Proof.
  intros Hl HI. unfold exec. case_decide; [done|].
  destruct l; try (by apply Inv_sched_step).
  all: try (intros H1; left; by apply Inv_client_step in H1).
  all: cbn [env_step]; intros Hstep; left; destruct HI as [Hb Hr Hc Hp].
  - injection Hstep as <-. by split.
  - destruct lock; case_decide as He; try done; injection Hstep as <-; split; cbn; try done.
    all: rewrite <- Hp, He; done.
  - case_decide; [done|]. injection Hstep as <-. by split.
  - injection Hstep as <-. by split.
Qed.

Lemma Inv_execs (ls : list label) (s s' : sched) :
  Forall calm ls -> Inv s -> execs p o en_pr cpid_of ls s = Some s' -> Inv s' \/ pc s' = SAborted.
Proof.
  intros Hls. revert s. induction Hls as [|l ls Hl Hls IH]; intros s HI.
  - intros [= <-]. by left.
  - cbn [execs]. intros (s1 & H1 & H2)%bind_Some.
    destruct (Inv_exec l s s1 Hl HI H1) as [H|H]; [by eapply IH|].
    destruct ls as [|l' ls]; [injection H2 as <-; by right|].
    cbn [execs] in H2. apply bind_Some in H2 as (s2 & H2 & _). unfold exec in H2.
    by rewrite decide_True in H2.
Qed.
End exclusive.

(** ** The operator on the vFPGA *)

(** [l] registers no bitstream. *)
Definition no_add (l : label) : Prop := match l with LAdd _ => False | _ => True end.

Section operator.
Context (p o : bool) (cpid_of : nat -> Z).

(** On a reconfigurable vFPGA: the current operator is the loaded one if it
    has a bitstream, and the request past reconfiguration asked for it. *)
Record Oper (s : sched) : Prop := {
  op_loaded : curr_oid s <> -1 -> curr_oid s ∈ bitstreams s -> loaded s = Some (curr_oid s);
  op_pc : match pc s with SLoaded r | SWaiting r => curr_oid s = l_oid r | _ => True end
}.

Lemma Oper_exec (l : label) (s s' : sched) :
  no_add l -> Oper s -> exec p o true cpid_of l s = Some s' -> Oper s'.
Proof.
  intros Hl [H1 H2] Hstep. unfold exec in Hstep. case_decide; [done|].
  destruct l; cbn [client_step env_step sched_step] in Hstep; try done.
  all: repeat first
    [ discriminate Hstep
    | progress injection Hstep as <-
    | case_match ].
  all: split; cbn -[elem_of]; try done; try (by intros ? [? ?]%elem_of_difference; auto).
  all: rewrite ?Z.eqb_eq in *; try congruence.
  all: unfold reconfigure in *; repeat case_match; simplify_eq; try done.
Qed.

Lemma Oper_execs (ls : list label) (s s' : sched) :
  Forall no_add ls -> Oper s -> execs p o true cpid_of ls s = Some s' -> Oper s'.
Proof.
  intros Hls. revert s. induction Hls as [|l ls Hl Hls IH]; intros s HI.
  - by intros [= <-].
  - cbn [execs]. intros (s1 & H1 & H2)%bind_Some. eapply IH; [|done]. by eapply Oper_exec.
Qed.
End operator.

(** C2: as long as every task finishes within its timeout and the threads use
    different Coyote process numbers, a thread that [pLock] let through is
    alone on the vFPGA, the scheduler holds the vFPGA against other processes,
    and - on a reconfigurable vFPGA whose bitstreams were registered before -
    the operator it asked for is the one that is loaded. *)
Theorem running_exclusive (p o en_pr : bool) (cpid_of : nat -> Z) (bs : gset Z)
    (ls : list label) (s : sched) (t : nat) (oid prio : Z) :
  (forall t t', cpid_of t = cpid_of t' -> t = t') ->
  Forall calm ls -> Forall no_add ls ->
  execs p o en_pr cpid_of ls (sched_init bs) = Some s ->
  pc s <> SAborted -> clients s !! t = Some (CRun oid prio) ->
  (forall t' oid' prio', clients s !! t' = Some (CRun oid' prio') -> t' = t) /\
  plock s = OSched /\
  (en_pr = true -> oid <> -1 -> oid ∈ bitstreams s -> loaded s = Some oid).
Proof.
  intros Hinj Hcalm Hadd Hex Halive Ht.
  destruct (Inv_execs p o en_pr cpid_of Hinj ls _ s Hcalm (Inv_init cpid_of bs) Hex) as [HI|]; [|done].
  destruct (inv_run _ _ HI _ _ _ Ht) as [Hpc Hcr]. split; [|split].
  - intros t' oid' prio' Ht'. destruct (inv_run _ _ HI _ _ _ Ht') as [Hpc' _].
    rewrite Hpc in Hpc'. injection Hpc' as He. symmetry. by apply Hinj.
  - apply (inv_plock _ _ HI). by rewrite Hpc.
  - intros -> Hne Hbs. destruct (Oper_execs p o cpid_of ls (sched_init bs) s Hadd) as [H1 H2].
    + by split.
    + done.
    + rewrite Hpc in H2. cbn in H2. rewrite <- H2. by apply H1; rewrite H2.
Qed.

(** Serving one request from start to the task's first instruction. *)
Definition serve (i : nat) (t : nat) : list label :=
  [LTest; LPop i; LAcquire; LReconfigure true; LNotify; LWake t].

Lemma running_exclusive_witness :
  let ls := [LSubmit 0 5 1; LSubmit 1 6 9] ++ serve 1 1 in
  let s := mk_sched (SWaiting (mk_cLoad 1 6 9)) true [mk_cLoad 0 5 1] 6 1 true OSched
             {[ 0%nat := CWait 5 1; 1%nat := CRun 6 9 ]} {[5; 6]} (Some 6) in
  execs true true true Z.of_nat ls (sched_init {[5; 6]}) = Some s /\
  (forall t' oid' prio', clients s !! t' = Some (CRun oid' prio') -> t' = 1%nat) /\
  plock s = OSched /\
  (true = true -> 6 <> -1 -> 6 ∈ bitstreams s -> loaded s = Some 6).
Proof.
  intros ls s.
  assert (execs true true true Z.of_nat ls (sched_init {[5; 6]}) = Some s) as He
    by (vm_compute; reflexivity).
  split; [exact He|].
  apply (running_exclusive true true true Z.of_nat {[5; 6]} ls s 1 6 9).
  - lia.
  - repeat constructor.
  - repeat constructor.
  - exact He.
  - discriminate.
  - reflexivity.
Defined.

(** ** Every request is served *)

(** The steps the scheduler and already queued tasks make on their own. *)
Definition internal (l : label) : Prop :=
  match l with
  | LTest | LPop _ | LAcquire | LReconfigure true | LNotify | LWake _ | LFinish _ | LCompleted => True
  | _ => False
  end.

(** Steps left until the scheduler has gone through its queue, at most. *)
Definition rank (s : sched) : nat :=
  (10 * length (queue s) +
   match pc s with
   | SPopped _ => 8 | SOwned _ => 7 | SLoaded _ => 6
   | SWaiting _ => if curr_run s then 5 else 3
   | SLoop => 2 | SEnter => 1 | _ => 0
   end)%nat.

Section served.
Context (p o en_pr : bool) (cpid_of : nat -> Z).
Context (Hinj : forall t t', cpid_of t = cpid_of t' -> t = t').
Abbreviation inv := (Inv cpid_of).
Abbreviation runs := (execs p o en_pr cpid_of).

(** The scheduler is in its loop and no other process holds the vFPGA. *)
Definition serving (s : sched) : Prop := pc s <> SAborted /\ pc s <> SExited /\ plock s <> OOther.

(** A stretch of the way: [ls] moves the scheduler on and leaves the request of
    [t] alone. *)
Definition advances (t : nat) (c : client) (s : sched) (ls : list label) (s' : sched) : Prop :=
  Forall internal ls /\ runs ls s = Some s' /\ inv s' /\ serving s' /\
  clients s' !! t = Some c /\ (1 <= length ls /\ rank s' + length ls <= rank s)%nat.

Lemma internal_calm (l : label) : internal l -> calm l.
Proof. by destruct l. Qed.

(** [advances] for one step whose effect has been computed. *)
Lemma advances_one (t : nat) (c : client) (s s' : sched) (l : label) :
  exec p o en_pr cpid_of l s = Some s' -> internal l -> inv s -> serving s' ->
  (S (rank s') <= rank s)%nat -> clients s' !! t = Some c -> advances t c s [l] s'.
Proof.
  intros Hex Hl HI Hs Hr Hc. split; [by constructor|]. cbn [execs length]. rewrite Hex.
  split; [done|].
  destruct (Inv_exec p o en_pr cpid_of Hinj l s s' (internal_calm l Hl) HI Hex) as [H|H].
  - split; [done|]. split; [done|]. split; [done|]. lia.
  - by destruct Hs.
Qed.

Lemma exec_sched (l : label) (s : sched) :
  pc s <> SAborted -> internal l -> (forall t, l <> LWake t) -> (forall t, l <> LFinish t) ->
  exec p o en_pr cpid_of l s = sched_step p o en_pr l s.
Proof.
  intros Hs Hl Hw Hf. unfold exec. rewrite decide_False by done.
  destruct l; try done; [by destruct (Hw t)|by destruct (Hf t)].
Qed.

Lemma advance_finish (t t0 : nat) (c : client) (oid prio : Z) (s : sched) :
  inv s -> serving s -> t0 <> t -> clients s !! t = Some c ->
  clients s !! t0 = Some (CRun oid prio) -> exists s', advances t c s [LFinish t0] s'.
Proof.
  intros HI Hs Hne Hc H0. destruct (inv_run _ _ HI _ _ _ H0) as [Hpc Hcr].
  pose proof (inv_curr _ _ HI) as Hcc. rewrite Hpc in Hcc. cbn in Hcc.
  eexists. apply advances_one; [| done | done | ..].
  - unfold exec. rewrite decide_False by apply Hs. cbn [client_step].
    rewrite H0, Hcc, Z.eqb_refl. done.
  - exact Hs.
  - unfold rank. cbn. rewrite Hpc, Hcr. lia.
  - cbn. by rewrite lookup_delete_ne.
Qed.

(** A waiting request is in the books, so the queue is not empty before one is
    taken. *)
Lemma waiting_queued (t : nat) (c : client) (s : sched) :
  inv s -> clients s !! t = Some c -> inhand s = [] -> queue s <> [].
Proof.
  intros HI Ht Hh Hq. pose proof (bk_fwd _ _ _ (inv_books _ _ HI) _ _ Ht) as H.
  unfold pending in H. rewrite Hq, Hh in H. by apply elem_of_nil in H.
Qed.

(** The scheduler's own step, when it is not waiting for a task. *)
Lemma advance_sched (t : nat) (c : client) (s : sched) :
  inv s -> serving s -> clients s !! t = Some c ->
  (forall r, pc s = SWaiting r -> curr_run s = false) -> exists l s', advances t c s [l] s'.
Proof.
  intros HI Hs Ht Hnw. pose proof Hs as (Ha & Hx & Ho).
  pose proof (waiting_queued t c s HI Ht) as Hq. unfold inhand in Hq.
  destruct (pc s) as [| |r|r|r|r| |] eqn:Hpc; try done.
  - exists LTest. eexists. apply advances_one; [|done|done|..].
    + rewrite exec_sched by (congruence || done). cbn [sched_step].
      rewrite Hpc, (bool_decide_false (queue s = [])), orb_true_r by auto. done.
    + by split.
    + unfold rank. cbn. rewrite Hpc. lia.
    + done.
  - destruct (top_exists p o (queue s) (Hq eq_refl)) as (i & r & Hi & Htop).
    exists (LPop i). eexists. apply advances_one; [|done|done|..].
    + rewrite exec_sched by (congruence || done). cbn [sched_step]. by rewrite Hpc, Hi, Htop.
    + by split.
    + unfold rank. cbn. rewrite Hpc. pose proof (delete_Permutation _ _ _ Hi) as Hd.
      apply Permutation_length in Hd. cbn in Hd. lia.
    + done.
  - exists LAcquire. eexists. apply advances_one; [|done|done|..].
    + rewrite exec_sched by (congruence || done). cbn [sched_step]. rewrite Hpc, decide_True; [done|].
      pose proof (inv_plock _ _ HI) as [Hp _]. rewrite Hpc in Hp.
      destruct (plock s); try done. by specialize (Hp eq_refl).
    + by split.
    + unfold rank. cbn. rewrite Hpc. lia.
    + done.
  - assert (exists s', sched_step p o en_pr (LReconfigure true) s = Some s' /\ pc s' = SLoaded r /\
      queue s' = queue s /\ clients s' = clients s /\ plock s' = plock s) as (s' & Hs' & H1 & H2 & H3 & H4).
    { cbn [sched_step]. rewrite Hpc. unfold reconfigure.
      destruct en_pr; [destruct (curr_oid s =? l_oid r); [|destruct (decide _)]|].
      all: eexists; split; [reflexivity|]; done. }
    exists (LReconfigure true), s'. apply advances_one; [|done|done|..|by rewrite H3].
    + by rewrite exec_sched by (congruence || done).
    + unfold serving. by rewrite H1, H4.
    + unfold rank. rewrite H1, H2, Hpc. lia.
  - exists LNotify. eexists. apply advances_one; [|done|done|..].
    + rewrite exec_sched by (congruence || done). cbn [sched_step]. by rewrite Hpc.
    + by split.
    + unfold rank. cbn. rewrite Hpc. lia.
    + done.
  - specialize (Hnw r eq_refl). exists LCompleted. eexists. apply advances_one; [|done|done|..].
    + rewrite exec_sched by (congruence || done). cbn [sched_step]. by rewrite Hpc, Hnw.
    + by split.
    + unfold rank. cbn. rewrite Hpc, Hnw. lia.
    + done.
Qed.

Lemma advance (t : nat) (oid prio : Z) (s : sched) :
  inv s -> serving s -> clients s !! t = Some (CWait oid prio) ->
  (exists ls s', advances t (CWait oid prio) s ls s') \/
  (exists s', exec p o en_pr cpid_of (LWake t) s = Some s' /\
    clients s' !! t = Some (CRun oid prio) /\ (1 <= rank s)%nat).
Proof.
  intros HI Hs Ht.
  destruct (curr_run s) eqn:Hcr; [|left; destruct (advance_sched t _ s HI Hs Ht) as (l & s' & H); eauto].
  pose proof (inv_curr _ _ HI) as Hcurr. destruct (pc s) as [| | | | |r| |] eqn:Hpc; try congruence.
  destruct (bk_back _ _ _ (inv_books _ _ HI) r) as (t0 & c & Hc & ->).
  { unfold pending, inhand. rewrite Hpc, Hcr. apply elem_of_app. right. by left. }
  rewrite asks_cpid in Hcurr. destruct c as [oid0 prio0|oid0 prio0].
  - assert (exec p o en_pr cpid_of (LWake t0) s =
      Some (set_clients (<[t0 := CRun oid0 prio0]> (clients s)) s)) as Hwake.
    { unfold exec. rewrite decide_False by congruence. cbn [client_step].
      by rewrite Hc, Hcr, Hcurr, Z.eqb_refl. }
    destruct (decide (t0 = t)) as [->|Hne].
    { right. eexists. split; [done|]. rewrite Ht in Hc. injection Hc as <- <-. cbn.
      rewrite lookup_insert_eq. split; [done|]. unfold rank. rewrite Hpc, Hcr. lia. }
    left. destruct (Inv_exec p o en_pr cpid_of Hinj (LWake t0) s _ I HI Hwake) as [HI'|];
      [|cbn in *; congruence].
    set (s1 := set_clients _ s) in *.
    destruct (advance_finish t t0 (CWait oid prio) oid0 prio0 s1) as (s2 & _ & Hex & HI2 & Hs2 & Hc2 & _ & Hr2);
      [done|done|done|cbn; by rewrite lookup_insert_ne|cbn; by rewrite lookup_insert_eq|].
    exists [LWake t0; LFinish t0], s2. split; [by repeat constructor|].
    cbn [execs] in *. rewrite Hwake. split; [exact Hex|]. do 3 (split; [done|]).
    split; [cbn; lia|]. revert Hex. unfold exec. rewrite decide_False by (cbn; congruence).
    cbn [client_step s1 clients set_clients]. rewrite lookup_insert_eq. cbn. intros [= <-].
    rewrite Hcurr, Z.eqb_refl. unfold rank. cbn. rewrite Hpc, Hcr. lia.
  - left. destruct (decide (t0 = t)) as [->|Hne]; [congruence|].
    destruct (advance_finish t t0 (CWait oid prio) oid0 prio0 s) as [s' Hs']; eauto.
Qed.

Lemma served (n t : nat) (oid prio : Z) (s : sched) :
  (rank s <= n)%nat -> inv s -> serving s -> clients s !! t = Some (CWait oid prio) ->
  exists ls s', Forall internal ls /\ runs ls s = Some s' /\ (length ls <= rank s)%nat /\
    clients s' !! t = Some (CRun oid prio).
Proof.
  revert s. induction n as [|n IH]; intros s Hn HI Hs Ht.
  all: destruct (advance t oid prio s HI Hs Ht)
    as [(ls & s1 & Hl & Hex & HI1 & Hs1 & Ht1 & Hlen & Hr)|(s1 & Hex & Ht1 & Hr)].
  - lia.
  - lia.
  - destruct (IH s1) as (ls' & s' & Hl' & Hex' & Hlen' & Ht'); [lia|done..|].
    exists (ls ++ ls'), s'. split; [by apply Forall_app|]. split; [|split; [|done]].
    + clear -Hex Hex'. revert s Hex. induction ls as [|l ls IHl]; intros s; cbn [execs app].
      * by intros [= ->].
      * intros (s2 & -> & H2)%bind_Some. cbn. by apply IHl.
    + rewrite length_app. lia.
  - exists [LWake t], s1. split; [by repeat constructor|]. cbn [execs]. rewrite Hex.
    split; [done|]. by split.
Qed.
End served.

(** C3: no request is lost and none waits for more than the tasks before it.
    Whatever happened so far (no task having outlived its timeout), when the
    scheduler is running, no other process holds the vFPGA and thread [t] is
    waiting in [pLock], the scheduler and the tasks already queued reach a
    state in which [t] runs, in at most ten steps per queued request. *)
Theorem request_served (p o en_pr : bool) (cpid_of : nat -> Z) (bs : gset Z) (ls : list label)
    (s : sched) (t : nat) (oid prio : Z) :
  (forall t t', cpid_of t = cpid_of t' -> t = t') ->
  Forall calm ls -> execs p o en_pr cpid_of ls (sched_init bs) = Some s ->
  pc s <> SAborted -> pc s <> SExited -> plock s <> OOther ->
  clients s !! t = Some (CWait oid prio) ->
  exists ls' s', Forall internal ls' /\ execs p o en_pr cpid_of ls' s = Some s' /\
    (length ls' <= 10 * length (queue s) + 8)%nat /\ clients s' !! t = Some (CRun oid prio).
Proof.
  intros Hinj Hcalm Hex Ha Hx Ho Ht.
  destruct (Inv_execs p o en_pr cpid_of Hinj ls _ s Hcalm (Inv_init cpid_of bs) Hex) as [HI|]; [|done].
  destruct (served p o en_pr cpid_of Hinj (rank s) t oid prio s) as (ls' & s' & H1 & H2 & H3 & H4);
    [done|done|by split|done|].
  exists ls', s'. repeat (split; [done|]). split; [|done].
  assert (rank s <= 10 * length (queue s) + 8)%nat as Hr; [|lia].
  unfold rank. repeat case_match; lia.
Qed.

Lemma request_served_witness :
  let s := mk_sched SLoop true [mk_cLoad 0 5 1; mk_cLoad 1 6 9] (-1) (-1) false ONone
             {[ 0%nat := CWait 5 1; 1%nat := CWait 6 9 ]} {[5; 6]} None in
  exists ls' s', Forall internal ls' /\ execs true true true Z.of_nat ls' s = Some s' /\
    (length ls' <= 10 * 2 + 8)%nat /\ clients s' !! 0%nat = Some (CRun 5 1).
Proof.
  intros s. apply (request_served true true true Z.of_nat {[5; 6]} [LSubmit 0 5 1; LSubmit 1 6 9] s 0 5 1).
  - lia.
  - repeat constructor.
  - vm_compute. reflexivity.
  - discriminate.
  - discriminate.
  - discriminate.
  - reflexivity.
Defined.

(** ** Where the guarantees end *)

(** Two threads in their critical section at once. *)
Definition both_running (s : sched) : Prop :=
  exists t1 t2 o1 p1 o2 p2, t1 <> t2 /\
    clients s !! t1 = Some (CRun o1 p1) /\ clients s !! t2 = Some (CRun o2 p2).

(** the two conditions of exclusive use are necessary. A task that runs
    longer than [cmplTimeout] shares the vFPGA with the next one, even though
    its operator was replaced; and two threads of one Coyote process pass
    [pLock] together on a single grant, while the request of the second stays
    queued. *)
Theorem exclusion_lost :
  (exists ls s, Forall no_add ls /\
    execs true true true Z.of_nat ls (sched_init {[1; 2]}) = Some s /\
    both_running s /\ loaded s = Some 2) /\
  (exists ls s, Forall calm ls /\ Forall no_add ls /\
    execs true true true (fun _ => 7) ls (sched_init {[1; 2]}) = Some s /\
    both_running s /\ loaded s = Some 1 /\ queue s = [mk_cLoad 7 2 0]).
Proof.
  split.
  - exists ([LSubmit 0 1 0; LSubmit 1 2 0] ++ serve 0 0 ++ [LTimeout] ++ serve 0 1).
    eexists. split; [repeat constructor|]. split; [vm_compute; reflexivity|]. split; [|reflexivity].
    exists 0%nat, 1%nat, 1, 0, 2, 0. by split.
  - exists ([LSubmit 0 1 0; LSubmit 1 2 0] ++ serve 0 0 ++ [LWake 1]).
    eexists. do 2 (split; [repeat constructor|]). split; [vm_compute; reflexivity|].
    split; [|by split]. exists 0%nat, 1%nat, 1, 0, 2, 0. by split.
Qed.

(** a request whose operator has no bitstream yet is let through with
    whatever is loaded, and the scheduler remembers the operator as current:
    registering the bitstream afterwards does not make the next request for it
    load anything. *)
Theorem late_bitstream_never_loaded :
  exists ls s, Forall calm ls /\ execs true true true Z.of_nat ls (sched_init {[1]}) = Some s /\
    2 ∈ bitstreams s /\ clients s !! 1%nat = Some (CRun 2 0) /\ loaded s = Some 1.
Proof.
  exists ([LSubmit 9 1 0] ++ serve 0 9 ++ [LFinish 9; LCompleted; LSubmit 0 2 0] ++ serve 0 0 ++
          [LFinish 0; LCompleted; LAdd 2; LSubmit 1 2 0] ++ serve 0 1).
  eexists. split; [repeat constructor|]. split; [vm_compute; reflexivity|].
  split; [by vm_compute; set_solver|]. by split.
Qed.
