(* ===== verification/CThread.v ===== *)
(** Tasks and the threads that run them, [src/sw/include/cTask.hpp],
    [src/sw/include/cThread.hpp] and [src/sw/src/cThread.cpp]: a queue of tasks
    protected by a mutex, a worker that runs them, and a queue of completions
    that any thread may poll.

    The object is the record [cThread]; the sections run under a mutex, and the
    accesses made without one, are the labels.  What a task computes is user
    code: the worker's label carries the code it returns. *)

From stdpp Require Import base numbers list gmap strings.
From Stdlib Require Import ZArith Lia.
From S2P Require Import Prelude.

Local Open Scope Z_scope.

(** [bTask] as a [cTask]: the base members, the function (by a number) and the
    arguments bound to it. *)
Record bTask : Type := mk_bTask {
  tid : Z; oid : Z; priority : Z; task_fn : Z; task_args : list Z
}.

#[export] Instance bTask_eq_dec : EqDecision bTask.
Proof. solve_decision. Defined.

Abbreviation cmplEv := (Z * Z)%type.

(** Where [processRequests] is: at the loop test; past it; a task is taken; it
    returned; its completion is counted; the loop ended. *)
Inductive tpc : Type :=
| TLoop
| TEnter
| TTaken (t : bTask)
| TRan (t : bTask) (code : Z)
| TCounted (t : bTask) (code : Z)
| TExited.

(** [task_queue] holds owning pointers, which may be null. *)
Record cThread : Type := mk_cThread {
  th_pc : tpc;
  th_run : bool;
  task_queue : list (option bTask);
  cmpl_queue : list cmplEv;
  cnt_cmpl : Z;
  (** the consumers past the [empty()] test of [getCompletedNext] *)
  committed : gset nat
}.

(** After [startThread]. *)
Definition cThread_init : cThread := mk_cThread TLoop true [] [] 0 ∅.

Definition th_set_pc (p : tpc) (s : cThread) : cThread :=
  mk_cThread p (th_run s) (task_queue s) (cmpl_queue s) (cnt_cmpl s) (committed s).
Definition th_set_tasks (q : list (option bTask)) (s : cThread) : cThread :=
  mk_cThread (th_pc s) (th_run s) q (cmpl_queue s) (cnt_cmpl s) (committed s).
Definition th_set_cmpl (q : list cmplEv) (s : cThread) : cThread :=
  mk_cThread (th_pc s) (th_run s) (task_queue s) q (cnt_cmpl s) (committed s).

Inductive tlabel : Type :=
| TSchedule (t : option bTask)     (* scheduleTask *)
| TStop                            (* the destructor's run = false *)
| TTest                            (* the while condition *)
| TPop                             (* under mtx_task *)
| TRun (code : Z)                  (* curr_task->run(cproc) *)
| TCount                           (* cnt_cmpl++ *)
| TPush                            (* cmpl_queue.push under mtx_cmpl *)
| TCheck (c : nat)                 (* getCompletedNext: !cmpl_queue.empty() *)
| TTake (c : nat).                 (* getCompletedNext: front and pop under mtx_cmpl *)

(** The worker. *)
Definition worker_step (l : tlabel) (s : cThread) : step_result cThread :=
  match l, th_pc s with
  | TTest, TLoop =>
      if th_run s || negb (bool_decide (task_queue s = [])) then Next (th_set_pc TEnter s)
      else Next (th_set_pc TExited s)
  | TPop, TEnter =>
      match task_queue s with
      | Some t :: q => Next (th_set_pc (TTaken t) (th_set_tasks q s))
      | None :: q => Next (th_set_pc TLoop (th_set_tasks q s))
      | [] => Next (th_set_pc TLoop s)
      end
  | TRun code, TTaken t => Next (th_set_pc (TRan t code) s)
  | TCount, TRan t code =>
      Next (mk_cThread (TCounted t code) (th_run s) (task_queue s) (cmpl_queue s)
              (sext 32 (cnt_cmpl s + 1)) (committed s))
  | TPush, TCounted t code =>
      Next (th_set_pc TLoop (th_set_cmpl (cmpl_queue s ++ [(tid t, code)]) s))
  | _, _ => Blocked
  end.

Definition scheduleTask (t : option bTask) (s : cThread) : cThread :=
  th_set_tasks (task_queue s ++ [t]) s.

(** [getCompletedNext] tests for emptiness before it takes the mutex. *)
Definition getCompletedNext_check (c : nat) (s : cThread) : option cmplEv * cThread :=
  match cmpl_queue s with
  | [] => (Some (-1, -1), s)
  | _ => (None, mk_cThread (th_pc s) (th_run s) (task_queue s) (cmpl_queue s) (cnt_cmpl s)
                  ({[c]} ∪ committed s))
  end.

Definition getCompletedNext_take (c : nat) (s : cThread) : step_result (cmplEv * cThread) :=
  match cmpl_queue s with
  | [] => StepUndef "front of an empty queue"
  | e :: q =>
      Next (e, mk_cThread (th_pc s) (th_run s) (task_queue s) q (cnt_cmpl s) (committed s ∖ {[c]}))
  end.

(** The history of a thread: the tasks handed to it, those it ran with what
    they returned, and what its consumers received. *)
Record thist : Type := mk_thist {
  h_sub : list bTask;
  h_ran : list (bTask * Z);
  h_got : list cmplEv
}.

Definition thread_step (l : tlabel) (sh : cThread * thist) : step_result (cThread * thist) :=
  let '(s, h) := sh in
  match l with
  | TSchedule t =>
      Next (scheduleTask t s, mk_thist (h_sub h ++ option_list t) (h_ran h) (h_got h))
  | TStop =>
      Next (mk_cThread (th_pc s) false (task_queue s) (cmpl_queue s) (cnt_cmpl s) (committed s), h)
  | TCheck c =>
      if decide (c ∈ committed s) then Blocked else Next (snd (getCompletedNext_check c s), h)
  | TTake c =>
      if decide (c ∈ committed s) then
        match getCompletedNext_take c s with
        | Next (e, s') => Next (s', mk_thist (h_sub h) (h_ran h) (h_got h ++ [e]))
        | Blocked => Blocked
        | StepUndef e => StepUndef e
        end
      else Blocked
  | TRun code =>
      match th_pc s, worker_step l s with
      | TTaken t, Next s' => Next (s', mk_thist (h_sub h) (h_ran h ++ [(t, code)]) (h_got h))
      | _, _ => Blocked
      end
  | _ =>
      match worker_step l s with
      | Next s' => Next (s', h)
      | Blocked => Blocked
      | StepUndef e => StepUndef e
      end
  end.

Definition thread_start : cThread * thist := (cThread_init, mk_thist [] [] []).

(** ** Every task once, in order *)

(** The task the worker holds but has not run, and the completion it has not
    published. *)
Definition hand (p : tpc) : list bTask := match p with TTaken t => [t] | _ => [] end.
Definition flight (p : tpc) : list cmplEv :=
  match p with TRan t code | TCounted t code => [(tid t, code)] | _ => [] end.

Definition completion (r : bTask * Z) : cmplEv := (tid (fst r), snd r).

Record ThreadInv (s : cThread) (h : thist) : Prop := {
  ti_tasks : h_sub h = (h_ran h).*1 ++ hand (th_pc s) ++ omap id (task_queue s);
  ti_cmpl : completion <$> h_ran h = h_got h ++ cmpl_queue s ++ flight (th_pc s);
  ti_cnt : cnt_cmpl s = sext 32 (Z.of_nat (length (h_got h) + length (cmpl_queue s)) +
             match th_pc s with TCounted _ _ => 1 | _ => 0 end)
}.

Lemma sext_add (w x y : Z) : 0 < w -> sext w (sext w x + y) = sext w (x + y).
Proof.
  intros Hw. unfold sext.
  assert (wrap w ((if wrap w x <? 2 ^ (w - 1) then wrap w x else wrap w x - 2 ^ w) + y) =
    wrap w (x + y)) as ->; [|done].
  case_match.
  - apply wrap_add_l.
  - replace (wrap w x - 2 ^ w + y) with (wrap w x + (y - 2 ^ w)) by lia.
    rewrite wrap_add_l. replace (x + (y - 2 ^ w)) with (x + y + (-1) * 2 ^ w) by lia.
    unfold wrap. by rewrite Z_mod_plus_full.
Qed.

Lemma ThreadInv_step (l : tlabel) (sh sh' : cThread * thist) :
  ThreadInv (fst sh) (snd sh) -> thread_step l sh = Next sh' -> ThreadInv (fst sh') (snd sh').
Proof.
  destruct sh as [s h]. cbn [fst snd]. intros [H1 H2 H3] Hstep.
  destruct s as [p r tq cq cnt cm]; cbn in *.
  destruct l; cbn in Hstep.
  - injection Hstep as <-. split; cbn; [|done|done].
    rewrite H1, omap_app, <- !app_assoc. by destruct t.
  - injection Hstep as <-. by split.
  - destruct p; try done. destruct (r || _); injection Hstep as <-; by split.
  - destruct p; try done. destruct tq as [|[t|] q]; injection Hstep as <-; by split.
  - destruct p; try done. injection Hstep as <-. split; cbn.
    + by rewrite H1, fmap_app, <- app_assoc.
    + rewrite fmap_app, H2. cbn. by rewrite <- !app_assoc.
    + done.
  - destruct p; try done. injection Hstep as <-. split; cbn; try done.
    rewrite H3, sext_add by lia. f_equal. lia.
  - destruct p; try done. injection Hstep as <-. split; cbn; try done.
    + by rewrite H2, app_nil_r.
    + rewrite H3, length_app. cbn. f_equal. lia.
  - case_decide; [done|]. injection Hstep as <-. destruct cq; by split.
  - case_decide; [|done]. destruct cq as [|e q]; [done|]. injection Hstep as <-. split; cbn.
    + done.
    + rewrite H2. by rewrite <- app_assoc.
    + rewrite H3, length_app. cbn. f_equal. lia.
Qed.

Lemma ThreadInv_start : ThreadInv cThread_init (mk_thist [] [] []).
Proof. by split. Qed.

Definition any_label (l : tlabel) : Prop := True.

Lemma ThreadInv_steps (ls : list tlabel) (sh : cThread * thist) :
  steps thread_step ls thread_start = Next sh -> ThreadInv (fst sh) (snd sh).
Proof.
  apply (steps_invariant thread_step any_label (fun sh => ThreadInv (fst sh) (snd sh))).
  - intros l s s' _. apply ThreadInv_step.
  - by apply Forall_true.
  - apply ThreadInv_start.
Qed.

Definition demo_task (n : Z) : bTask := mk_bTask n 7 1 0 [].
Definition demo_run : list tlabel :=
  [TSchedule (Some (demo_task 1)); TSchedule None; TSchedule (Some (demo_task 2));
   TTest; TPop; TRun 40; TCount; TPush; TCheck 0; TTest; TPop; TTake 0; TTest; TPop; TRun 41; TCount].

(** ** Consumers *)

(** The consumers of a label are among [cs]. *)
Definition consumers_in (cs : gset nat) (l : tlabel) : Prop :=
  match l with TCheck c | TTake c => c ∈ cs | _ => True end.

Definition Consumer (c : nat) (sh : cThread * thist) : Prop :=
  committed (fst sh) ⊆ {[c]} /\ (committed (fst sh) <> ∅ -> cmpl_queue (fst sh) <> []).

Lemma Consumer_step (c : nat) (l : tlabel) (sh sh' : cThread * thist) :
  consumers_in {[c]} l -> Consumer c sh -> thread_step l sh = Next sh' -> Consumer c sh'.
Proof.
  destruct sh as [s h], s as [p r tq cq cnt cm]. unfold Consumer. cbn [fst committed cmpl_queue].
  intros Hl [H1 H2] Hstep. destruct l; cbn in Hstep, Hl.
  - by injection Hstep as <-.
  - by injection Hstep as <-.
  - destruct p; try done. destruct (r || _); by injection Hstep as <-.
  - destruct p; try done. destruct tq as [|[t|] q]; by injection Hstep as <-.
  - destruct p; try done. by injection Hstep as <-.
  - destruct p; try done. by injection Hstep as <-.
  - destruct p; try done. injection Hstep as <-. cbn. split; [done|]. intros _. by destruct cq.
  - case_decide; [done|]. injection Hstep as <-. destruct cq; cbn; [done|].
    split; [clear -Hl H1; set_solver|done].
  - case_decide; [|done]. destruct cq as [|e q]; [done|]. injection Hstep as <-. cbn.
    apply elem_of_singleton in Hl as ->. split; [clear -H1; set_solver|].
    intros Hne. destruct Hne. clear -H1. set_solver.
Qed.

Lemma single_consumer_defined (c : nat) (ls : list tlabel) (e : string) :
  Forall (consumers_in {[c]}) ls -> steps thread_step ls thread_start <> StepUndef e.
Proof.
  intros Hls.
  apply (steps_defined thread_step (consumers_in {[c]}) (Consumer c)); [apply Consumer_step| |done|].
  - intros l [s h] e' Hl [H1 H2] Hu. destruct l; cbn in Hu, Hl; try done.
    all: try (destruct (th_pc s); try done; repeat case_match; done).
    case_decide as Hc; [|done]. cbn in H2. unfold getCompletedNext_take in Hu.
    destruct (cmpl_queue s); [|done]. destruct H2; [|done]. clear -Hc. set_solver.
  - split; [set_solver|]. intros Hne. by destruct Hne.
Qed.

(** With two consumers the test made before taking the mutex lets both through
    for one completion, and the second reads the front of an empty queue. *)
Theorem getCompletedNext_consumers :
  exists ls, Forall (consumers_in {[0%nat; 1%nat]}) ls /\
    steps thread_step ls thread_start = StepUndef "front of an empty queue".
Proof.
  exists [TSchedule (Some (demo_task 1)); TTest; TPop; TRun 0; TCount; TPush;
          TCheck 0; TCheck 1; TTake 0; TTake 1].
  split; [|vm_compute; reflexivity].
  repeat constructor; set_solver.
Qed.



(** ** Shutdown *)

Definition is_worker (l : tlabel) : Prop :=
  match l with TTest | TPop | TRun _ | TCount | TPush => True | _ => False end.

(** The labels with which the worker handles the rest of its queue. *)
Fixpoint drain_labels (codes : bTask -> Z) (q : list (option bTask)) : list tlabel :=
  match q with
  | [] => []
  | Some t :: q' => [TTest; TPop; TRun (codes t); TCount; TPush] ++ drain_labels codes q'
  | None :: q' => [TTest; TPop] ++ drain_labels codes q'
  end.

Lemma drain_labels_worker (codes : bTask -> Z) (q : list (option bTask)) :
  Forall is_worker (drain_labels codes q) /\ (length (drain_labels codes q) <= 5 * length q)%nat.
Proof.
  induction q as [|[t|] q [IH1 IH2]]; cbn -[Nat.mul]; [split; [constructor|lia]|..].
  all: split; [by repeat constructor|lia].
Qed.

Lemma run_task (t : bTask) (code : Z) (q : list (option bTask)) (r : bool) (cq : list cmplEv)
    (cnt : Z) (cm : gset nat) (h : thist) :
  steps thread_step [TTest; TPop; TRun code; TCount; TPush]
    (mk_cThread TLoop r (Some t :: q) cq cnt cm, h) =
  Next (mk_cThread TLoop r q (cq ++ [(tid t, code)]) (sext 32 (cnt + 1)) cm,
        mk_thist (h_sub h) (h_ran h ++ [(t, code)]) (h_got h)).
Proof. by destruct r. Qed.

Lemma drop_null (q : list (option bTask)) (r : bool) (cq : list cmplEv) (cnt : Z) (cm : gset nat)
    (h : thist) :
  steps thread_step [TTest; TPop] (mk_cThread TLoop r (None :: q) cq cnt cm, h) =
  Next (mk_cThread TLoop r q cq cnt cm, h).
Proof. by destruct r. Qed.

Lemma drain_labels_run (codes : bTask -> Z) (q : list (option bTask)) (r : bool) (cq : list cmplEv)
    (cnt : Z) (cm : gset nat) (h : thist) :
  exists cnt',
    steps thread_step (drain_labels codes q) (mk_cThread TLoop r q cq cnt cm, h) =
    Next (mk_cThread TLoop r [] (cq ++ ((fun t => (tid t, codes t)) <$> omap id q)) cnt' cm,
          mk_thist (h_sub h) (h_ran h ++ ((fun t => (t, codes t)) <$> omap id q)) (h_got h)).
Proof.
  revert cq cnt h. induction q as [|[t|] q IH]; intros cq cnt h.
  - exists cnt. cbn. rewrite !app_nil_r. by destruct h.
  - destruct (IH (cq ++ [(tid t, codes t)]) (sext 32 (cnt + 1))
      (mk_thist (h_sub h) (h_ran h ++ [(t, codes t)]) (h_got h))) as [cnt' IH'].
    exists cnt'. cbn [drain_labels]. rewrite (steps_app _ _ _ _ _ (run_task _ _ _ _ _ _ _ _)), IH'.
    cbn [h_sub h_ran h_got]. by rewrite <- !app_assoc.
  - destruct (IH cq cnt h) as [cnt' IH']. exists cnt'. cbn [drain_labels].
    by rewrite (steps_app _ _ _ _ _ (drop_null _ _ _ _ _ _)), IH'.
Qed.

(** The worker finishes what it is doing. *)
Definition finish_labels (codes : bTask -> Z) (p : tpc) (q : list (option bTask)) : list tlabel :=
  match p with
  | TLoop | TExited => []
  | TEnter =>
      match q with
      | Some t :: _ => [TPop; TRun (codes t); TCount; TPush]
      | _ => [TPop]
      end
  | TTaken t => [TRun (codes t); TCount; TPush]
  | TRan _ _ => [TCount; TPush]
  | TCounted _ _ => [TPush]
  end.

Lemma finish_labels_run (codes : bTask -> Z) (s : cThread) (h : thist) :
  th_pc s <> TExited ->
  exists q cq cnt ran,
    steps thread_step (finish_labels codes (th_pc s) (task_queue s)) (s, h) =
      Next (mk_cThread TLoop (th_run s) q cq cnt (committed s), mk_thist (h_sub h) ran (h_got h)) /\
    (length q <= length (task_queue s))%nat.
Proof.
  destruct s as [p r q cq cnt cm], h as [sub ran got]. cbn. intros Hp. destruct p; cbn -[sext].
  all: try (destruct q as [|[t'|] q]); cbn -[sext].
  all: try (do 4 eexists; split; [reflexivity|cbn; lia]).
  done. done. done.
Qed.

(** the worker drains its queue. From every reachable state in which it has
    not left the loop, its own steps alone - whatever the tasks return - bring
    it to a state in which every task handed over has run and every completion
    is published, in at most five steps per queued task and six more; when the
    destructor has cleared [run] it then leaves the loop, so joining it
    loses no task. *)
Theorem worker_drains (ls : list tlabel) (s : cThread) (h : thist) (codes : bTask -> Z) :
  steps thread_step ls thread_start = Next (s, h) -> th_pc s <> TExited ->
  exists ls' s' h',
    Forall is_worker ls' /\ (length ls' <= 5 * length (task_queue s) + 6)%nat /\
    steps thread_step ls' (s, h) = Next (s', h') /\
    task_queue s' = [] /\ h_sub h' = h_sub h /\ (h_ran h').*1 = h_sub h /\
    completion <$> h_ran h' = h_got h ++ cmpl_queue s' /\
    (th_run s = false -> th_pc s' = TExited).
Proof.
  intros Hls Hp.
  destruct (finish_labels_run codes s h Hp) as (q & cq & cnt & ran & Hfin & Hq).
  destruct (drain_labels_run codes q (th_run s) cq cnt (committed s) (mk_thist (h_sub h) ran (h_got h)))
    as [cnt' Hdr].
  destruct (drain_labels_worker codes q) as [Hw Hlen].
  set (s1 := mk_cThread TLoop (th_run s) [] _ cnt' (committed s)) in Hdr.
  set (h1 := mk_thist _ _ _) in Hdr at 2.
  set (s2 := if th_run s then s1 else th_set_pc TExited s1).
  set (l3 := if th_run s then [] else [TTest]).
  assert (steps thread_step l3 (s1, h1) = Next (s2, h1)) as Hl3.
  { unfold l3, s2, s1. by destruct (th_run s). }
  pose proof (steps_app thread_step _ (drain_labels codes q ++ l3) _ _ Hfin) as H1.
  rewrite (steps_app thread_step _ l3 _ _ Hdr), Hl3 in H1.
  pose proof (steps_app thread_step ls (finish_labels codes (th_pc s) (task_queue s) ++
    drain_labels codes q ++ l3) _ _ Hls) as H2. rewrite H1 in H2.
  apply ThreadInv_steps in H2. cbn [fst snd] in H2.
  assert (hand (th_pc s2) = [] /\ flight (th_pc s2) = [] /\ task_queue s2 = [] /\
    cmpl_queue s2 = cmpl_queue s1) as (E1 & E2 & E3 & E4).
  { unfold s2. by destruct (th_run s). }
  destruct H2 as [I1 I2 _]. rewrite E1, E3 in I1. cbn [omap list_omap app] in I1.
  rewrite app_nil_r in I1. rewrite E2, app_nil_r in I2.
  eexists _, s2, h1. split; [|split; [|split; [exact H1|]]].
  - apply Forall_app. split; [|apply Forall_app; split; [done|]].
    + destruct (th_pc s); cbn; try by repeat constructor.
      destruct (task_queue s) as [|[]]; by repeat constructor.
    + unfold l3. destruct (th_run s); by repeat constructor.
  - rewrite !length_app.
    assert (length (finish_labels codes (th_pc s) (task_queue s)) <= 4)%nat
      by (destruct (th_pc s); cbn; try lia; destruct (task_queue s) as [|[]]; cbn; lia).
    assert (length l3 <= 1)%nat by (unfold l3; destruct (th_run s); cbn; lia). lia.
  - split; [done|]. split; [done|]. split; [by symmetry|].
    split; [done|]. unfold s2. intros Hr. by rewrite Hr.
Qed.

Lemma worker_drains_witness :
  let s := mk_cThread (TTaken (demo_task 1)) false [None; Some (demo_task 2)] [] 0 ∅ in
  let h := mk_thist [demo_task 1; demo_task 2] [] [] in
  exists ls' s' h',
    Forall is_worker ls' /\ (length ls' <= 5 * 2 + 6)%nat /\
    steps thread_step ls' (s, h) = Next (s', h') /\
    task_queue s' = [] /\ h_sub h' = h_sub h /\ (h_ran h').*1 = h_sub h /\
    completion <$> h_ran h' = h_got h ++ cmpl_queue s' /\
    (th_run s = false -> th_pc s' = TExited).
Proof.
  intros s h.
  apply (worker_drains [TSchedule (Some (demo_task 1)); TSchedule None; TTest; TPop;
    TSchedule (Some (demo_task 2)); TStop] s h tid).
  - vm_compute. reflexivity.
  - discriminate.
Defined.
