(* ===== verification/CArbiter.v ===== *)
(** The arbiter, [src/sw/include/cArbiter.hpp] and [src/sw/src/cArbiter.cpp]: a
    set of threads and a worker that hands each queued task to the thread with
    the fewest queued tasks.  The threads are those of [CThread] and run
    interleaved with the arbiter; the sizes are read one after the other,
    without a lock. *)

From stdpp Require Import base numbers list gmap strings.
From Stdlib Require Import ZArith Lia.
From S2P Require Import Prelude CThread.

Local Open Scope Z_scope.

Definition INT32_MAX : Z := 2 ^ 31 - 1.

(** Where [processRequests] is: at the loop test, past it, in the search for
    the shortest queue with the threads still to visit, or done. *)
Inductive apc : Type :=
| ALoop
| AEnter
| AScan (t : bTask) (rest : list Z) (min min_id : Z)
| AExited.

Record cArbiter : Type := mk_cArbiter {
  ar_pc : apc;
  ar_run : bool;
  requests : list (option bTask);
  cthreads : gmap Z (cThread * thist)
}.

Definition ar_set_pc (p : apc) (s : cArbiter) : cArbiter :=
  mk_cArbiter p (ar_run s) (requests s) (cthreads s).
Definition ar_set_threads (m : gmap Z (cThread * thist)) (s : cArbiter) : cArbiter :=
  mk_cArbiter (ar_pc s) (ar_run s) (requests s) m.

(** [getSize] *)
Definition getSize (t : cThread * thist) : Z := Z.of_nat (length (task_queue (fst t))).

(** One turn of the search: the [size_t] is compared with the [int32_t] minimum
    converted to [size_t], and stored back into it. *)
Definition scan_one (id size min min_id : Z) : Z * Z :=
  if size <? u64 min then (sext 32 size, id) else (min, min_id).

Inductive alabel : Type :=
| ASubmit (t : option bTask)          (* scheduleTask *)
| AStop                               (* the destructor's run = false *)
| ATest                               (* the while condition *)
| APop (order : list Z)               (* under mtx; the order the map is iterated in *)
| ARead                               (* the next thread's size *)
| ADispatch                           (* cthreads[min_id]->scheduleTask *)
| AThread (ctid : Z) (l : tlabel)     (* a step of a thread *)
| AAdd (ctid : Z)                     (* addCThread *)
| ARemove (ctid : Z).                 (* removeCThread, once the thread is joined *)

Definition arbiter_step (l : alabel) (s : cArbiter) : step_result cArbiter :=
  match l, ar_pc s with
  | ASubmit t, _ =>
      Next (mk_cArbiter (ar_pc s) (ar_run s) (requests s ++ [t]) (cthreads s))
  | AStop, _ => Next (mk_cArbiter (ar_pc s) false (requests s) (cthreads s))
  | ATest, ALoop =>
      if ar_run s || negb (bool_decide (requests s = [])) then Next (ar_set_pc AEnter s)
      else Next (ar_set_pc AExited s)
  | APop order, AEnter =>
      match requests s with
      | Some t :: q =>
          if bool_decide (order ≡ₚ (map_to_list (cthreads s)).*1) then
            Next (mk_cArbiter (AScan t order INT32_MAX 0) (ar_run s) q (cthreads s))
          else Blocked
      | None :: q => Next (mk_cArbiter ALoop (ar_run s) q (cthreads s))
      | [] => Next (ar_set_pc ALoop s)
      end
  | ARead, AScan t (ctid :: rest) min min_id =>
      match cthreads s !! ctid with
      | Some th =>
          let '(m, i) := scan_one ctid (getSize th) min min_id in
          Next (ar_set_pc (AScan t rest m i) s)
      | None => StepUndef "iterator to an erased element"
      end
  | ADispatch, AScan t [] _ min_id =>
      match cthreads s !! min_id with
      | Some (th, h) =>
          Next (ar_set_pc ALoop (ar_set_threads
            (<[min_id := (scheduleTask (Some t) th, mk_thist (h_sub h ++ [t]) (h_ran h) (h_got h))]>
               (cthreads s)) s))
      | None => StepUndef "null pointer dereference"
      end
  | AThread ctid l, _ =>
      match cthreads s !! ctid with
      | Some th =>
          match thread_step l th with
          | Next th' => Next (ar_set_threads (<[ctid := th']> (cthreads s)) s)
          | Blocked => Blocked
          | StepUndef e => StepUndef e
          end
      | None => Blocked
      end
  | AAdd ctid, _ =>
      match cthreads s !! u32 ctid with
      | None => Next (ar_set_threads (<[u32 ctid := thread_start]> (cthreads s)) s)
      | Some _ => Next s
      end
  | ARemove ctid, _ =>
      match cthreads s !! u32 ctid with
      | Some (th, _) =>
          match th_pc th with
          | TExited => Next (ar_set_threads (delete (u32 ctid) (cthreads s)) s)
          | _ => Blocked
          end
      | None => Next s
      end
  | _, _ => Blocked
  end.

(** After [start]. *)
Definition arbiter_start : cArbiter := mk_cArbiter ALoop true [] ∅.

(** ** The thread that is chosen *)

Definition sizes_fit (m : gmap Z (cThread * thist)) : Prop :=
  map_Forall (fun _ th => getSize th < INT32_MAX) m.

Lemma scan_one_spec (id size min min_id : Z) :
  0 <= size < INT32_MAX -> 0 <= min <= INT32_MAX ->
  scan_one id size min min_id = if size <? min then (size, id) else (min, min_id).
Proof.
  unfold scan_one, INT32_MAX. intros Hs Hm.
  rewrite (wrap_small 64 min) by (unfold fits; lia).
  destruct (size <? min); [|done]. unfold sext. rewrite wrap_small by (unfold fits; lia).
  by replace (size <? 2 ^ (32 - 1)) with true by lia.
Qed.

(** The search, with nothing in between: the chosen thread is one of those
    visited and none of them has fewer tasks. *)
Lemma scan_run (t : bTask) (order : list Z) (r : bool) (q : list (option bTask))
    (m : gmap Z (cThread * thist)) (min min_id : Z) :
  sizes_fit m -> 0 <= min <= INT32_MAX -> (forall i, i ∈ order -> is_Some (m !! i)) ->
  exists min' id',
    steps arbiter_step (repeat ARead (length order)) (mk_cArbiter (AScan t order min min_id) r q m) =
      Next (mk_cArbiter (AScan t [] min' id') r q m) /\
    0 <= min' <= min /\
    (forall i th, i ∈ order -> m !! i = Some th -> min' <= getSize th) /\
    ((id' = min_id /\ min' = min) \/
     (exists th, id' ∈ order /\ m !! id' = Some th /\ getSize th = min')).
Proof.
  intros Hfit. revert min min_id. induction order as [|i order IH]; intros min min_id Hmin Hin.
  - exists min, min_id. split; [done|]. split; [lia|]. split; [|by left].
    intros i th Hi. by apply elem_of_nil in Hi.
  - destruct (Hin i ltac:(left)) as [th Hth].
    pose proof (Hfit _ _ Hth) as Hsz. cbv beta in Hsz.
    assert (0 <= getSize th) as Hpos by (unfold getSize; lia).
    cbn [length repeat steps arbiter_step ar_pc cthreads]. rewrite Hth, scan_one_spec by lia.
    destruct (Z.ltb_spec (getSize th) min) as [Hlt|Hge].
    + destruct (IH (getSize th) i) as (min' & id' & Hrun & Hb & Hall & Hid);
        [lia|intros j Hj; apply Hin; by right|].
      exists min', id'. split; [exact Hrun|]. split; [lia|]. split.
      * intros j thj [->|Hj]%elem_of_cons Hthj; [rewrite Hth in Hthj; injection Hthj as <-; lia|by eapply Hall].
      * right. destruct Hid as [[-> ->]|(th' & H1 & H2 & H3)].
        -- exists th. split; [by left|done].
        -- exists th'. split; [by right|done].
    + destruct (IH min min_id) as (min' & id' & Hrun & Hb & Hall & Hid);
        [lia|intros j Hj; apply Hin; by right|].
      exists min', id'. split; [exact Hrun|]. split; [lia|]. split.
      * intros j thj [->|Hj]%elem_of_cons Hthj; [rewrite Hth in Hthj; injection Hthj as <-; lia|by eapply Hall].
      * destruct Hid as [?|(th' & H1 & H2 & H3)]; [by left|right].
        exists th'. split; [by right|done].
Qed.

(** a task goes to a thread with the fewest queued tasks, whatever the
    order in which the map is visited, and only that thread's queue changes; if
    the arbiter has no thread when a task arrives, it dereferences a null
    pointer. *)
Theorem arbiter_least_loaded (s : cArbiter) (t : bTask) (q : list (option bTask)) (order : list Z) :
  ar_pc s = AEnter -> requests s = Some t :: q -> order ≡ₚ (map_to_list (cthreads s)).*1 ->
  sizes_fit (cthreads s) ->
  let ls := APop order :: repeat ARead (length order) ++ [ADispatch] in
  (cthreads s <> ∅ -> exists ctid th h,
    cthreads s !! ctid = Some (th, h) /\
    (forall i th', cthreads s !! i = Some th' -> getSize (th, h) <= getSize th') /\
    steps arbiter_step ls s =
      Next (mk_cArbiter ALoop (ar_run s) q
        (<[ctid := (scheduleTask (Some t) th, mk_thist (h_sub h ++ [t]) (h_ran h) (h_got h))]>
           (cthreads s)))) /\
  (cthreads s = ∅ -> steps arbiter_step ls s = StepUndef "null pointer dereference").
Proof.
  intros Hpc Hq Hord Hfit ls. subst ls. destruct s as [p r rq m]. cbn in *. subst p rq.
  assert (forall i, i ∈ order <-> is_Some (m !! i)) as Hmem.
  { intros i. rewrite Hord, list_elem_of_fmap. split.
    - intros ([j th] & -> & Hj). apply elem_of_map_to_list in Hj. by exists th.
    - intros [th Hth]. exists (i, th). split; [done|]. by apply elem_of_map_to_list. }
  rewrite bool_decide_true by done.
  destruct (scan_run t order r q m INT32_MAX 0 Hfit) as (min' & id' & Hrun & _ & Hall & Hid);
    [unfold INT32_MAX; lia|intros i; apply Hmem|].
  rewrite (steps_app _ _ [ADispatch] _ _ Hrun). cbn [steps arbiter_step ar_pc cthreads].
  split.
  - intros Hne. destruct Hid as [[-> ->]|((th & h) & Hin & Hth & Hsz)].
    + destruct (map_choose m Hne) as (i & th & Hth).
      pose proof (Hall i th (proj2 (Hmem i) (ex_intro _ _ Hth)) Hth).
      pose proof (Hfit _ _ Hth). cbn in *. lia.
    + exists id', th, h. split; [done|]. rewrite Hth. split; [|done].
      intros i th' Hth'. rewrite Hsz. eapply Hall; [by apply Hmem; eexists|done].
  - intros ->. by rewrite lookup_empty.
Qed.

Lemma arbiter_least_loaded_witness :
  let th n := (mk_cThread TLoop true (repeat (Some (demo_task 0)) n) [] 0 ∅, mk_thist [] [] []) in
  let m : gmap Z (cThread * thist) := {[ 0 := th 2%nat; 4 := th 1%nat; 9 := th 3%nat ]} in
  let s := mk_cArbiter AEnter true [Some (demo_task 5)] m in
  let order := (map_to_list m).*1 in
  let ls := APop order :: repeat ARead (length order) ++ [ADispatch] in
  (cthreads s <> ∅ -> exists ctid th h,
    cthreads s !! ctid = Some (th, h) /\
    (forall i th', cthreads s !! i = Some th' -> getSize (th, h) <= getSize th') /\
    steps arbiter_step ls s =
      Next (mk_cArbiter ALoop (ar_run s) []
        (<[ctid := (scheduleTask (Some (demo_task 5)) th,
                    mk_thist (h_sub h ++ [demo_task 5]) (h_ran h) (h_got h))]> (cthreads s)))) /\
  (cthreads s = ∅ -> steps arbiter_step ls s = StepUndef "null pointer dereference").
Proof.
  intros th m s order.
  apply (arbiter_least_loaded s (demo_task 5) [] order); [done|done|done|].
  unfold sizes_fit, s, m. cbn [cthreads].
  repeat (apply map_Forall_insert_2; [vm_compute; reflexivity|]).
  apply map_Forall_empty.
Defined.
