(* ===== verification/CService.v ===== *)
(** The background service, [src/sw/include/cService.hpp],
    [src/sw/src/cService.cpp], and the library its clients link,
    [src/sw/include/cLib.hpp]: registration, requests and completions as the
    bytes that go over the socket, and the service's handling of them.

    The service is the record [cService]; one client is the bytes that wait to
    be read from its socket, those written to it, and its [cThread].  A [read]
    on an empty stream whose peer is connected does not return ([Spin]); one
    that finds bytes returns as many as were asked for, or all there are. *)

From stdpp Require Import base numbers list gmap strings.
From Stdlib Require Import ZArith Lia.
From S2P Require Import Prelude CoyoteDefs CThread.

Local Open Scope Z_scope.

(** ** The client library *)

(** [cLib::cLib]: the process ID. *)
Definition cLib_register (pid : Z) : list Z := le_bytes 4 pid.

(** [cLib::task]: thread and operator, payload size, payload. *)
Definition cLib_task (tid oid : Z) (args : list Z) : list Z :=
  le_bytes 4 tid ++ le_bytes 4 oid ++
  le_bytes 4 (sext 32 (Z.of_nat (length args) * 8)) ++ concat (le_bytes 8 <$> args).

(** The reading of the completion: the second half, if both are there. *)
Definition cLib_completion (bytes : list Z) : option (Z * Z) :=
  if decide (length bytes < 8)%nat then None
  else Some (sext 32 (le_val (take 4 bytes)), sext 32 (le_val (take 4 (drop 4 bytes)))).

(** [cLib::~cLib] writes four bytes from the one-byte [opcode]; the other three
    are those of the member behind it, [recv_buff]. *)
Definition cLib_close (recv_buff : list Z) : list Z := take 4 (u8 defOpClose :: recv_buff).

(** ** The service *)
Record client : Type := mk_client {
  c_pid : Z;
  c_in : list Z;
  c_connected : bool;
  c_out : list Z;
  c_thread : cThread
}.

Record cService : Type := mk_cService {
  clients : gmap Z client;
  (** the function registered for an operator *)
  task_map : gmap Z Z;
  sv_bstreams : gset Z;
  reconfigurable : bool
}.

Definition sv_set_clients (m : gmap Z client) (s : cService) : cService :=
  mk_cService m (task_map s) (sv_bstreams s) (reconfigurable s).

Abbreviation V := (M cService).

Definition set_in (b : list Z) (c : client) : client :=
  mk_client (c_pid c) b (c_connected c) (c_out c) (c_thread c).
Definition set_thread (t : cThread) (c : client) : client :=
  mk_client (c_pid c) (c_in c) (c_connected c) (c_out c) t.

(** [read(connfd, recv_buf, n)]; asking for nothing returns at once. *)
Definition sock_read (connfd n : Z) : V (list Z) :=
  cs ← gets clients;
  match cs !! connfd with
  | None => mret []
  | Some c =>
      if n =? 0 then mret []
      else if decide (c_in c = []) then (if c_connected c then spin else mret [])
      else
        modify (fun s => sv_set_clients (<[connfd := set_in (drop (Z.to_nat n) (c_in c)) c]> (clients s)) s) ;;
        mret (take (Z.to_nat n) (c_in c))
  end.

Definition addTask (oid task : Z) : V unit :=
  m ← gets task_map;
  match m !! oid with
  | Some _ => skip
  | None =>
      modify (fun s => mk_cService (clients s) (<[oid := task]> (task_map s)) (sv_bstreams s)
                         (reconfigurable s))
  end.

(** [removeTask] erases from the bitstreams. *)
Definition removeTask (oid : Z) : V unit :=
  modify (fun s => mk_cService (clients s) (task_map s) (sv_bstreams s ∖ {[oid]}) (reconfigurable s)).

(** [accept_connection] with a new descriptor; a short registration leaves the
    process ID at 0. *)
Definition accept_connection (connfd : Z) (bytes : list Z) (connected : bool) : V unit :=
  if decide (bytes = []) then (if connected then spin else
    modify (fun s =>
      match clients s !! connfd with
      | Some _ => s
      | None => sv_set_clients (<[connfd := mk_client 0 [] connected [] cThread_init]> (clients s)) s
      end))
  else
    let rpid := if decide (4 <= length bytes)%nat then sext 32 (le_val (take 4 bytes)) else 0 in
    modify (fun s =>
      match clients s !! connfd with
      | Some _ => s
      | None =>
          sv_set_clients (<[connfd := mk_client rpid (drop 4 bytes) connected [] cThread_init]>
            (clients s)) s
      end).

(** The 64-bit words of a payload. *)
Fixpoint words64 (n : nat) (b : list Z) : list Z :=
  match n with O => [] | S n' => le_val (take 8 b) :: words64 n' (drop 8 b) end.

(** A payload was read: [recv_buf] has [recvBuffSize] bytes, and the vector has
    room for whole words only. *)
Definition queue_task (connfd tid opcode msg_size : Z) (b : list Z) : V unit :=
  if decide (recvBuffSize < Z.of_nat (length b)) then undef "recv_buf overflow"
  else if decide (Z.of_nat (length b) = msg_size) then
    if decide (msg_size mod 8 <> 0) then undef "msg overflow"
    else
      let msg := words64 (Z.to_nat (msg_size / 8)) b in
      tm ← gets task_map;
      match tm !! opcode with
      | None => undef "dereference of end()"
      | Some fn =>
          modify (fun s =>
            match clients s !! connfd with
            | Some c =>
                sv_set_clients (<[connfd :=
                  set_thread (scheduleTask (Some (mk_bTask tid opcode 1 fn msg)) (c_thread c)) c]>
                  (clients s)) s
            | None => s
            end)
      end
  else skip.

Definition receive_task (connfd tid opcode : Z) : V unit :=
  b ← sock_read connfd 4;
  if decide (length b = 4%nat) then
    let msg_size := sext 32 (le_val b) in
    b ← sock_read connfd (u64 msg_size);
    queue_task connfd tid opcode msg_size b
  else skip.

(** One turn of [process_requests] for the client the loop stands on.  An
    unknown operator is reported to the log only. *)
Definition process_request (connfd : Z) : V unit :=
  b ← sock_read connfd 8;
  if decide (length b = 8%nat) then
    let tid := sext 32 (le_val (take 4 b)) in
    let opcode := sext 32 (le_val (drop 4 b)) in
    if decide (opcode = defOpClose) then
      modify (fun s => sv_set_clients (delete connfd (clients s)) s)
    else receive_task connfd tid opcode
  else skip.

(** One round of the loop over [clients], in some order of the map. *)
Fixpoint process_requests (order : list Z) : V unit :=
  match order with
  | [] => skip
  | connfd :: order' =>
      process_request connfd ;;
      cs ← gets clients;
      if decide (cs !! connfd = None) then undef "increment of an iterator to an erased element"
      else process_requests order'
  end.

(** One turn of [process_responses]: a completion is written unless its thread
    number is -1. *)
Definition process_response (connfd : Z) : V unit :=
  modify (fun s =>
    match clients s !! connfd with
    | None => s
    | Some c =>
        match cmpl_queue (c_thread c) with
        | [] => s
        | (t, code) :: q =>
            let c' := set_thread (th_set_cmpl q (c_thread c)) c in
            let out := if decide (t = -1) then [] else le_bytes 4 t ++ le_bytes 4 code in
            sv_set_clients (<[connfd :=
              mk_client (c_pid c') (c_in c') (c_connected c') (c_out c' ++ out) (c_thread c')]>
              (clients s)) s
        end
    end).

(** ** Bytes and words *)

Lemma concat_le_bytes_length (l : list Z) : length (concat (le_bytes 8 <$> l)) = (8 * length l)%nat.
Proof.
  induction l as [|x l IH]; [done|]. cbn [fmap list_fmap concat].
  rewrite length_app, length_le_bytes, IH. cbn [length]. lia.
Qed.

Lemma words64_concat (l rest : list Z) :
  Forall (fits 64) l -> words64 (length l) (concat (le_bytes 8 <$> l) ++ rest) = l.
Proof.
  induction l as [|x l IH]; intros Hl; [done|]. apply Forall_cons in Hl as [Hx Hl].
  cbn [length words64 fmap list_fmap concat]. rewrite <- app_assoc.
  rewrite take_app_length', drop_app_length' by (by rewrite length_le_bytes).
  rewrite le_val_bytes, wrap_small by done. by rewrite IH.
Qed.

(** [x] fits a signed [w]-bit variable. *)
Definition sfits (w x : Z) : Prop := - 2 ^ (w - 1) <= x < 2 ^ (w - 1).

Lemma sext_wrap (w x : Z) : 0 < w -> sext w (wrap w x) = sext w x.
Proof. intros. unfold sext. by rewrite wrap_wrap by lia. Qed.

Lemma sext_small (w x : Z) : 0 < w -> sfits w x -> sext w x = x.
Proof.
  intros Hw Hx. unfold sext, sfits in *.
  assert (2 ^ w = 2 * 2 ^ (w - 1)) as Hp.
  { rewrite <- Z.pow_succ_r by lia. f_equal. lia. }
  destruct (Z.leb_spec 0 x).
  - rewrite wrap_small by (unfold fits; lia). by replace (x <? 2 ^ (w - 1)) with true by lia.
  - assert (wrap w x = x + 2 ^ w) as ->.
    { unfold wrap. rewrite <- (Z_mod_plus_full x 1), Z.mod_small by lia. lia. }
    replace (x + 2 ^ w <? 2 ^ (w - 1)) with false by lia. lia.
Qed.

Lemma sext_le_bytes (x : Z) : sfits 32 x -> sext 32 (le_val (le_bytes 4 x)) = x.
Proof. intros Hx. rewrite le_val_bytes, sext_wrap, sext_small by (done || lia). done. Qed.

(** ** A request *)

(** Reading a message that is there. *)
Lemma run_sock_read (connfd n : Z) (msg rest : list Z) (c : client) (s : cService) :
  clients s !! connfd = Some c -> c_in c = msg ++ rest -> Z.of_nat (length msg) = n -> 0 <= n ->
  sock_read connfd n s =
    (Ret msg, sv_set_clients (<[connfd := set_in rest c]> (clients s)) s).
Proof.
  intros Hc Hin Hn H0. unfold sock_read, mbind, M_bind, gets. rewrite Hc.
  destruct (Z.eqb_spec n 0) as [->|Hne].
  - destruct msg; [|cbn in Hn; lia]. cbn in Hin. cbn. f_equal. subst rest.
    destruct s as [cl tm bs rc]. unfold sv_set_clients. cbn in *. f_equal.
    rewrite insert_id; [done|]. by destruct c.
  - rewrite decide_False by (rewrite Hin; destruct msg; cbn in *; [lia|done]).
    cbn [modify]. rewrite Hin, take_app_length', drop_app_length' by lia. done.
Qed.

(** The three reads of a request the library sent, up to the handling of its
    payload. *)
Lemma run_request (connfd tid oid : Z) (args rest : list Z) (c : client) (s : cService) :
  clients s !! connfd = Some c -> c_in c = cLib_task tid oid args ++ rest ->
  sfits 32 tid -> sfits 32 oid -> oid <> defOpClose -> Z.of_nat (length args) < 2 ^ 20 ->
  process_request connfd s =
    queue_task connfd tid oid (Z.of_nat (length args) * 8) (concat (le_bytes 8 <$> args))
      (sv_set_clients (<[connfd := set_in rest c]> (clients s)) s).
Proof.
  intros Hc Hin Htid Hoid Hne Hlen. unfold cLib_task in Hin.
  rewrite (app_assoc (le_bytes 4 tid)), <- !app_assoc, (app_assoc (le_bytes 4 tid)) in Hin.
  set (n := Z.of_nat (length args) * 8) in *.
  assert (sext 32 n = n) as Hn by (apply sext_small; [lia | unfold sfits; lia]).
  unfold process_request, mbind, M_bind.
  rewrite (run_sock_read connfd 8 (le_bytes 4 tid ++ le_bytes 4 oid) _ c) by (done || rewrite ?Hin; reflexivity).
  rewrite decide_True, take_app_length', drop_app_length', !sext_le_bytes by done.
  rewrite decide_False by done. unfold receive_task, mbind, M_bind.
  set (c1 := set_in _ c). set (s1 := sv_set_clients (<[connfd := c1]> _) s).
  rewrite (run_sock_read connfd 4 (le_bytes 4 (sext 32 n)) (concat (le_bytes 8 <$> args) ++ rest) c1)
    by (cbn; rewrite ?lookup_insert_eq; done || lia).
  rewrite decide_True by done. rewrite Hn, sext_le_bytes by (unfold sfits; lia).
  set (c2 := set_in _ c1). set (s2 := sv_set_clients _ s1).
  rewrite (wrap_small 64 n) by (unfold fits; lia).
  rewrite (run_sock_read connfd n (concat (le_bytes 8 <$> args)) rest c2)
    by (cbn; rewrite ?lookup_insert_eq, ?concat_le_bytes_length; done || lia).
  subst s2 s1 c2 c1. unfold sv_set_clients. cbn [clients task_map sv_bstreams reconfigurable].
  by rewrite !insert_insert_eq.
Qed.

(** The task a request asks for. *)
Definition request_task (tid oid fn : Z) (args : list Z) : bTask := mk_bTask tid oid 1 fn args.

(** a request sent by the client library for a registered operator - any
    thread number, any operator but the reserved 0, up to 128 arguments - is
    turned into exactly one task with these arguments, queued on the thread of
    that client; the bytes of the request are consumed, those behind it and
    every other client are untouched. *)
Theorem request_scheduled (connfd tid oid fn : Z) (args rest : list Z) (c : client) (s : cService) :
  clients s !! connfd = Some c -> c_in c = cLib_task tid oid args ++ rest ->
  task_map s !! oid = Some fn -> sfits 32 tid -> sfits 32 oid -> oid <> defOpClose ->
  (length args <= 128)%nat -> Forall (fits 64) args ->
  process_request connfd s =
    (Ret tt, sv_set_clients (<[connfd :=
       set_thread (scheduleTask (Some (request_task tid oid fn args)) (c_thread c)) (set_in rest c)]>
       (clients s)) s).
Proof.
  intros Hc Hin Hfn Htid Hoid Hne Hlen Hargs.
  rewrite (run_request connfd tid oid args rest c s Hc Hin Htid Hoid Hne) by lia.
  unfold queue_task. rewrite concat_le_bytes_length. unfold recvBuffSize.
  rewrite decide_False by lia. rewrite decide_True by lia.
  rewrite decide_False by (rewrite Z.mod_mul by lia; lia).
  unfold mbind, M_bind, gets, modify. cbn [task_map sv_set_clients clients]. rewrite Hfn.
  cbn [clients sv_set_clients]. rewrite lookup_insert_eq.
  unfold sv_set_clients. cbn [clients task_map sv_bstreams reconfigurable].
  rewrite insert_insert_eq, Z.div_mul, Nat2Z.id by lia.
  rewrite <- (app_nil_r (concat _)), words64_concat by done. done.
Qed.

Definition demo_client (b : list Z) : client := mk_client 77 b true [] cThread_init.
Definition demo_service (b : list Z) : cService :=
  mk_cService {[ 5 := demo_client b ]} {[ 9 := 3 ]} ∅ false.

Lemma request_scheduled_witness :
  process_request 5 (demo_service (cLib_task 12 9 [1; 2 ^ 63])) =
    (Ret tt, sv_set_clients (<[5 :=
       set_thread (scheduleTask (Some (request_task 12 9 3 [1; 2 ^ 63])) cThread_init)
         (set_in [] (demo_client (cLib_task 12 9 [1; 2 ^ 63])))]>
       {[ 5 := demo_client (cLib_task 12 9 [1; 2 ^ 63]) ]})
       (demo_service (cLib_task 12 9 [1; 2 ^ 63]))).
Proof.
  apply (request_scheduled 5 12 9 3 [1; 2 ^ 63] [] (demo_client (cLib_task 12 9 [1; 2 ^ 63]))).
  - reflexivity.
  - reflexivity.
  - reflexivity.
  - unfold sfits; lia.
  - unfold sfits; lia.
  - discriminate.
  - cbn; lia.
  - repeat constructor; unfold fits; lia.
Defined.

(** ** A completion *)

(** a completion taken from a client's thread is written to that client and
    read back by the library as the same thread number and code; only a task
    numbered -1 completes without its client ever hearing of it. *)
Theorem completion_returned (connfd t code : Z) (q : list cmplEv) (c : client) (s : cService) :
  clients s !! connfd = Some c -> cmpl_queue (c_thread c) = (t, code) :: q ->
  sfits 32 t -> sfits 32 code ->
  exists s' c', process_response connfd s = (Ret tt, s') /\
    clients s' = <[connfd := c']> (clients s) /\ c_in c' = c_in c /\
    c_thread c' = th_set_cmpl q (c_thread c) /\
    (t <> -1 -> exists m, c_out c' = c_out c ++ m /\ cLib_completion m = Some (t, code)) /\
    (t = -1 -> c_out c' = c_out c).
Proof.
  intros Hc Hq Ht Hcode. unfold process_response, modify. cbv beta. rewrite Hc, Hq.
  eexists _, _. split; [reflexivity|]. split; [reflexivity|]. cbn [c_in c_thread c_out set_thread].
  split; [done|]. split; [done|]. split.
  - intros Hne. exists (le_bytes 4 t ++ le_bytes 4 code). rewrite decide_False by done.
    split; [done|]. unfold cLib_completion. rewrite length_app, !length_le_bytes.
    cbn [Nat.add]. rewrite decide_False by lia.
    rewrite take_app_length', drop_app_length' by (by rewrite length_le_bytes).
    rewrite take_ge by (rewrite length_le_bytes; lia). by rewrite !sext_le_bytes.
  - intros ->. rewrite decide_True by done. by rewrite app_nil_r.
Qed.

Definition done_client : client :=
  mk_client 77 [] true [] (mk_cThread TLoop true [] [(12, -7); (13, 0)] 2 ∅).

Definition done_service : cService := mk_cService {[ 5 := done_client ]} ∅ ∅ false.

Lemma completion_returned_witness :
  exists s' c', process_response 5 done_service = (Ret tt, s') /\
    clients s' = <[5 := c']> (clients done_service) /\ c_in c' = c_in done_client /\
    c_thread c' = th_set_cmpl [(13, 0)] (c_thread done_client) /\
    (12 <> -1 -> exists m, c_out c' = c_out done_client ++ m /\ cLib_completion m = Some (12, -7)) /\
    (12 = -1 -> c_out c' = c_out done_client).
Proof.
  apply (completion_returned 5 12 (-7) [(13, 0)] done_client done_service).
  - reflexivity.
  - reflexivity.
  - unfold sfits; lia.
  - unfold sfits; lia.
Defined.

(** ** Requests the service does not survive *)

(** a client brings the service down. A request with more than 128 arguments
    overruns the receive buffer; one for an operator without a registered task
    - even if the task was never there - dereferences the end of the task map;
    a close request erases the client the loop stands on. The close request
    the library itself sends is too short to be taken for one, so a client that
    goes away stays registered. *)
Theorem service_requests_undefined (connfd tid oid : Z) (args rest : list Z) (c : client)
    (s : cService) (order : list Z) :
  clients s !! connfd = Some c ->
  (c_in c = cLib_task tid oid args ++ rest -> sfits 32 tid -> sfits 32 oid -> oid <> defOpClose ->
   128 < Z.of_nat (length args) < 2 ^ 20 ->
   fst (process_request connfd s) = Undef "recv_buf overflow") /\
  (c_in c = cLib_task tid oid args ++ rest -> sfits 32 tid -> sfits 32 oid -> oid <> defOpClose ->
   (length args <= 128)%nat -> task_map s !! oid = None ->
   fst (process_request connfd s) = Undef "dereference of end()") /\
  (c_in c = le_bytes 4 tid ++ le_bytes 4 defOpClose ++ rest ->
   fst (process_requests (connfd :: order) s) = Undef "increment of an iterator to an erased element") /\
  (forall buff, (3 <= length buff)%nat -> c_in c = cLib_close buff -> c_connected c = false ->
   process_request connfd s = (Ret tt, sv_set_clients (<[connfd := set_in [] c]> (clients s)) s)).
Proof.
  intros Hc. split; [|split; [|split]].
  - intros Hin Htid Hoid Hne Hlen.
    rewrite (run_request connfd tid oid args rest c s Hc Hin Htid Hoid Hne) by lia.
    unfold queue_task. rewrite concat_le_bytes_length. unfold recvBuffSize. by rewrite decide_True by lia.
  - intros Hin Htid Hoid Hne Hlen Hfn.
    rewrite (run_request connfd tid oid args rest c s Hc Hin Htid Hoid Hne) by lia.
    unfold queue_task. rewrite concat_le_bytes_length. unfold recvBuffSize.
    rewrite decide_False by lia. rewrite decide_True by lia.
    rewrite decide_False by (rewrite Z.mod_mul by lia; lia).
    unfold mbind, M_bind, gets. cbn [task_map sv_set_clients]. by rewrite Hfn.
  - intros Hin. cbn [process_requests]. unfold process_request, mbind, M_bind.
    rewrite app_assoc in Hin.
    rewrite (run_sock_read connfd 8 (le_bytes 4 tid ++ le_bytes 4 defOpClose) rest c) by done.
    rewrite decide_True by done. rewrite drop_app_length' by done.
    rewrite sext_le_bytes by (unfold sfits, defOpClose; lia). rewrite decide_True by done.
    unfold modify, gets. cbn [clients sv_set_clients].
    by rewrite decide_True by apply lookup_delete_eq.
  - intros buff Hbuff Hin Hcon. unfold process_request, sock_read, mbind, M_bind, gets. rewrite Hc.
    change (8 =? 0) with false. cbv iota.
    destruct buff as [|b1 [|b2 [|b3 buff]]]; cbn in Hbuff; try lia. cbn in Hin. rewrite Hin.
    rewrite decide_False by done. reflexivity.
Qed.

Lemma service_requests_undefined_witness :
  fst (process_request 5 (demo_service (cLib_task 12 9 (repeat 1 129)))) = Undef "recv_buf overflow".
Proof.
  apply (service_requests_undefined 5 12 9 (repeat 1 129) [] (demo_client (cLib_task 12 9 (repeat 1 129)))
    (demo_service (cLib_task 12 9 (repeat 1 129))) []).
  - reflexivity.
  - by rewrite app_nil_r.
  - unfold sfits; lia.
  - unfold sfits; lia.
  - discriminate.
  - rewrite repeat_length. lia.
Defined.
