(* ===== verification/IbvQp.v ===== *)
(** RDMA queue pairs, [src/sw/include/ibvQpConn.hpp],
    [src/sw/src/ibvQpConn.cpp], [src/sw/include/ibvQpMap.hpp] and
    [src/sw/src/ibvQpMap.cpp]: a queue pair bound to a Coyote process and a
    connection to the remote node, and the exchange of queues between a master
    and a slave node.

    A TCP connection is the bytes that arrive on it and the bytes written to
    it; a [read] that finds fewer bytes than it asks for is short. *)

From stdpp Require Import base numbers list gmap strings.
From Stdlib Require Import ZArith Lia.
From S2P Require Import Prelude CoyoteDefs IbvStructs CProcess CProcessFacts.

Local Open Scope Z_scope.

(** ** IPv4 addresses *)

Definition is_digit (c : Z) : bool := (48 <=? c) && (c <=? 57).

Fixpoint scan_dec (acc : Z) (l : list Z) : Z * list Z :=
  match l with
  | c :: l' => if is_digit c then scan_dec (10 * acc + (c - 48)) l' else (acc, l)
  | [] => (acc, [])
  end.

(** [iss >> part]: white space, a sign, at least one digit; the value, as
    [strtoull] gives it, has to fit. *)
Definition scan_uint (l : list Z) : option (Z * list Z) :=
  let l1 := skip_space l in
  let '(neg, l2) :=
    match l1 with
    | c :: l' => if c =? 45 then (true, l') else if c =? 43 then (false, l') else (false, l1)
    | [] => (false, [])
    end in
  match l2 with
  | c :: _ =>
      if is_digit c then
        let '(v, rest) := scan_dec 0 l2 in
        let x := if (neg : bool) then u64 (- v) else v in
        if (v <? 2 ^ 64) && (x <? 2 ^ 32) then Some (x, rest) else None
      else None
  | [] => None
  end.

(** [iss >> delimiter] *)
Definition scan_char (l : list Z) : option (Z * list Z) :=
  match skip_space l with c :: l' => Some (c, l') | [] => None end.

(** The loop of [convert], [n] parts to go. *)
Fixpoint convert_parts (n : nat) (ipv4 : Z) (l : list Z) : outcome Z :=
  match n with
  | O => Ret ipv4
  | S n' =>
      match scan_uint l with
      | Some (part, l1) =>
          if 255 <? part then Throw "Invalid IP address - Expected [0, 255]"
          else
            let ipv4' := Z.lor ipv4 (u32 (Z.shiftl part (8 * Z.of_nat n'))) in
            match n' with
            | O => Ret ipv4'
            | S _ =>
                match scan_char l1 with
                | Some (c, l2) =>
                    if c =? 46 then convert_parts n' ipv4' l2
                    else Throw "Invalid IP address - Expected '.' delimiter"
                | None => Throw "Invalid IP address - Expected '.' delimiter"
                end
            end
      | None => Throw "Invalid IP address - Expected [0, 255]"
      end
  end.

Definition convert (ipv4Str : list Z) : outcome Z := convert_parts 4 0 ipv4Str.

(** ** Queue pair connections *)
Record ibvQpConn : Type := mk_ibvQpConn {
  qpair : ibvQp;
  fdev : cProcess;
  qc_pages : Z;
  connection : Z;
  is_connected : bool;
  (** the bytes that arrived on the connection, and those written to it *)
  conn_in : list Z;
  conn_out : list Z;
  conn_closed : bool
}.

Definition qc_set_qpair (q : ibvQp) (s : ibvQpConn) : ibvQpConn :=
  mk_ibvQpConn q (fdev s) (qc_pages s) (connection s) (is_connected s) (conn_in s) (conn_out s) (conn_closed s).
Definition qc_set_fdev (p : cProcess) (s : ibvQpConn) : ibvQpConn :=
  mk_ibvQpConn (qpair s) p (qc_pages s) (connection s) (is_connected s) (conn_in s) (conn_out s) (conn_closed s).
Definition qc_set_conn (c : Z) (b closed : bool) (s : ibvQpConn) : ibvQpConn :=
  mk_ibvQpConn (qpair s) (fdev s) (qc_pages s) c b (conn_in s) (conn_out s) closed.
Definition qc_set_io (i o : list Z) (s : ibvQpConn) : ibvQpConn :=
  mk_ibvQpConn (qpair s) (fdev s) (qc_pages s) (connection s) (is_connected s) i o (conn_closed s).

Abbreviation Q := (M ibvQpConn).

(** A call of the attached process. *)
Definition on_fdev {A} (m : P A) : Q A := fun s =>
  let '(r, p) := m (fdev s) in (r, qc_set_fdev p s).

Definition set_local (f : ibvQ -> ibvQ) : Q unit :=
  modify (fun s => qc_set_qpair (mk_ibvQp (id (qpair s)) (f (local (qpair s))) (remote (qpair s))) s).

(** The queue-pair number is computed with the logical [||]. *)
Definition local_qpn (vfid cpid : Z) : Z :=
  Z.b2z (negb (Z.shiftl (Z.land vfid nRegMask) pidBits =? 0) || negb (Z.land cpid pidMask =? 0)).

Section connection.
Context (env : Env) (fuel : nat).

(** [initLocalQueue]; [qp_id] is the next number of [ibvQp::curr_id] and
    [random] what the random engine yields. *)
Definition initLocalQueue (qp_id random : Z) (ip : list Z) : Q unit :=
  modify (qc_set_qpair (mk_ibvQp qp_id ibvQ_zero ibvQ_zero)) ;;
  match convert ip with
  | Ret ibv_ip_addr =>
      set_local (fun q => mk_ibvQ ibv_ip_addr (qpn q) (psn q) (rkey q) (vaddr q) (size q) (gid q)) ;;
      set_local (uintToGid 0 ibv_ip_addr) ;;
      set_local (uintToGid 8 ibv_ip_addr) ;;
      set_local (uintToGid 16 ibv_ip_addr) ;;
      set_local (uintToGid 24 ibv_ip_addr) ;;
      v ← gets (fun s => vfid (fdev s));
      c ← gets (fun s => cpid (fdev s));
      set_local (fun q => mk_ibvQ (ip_addr q) (local_qpn v c) (psn q) (rkey q) (vaddr q) (size q) (gid q)) ;;
      n ← gets (fun s => qpn (local (qpair s)));
      if n =? u32 (-1) then throw "Coyote PID incorrect"
      else
        set_local (fun q => mk_ibvQ (ip_addr q) (qpn q) (Z.land random 0xFFFFFF) 0 (vaddr q) (size q) (gid q)) ;;
        pages ← gets qc_pages;
        a ← on_fdev (getMem env (mk_csAlloc HUGE_2M pages));
        set_local (fun q => mk_ibvQ (ip_addr q) (qpn q) (psn q) (rkey q) (u64 a) (u32 (pages * hugePageSize)) (gid q))
  | Throw e => throw e
  | Undef e => undef e
  | Spin => spin
  end.

Definition setConnection (c : Z) : Q unit := modify (qc_set_conn c true false).

Definition closeConnection : Q unit :=
  modify (fun s => if is_connected s then qc_set_conn (connection s) false true s else s).

Definition writeContext (port : Z) : Q unit :=
  q ← gets qpair;
  on_fdev (writeQpContext env q) ;; on_fdev (writeConnContext env q (u16 port)).

Definition qc_doArpLookup : Q unit :=
  q ← gets qpair; on_fdev (doArpLookup env (ip_addr (remote q))).

Definition qc_ibvPostSend (wr : ibvSendWr) : Q unit :=
  c ← gets is_connected;
  if negb (c : bool) then throw "Queue pair not connected"
  else q ← gets qpair; on_fdev (ibvPostSend env fuel q wr).

Definition ibvDone : Q Z := on_fdev (checkCompleted env WRITE).
Definition ibvSent : Q Z := on_fdev (checkCompleted env READ).
Definition ibvClear : Q unit := on_fdev clearCompleted.

Definition readAck : Q Z :=
  i ← gets conn_in;
  if decide (length i < 4)%nat then
    modify (fun s => qc_set_conn (connection s) (is_connected s) true (qc_set_io [] (conn_out s) s)) ;;
    throw "Could not read ack"
  else
    modify (fun s => qc_set_io (drop 4 i) (conn_out s) s) ;; mret (le_val (take 4 i)).

(** Closes at the end of the stream; bytes that arrive instead are dropped. *)
Definition closeAck : Q unit :=
  modify (fun s =>
    if decide (conn_in s = []) then qc_set_conn (connection s) (is_connected s) true s
    else qc_set_io (drop 4 (conn_in s)) (conn_out s) s).

(** Writing to a connection that was closed fails. *)
Definition sendAck (ack : Z) : Q unit :=
  c ← gets conn_closed;
  if (c : bool) then throw "Could not send ack"
  else modify (fun s => qc_set_io (conn_in s) (conn_out s ++ le_bytes 4 ack) s).

Definition ibvSync (mstr : bool) : Q unit :=
  if mstr then sendAck 0 ;; readAck ;; skip else readAck ;; sendAck 0.
End connection.

(** ** The bytes of a queue *)

(** [sizeof(ibvQ)] is 64: three bytes of padding follow the 33 of [gid]. *)
Definition ibvQ_bytes (pad : list Z) (q : ibvQ) : list Z :=
  le_bytes 4 (ip_addr q) ++ le_bytes 4 (qpn q) ++ le_bytes 4 (psn q) ++ le_bytes 4 (rkey q) ++
  le_bytes 8 (vaddr q) ++ le_bytes 4 (size q) ++ gid q ++ pad.

Definition bytes_ibvQ (b : list Z) : ibvQ :=
  mk_ibvQ (le_val (take 4 b)) (le_val (take 4 (drop 4 b))) (le_val (take 4 (drop 8 b)))
    (le_val (take 4 (drop 12 b))) (le_val (take 8 (drop 16 b))) (le_val (take 4 (drop 24 b)))
    (take 33 (drop 28 b)).

(** ** The map of queue pairs *)

Definition msgNAck : Z := 0.
Definition msgAck : Z := 1.

(** [qpairs], and the connection the exchange currently reads and writes. *)
Record ibvQpMap : Type := mk_ibvQpMap {
  qpairs : gmap Z ibvQpConn;
  x_in : list Z;
  x_out : list Z
}.

Abbreviation X := (M ibvQpMap).

Definition x_set_pairs (m : gmap Z ibvQpConn) (s : ibvQpMap) : ibvQpMap :=
  mk_ibvQpMap m (x_in s) (x_out s).

Definition addQpair (qpid : Z) (conn : outcome ibvQpConn) : X unit :=
  m ← gets qpairs;
  match m !! qpid with
  | Some _ => throw "Queue pair already exists"
  | None =>
      match conn with
      | Ret c => modify (x_set_pairs (<[qpid := c]> m))
      | Throw e => throw e
      | Undef e => undef e
      | Spin => spin
      end
  end.

(** Erasing runs the destructor of the connection. *)
Definition removeQpair (qpid : Z) : X unit := modify (fun s => x_set_pairs (delete qpid (qpairs s)) s).

Definition getQpairConn (qpid : Z) : X (option ibvQpConn) := m ← gets qpairs; mret (m !! qpid).

(** [read(fd, buf, n)], with the error thrown when it is short. *)
Definition x_read (n : nat) (err : string) : X (list Z) :=
  i ← gets x_in;
  if decide (length i < n)%nat then modify (fun s => mk_ibvQpMap (qpairs s) [] (x_out s)) ;; throw err
  else modify (fun s => mk_ibvQpMap (qpairs s) (drop n i) (x_out s)) ;; mret (take n i).

Definition x_write (b : list Z) : X unit :=
  modify (fun s => mk_ibvQpMap (qpairs s) (x_in s) (x_out s ++ b)).

(** A call of the connection of a queue pair. *)
Definition on_conn {A} (qpid : Z) (m : Q A) : X A := fun s =>
  match qpairs s !! qpid with
  | Some c => let '(r, c') := m c in (r, x_set_pairs (<[qpid := c']> (qpairs s)) s)
  | None => (Undef "null pointer dereference", s)
  end.

Section exchange.
Context (env : Env) (pad : list Z).

(** The remote queue replaces the one of the pair, and the hardware learns of
    it. *)
Definition adopt (connfd : Z) (b : list Z) : Q unit :=
  setConnection connfd ;;
  modify (fun s => qc_set_qpair (mk_ibvQp (id (qpair s)) (local (qpair s)) (bytes_ibvQ b)) s).

Definition activate (port : Z) : Q unit := writeContext env port ;; qc_doArpLookup env.

(** One connection of [exchangeQpMaster]. *)
Definition exchange_master (connfd port : Z) : X unit :=
  b ← x_read 4 "Could not read a remote qpid";
  let recv_qpid := le_val b in
  m ← gets qpairs;
  if decide (m !! recv_qpid = None) then
    x_write [msgNAck] ;; throw "Queue pair exchange failed, wrong qpid received"
  else
    x_write [msgAck] ;;
    b ← x_read 64 "Could not read a remote queue";
    on_conn recv_qpid (adopt connfd b) ;;
    q ← on_conn recv_qpid (gets qpair);
    x_write (ibvQ_bytes pad (local q)) ;;
    on_conn recv_qpid (activate port).

(** One queue pair of [exchangeQpSlave], once it is connected. *)
Definition exchange_slave (curr_qpid sockfd port : Z) : X unit :=
  x_write (le_bytes 4 curr_qpid) ;;
  b ← x_read 1 "Could not read ack/nack";
  if negb (le_val b =? msgAck) then throw "Received nack"
  else
    q ← on_conn curr_qpid (gets qpair);
    x_write (ibvQ_bytes pad (local q)) ;;
    b ← x_read 64 "Could not read a remote queue";
    on_conn curr_qpid (adopt sockfd b) ;;
    on_conn curr_qpid (activate port).

(** The loop of [exchangeQpSlave]: the addresses are released at the end of its
    body, and used at its start.  [next] readies the connection of the next
    queue pair: the bytes its master will send. *)
Fixpoint exchangeQpSlave (released : bool) (port : Z) (pairs : list (Z * Z)) (next : Z -> list Z) : X unit :=
  match pairs with
  | [] => skip
  | (curr_qpid, sockfd) :: pairs' =>
      if released then undef "use of released address information"
      else
        modify (fun s => mk_ibvQpMap (qpairs s) (next curr_qpid) []) ;;
        (if sockfd <? 0 then throw "Could not connect to master" else skip) ;;
        exchange_slave curr_qpid sockfd port ;;
        exchangeQpSlave true port pairs' next
  end.
End exchange.

(** ** Dotted addresses *)

(** The decimal digits of an octet, and the text [convert] expects. *)
Definition dec8 (n : Z) : list Z :=
  if n <? 10 then [48 + n]
  else if n <? 100 then [48 + n / 10; 48 + n mod 10]
  else [48 + n / 100; 48 + n / 10 mod 10; 48 + n mod 10].

Definition dotted (a b c d : Z) : list Z := dec8 a ++ [46] ++ dec8 b ++ [46] ++ dec8 c ++ [46] ++ dec8 d.

(** No digit follows. *)
Definition stops (l : list Z) : Prop := match l with c :: _ => is_digit c = false | [] => True end.

Lemma scan_dec_stops (acc : Z) (l : list Z) : stops l -> scan_dec acc l = (acc, l).
Proof. destruct l as [|c l]; [done|]. cbn. by intros ->. Qed.

Lemma scan_dec_digit (acc d : Z) (l : list Z) :
  0 <= d < 10 -> scan_dec acc ((48 + d) :: l) = scan_dec (10 * acc + d) l.
Proof.
  intros Hd. cbn [scan_dec]. unfold is_digit.
  replace ((48 <=? 48 + d) && (48 + d <=? 57)) with true by lia. by replace (48 + d - 48) with d by lia.
Qed.

Lemma scan_dec8 (n : Z) (l : list Z) : 0 <= n < 256 -> stops l -> scan_dec 0 (dec8 n ++ l) = (n, l).
Proof.
  intros Hn Hl. unfold dec8.
  pose proof (Z.div_mod n 10 ltac:(lia)). pose proof (Z.mod_pos_bound n 10 ltac:(lia)).
  pose proof (Z.div_mod (n / 10) 10 ltac:(lia)). pose proof (Z.mod_pos_bound (n / 10) 10 ltac:(lia)).
  pose proof (Z.div_div n 10 10 ltac:(lia) ltac:(lia)) as Hdd. change (10 * 10) with 100 in Hdd.
  destruct (Z.ltb_spec n 10); [|destruct (Z.ltb_spec n 100)]; cbn [app].
  all: rewrite !scan_dec_digit, scan_dec_stops by (done || lia).
  all: f_equal; lia.
Qed.

Lemma dec8_cons (n : Z) : 0 <= n < 256 -> exists c l, dec8 n = c :: l /\ is_digit c = true.
Proof.
  intros Hn. unfold dec8, is_digit.
  assert (0 <= n / 10 <= 25 /\ 0 <= n / 100 <= 2) as [].
  { split; split; try (apply Z.div_pos; lia); apply Z.lt_succ_r, Z.div_lt_upper_bound; lia. }
  destruct (Z.ltb_spec n 10); [|destruct (Z.ltb_spec n 100)]; do 2 eexists; (split; [done|]); [lia| |lia].
  assert (n / 10 < 10) by (apply Z.div_lt_upper_bound; lia). lia.
Qed.

Lemma is_digit_range (c : Z) : is_digit c = true <-> 48 <= c <= 57.
Proof. unfold is_digit. lia. Qed.

Lemma scan_uint_dec8 (n : Z) (l : list Z) :
  0 <= n < 256 -> stops l -> scan_uint (dec8 n ++ l) = Some (n, l).
Proof.
  intros Hn Hl. destruct (dec8_cons n Hn) as (c & l' & Hc & Hd).
  pose proof (scan_dec8 n l Hn Hl) as Hs. unfold scan_uint. rewrite Hc in *. cbn [app] in *.
  pose proof (proj1 (is_digit_range c) Hd) as Hr.
  cbn [skip_space]. replace (is_space c) with false by (unfold is_space; lia).
  replace (c =? 45) with false by lia. replace (c =? 43) with false by lia.
  rewrite Hd, Hs. by replace ((n <? 2 ^ 64) && (n <? 2 ^ 32)) with true by lia.
Qed.

Lemma convert_step (n : nat) (ip part : Z) (l : list Z) :
  (n < 3)%nat -> 0 <= part < 256 ->
  convert_parts (S (S n)) ip (dec8 part ++ [46] ++ l) =
  convert_parts (S n) (Z.lor ip (Z.shiftl part (8 * Z.of_nat (S n)))) l.
Proof.
  intros Hn Hp. cbn [convert_parts]. rewrite scan_uint_dec8 by done.
  replace (255 <? part) with false by lia. cbn [app]. unfold scan_char. cbn.
  rewrite wrap_small; [done|]. unfold fits. rewrite Z.shiftl_mul_pow2 by lia.
  destruct n as [|[|[|n]]]; cbn; lia.
Qed.

(** an address in dotted notation is converted to the 32-bit number with its
    first part in the highest byte, and the global identifier set from it gives
    this number back in network byte order. *)
Theorem convert_dotted (a b c d : Z) :
  0 <= a < 256 -> 0 <= b < 256 -> 0 <= c < 256 -> 0 <= d < 256 ->
  exists ip, convert (dotted a b c d) = Ret ip /\ fits 32 ip /\
    bits ip 24 8 = a /\ bits ip 16 8 = b /\ bits ip 8 8 = c /\ bits ip 0 8 = d.
Proof.
  intros Ha Hb Hc Hd. unfold convert, dotted.
  exists (Z.lor (Z.lor (Z.lor (Z.shiftl a 24) (Z.shiftl b 16)) (Z.shiftl c 8)) (Z.shiftl d 0)).
  assert (fits 8 a /\ fits 8 b /\ fits 8 c /\ fits 8 d) as (Fa & Fb & Fc & Fd) by (unfold fits; lia).
  split; [|split].
  - rewrite !convert_step by (done || lia). cbn [convert_parts].
    rewrite <- (app_nil_r (dec8 d)), scan_uint_dec8 by done.
    replace (255 <? d) with false by lia. cbn -[Z.lor Z.shiftl]. do 2 f_equal.
    apply wrap_small. unfold fits. rewrite Z.shiftl_0_r. lia.
  - repeat apply fits_lor; try lia; eapply (fits_shiftl 8); done || lia.
  - repeat split; solve_bits; by rewrite wrap_small.
Qed.

Lemma convert_dotted_witness :
  exists ip, convert (dotted 192 168 1 254) = Ret ip /\ fits 32 ip /\
    bits ip 24 8 = 192 /\ bits ip 16 8 = 168 /\ bits ip 8 8 = 1 /\ bits ip 0 8 = 254.
Proof. apply (convert_dotted 192 168 1 254); lia. Defined.

(** ** Queue-pair numbers *)

(** the number of a queue pair, meant to be the vFPGA and the process number
    side by side, is the truth value of their disjunction: 1 for every process
    but number 0 on vFPGA 0, so that the queue pairs of different processes -
    and all commands posted for them - carry the same number. *)
Theorem qpn_collapses (env : Env) (qp_id random : Z) (ip : list Z) (s s' : ibvQpConn) (u : unit) :
  initLocalQueue env qp_id random ip s = (Ret u, s') ->
  qpn (local (qpair s')) = Z.b2z (negb (bits (vfid (fdev s)) 0 4 =? 0) || negb (bits (cpid (fdev s)) 0 6 =? 0)).
Proof.
  unfold initLocalQueue, set_local, mbind, M_bind, modify, gets. cbn beta iota.
  destruct (convert ip) as [a| | |]; try done. cbn beta iota.
  cbn [fdev qc_set_qpair qpair qc_pages local qpn].
  set (n := local_qpn _ _). destruct (n =? u32 (-1)); [done|].
  unfold on_fdev. destruct (getMem _ _ _) as [[m| | |] p]; try done.
  intros [= _ <-]. cbn. unfold n, local_qpn, bits.
  rewrite !Z.shiftr_0_r. change nRegMask with (Z.ones 4). change pidMask with (Z.ones 6).
  assert ((Z.shiftl (Z.land (vfid (fdev s)) (Z.ones 4)) pidBits =? 0) =
    (Z.land (vfid (fdev s)) (Z.ones 4) =? 0)) as ->; [|done].
  rewrite Z.shiftl_mul_pow2 by done. change (2 ^ pidBits) with 64.
  destruct (Z.eqb_spec (Z.land (vfid (fdev s)) (Z.ones 4)) 0) as [->|Hne]; [done|].
  apply Z.eqb_neq. lia.
Qed.

Definition demo_conn (p : cProcess) (q : ibvQp) : ibvQpConn := mk_ibvQpConn q p 1 0 false [] [] false.

(** Process 5 on vFPGA 3, which should get the number 3 * 64 + 5. *)
Definition demo_fdev : cProcess := set_cpid (cProcess_init 3 0 false) 5.

Lemma qpn_collapses_witness :
  qpn (local (qpair (snd (initLocalQueue ready_env 0 77 (dotted 10 0 0 1)
    (demo_conn demo_fdev (mk_ibvQp 0 ibvQ_zero ibvQ_zero)))))) = 1.
Proof.
  apply (qpn_collapses ready_env 0 77 (dotted 10 0 0 1)
    (demo_conn demo_fdev (mk_ibvQp 0 ibvQ_zero ibvQ_zero)) _ tt).
  vm_compute. reflexivity.
Defined.

(** ** The exchange of queues *)

(** A queue whose members hold what their types allow. *)
Definition ibvQ_wf (q : ibvQ) : Prop :=
  fits 32 (ip_addr q) /\ fits 32 (qpn q) /\ fits 32 (psn q) /\ fits 32 (rkey q) /\
  fits 64 (vaddr q) /\ fits 32 (size q) /\ length (gid q) = 33%nat.

Lemma drop_le_bytes (n m : nat) (z : Z) (l : list Z) :
  (n <= m)%nat -> drop m (le_bytes n z ++ l) = drop (m - n) l.
Proof.
  intros Hn. replace m with (n + (m - n))%nat at 1 by lia.
  rewrite <- drop_drop, drop_app_length'; [done|by rewrite length_le_bytes].
Qed.

Lemma take_le_bytes (n : nat) (z : Z) (l : list Z) : take n (le_bytes n z ++ l) = le_bytes n z.
Proof. apply take_app_length'. by rewrite length_le_bytes. Qed.

Lemma ibvQ_roundtrip (pad : list Z) (q : ibvQ) : ibvQ_wf q -> bytes_ibvQ (ibvQ_bytes pad q) = q.
Proof.
  intros (H1 & H2 & H3 & H4 & H5 & H6 & H7). destruct q as [a b c d e f g].
  cbn [ip_addr qpn psn rkey vaddr size gid] in *.
  unfold bytes_ibvQ, ibvQ_bytes. cbn [ip_addr qpn psn rkey vaddr size gid].
  repeat (rewrite drop_le_bytes by lia; cbn [Nat.sub]; rewrite ?drop_0).
  rewrite !take_le_bytes, !le_val_bytes, take_app_length' by done.
  by rewrite !wrap_small.
Qed.

Lemma length_ibvQ_bytes (pad : list Z) (q : ibvQ) :
  length pad = 3%nat -> length (gid q) = 33%nat -> length (ibvQ_bytes pad q) = 64%nat.
Proof. intros Hp Hg. unfold ibvQ_bytes. rewrite !length_app, !length_le_bytes, Hg, Hp. done. Qed.

(** Telling the hardware changes the attached process only. *)
Lemma run_activate (env : Env) (port : Z) (c : ibvQpConn) :
  driver_ok env -> exists p, activate env port c = (Ret tt, qc_set_fdev p c).
Proof.
  intros [Hio _].
  assert (forall q s, exists s', writeQpContext env q s = (Ret tt, s')) as H1.
  { intros q s. unfold writeQpContext, ioctl, mbind, M_bind, gets, emit, modify, mret, M_ret.
    destruct (en_rdma (fcnfg s)); cbn [when]; [|by eexists]. rewrite Hio. by eexists. }
  assert (forall q pt s, exists s', writeConnContext env q pt s = (Ret tt, s')) as H2.
  { intros q pt s. unfold writeConnContext, ioctl, mbind, M_bind, gets, emit, modify, mret, M_ret.
    destruct (en_rdma (fcnfg s)); cbn [when]; [|by eexists]. rewrite Hio. by eexists. }
  assert (forall ip s, exists s', doArpLookup env ip s = (Ret tt, s')) as H3.
  { intros ip s. unfold doArpLookup, ioctl, mbind, M_bind, gets, emit, modify, mret, M_ret.
    rewrite Hio. by eexists. }
  unfold activate, writeContext, qc_doArpLookup, mbind, M_bind, gets, on_fdev.
  destruct (H1 (qpair c) (fdev c)) as [p1 ->]. cbn [fdev qc_set_fdev].
  destruct (H2 (qpair c) (u16 port) p1) as [p2 ->]. cbn [fdev qc_set_fdev qpair].
  destruct (H3 (ip_addr (remote (qpair c))) p2) as [p3 ->]. by exists p3.
Qed.

(** The pair of a node after the exchange. *)
Definition exchanged (c : ibvQpConn) (theirs : ibvQ) (fd : Z) (c' : ibvQpConn) : Prop :=
  local (qpair c') = local (qpair c) /\ id (qpair c') = id (qpair c) /\
  remote (qpair c') = theirs /\ is_connected c' = true /\ connection c' = fd.

Lemma run_adopt (env : Env) (pad : list Z) (fd port : Z) (theirs : ibvQ) (qpid : Z) (c : ibvQpConn)
    (s : ibvQpMap) :
  driver_ok env -> ibvQ_wf theirs -> qpairs s !! qpid = Some c ->
  exists c1 c2,
    on_conn qpid (adopt fd (ibvQ_bytes pad theirs)) s = (Ret tt, x_set_pairs (<[qpid := c1]> (qpairs s)) s) /\
    qpair c1 = mk_ibvQp (id (qpair c)) (local (qpair c)) theirs /\
    exchanged c theirs fd c2 /\
    forall i o, on_conn qpid (activate env port) (mk_ibvQpMap (<[qpid := c1]> (qpairs s)) i o) =
      (Ret tt, mk_ibvQpMap (<[qpid := c2]> (qpairs s)) i o).
Proof.
  intros Hok Hwf Hc.
  set (c1 := qc_set_qpair (mk_ibvQp (id (qpair c)) (local (qpair c)) theirs) (qc_set_conn fd true false c)).
  destruct (run_activate env port c1 Hok) as [p Hp].
  exists c1, (qc_set_fdev p c1). split; [|split; [done|split; [done|]]].
  - unfold on_conn. rewrite Hc. unfold adopt, setConnection, mbind, M_bind, modify.
    by rewrite ibvQ_roundtrip.
  - intros i o. unfold on_conn. cbn [qpairs]. rewrite lookup_insert_eq, Hp.
    unfold x_set_pairs. cbn. by rewrite insert_insert_eq.
Qed.

Lemma run_x_read (n : nat) (err : string) (m rest : list Z) (p : gmap Z ibvQpConn) (o : list Z) :
  length m = n -> x_read n err (mk_ibvQpMap p (m ++ rest) o) = (Ret m, mk_ibvQpMap p rest o).
Proof.
  intros Hm. unfold x_read, mbind, M_bind, gets, modify. cbn [x_in].
  rewrite decide_False by (rewrite length_app; lia).
  cbn. by rewrite take_app_length', drop_app_length'.
Qed.

(** when master and slave hold a queue pair of the same number, the two
    sides of the exchange, each reading exactly what the other one writes, both
    complete, and each ends up connected with the queue of the other as its
    remote queue; every other pair is untouched. When the master does not know
    the number it refuses, and the refusal reaches the slave as an error that
    leaves its pairs as they were. *)
Theorem exchange_symmetric (env_m env_s : Env) (pad : list Z) (fd_m fd_s port qpid : Z)
    (mm ms : gmap Z ibvQpConn) (cm cs : ibvQpConn) :
  driver_ok env_m -> driver_ok env_s -> length pad = 3%nat -> fits 32 qpid ->
  ms !! qpid = Some cs -> ibvQ_wf (local (qpair cm)) -> ibvQ_wf (local (qpair cs)) ->
  let from_slave := le_bytes 4 qpid ++ ibvQ_bytes pad (local (qpair cs)) in
  let from_master := [msgAck] ++ ibvQ_bytes pad (local (qpair cm)) in
  (mm !! qpid = Some cm ->
   exists cm' cs',
     exchange_master env_m pad fd_m port (mk_ibvQpMap mm from_slave []) =
       (Ret tt, mk_ibvQpMap (<[qpid := cm']> mm) [] from_master) /\
     exchange_slave env_s pad qpid fd_s port (mk_ibvQpMap ms from_master []) =
       (Ret tt, mk_ibvQpMap (<[qpid := cs']> ms) [] from_slave) /\
     exchanged cm (local (qpair cs)) fd_m cm' /\ exchanged cs (local (qpair cm)) fd_s cs') /\
  (mm !! qpid = None ->
   fst (exchange_master env_m pad fd_m port (mk_ibvQpMap mm (le_bytes 4 qpid) [])) =
     Throw "Queue pair exchange failed, wrong qpid received" /\
   exchange_slave env_s pad qpid fd_s port (mk_ibvQpMap ms [msgNAck] []) =
     (Throw "Received nack", mk_ibvQpMap ms [] (le_bytes 4 qpid))).
Proof.
  intros Hm Hs Hpad Hid Hcs Wm Ws fs fm.
  assert (le_val (le_bytes 4 qpid) = qpid) as Hqpid by (by rewrite le_val_bytes, wrap_small).
  assert (forall q, ibvQ_wf q -> length (ibvQ_bytes pad q) = 64%nat) as H64
    by (intros q (_ & _ & _ & _ & _ & _ & ?); by apply length_ibvQ_bytes).
  split.
  - intros Hcm.
    destruct (run_adopt env_m pad fd_m port (local (qpair cs)) qpid cm (mk_ibvQpMap mm [] [msgAck]) Hm Ws Hcm)
      as (cm1 & cm2 & Am & Qm & Em & Tm).
    destruct (run_adopt env_s pad fd_s port (local (qpair cm)) qpid cs
      (mk_ibvQpMap ms [] (le_bytes 4 qpid ++ ibvQ_bytes pad (local (qpair cs)))) Hs Wm Hcs)
      as (cs1 & cs2 & As & Qs & Es & Ts).
    exists cm2, cs2. split; [|split; [|split; [done|done]]].
    + unfold exchange_master, mbind, M_bind. subst fs.
      rewrite (run_x_read 4 _ (le_bytes 4 qpid)) by done. rewrite Hqpid. unfold gets.
      cbn [qpairs]. rewrite decide_False by congruence.
      unfold x_write, modify. cbn [qpairs x_in x_out app].
      rewrite <- (app_nil_r (ibvQ_bytes pad (local (qpair cs)))), (run_x_read 64) by auto.
      rewrite Am. unfold on_conn at 1. cbn [qpairs x_set_pairs]. rewrite lookup_insert_eq.
      cbn [fst snd gets]. unfold x_set_pairs. cbn [qpairs x_in x_out]. rewrite insert_insert_eq.
      rewrite Qm. cbn [local]. by rewrite Tm.
    + unfold exchange_slave, mbind, M_bind, x_write, modify. subst fm. cbn [qpairs x_in x_out app].
      change (msgAck :: ?l) with ([msgAck] ++ l).
      rewrite (run_x_read 1 _ [msgAck]) by done. cbn [le_val].
      change (negb (msgAck + 2 ^ 8 * 0 =? msgAck)) with false. cbv iota.
      unfold on_conn at 1. cbn [qpairs]. rewrite Hcs. unfold gets, x_set_pairs.
      cbn [qpairs x_in x_out]. rewrite insert_id by done.
      rewrite <- (app_nil_r (ibvQ_bytes pad (local (qpair cm)))), (run_x_read 64) by auto.
      rewrite As. unfold x_set_pairs. cbn [qpairs x_in x_out]. by rewrite Ts.
  - intros Hcm. split.
    + unfold exchange_master, mbind, M_bind. rewrite <- (app_nil_r (le_bytes 4 qpid)).
      rewrite (run_x_read 4) by done. rewrite Hqpid. unfold gets. cbn [qpairs].
      by rewrite decide_True.
    + reflexivity.
Qed.

Definition demo_queue (n : Z) : ibvQ := mk_ibvQ n 1 (n + 1) 0 (4096 * n) 64 (replicate 33 0).
Definition demo_pair (n : Z) : ibvQpConn := demo_conn demo_fdev (mk_ibvQp n (demo_queue n) ibvQ_zero).

Lemma exchange_symmetric_witness :
  exists cm' cs',
    exchange_master ready_env [0; 0; 0] 8 18488
      (mk_ibvQpMap {[ 6 := demo_pair 1 ]} (le_bytes 4 6 ++ ibvQ_bytes [0; 0; 0] (demo_queue 2)) []) =
      (Ret tt, mk_ibvQpMap (<[6 := cm']> {[ 6 := demo_pair 1 ]}) []
         ([msgAck] ++ ibvQ_bytes [0; 0; 0] (demo_queue 1))) /\
    exchange_slave ready_env [0; 0; 0] 6 9 18488
      (mk_ibvQpMap {[ 6 := demo_pair 2 ]} ([msgAck] ++ ibvQ_bytes [0; 0; 0] (demo_queue 1)) []) =
      (Ret tt, mk_ibvQpMap (<[6 := cs']> {[ 6 := demo_pair 2 ]}) []
         (le_bytes 4 6 ++ ibvQ_bytes [0; 0; 0] (demo_queue 2))) /\
    exchanged (demo_pair 1) (demo_queue 2) 8 cm' /\ exchanged (demo_pair 2) (demo_queue 1) 9 cs'.
Proof.
  apply (exchange_symmetric ready_env ready_env [0; 0; 0] 8 9 18488 6
    {[ 6 := demo_pair 1 ]} {[ 6 := demo_pair 2 ]} (demo_pair 1) (demo_pair 2)).
  - split; reflexivity.
  - split; reflexivity.
  - reflexivity.
  - unfold fits; lia.
  - reflexivity.
  - unfold ibvQ_wf, fits; cbn; lia.
  - unfold ibvQ_wf, fits; cbn; lia.
  - reflexivity.
Defined.

(** The slave releases the addresses it resolved inside the loop over its queue
    pairs: with more than one pair it uses them again. *)
Lemma slave_second_pair (env : Env) (pad : list Z) (port q1 q2 f1 f2 : Z) (pairs : list (Z * Z))
    (next : Z -> list Z) (s s1 : ibvQpMap) :
  exchangeQpSlave env pad false port [(q1, f1)] next s = (Ret tt, s1) ->
  exchangeQpSlave env pad false port ((q1, f1) :: (q2, f2) :: pairs) next s =
    (Undef "use of released address information", s1).
Proof.
  cbn [exchangeQpSlave]. unfold mbind, M_bind.
  destruct (modify _ s) as [[[]| | |] s0]; try done.
  destruct ((if f1 <? 0 then throw "Could not connect to master" else skip) s0) as [[[]| | |] s2]; try done.
  destruct (exchange_slave env pad q1 f1 port s2) as [[[]| | |] s3]; try done.
  intros H. injection H as <-. done.
Qed.
