(* ===== verification/ToeTypes.v ===== *)
(** Data of the TCP offload engine: the build parameters of
    [toe_config.hpp.in] and the enumerations, table entries, queries, replies
    and events of [toe_internals.hpp] and [toe.hpp] under
    [src/hw/services/network/hls/toe]. *)
From stdpp Require Import base numbers list gmap strings.
From Stdlib Require Import ZArith Lia.
From S2P Require Import Prelude.

Local Open Scope Z_scope.

(** ** Build parameters

    The [TIME_*] constants count sweeps over the sessions.  The simulation
    build fixes them; the synthesis build computes them in floating point from
    [MAX_SESSIONS], which is why they are parameters here. *)
Class ToeConfig : Type := {
  WINDOW_SCALE : bool;
  TCP_NODELAY : bool;
  RX_DDR_BYPASS : bool;
  FAST_RETRANSMIT : bool;
  MSS : Z;
  MAX_SESSIONS : Z;
  TIME_64us : Z;
  TIME_50ms : Z;
  TIME_1s : Z;
  TIME_5s : Z;
  TIME_10s : Z;
  TIME_15s : Z;
  TIME_30s : Z;
  TIME_60s : Z
}.

Definition WINDOW_SCALE_BITS : Z := 2.
Definition WINDOW_BITS `{ToeConfig} : Z := if WINDOW_SCALE then 16 + WINDOW_SCALE_BITS else 16.
Definition BUFFER_SIZE `{ToeConfig} : Z := Z.shiftl 1 WINDOW_BITS.
Definition CONGESTION_WINDOW_MAX `{ToeConfig} : Z := BUFFER_SIZE - 2048.

(** The parameters a build can have: session numbers are 16-bit, the delayed
    acknowledgement counter has 12 bits, the other timers 32. *)
Class ToeConfigOk `(cfg : ToeConfig) : Prop := {
  max_sessions_ok : 0 < MAX_SESSIONS < 2 ^ 16;
  time_64us_ok : 0 < TIME_64us < 2 ^ 12;
  times_ok : Forall (fun t => 0 < t < 2 ^ 32)
    [TIME_50ms; TIME_1s; TIME_5s; TIME_10s; TIME_15s; TIME_30s; TIME_60s]
}.

(** The simulation build with the defaults of [CMakeLists.txt]. *)
Definition sim_config (sessions : Z) (scale nodelay : bool) : ToeConfig := {|
  WINDOW_SCALE := scale; TCP_NODELAY := nodelay; RX_DDR_BYPASS := true; FAST_RETRANSMIT := true;
  MSS := 4096; MAX_SESSIONS := sessions;
  TIME_64us := 1; TIME_50ms := 1; TIME_1s := 1; TIME_5s := 1; TIME_10s := 3; TIME_15s := 4;
  TIME_30s := 6; TIME_60s := 60 |}.

(** The same with received data in memory. *)
Definition ddr_config (sessions : Z) (scale nodelay : bool) : ToeConfig := {|
  WINDOW_SCALE := scale; TCP_NODELAY := nodelay; RX_DDR_BYPASS := false; FAST_RETRANSMIT := true;
  MSS := 4096; MAX_SESSIONS := sessions;
  TIME_64us := 1; TIME_50ms := 1; TIME_1s := 1; TIME_5s := 1; TIME_10s := 3; TIME_15s := 4;
  TIME_30s := 6; TIME_60s := 60 |}.

Lemma sim_config_ok (sessions : Z) (scale nodelay : bool) :
  0 < sessions < 2 ^ 16 -> ToeConfigOk (sim_config sessions scale nodelay).
Proof. intros. split; [done | done |]. rewrite !Forall_cons, Forall_nil. done. Qed.

Lemma window_bits_range `{ToeConfig} : 16 <= WINDOW_BITS <= 18.
Proof. unfold WINDOW_BITS, WINDOW_SCALE_BITS. destruct WINDOW_SCALE; lia. Qed.

Lemma BUFFER_SIZE_pow `{ToeConfig} : BUFFER_SIZE = 2 ^ WINDOW_BITS.
Proof. unfold BUFFER_SIZE. rewrite Z.shiftl_1_l. done. Qed.

(** ** Enumerations *)

Inductive eventType : Type := TX | RT | ACK | SYN | SYN_ACK | FIN | RST | ACK_NODELAY.

Inductive sessionState : Type :=
| CLOSED | SYN_SENT | SYN_RECEIVED | ESTABLISHED | FIN_WAIT_1 | FIN_WAIT_2 | CLOSING
| TIME_WAIT | LAST_ACK.

#[export] Instance eventType_eq_dec : EqDecision eventType.
Proof. solve_decision. Defined.
#[export] Instance sessionState_eq_dec : EqDecision sessionState.
Proof. solve_decision. Defined.

(** ** Structures *)

Record fourTuple : Type := mk_fourTuple { srcIp : Z; dstIp : Z; srcPort : Z; dstPort : Z }.

Definition fourTuple_lt (lhs rhs : fourTuple) : bool :=
  (dstIp lhs <? dstIp rhs) || ((dstIp lhs =? dstIp rhs) && (srcIp lhs <? srcIp rhs)).

Record stateQuery : Type := mk_stateQuery { sq_sessionID : Z; sq_state : sessionState; sq_write : bool }.

Definition stateQuery_read (id : Z) : stateQuery := mk_stateQuery (u16 id) CLOSED false.

(** [re_win_shift] exists only with [WINDOW_SCALE]. *)
Record rxSarEntry : Type := mk_rxSarEntry {
  re_recvd : Z; re_appd : Z; re_win_shift : Z; re_head : Z; re_offset : Z; re_gap : bool }.

(** No constructor or assignment sets [usedLength]. *)
Record rxSarReply : Type := mk_rxSarReply {
  rr_recvd : Z; rr_win_shift : Z; rr_windowSize : Z }.

Record rxSarRecvd : Type := mk_rxSarRecvd {
  rq_sessionID : Z; rq_recvd : Z; rq_win_shift : Z; rq_write : bool; rq_init : bool;
  rq_head : Z; rq_offset : Z; rq_gap : bool }.

(** Fields that a constructor leaves unset are zero here: the table does not
    read them for such a query. *)
Definition rxSarRecvd_read (id : Z) : rxSarRecvd := mk_rxSarRecvd (u16 id) 0 0 false false 0 0 false.
Definition rxSarRecvd_write (id recvd head offset : Z) (gap : bool) : rxSarRecvd :=
  mk_rxSarRecvd (u16 id) (u32 recvd) 0 true false (u32 head) (u32 offset) gap.
Definition rxSarRecvd_init (id recvd head offset : Z) (gap : bool) (win_shift : Z) : rxSarRecvd :=
  mk_rxSarRecvd (u16 id) (u32 recvd) (wrap 4 win_shift) true true (u32 head) (u32 offset) gap.

Record rxSarAppd : Type := mk_rxSarAppd { ra_sessionID : Z; ra_appd : Z; ra_write : bool }.

(** The constructor that the RX SAR table answers with marks a write. *)
Definition rxSarAppd_pt `{ToeConfig} (id appd : Z) : rxSarAppd :=
  mk_rxSarAppd (u16 id) (wrap WINDOW_BITS appd) true.

Record txSarEntry : Type := mk_txSarEntry {
  te_ackd : Z; te_not_ackd : Z; te_recv_window : Z; te_win_shift : Z; te_cong_window : Z;
  te_slowstart_threshold : Z; te_app : Z; te_count : Z; te_fastRetransmitted : bool;
  te_finReady : bool; te_finSent : bool }.

Record rxTxSarQuery : Type := mk_rxTxSarQuery {
  xq_sessionID : Z; xq_ackd : Z; xq_recv_window : Z; xq_cong_window : Z; xq_count : Z;
  xq_fastRetransmitted : bool; xq_win_shift : Z; xq_write : bool; xq_init : bool }.

Definition rxTxSarQuery_read (id : Z) : rxTxSarQuery := mk_rxTxSarQuery (u16 id) 0 0 0 0 false 0 false false.
Definition rxTxSarQuery_write `{ToeConfig} (id ackd recv_win cong_win count : Z) (fast : bool) : rxTxSarQuery :=
  mk_rxTxSarQuery (u16 id) (u32 ackd) (u16 recv_win) (wrap WINDOW_BITS cong_win) (wrap 2 count) fast 0 true false.
Definition rxTxSarQuery_init `{ToeConfig} (id ackd recv_win cong_win count : Z) (fast : bool) (win_shift : Z) : rxTxSarQuery :=
  mk_rxTxSarQuery (u16 id) (u32 ackd) (u16 recv_win) (wrap WINDOW_BITS cong_win) (wrap 2 count) fast (wrap 4 win_shift) true true.

Record txTxSarQuery : Type := mk_txTxSarQuery {
  tq_sessionID : Z; tq_not_ackd : Z; tq_write : bool; tq_init : bool; tq_finReady : bool;
  tq_finSent : bool; tq_isRtQuery : bool }.

(** [txTxSarRtQuery] carries the slow start threshold in [not_ackd]. *)
Definition txTxSarRtQuery `{ToeConfig} (id ssthresh : Z) : txTxSarQuery :=
  mk_txTxSarQuery (u16 id) (u32 (wrap WINDOW_BITS ssthresh)) true false false false true.
Definition getThreshold `{ToeConfig} (q : txTxSarQuery) : Z := bits (tq_not_ackd q) 0 WINDOW_BITS.

Record rxTxSarReply : Type := mk_rxTxSarReply {
  xr_prevAck : Z; xr_nextByte : Z; xr_cong_window : Z; xr_slowstart_threshold : Z; xr_count : Z;
  xr_fastRetransmitted : bool }.

Record txAppTxSarPush : Type := mk_txAppTxSarPush { ap_sessionID : Z; ap_app : Z }.

(** [ak_min_window] exists only with [TCP_NODELAY]. *)
Record txSarAckPush : Type := mk_txSarAckPush {
  ak_sessionID : Z; ak_ackd : Z; ak_min_window : Z; ak_init : bool }.

(** No constructor sets [win_shift]. *)
Record txTxSarReply : Type := mk_txTxSarReply {
  tr_ackd : Z; tr_not_ackd : Z; tr_usableWindow : Z; tr_app : Z; tr_usedLength : Z;
  tr_finReady : bool; tr_finSent : bool }.

Record rxRetransmitTimerUpdate : Type := mk_rtUpdate { ru_sessionID : Z; ru_stop : bool }.
Record txRetransmitTimerSet : Type := mk_rtSet { ts_sessionID : Z; ts_type : eventType }.

Record event : Type := mk_event {
  ev_type : eventType; ev_sessionID : Z; ev_address : Z; ev_length : Z; ev_rt_count : Z }.

Definition event_id (t : eventType) (id : Z) : event := mk_event t (u16 id) 0 0 0.
Definition event_rt (t : eventType) (id rt_count : Z) : event :=
  mk_event t (u16 id) 0 0 (wrap 3 rt_count).

(** A tuple accompanies the events whose session the TX engine cannot look up. *)
Record extendedEvent : Type := mk_extendedEvent { ee_event : event; ee_tuple : option fourTuple }.
Definition extend (e : event) : extendedEvent := mk_extendedEvent e None.

(** A reset carries the acknowledgement number in address and length. *)
Definition rstEvent `{ToeConfig} (id seq : Z) (hasSessionID : bool) : event :=
  mk_event RST (u16 id) (wrap WINDOW_BITS (bits seq 16 16)) (bits seq 0 16) (Z.b2z hasSessionID).
Definition rst_getAckNumb (junk : Z) (e : event) : Z :=
  set_bits (set_bits junk 16 16 (ev_address e)) 0 16 (ev_length e).
Definition rst_hasSessionID (e : event) : bool := negb (ev_rt_count e =? 0).

Record openStatus : Type := mk_openStatus { os_sessionID : Z; os_success : Z; os_ip : Z; os_port : Z }.
Record appNotification : Type := mk_appNotification {
  an_sessionID : Z; an_length : Z; an_ipAddress : Z; an_dstPort : Z; an_closed : bool }.

Definition openStatus_id (id success : Z) : openStatus := mk_openStatus (u16 id) (u8 success) 0 0.
Definition appNotification_closed (id : Z) (closed : bool) : appNotification :=
  mk_appNotification (u16 id) 0 0 0 closed.

Definition openStatus_addr (id success ip port : Z) : openStatus := mk_openStatus (u16 id) (u8 success) (u32 ip) (u16 port).
Definition appNotification_data (id len addr port : Z) : appNotification :=
  mk_appNotification (u16 id) (u16 len) (u32 addr) (u16 port) false.
Definition appNotification_close (id addr port : Z) : appNotification :=
  mk_appNotification (u16 id) 0 (u32 addr) (u16 port) true.
Definition appNotification_last (id len addr port : Z) : appNotification :=
  mk_appNotification (u16 id) (u16 len) (u32 addr) (u16 port) true.

(** Commands and status of the memory; the fields with a constant value in
    every command are left out. *)
Record mmCmd : Type := mk_mmCmd { mc_bbt : Z; mc_saddr : Z }.
Definition mmCmd_new (addr len : Z) : mmCmd := mk_mmCmd (u16 len) (u32 addr).
Record mmStatus : Type := mk_mmStatus { ms_okay : bool }.

(** ** Tables indexed by session

    A static array of [MAX_SESSIONS] entries starts zeroed; an index outside
    it is undefined behaviour of the simulated code and an access outside the
    memory in hardware. *)
Definition in_table `{ToeConfig} (id : Z) : bool := (0 <=? id) && (id <? MAX_SESSIONS).

Definition at_index `{ToeConfig} {S : Type} (id : Z) (k : step_result S) : step_result S :=
  if in_table id then k else StepUndef "index outside a session table".

Definition entry {T : Type} (zero : T) (t : gmap Z T) (id : Z) : T := default zero (t !! id).

Lemma entry_insert {T : Type} (zero x : T) (t : gmap Z T) (i j : Z) :
  entry zero (<[i := x]> t) j = if decide (i = j) then x else entry zero t j.
Proof. unfold entry. destruct (decide (i = j)) as [->|]; by simplify_map_eq. Qed.

Lemma at_index_next `{ToeConfig} {S : Type} (id : Z) (k : step_result S) (s : S) :
  at_index id k = Next s -> in_table id = true /\ k = Next s.
Proof. unfold at_index. by destruct (in_table id). Qed.
