(* ===== verification/StateTable.v ===== *)
(** The TCP state table ([state_table/state_table.cpp]): the state of every
    session, read and written by the RX engine and the TX application
    interface under a lock per client, and closed by the timers.

    One call of [state_table] is one iteration of the pipelined process.  Its
    static variables and input streams are the record [stt]; what it writes is
    the list of its outputs, each tagged with its stream. *)
From stdpp Require Import base numbers list gmap strings.
From Stdlib Require Import ZArith Lia.
From S2P Require Import Prelude ToeTypes.

Local Open Scope Z_scope.

Record stt : Type := mk_stt {
  state_tbl : gmap Z sessionState;
  stt_txSessionID : Z;
  stt_rxSessionID : Z;
  stt_rxSessionLocked : bool;
  stt_txSessionLocked : bool;
  stt_txAccess : stateQuery;
  stt_rxAccess : stateQuery;
  stt_txWait : bool;
  stt_rxWait : bool;
  stt_closeSessionID : Z;
  stt_closeWait : bool;
  rxEng_upd_req : list stateQuery;
  txApp_upd_req : list stateQuery;
  txApp_req : list Z;
  timer_releaseState : list Z
}.

Inductive stt_out : Type :=
| ToRxEng (st : sessionState)        (* stateTable2rxEng_upd_rsp *)
| ToTxAppUpd (st : sessionState)     (* stateTable2TxApp_upd_rsp *)
| ToTxApp (st : sessionState)        (* stateTable2txApp_rsp *)
| ToSLookup (id : Z).                (* stateTable2sLookup_releaseSession *)

(** Static storage starts zeroed. *)
Definition stt_init : stt :=
  mk_stt ∅ 0 0 false false (stateQuery_read 0) (stateQuery_read 0) false false 0 false [] [] [] [].

(** ** Assignments *)

Definition stt_set_entry (id : Z) (st : sessionState) (s : stt) : stt :=
  let '(mk_stt t ti ri rl tl ta ra tw rw ci cw a b c d) := s in
  mk_stt (<[id := st]> t) ti ri rl tl ta ra tw rw ci cw a b c d.
Definition stt_set_tx (id : Z) (locked : bool) (s : stt) : stt :=
  let '(mk_stt t ti ri rl tl ta ra tw rw ci cw a b c d) := s in
  mk_stt t id ri rl locked ta ra tw rw ci cw a b c d.
Definition stt_set_rx (id : Z) (locked : bool) (s : stt) : stt :=
  let '(mk_stt t ti ri rl tl ta ra tw rw ci cw a b c d) := s in
  mk_stt t ti id locked tl ta ra tw rw ci cw a b c d.
Definition stt_set_txAccess (q : stateQuery) (rest : list stateQuery) (s : stt) : stt :=
  let '(mk_stt t ti ri rl tl ta ra tw rw ci cw a b c d) := s in
  mk_stt t ti ri rl tl q ra tw rw ci cw a rest c d.
Definition stt_set_rxAccess (q : stateQuery) (rest : list stateQuery) (s : stt) : stt :=
  let '(mk_stt t ti ri rl tl ta ra tw rw ci cw a b c d) := s in
  mk_stt t ti ri rl tl ta q tw rw ci cw rest b c d.
Definition stt_set_waits (tw rw cw : bool) (s : stt) : stt :=
  let '(mk_stt t ti ri rl tl ta ra _ _ ci _ a b c d) := s in
  mk_stt t ti ri rl tl ta ra tw rw ci cw a b c d.
Definition stt_set_close (id : Z) (rest : list Z) (s : stt) : stt :=
  let '(mk_stt t ti ri rl tl ta ra tw rw ci cw a b c d) := s in
  mk_stt t ti ri rl tl ta ra tw rw id cw a b c rest.
Definition stt_set_txApp_req (rest : list Z) (s : stt) : stt :=
  let '(mk_stt t ti ri rl tl ta ra tw rw ci cw a b c d) := s in
  mk_stt t ti ri rl tl ta ra tw rw ci cw a b rest d.

(** ** The process *)

Section state_table.
Context `{cfg : ToeConfig}.

Definition stt_entry (s : stt) (id : Z) : sessionState := entry CLOSED (state_tbl s) id.

Definition rx_holds (s : stt) (id : Z) : bool := (id =? stt_rxSessionID s) && stt_rxSessionLocked s.
Definition tx_holds (s : stt) (id : Z) : bool := (id =? stt_txSessionID s) && stt_txSessionLocked s.

(** A query of the TX application interface that is not delayed. *)
Definition tx_serve (s : stt) : step_result (stt * list stt_out) :=
  let q := stt_txAccess s in let id := sq_sessionID q in
  at_index id (Next (
    if sq_write q then
      (stt_set_tx (stt_txSessionID s) false (stt_set_entry id (sq_state q) s), [])
    else (stt_set_tx id true s, [ToTxAppUpd (stt_entry s id)]))).

(** A query of the RX engine that is not delayed. *)
Definition rx_serve (s : stt) : step_result (stt * list stt_out) :=
  let q := stt_rxAccess s in let id := sq_sessionID q in
  at_index id (Next (
    if sq_write q then
      (stt_set_rx (stt_rxSessionID s) false (stt_set_entry id (sq_state q) s),
       if bool_decide (sq_state q = CLOSED) then [ToSLookup id] else [])
    else (stt_set_rx id true s, [ToRxEng (stt_entry s id)]))).

Definition close_serve (s : stt) : step_result (stt * list stt_out) :=
  let id := stt_closeSessionID s in
  at_index id (Next (stt_set_entry id CLOSED s, [ToSLookup id])).

Definition state_table (s : stt) : step_result (stt * list stt_out) :=
  match txApp_upd_req s, stt_txWait s with
  | q :: rest, false =>
      let s1 := stt_set_txAccess q rest s in
      if rx_holds s1 (sq_sessionID q) then
        Next (stt_set_waits true (stt_rxWait s) (stt_closeWait s) s1, [])
      else tx_serve s1
  | _, _ =>
  match txApp_req s with
  | id :: rest =>
      at_index id (Next (stt_set_txApp_req rest s, [ToTxApp (stt_entry s id)]))
  | [] =>
  match rxEng_upd_req s, stt_rxWait s with
  | q :: rest, false =>
      let s1 := stt_set_rxAccess q rest s in
      if tx_holds s1 (sq_sessionID q) then
        Next (stt_set_waits (stt_txWait s) true (stt_closeWait s) s1, [])
      else rx_serve s1
  | _, _ =>
  match timer_releaseState s, stt_closeWait s with
  | id :: rest, false =>
      let s1 := stt_set_close id rest s in
      if rx_holds s1 id || tx_holds s1 id then
        Next (stt_set_waits (stt_txWait s) (stt_rxWait s) true s1, [])
      else close_serve s1
  | _, _ =>
    if stt_txWait s then
      if negb (rx_holds s (sq_sessionID (stt_txAccess s))) then
        tx_serve (stt_set_waits false (stt_rxWait s) (stt_closeWait s) s)
      else Next (s, [])
    else if stt_rxWait s then
      if negb (tx_holds s (sq_sessionID (stt_rxAccess s))) then
        rx_serve (stt_set_waits (stt_txWait s) false (stt_closeWait s) s)
      else Next (s, [])
    else if stt_closeWait s then
      if negb (rx_holds s (stt_closeSessionID s)) && negb (tx_holds s (stt_closeSessionID s)) then
        close_serve (stt_set_waits (stt_txWait s) (stt_rxWait s) false s)
      else Next (s, [])
    else Next (s, [])
  end end end end.

(** ** Runs: calls of the process, and its clients writing requests *)

Inductive stt_label : Type :=
| SCall
| SRxQuery (q : stateQuery)
| STxQuery (q : stateQuery)
| STxRead (id : Z)
| STimer (id : Z).

Definition stt_request (l : stt_label) (s : stt) : stt :=
  let '(mk_stt t ti ri rl tl ta ra tw rw ci cw a b c d) := s in
  let m a b c d := mk_stt t ti ri rl tl ta ra tw rw ci cw a b c d in
  match l with
  | SCall => s
  | SRxQuery q => m (a ++ [q]) b c d
  | STxQuery q => m a (b ++ [q]) c d
  | STxRead id => m a b (c ++ [id]) d
  | STimer id => m a b c (d ++ [id])
  end.

Definition stt_step (l : stt_label) (so : stt * list stt_out) : step_result (stt * list stt_out) :=
  let '(s, out) := so in
  match l with
  | SCall =>
      match state_table s with
      | Next (s', o) => Next (s', out ++ o)
      | Blocked => Blocked
      | StepUndef e => StepUndef e
      end
  | _ => Next (stt_request l s, out)
  end.
End state_table.

(** ** Mutual exclusion *)

Section exclusion.
Context `{cfg : ToeConfig}.

Definition Exclusive (s : stt) : Prop := forall id, rx_holds s id && tx_holds s id = false.

Ltac stt_cases :=
  repeat match goal with
  | H : at_index _ _ = Next _ |- _ => apply at_index_next in H as [? H]
  | H : Next _ = Next _ |- _ => injection H as <- <-
  | H : (if ?b then _ else _) = Next _ |- _ => destruct b eqn:?
  | H : match ?x with _ => _ end = Next _ |- _ => destruct x eqn:?
  | H : Next (if ?b then _ else _) = Next _ |- _ => destruct b eqn:?
  end; try done.

(** What a served query of each client, and a close, leave behind. *)
Lemma tx_serve_next (s s' : stt) (o : list stt_out) :
  tx_serve s = Next (s', o) ->
  let q := stt_txAccess s in
  in_table (sq_sessionID q) = true /\
  ((sq_write q = true /\ o = [] /\
    s' = stt_set_tx (stt_txSessionID s) false (stt_set_entry (sq_sessionID q) (sq_state q) s)) \/
   (sq_write q = false /\ o = [ToTxAppUpd (stt_entry s (sq_sessionID q))] /\
    s' = stt_set_tx (sq_sessionID q) true s)).
Proof.
  unfold tx_serve. intros H. apply at_index_next in H as [? H]. split; [done|].
  destruct (sq_write _); injection H as <- <-; [left | right]; done.
Qed.

Lemma rx_serve_next (s s' : stt) (o : list stt_out) :
  rx_serve s = Next (s', o) ->
  let q := stt_rxAccess s in
  in_table (sq_sessionID q) = true /\
  ((sq_write q = true /\ o = (if bool_decide (sq_state q = CLOSED) then [ToSLookup (sq_sessionID q)] else []) /\
    s' = stt_set_rx (stt_rxSessionID s) false (stt_set_entry (sq_sessionID q) (sq_state q) s)) \/
   (sq_write q = false /\ o = [ToRxEng (stt_entry s (sq_sessionID q))] /\
    s' = stt_set_rx (sq_sessionID q) true s)).
Proof.
  unfold rx_serve. intros H. apply at_index_next in H as [? H]. split; [done|].
  destruct (sq_write _); injection H as <- <-; [left | right]; done.
Qed.

Lemma close_serve_next (s s' : stt) (o : list stt_out) :
  close_serve s = Next (s', o) ->
  in_table (stt_closeSessionID s) = true /\ o = [ToSLookup (stt_closeSessionID s)] /\
  s' = stt_set_entry (stt_closeSessionID s) CLOSED s.
Proof. unfold close_serve. intros H. apply at_index_next in H as [? H]. by injection H as <- <-. Qed.

(** The fields that a step of the process reads and writes, case by case: a
    query is served only when the other client does not hold its session. *)
Inductive stt_move (s : stt) : stt -> list stt_out -> Prop :=
| MIdle : stt_move s s []
| MTxDelay q rest rw cw : txApp_upd_req s = q :: rest -> rw = stt_rxWait s ->
    stt_move s (stt_set_waits true rw cw (stt_set_txAccess q rest s)) []
| MTxServe s1 s2 o : (exists q rest, txApp_upd_req s = q :: rest /\ s1 = stt_set_txAccess q rest s) \/
      (exists rw cw, stt_txWait s = true /\ rw = stt_rxWait s /\ s1 = stt_set_waits false rw cw s) ->
    rx_holds s1 (sq_sessionID (stt_txAccess s1)) = false -> tx_serve s1 = Next (s2, o) ->
    stt_move s s2 o
| MTxRead id rest : txApp_req s = id :: rest ->
    stt_move s (stt_set_txApp_req rest s) [ToTxApp (stt_entry s id)]
| MRxDelay q rest tw cw : rxEng_upd_req s = q :: rest -> tw = stt_txWait s ->
    stt_move s (stt_set_waits tw true cw (stt_set_rxAccess q rest s)) []
| MRxServe s1 s2 o : (exists q rest, rxEng_upd_req s = q :: rest /\ s1 = stt_set_rxAccess q rest s) \/
      (exists tw cw, stt_rxWait s = true /\ tw = stt_txWait s /\ s1 = stt_set_waits tw false cw s) ->
    tx_holds s1 (sq_sessionID (stt_rxAccess s1)) = false -> rx_serve s1 = Next (s2, o) ->
    stt_move s s2 o
| MCloseDelay id rest tw rw : timer_releaseState s = id :: rest -> tw = stt_txWait s ->
    rw = stt_rxWait s ->
    stt_move s (stt_set_waits tw rw true (stt_set_close id rest s)) []
| MCloseServe s1 s2 o : (exists id rest, timer_releaseState s = id :: rest /\ s1 = stt_set_close id rest s) \/
      (exists tw rw, tw = stt_txWait s /\ rw = stt_rxWait s /\ s1 = stt_set_waits tw rw false s) ->
    rx_holds s1 (stt_closeSessionID s1) = false -> tx_holds s1 (stt_closeSessionID s1) = false ->
    close_serve s1 = Next (s2, o) ->
    stt_move s s2 o.

Lemma state_table_move (s s' : stt) (o : list stt_out) :
  state_table s = Next (s', o) -> stt_move s s' o.
Proof.
  unfold state_table. intros H.
  assert (forall q rest, stt_txAccess (stt_set_txAccess q rest s) = q) as Et by (by destruct s).
  assert (forall q rest, stt_rxAccess (stt_set_rxAccess q rest s) = q) as Er by (by destruct s).
  assert (forall i rest, stt_closeSessionID (stt_set_close i rest s) = i) as Ec by (by destruct s).
  assert (forall x y z, stt_txAccess (stt_set_waits x y z s) = stt_txAccess s) as Ew by (by destruct s).
  assert (forall x y z, stt_rxAccess (stt_set_waits x y z s) = stt_rxAccess s) as Ev by (by destruct s).
  assert (forall x y z, stt_closeSessionID (stt_set_waits x y z s) = stt_closeSessionID s) as Eu
    by (by destruct s).
  assert (forall x y z i, rx_holds (stt_set_waits x y z s) i = rx_holds s i) as Eh by (by destruct s).
  assert (forall x y z i, tx_holds (stt_set_waits x y z s) i = tx_holds s i) as Ei by (by destruct s).
  stt_cases; simpl_bools; destruct_and?;
    first
      [ by constructor | by eapply MTxDelay | by eapply MRxDelay | by eapply MCloseDelay
      | eapply MTxServe; [| |done]; [eauto 8|]; rewrite ?Eh, ?Et, ?Ew; done
      | eapply MRxServe; [| |done]; [eauto 8|]; rewrite ?Ei, ?Er, ?Ev; done
      | eapply MCloseServe; [| | |done]; [eauto 8| |]; rewrite ?Eh, ?Ei, ?Ec, ?Eu; done ].
Qed.

(** A client's view while it holds the lock of session [id] and asks nothing
    more: the lock, the entry, and that the other client does not hold it. *)
Record RxHeld (id : Z) (st : sessionState) (s : stt) : Prop := {
  rxh_lock : rx_holds s id = true;
  rxh_quiet : rxEng_upd_req s = [] /\ stt_rxWait s = false;
  rxh_alone : tx_holds s id = false;
  rxh_entry : stt_entry s id = st
}.
Record TxHeld (id : Z) (st : sessionState) (s : stt) : Prop := {
  txh_lock : tx_holds s id = true;
  txh_quiet : txApp_upd_req s = [] /\ stt_txWait s = false;
  txh_alone : rx_holds s id = false;
  txh_entry : stt_entry s id = st
}.

Ltac stt_move_cases :=
  repeat match goal with
  | H : tx_serve _ = Next _ |- _ =>
      apply tx_serve_next in H as [_ [(?&->&->)|(?&->&->)]]
  | H : rx_serve _ = Next _ |- _ =>
      apply rx_serve_next in H as [_ [(?&->&->)|(?&->&->)]]
  | H : close_serve _ = Next _ |- _ => apply close_serve_next in H as (_&->&->)
  | H : _ \/ _ |- _ => destruct H
  | H : exists _, _ |- _ => destruct H
  | H : _ /\ _ |- _ => destruct H
  end; subst.

Ltac stt_solve :=
  repeat match goal with s : stt |- _ => destruct s end; unfold rx_holds, tx_holds, stt_entry in *; cbn in *; simplify_eq; simpl_bools;
  rewrite ?entry_insert; repeat case_decide; repeat case_bool_decide;
  rewrite ?elem_of_cons, ?elem_of_nil; intuition (try congruence; try lia).

Lemma Exclusive_move (s s' : stt) (o : list stt_out) :
  stt_move s s' o -> Exclusive s -> Exclusive s'.
Proof.
  intros Hm He id. specialize (He id). inversion Hm; stt_move_cases; stt_solve.
Qed.

Lemma RxHeld_move (id : Z) (st : sessionState) (s s' : stt) (o : list stt_out) :
  stt_move s s' o -> RxHeld id st s -> RxHeld id st s' /\ ToSLookup id ∉ o.
Proof.
  intros Hm [Hl [Hq Hw] Ha He]. inversion Hm; stt_move_cases; try congruence;
    (split; [split|]); stt_solve.
Qed.

Lemma TxHeld_move (id : Z) (st : sessionState) (s s' : stt) (o : list stt_out) :
  stt_move s s' o -> TxHeld id st s -> TxHeld id st s' /\ ToSLookup id ∉ o.
Proof.
  intros Hm [Hl [Hq Hw] Ha He]. inversion Hm; stt_move_cases; try congruence;
    (split; [split|]); stt_solve.
Qed.

(** Along runs: requests only lengthen the input streams. *)
Lemma stt_step_cases (l : stt_label) (s s' : stt) (out out' : list stt_out) :
  stt_step l (s, out) = Next (s', out') ->
  (exists o, stt_move s s' o /\ out' = out ++ o) \/
  (l <> SCall /\ s' = stt_request l s /\ out' = out).
Proof.
  destruct l; cbn; [|right; split; [done|]; simplify_eq; done..].
  destruct (state_table s) as [|e|[s1 o]] eqn:E; try done. intros [= <- <-].
  left. exists o. split; [by apply state_table_move | done].
Qed.

Lemma run_exclusive (ls : list stt_label) (s : stt) (out : list stt_out) :
  steps stt_step ls (stt_init, []) = Next (s, out) -> Exclusive s.
Proof.
  intros Hrun.
  refine (steps_invariant stt_step (fun _ => True) (fun so => Exclusive (fst so)) _ ls
    (stt_init, []) (s, out) _ _ Hrun).
  - intros l [s1 o1] [s2 o2] _ HE Hs. apply stt_step_cases in Hs as [(o&Hm&_)|(_&->&_)].
    + by eapply Exclusive_move.
    + by destruct s1, l.
  - by apply Forall_true.
  - intros id. unfold rx_holds, tx_holds. cbn [fst stt_init stt_rxSessionLocked]. by rewrite andb_false_r.
Qed.

Lemma run_held (quiet : stt_label -> Prop) (H : stt -> Prop) (id : Z) :
  (forall l s, quiet l -> l <> SCall -> H s -> H (stt_request l s)) ->
  (forall s s' o, stt_move s s' o -> H s -> H s' /\ ToSLookup id ∉ o) ->
  forall ls s s' out out', Forall quiet ls -> H s ->
    steps stt_step ls (s, out) = Next (s', out') ->
    H s' /\ exists o, out' = out ++ o /\ ToSLookup id ∉ o.
Proof.
  intros Hreq Hmove ls s s' out out' Hq Hs Hrun.
  refine (steps_invariant stt_step quiet
    (fun so => H (fst so) /\ exists o, snd so = out ++ o /\ ToSLookup id ∉ o) _ ls
    (s, out) (s', out') Hq _ Hrun).
  - intros l [s1 o1] [s2 o2] Hl (H1&o&Ho&Hn) Hstep. cbn in *. subst o1.
    apply stt_step_cases in Hstep as [(o'&Hm&->)|(Hl'&->&->)].
    + destruct (Hmove _ _ _ Hm H1) as [H2 Hn']. split; [done|]. exists (o ++ o').
      split; [by rewrite app_assoc|]. rewrite elem_of_app. by intros [?|?].
    + split; [by apply Hreq|]. by exists o.
  - split; [done|]. exists []. cbn. split; [by rewrite app_nil_r | apply not_elem_of_nil].
Qed.

Definition no_rx_query (l : stt_label) : Prop := match l with SRxQuery _ => False | _ => True end.
Definition no_tx_query (l : stt_label) : Prop := match l with STxQuery _ => False | _ => True end.

(** C33: From reset and under any interleaving of requests, the RX engine and the TX application
    interface never hold the lock of the same session.  Once a client holds the lock of a session
    and asks nothing more, no sequence of calls and of requests by the others takes the lock away,
    grants it to the other client, changes the session's state or releases the session. *)
Theorem held_session_stable (ls1 ls2 : list stt_label) (s s' : stt) (out out' : list stt_out) (id : Z) :
  steps stt_step ls1 (stt_init, []) = Next (s, out) ->
  steps stt_step ls2 (s, out) = Next (s', out') ->
  (rx_holds s id && tx_holds s id = false) /\
  (rx_holds s id = true -> rxEng_upd_req s = [] -> stt_rxWait s = false -> Forall no_rx_query ls2 ->
   RxHeld id (stt_entry s id) s' /\ exists o, out' = out ++ o /\ ToSLookup id ∉ o) /\
  (tx_holds s id = true -> txApp_upd_req s = [] -> stt_txWait s = false -> Forall no_tx_query ls2 ->
   TxHeld id (stt_entry s id) s' /\ exists o, out' = out ++ o /\ ToSLookup id ∉ o).
Proof.
  intros Hrun1 Hrun2. pose proof (run_exclusive _ _ _ Hrun1 id) as He.
  split; [done|]. split; intros Hl Hq Hw Hls; rewrite Hl in He.
  - eapply (run_held no_rx_query); [| |exact Hls| |exact Hrun2].
    + intros [] s0 ? ?; try done; destruct 1; by destruct s0.
    + apply RxHeld_move.
    + by split.
  - eapply (run_held no_tx_query); [| |exact Hls| |exact Hrun2].
    + intros [] s0 ? ?; try done; destruct 1; by destruct s0.
    + apply TxHeld_move.
    + split; try done. by rewrite andb_true_r in He.
Qed.
End exclusion.

(** The RX engine reads session 3; the application's query for it waits, a
    timer's release waits, and the engine still finds the state it read. *)
Definition demo_lock : list stt_label := [SRxQuery (stateQuery_read 3); SCall].
Definition demo_contend : list stt_label :=
  [STxQuery (mk_stateQuery 3 ESTABLISHED true); STimer 3; SCall; SCall; SCall; STxRead 3; SCall].

Definition run_or_init `{ToeConfig} (ls : list stt_label) (so : stt * list stt_out) : stt * list stt_out :=
  match steps stt_step ls so with Next so' => so' | _ => so end.

#[local] Instance demo_cfg : ToeConfig := sim_config 1000 true true.
Definition demo_locked : stt * list stt_out := run_or_init demo_lock (stt_init, []).
Definition demo_contended : stt * list stt_out := run_or_init demo_contend demo_locked.

Lemma held_session_stable_witness :
  rx_holds (fst demo_locked) 3 = true /\
  RxHeld 3 (stt_entry (fst demo_locked) 3) (fst demo_contended).
Proof.
  split; [done|].
  refine (proj1 (proj1 (proj2 (held_session_stable demo_lock demo_contend (fst demo_locked)
    (fst demo_contended) (snd demo_locked) (snd demo_contended) 3 _ _)) _ _ _ _)); try done.
  repeat constructor.
Defined.
