(* ===== verification/SarTables.v ===== *)
(** The sliding window tables ([rx_sar_table/rx_sar_table.cpp] and
    [tx_sar_table/tx_sar_table.cpp]): the receive window every session
    advertises and the send window its application and the TX engine may use. *)
From stdpp Require Import base numbers list gmap strings.
From Stdlib Require Import ZArith Lia.
From S2P Require Import Prelude ToeTypes.

Local Open Scope Z_scope.

(** ** Receive side *)

Record rxsar : Type := mk_rxsar {
  rx_table : gmap Z rxSarEntry;
  txEng2rxSar_req : list Z;
  rxApp2rxSar_upd_req : list rxSarAppd;
  rxEng2rxSar_upd_req : list rxSarRecvd
}.

Inductive rxsar_out : Type :=
| RToTxEng (r : rxSarReply)       (* rxSar2txEng_rsp *)
| RToRxApp (a : rxSarAppd)        (* rxSar2rxApp_upd_rsp *)
| RToRxEng (e : rxSarEntry).      (* rxSar2rxEng_upd_rsp *)

Definition rxSarEntry_zero : rxSarEntry := mk_rxSarEntry 0 0 0 0 0 false.

Section rx_sar_table.
Context `{cfg : ToeConfig}.

Definition rx_entry (s : rxsar) (id : Z) : rxSarEntry := entry rxSarEntry_zero (rx_table s) id.

(** [windowSize] is a 16-bit field. *)
Definition window_reply (e : rxSarEntry) : rxSarReply :=
  mk_rxSarReply (re_recvd e) (re_win_shift e) (u16 (
    if WINDOW_SCALE then
      Z.shiftr (wrap WINDOW_BITS (re_appd e - wrap WINDOW_BITS (re_recvd e) - 1)) (re_win_shift e)
    else re_appd e - u16 (re_recvd e) - 1)).

Definition rx_update (q : rxSarRecvd) (e : rxSarEntry) : rxSarEntry :=
  if rq_init q then
    mk_rxSarEntry (rq_recvd q) (wrap WINDOW_BITS (rq_recvd q))
      (if WINDOW_SCALE then rq_win_shift q else re_win_shift e) (rq_head q) (rq_offset q) (rq_gap q)
  else
    mk_rxSarEntry (rq_recvd q) (re_appd e) (re_win_shift e) (rq_head q) (rq_offset q) (rq_gap q).

Definition rx_set_appd (appd : Z) (e : rxSarEntry) : rxSarEntry :=
  mk_rxSarEntry (re_recvd e) appd (re_win_shift e) (re_head e) (re_offset e) (re_gap e).

Definition rx_sar_table (s : rxsar) : step_result (rxsar * list rxsar_out) :=
  let '(mk_rxsar t tx app eng) := s in
  match tx, app, eng with
  | addr :: tx', _, _ =>
      at_index addr (Next (mk_rxsar t tx' app eng, [RToTxEng (window_reply (rx_entry s addr))]))
  | [], in_appd :: app', _ =>
      let id := ra_sessionID in_appd in
      at_index id (Next (
        if ra_write in_appd then
          (mk_rxsar (<[id := rx_set_appd (ra_appd in_appd) (rx_entry s id)]> t) tx app' eng, [])
        else
          (mk_rxsar t tx app' eng, [RToRxApp (rxSarAppd_pt id (re_appd (rx_entry s id)))])))
  | [], [], in_recvd :: eng' =>
      let id := rq_sessionID in_recvd in
      at_index id (Next (
        if rq_write in_recvd then
          (mk_rxsar (<[id := rx_update in_recvd (rx_entry s id)]> t) tx app eng', [])
        else (mk_rxsar t tx app eng', [RToRxEng (rx_entry s id)])))
  | [], [], [] => Next (s, [])
  end.

(** What the application has not consumed yet, and the shift in force. *)
Definition unread (e : rxSarEntry) : Z := wrap WINDOW_BITS (re_recvd e - re_appd e).
Definition rx_shift (e : rxSarEntry) : Z := if WINDOW_SCALE then re_win_shift e else 0.
End rx_sar_table.

(** ** Transmit side *)

Record txsar : Type := mk_txsar {
  tx_table : gmap Z txSarEntry;
  txEng2txSar_upd_req : list txTxSarQuery;
  txApp2txSar_app_push : list txAppTxSarPush;
  rxEng2txSar_upd_req : list rxTxSarQuery
}.

Inductive txsar_out : Type :=
| TToTxApp (p : txSarAckPush)     (* txSar2txApp_ack_push *)
| TToTxEng (r : txTxSarReply)     (* txSar2txEng_upd_rsp *)
| TToRxEng (r : rxTxSarReply).    (* txSar2rxEng_upd_rsp *)

Definition txSarEntry_zero : txSarEntry := mk_txSarEntry 0 0 0 0 0 0 0 0 false false false.

Section tx_sar_table.
Context `{cfg : ToeConfig}.
(** What the local [ap_uint<30> scaled_recv_window] holds before 16 of its
    bits are assigned. *)
Variable uninit : Z.

Definition INIT_CONG_WINDOW : Z := 0x3908.

Definition tx_entry (s : txsar) (id : Z) : txSarEntry := entry txSarEntry_zero (tx_table s) id.

Definition scaled_window (win_shift recv_window : Z) : Z :=
  if WINDOW_SCALE then wrap 30 (set_bits uninit win_shift 16 recv_window) else recv_window.

Definition min_window (cong_window scaled_recv_window : Z) : Z :=
  wrap WINDOW_BITS (if cong_window <? scaled_recv_window then cong_window else scaled_recv_window).

(** Writes of the TX engine. *)
Definition tx_eng_init (q : txTxSarQuery) (e : txSarEntry) : txSarEntry :=
  mk_txSarEntry (u32 (tq_not_ackd q - 1)) (te_not_ackd e) (te_recv_window e) (te_win_shift e)
    INIT_CONG_WINDOW 0xFFFF (wrap WINDOW_BITS (tq_not_ackd q)) (te_count e)
    (te_fastRetransmitted e) (tq_finReady q) (tq_finSent q).
Definition tx_eng_write (q : txTxSarQuery) (e : txSarEntry) : txSarEntry :=
  let e1 := mk_txSarEntry (te_ackd e) (tq_not_ackd q) (te_recv_window e) (te_win_shift e)
    (te_cong_window e) (te_slowstart_threshold e) (te_app e) (te_count e)
    (te_fastRetransmitted e) (te_finReady e) (te_finSent e) in
  let e2 := if tq_init q then tx_eng_init q e1 else e1 in
  mk_txSarEntry (te_ackd e2) (te_not_ackd e2) (te_recv_window e2) (te_win_shift e2)
    (te_cong_window e2) (te_slowstart_threshold e2) (te_app e2) (te_count e2)
    (te_fastRetransmitted e2) (if tq_finReady q then true else te_finReady e2)
    (if tq_finSent q then true else te_finSent e2).
Definition tx_eng_retransmit (q : txTxSarQuery) (e : txSarEntry) : txSarEntry :=
  mk_txSarEntry (te_ackd e) (te_not_ackd e) (te_recv_window e) (te_win_shift e)
    INIT_CONG_WINDOW (getThreshold q) (te_app e) (te_count e)
    (te_fastRetransmitted e) (te_finReady e) (te_finSent e).

Definition used_length (e : txSarEntry) : Z :=
  wrap WINDOW_BITS (wrap WINDOW_BITS (te_not_ackd e) - te_ackd e).

Definition entry_min_window (e : txSarEntry) : Z :=
  min_window (te_cong_window e) (scaled_window (te_win_shift e) (te_recv_window e)).

Definition usable_window (e : txSarEntry) : Z :=
  if entry_min_window e <? used_length e
  then wrap WINDOW_BITS (entry_min_window e - used_length e) else 0.

Definition tx_eng_reply (e : txSarEntry) : txTxSarReply :=
  mk_txTxSarReply (te_ackd e) (te_not_ackd e) (usable_window e) (te_app e) (used_length e)
    (te_finReady e) (te_finSent e).

Definition tx_set_app (app : Z) (e : txSarEntry) : txSarEntry :=
  mk_txSarEntry (te_ackd e) (te_not_ackd e) (te_recv_window e) (te_win_shift e)
    (te_cong_window e) (te_slowstart_threshold e) app (te_count e)
    (te_fastRetransmitted e) (te_finReady e) (te_finSent e).

(** Writes of the RX engine. *)
Definition rx_eng_write (q : rxTxSarQuery) (e : txSarEntry) : txSarEntry :=
  mk_txSarEntry (xq_ackd q) (te_not_ackd e) (xq_recv_window q)
    (if WINDOW_SCALE && xq_init q then xq_win_shift q else te_win_shift e)
    (xq_cong_window q) (te_slowstart_threshold e) (te_app e) (xq_count q)
    (xq_fastRetransmitted q) (te_finReady e) (te_finSent e).

Definition ack_push (q : rxTxSarQuery) (win_shift : Z) : txSarAckPush :=
  mk_txSarAckPush (xq_sessionID q) (wrap WINDOW_BITS (xq_ackd q))
    (if TCP_NODELAY then min_window (xq_cong_window q) (scaled_window win_shift (xq_recv_window q))
     else 0) false.

Definition tx_sar_table (s : txsar) : step_result (txsar * list txsar_out) :=
  let '(mk_txsar t eng app rx) := s in
  match eng, app, rx with
  | q :: eng', _, _ =>
      let id := tq_sessionID q in
      at_index id (Next (
        if tq_write q then
          if negb (tq_isRtQuery q) then
            (mk_txsar (<[id := tx_eng_write q (tx_entry s id)]> t) eng' app rx,
             if tq_init q then
               [TToTxApp (mk_txSarAckPush id (wrap WINDOW_BITS (tq_not_ackd q))
                 (if TCP_NODELAY then INIT_CONG_WINDOW else 0) true)]
             else [])
          else (mk_txsar (<[id := tx_eng_retransmit q (tx_entry s id)]> t) eng' app rx, [])
        else (mk_txsar t eng' app rx, [TToTxEng (tx_eng_reply (tx_entry s id))])))
  | [], push :: app', _ =>
      let id := ap_sessionID push in
      at_index id (Next (
        mk_txsar (<[id := tx_set_app (ap_app push) (tx_entry s id)]> t) eng app' rx, []))
  | [], [], q :: rx' =>
      let id := xq_sessionID q in
      let e := tx_entry s id in
      at_index id (Next (
        if xq_write q then
          (mk_txsar (<[id := rx_eng_write q e]> t) eng app rx',
           [TToTxApp (ack_push q (te_win_shift (rx_eng_write q e)))])
        else
          (mk_txsar t eng app rx',
           [TToRxEng (mk_rxTxSarReply (te_ackd e) (te_not_ackd e) (te_cong_window e)
             (te_slowstart_threshold e) (te_count e) (te_fastRetransmitted e))])))
  | [], [], [] => Next (s, [])
  end.
End tx_sar_table.

(** ** The advertised window *)

Section windows.
Context `{cfg : ToeConfig}.

(** The free part of a circular buffer: one byte less than what is not unread. *)
Lemma free_space (m r a : Z) :
  0 < m -> (a - r mod m - 1) mod m = m - 1 - (r - a) mod m.
Proof.
  intros Hm. pose proof (Z.div_mod (r - a) m ltac:(lia)). pose proof (Z.div_mod r m ltac:(lia)).
  pose proof (Z.mod_pos_bound (r - a) m ltac:(lia)).
  symmetry. apply (Z.mod_unique _ _ (r / m - (r - a) / m - 1)); [lia|]. lia.
Qed.

Lemma window_bits_16 : WINDOW_SCALE = false -> WINDOW_BITS = 16.
Proof. unfold WINDOW_BITS. by intros ->. Qed.
Lemma window_bits_18 : WINDOW_SCALE = true -> WINDOW_BITS = 18.
Proof. unfold WINDOW_BITS. by intros ->. Qed.

(** Before truncation to its 16-bit field, the window is the free space
    shifted by the scale in force. *)
Lemma window_reply_size (e : rxSarEntry) :
  rr_windowSize (window_reply e) = u16 (Z.shiftr (BUFFER_SIZE - 1 - unread e) (rx_shift e)).
Proof.
  unfold window_reply, rx_shift, unread. cbn [rr_windowSize]. rewrite BUFFER_SIZE_pow.
  destruct WINDOW_SCALE eqn:Hs.
  - f_equal. f_equal. unfold wrap. apply free_space. apply pow2_pos. pose proof window_bits_range. lia.
  - rewrite (window_bits_16 Hs), Z.shiftr_0_r. unfold wrap. rewrite free_space by lia.
    symmetry. apply Z.mod_small. pose proof (Z.mod_pos_bound (re_recvd e - re_appd e) (2 ^ 16)). lia.
Qed.

Lemma unread_range (e : rxSarEntry) : 0 <= unread e < BUFFER_SIZE.
Proof.
  rewrite BUFFER_SIZE_pow. apply wrap_range. pose proof window_bits_range. lia.
Qed.

Lemma shift_window (x sh : Z) : 0 <= x -> 0 <= sh ->
  Z.shiftl (u16 (Z.shiftr x sh)) sh <= x /\
  (Z.shiftr x sh < 2 ^ 16 -> x < Z.shiftl (u16 (Z.shiftr x sh) + 1) sh).
Proof.
  intros Hx Hsh. rewrite !Z.shiftl_mul_pow2, !Z.shiftr_div_pow2 by lia.
  pose proof (pow2_pos sh Hsh) as Hp.
  pose proof (Z.div_mod x (2 ^ sh) ltac:(lia)). pose proof (Z.mod_pos_bound x (2 ^ sh) Hp).
  assert (0 <= x / 2 ^ sh) by (apply Z.div_pos; lia).
  assert (u16 (x / 2 ^ sh) <= x / 2 ^ sh) by (apply Z.mod_le; lia).
  split; [nia|]. intros Hlt. rewrite wrap_small by (unfold fits; lia). nia.
Qed.

(** C40: The window the RX SAR table reports to the TX engine, scaled by the shift in force, never
    exceeds the free part of the receive buffer.  Without window scaling, and with the shift the
    stack itself announces, it also withholds less than one unit of the shift.  With a peer that
    does not scale (shift 0) the free space is cut to 16 bits: the window is zero when 65535 bytes
    are unread and 192 KiB of the buffer are free. *)
Theorem advertised_window (s : rxsar) (addr : Z) (rest : list Z) :
  in_table addr = true -> txEng2rxSar_req s = addr :: rest ->
  0 <= re_win_shift (rx_entry s addr) ->
  exists s' r,
    rx_sar_table s = Next (s', [RToTxEng r]) /\ rx_table s' = rx_table s /\
    let e := rx_entry s addr in
    let free := BUFFER_SIZE - 1 - unread e in
    Z.shiftl (rr_windowSize r) (rx_shift e) <= free /\
    (WINDOW_SCALE = false \/ re_win_shift e = WINDOW_SCALE_BITS ->
     free < Z.shiftl (rr_windowSize r + 1) (rx_shift e)) /\
    (WINDOW_SCALE = true -> re_win_shift e = 0 -> unread e = 65535 ->
     rr_windowSize r = 0 /\ free = 196608).
Proof.
  intros Hin Hreq Hsh. set (e := rx_entry s addr) in *.
  exists (mk_rxsar (rx_table s) rest (rxApp2rxSar_upd_req s) (rxEng2rxSar_upd_req s)), (window_reply e).
  split; [|split; [done|]].
  { destruct s as [t tx app eng]; cbn in *; subst tx. unfold at_index. by rewrite Hin. }
  cbv zeta. rewrite window_reply_size. pose proof (unread_range e) as Hu.
  assert (0 <= rx_shift e) by (unfold rx_shift; destruct WINDOW_SCALE; lia).
  destruct (shift_window (BUFFER_SIZE - 1 - unread e) (rx_shift e)) as [H1 H2]; [lia..|].
  split; [done|]. split.
  - intros Hc. apply H2. rewrite Z.shiftr_div_pow2 by lia. rewrite BUFFER_SIZE_pow in *.
    unfold rx_shift in *. destruct WINDOW_SCALE eqn:Hs.
    + destruct Hc as [|Hc]; [done|]. rewrite Hc, (window_bits_18 Hs) in *.
      apply Z.div_lt_upper_bound; unfold WINDOW_SCALE_BITS; lia.
    + rewrite (window_bits_16 Hs) in *. rewrite Z.div_1_r. lia.
  - intros Hs Hz Hun. rewrite BUFFER_SIZE_pow, (window_bits_18 Hs) in *. unfold rx_shift.
    rewrite Hs, Hz, Hun. done.
Qed.
End windows.

#[local] Instance demo_cfg : ToeConfig := sim_config 1000 true true.

(** Session 7 received 65535 bytes that nobody consumed, from a peer that does
    not scale windows. *)
Definition demo_rx : rxsar := mk_rxsar {[ 7 := mk_rxSarEntry 65535 0 0 65535 0 false ]} [7] [] [].

Lemma advertised_window_witness : exists s' r, rx_sar_table demo_rx = Next (s', [RToTxEng r]) /\ rr_windowSize r = 0.
Proof.
  destruct (advertised_window demo_rx 7 []) as (s' & r & Hr & _ & _ & _ & Hz); [done | done | done |].
  exists s', r. split; [exact Hr|]. by apply Hz.
Defined.

(** ** The send window *)

Section send_window.
Context `{cfg : ToeConfig}.

Lemma scaled_window_exact (sh w : Z) :
  WINDOW_SCALE = true -> 0 <= sh <= 14 -> fits 16 w -> scaled_window 0 sh w = Z.shiftl w sh.
Proof.
  intros Hs Hsh Hw. unfold scaled_window. rewrite Hs. unfold set_bits.
  rewrite Z.ldiff_0_l, Z.lor_0_l, (wrap_small 16 w Hw).
  apply wrap_small, (fits_shiftl 16); [lia..|done].
Qed.

Lemma min_window_exact (c w : Z) :
  fits WINDOW_BITS c -> 0 <= w -> min_window c w = Z.min c w.
Proof.
  intros Hc Hw. unfold min_window. destruct (Z.ltb_spec c w).
  - rewrite Z.min_l by lia. by apply wrap_small.
  - rewrite Z.min_r by lia. apply wrap_small. unfold fits in *. lia.
Qed.

Definition tx_shift (q : rxTxSarQuery) (e : txSarEntry) : Z :=
  if WINDOW_SCALE then (if xq_init q then xq_win_shift q else te_win_shift e) else 0.

(** An acknowledgement of the RX engine is stored and, if no older request is pending, pushed
    to the TX application interface together with the window the application may have in flight:
    the smaller of the congestion window and the peer's window scaled by the session's shift --
    the shift of this query when it opens the connection, the stored one afterwards.  This is so
    when the local variable the 16 bits are assigned into happens to be zero. *)
Theorem ack_push_window (s : txsar) (q : rxTxSarQuery) (rest : list rxTxSarQuery) :
  TCP_NODELAY = true -> txEng2txSar_upd_req s = [] -> txApp2txSar_app_push s = [] ->
  rxEng2txSar_upd_req s = q :: rest -> xq_write q = true -> in_table (xq_sessionID q) = true ->
  fits WINDOW_BITS (xq_cong_window q) -> fits 16 (xq_recv_window q) ->
  let id := xq_sessionID q in let sh := tx_shift q (tx_entry s id) in
  0 <= sh <= 14 ->
  exists s',
    tx_sar_table 0 s = Next (s', [TToTxApp (mk_txSarAckPush id (wrap WINDOW_BITS (xq_ackd q))
      (Z.min (xq_cong_window q) (Z.shiftl (xq_recv_window q) sh)) false)]) /\
    te_ackd (tx_entry s' id) = xq_ackd q /\ te_not_ackd (tx_entry s' id) = te_not_ackd (tx_entry s id) /\
    tx_shift q (tx_entry s' id) = sh /\
    (forall id', id' <> id -> tx_entry s' id' = tx_entry s id').
Proof.
  intros Hnd He Ha Hr Hw Hin Hc Hrw. cbv zeta. unfold tx_shift. intros Hsh.
  destruct s as [t eng app rx]; cbn [txEng2txSar_upd_req txApp2txSar_app_push rxEng2txSar_upd_req] in *.
  subst. cbn [tx_sar_table]. unfold at_index. rewrite Hin, Hw. eexists. split; [|split_and!].
  - do 3 f_equal. unfold ack_push. rewrite Hnd. f_equal. f_equal.
    destruct WINDOW_SCALE eqn:Hs.
    + rewrite scaled_window_exact, min_window_exact; try done.
      * unfold rx_eng_write. cbn. rewrite Hs. done.
      * apply Z.shiftl_nonneg. apply Hrw.
      * unfold rx_eng_write. cbn. rewrite Hs. done.
    + unfold scaled_window. rewrite Hs, min_window_exact, Z.shiftl_0_r by (done || apply Hrw). done.
  - unfold tx_entry. cbn. rewrite entry_insert, decide_True by done. done.
  - unfold tx_entry. cbn. rewrite entry_insert, decide_True by done. done.
  - unfold tx_entry. cbn. rewrite entry_insert, decide_True by done. cbn.
    destruct WINDOW_SCALE, (xq_init q); done.
  - intros id' Hne. unfold tx_entry. cbn. rewrite entry_insert, decide_False by done. done.
Qed.

(** The usable window the TX engine reads has its test inverted: it is zero whenever the bytes in
    flight fit the minimum of the congestion and the peer's window, and when they exceed it, it is
    the excess counted down from the top of the sequence window, at least one. *)
Theorem usable_window_inverted (uninit : Z) (s : txsar) (q : txTxSarQuery) (rest : list txTxSarQuery) :
  txEng2txSar_upd_req s = q :: rest -> tq_write q = false -> in_table (tq_sessionID q) = true ->
  let e := tx_entry s (tq_sessionID q) in
  exists s' r,
    tx_sar_table uninit s = Next (s', [TToTxEng r]) /\ tx_table s' = tx_table s /\
    tr_usedLength r = used_length e /\
    (used_length e <= entry_min_window uninit e -> tr_usableWindow r = 0) /\
    (entry_min_window uninit e < used_length e ->
     tr_usableWindow r = BUFFER_SIZE - (used_length e - entry_min_window uninit e) /\ 0 < tr_usableWindow r).
Proof.
  intros Hq Hw Hin e. exists (mk_txsar (tx_table s) rest (txApp2txSar_app_push s) (rxEng2txSar_upd_req s)).
  exists (tx_eng_reply uninit e). split.
  { destruct s as [t eng app rx]; cbn in *; subst. unfold at_index. by rewrite Hin, Hw. }
  split; [done|]. split; [done|].
  assert (0 <= WINDOW_BITS) as Hb by (pose proof window_bits_range; lia).
  pose proof (wrap_range WINDOW_BITS (wrap WINDOW_BITS (te_not_ackd e) - te_ackd e) Hb) as Hu.
  pose proof (wrap_range WINDOW_BITS (if te_cong_window e <? scaled_window uninit (te_win_shift e) (te_recv_window e)
    then te_cong_window e else scaled_window uninit (te_win_shift e) (te_recv_window e)) Hb) as Hm.
  change (fits WINDOW_BITS (used_length e)) in Hu. change (fits WINDOW_BITS (entry_min_window uninit e)) in Hm.
  unfold fits in *. rewrite BUFFER_SIZE_pow. cbn [tx_eng_reply tr_usableWindow]. unfold usable_window.
  split; intros H.
  - by rewrite (proj2 (Z.ltb_ge _ _)).
  - rewrite (proj2 (Z.ltb_lt _ _)) by done.
    assert (wrap WINDOW_BITS (entry_min_window uninit e - used_length e) =
      2 ^ WINDOW_BITS - (used_length e - entry_min_window uninit e)) as ->.
    { symmetry. apply (Z.mod_unique _ _ (-1)); lia. }
    lia.
Qed.
End send_window.

(** A peer that scales by 2 acknowledges; then the TX engine asks with 100 of
    4000 bytes in flight. *)
Definition demo_tx : txsar :=
  mk_txsar {[ 5 := mk_txSarEntry 1000 1100 1000 2 0x3908 0xFFFF 1200 0 false false false ]} [] []
    [mk_rxTxSarQuery 5 1100 1000 0x3908 0 false 0 true false].

Lemma ack_push_window_witness :
  exists s', tx_sar_table 0 demo_tx = Next (s', [TToTxApp (mk_txSarAckPush 5 1100 4000 false)]).
Proof.
  destruct (ack_push_window demo_tx (mk_rxTxSarQuery 5 1100 1000 0x3908 0 false 0 true false) [])
    as (s' & H & _); try done. by exists s'.
Defined.

Definition demo_tx_read : txsar :=
  mk_txsar (tx_table demo_tx) [mk_txTxSarQuery 5 0 false false false false false] [] [].

Lemma usable_window_inverted_witness :
  exists s' r, tx_sar_table 0 demo_tx_read = Next (s', [TToTxEng r]) /\ tr_usableWindow r = 0.
Proof.
  destruct (usable_window_inverted 0 demo_tx_read (mk_txTxSarQuery 5 0 false false false false false) [])
    as (s' & r & H & _ & _ & Hz & _); try done.
  exists s', r. split; [exact H|]. by apply Hz.
Defined.
