(* ===== verification/PortTable.v ===== *)
(** The port table ([port_table/port_table.cpp]): four processes that share
    bounded FIFOs.  One keeps the ports the application listens on (0-32767),
    one hands out and takes back ephemeral ports (32768-65535), and two route
    the RX engine's port checks to the right table and merge the answers. *)
From stdpp Require Import base numbers list gmap strings.
From Stdlib Require Import ZArith Lia.
From S2P Require Import Prelude ToeTypes.

Local Open Scope Z_scope.

Inductive cmFsmStateType : Type := READ_DST | READ_LISTENING | READ_USED.

(** The static variables, the internal FIFOs, and the streams to and from the
    other modules.  [portTable2txApp_port_rsp] is drained by the application
    interface; the other two outputs are kept whole. *)
Record pt : Type := mk_pt {
  listeningPortTable : gmap Z bool;
  freePortTable : gmap Z bool;
  pt_cursor : Z;
  cm_fsmState : cmFsmStateType;
  rxEng_check_req : list Z;
  rxApp_listen_req : list Z;
  sLookup_releasePort : list Z;
  pt_listening_req_fifo : list Z;
  pt_used_req_fifo : list Z;
  pt_listening_rsp_fifo : list bool;
  pt_used_rsp_fifo : list bool;
  pt_dstFifo : list bool;
  rxEng_check_rsp : list bool;
  rxApp_listen_rsp : list bool;
  txApp_port_rsp : list Z
}.

Definition pt_init : pt := mk_pt ∅ ∅ 0 READ_DST [] [] [] [] [] [] [] [] [] [] [].

(** Depths of the streams: [#pragma HLS STREAM] in [port_table] and in [toe.cpp]. *)
Definition req_fifo_depth : nat := 2.
Definition rsp_fifo_depth : nat := 2.
Definition dst_fifo_depth : nat := 4.
Definition port_rsp_depth : nat := 4.

(** Ports travel in network byte order. *)
Definition swap16 (p : Z) : Z := set_bits (set_bits 0 0 8 (bits p 8 8)) 8 8 (bits p 0 8).

Definition is_set (t : gmap Z bool) (i : Z) : bool := entry false t i.

Definition listening_port_table (s : pt) : step_result pt :=
  let '(mk_pt lt ft cur cm chk lis rel lq uq lr ur dst o1 o2 o3) := s in
  match lis, lq with
  | currPort :: lis', _ =>
      if is_set lt (bits currPort 0 15) && (currPort <? 32768) then
        Next (mk_pt lt ft cur cm chk lis' rel lq uq lr ur dst o1 (o2 ++ [true]) o3)
      else if negb (is_set lt (bits currPort 0 15)) && (currPort <? 32768) then
        Next (mk_pt (<[currPort := true]> lt) ft cur cm chk lis' rel lq uq lr ur dst o1 (o2 ++ [true]) o3)
      else Next (mk_pt lt ft cur cm chk lis' rel lq uq lr ur dst o1 (o2 ++ [false]) o3)
  | [], p :: lq' =>
      if s_full rsp_fifo_depth lr then Blocked
      else Next (mk_pt lt ft cur cm chk lis rel lq' uq (lr ++ [is_set lt p]) ur dst o1 o2 o3)
  | [], [] => Next s
  end.

Definition free_port_table (s : pt) : step_result pt :=
  let '(mk_pt lt ft cur cm chk lis rel lq uq lr ur dst o1 o2 o3) := s in
  let cur' := wrap 15 (cur + 1) in
  match rel, uq with
  | currPort :: rel', _ =>
      Next (mk_pt lt (if 32768 <=? currPort then <[bits currPort 0 15 := false]> ft else ft) cur' cm
        chk lis rel' lq uq lr ur dst o1 o2 o3)
  | [], p :: uq' =>
      if s_full rsp_fifo_depth ur then Blocked
      else Next (mk_pt lt ft cur' cm chk lis rel lq uq' lr (ur ++ [is_set ft p]) dst o1 o2 o3)
  | [], [] =>
      if negb (is_set ft cur) && negb (s_full port_rsp_depth o3) then
        let freePort := set_bits (set_bits 0 0 15 cur) 15 1 1 in
        Next (mk_pt lt (<[cur := true]> ft) cur' cm chk lis rel lq uq lr ur dst o1 o2 (o3 ++ [freePort]))
      else Next (mk_pt lt ft cur' cm chk lis rel lq uq lr ur dst o1 o2 o3)
  end.

Definition check_in_multiplexer (s : pt) : step_result pt :=
  let '(mk_pt lt ft cur cm chk lis rel lq uq lr ur dst o1 o2 o3) := s in
  match chk with
  | checkPort :: chk' =>
      let swappedCheckPort := swap16 checkPort in
      if swappedCheckPort <? 32768 then
        if s_full req_fifo_depth lq || s_full dst_fifo_depth dst then Blocked
        else Next (mk_pt lt ft cur cm chk' lis rel (lq ++ [wrap 15 swappedCheckPort]) uq lr ur
               (dst ++ [true]) o1 o2 o3)
      else
        if s_full req_fifo_depth uq || s_full dst_fifo_depth dst then Blocked
        else Next (mk_pt lt ft cur cm chk' lis rel lq (uq ++ [wrap 15 swappedCheckPort]) lr ur
               (dst ++ [false]) o1 o2 o3)
  | [] => Next s
  end.

Definition check_out_multiplexer (s : pt) : step_result pt :=
  let '(mk_pt lt ft cur cm chk lis rel lq uq lr ur dst o1 o2 o3) := s in
  match cm with
  | READ_DST =>
      match dst with
      | d :: dst' =>
          Next (mk_pt lt ft cur (if d then READ_LISTENING else READ_USED) chk lis rel lq uq lr ur dst' o1 o2 o3)
      | [] => Next s
      end
  | READ_LISTENING =>
      match lr with
      | v :: lr' => Next (mk_pt lt ft cur READ_DST chk lis rel lq uq lr' ur dst (o1 ++ [v]) o2 o3)
      | [] => Next s
      end
  | READ_USED =>
      match ur with
      | v :: ur' => Next (mk_pt lt ft cur READ_DST chk lis rel lq uq lr ur' dst (o1 ++ [v]) o2 o3)
      | [] => Next s
      end
  end.

(** ** Runs

    The processes run concurrently; the other modules write requests and the
    application interface takes ports.  The history records the checked ports
    in order, the table lookups, and the ports handed out ([true]) and released
    ([false]). *)
Inductive pt_label : Type :=
| PListening | PFree | PCheckIn | PCheckOut
| PCheck (p : Z) | PListen (p : Z) | PRelease (p : Z) | PTake.

Record pt_hist : Type := mk_pt_hist {
  hs_checked : list Z;
  hs_listening : list (Z * bool);
  hs_used : list (Z * bool);
  hs_ports : list (Z * bool)
}.

Definition pt_request (l : pt_label) (s : pt) : pt :=
  let '(mk_pt lt ft cur cm chk lis rel lq uq lr ur dst o1 o2 o3) := s in
  match l with
  | PCheck p => mk_pt lt ft cur cm (chk ++ [u16 p]) lis rel lq uq lr ur dst o1 o2 o3
  | PListen p => mk_pt lt ft cur cm chk (lis ++ [u16 p]) rel lq uq lr ur dst o1 o2 o3
  | PRelease p => mk_pt lt ft cur cm chk lis (rel ++ [u16 p]) lq uq lr ur dst o1 o2 o3
  | PTake => mk_pt lt ft cur cm chk lis rel lq uq lr ur dst o1 o2 (tail o3)
  | _ => s
  end.

(** What a call of a process adds to the history. *)
Definition pt_record (l : pt_label) (s : pt) (h : pt_hist) : pt_hist :=
  match l with
  | PCheckIn =>
      mk_pt_hist (hs_checked h ++ (swap16 <$> take 1 (rxEng_check_req s))) (hs_listening h) (hs_used h) (hs_ports h)
  | PListening =>
      match rxApp_listen_req s, pt_listening_req_fifo s with
      | [], p :: _ =>
          mk_pt_hist (hs_checked h) (hs_listening h ++ [(p, is_set (listeningPortTable s) p)]) (hs_used h) (hs_ports h)
      | _, _ => h
      end
  | PFree =>
      match sLookup_releasePort s, pt_used_req_fifo s with
      | p :: _, _ => mk_pt_hist (hs_checked h) (hs_listening h) (hs_used h) (hs_ports h ++ [(p, false)])
      | [], p :: _ =>
          mk_pt_hist (hs_checked h) (hs_listening h) (hs_used h ++ [(p, is_set (freePortTable s) p)]) (hs_ports h)
      | [], [] =>
          if negb (is_set (freePortTable s) (pt_cursor s)) && negb (s_full port_rsp_depth (txApp_port_rsp s)) then
            mk_pt_hist (hs_checked h) (hs_listening h) (hs_used h) (hs_ports h ++ [(32768 + pt_cursor s, true)])
          else h
      end
  | _ => h
  end.

Definition pt_process (l : pt_label) (s : pt) : step_result pt :=
  match l with
  | PListening => listening_port_table s
  | PFree => free_port_table s
  | PCheckIn => check_in_multiplexer s
  | PCheckOut => check_out_multiplexer s
  | _ => Next (pt_request l s)
  end.

Definition pt_step (l : pt_label) (sh : pt * pt_hist) : step_result (pt * pt_hist) :=
  let '(s, h) := sh in
  match pt_process l s with
  | Next s' => Next (s', pt_record l s h)
  | Blocked => Blocked
  | StepUndef e => StepUndef e
  end.

Definition pt_start : pt * pt_hist := (pt_init, mk_pt_hist [] [] [] []).

(** ** Answers come in the order of the requests *)

#[local] Arguments s_full {A} depth s : simpl never.

Definition listening (p : Z) : bool := p <? 32768.

(** The table keys of the ports of one kind, and the answers they got. *)
Definition keys (b : bool) (l : list Z) : list Z := wrap 15 <$> filter (fun p => listening p = b) l.
Definition answers (b : bool) (l : list (Z * bool)) : list (Z * bool) :=
  (fun x => (wrap 15 (fst x), snd x)) <$> filter (fun x => listening (fst x) = b) l.

#[local] Arguments keys b l : simpl never.
#[local] Arguments answers b l : simpl never.
#[local] Arguments listening p : simpl never.

Definition expected (c : cmFsmStateType) : list bool :=
  match c with READ_DST => [] | READ_LISTENING => [true] | READ_USED => [false] end.

(** [ans] answered, [pend] routed but not answered, [pL] and [pU] looked up
    but not answered. *)
Record Routed (s : pt) (h : pt_hist) (ans : list (Z * bool)) (pend : list Z)
    (pL pU : list (Z * bool)) : Prop := {
  rt_checked : hs_checked h = ans.*1 ++ pend;
  rt_rsp : rxEng_check_rsp s = ans.*2;
  rt_dst : expected (cm_fsmState s) ++ pt_dstFifo s = listening <$> pend;
  rt_listening : hs_listening h = answers true ans ++ pL;
  rt_used : hs_used h = answers false ans ++ pU;
  rt_lr : pt_listening_rsp_fifo s = pL.*2;
  rt_ur : pt_used_rsp_fifo s = pU.*2;
  rt_lq : pL.*1 ++ pt_listening_req_fifo s = keys true pend;
  rt_uq : pU.*1 ++ pt_used_req_fifo s = keys false pend
}.

Definition CheckInv (sh : pt * pt_hist) : Prop :=
  exists ans pend pL pU, Routed (fst sh) (snd sh) ans pend pL pU.

Lemma keys_app (b : bool) (l1 l2 : list Z) : keys b (l1 ++ l2) = keys b l1 ++ keys b l2.
Proof. unfold keys. by rewrite filter_app, fmap_app. Qed.
Lemma answers_app (b : bool) (l1 l2 : list (Z * bool)) : answers b (l1 ++ l2) = answers b l1 ++ answers b l2.
Proof. unfold answers. by rewrite filter_app, fmap_app. Qed.
Lemma keys_one (b : bool) (p : Z) : keys b [p] = if Bool.eqb (listening p) b then [wrap 15 p] else [].
Proof. unfold keys. rewrite filter_cons, filter_nil. case_decide; by destruct (listening p), b. Qed.
Lemma keys_cons (b : bool) (p : Z) (l : list Z) :
  keys b (p :: l) = if Bool.eqb (listening p) b then wrap 15 p :: keys b l else keys b l.
Proof. unfold keys. rewrite filter_cons. case_decide; by destruct (listening p), b. Qed.
Lemma answers_one (b : bool) (p : Z) (v : bool) :
  answers b [(p, v)] = if Bool.eqb (listening p) b then [(wrap 15 p, v)] else [].
Proof. unfold answers. rewrite filter_cons, filter_nil. cbn. case_decide; by destruct (listening p), b. Qed.

Lemma routed_request (l : pt_label) (s : pt) h ans pend pL pU :
  Routed s h ans pend pL pU -> Routed (pt_request l s) h ans pend pL pU.
Proof. intros []. destruct s, l; by split. Qed.

Lemma listening_routed (s s' : pt) h ans pend pL pU :
  Routed s h ans pend pL pU -> listening_port_table s = Next s' ->
  exists pL', Routed s' (pt_record PListening s h) ans pend pL' pU.
Proof.
  intros [Hc Ho Hd Hl Hu Hlr Hur Hlq Huq] Hs.
  destruct s as [lt ft cur cm chk lis rel lq uq lr ur dst o1 o2 o3]. cbn in *.
  destruct lis as [|p lis]; [destruct lq as [|p lq]; [|destruct (s_full rsp_fifo_depth _)]|];
    cbn in Hs; simplify_eq; try (by exists pL; split).
  - exists (pL ++ [(p, is_set lt p)]). split; cbn; try done.
    + by rewrite Hl, app_assoc.
    + by rewrite fmap_app.
    + rewrite fmap_app, <- app_assoc. done.
  - exists pL. repeat case_match; simplify_eq; by split.
Qed.

Lemma free_routed (s s' : pt) h ans pend pL pU :
  Routed s h ans pend pL pU -> free_port_table s = Next s' ->
  exists pU', Routed s' (pt_record PFree s h) ans pend pL pU'.
Proof.
  intros [Hc Ho Hd Hl Hu Hlr Hur Hlq Huq] Hs.
  destruct s as [lt ft cur cm chk lis rel lq uq lr ur dst o1 o2 o3]. cbn in *.
  destruct rel as [|p rel]; [destruct uq as [|p uq]; [|destruct (s_full rsp_fifo_depth _)]|];
    cbn in Hs; simplify_eq.
  - exists pU. destruct (_ && _); simplify_eq; by split.
  - exists (pU ++ [(p, is_set ft p)]). split; cbn; try done.
    + by rewrite Hu, app_assoc.
    + by rewrite fmap_app.
    + rewrite fmap_app, <- app_assoc. done.
  - exists pU. by split.
Qed.

Lemma check_in_routed (s s' : pt) h ans pend pL pU :
  Routed s h ans pend pL pU -> check_in_multiplexer s = Next s' ->
  exists pend', Routed s' (pt_record PCheckIn s h) ans pend' pL pU.
Proof.
  intros [Hc Ho Hd Hl Hu Hlr Hur Hlq Huq] Hs.
  destruct s as [lt ft cur cm chk lis rel lq uq lr ur dst o1 o2 o3]. cbn in *.
  destruct chk as [|p chk]; cbn in Hs.
  - simplify_eq. exists pend. split; cbn; rewrite ?app_nil_r; done.
  - exists (pend ++ [swap16 p]).
    assert (listening (swap16 p) = (swap16 p <? 32768)) as E by done.
    destruct (swap16 p <? 32768); destruct (_ || _); simplify_eq; split; cbn;
      rewrite ?Hc, ?fmap_app, ?keys_app, ?keys_one, ?E, ?app_assoc, ?Hd, ?Hlq, ?Huq; cbn;
      rewrite ?E, ?app_nil_r; done.
Qed.

Lemma check_out_routed (s s' : pt) h ans pend pL pU :
  Routed s h ans pend pL pU -> check_out_multiplexer s = Next s' ->
  exists ans' pend' pL' pU', Routed s' h ans' pend' pL' pU'.
Proof.
  intros [Hc Ho Hd Hl Hu Hlr Hur Hlq Huq] Hs.
  destruct s as [lt ft cur cm chk lis rel lq uq lr ur dst o1 o2 o3]. cbn in *.
  destruct cm; cbn in *.
  - destruct dst as [|d dst]; simplify_eq; exists ans, pend, pL, pU; split; try done.
    cbn. by destruct d.
  - destruct lr as [|v lr]; simplify_eq; [by exists ans, pend, pL, pU; split|].
    destruct pL as [|[k w] pL], pend as [|p pend]; cbn in *; simplify_eq.
    rewrite keys_cons in Hlq, Huq.
    match goal with H : _ = listening p |- _ => symmetry in H; rewrite H in * end.
    cbn in *. simplify_eq.
    exists (ans ++ [(p, w)]), pend, pL, pU.
    split; cbn; rewrite ?fmap_app, ?answers_app, ?answers_one, <- ?app_assoc; cbn;
      repeat match goal with H : listening p = _ |- _ => rewrite H end; cbn;
      rewrite ?app_nil_r; try done.
  - destruct ur as [|v ur]; simplify_eq; [by exists ans, pend, pL, pU; split|].
    destruct pU as [|[k w] pU], pend as [|p pend]; cbn in *; simplify_eq.
    rewrite keys_cons in Hlq, Huq.
    match goal with H : _ = listening p |- _ => symmetry in H; rewrite H in * end.
    cbn in *. simplify_eq.
    exists (ans ++ [(p, w)]), pend, pL, pU.
    split; cbn; rewrite ?fmap_app, ?answers_app, ?answers_one, <- ?app_assoc; cbn;
      repeat match goal with H : listening p = _ |- _ => rewrite H end; cbn;
      rewrite ?app_nil_r; try done.
Qed.

Lemma CheckInv_step (l : pt_label) (sh sh' : pt * pt_hist) :
  CheckInv sh -> pt_step l sh = Next sh' -> CheckInv sh'.
Proof.
  destruct sh as [s h]. intros (ans&pend&pL&pU&HR) Hs. unfold pt_step in Hs.
  destruct (pt_process l s) as [| |s1] eqn:E; simplify_eq. unfold CheckInv; cbn in *.
  destruct l; cbn in E.
  - destruct (listening_routed _ _ _ _ _ _ _ HR E). eauto.
  - destruct (free_routed _ _ _ _ _ _ _ HR E). eauto.
  - destruct (check_in_routed _ _ _ _ _ _ _ HR E). eauto.
  - exact (check_out_routed _ _ _ _ _ _ _ HR E).
  - simplify_eq. exists ans, pend, pL, pU. by apply routed_request.
  - simplify_eq. exists ans, pend, pL, pU. by apply routed_request.
  - simplify_eq. exists ans, pend, pL, pU. by apply routed_request.
  - simplify_eq. exists ans, pend, pL, pU. by apply routed_request.
Qed.

Lemma run_checks (ls : list pt_label) (sh : pt * pt_hist) :
  steps pt_step ls pt_start = Next sh -> CheckInv sh.
Proof.
  intros Hrun.
  refine (steps_invariant pt_step (fun _ => True) CheckInv _ ls pt_start sh _ _ Hrun).
  - intros l s s' _. apply CheckInv_step.
  - by apply Forall_true.
  - by exists [], [], [], [].
Qed.

(** The ports the RX engine asked about, in the order it asked. *)
Definition check_of (l : pt_label) : list Z := match l with PCheck p => [swap16 (u16 p)] | _ => [] end.
Definition requested (ls : list pt_label) : list Z := ls ≫= check_of.

Lemma requests_recorded (ls : list pt_label) (s s' : pt) (h h' : pt_hist) :
  steps pt_step ls (s, h) = Next (s', h') ->
  hs_checked h' ++ (swap16 <$> rxEng_check_req s') =
    (hs_checked h ++ (swap16 <$> rxEng_check_req s)) ++ requested ls.
Proof.
  revert s h. induction ls as [|l ls IH]; intros s h; cbn [steps].
  - intros [= -> ->]. by rewrite app_nil_r.
  - destruct (pt_step l (s, h)) as [| |[s1 h1]] eqn:E; try done. intros Hrun.
    rewrite (IH _ _ Hrun). unfold requested at 2. rewrite bind_cons, app_assoc. f_equal.
    unfold pt_step in E. destruct (pt_process l s) as [| |s2] eqn:Ep; simplify_eq.
    destruct s as [lt ft cur cm chk lis rel lq uq lr ur dst o1 o2 o3].
    destruct l; cbn in *; repeat case_match; simplify_eq; cbn;
      rewrite ?app_nil_r, ?fmap_app, <- ?app_assoc; done.
Qed.

(** C34: The port table answers the RX engine's port checks in the order they were asked, although
    they pass through two tables: under any interleaving of the four processes with each other and
    with other requests, the k-th answer is the value that the table responsible for the k-th port
    held when it was looked up, and each table is looked up once per check, in order. *)
Theorem answers_in_order (ls : list pt_label) (s : pt) (h : pt_hist) :
  steps pt_step ls pt_start = Next (s, h) ->
  exists ans,
    rxEng_check_rsp s = ans.*2 /\ ans.*1 `prefix_of` requested ls /\
    answers true ans `prefix_of` hs_listening h /\ answers false ans `prefix_of` hs_used h.
Proof.
  intros Hrun. destruct (run_checks _ _ Hrun) as (ans & pend & pL & pU & []). cbn in *.
  pose proof (requests_recorded _ _ _ _ _ Hrun) as Hreq. cbn in Hreq.
  exists ans. split_and!; [done| | |].
  - rewrite <- Hreq, rt_checked0, <- app_assoc. by apply prefix_app_r.
  - rewrite rt_listening0. by apply prefix_app_r.
  - rewrite rt_used0. by apply prefix_app_r.
Qed.

(** ** No deadlock *)

(** What is outstanding: each step of a check through the stages takes one. *)
Definition outstanding (s : pt) : nat :=
  4 * length (rxEng_check_req s) + 2 * (length (pt_listening_req_fifo s) + length (pt_used_req_fifo s)) +
  (length (pt_listening_rsp_fifo s) + length (pt_used_rsp_fifo s)) + length (pt_dstFifo s).

Definition quiet (s : pt) : Prop := rxApp_listen_req s = [] /\ sLookup_releasePort s = [].

Definition is_process (l : pt_label) : Prop :=
  match l with PListening | PFree | PCheckIn | PCheckOut => True | _ => False end.

Lemma keys_nil (b : bool) (l : list Z) : (forall p, p ∈ l -> listening p = b) -> keys b l = [] -> l = [].
Proof.
  destruct l as [|p l]; [done|]. intros H. rewrite keys_cons, (H p) by (by left).
  by rewrite eqb_reflx.
Qed.

Lemma process_progress (s : pt) (h : pt_hist) :
  CheckInv (s, h) -> quiet s -> outstanding s <> 0%nat ->
  exists l s', is_process l /\ pt_process l s = Next s' /\ quiet s' /\
    S (outstanding s') = outstanding s.
Proof.
  intros (ans & pend & pL & pU & [Hc Ho Hd Hl Hu Hlr Hur Hlq Huq]) [Hq1 Hq2] Hn.
  destruct s as [lt ft cur cm chk lis rel lq uq lr ur dst o1 o2 o3]. unfold outstanding, quiet in *.
  cbn in *. subst lis rel. destruct cm; cbn in Hd.
  - destruct dst as [|d dst].
    + destruct pend; [|done]. destruct pL, pU, lq, uq; try done. subst lr ur. cbn in *.
      destruct chk as [|p chk]; [done|]. exists PCheckIn. cbn.
      destruct (swap16 p <? 32768); eexists; (split; [done|]; split; [done|]; cbn; split; [done | lia]).
    + exists PCheckOut. eexists. split; [done|]. split; [done|]. cbn. split; [done | lia].
  - destruct lr as [|v lr].
    + destruct pL, pend as [|q pend]; try done. cbn in Hd. simplify_eq. rewrite keys_cons in Hlq.
      destruct (listening q); try done. cbn in Hlq. subst lq. exists PListening. eexists.
      split; [done|]. split; [done|]. cbn. split; [done | lia].
    + exists PCheckOut. eexists. split; [done|]. split; [done|]. cbn. split; [done | lia].
  - destruct ur as [|v ur].
    + destruct pU, pend as [|q pend]; try done. cbn in Hd. simplify_eq. rewrite keys_cons in Huq.
      destruct (listening q); try done. cbn in Huq. subst uq. exists PFree. eexists.
      split; [done|]. split; [done|]. cbn. split; [done | lia].
    + exists PCheckOut. eexists. split; [done|]. split; [done|]. cbn. split; [done | lia].
Qed.

Lemma finish_checks (n : nat) (s : pt) (h : pt_hist) :
  CheckInv (s, h) -> quiet s -> outstanding s = n ->
  exists ls s' h', Forall is_process ls /\ length ls = n /\
    steps pt_step ls (s, h) = Next (s', h') /\ CheckInv (s', h') /\ outstanding s' = 0%nat.
Proof.
  revert s h. induction n as [|n IH]; intros s h HI Hq Hn.
  - exists [], s, h. done.
  - destruct (process_progress s h HI Hq ltac:(lia)) as (l & s1 & Hp & Hs & Hq1 & Hm).
    assert (pt_step l (s, h) = Next (s1, pt_record l s h)) as Hstep by (cbn; by rewrite Hs).
    destruct (IH s1 (pt_record l s h)) as (ls & s' & h' & H1 & H2 & H3 & H4);
      [by eapply CheckInv_step | done | lia |].
    exists (l :: ls), s', h'. split; [by constructor|]. split; [cbn; lia|]. split; [|done].
    cbn [steps]. by rewrite Hstep.
Qed.

(** The bounded FIFOs of the port table never deadlock the port checks: from every reachable
    state with no listen or release request pending, the processes alone can answer every check
    that was asked, in as many calls as the checks have stages left. *)
Theorem checks_answered (ls : list pt_label) (s : pt) (h : pt_hist) :
  steps pt_step ls pt_start = Next (s, h) -> quiet s ->
  exists ls' s' h',
    Forall is_process ls' /\ length ls' = outstanding s /\
    steps pt_step ls' (s, h) = Next (s', h') /\
    length (rxEng_check_rsp s') = length (requested ls).
Proof.
  intros Hrun Hq. pose proof (run_checks _ _ Hrun) as HI.
  destruct (finish_checks _ s h HI Hq eq_refl) as (ls' & s' & h' & Hp & Hlen & Hrun' & HI' & Ho).
  exists ls', s', h'. split_and!; try done.
  destruct HI' as (ans & pend & pL & pU & [Hc Hr Hd Hl Hu Hlr Hur Hlq Huq]).
  pose proof (requests_recorded (ls ++ ls') _ s' _ h'
    (eq_trans (steps_app pt_step ls ls' _ _ Hrun) Hrun')) as Hreq. cbn in Hreq.
  assert (requested ls' = []) as Hnil.
  { unfold requested. clear -Hp. induction Hp as [|l ls' Hl Hp IH]; [done|].
    rewrite bind_cons, IH. by destruct l. }
  unfold requested in Hreq, Hnil |- *. rewrite bind_app, Hnil, app_nil_r in Hreq.
  destruct s' as [lt ft cur cm chk lis rel lq uq lr ur dst o1 o2 o3]. unfold outstanding in Ho. cbn in *.
  destruct chk, lq, uq, lr, ur, dst; try done. destruct pL, pU; try done. cbn in *.
  assert (pend = []) as ->.
  { destruct pend as [|p pend]; [done|]. rewrite keys_cons in Hlq, Huq. by destruct (listening p). }
  rewrite app_nil_r in Hreq, Hc. rewrite <- Hreq, Hc, Hr, !length_fmap. done.
Qed.

(** A check of a listening port, one of an ephemeral port and one of a closed
    port, with the second table answering first. *)
Definition demo_checks : list pt_label :=
  [PListen 80; PListening; PCheck (swap16 80); PCheck (swap16 40000); PCheck (swap16 81);
   PCheckIn; PCheckIn; PCheckIn; PFree; PListening; PCheckOut; PCheckOut; PListening; PCheckOut].
Definition demo_state : pt * pt_hist :=
  match steps pt_step demo_checks pt_start with Next sh => sh | _ => pt_start end.

Lemma answers_in_order_witness :
  exists ans, rxEng_check_rsp (fst demo_state) = ans.*2 /\ ans.*1 `prefix_of` requested demo_checks.
Proof.
  destruct (answers_in_order demo_checks (fst demo_state) (snd demo_state)) as (ans & H1 & H2 & _);
    [vm_compute; reflexivity|]. by exists ans.
Defined.

Lemma checks_answered_witness :
  exists ls' s' h', steps pt_step ls' demo_state = Next (s', h') /\ length (rxEng_check_rsp s') = 3%nat.
Proof.
  destruct (checks_answered demo_checks (fst demo_state) (snd demo_state)) as (ls' & s' & h' & _ & _ & H & Hl);
    [vm_compute; reflexivity | split; reflexivity|].
  exists ls', s', h'. split; [exact H | exact Hl].
Defined.

(** ** Ephemeral ports *)

(** Whether a port is handed out after a history of hand-outs and releases. *)
Definition held (l : list (Z * bool)) (p : Z) : bool :=
  foldl (fun b e => if fst e =? p then snd e else b) false l.

#[local] Arguments held l p : simpl never.
#[local] Arguments is_set t i : simpl never.
#[local] Arguments wrap w x : simpl never.

Lemma held_ports_app (l1 l2 : list (Z * bool)) (p : Z) :
  held (l1 ++ l2) p = foldl (fun b e => if fst e =? p then snd e else b) (held l1 p) l2.
Proof. apply foldl_app. Qed.

Lemma held_released (l1 l2 : list (Z * bool)) (p : Z) :
  held (l1 ++ (p, true) :: l2) p = false -> (p, false) ∈ l2.
Proof.
  rewrite held_ports_app. cbn. rewrite Z.eqb_refl. induction l2 as [|[q b] l2 IH] using rev_ind; [done|].
  rewrite foldl_app. cbn. destruct (Z.eqb_spec q p) as [->|].
  - intros ->. apply elem_of_app. right. by apply list_elem_of_singleton.
  - intros H. apply elem_of_app. left. by apply IH.
Qed.

Record PortInv (sh : pt * pt_hist) : Prop := {
  pi_cursor : fits 15 (pt_cursor (fst sh));
  pi_releases : Forall (fits 16) (sLookup_releasePort (fst sh));
  pi_table : forall i, fits 15 i ->
    is_set (freePortTable (fst sh)) i = held (hs_ports (snd sh)) (32768 + i);
  pi_handouts : forall l1 p l2, hs_ports (snd sh) = l1 ++ (p, true) :: l2 ->
    held l1 p = false /\ 32768 <= p < 65536;
  pi_queue : exists taken, filter (fun e => snd e = true) (hs_ports (snd sh)) =
    ((fun p => (p, true)) <$> taken ++ txApp_port_rsp (fst sh))
}.

Lemma freePort_value (cur : Z) : fits 15 cur -> set_bits (set_bits 0 0 15 cur) 15 1 1 = 32768 + cur.
Proof.
  intros Hc. unfold set_bits at 2. rewrite Z.ldiff_0_l, Z.lor_0_l, (wrap_small 15 cur Hc), Z.shiftl_0_r.
  apply Z.bits_inj'. intros i Hi. rewrite set_bits_testbit by lia.
  change (32768 + cur) with (2 ^ 15 + cur).
  assert (2 ^ 15 + cur = Z.lor (2 ^ 15) cur) as ->.
  { assert (Z.land (2 ^ 15) cur = 0) as Hz.
    { apply Z.bits_inj'. intros j Hj. rewrite Z.land_spec, Z.bits_0, Z.pow2_bits_eqb by lia.
      destruct (Z.eqb_spec 15 j); [|done]. cbn. by rewrite (fits_testbit 15 cur j) by (done || lia). }
    rewrite <- Z.lxor_lor, <- Z.add_nocarry_lxor by done. done. }
  rewrite Z.lor_spec, Z.pow2_bits_eqb by lia.
  destruct (Z.leb_spec 15 i), (Z.ltb_spec i (15 + 1)), (Z.eqb_spec 15 i); try lia;
    rewrite ?andb_true_l, ?andb_false_l, ?orb_true_l, ?orb_false_l; try done.
  by subst i.
Qed.

(** Extending the history by a hand-out of a free port or by a release. *)
Lemma handouts_app (l : list (Z * bool)) (q : Z) (b : bool) :
  (forall l1 p l2, l = l1 ++ (p, true) :: l2 -> held l1 p = false /\ 32768 <= p < 65536) ->
  (b = true -> held l q = false /\ 32768 <= q < 65536) ->
  forall l1 p l2, l ++ [(q, b)] = l1 ++ (p, true) :: l2 -> held l1 p = false /\ 32768 <= p < 65536.
Proof.
  intros Hl Hq l1 p l2 E. destruct l2 as [|e l2 _] using rev_ind.
  - apply app_inj_2 in E as [-> [= -> ->]]; [|done]. by apply Hq.
  - rewrite app_comm_cons, app_assoc in E. apply app_inj_2 in E as [-> _]; [|done]. by eapply Hl.
Qed.

Lemma PortInv_free (s s' : pt) (h : pt_hist) :
  PortInv (s, h) -> free_port_table s = Next s' -> PortInv (s', pt_record PFree s h).
Proof.
  intros [Hcur Hrel Htab Hho [taken Hq]] Hs.
  destruct s as [lt ft cur cm chk lis rel lq uq lr ur dst o1 o2 o3]. cbn in *.
  assert (fits 15 (wrap 15 (cur + 1))) as Hcur' by (by apply wrap_range).
  destruct rel as [|p rel]; [destruct uq as [|p uq]; [|destruct (s_full rsp_fifo_depth ur)]|];
    cbn in Hs; simplify_eq.
  - destruct (negb (is_set ft cur) && negb (s_full port_rsp_depth o3)) eqn:E; simplify_eq; cbn.
    + apply andb_true_iff in E as [E _]. apply negb_true_iff in E.
      split; cbn; try done.
      * intros i Hi. rewrite held_ports_app. cbn. unfold is_set. rewrite entry_insert.
        destruct (Z.eqb_spec (32768 + cur) (32768 + i)); case_decide; try lia; try done. by apply Htab.
      * apply handouts_app; [done|]. intros _. rewrite <- Htab by done. unfold fits in Hcur. by split; [|lia].
      * exists taken. rewrite filter_app, Hq, filter_cons_True, filter_nil by done.
        rewrite freePort_value, !fmap_app, <- app_assoc by done. done.
    + split; cbn; try done. by exists taken.
  - split; cbn; try done. by exists taken.
  - inversion Hrel as [|? ? Hp Hrel']; subst. split; cbn; try done.
    + intros i Hi. rewrite held_ports_app. cbn. rewrite <- Htab by done. unfold fits in *.
      destruct (Z.leb_spec 32768 p).
      * unfold is_set. rewrite entry_insert, bits_wrap, Z.shiftr_0_r by lia. unfold wrap.
        assert (p mod 2 ^ 15 = p - 32768) as ->.
        { symmetry. apply (Z.mod_unique _ _ 1); lia. }
        case_decide; destruct (Z.eqb_spec p (32768 + i)); try lia; done.
      * destruct (Z.eqb_spec p (32768 + i)); [lia | done].
    + by apply handouts_app.
    + exists taken. rewrite filter_app, Hq, filter_cons_False, filter_nil, app_nil_r by done. done.
Qed.

Lemma PortInv_step (l : pt_label) (sh sh' : pt * pt_hist) :
  PortInv sh -> pt_step l sh = Next sh' -> PortInv sh'.
Proof.
  destruct sh as [s h]. intros HI Hs. unfold pt_step in Hs.
  destruct (pt_process l s) as [| |s1] eqn:E; simplify_eq.
  destruct l; try (by eapply PortInv_free); destruct HI as [Hcur Hrel Htab Hho [taken Hq]];
    destruct s as [lt ft cur cm chk lis rel lq uq lr ur dst o1 o2 o3]; cbn in *;
    repeat case_match; simplify_eq; split; cbn; try done; try (by exists taken).
  - apply Forall_app. split; [done|]. constructor; [by apply wrap_range | done].
  - destruct o3 as [|q o3]; cbn; [by exists taken|]. exists (taken ++ [q]). by rewrite <- app_assoc.
Qed.

(** Ephemeral ports are handed out exclusively: the application interface only ever gets ports
    from 32768 to 65535, in the order they were drawn, and between two hand-outs of the same port
    the session lookup has released it. *)
Theorem free_ports_exclusive (ls : list pt_label) (s : pt) (h : pt_hist) :
  steps pt_step ls pt_start = Next (s, h) ->
  (exists taken, (filter (fun e => snd e = true) (hs_ports h)).*1 = taken ++ txApp_port_rsp s) /\
  Forall (fun p => 32768 <= p < 65536) (txApp_port_rsp s) /\
  (forall l1 p l2 l3, hs_ports h = l1 ++ (p, true) :: l2 ++ (p, true) :: l3 -> (p, false) ∈ l2).
Proof.
  intros Hrun.
  assert (PortInv (s, h)) as [_ _ _ Hho [taken Hq]].
  { refine (steps_invariant pt_step (fun _ => True) PortInv _ ls pt_start (s, h) _ _ Hrun).
    - intros l sh sh' _. apply PortInv_step.
    - by apply Forall_true.
    - split; cbn; try done. { intros l1 p l2 E. by destruct l1. } by exists []. }
  cbn in *. split_and!.
  - exists taken. rewrite Hq, <- list_fmap_compose. cbn. by rewrite list_fmap_id.
  - apply Forall_forall. intros p Hp.
    assert ((p, true) ∈ hs_ports h) as Hin.
    { assert ((p, true) ∈ filter (fun e => snd e = true) (hs_ports h)) as H; [|by apply list_elem_of_filter in H as [_ H]].
      rewrite Hq. apply list_elem_of_fmap. exists p. split; [done|]. apply elem_of_app. by right. }
    apply list_elem_of_split in Hin as (l1 & l2 & E). by destruct (Hho _ _ _ E).
  - intros l1 p l2 l3 E. apply (held_released l1).
    apply (Hho (l1 ++ (p, true) :: l2) p l3). by rewrite E, <- app_assoc.
Qed.

(** The first two draws, one taken, the second released and drawn again after
    the cursor wrapped. *)
Definition demo_ports : list pt_label := [PFree; PFree; PTake; PRelease 32769; PFree].
Definition demo_ports_state : pt * pt_hist :=
  match steps pt_step demo_ports pt_start with Next sh => sh | _ => pt_start end.

Lemma free_ports_exclusive_witness :
  txApp_port_rsp (fst demo_ports_state) = [32769] /\
  Forall (fun p => 32768 <= p < 65536) (txApp_port_rsp (fst demo_ports_state)).
Proof.
  split; [vm_compute; reflexivity|].
  apply (free_ports_exclusive demo_ports (fst demo_ports_state) (snd demo_ports_state)).
  vm_compute. reflexivity.
Defined.
