(* ===== verification/Timers.v ===== *)
(** The timers of the TCP offload engine: [close_timer/close_timer.cpp],
    [close_timer/timerCloseMerger.cpp], [probe_timer/probe_timer.cpp] and
    [retransmit_timer/retransmit_timer.cpp].

    Each timer keeps one entry per session and sweeps over them, one entry per
    call; requests take precedence over the sweep.  A call returns the timer
    with what it wrote.  A stream whose fill level the code tests is also part
    of the timer's state. *)
From stdpp Require Import base numbers list gmap strings.
From Stdlib Require Import ZArith Lia.
From S2P Require Import Prelude ToeTypes.

Local Open Scope Z_scope.

(** ** Close timer: sessions in TIME-WAIT *)

(** [close_timer_entry] and [probe_timer_entry]. *)
Record timer_entry : Type := mk_timer { tm_time : Z; tm_active : bool }.
Definition timer_zero : timer_entry := mk_timer 0 false.

Record ctimer : Type := mk_ctimer {
  closeTimerTable : gmap Z timer_entry;
  ct_currSessionID : Z;
  ct_setSessionID : Z;
  ct_prevSessionID : Z;
  ct_waitForWrite : bool;
  rxEng2timer_setCloseTimer : list Z
}.

Definition ctimer_init : ctimer := mk_ctimer ∅ 0 0 0 false [].

Section timers.
Context `{cfg : ToeConfig}.

Definition timer_at (t : gmap Z timer_entry) (id : Z) : timer_entry := entry timer_zero t id.

(** The cursor moves to the next session and wraps at the end of the table. *)
Definition next_session (id : Z) : Z :=
  let id' := u16 (id + 1) in if id' =? MAX_SESSIONS then 0 else id'.

Definition close_timer (s : ctimer) : step_result (ctimer * list Z) :=
  let '(mk_ctimer t curr set prev wait q) := s in
  if wait then
    if negb (set =? prev) then
      at_index set (Next (mk_ctimer (<[set := mk_timer TIME_60s true]> t) curr set (u16 (prev - 1)) false q, []))
    else Next (mk_ctimer t curr set (u16 (prev - 1)) wait q, [])
  else
    match q with
    | id :: q' => Next (mk_ctimer t curr id prev true q', [])
    | [] =>
        at_index curr (Next (
          let e := timer_at t curr in
          let '(t', o) :=
            if tm_active e then
              if 0 <? tm_time e then (<[curr := mk_timer (tm_time e - 1) true]> t, [])
              else (<[curr := mk_timer 0 false]> t, [curr])
            else (t, []) in
          (mk_ctimer t' (next_session curr) set curr wait q, o)))
    end.

(** [timerCloseMerger] and the [stream_merger] that [timerWrapper] uses: the
    first stream has precedence.  The result is what is left of both and what
    is forwarded. *)
Definition timerCloseMerger {A : Type} (in1 in2 : list A) : list A * list A * list A :=
  match in1, in2 with
  | x :: in1', _ => (in1', in2, [x])
  | [], x :: in2' => ([], in2', [x])
  | [], [] => ([], [], [])
  end.
End timers.

(** ** Probe timer: zero windows *)

Record ptimer : Type := mk_ptimer {
  probeTimerTable : gmap Z timer_entry;
  pt_currSessionID : Z;
  pt_updSessionID : Z;
  pt_prevSessionID : Z;
  pt_WaitForWrite : bool;
  rxEng2timer_clearProbeTimer : list Z;
  txEng2timer_setProbeTimer : list Z;
  probeTimer2eventEng_setEvent : list event
}.

Definition ptimer_init : ptimer := mk_ptimer ∅ 0 0 0 false [] [] [].

(** Depths in [timerWrapper]. *)
Definition timer_event_depth : nat := 2.

Section probe_timer.
Context `{cfg : ToeConfig}.

Definition probe_timer (s : ptimer) : step_result (ptimer * list event) :=
  let '(mk_ptimer t curr upd prev wait clr set out) := s in
  if wait then
    if negb (upd =? prev) then
      at_index upd (Next (mk_ptimer (<[upd := mk_timer TIME_50ms true]> t) curr upd (u16 (prev - 1)) false clr set out, []))
    else Next (mk_ptimer t curr upd (u16 (prev - 1)) wait clr set out, [])
  else
    match set with
    | id :: set' => Next (mk_ptimer t curr id prev true clr set' out, [])
    | [] =>
        let '(checkID, fastResume, clr', curr') :=
          match clr with
          | id :: clr' => (id, true, clr', curr)
          | [] => (curr, false, clr, next_session curr)
          end in
        at_index checkID (Next (
          let e := timer_at t checkID in
          let '(t', o) :=
            if tm_active e && negb (s_full timer_event_depth out) then
              if (tm_time e =? 0) || fastResume then
                (<[checkID := mk_timer 0 false]> t, [event_id (if TCP_NODELAY then RT else TX) checkID])
              else (<[checkID := mk_timer (tm_time e - 1) true]> t, [])
            else (t, []) in
          (mk_ptimer t' curr' upd checkID wait clr' set (out ++ o), o)))
    end.
End probe_timer.

(** ** Retransmit timer *)

Record retransmitTimerEntry : Type := mk_rtEntry {
  rt_time : Z; rt_retries : Z; rt_active : bool; rt_type : eventType }.

(** Zero-initialised: [TX] is the first enumerator. *)
Definition rtEntry_zero : retransmitTimerEntry := mk_rtEntry 0 0 false TX.

Record rtimer : Type := mk_rtimer {
  retransmitTimerTable : gmap Z retransmitTimerEntry;
  rt_position : Z;
  rt_waitForWrite : bool;
  rt_prevPosition : Z;
  rt_update : rxRetransmitTimerUpdate;
  rxEng2timer_clearRetransmitTimer : list rxRetransmitTimerUpdate;
  txEng2timer_setRetransmitTimer : list txRetransmitTimerSet;
  rtTimer2eventEng_setEvent : list event
}.

Definition rtimer_init : rtimer := mk_rtimer ∅ 0 false 0 (mk_rtUpdate 0 false) [] [] [].

Inductive rt_out : Type :=
| RtEvent (e : event)                   (* rtTimer2eventEng_setEvent *)
| RtRelease (id : Z)                    (* rtTimer2stateTable_releaseState *)
| RtNotifyTx (o : openStatus)           (* rtTimer2txApp_notification *)
| RtNotifyRx (n : appNotification).     (* rtTimer2rxApp_notification *)

Section retransmit_timer.
Context `{cfg : ToeConfig}.

Definition rt_at (t : gmap Z retransmitTimerEntry) (id : Z) : retransmitTimerEntry := entry rtEntry_zero t id.

(** The interval after so many retries. *)
Definition rt_interval (retries : Z) : Z :=
  match retries with
  | 0 => TIME_1s
  | 1 => TIME_5s
  | 2 => TIME_10s
  | 3 => TIME_15s
  | _ => TIME_30s
  end.

(** The RX engine stopped or restarted the timer. *)
Definition rt_clear (u : rxRetransmitTimerUpdate) (e : retransmitTimerEntry) : retransmitTimerEntry :=
  if negb (ru_stop u) then mk_rtEntry TIME_1s 0 (rt_active e) (rt_type e)
  else mk_rtEntry 0 0 false (rt_type e).

(** The TX engine set the timer. *)
Definition rt_arm (type : eventType) (e : retransmitTimerEntry) : retransmitTimerEntry :=
  mk_rtEntry (if negb (rt_active e) then rt_interval (rt_retries e) else rt_time e)
    (rt_retries e) true type.

(** The sweep comes across the entry. *)
Definition rt_tick (full : bool) (id : Z) (e : retransmitTimerEntry) : retransmitTimerEntry * list rt_out :=
  if rt_active e then
    if 0 <? rt_time e then (mk_rtEntry (rt_time e - 1) (rt_retries e) true (rt_type e), [])
    else if negb full then
      if rt_retries e <? 4 then
        let retries := wrap 3 (rt_retries e + 1) in
        (mk_rtEntry 0 retries false (rt_type e), [RtEvent (event_rt (rt_type e) id retries)])
      else
        (mk_rtEntry 0 0 false (rt_type e),
         [RtRelease id;
          if bool_decide (rt_type e = SYN) then RtNotifyTx (openStatus_id id 0)
          else RtNotifyRx (appNotification_closed id true)])
    else (e, [])
  else (e, []).

Definition rt_events (o : list rt_out) : list event :=
  o ≫= fun x => match x with RtEvent e => [e] | _ => [] end.

Definition retransmit_timer (s : rtimer) : step_result (rtimer * list rt_out) :=
  let '(mk_rtimer t pos wait prev upd clr set out) := s in
  if wait && negb (ru_sessionID upd =? prev) then
    let id := ru_sessionID upd in
    at_index id (Next (mk_rtimer (<[id := rt_clear upd (rt_at t id)]> t) pos false prev upd clr set out, []))
  else
    match clr, wait with
    | u :: clr', false => Next (mk_rtimer t pos true prev u clr' set out, [])
    | _, _ =>
        match set with
        | x :: set' =>
            let id := ts_sessionID x in
            let pos' := if (id - 3 <? pos) && (pos <=? id) then u16 (pos + 5) else pos in
            at_index id (Next (
              mk_rtimer (<[id := rt_arm (ts_type x) (rt_at t id)]> t) pos' wait id upd clr set' out, []))
        | [] =>
            let pos' := u16 (pos + 1) in
            let pos' := if MAX_SESSIONS <=? pos' then 0 else pos' in
            at_index pos (Next (
              let '(e, o) := rt_tick (s_full timer_event_depth out) pos (rt_at t pos) in
              (mk_rtimer (<[pos := e]> t) pos' wait pos upd clr set (out ++ rt_events o), o)))
        end
    end.
End retransmit_timer.

(** ** The sweep *)

Section sweep.
Context `{cfg : ToeConfig, ok : !ToeConfigOk cfg}.

(** How many visits the cursor makes before it reaches session [id]. *)
Definition sweep_distance (curr id : Z) : Z := (id - curr) mod MAX_SESSIONS.

Lemma in_table_spec (id : Z) : in_table id = true <-> 0 <= id < MAX_SESSIONS.
Proof. unfold in_table. rewrite andb_true_iff, Z.leb_le, Z.ltb_lt. done. Qed.

Lemma next_session_mod (c : Z) : in_table c = true -> next_session c = (c + 1) mod MAX_SESSIONS.
Proof.
  rewrite in_table_spec. intros Hc. pose proof max_sessions_ok as Hn. unfold next_session.
  rewrite wrap_small by (unfold fits; lia). destruct (Z.eqb_spec (c + 1) MAX_SESSIONS) as [->|].
  - symmetry. apply Z.mod_same. lia.
  - symmetry. apply Z.mod_small. lia.
Qed.

Lemma next_session_in_table (c : Z) : in_table c = true -> in_table (next_session c) = true.
Proof.
  intros Hc. rewrite next_session_mod, in_table_spec by done.
  pose proof max_sessions_ok. apply Z.mod_pos_bound. lia.
Qed.

Lemma sweep_distance_range (c id : Z) : 0 <= sweep_distance c id < MAX_SESSIONS.
Proof. pose proof max_sessions_ok. apply Z.mod_pos_bound. lia. Qed.

Lemma sweep_distance_0 (c id : Z) :
  in_table c = true -> in_table id = true -> (sweep_distance c id = 0 <-> c = id).
Proof.
  rewrite !in_table_spec. intros Hc Hid. unfold sweep_distance.
  destruct (decide (c <= id)).
  - rewrite Z.mod_small by lia. lia.
  - replace ((id - c) mod MAX_SESSIONS) with (id - c + MAX_SESSIONS); [lia|].
    apply (Z.mod_unique _ _ (-1)); lia.
Qed.

Lemma sweep_distance_next (c id : Z) :
  in_table c = true -> in_table id = true ->
  sweep_distance (next_session c) id =
    if decide (c = id) then MAX_SESSIONS - 1 else sweep_distance c id - 1.
Proof.
  intros Hc Hid. rewrite next_session_mod by done. pose proof (sweep_distance_0 c id Hc Hid) as H0.
  pose proof (sweep_distance_range c id) as Hr. rewrite in_table_spec in Hc, Hid.
  unfold sweep_distance in *. rewrite Zminus_mod_idemp_r. case_decide as Hd.
  - subst. symmetry. apply (Z.mod_unique _ _ (-1)); lia.
  - replace (id - (c + 1)) with (id - c - 1) by lia.
    rewrite (Zminus_mod (id - c) 1), (Z.mod_small 1) by (destruct (decide (MAX_SESSIONS = 1)); lia).
    apply Z.mod_small. lia.
Qed.
End sweep.

(** ** The close timer expires *)

Inductive ct_label : Type := CCall | CSet (id : Z).
#[global] Instance ct_label_eq_dec : EqDecision ct_label.
Proof. solve_decision. Defined.

Section close_timer_runs.
Context `{cfg : ToeConfig, ok : !ToeConfigOk cfg}.

(** A call sweeps when neither a request nor a delayed write takes precedence. *)
Definition ct_sweeps (s : ctimer) : bool :=
  negb (ct_waitForWrite s) && bool_decide (rxEng2timer_setCloseTimer s = []).

Definition ct_request (id : Z) (s : ctimer) : ctimer :=
  mk_ctimer (closeTimerTable s) (ct_currSessionID s) (ct_setSessionID s) (ct_prevSessionID s)
    (ct_waitForWrite s) (rxEng2timer_setCloseTimer s ++ [id]).

(** The released sessions and the number of sweeping calls are recorded. *)
Definition ct_step (l : ct_label) (x : ctimer * list Z * Z) : step_result (ctimer * list Z * Z) :=
  let '(s, out, n) := x in
  match l with
  | CSet id => Next (ct_request id s, out, n)
  | CCall =>
      match close_timer s with
      | Next (s', o) => Next (s', out ++ o, n + Z.b2z (ct_sweeps s))
      | Blocked => Blocked
      | StepUndef e => StepUndef e
      end
  end.

(** Nothing is about to set the timer of [id]. *)
Definition ct_unset (id : Z) (s : ctimer) : Prop :=
  in_table (ct_currSessionID s) = true /\ (id ∉ rxEng2timer_setCloseTimer s) /\
  (ct_waitForWrite s = true -> ct_setSessionID s <> id).

Definition ct_entry (s : ctimer) (id : Z) : timer_entry := timer_at (closeTimerTable s) id.

(** The sweeps the timer of [id] has left. *)
Definition ct_remaining (id : Z) (s : ctimer) : Z :=
  sweep_distance (ct_currSessionID s) id + tm_time (ct_entry s id) * MAX_SESSIONS.

Definition Armed (id r : Z) (s : ctimer) : Prop :=
  ct_unset id s /\ tm_active (ct_entry s id) = true /\ 0 <= tm_time (ct_entry s id) /\ ct_remaining id s = r.

Definition Expired (id : Z) (s : ctimer) : Prop :=
  ct_unset id s /\ tm_active (ct_entry s id) = false.

Lemma timer_at_insert (t : gmap Z timer_entry) (i j : Z) (e : timer_entry) :
  timer_at (<[i := e]> t) j = if decide (i = j) then e else timer_at t j.
Proof. apply entry_insert. Qed.

Lemma close_timer_armed (id r : Z) (s s' : ctimer) (o : list Z) :
  in_table id = true -> Armed id r s -> close_timer s = Next (s', o) ->
  if ct_sweeps s then
    if decide (r = 0) then Expired id s' /\ o = [id] else Armed id (r - 1) s' /\ id ∉ o
  else Armed id r s' /\ o = [].
Proof.
  intros Hid ((Hc & Hq & Hw) & Ha & Ht & Hr) Hs. unfold Armed, Expired, ct_unset, ct_remaining, ct_sweeps, ct_entry in *.
  destruct s as [t curr set prev wait q]. cbn [closeTimerTable ct_currSessionID ct_setSessionID
    ct_prevSessionID ct_waitForWrite rxEng2timer_setCloseTimer] in *. unfold close_timer in Hs.
  pose proof (sweep_distance_range curr id) as Hd. pose proof (sweep_distance_0 curr id Hc Hid) as H0.
  pose proof (sweep_distance_next curr id Hc Hid) as Hn. pose proof (next_session_in_table curr Hc) as Hin.
  destruct wait; cbn [negb andb].
  { destruct (Z.eqb_spec set prev); cbn [negb] in Hs; [|apply at_index_next in Hs as [_ Hs]];
      injection Hs as <- <-; cbn; [by auto|].
    rewrite timer_at_insert, decide_False by auto. by auto. }
  destruct q as [|x q].
  2: { injection Hs as <- <-. cbn. rewrite not_elem_of_cons in Hq. destruct Hq. auto 10. }
  rewrite bool_decide_true by done. apply at_index_next in Hs as [_ Hs].
  assert (id ∉ ([] : list Z)) by apply not_elem_of_nil.
  destruct (decide (curr = id)) as [->|Hne].
  - rewrite (proj2 H0) in * by done. rewrite Ha in Hs. destruct (Z.ltb_spec 0 (tm_time (timer_at t id)));
      injection Hs as <- <-; cbn; rewrite timer_at_insert, (decide_True (P := id = id)) by done; cbn.
    + rewrite decide_False by nia. split; [|done]. split_and!; try done; [lia|]. rewrite Hn. nia.
    + rewrite decide_True by nia. auto.
  - assert (r <> 0) by (pose proof (proj2 (not_iff_compat H0) Hne); nia).
    rewrite decide_False by done.
    destruct (tm_active (timer_at t curr)); [destruct (0 <? tm_time (timer_at t curr))|];
      injection Hs as <- <-; cbn; rewrite ?timer_at_insert, ?(decide_False (P := curr = id)) by done;
      rewrite Hn; rewrite ?list_elem_of_singleton; (split; [split_and!; try done; lia|]); auto.
Qed.

Lemma close_timer_expired (id : Z) (s s' : ctimer) (o : list Z) :
  Expired id s -> close_timer s = Next (s', o) -> Expired id s' /\ id ∉ o.
Proof.
  intros ((Hc & Hq & Hw) & Ha) Hs. unfold Expired, ct_unset, ct_entry in *.
  destruct s as [t curr set prev wait q]. cbn [closeTimerTable ct_currSessionID ct_setSessionID
    ct_prevSessionID ct_waitForWrite rxEng2timer_setCloseTimer] in *. unfold close_timer in Hs.
  pose proof (next_session_in_table curr Hc) as Hin. pose proof (not_elem_of_nil id).
  destruct wait.
  { destruct (Z.eqb_spec set prev); cbn [negb] in Hs; [|apply at_index_next in Hs as [_ Hs]];
      injection Hs as <- <-; cbn; [by auto|].
    rewrite timer_at_insert, decide_False by auto. auto 10. }
  destruct q as [|x q].
  2: { injection Hs as <- <-. cbn. rewrite not_elem_of_cons in Hq. destruct Hq. auto 10. }
  apply at_index_next in Hs as [_ Hs].
  destruct (tm_active (timer_at t curr)) eqn:E; [destruct (0 <? tm_time (timer_at t curr))|];
    injection Hs as <- <-; cbn; try (by auto 10);
    (assert (curr <> id) by (intros ->; congruence));
    rewrite timer_at_insert, decide_False by done; rewrite ?list_elem_of_singleton; auto 10.
Qed.

Definition not_set (id : Z) (l : ct_label) : Prop := l <> CSet id.

Definition ct_progress (id r : Z) (x : ctimer * list Z * Z) : Prop :=
  let '(s, out, n) := x in
  (n <= r /\ Armed id (r - n) s /\ id ∉ out) \/
  (r < n /\ Expired id s /\ filter (fun x => x = id) out = [id]).

Lemma filter_fresh (id : Z) (l : list Z) : id ∉ l -> filter (fun x => x = id) l = [].
Proof.
  induction l as [|x l IH]; [done|]. rewrite not_elem_of_cons. intros [H1 H2].
  rewrite filter_cons_False by congruence. by apply IH.
Qed.

Lemma ct_progress_step (id r : Z) (l : ct_label) (x x' : ctimer * list Z * Z) :
  in_table id = true -> not_set id l -> ct_progress id r x -> ct_step l x = Next x' -> ct_progress id r x'.
Proof.
  intros Hid Hl. destruct x as [[s out] n]. unfold ct_progress. destruct l as [|i]; cbn [ct_step].
  - destruct (close_timer s) as [| |[s1 o]] eqn:Hs; try done. intros Hx [= <-].
    destruct Hx as [(Hn & Ha & Ho)|(Hn & He & Ho)].
    + pose proof (close_timer_armed _ _ _ _ _ Hid Ha Hs) as H.
      destruct (ct_sweeps s); cbn; [case_decide as Hr; destruct H as [H1 H2]|destruct H as [H1 ->]].
      * right. subst o. rewrite filter_app, filter_fresh, filter_cons_True, filter_nil by done.
        split; [lia | done].
      * left. replace (r - (n + 1)) with (r - n - 1) by lia. rewrite elem_of_app.
        split_and!; [|done|by intros [?|?]].
        destruct Ha as (Ha & _ & Ht & Hr'). unfold ct_remaining in Hr'.
        pose proof (sweep_distance_range (ct_currSessionID s) id). pose proof max_sessions_ok. nia.
      * left. rewrite app_nil_r, Z.add_0_r. done.
    + right. destruct (close_timer_expired _ _ _ _ He Hs) as [H1 H2].
      rewrite filter_app, Ho, (filter_fresh id o) by done. split; [destruct (ct_sweeps s); cbn; lia | done].
  - intros Hx [= <-]. assert (i <> id) as Hne by (intros ->; by apply Hl).
    assert (ct_unset id s -> ct_unset id (ct_request i s)) as Hu.
    { intros (H1 & H2 & H3). split; [done|]. split; [|done]. cbn. rewrite elem_of_app, list_elem_of_singleton.
      intros [?|?]; congruence. }
    destruct Hx as [(Hn & (Ha1 & Ha2) & Ho)|(Hn & (He1 & He2) & Ho)].
    + left. split; [done|]. split; [|done]. split; [by apply Hu | exact Ha2].
    + right. split; [done|]. split; [|done]. split; [by apply Hu | exact He2].
Qed.

(** A run in range: the timer is only set for sessions of the table. *)
Definition ct_ranges (s : ctimer) : Prop :=
  in_table (ct_currSessionID s) = true /\ Forall (fun id => in_table id = true) (rxEng2timer_setCloseTimer s) /\
  (ct_waitForWrite s = true -> in_table (ct_setSessionID s) = true).
Definition ct_label_ok (l : ct_label) : Prop := match l with CSet id => in_table id = true | CCall => True end.

(** Calls and requests of a run, and the calls the requests still waiting take
    from the sweep: one to read a request, and one to write its entry, or two
    if the sweep has just been there. *)
Definition ct_calls (ls : list ct_label) : Z := Z.of_nat (length (filter (fun l => l = CCall) ls)).
Definition ct_sets (ls : list ct_label) : Z := Z.of_nat (length ls) - ct_calls ls.
Definition ct_owed (s : ctimer) : Z :=
  3 * Z.of_nat (length (rxEng2timer_setCloseTimer s)) +
  (if ct_waitForWrite s then if ct_setSessionID s =? ct_prevSessionID s then 2 else 1 else 0).

Lemma close_timer_returns (s : ctimer) :
  ct_ranges s -> exists s' o, close_timer s = Next (s', o) /\ ct_ranges s' /\
    1 + ct_owed s' <= Z.b2z (ct_sweeps s) + ct_owed s.
Proof.
  intros (Hc & Hq & Hw). pose proof (next_session_in_table _ Hc) as Hn. pose proof max_sessions_ok as Hmax.
  destruct s as [t curr set prev wait q]. unfold close_timer, ct_ranges, ct_owed, ct_sweeps, at_index.
  cbn [ct_currSessionID ct_setSessionID ct_prevSessionID ct_waitForWrite rxEng2timer_setCloseTimer] in *. destruct wait.
  - specialize (Hw eq_refl). destruct (Z.eqb_spec set prev) as [->|Hne]; cbn [negb andb].
    + eexists _, _. split; [done|]. split; [done|]. cbn. apply in_table_spec in Hw.
      assert (prev <> u16 (prev - 1)).
      { destruct (decide (prev = 0)) as [->|]; [by vm_compute|]. rewrite wrap_small by (unfold fits; lia). lia. }
      rewrite (proj2 (Z.eqb_neq _ _)) by done. lia.
    + rewrite Hw. eexists _, _. split; [done|]. split; [done|]. cbn. lia.
  - destruct q as [|x q]; cbn [negb andb].
    + rewrite Hc, bool_decide_true by done. destruct (tm_active (timer_at t curr)); [destruct (0 <? tm_time (timer_at t curr))|];
        (eexists _, _; split; [done|]; split; [done|cbn; lia]).
    + apply Forall_cons in Hq as [Hx Hq]. rewrite bool_decide_false by done. eexists _, _. split; [done|]. split; [done|].
      cbn [rxEng2timer_setCloseTimer ct_waitForWrite ct_setSessionID ct_prevSessionID length Z.b2z]. case_match; lia.
Qed.

Lemma ct_run_exists (ls : list ct_label) (s : ctimer) (out : list Z) (n : Z) :
  Forall ct_label_ok ls -> ct_ranges s ->
  exists s' out' n', steps ct_step ls (s, out, n) = Next (s', out', n') /\
    ct_calls ls + ct_owed s' <= n' - n + ct_owed s + 3 * ct_sets ls.
Proof.
  intros Hls. revert s out n. unfold ct_sets, ct_calls. induction Hls as [|l ls Hl Hls IH]; intros s out n Hs.
  - exists s, out, n. split; [done|]. cbn. lia.
  - destruct l as [|i]; cbn [steps ct_step length].
    + destruct (close_timer_returns s Hs) as (s1 & o & -> & Hs1 & Ho).
      destruct (IH s1 (out ++ o) (n + Z.b2z (ct_sweeps s)) Hs1) as (s2 & out2 & n2 & -> & H2).
      eexists _, _, _. split; [done|]. rewrite filter_cons_True by done. cbn [length]. lia.
    + assert (ct_ranges (ct_request i s)) as Hs1.
      { destruct Hs as (H1 & H2 & H3). split_and!; try done. apply Forall_app. by repeat constructor. }
      destruct (IH (ct_request i s) out n Hs1) as (s2 & out2 & n2 & -> & H2).
      eexists _, _, _. split; [done|]. rewrite filter_cons_False by done.
      unfold ct_owed in H2 at 2. cbn [ct_request rxEng2timer_setCloseTimer ct_waitForWrite ct_setSessionID ct_prevSessionID] in H2.
      rewrite length_app in H2. cbn [length] in H2. unfold ct_owed at 2. case_match; lia.
Qed.

(** C38: The close timer releases a session exactly when its time is up.  From any
    state in which the timer of a session runs and is not about to be set again,
    whatever other sessions of the table are set meanwhile, every call returns;
    all calls but at most three per request are sweeping calls; the session is
    not released during the first [ct_remaining] of these, fewer than
    [MAX_SESSIONS] times one more than its time, and the next releases it, once,
    after which the timer stays off. *)
Theorem close_timer_expires (id : Z) (ls : list ct_label) (s : ctimer) :
  in_table id = true -> ct_ranges s -> ct_unset id s -> tm_active (ct_entry s id) = true -> 0 <= tm_time (ct_entry s id) ->
  Forall ct_label_ok ls -> Forall (not_set id) ls ->
  exists s' out n, steps ct_step ls (s, [], 0) = Next (s', out, n) /\
    ct_calls ls <= n + ct_owed s + 3 * ct_sets ls /\
    ct_remaining id s < MAX_SESSIONS * (tm_time (ct_entry s id) + 1) /\
    (n <= ct_remaining id s -> (id ∉ out) /\ tm_active (ct_entry s' id) = true) /\
    (ct_remaining id s < n -> filter (fun x => x = id) out = [id] /\ tm_active (ct_entry s' id) = false).
Proof.
  intros Hid Hok Hu Ha Ht Hlo Hls. pose proof (sweep_distance_range (ct_currSessionID s) id) as Hd. pose proof max_sessions_ok.
  destruct (ct_run_exists ls s [] 0 Hlo Hok) as (s' & out & n & Hrun & Hn). exists s', out, n. split; [done|].
  assert (0 <= ct_owed s') as H0 by (unfold ct_owed; repeat case_match; lia). split; [lia|]. split; [unfold ct_remaining; nia|].
  assert (ct_progress id (ct_remaining id s) (s', out, n)) as Hp.
  { refine (steps_invariant ct_step (not_set id) (ct_progress id (ct_remaining id s)) _ ls (s, [], 0) _ Hls _ Hrun).
    - intros l x x' Hl Hx. by apply ct_progress_step.
    - left. rewrite Z.sub_0_r. split; [unfold ct_remaining; nia|].
      split; [done | apply not_elem_of_nil]. }
  destruct Hp as [(Hnr & (_ & H2 & _) & H4)|(Hnr & (_ & H2) & H4)]; split; intros ?; (done || lia).
Qed.
End close_timer_runs.

(** ** A session is aborted after four retransmissions *)

Inductive rt_label : Type :=
| RCall
| RClear (u : rxRetransmitTimerUpdate)
| RSet (x : txRetransmitTimerSet)
| RPop.                                   (* stream_merger reads an event *)

Section retransmit_runs.
Context `{cfg : ToeConfig, ok : !ToeConfigOk cfg}.

Definition rt_request (l : rt_label) (s : rtimer) : rtimer :=
  let '(mk_rtimer t pos wait prev upd clr set out) := s in
  match l with
  | RClear u => mk_rtimer t pos wait prev upd (clr ++ [u]) set out
  | RSet x => mk_rtimer t pos wait prev upd clr (set ++ [x]) out
  | RPop => mk_rtimer t pos wait prev upd clr set (tail out)
  | RCall => s
  end.

Definition rt_step (l : rt_label) (x : rtimer * list rt_out) : step_result (rtimer * list rt_out) :=
  let '(s, out) := x in
  match l with
  | RCall =>
      match retransmit_timer s with
      | Next (s', o) => Next (s', out ++ o)
      | Blocked => Blocked
      | StepUndef e => StepUndef e
      end
  | _ => Next (rt_request l s, out)
  end.

Definition rt_start : rtimer * list rt_out := (rtimer_init, []).

(** What the timer did to one session: retransmissions by their count, and 5
    for an abort together with the notification that goes with it. *)
Definition rt_mark (id : Z) (o : rt_out) : list Z :=
  match o with
  | RtEvent e => if ev_sessionID e =? id then [ev_rt_count e] else []
  | RtRelease i => if i =? id then [5] else []
  | _ => []
  end.
Definition rt_marks (id : Z) (out : list rt_out) : list Z := out ≫= rt_mark id.

(** The first [n] marks of 1, 2, 3, 4, abort, 1, 2, ... *)
Definition rt_cycle (n : nat) : list Z := (fun i => Z.of_nat (i mod 5) + 1) <$> seq 0 n.

Definition not_cleared (id : Z) (l : rt_label) : Prop :=
  match l with RClear u => ru_sessionID u <> id | _ => True end.

(** The retries of [id] count the marks, and no clear of it is on its way. *)
Record RtInv (id : Z) (x : rtimer * list rt_out) : Prop := {
  ri_clears : Forall (fun u => ru_sessionID u <> id) (rxEng2timer_clearRetransmitTimer (fst x));
  ri_update : rt_waitForWrite (fst x) = true -> ru_sessionID (rt_update (fst x)) <> id;
  ri_marks : rt_marks id (snd x) = rt_cycle (length (rt_marks id (snd x)));
  ri_retries : rt_retries (rt_at (retransmitTimerTable (fst x)) id) =
    Z.of_nat (length (rt_marks id (snd x)) mod 5)
}.

Lemma rt_at_insert (t : gmap Z retransmitTimerEntry) (i j : Z) (e : retransmitTimerEntry) :
  rt_at (<[i := e]> t) j = if decide (i = j) then e else rt_at t j.
Proof. apply entry_insert. Qed.

Lemma rt_marks_app (id : Z) (o1 o2 : list rt_out) : rt_marks id (o1 ++ o2) = rt_marks id o1 ++ rt_marks id o2.
Proof. apply bind_app. Qed.

Lemma rt_cycle_S (n : nat) : rt_cycle (S n) = rt_cycle n ++ [Z.of_nat (n mod 5) + 1].
Proof. unfold rt_cycle. rewrite seq_S, fmap_app. done. Qed.

(** A tick leaves the marks of other sessions alone ... *)
Lemma rt_tick_other (full : bool) (pos id : Z) (e e' : retransmitTimerEntry) (o : list rt_out) :
  in_table pos = true -> rt_tick full pos e = (e', o) -> pos <> id -> rt_marks id o = [].
Proof.
  intros Hpos Ht Hne. rewrite in_table_spec in Hpos. pose proof max_sessions_ok as Hmax.
  assert (u16 pos = pos) as Hw by (apply wrap_small; unfold fits; lia).
  pose proof (proj2 (Z.eqb_neq pos id) Hne) as E.
  unfold rt_tick in Ht. repeat case_match; simplify_eq; unfold rt_marks; cbn; rewrite ?Hw, ?E; done.
Qed.

(** ... and advances the cycle of its own by at most one. *)
Lemma rt_tick_own (full : bool) (pos : Z) (e e' : retransmitTimerEntry) (o : list rt_out) (n : nat) :
  in_table pos = true -> rt_tick full pos e = (e', o) -> rt_retries e = Z.of_nat (n mod 5) ->
  (rt_marks pos o = [] /\ rt_retries e' = rt_retries e) \/
  (rt_marks pos o = [Z.of_nat (n mod 5) + 1] /\ rt_retries e' = Z.of_nat (S n mod 5)).
Proof.
  intros Hpos Ht Hr. rewrite in_table_spec in Hpos. pose proof max_sessions_ok as Hmax.
  assert (u16 pos = pos) as Hw by (apply wrap_small; unfold fits; lia).
  pose proof (Nat.mod_upper_bound n 5 ltac:(lia)) as Hn. pose proof (Nat.div_mod_eq n 5) as Hdm.
  unfold rt_tick in Ht. destruct (rt_active e); [|simplify_eq; auto].
  destruct (0 <? rt_time e); [simplify_eq; auto|].
  destruct full; cbn [negb] in Ht; [simplify_eq; auto|].
  rewrite Hr in Ht. right. destruct (Z.ltb_spec (Z.of_nat (n mod 5)) 4) as [Hlt|Hge]; simplify_eq; unfold rt_marks.
  - rewrite <- (Nat.mod_unique (S n) 5 (n / 5) (S (n mod 5))) by lia.
    rewrite (wrap_small 3 (_ + 1)) by (unfold fits; lia). cbn -[wrap].
    rewrite Hw, Z.eqb_refl. cbn -[wrap].
    rewrite ?(wrap_small 3) by (unfold fits; lia). split; [done | lia].
  - rewrite <- (Nat.mod_unique (S n) 5 (S (n / 5)) 0) by lia.
    assert (n mod 5 = 4)%nat as -> by lia. cbn. rewrite Z.eqb_refl. split; [by case_bool_decide | done].
Qed.

#[local] Arguments rt_marks id out : simpl never.
#[local] Arguments rt_cycle n : simpl never.
#[local] Arguments rt_at t id : simpl never.
#[local] Arguments Nat.modulo x y : simpl never.

Lemma RtInv_step (id : Z) (l : rt_label) (x x' : rtimer * list rt_out) :
  not_cleared id l -> RtInv id x -> rt_step l x = Next x' -> RtInv id x'.
Proof.
  intros Hl [Hc Hu Hm Hr] Hs. destruct x as [[t pos wait prev upd clr set evs] out]. cbn in *.
  destruct l as [|u|y|]; cbn in *; simplify_eq; try (by split; cbn).
  2: { split; cbn; try done. apply Forall_app. split; [done|]. by constructor. }
  destruct (wait && negb (ru_sessionID upd =? prev)) eqn:E.
  { unfold at_index in Hs. destruct (in_table (ru_sessionID upd)); try done. injection Hs as <-.
    apply andb_true_iff in E as [-> _]. rewrite app_nil_r. split; cbn; try done.
    rewrite rt_at_insert, decide_False by auto. done. }
  assert (forall u clr', clr = u :: clr' -> wait = false ->
    RtInv id (mk_rtimer t pos true prev u clr' set evs, out ++ [])) as Hread.
  { intros u clr' -> ->. apply Forall_cons in Hc as [? ?]. rewrite app_nil_r. split; cbn; auto. }
  assert (forall s1 o1, match set with
        | y :: set' =>
            let id := ts_sessionID y in
            let pos' := if (id - 3 <? pos) && (pos <=? id) then u16 (pos + 5) else pos in
            at_index id (Next (
              mk_rtimer (<[id := rt_arm (ts_type y) (rt_at t id)]> t) pos' wait id upd clr set' evs, []))
        | [] =>
            let pos' := u16 (pos + 1) in
            let pos' := if MAX_SESSIONS <=? pos' then 0 else pos' in
            at_index pos (Next (
              let '(e, o) := rt_tick (s_full timer_event_depth evs) pos (rt_at t pos) in
              (mk_rtimer (<[pos := e]> t) pos' wait pos upd clr set (evs ++ rt_events o), o)))
        end = Next (s1, o1) -> RtInv id (s1, out ++ o1)) as Hwork.
  { intros s1 o1 H. destruct set as [|y set]; apply at_index_next in H as [Hin H].
    - destruct (rt_tick _ pos _) as [e o] eqn:Et. simplify_eq.
      destruct (decide (pos = id)) as [->|Hne].
      + destruct (rt_tick_own _ id _ _ _ (length (rt_marks id out)) Hin Et Hr)
          as [[Ho He]|[Ho He]]; split; cbn; try done;
          rewrite rt_marks_app, Ho, ?app_nil_r, ?rt_at_insert, ?decide_True by done; try done.
        * by rewrite He.
        * rewrite length_app, Nat.add_1_r, rt_cycle_S, <- Hm. done.
        * by rewrite He, length_app, Nat.add_1_r.
      + pose proof (rt_tick_other _ _ id _ _ _ Hin Et Hne) as Ho.
        split; cbn; try done; rewrite rt_marks_app, Ho, app_nil_r; [done|].
        by rewrite rt_at_insert, decide_False.
    - simplify_eq. rewrite app_nil_r. split; cbn; try done. rewrite rt_at_insert.
      case_decide as Hd; [|done]. subst. cbn. done. }
  destruct clr as [|u clr], wait; repeat match goal with
    | H : match ?m with _ => _ end = Next _ |- _ => destruct m as [| |[? ?]] eqn:?
    end; simplify_eq; eauto.
Qed.

(** While its timer is never cleared, a session goes through four retransmissions, numbered 1
    to 4, and then exactly one abort that releases it, over and over: whatever the other sessions
    do, however often the TX engine sets its timer again and however slowly its events are read. *)
Theorem retransmit_gives_up (id : Z) (ls : list rt_label) (s : rtimer) (out : list rt_out) :
  Forall (not_cleared id) ls -> steps rt_step ls rt_start = Next (s, out) ->
  rt_marks id out = rt_cycle (length (rt_marks id out)) /\
  rt_retries (rt_at (retransmitTimerTable s) id) = Z.of_nat (length (rt_marks id out) mod 5).
Proof.
  intros Hls Hrun.
  assert (RtInv id (s, out)) as [_ _ Hm Hr]; [|by split].
  refine (steps_invariant rt_step (not_cleared id) (RtInv id) _ ls rt_start (s, out) Hls _ Hrun).
  - intros l x x' Hl Hx. by apply RtInv_step.
  - by split.
Qed.

(** Sweeping over timers that were never set. *)
Definition rt_idle (t : gmap Z retransmitTimerEntry) (pos prev : Z) : rtimer :=
  mk_rtimer t pos false prev (mk_rtUpdate 0 false) [] [] [].

Lemma rt_idle_call (t : gmap Z retransmitTimerEntry) (pos prev : Z) (out : list rt_out) :
  (forall id, rt_at t id = rtEntry_zero) -> 0 <= pos -> pos + 1 < MAX_SESSIONS ->
  exists t', (forall id, rt_at t' id = rtEntry_zero) /\
    rt_step RCall (rt_idle t pos prev, out) = Next (rt_idle t' (pos + 1) pos, out).
Proof.
  intros Ht H0 Hpos. pose proof max_sessions_ok as Hmax.
  exists (<[pos := rtEntry_zero]> t). split.
  - intros id. rewrite rt_at_insert. by case_decide.
  - unfold rt_step, retransmit_timer, rt_idle. cbn [andb]. unfold at_index.
    rewrite (proj2 (in_table_spec pos)) by lia. rewrite Ht. cbn.
    rewrite (wrap_small 16) by (unfold fits; lia). rewrite (proj2 (Z.leb_gt _ _)) by lia.
    by rewrite app_nil_r.
Qed.

Lemma rt_idle_calls (n : nat) (t : gmap Z retransmitTimerEntry) (pos prev : Z) (out : list rt_out) :
  (forall id, rt_at t id = rtEntry_zero) -> 0 <= pos -> pos + Z.of_nat n < MAX_SESSIONS ->
  exists t' prev', steps rt_step (replicate n RCall) (rt_idle t pos prev, out) =
    Next (rt_idle t' (pos + Z.of_nat n) prev', out).
Proof.
  revert t pos prev. induction n as [|n IH]; intros t pos prev Ht H0 Hpos.
  - exists t, prev. cbn. by rewrite Z.add_0_r.
  - destruct (rt_idle_call t pos prev out Ht H0) as (t1 & Ht1 & Hs); [lia|].
    cbn [replicate steps]. rewrite Hs. destruct (IH t1 (pos + 1) pos Ht1) as (t' & prev' & H); [lia..|].
    exists t', prev'. rewrite H. do 2 f_equal. unfold rt_idle. f_equal. lia.
Qed.

(** Setting a timer can push the sweep off the table: when the cursor stands on the last session
    and that session's timer is set, the cursor is advanced by 5 without the wrap-around of the
    sweep, and the next sweeping call reads and writes outside the table. *)
Theorem rt_position_overrun :
  MAX_SESSIONS + 4 < 2 ^ 16 ->
  exists ls e,
    Forall (fun l => match l with RSet x => in_table (ts_sessionID x) = true | RClear _ => False | _ => True end) ls /\
    steps rt_step ls rt_start = StepUndef e.
Proof.
  intros Hmax'. pose proof max_sessions_ok as Hmax. set (last := MAX_SESSIONS - 1).
  destruct (rt_idle_calls (Z.to_nat last) ∅ 0 0 []) as (t & prev & Hrun); [done | lia | lia |].
  exists (replicate (Z.to_nat last) RCall ++ [RSet (mk_rtSet last RT); RCall; RCall]).
  exists "index outside a session table"%string. split.
  - apply Forall_app. split; [apply Forall_replicate; done|].
    repeat constructor. cbn. rewrite in_table_spec. lia.
  - rewrite (steps_app rt_step _ _ _ _ Hrun). replace (0 + Z.of_nat (Z.to_nat last)) with last by lia.
    cbn [steps rt_step rt_idle rt_request app retransmit_timer andb ts_sessionID]. unfold at_index at 1.
    rewrite (proj2 (in_table_spec last)) by lia.
    rewrite (proj2 (Z.ltb_lt (last - 3) last)), (proj2 (Z.leb_le last last)) by lia. cbn [andb].
    rewrite wrap_small by (unfold fits; lia). cbn [rt_step retransmit_timer andb]. unfold at_index.
    assert (in_table (last + 5) = false) as ->; [|done].
    apply not_true_iff_false. rewrite in_table_spec. lia.
Qed.
End retransmit_runs.

#[local] Instance demo_cfg : ToeConfig := sim_config 3 true true.
#[local] Instance demo_ok : ToeConfigOk demo_cfg := sim_config_ok 3 true true ltac:(done).

(** Three sessions; session 1 has one sweep of time left, session 0 is set in between. *)
Definition demo_close : ctimer := mk_ctimer {[ 1 := mk_timer 1 true ]} 0 0 2 false [].
Definition demo_close_run : list ct_label :=
  [CCall; CSet 0; CCall; CCall; CCall; CCall; CCall; CCall; CCall; CCall].

Lemma close_timer_expires_witness :
  exists s' out n, steps ct_step demo_close_run (demo_close, [], 0) = Next (s', out, n) /\
    ct_remaining 1 demo_close = 4 /\ n = 6 /\ filter (fun x => x = 1) out = [1].
Proof.
  destruct (close_timer_expires 1 demo_close_run demo_close) as (s' & out & n & Hrun & _ & _ & _ & Hexp);
    [done | | | done | done | repeat constructor; done | repeat constructor; done |].
  { split_and!; [done | constructor | done]. }
  { split_and!; [done | apply not_elem_of_nil | done]. }
  exists s', out, n. assert (n = 6) as -> by (revert Hrun; vm_compute; intros E; injection E as <- <- <-; reflexivity).
  split; [done|]. split; [done|]. split; [done|]. by apply Hexp.
Defined.

(** Session 0 is armed by the TX engine again after each event; the events are read. *)
Definition demo_rt_lap : list rt_label := RSet (mk_rtSet 0 RT) :: replicate 25 RCall ++ [RPop].
Definition demo_rt_run : list rt_label := RCall :: mjoin (replicate 6 demo_rt_lap).
Definition demo_rt : rtimer * list rt_out :=
  match steps rt_step demo_rt_run rt_start with Next x => x | _ => rt_start end.

Lemma retransmit_gives_up_witness :
  length (rt_marks 0 (snd demo_rt)) = 6%nat /\ rt_marks 0 (snd demo_rt) = rt_cycle 6.
Proof.
  assert (length (rt_marks 0 (snd demo_rt)) = 6%nat) as H by (vm_compute; reflexivity).
  split; [exact H|]. rewrite <- H at 1.
  apply (retransmit_gives_up 0 demo_rt_run (fst demo_rt) (snd demo_rt)).
  - repeat constructor.
  - vm_compute. reflexivity.
Defined.

Lemma rt_position_overrun_witness :
  MAX_SESSIONS + 4 < 2 ^ 16 /\ exists ls e, steps rt_step ls rt_start = StepUndef e.
Proof.
  split; [done|]. destruct (rt_position_overrun ltac:(done)) as (ls & e & _ & H). by exists ls, e.
Defined.
