(* ===== verification/EventEngine.v ===== *)
(** The path of events to the TX engine: [event_engine/event_engine.cpp], which
    arbitrates between the RX engine, the timers and the application, and
    [ack_delay/ack_delay.cpp], which holds acknowledgements back.  The two
    processes and the TX engine share the FIFOs declared in [toe.cpp], and
    count what passes through them in 8-bit counters. *)
From stdpp Require Import base numbers list gmap strings.
From Stdlib Require Import ZArith Lia.
From S2P Require Import Prelude ToeTypes Timers.

Local Open Scope Z_scope.

(** The streams that only carry a 1 per item are kept as their fill level. *)
Record events : Type := mk_events {
  ee_writeCounter : Z;
  ee_adReadCounter : Z;
  ee_adWriteCounter : Z;
  ee_txEngReadCounter : Z;
  ack_table : gmap Z Z;
  ad_pointer : Z;
  txApp2eventEng_setEvent : list event;
  rxEng2eventEng_setEvent : list extendedEvent;
  timer2eventEng_setEvent : list event;
  eventEng2ackDelay_event : list extendedEvent;
  eventEng2txEng_event : list extendedEvent;
  ackDelayFifoReadCount : nat;
  ackDelayFifoWriteCount : nat;
  txEngFifoReadCount : nat
}.

Definition events_init : events := mk_events 0 0 0 0 ∅ 0 [] [] [] [] [] 0 0 0.

(** The depth of the event and of the counting streams in [toe.cpp]. *)
Definition event_fifo_depth : nat := 64.

Section event_path.
Context `{cfg : ToeConfig}.

(** What the event engine takes and forwards in a call. *)
Definition ee_forward (s : events) : step_result events :=
  let '(mk_events w ar aw tr tbl ptr app rx tim ad tx rc wc tc) := s in
  match rx, s_full event_fifo_depth ad with
  | ev :: rx', false =>
      Next (mk_events (wrap 8 (w + 1)) ar aw tr tbl ptr app rx' tim (ad ++ [ev]) tx rc wc tc)
  | _, _ =>
      if (w =? ar) && (aw =? tr) then
        match tim, app with
        | ev :: tim', _ =>
            if s_full event_fifo_depth ad then Blocked
            else Next (mk_events (wrap 8 (w + 1)) ar aw tr tbl ptr app rx tim' (ad ++ [extend ev]) tx rc wc tc)
        | [], ev :: app' =>
            if s_full event_fifo_depth ad then Blocked
            else Next (mk_events (wrap 8 (w + 1)) ar aw tr tbl ptr app' rx tim (ad ++ [extend ev]) tx rc wc tc)
        | [], [] => Next s
        end
      else Next s
  end.

(** The counting streams are read, each into its counter. *)
Definition ee_count (s : events) : events :=
  let '(mk_events w ar aw tr tbl ptr app rx tim ad tx rc wc tc) := s in
  mk_events w
    (if (0 <? rc)%nat then wrap 8 (ar + 1) else ar)
    (if (0 <? wc)%nat then wrap 8 (aw + 1) else aw)
    (if (0 <? tc)%nat then wrap 8 (tr + 1) else tr)
    tbl ptr app rx tim ad tx (pred rc) (pred wc) (pred tc).

Definition event_engine (s : events) : step_result events :=
  match ee_forward s with
  | Next s' => Next (ee_count s')
  | Blocked => Blocked
  | StepUndef e => StepUndef e
  end.

(** What the delay did: an acknowledgement held back, an event passed on. *)
Inductive ad_out : Type := AAbsorb (id : Z) | AEmit (e : extendedEvent).

Definition ack_at (t : gmap Z Z) (id : Z) : Z := entry 0 t id.

Definition ack_delay (s : events) : step_result (events * list ad_out) :=
  let '(mk_events w ar aw tr tbl ptr app rx tim ad tx rc wc tc) := s in
  match ad with
  | ev :: ad' =>
      let id := ev_sessionID (ee_event ev) in
      if (event_fifo_depth <=? rc)%nat then Blocked
      else at_index id (
        if bool_decide (ev_type (ee_event ev) = ACK) && (ack_at tbl id =? 0) then
          Next (mk_events w ar aw tr (<[id := wrap 12 TIME_64us]> tbl) ptr app rx tim ad' tx (S rc) wc tc, [AAbsorb id])
        else if s_full event_fifo_depth tx || (event_fifo_depth <=? wc)%nat then Blocked
        else
          Next (mk_events w ar aw tr (<[id := 0]> tbl) ptr app rx tim ad' (tx ++ [ev]) (S rc) (S wc) tc, [AEmit ev]))
  | [] =>
      at_index ptr (
        if (0 <? ack_at tbl ptr) && negb (s_full event_fifo_depth tx) then
          let tbl' := <[ptr := wrap 12 (ack_at tbl ptr - 1)]> tbl in
          if ack_at tbl ptr =? 1 then
            if (event_fifo_depth <=? wc)%nat then Blocked
            else
              let ev := extend (event_id ACK ptr) in
              Next (mk_events w ar aw tr tbl' (next_session ptr) app rx tim ad (tx ++ [ev]) rc (S wc) tc, [AEmit ev])
          else Next (mk_events w ar aw tr tbl' (next_session ptr) app rx tim ad tx rc wc tc, [])
        else Next (mk_events w ar aw tr tbl (next_session ptr) app rx tim ad tx rc wc tc, []))
  end.

(** The TX engine takes an event and reports it. *)
Definition tx_eng_take (s : events) : step_result events :=
  let '(mk_events w ar aw tr tbl ptr app rx tim ad tx rc wc tc) := s in
  match tx with
  | _ :: tx' =>
      if (event_fifo_depth <=? tc)%nat then Blocked
      else Next (mk_events w ar aw tr tbl ptr app rx tim ad tx' rc wc (S tc))
  | [] => Blocked
  end.

Inductive ev_label : Type :=
| EEngine | EDelay | ETake
| EFromRx (e : extendedEvent) | EFromTimer (e : event) | EFromApp (e : event).

Definition ev_request (l : ev_label) (s : events) : events :=
  let '(mk_events w ar aw tr tbl ptr app rx tim ad tx rc wc tc) := s in
  match l with
  | EFromRx e => mk_events w ar aw tr tbl ptr app (rx ++ [e]) tim ad tx rc wc tc
  | EFromTimer e => mk_events w ar aw tr tbl ptr app rx (tim ++ [e]) ad tx rc wc tc
  | EFromApp e => mk_events w ar aw tr tbl ptr (app ++ [e]) rx tim ad tx rc wc tc
  | _ => s
  end.

Definition with_log {A B : Type} (log : list B) (r : step_result A) : step_result (A * list B) :=
  match r with
  | Next s => Next (s, log)
  | Blocked => Blocked
  | StepUndef e => StepUndef e
  end.

Definition ev_step (l : ev_label) (x : events * list ad_out) : step_result (events * list ad_out) :=
  let '(s, log) := x in
  match l with
  | EEngine => with_log log (event_engine s)
  | EDelay =>
      match ack_delay s with
      | Next (s', o) => Next (s', log ++ o)
      | Blocked => Blocked
      | StepUndef e => StepUndef e
      end
  | ETake => with_log log (tx_eng_take s)
  | _ => Next (ev_request l s, log)
  end.

Definition ev_start : events * list ad_out := (events_init, []).
End event_path.

(** ** The 8-bit counters *)

Section counters.
Context `{cfg : ToeConfig, ok : !ToeConfigOk cfg}.

(** Each pair of counters differs, modulo 256, by what is in the FIFOs between
    the two ends, and these hold fewer than 256 items. *)
Record CountInv (s : events) : Prop := {
  ci_fits : fits 8 (ee_writeCounter s) /\ fits 8 (ee_adReadCounter s) /\
    fits 8 (ee_adWriteCounter s) /\ fits 8 (ee_txEngReadCounter s);
  ci_reads : wrap 8 (ee_adReadCounter s + Z.of_nat (length (eventEng2ackDelay_event s) +
    ackDelayFifoReadCount s)) = ee_writeCounter s;
  ci_writes : wrap 8 (ee_adWriteCounter s + Z.of_nat (ackDelayFifoWriteCount s)) =
    wrap 8 (ee_txEngReadCounter s + Z.of_nat (txEngFifoReadCount s + length (eventEng2txEng_event s)));
  ci_depths : (length (eventEng2ackDelay_event s) <= event_fifo_depth)%nat /\
    (length (eventEng2txEng_event s) <= event_fifo_depth)%nat /\
    (ackDelayFifoReadCount s <= event_fifo_depth)%nat /\
    (ackDelayFifoWriteCount s <= event_fifo_depth)%nat /\ (txEngFifoReadCount s <= event_fifo_depth)%nat
}.

#[local] Arguments wrap w x : simpl never.
#[local] Arguments s_full {A} depth s : simpl never.
#[local] Arguments event_fifo_depth : simpl never.
#[local] Arguments Z.of_nat n : simpl never.

Lemma s_full_false {A : Type} (d : nat) (l : list A) : s_full d l = false -> (length l < d)%nat.
Proof. unfold s_full. apply Nat.leb_gt. Qed.

Lemma wrap8_ex (x : Z) : exists k, wrap 8 x = x + 256 * k.
Proof. exists (- (x / 2 ^ 8)). unfold wrap. pose proof (Z.div_mod x (2 ^ 8)). lia. Qed.

Lemma CountInv_forward (s s' : events) : CountInv s -> ee_forward s = Next s' -> CountInv s'.
Proof.
  intros [(Hw & Har & Haw & Htr) Hr Hwr (Hd1 & Hd2 & Hd3 & Hd4 & Hd5)] Hs.
  destruct s as [w ar aw tr tbl ptr app rx tim ad tx rc wc tc]. cbn in *.
  assert (forall e, s_full event_fifo_depth ad = false ->
    CountInv (mk_events (wrap 8 (w + 1)) ar aw tr tbl ptr app rx tim (ad ++ [e]) tx rc wc tc)) as Hpush.
  { intros e Hf. apply s_full_false in Hf. split; cbn; try done.
    - split_and!; try done. by apply wrap_range.
    - rewrite length_app. cbn. rewrite <- Hr, wrap_add_l. f_equal. lia.
    - rewrite length_app. cbn. lia. }
  repeat case_match; simplify_eq; try done; destruct (Hpush (extend (event_id TX 0))); try done;
    (split; cbn in *; rewrite ?length_app in *; done).
Qed.

Lemma CountInv_count (s : events) : CountInv s -> CountInv (ee_count s).
Proof.
  intros [(Hw & Har & Haw & Htr) Hr Hwr (Hd1 & Hd2 & Hd3 & Hd4 & Hd5)].
  destruct s as [w ar aw tr tbl ptr app rx tim ad tx rc wc tc]. cbn in *. split; cbn.
  - split_and!; try done; case_match; try done; by apply wrap_range.
  - destruct rc as [|rc]; cbn; [done|]. rewrite wrap_add_l, <- Hr. f_equal. lia.
  - destruct wc as [|wc], tc as [|tc]; cbn; rewrite ?wrap_add_l; try done;
      (etrans; [|etrans; [exact Hwr|]]); f_equal; lia.
  - lia.
Qed.

#[local] Arguments Nat.leb n m : simpl never.

Lemma CountInv_delay (s s' : events) (o : list ad_out) :
  CountInv s -> ack_delay s = Next (s', o) -> CountInv s'.
Proof.
  intros [(Hw & Har & Haw & Htr) Hr Hwr (Hd1 & Hd2 & Hd3 & Hd4 & Hd5)] Hs.
  destruct s as [w ar aw tr tbl ptr app rx tim ad tx rc wc tc]. cbn in *.
  assert (forall x y : Z, wrap 8 x = wrap 8 y -> wrap 8 (x + 1) = wrap 8 (y + 1)) as Hsucc.
  { intros x y E. by rewrite <- (wrap_add_l 8 x), E, wrap_add_l. }
  destruct ad as [|ev ad].
  - apply at_index_next in Hs as [_ Hs].
    destruct (_ && _) eqn:E; [|by simplify_eq; split; cbn].
    apply andb_true_iff in E as [_ E]. apply negb_true_iff, s_full_false in E.
    destruct (_ =? 1); [|by simplify_eq; split; cbn].
    destruct (event_fifo_depth <=? wc)%nat eqn:E2; [done|]. apply Nat.leb_gt in E2. simplify_eq.
    split; cbn; try done.
    + rewrite length_app. cbn. apply Hsucc in Hwr. etrans; [|etrans; [exact Hwr|]]; f_equal; lia.
    + rewrite length_app. cbn. lia.
  - destruct (event_fifo_depth <=? rc)%nat eqn:E1; [done|]. apply Nat.leb_gt in E1.
    apply at_index_next in Hs as [_ Hs]. cbn in Hr, Hd1.
    destruct (_ && _).
    { simplify_eq. split; cbn; try done; [|lia]. f_equal. lia. }
    destruct (_ || _) eqn:E; [done|]. apply orb_false_iff in E as [E E2].
    apply s_full_false in E. apply Nat.leb_gt in E2. simplify_eq.
    split; cbn; try done.
    + f_equal. lia.
    + rewrite length_app. cbn. apply Hsucc in Hwr. etrans; [|etrans; [exact Hwr|]]; f_equal; lia.
    + rewrite length_app. cbn. lia.
Qed.

Lemma CountInv_take (s s' : events) : CountInv s -> tx_eng_take s = Next s' -> CountInv s'.
Proof.
  intros [Hf Hr Hwr (Hd1 & Hd2 & Hd3 & Hd4 & Hd5)] Hs.
  destruct s as [w ar aw tr tbl ptr app rx tim ad tx rc wc tc]. cbn in *.
  destruct tx as [|e tx]; [done|]. destruct (event_fifo_depth <=? tc)%nat eqn:E; [done|].
  apply Nat.leb_gt in E. simplify_eq. cbn in *. split; cbn; try done; [|lia].
  rewrite Hwr. f_equal. lia.
Qed.

Lemma CountInv_step (l : ev_label) (x x' : events * list ad_out) :
  CountInv (fst x) -> ev_step l x = Next x' -> CountInv (fst x').
Proof.
  destruct x as [s log]. intros HI Hs. destruct l; cbn in HI, Hs; unfold with_log in Hs; simplify_eq; cbn.
  - unfold event_engine in Hs. destruct (ee_forward s) as [| |s1] eqn:E; [done | done |]. simplify_eq; cbn.
    apply CountInv_count. by eapply CountInv_forward.
  - destruct (ack_delay s) as [| |[s1 o]] eqn:E; simplify_eq. by eapply CountInv_delay.
  - destruct (tx_eng_take s) as [| |s1] eqn:E; simplify_eq. by eapply CountInv_take.
  - destruct s, HI. by split.
  - destruct s, HI. by split.
  - destruct s, HI. by split.
Qed.

Lemma run_counts (ls : list ev_label) (s : events) (log : list ad_out) :
  steps ev_step ls ev_start = Next (s, log) -> CountInv s.
Proof.
  intros Hrun. refine (steps_invariant ev_step (fun _ => True) (fun x => CountInv (fst x)) _ ls ev_start (s, log) _ _ Hrun).
  - intros l x x' _. apply CountInv_step.
  - by apply Forall_true.
  - split; cbn; [unfold fits; lia | done | done | unfold event_fifo_depth; lia].
Qed.

(** Equal counters mean empty FIFOs, because fewer than 256 items fit. *)
Lemma equal_counters (s : events) :
  CountInv s -> ee_writeCounter s = ee_adReadCounter s -> ee_adWriteCounter s = ee_txEngReadCounter s ->
  eventEng2ackDelay_event s = [] /\ ackDelayFifoReadCount s = 0%nat /\
  (length (eventEng2txEng_event s) + txEngFifoReadCount s = ackDelayFifoWriteCount s)%nat.
Proof.
  intros [(Hw & Har & Haw & Htr) Hr Hwr (Hd1 & Hd2 & Hd3 & Hd4 & Hd5)] E1 E2.
  rewrite E1 in Hr. rewrite E2 in Hwr. unfold fits, event_fifo_depth in *.
  assert (length (eventEng2ackDelay_event s) + ackDelayFifoReadCount s = 0)%nat.
  { destruct (wrap8_ex (ee_adReadCounter s + Z.of_nat (length (eventEng2ackDelay_event s) +
      ackDelayFifoReadCount s))) as [k E]. rewrite E in Hr. lia. }
  split_and!; [apply length_zero_iff_nil; lia | lia |].
  destruct (wrap8_ex (ee_txEngReadCounter s + Z.of_nat (ackDelayFifoWriteCount s))) as [k1 K1].
  destruct (wrap8_ex (ee_txEngReadCounter s + Z.of_nat (txEngFifoReadCount s + length (eventEng2txEng_event s))))
    as [k2 K2]. rewrite K1, K2 in Hwr. lia.
Qed.

(** The wrap-around of the 8-bit counters is harmless: in every reachable state, when the event
    engine takes an event of the timers or of the application, every event it forwarded before has
    passed the acknowledgement delay, and each event still queued for the TX engine is one whose
    write the engine has not been told of yet; the engine is never blocked on its output. *)
Theorem timer_events_wait (ls : list ev_label) (s s' : events) (log : list ad_out) :
  steps ev_step ls ev_start = Next (s, log) ->
  event_engine s <> Blocked /\
  (event_engine s = Next s' ->
   timer2eventEng_setEvent s' <> timer2eventEng_setEvent s \/ txApp2eventEng_setEvent s' <> txApp2eventEng_setEvent s ->
   eventEng2ackDelay_event s = [] /\ ackDelayFifoReadCount s = 0%nat /\
   (length (eventEng2txEng_event s) <= ackDelayFifoWriteCount s)%nat).
Proof.
  intros Hrun. pose proof (run_counts _ _ _ Hrun) as HI. pose proof (equal_counters s HI) as Heq.
  clear HI Hrun. destruct s as [w ar aw tr tbl ptr app rx tim ad tx rc wc tc]. cbn in Heq.
  unfold event_engine, ee_forward. split.
  - destruct rx as [|e rx], (s_full event_fifo_depth ad) eqn:Hf; try done;
      destruct (w =? ar) eqn:E1, (aw =? tr) eqn:E2; cbn [andb]; try done;
      apply Z.eqb_eq in E1, E2; destruct (Heq E1 E2) as (-> & _);
      first [by vm_compute in Hf | destruct tim, app; done].
  - cbn [timer2eventEng_setEvent txApp2eventEng_setEvent eventEng2ackDelay_event ackDelayFifoReadCount
      eventEng2txEng_event ackDelayFifoWriteCount]. intros Hs Hne.
    destruct (decide (w = ar /\ aw = tr)) as [[E1 E2]|Hn].
    + destruct (Heq E1 E2) as (H1 & H2 & H3). split_and!; [done | done | lia].
    + assert ((w =? ar) && (aw =? tr) = false) as Hb.
      { destruct (Z.eqb_spec w ar), (Z.eqb_spec aw tr); try done. by destruct Hn. }
      rewrite Hb in Hs. destruct rx as [|e rx], (s_full event_fifo_depth ad); simplify_eq; cbn in Hne; tauto.
Qed.
End counters.

(** ** Delayed acknowledgements *)

Section delayed_acks.
Context `{cfg : ToeConfig, ok : !ToeConfigOk cfg}.

(** Whether an acknowledgement of [id] was held back and nothing was sent for
    the session since. *)
Definition owes (id : Z) (b : bool) (o : ad_out) : bool :=
  match o with
  | AAbsorb i => if i =? id then true else b
  | AEmit e => if ev_sessionID (ee_event e) =? id then false else b
  end.
Definition owed (log : list ad_out) (id : Z) : bool := foldl (owes id) false log.

Definition AckInv (x : events * list ad_out) : Prop :=
  in_table (ad_pointer (fst x)) = true /\
  forall id, owed (snd x) id = (0 <? ack_at (ack_table (fst x)) id) /\
             0 <= ack_at (ack_table (fst x)) id <= TIME_64us.

Lemma ack_at_insert (t : gmap Z Z) (i j x : Z) :
  ack_at (<[i := x]> t) j = if decide (i = j) then x else ack_at t j.
Proof. apply entry_insert. Qed.

Lemma owed_snoc (log : list ad_out) (o : ad_out) (id : Z) : owed (log ++ [o]) id = owes id (owed log id) o.
Proof. unfold owed. by rewrite foldl_app. Qed.

(** An update of one session's count, with the output that goes with it. *)
Lemma AckInv_update (log : list ad_out) (t : gmap Z Z) (i x : Z) (o : ad_out) :
  (forall id, owed log id = (0 <? ack_at t id) /\ 0 <= ack_at t id <= TIME_64us) ->
  0 <= x <= TIME_64us ->
  match o with AAbsorb j => j = i /\ 0 < x | AEmit e => ev_sessionID (ee_event e) = i /\ x = 0 end ->
  forall id, owed (log ++ [o]) id = (0 <? ack_at (<[i := x]> t) id) /\
             0 <= ack_at (<[i := x]> t) id <= TIME_64us.
Proof.
  intros H Hx Ho id. rewrite owed_snoc, ack_at_insert. destruct (H id) as [H1 H2].
  destruct o as [j|e]; cbn; destruct Ho as [<- ?]; case_decide as Hd;
    try (rewrite (proj2 (Z.eqb_neq _ _)) by done; done);
    rewrite (proj2 (Z.eqb_eq _ _)) by done; (split; [|lia]); symmetry.
  - by apply Z.ltb_lt.
  - apply Z.ltb_ge. lia.
Qed.

Lemma AckInv_delay (s s' : events) (log o : list ad_out) :
  AckInv (s, log) -> ack_delay s = Next (s', o) -> AckInv (s', log ++ o).
Proof.
  intros [Hp HI] Hs. pose proof time_64us_ok as HT.
  assert (wrap 12 TIME_64us = TIME_64us) as HwT by (apply wrap_small; unfold fits; lia).
  destruct s as [w ar aw tr tbl ptr app rx tim ad tx rc wc tc]. cbn [fst snd ad_pointer ack_table] in *.
  unfold ack_delay in Hs. destruct ad as [|ev ad].
  - pose proof (next_session_in_table ptr Hp) as Hn. apply at_index_next in Hs as [_ Hs].
    apply in_table_spec in Hp. pose proof max_sessions_ok. destruct (HI ptr) as [HO HB].
    destruct (0 <? ack_at tbl ptr) eqn:E0; cbn [andb] in Hs; [|simplify_eq; by rewrite app_nil_r].
    destruct (negb _); [|simplify_eq; by rewrite app_nil_r].
    apply Z.ltb_lt in E0. rewrite (wrap_small 12 (_ - 1)) in Hs by (unfold fits; lia).
    destruct (Z.eqb_spec (ack_at tbl ptr) 1) as [E1|E1].
    + destruct (_ <=? wc)%nat; simplify_eq. split; [done|]. cbn [fst snd ack_table]. rewrite E1.
      apply AckInv_update; [done | lia |]. cbn. split; [|done]. apply wrap_small. unfold fits. lia.
    + simplify_eq. split; [done|]. cbn [fst snd ack_table]. rewrite app_nil_r. intros id.
      rewrite ack_at_insert. destruct (HI id) as [H1 H2]. case_decide as Hd; [subst id|done].
      rewrite H1. split; [|lia]. rewrite !(proj2 (Z.ltb_lt _ _)) by lia. done.
  - destruct (_ <=? rc)%nat; [done|]. apply at_index_next in Hs as [_ Hs].
    destruct (bool_decide _ && _); [|destruct (_ || _)]; simplify_eq; (split; [done|]);
      cbn [fst snd ack_table]; rewrite ?HwT; (apply AckInv_update; [done | lia |]); (split; [done | lia]).
Qed.

Lemma AckInv_step (l : ev_label) (x x' : events * list ad_out) :
  AckInv x -> ev_step l x = Next x' -> AckInv x'.
Proof.
  destruct x as [s log]. intros HI Hs. destruct l; cbn in Hs.
  - assert (forall s', event_engine s = Next s' -> ad_pointer s' = ad_pointer s /\ ack_table s' = ack_table s) as He.
    { intros s' H. destruct s. unfold event_engine, ee_forward, ee_count in H.
      repeat case_match; simplify_eq; done. }
    destruct (event_engine s) as [| |s1] eqn:E; [done | done |]. cbn in Hs. simplify_eq.
    destruct (He s1 eq_refl) as [E1 E2]. unfold AckInv. cbn [fst snd]. by rewrite E1, E2.
  - destruct (ack_delay s) as [| |[s1 o]] eqn:E; simplify_eq. by eapply AckInv_delay.
  - assert (forall s', tx_eng_take s = Next s' -> ad_pointer s' = ad_pointer s /\ ack_table s' = ack_table s) as He.
    { intros s' H. destruct s. unfold tx_eng_take in H. repeat case_match; simplify_eq; done. }
    destruct (tx_eng_take s) as [| |s1] eqn:E; [done | done |]. cbn in Hs. simplify_eq.
    destruct (He s1 eq_refl) as [E1 E2]. unfold AckInv. cbn [fst snd]. by rewrite E1, E2.
  - simplify_eq. by destruct s.
  - simplify_eq. by destruct s.
  - simplify_eq. by destruct s.
Qed.

Definition emits (id : Z) (o : ad_out) : Prop :=
  match o with AEmit e => ev_sessionID (ee_event e) = id | AAbsorb _ => False end.

Lemma owed_kept (id : Z) (l1 l2 : list ad_out) :
  Forall (fun o => ~ emits id o) l2 -> owed (l1 ++ AAbsorb id :: l2) id = true.
Proof.
  intros H. unfold owed. rewrite foldl_app. cbn. rewrite Z.eqb_refl.
  induction l2 as [|o l2 IH] using rev_ind; [done|]. rewrite foldl_app.
  apply Forall_app in H as [H1 H2]. rewrite IH by done. inversion H2 as [|? ? Ho _]; subst.
  cbn. destruct o as [i|e]; cbn in *; [by destruct (i =? id)|].
  by rewrite (proj2 (Z.eqb_neq _ _)).
Qed.

(** No acknowledgement is lost in the delay, and none is invented: while nothing was sent for a
    session since an acknowledgement of it was held back, its timer runs and has at most
    [TIME_64us] sweeps left; and a timer only runs for a session that is owed an acknowledgement. *)
Theorem delayed_ack_pending (ls : list ev_label) (s : events) (log : list ad_out) (id : Z) :
  steps ev_step ls ev_start = Next (s, log) ->
  (forall l1 l2, log = l1 ++ AAbsorb id :: l2 -> Forall (fun o => ~ emits id o) l2 ->
     0 < ack_at (ack_table s) id <= TIME_64us) /\
  (0 < ack_at (ack_table s) id -> owed log id = true).
Proof.
  intros Hrun. assert (AckInv (s, log)) as [_ HI].
  { refine (steps_invariant ev_step (fun _ => True) AckInv _ ls ev_start (s, log) _ _ Hrun).
    - intros l x x' _. apply AckInv_step.
    - by apply Forall_true.
    - pose proof max_sessions_ok. pose proof time_64us_ok. split.
      + apply in_table_spec. cbn. lia.
      + intros i. cbn. unfold ack_at, entry. rewrite lookup_empty. cbn. split; [done | lia]. }
  destruct (HI id) as [H1 H2]. cbn [fst snd] in *. split.
  - intros l1 l2 -> Hl2. rewrite owed_kept in H1 by done. symmetry in H1. apply Z.ltb_lt in H1. lia.
  - intros Hpos. rewrite H1. by apply Z.ltb_lt.
Qed.
End delayed_acks.

#[local] Instance demo_cfg : ToeConfig := sim_config 3 true true.
#[local] Instance demo_ok : ToeConfigOk demo_cfg := sim_config_ok 3 true true ltac:(done).

(** An acknowledgement of session 1 is held back. *)
Definition demo_delay : list ev_label :=
  [EFromRx (extend (event_id ACK 1)); EEngine; EDelay; EFromTimer (event_id RT 0); EEngine].
Definition demo_events : events * list ad_out :=
  match steps ev_step demo_delay ev_start with Next x => x | _ => ev_start end.

Lemma delayed_ack_pending_witness :
  snd demo_events = [AAbsorb 1] /\ 0 < ack_at (ack_table (fst demo_events)) 1 <= 1.
Proof.
  split; [vm_compute; reflexivity|].
  assert (steps ev_step demo_delay ev_start = Next (fst demo_events, snd demo_events)) as Hrun
    by (vm_compute; reflexivity).
  apply (proj1 (delayed_ack_pending demo_delay _ _ 1 Hrun) [] []); [vm_compute; reflexivity | constructor].
Defined.

(** Once the engine learned that the acknowledgement was read, the timer's
    event passes. *)
Lemma timer_events_wait_witness :
  exists s', event_engine (fst demo_events) = Next s' /\ timer2eventEng_setEvent s' = [] /\
    eventEng2ackDelay_event (fst demo_events) = [].
Proof.
  pose (s' := match event_engine (fst demo_events) with Next s' => s' | _ => fst demo_events end).
  exists s'. assert (event_engine (fst demo_events) = Next s') as Hs by (vm_compute; reflexivity).
  split; [exact Hs|]. split; [vm_compute; reflexivity|].
  assert (steps ev_step demo_delay ev_start = Next (fst demo_events, snd demo_events)) as Hrun
    by (vm_compute; reflexivity).
  apply (proj2 (timer_events_wait demo_delay _ s' _ Hrun) Hs).
  left. vm_compute. discriminate.
Defined.
