(* ===== verification/KvTable.v ===== *)
(** The interface between the TOE's session lookup controller and the hash
    table that maps connections to session ids: the messages of
    [hash_table/hash_table.hpp], the process [hash_table] of
    [hash_table/hash_table.cpp] over any implementation of its three
    operations ([KvOps]), and what an implementation promises ([KvTable]). *)
From stdpp Require Import base numbers list gmap strings.
From Stdlib Require Import ZArith Lia.
From S2P Require Import Prelude.

Local Open Scope Z_scope.

(** ** Messages *)

Inductive kvOperation : Type := KV_INSERT | KV_DELETE.
Inductive lookupSource : Type := RX | TX_APP.

#[export] Instance kvOperation_eq_dec : EqDecision kvOperation.
Proof. solve_decision. Defined.
#[export] Instance lookupSource_eq_dec : EqDecision lookupSource.
Proof. solve_decision. Defined.

Record htLookupReq : Type := mk_htLookupReq { lq_key : Z; lq_source : lookupSource }.
Record htLookupResp : Type := mk_htLookupResp {
  lr_key : Z; lr_value : Z; lr_hit : bool; lr_source : lookupSource }.
Record htUpdateReq : Type := mk_htUpdateReq {
  uq_op : kvOperation; uq_key : Z; uq_value : Z; uq_source : lookupSource }.
Record htUpdateResp : Type := mk_htUpdateResp {
  ur_op : kvOperation; ur_key : Z; ur_value : Z; ur_success : bool; ur_source : lookupSource }.

(** A response repeats the request it answers. *)
Definition answer (q : htUpdateReq) (success : bool) : htUpdateResp :=
  mk_htUpdateResp (uq_op q) (uq_key q) (uq_value q) success (uq_source q).

(** ** The process *)

Class KvOps : Type := {
  kv : Type;
  kv_empty : kv;
  kv_lookup : kv -> htLookupReq -> htLookupResp;
  kv_insert : kv -> htUpdateReq -> htUpdateResp * kv;
  kv_remove : kv -> htUpdateReq -> htUpdateResp * kv
}.

(** What one call reads and writes. *)
Inductive ht_call : Type :=
| HtIdle
| HtLookup (q : htLookupReq) (r : htLookupResp)
| HtUpdate (q : htUpdateReq) (r : htUpdateResp).

Definition update_table `{KvOps} (t : kv) (q : htUpdateReq) : htUpdateResp * kv :=
  match uq_op q with KV_INSERT => kv_insert t q | KV_DELETE => kv_remove t q end.

(** One call, given the first elements of the two request streams: lookups
    come first. *)
Definition hash_table `{KvOps} (s_axis_lup_req : option htLookupReq)
    (s_axis_upd_req : option htUpdateReq) (t : kv) : ht_call * kv :=
  match s_axis_lup_req, s_axis_upd_req with
  | Some q, _ => (HtLookup q (kv_lookup t q), t)
  | None, Some q => let '(r, t') := update_table t q in (HtUpdate q r, t')
  | None, None => (HtIdle, t)
  end.

(** ** The promise

    A table represents a finite map.  An insertion of a key the map lacks
    either adds the pair, or reports failure and has lost one pair, which need
    not be the new one. *)
Definition lost_one (m m' : gmap Z Z) : Prop :=
  exists k v, m !! k = Some v /\ m' = delete k m.

Class KvTable `(O : KvOps) : Type := {
  kv_repr : kv -> gmap Z Z -> Prop;
  kv_repr_empty : kv_repr kv_empty ∅;
  kv_insert_echo : forall t q, fst (kv_insert t q) = answer q (ur_success (fst (kv_insert t q)));
  kv_remove_echo : forall t q, fst (kv_remove t q) = answer q (ur_success (fst (kv_remove t q)));
  kv_lookup_repr : forall t m q, kv_repr t m ->
    lr_key (kv_lookup t q) = lq_key q /\ lr_source (kv_lookup t q) = lq_source q /\
    (if lr_hit (kv_lookup t q) then m !! lq_key q = Some (lr_value (kv_lookup t q))
     else m !! lq_key q = None);
  kv_insert_repr : forall t m q r t', kv_repr t m -> m !! uq_key q = None -> kv_insert t q = (r, t') ->
    if ur_success r then kv_repr t' (<[uq_key q := uq_value q]> m)
    else exists m', lost_one (<[uq_key q := uq_value q]> m) m' /\ kv_repr t' m';
  kv_remove_repr : forall t m q r t', kv_repr t m -> kv_remove t q = (r, t') ->
    kv_repr t' (delete (uq_key q) m) /\ ur_success r = bool_decide (is_Some (m !! uq_key q))
}.

Lemma update_echo `{KvTable} (t : kv) (q : htUpdateReq) :
  fst (update_table t q) = answer q (ur_success (fst (update_table t q))).
Proof. unfold update_table. destruct (uq_op q); [apply kv_insert_echo | apply kv_remove_echo]. Qed.

(** ** The abstract table *)

(** What a call may answer, and the map after it. *)
Inductive map_call (m : gmap Z Z) : ht_call -> gmap Z Z -> Prop :=
| MIdle : map_call m HtIdle m
| MHit q r :
    lr_key r = lq_key q -> lr_source r = lq_source q -> lr_hit r = true ->
    m !! lq_key q = Some (lr_value r) -> map_call m (HtLookup q r) m
| MMiss q r :
    lr_key r = lq_key q -> lr_source r = lq_source q -> lr_hit r = false ->
    m !! lq_key q = None -> map_call m (HtLookup q r) m
| MInsert q :
    uq_op q = KV_INSERT -> m !! uq_key q = None ->
    map_call m (HtUpdate q (answer q true)) (<[uq_key q := uq_value q]> m)
| MFull q m' :
    uq_op q = KV_INSERT -> m !! uq_key q = None -> lost_one (<[uq_key q := uq_value q]> m) m' ->
    map_call m (HtUpdate q (answer q false)) m'
| MRemove q :
    uq_op q = KV_DELETE ->
    map_call m (HtUpdate q (answer q (bool_decide (is_Some (m !! uq_key q))))) (delete (uq_key q) m).

(** The client inserts a key only after a lookup missed it. *)
Definition allowed `{KvOps} (t : kv) (lup : option htLookupReq) (upd : option htUpdateReq) : bool :=
  match lup, upd with
  | None, Some q =>
      match uq_op q with
      | KV_INSERT => negb (lr_hit (kv_lookup t (mk_htLookupReq (uq_key q) (uq_source q))))
      | KV_DELETE => true
      end
  | _, _ => true
  end.

Lemma hash_table_call `{KvTable} (t t' : kv) (m : gmap Z Z) lup upd c :
  kv_repr t m -> allowed t lup upd = true -> hash_table lup upd t = (c, t') ->
  exists m', map_call m c m' /\ kv_repr t' m'.
Proof.
  intros Hm Hok Hc. destruct lup as [q|]; [|destruct upd as [q|]]; cbn in Hc.
  - simplify_eq. exists m. split; [|done].
    destruct (kv_lookup_repr _ _ q Hm) as (Hk & Hs & Hl).
    destruct (lr_hit _) eqn:E; [by apply MHit | by apply MMiss].
  - destruct (update_table t q) as [r t1] eqn:E; simplify_eq.
    pose proof (update_echo t q) as Hr. rewrite E in Hr. cbn in Hr.
    unfold update_table in E. cbn in Hok. destruct (uq_op q) eqn:Hop.
    + destruct (kv_lookup_repr _ _ (mk_htLookupReq (uq_key q) (uq_source q)) Hm) as (_ & _ & Hl).
      destruct (lr_hit _); [done|]. cbn in Hl.
      pose proof (kv_insert_repr _ _ _ _ _ Hm Hl E) as Hi. destruct (ur_success r); rewrite Hr.
      * eexists. split; [by apply MInsert | done].
      * destruct Hi as (m' & Hlost & Hm'). exists m'. split; [by apply MFull | done].
    + destruct (kv_remove_repr _ _ _ _ _ Hm E) as [Hm' Hs]. rewrite Hr, Hs.
      eexists. split; [by apply MRemove | done].
  - simplify_eq. exists m. split; [apply MIdle | done].
Qed.

(** ** Runs *)

Section runs.
Context `{KvOps}.

Fixpoint ht_run (ins : list (option htLookupReq * option htUpdateReq)) (t : kv) : list ht_call * kv :=
  match ins with
  | [] => ([], t)
  | (lup, upd) :: ins' =>
      let '(c, t1) := hash_table lup upd t in
      let '(cs, t2) := ht_run ins' t1 in (c :: cs, t2)
  end.

Fixpoint all_allowed (ins : list (option htLookupReq * option htUpdateReq)) (t : kv) : bool :=
  match ins with
  | [] => true
  | (lup, upd) :: ins' => allowed t lup upd && all_allowed ins' (snd (hash_table lup upd t))
  end.
End runs.

Inductive map_run (m : gmap Z Z) : list ht_call -> gmap Z Z -> Prop :=
| RunNil : map_run m [] m
| RunCons c cs m1 m2 : map_call m c m1 -> map_run m1 cs m2 -> map_run m (c :: cs) m2.

Lemma ht_run_refines `{KvTable} ins (t t' : kv) (m : gmap Z Z) cs :
  kv_repr t m -> all_allowed ins t = true -> ht_run ins t = (cs, t') ->
  exists m', map_run m cs m' /\ kv_repr t' m'.
Proof.
  revert t m cs. induction ins as [|[lup upd] ins IH]; intros t m cs Hm Hok Hrun; cbn in *.
  - simplify_eq. exists m. split; [constructor | done].
  - destruct (hash_table lup upd t) as [c t1] eqn:Ec, (ht_run ins t1) as [cs1 t2] eqn:Er.
    simplify_eq. apply andb_true_iff in Hok as [Hok1 Hok].
    destruct (hash_table_call _ _ _ _ _ _ Hm Hok1 Ec) as (m1 & Hc & Hm1).
    destruct (IH _ _ _ Hm1 Hok Er) as (m2 & Hcs & Hm2).
    exists m2. split; [by econstructor | done].
Qed.
