(* ===== verification/HashTable.v ===== *)
(** The cuckoo hash table ([hash_table/hash_table.cpp]): nine tables of a
    power of two entries, addressed by tabulation hashes of the 64-bit key.  An
    entry may sit in any of its nine places; an insertion that finds them taken
    evicts one and places that elsewhere, [MAX_TRIALS] times at most.  The table
    is an instance of the interface [KvTable]. *)
From stdpp Require Import base numbers list gmap fin_maps strings.
From Stdlib Require Import ZArith Lia.
From S2P Require Import Prelude KvTable.

Local Open Scope Z_scope.

(** ** Parameters *)

(** [hash_table_config.hpp]: the number of sessions the build is made for. *)
Class HashConfig : Type := MAX_NUMBER_OF_ENTRIES : Z.

(** The recursion halves its argument until it is 1. *)
Fixpoint ConstLog2_pos (val : positive) : Z :=
  match val with xH => 0 | xO val' | xI val' => 1 + ConstLog2_pos val' end.

(** Zero has no result: the template recursion does not end. *)
Definition ConstLog2 (val : Z) : Z := match val with Zpos p => ConstLog2_pos p | _ => 0 end.

Definition MAX_KEY_SIZE : nat := 64.
Definition MAX_ADDRESS_BITS : Z := 16.
Definition NUM_TABLES : nat := 9.
Definition TABLE_ADDRESS_BITS `{HashConfig} : Z :=
  ConstLog2 (MAX_NUMBER_OF_ENTRIES / Z.of_nat (NUM_TABLES - 1)).
Definition TABLE_SIZE `{HashConfig} : Z := Z.shiftl 1 TABLE_ADDRESS_BITS.
Definition MAX_TRIALS : nat := 12.

(** [tabulation_table.txt]: per table, bit value and bit position. *)
Definition tabulation_table : list (list (list Z)) :=
  [[[0; 538; 3094; 1878; 2182; 896; 192; 2780; 2782; 3828; 1570; 2127; 3403; 141; 218; 2169;
     2749; 31; 1570; 273; 1710; 2813; 2412; 3811; 3465; 2158; 376; 2678; 1703; 2872; 3728; 3121;
     1075; 194; 3014; 1344; 2591; 3098; 4059; 1496; 1011; 4024; 2960; 3085; 2668; 297; 2587; 3623;
     1117; 1787; 3139; 1956; 973; 1126; 1471; 682; 1992; 3676; 3724; 248; 3705; 2066; 2114; 1306];
    [4041; 2023; 1090; 371; 3882; 302; 2050; 1573; 1134; 3743; 2169; 1902; 3854; 205; 3119; 3154;
     3390; 513; 64; 2819; 3556; 2578; 3015; 2971; 4093; 3639; 955; 1254; 1437; 2102; 2421; 3465;
     1687; 3446; 1103; 1701; 2200; 1916; 1176; 730; 629; 2341; 3286; 135; 2189; 2041; 3913; 3065;
     2271; 3648; 2559; 3449; 654; 871; 2927; 534; 372; 1124; 12; 1696; 110; 2907; 3841; 982]];
   [[740; 1300; 3633; 2670; 615; 2790; 1580; 1588; 2046; 604; 2405; 3463; 2417; 3913; 2277; 606;
     4027; 1674; 580; 2313; 1032; 2000; 1900; 3936; 516; 818; 1307; 2577; 519; 2667; 2546; 3289;
     1015; 1951; 1594; 832; 116; 3693; 1746; 581; 3880; 1680; 537; 3627; 377; 664; 291; 1496;
     1036; 553; 3207; 1864; 1431; 1852; 3313; 3816; 2669; 881; 2783; 3722; 1024; 3526; 1930; 2072];
    [2459; 3348; 3095; 1893; 3896; 2591; 1799; 3377; 2822; 2876; 4043; 3909; 3486; 1185; 2201; 2107;
     423; 1695; 2362; 3590; 1802; 2989; 3560; 2931; 3279; 2893; 3038; 78; 3629; 2150; 1897; 267;
     2922; 2002; 2734; 2793; 817; 3754; 3546; 3645; 2228; 570; 1844; 4052; 882; 1826; 1293; 2108;
     3610; 1801; 1915; 3304; 1495; 866; 4092; 629; 2582; 2524; 2; 3; 3167; 2979; 1307; 1710]];
   [[2795; 2787; 840; 3425; 2903; 3394; 387; 334; 3129; 2578; 875; 874; 332; 1592; 3900; 3881;
     1596; 1102; 2835; 1163; 3182; 3210; 1730; 1155; 794; 46; 785; 4027; 999; 3357; 558; 1630;
     2461; 724; 3392; 646; 4046; 1053; 956; 416; 898; 2599; 2850; 3255; 2851; 3084; 2742; 2594;
     231; 2450; 929; 1305; 2866; 481; 3123; 2155; 2268; 2408; 1350; 2879; 585; 662; 1987; 3523];
    [3331; 2280; 3026; 1294; 554; 2164; 1272; 2408; 2122; 1764; 1060; 1516; 1609; 1830; 1949; 1588;
     1143; 320; 1514; 1040; 2751; 2769; 2105; 2984; 2952; 3869; 1887; 3850; 1317; 1885; 2118; 2708;
     1645; 2480; 4040; 616; 2744; 1408; 2218; 2141; 3396; 61; 1123; 2633; 2236; 3759; 1092; 3973;
     1010; 3456; 2842; 1866; 3346; 90; 658; 2895; 2899; 1788; 2385; 3079; 4061; 2849; 1144; 3087]];
   [[701; 17; 2030; 327; 667; 3699; 3207; 3058; 1787; 25; 2395; 2123; 273; 2228; 1596; 884;
     1580; 2567; 2699; 2905; 2206; 1148; 3342; 1523; 2810; 1270; 38; 425; 2133; 3178; 903; 226;
     289; 656; 2964; 1216; 207; 1957; 1872; 2129; 1828; 615; 1171; 3414; 2849; 2366; 2790; 1356;
     235; 4042; 2221; 6; 3506; 120; 1546; 2005; 2360; 3026; 2782; 2196; 145; 501; 3986; 771];
    [1439; 2515; 2488; 515; 2264; 3907; 1461; 3432; 3990; 1060; 1030; 1738; 3330; 3677; 1001; 3115;
     2846; 1850; 1079; 2725; 477; 858; 465; 2240; 24; 720; 2454; 1769; 337; 2815; 1537; 3425;
     506; 3986; 121; 329; 2024; 3151; 3825; 1024; 1473; 3150; 2047; 3068; 2752; 2792; 3099; 148;
     944; 907; 2304; 2673; 2525; 1521; 920; 957; 2674; 679; 3047; 654; 195; 2711; 511; 3887]];
   [[1983; 2543; 3743; 73; 2431; 2956; 2034; 219; 1808; 2126; 3161; 267; 1813; 4002; 1915; 1347;
     1826; 3044; 841; 701; 1525; 3849; 3952; 1044; 288; 507; 2155; 655; 2120; 430; 3447; 1509;
     1736; 1340; 2922; 2362; 3571; 3105; 3426; 2866; 1593; 3830; 2480; 1483; 2209; 1863; 1645; 984;
     340; 1726; 1934; 1186; 429; 886; 3285; 2160; 2739; 3537; 998; 2914; 1079; 1568; 331; 1883];
    [953; 3257; 2012; 13; 1090; 2722; 1741; 765; 3946; 549; 3259; 3875; 701; 2482; 261; 1423;
     1197; 2087; 3382; 3417; 2975; 1349; 3285; 2587; 185; 169; 627; 3141; 252; 2127; 3805; 903;
     837; 364; 2865; 2893; 2026; 1072; 2914; 1549; 821; 952; 1786; 1923; 3527; 4002; 1820; 140;
     2145; 129; 3085; 2423; 3370; 1349; 950; 2197; 1763; 1653; 4044; 3960; 3483; 3553; 1276; 607]];
   [[4086; 2619; 1917; 3817; 2829; 3339; 2218; 2346; 652; 3871; 3364; 636; 168; 1407; 450; 395;
     2124; 91; 2299; 3509; 2117; 2762; 3019; 2860; 93; 786; 2748; 1416; 271; 576; 3772; 907;
     1556; 2400; 685; 107; 2830; 3122; 2923; 316; 2415; 3790; 3808; 1763; 2072; 3404; 3765; 2464;
     2964; 2127; 2010; 661; 3998; 2352; 1119; 2176; 2861; 2732; 399; 2247; 2501; 2735; 2028; 2341];
    [2412; 1807; 619; 2057; 2995; 129; 211; 2138; 1313; 143; 1004; 439; 1568; 2260; 2446; 2503;
     3830; 3162; 2101; 1993; 2662; 2854; 1669; 1994; 1965; 2910; 2188; 1133; 2480; 1147; 2881; 2172;
     3843; 964; 1693; 2447; 3207; 3769; 2791; 3363; 2160; 943; 588; 3684; 1029; 2668; 19; 3833;
     1127; 3517; 1142; 3901; 2075; 503; 1705; 2877; 1787; 441; 3138; 409; 1807; 1411; 1216; 3103]];
   [[1386; 1354; 227; 2347; 1987; 829; 468; 3990; 3541; 2014; 1504; 3296; 664; 653; 236; 611;
     1917; 1558; 3619; 1737; 1688; 2667; 1262; 246; 3335; 3676; 3766; 3691; 3154; 699; 2344; 128;
     3290; 2138; 3529; 1135; 3561; 2403; 1594; 3325; 2153; 3849; 1720; 2375; 3068; 3607; 1384; 776;
     3043; 2944; 3601; 298; 2908; 3600; 1472; 368; 659; 1707; 394; 2763; 2304; 3330; 3597; 3151];
    [2601; 3672; 3597; 1992; 463; 1546; 1567; 2816; 498; 314; 586; 1956; 2902; 974; 1601; 3997;
     2575; 2790; 3722; 1484; 3519; 3253; 1756; 301; 2042; 1981; 1846; 2046; 3034; 3820; 1229; 598;
     450; 328; 3983; 1671; 976; 3945; 3413; 811; 530; 804; 1389; 2357; 1803; 2398; 1773; 1508;
     1565; 2458; 1759; 609; 2745; 4077; 2859; 1649; 3478; 3356; 3249; 1532; 39; 1965; 2617; 2648]];
   [[2641; 3272; 1545; 1465; 1595; 1369; 2840; 593; 1194; 2731; 3499; 1289; 590; 2466; 22; 3771;
     1564; 2115; 1410; 1081; 1191; 3414; 509; 2599; 199; 1876; 1543; 638; 3095; 2727; 47; 3255;
     2297; 1182; 1702; 1313; 2107; 2945; 3449; 949; 1904; 1529; 204; 302; 829; 2319; 3405; 1730;
     3438; 1200; 742; 1464; 3826; 2414; 1511; 1896; 2571; 3868; 1662; 206; 1822; 2440; 3065; 3539];
    [536; 428; 2725; 3413; 2380; 2697; 4022; 77; 3774; 797; 3963; 2142; 1141; 2948; 2418; 3428;
     3418; 2702; 2991; 2633; 1431; 2190; 2720; 1324; 3560; 1811; 3760; 1133; 3898; 480; 1703; 3425;
     3942; 1363; 2155; 2195; 3350; 3808; 2715; 996; 3856; 2444; 516; 1011; 3632; 803; 667; 3424;
     2467; 2552; 3435; 2751; 1603; 3568; 2733; 473; 0; 2769; 2575; 1861; 2352; 132; 1439; 3502]];
   [[1518; 2709; 2361; 245; 3049; 1144; 1812; 722; 376; 3675; 4064; 2433; 135; 2830; 1995; 2332;
     3668; 1779; 2820; 832; 1973; 1115; 3879; 1000; 3904; 1953; 520; 3938; 3510; 890; 28; 3205;
     206; 3932; 2627; 2348; 561; 528; 3377; 2055; 2686; 2068; 2156; 484; 3698; 2739; 1136; 1583;
     1603; 3404; 995; 505; 2983; 2654; 824; 3476; 92; 432; 769; 1478; 3193; 2945; 2729; 2379];
    [1438; 643; 1196; 692; 916; 2749; 1657; 3631; 2373; 1400; 1790; 2865; 3417; 3243; 3477; 1155;
     1084; 696; 2185; 299; 4090; 3072; 500; 674; 1741; 3167; 874; 1777; 135; 3806; 434; 1090;
     1974; 3247; 1054; 876; 1156; 1559; 852; 3803; 3129; 2525; 2358; 1459; 3718; 810; 467; 3240;
     2859; 74; 3063; 469; 3665; 2681; 1416; 1566; 880; 1356; 72; 3745; 3217; 1611; 2990; 3406]]].

Definition tabulation (i : nat) (b : bool) (k : nat) : Z :=
  nth k (nth (if b then 1 else 0)%nat (nth i tabulation_table []) []) 0.

(** ** State *)

Record htEntry : Type := mk_htEntry { he_key : Z; he_value : Z; he_valid : bool }.
Definition htEntry_kv (key value : Z) : htEntry := mk_htEntry key value true.
Definition no_entry : htEntry := mk_htEntry 0 0 false.

Abbreviation cuckoo_tables := (gmap (nat * Z) htEntry).

(** The static tables and variables; the output register starts unassigned and
    is written before it is first read by a result here. *)
Record ht : Type := mk_ht {
  cuckooTables : cuckoo_tables;
  victimIdx : Z;
  victimBit : Z;
  insertFailureCounter : Z;
  regInsertFailureCount : Z
}.

Definition ht_init : ht := mk_ht ∅ 0 0 0 0.

Definition at_place (t : cuckoo_tables) (i : nat) (h : Z) : htEntry := default no_entry (t !! (i, h)).

(** ** Operations *)

Definition hash `{HashConfig} (i : nat) (key : Z) : Z :=
  foldl (fun h k => Z.lxor h (bits (tabulation i (Z.testbit key (Z.of_nat k)) k) 0 TABLE_ADDRESS_BITS))
    0 (seq 0 MAX_KEY_SIZE).
Definition calculate_hashes `{HashConfig} (key : Z) : list Z :=
  (fun i => hash i key) <$> seq 0 NUM_TABLES.

(** The last table whose entry satisfies the test, as the loops leave [slot]. *)
Definition last_slot (p : nat -> bool) : option nat :=
  foldl (fun slot i => if p i then Some i else slot) None (seq 0 NUM_TABLES).

(** A miss leaves [response.value] uninitialised: [junk]. *)
Definition lookup_entry `{HashConfig} (junk : Z) (t : ht) (q : htLookupReq) : htLookupResp :=
  let hashes := calculate_hashes (lq_key q) in
  let currentEntries i := at_place (cuckooTables t) i (nth i hashes 0) in
  match last_slot (fun i => he_valid (currentEntries i) && (he_key (currentEntries i) =? lq_key q)) with
  | Some slot => mk_htLookupResp (lq_key q) (he_value (currentEntries slot)) true (lq_source q)
  | None => mk_htLookupResp (lq_key q) junk false (lq_source q)
  end.

(** One round of [insertLoop]: the tables, [victimIdx], [victimBit], the entry
    still to be placed and whether the loop is done.  Writing the unchanged
    entries back does nothing. *)
Definition trial `{HashConfig} (t : cuckoo_tables) (vIdx vBit : Z) (currentEntry : htEntry) :
    cuckoo_tables * Z * Z * htEntry * bool :=
  let hashes := calculate_hashes (he_key currentEntry) in
  let currentEntries i := at_place t i (nth i hashes 0) in
  match last_slot (fun i => negb (he_valid (currentEntries i))) with
  | Some slot =>
      (<[(slot, nth slot hashes 0) := currentEntry]> t, vIdx, wrap 1 (vBit + 1), currentEntry, true)
  | None =>
      let victimPos := Z.to_nat (nth (Z.to_nat vIdx) hashes 0 mod Z.of_nat (NUM_TABLES - 1) + vBit) in
      let vIdx' := if u8 (vIdx + 1) =? Z.of_nat NUM_TABLES then 0 else u8 (vIdx + 1) in
      (<[(victimPos, nth victimPos hashes 0) := currentEntry]> t, vIdx', wrap 1 (vBit + 1),
        currentEntries victimPos, false)
  end.

Fixpoint insertLoop `{HashConfig} (trials : nat) (t : cuckoo_tables) (vIdx vBit : Z) (e : htEntry) :
    cuckoo_tables * Z * Z * htEntry * bool :=
  match trials with
  | O => (t, vIdx, vBit, e, false)
  | S trials' =>
      let '(t', vIdx', vBit', e', success) := trial t vIdx vBit e in
      if success then (t', vIdx', vBit', e', true) else insertLoop trials' t' vIdx' vBit' e'
  end.

Definition insert_entry `{HashConfig} (t : ht) (q : htUpdateReq) : htUpdateResp * ht :=
  let '(tabs, vIdx, vBit, _, success) :=
    insertLoop MAX_TRIALS (cuckooTables t) 0 (victimBit t) (htEntry_kv (uq_key q) (uq_value q)) in
  (answer q success,
    mk_ht tabs vIdx vBit
      (if success then insertFailureCounter t else u16 (insertFailureCounter t + 1))
      (insertFailureCounter t)).

(** Each table in turn: a matching entry becomes invalid. *)
Definition remove_at `{HashConfig} (key : Z) (hashes : list Z) (acc : cuckoo_tables * bool) (i : nat) :
    cuckoo_tables * bool :=
  let '(t, success) := acc in
  let e := at_place t i (nth i hashes 0) in
  if he_valid e && (he_key e =? key) then
    (<[(i, nth i hashes 0) := mk_htEntry (he_key e) (he_value e) false]> t, true)
  else (t, success).

Definition remove_entry `{HashConfig} (t : ht) (q : htUpdateReq) : htUpdateResp * ht :=
  let '(tabs, success) :=
    foldl (remove_at (uq_key q) (calculate_hashes (uq_key q))) (cuckooTables t, false) (seq 0 NUM_TABLES) in
  (answer q success,
    mk_ht tabs (victimIdx t) (victimBit t) (insertFailureCounter t) (regInsertFailureCount t)).

#[export] Instance cuckoo_ops `{HashConfig} (junk : Z) : KvOps := {|
  kv := ht; kv_empty := ht_init; kv_lookup := lookup_entry junk;
  kv_insert := insert_entry; kv_remove := remove_entry |}.

(** ** The tables represent a map

    A valid entry sits where its key hashes to, no key has two valid entries,
    and the map's pairs are the valid entries. *)

#[local] Arguments hash {_} i key : simpl never.
#[local] Arguments calculate_hashes {_} key : simpl never.
#[local] Arguments at_place t i h : simpl never.
#[local] Arguments last_slot p : simpl never.

Record cuckoo_repr `{HashConfig} (t : cuckoo_tables) (m : gmap Z Z) : Prop := {
  cr_placed : forall i h, (i < NUM_TABLES)%nat -> he_valid (at_place t i h) = true ->
    h = hash i (he_key (at_place t i h));
  cr_unique : forall i j h h', (i < NUM_TABLES)%nat -> (j < NUM_TABLES)%nat ->
    he_valid (at_place t i h) = true -> he_valid (at_place t j h') = true ->
    he_key (at_place t i h) = he_key (at_place t j h') -> i = j;
  cr_map : forall k v, m !! k = Some v <->
    exists i, (i < NUM_TABLES)%nat /\ at_place t i (hash i k) = htEntry_kv k v
}.

Lemma nth_hashes `{HashConfig} (key : Z) (i : nat) :
  (i < NUM_TABLES)%nat -> nth i (calculate_hashes key) 0 = hash i key.
Proof.
  intros Hi. unfold calculate_hashes. erewrite nth_lookup_Some; [done|].
  rewrite list_lookup_fmap, (lookup_seq_lt 0 NUM_TABLES i Hi). done.
Qed.

Lemma last_slot_spec (p : nat -> bool) :
  match last_slot p with
  | Some i => (i < NUM_TABLES)%nat /\ p i = true
  | None => forall i, (i < NUM_TABLES)%nat -> p i = false
  end.
Proof.
  unfold last_slot. induction NUM_TABLES as [|n IH]; [intros i Hi; lia|].
  rewrite seq_S, foldl_app. cbn. destruct (p n) eqn:E; [auto with lia|].
  destruct (foldl _ None (seq 0 n)) as [i|].
  - destruct IH. auto with lia.
  - intros i Hi. destruct (decide (i = n)) as [->|]; [done|]. apply IH. lia.
Qed.

Lemma at_place_insert (t : cuckoo_tables) (i j : nat) (h h' : Z) (e : htEntry) :
  at_place (<[(i, h) := e]> t) j h' =
    if decide (i = j /\ h = h') then e else at_place t j h'.
Proof.
  unfold at_place. destruct (decide (i = j /\ h = h')) as [[-> ->]|Hne].
  - by rewrite lookup_insert_eq.
  - rewrite lookup_insert_ne; [done|]. intros [= -> ->]. by apply Hne.
Qed.

Lemma valid_entry (e : htEntry) : he_valid e = true -> e = htEntry_kv (he_key e) (he_value e).
Proof. by destruct e as [k v []]. Qed.

(** A valid entry is in the map. *)
Lemma entry_in_map `{HashConfig} (t : cuckoo_tables) (m : gmap Z Z) (i : nat) (h : Z) :
  cuckoo_repr t m -> (i < NUM_TABLES)%nat -> he_valid (at_place t i h) = true ->
  m !! he_key (at_place t i h) = Some (he_value (at_place t i h)).
Proof.
  intros R Hi Hv. apply (cr_map _ _ R). exists i. split; [done|].
  rewrite <- (cr_placed _ _ R i h Hi Hv). by apply valid_entry.
Qed.

(** The map without the pair stored at a place. *)
Definition evict (t : cuckoo_tables) (i : nat) (h : Z) (m : gmap Z Z) : gmap Z Z :=
  if he_valid (at_place t i h) then delete (he_key (at_place t i h)) m else m.

Lemma evict_lookup `{HashConfig} (t : cuckoo_tables) (m : gmap Z Z) (i : nat) (h k v : Z) :
  cuckoo_repr t m -> (i < NUM_TABLES)%nat ->
  evict t i h m !! k = Some v <->
  exists j, (j < NUM_TABLES)%nat /\ ~ (i = j /\ h = hash j k) /\ at_place t j (hash j k) = htEntry_kv k v.
Proof.
  intros R Hi. unfold evict. destruct (he_valid (at_place t i h)) eqn:Hv.
  - rewrite lookup_delete_Some, (cr_map _ _ R). split.
    + intros [Hk (j & Hj & Hjk)]. exists j. split_and!; [done| |done].
      intros [-> ->]. rewrite Hjk in Hk. done.
    + intros (j & Hj & Hne & Hjk). split; [|eauto]. intros <-. apply Hne.
      pose proof (cr_placed _ _ R i h Hi Hv) as Hh.
      assert (i = j) as <-; [|done].
      eapply (cr_unique _ _ R i j); [done | done | exact Hv | |]; rewrite Hjk; done.
  - rewrite (cr_map _ _ R). split.
    + intros (j & Hj & Hjk). exists j. split_and!; [done| |done].
      intros [-> ->]. rewrite Hjk in Hv. done.
    + intros (j & Hj & _ & Hjk). eauto.
Qed.

(** Writing an entry of a new key in one of its places. *)
Lemma write_repr `{HashConfig} (t : cuckoo_tables) (m : gmap Z Z) (i : nat) (k v : Z) :
  cuckoo_repr t m -> (i < NUM_TABLES)%nat -> m !! k = None ->
  cuckoo_repr (<[(i, hash i k) := htEntry_kv k v]> t) (<[k := v]> (evict t i (hash i k) m)).
Proof.
  intros R Hi Hk.
  assert (forall j h, (j < NUM_TABLES)%nat -> he_valid (at_place t j h) = true ->
    he_key (at_place t j h) <> k) as Hnew.
  { intros j h Hj Hv <-. by rewrite (entry_in_map _ _ _ _ R Hj Hv) in Hk. }
  split.
  - intros j h Hj. rewrite at_place_insert. case_decide as E; [|by apply R].
    by destruct E as [-> <-].
  - intros j j' h h' Hj Hj'. rewrite !at_place_insert.
    case_decide as E; case_decide as E'; intros Hv Hv' Hkk.
    + by destruct E as [-> _], E' as [-> _].
    + cbn in Hkk. by destruct (Hnew _ _ Hj' Hv').
    + cbn in Hkk. by destruct (Hnew _ _ Hj Hv).
    + by apply (cr_unique _ _ R j j' h h').
  - intros k' v'. destruct (decide (k' = k)) as [->|Hne].
    + rewrite lookup_insert_eq. split.
      * intros [= ->]. exists i. split; [done|]. rewrite at_place_insert. by rewrite decide_True.
      * intros (j & Hj & Hjk). rewrite at_place_insert in Hjk. case_decide; [by simplify_eq|].
        destruct (Hnew j (hash j k) Hj); by rewrite Hjk.
    + rewrite lookup_insert_ne, (evict_lookup _ _ _ _ _ _ R Hi) by done.
      apply exist_proper. intros j. rewrite at_place_insert.
      case_decide as E; [|tauto]. split; [by intros (_ & [] & _)|]. intros [_ Hjk].
      unfold htEntry_kv in Hjk. by simplify_eq.
Qed.

(** Making an entry invalid. *)
Lemma clear_repr `{HashConfig} (t : cuckoo_tables) (m : gmap Z Z) (i : nat) (h k v : Z) :
  cuckoo_repr t m -> (i < NUM_TABLES)%nat ->
  cuckoo_repr (<[(i, h) := mk_htEntry k v false]> t) (evict t i h m).
Proof.
  intros R Hi. split.
  - intros j h' Hj. rewrite at_place_insert. case_decide; [done|]. by apply R.
  - intros j j' h1 h2 Hj Hj'. rewrite !at_place_insert. do 2 (case_decide; [done|]). by apply R.
  - intros k' v'. rewrite (evict_lookup _ _ _ _ _ _ R Hi). apply exist_proper. intros j.
    rewrite at_place_insert. case_decide as E; [|tauto]. split; [by intros (_ & [] & _) | by intros [_ ?]].
Qed.

(** ** The operations on the map *)

Lemma lookup_slot `{HashConfig} (junk : Z) (t : ht) (m : gmap Z Z) (q : htLookupReq) :
  cuckoo_repr (cuckooTables t) m ->
  let r := lookup_entry junk t q in
  lr_key r = lq_key q /\ lr_source r = lq_source q /\
  (if lr_hit r then m !! lq_key q = Some (lr_value r) else m !! lq_key q = None).
Proof.
  intros R. unfold lookup_entry.
  match goal with |- context [last_slot ?p] => pose proof (last_slot_spec p) as Hs end.
  destruct (last_slot _) as [i|]; cbn.
  - destruct Hs as [Hi Hp]. rewrite nth_hashes in * by done.
    apply andb_true_iff in Hp as [Hv Hk%Z.eqb_eq].
    split_and!; [done | done |]. pose proof (entry_in_map _ _ _ _ R Hi Hv) as He. by rewrite Hk in He.
  - split_and!; [done | done |]. apply eq_None_not_Some. intros [v Hv].
    apply (cr_map _ _ R) in Hv as (i & Hi & He). specialize (Hs i Hi).
    rewrite nth_hashes, He in Hs by done. cbn in Hs. by rewrite Z.eqb_refl in Hs.
Qed.

Lemma wrap_bit (x : Z) : 0 <= wrap 1 x <= 1.
Proof. pose proof (wrap_range 1 x ltac:(lia)) as Hx. unfold fits in Hx. lia. Qed.

Lemma hash_mod_place (h : Z) (vBit : Z) :
  0 <= vBit <= 1 -> (Z.to_nat (h mod Z.of_nat (NUM_TABLES - 1) + vBit) < NUM_TABLES)%nat.
Proof. intros. pose proof (Z.mod_pos_bound h 8). unfold NUM_TABLES. cbn -[Z.modulo]. lia. Qed.

(** One round either places the entry or exchanges it for another one. *)
Lemma trial_repr `{HashConfig} t m vIdx vBit e t' vIdx' vBit' e' b :
  cuckoo_repr t m -> he_valid e = true -> m !! he_key e = None -> 0 <= vBit <= 1 ->
  trial t vIdx vBit e = (t', vIdx', vBit', e', b) ->
  0 <= vBit' <= 1 /\
  if b then cuckoo_repr t' (<[he_key e := he_value e]> m)
  else exists m', cuckoo_repr t' m' /\ he_valid e' = true /\ m' !! he_key e' = None /\
    <[he_key e' := he_value e']> m' = <[he_key e := he_value e]> m.
Proof.
  intros R Hv Hk Hb Ht. unfold trial in Ht.
  match type of Ht with context [last_slot ?p] => pose proof (last_slot_spec p) as Hs end.
  rewrite (valid_entry e Hv) in Ht. cbn [he_key he_value htEntry_kv] in Ht.
  destruct (last_slot _) as [i|] eqn:El; simplify_eq.
  - split; [apply wrap_bit|]. destruct Hs as [Hi Hi'].
    rewrite nth_hashes in * by done. apply negb_true_iff in Hi'.
    pose proof (write_repr t m i _ (he_value e) R Hi Hk) as Hw. unfold evict in Hw. by rewrite Hi' in Hw.
  - split; [apply wrap_bit|].
    set (pos := Z.to_nat _) in *. assert (pos < NUM_TABLES)%nat as Hi by by apply hash_mod_place.
    specialize (Hs pos Hi). rewrite nth_hashes in * by done. apply negb_false_iff in Hs.
    pose proof (write_repr t m pos _ (he_value e) R Hi Hk) as Hw. unfold evict in Hw. rewrite Hs in Hw.
    pose proof (entry_in_map _ _ _ _ R Hi Hs) as Hold.
    set (old := at_place t pos _) in *.
    assert (he_key old <> he_key e) as Hne by congruence.
    eexists. split_and!; [exact Hw | exact Hs | |].
    + by rewrite lookup_insert_ne, lookup_delete_eq.
    + by rewrite insert_insert_ne, insert_delete_id by done.
Qed.

Lemma insertLoop_repr `{HashConfig} trials t m vIdx vBit e t' vIdx' vBit' e' b :
  cuckoo_repr t m -> he_valid e = true -> m !! he_key e = None -> 0 <= vBit <= 1 ->
  insertLoop trials t vIdx vBit e = (t', vIdx', vBit', e', b) ->
  0 <= vBit' <= 1 /\
  if b then cuckoo_repr t' (<[he_key e := he_value e]> m)
  else exists m', lost_one (<[he_key e := he_value e]> m) m' /\ cuckoo_repr t' m'.
Proof.
  revert t m vIdx vBit e. induction trials as [|n IH]; intros t m vIdx vBit e R Hv Hk Hb Hl; cbn in Hl.
  - simplify_eq. split; [done|]. exists m. split; [|done].
    exists (he_key e'), (he_value e'). rewrite lookup_insert_eq. by rewrite delete_insert_id.
  - destruct (trial t vIdx vBit e) as [[[[t1 vIdx1] vBit1] e1] b1] eqn:Et.
    destruct (trial_repr _ _ _ _ _ _ _ _ _ _ R Hv Hk Hb Et) as [Hb1 H1].
    destruct b1; simplify_eq; [done|].
    destruct H1 as (m1 & R1 & Hv1 & Hk1 & <-). by eapply IH.
Qed.

(** After the first tables, the key is either gone or was not in them. *)
Lemma remove_tables `{HashConfig} (t : cuckoo_tables) (m : gmap Z Z) (key : Z) (n : nat) :
  cuckoo_repr t m -> (n <= NUM_TABLES)%nat ->
  let '(t', b) := foldl (remove_at key (calculate_hashes key)) (t, false) (seq 0 n) in
  if b then cuckoo_repr t' (delete key m) /\ is_Some (m !! key)
  else t' = t /\ forall i v, (i < n)%nat -> at_place t i (hash i key) <> htEntry_kv key v.
Proof.
  intros R. induction n as [|n IH]; intros Hn; [by split; [|intros ?; lia]|].
  rewrite seq_S, foldl_app. cbn. specialize (IH ltac:(lia)).
  destruct (foldl _ (t, false) (seq 0 n)) as [t' b]. cbn.
  rewrite nth_hashes by lia.
  destruct (he_valid _ && _) eqn:E.
  - apply andb_true_iff in E as [Hv Hk%Z.eqb_eq]. destruct b.
    + destruct IH as [R' _]. pose proof (entry_in_map _ _ _ _ R' Hn Hv) as He.
      by rewrite Hk, lookup_delete_eq in He.
    + destruct IH as [-> _].
      pose proof (clear_repr t m n (hash n key) key (he_value (at_place t n (hash n key))) R Hn) as Hc.
      pose proof (entry_in_map _ _ _ _ R Hn Hv) as He. unfold evict in Hc.
      rewrite Hv, Hk in *. by split.
  - destruct b; [done|]. destruct IH as [-> IH]. split; [done|]. intros i v Hi He.
    destruct (decide (i = n)) as [->|]; [|by apply (IH i v); [lia|]].
    rewrite He in E. cbn in E. by rewrite Z.eqb_refl in E.
Qed.

Lemma remove_slot `{HashConfig} (t t' : ht) (m : gmap Z Z) (q : htUpdateReq) (r : htUpdateResp) :
  cuckoo_repr (cuckooTables t) m -> remove_entry t q = (r, t') ->
  cuckoo_repr (cuckooTables t') (delete (uq_key q) m) /\
  ur_success r = bool_decide (is_Some (m !! uq_key q)).
Proof.
  intros R Hr. unfold remove_entry in Hr.
  pose proof (remove_tables _ _ (uq_key q) NUM_TABLES R (le_n _)) as H1.
  destruct (foldl _ _ _) as [t1 b]. simplify_eq. cbn. destruct b.
  - destruct H1 as [R1 Hs]. by rewrite bool_decide_true.
  - destruct H1 as [-> Hno]. assert (m !! uq_key q = None) as Hk.
    { apply eq_None_not_Some. intros [v Hv]. apply (cr_map _ _ R) in Hv as (i & Hi & He).
      by apply (Hno i v). }
    rewrite delete_id, Hk, bool_decide_false by (done || by intros []). done.
Qed.

(** ** The table keeps the interface's promise *)

(** With [victimBit] the single bit that it is. *)
Definition cuckoo_ok `{HashConfig} (t : ht) (m : gmap Z Z) : Prop :=
  cuckoo_repr (cuckooTables t) m /\ 0 <= victimBit t <= 1.

Lemma cuckoo_init `{HashConfig} : cuckoo_ok ht_init ∅.
Proof.
  split; [|done]. split; [done | done |]. intros k v. split; [done|]. by intros (i & _ & Hi).
Qed.

Lemma insert_slot `{HashConfig} (t t' : ht) (m : gmap Z Z) (q : htUpdateReq) (r : htUpdateResp) :
  cuckoo_ok t m -> m !! uq_key q = None -> insert_entry t q = (r, t') ->
  if ur_success r then cuckoo_ok t' (<[uq_key q := uq_value q]> m)
  else exists m', lost_one (<[uq_key q := uq_value q]> m) m' /\ cuckoo_ok t' m'.
Proof.
  intros [R Hb] Hk Hi. unfold insert_entry in Hi.
  destruct (insertLoop _ _ _ _ _) as [[[[t1 vIdx] vBit] e] b] eqn:E. simplify_eq. cbn.
  destruct (insertLoop_repr _ _ _ _ _ (htEntry_kv (uq_key q) (uq_value q)) _ _ _ _ _ R eq_refl Hk Hb E)
    as [Hb' Hr].
  unfold cuckoo_ok; cbn in *. destruct b; [done|]. destruct Hr as (m' & ? & ?). by exists m'.
Qed.

#[export] Instance cuckoo_table `{HashConfig} (junk : Z) : KvTable (cuckoo_ops junk).
Proof.
  refine {| kv_repr := (cuckoo_ok : @kv (cuckoo_ops junk) -> _) |}.
  - apply cuckoo_init.
  - intros t q. cbn. unfold insert_entry. by destruct (insertLoop _ _ _ _ _) as [[[[? ?] ?] ?] ?].
  - intros t q. cbn. unfold remove_entry. by destruct (foldl _ _ _).
  - intros t m q [R _]. by apply lookup_slot.
  - intros t m q r t' Hm Hk Hi. by eapply insert_slot.
  - intros t m q r t' [R Hb] Hr. destruct (remove_slot _ _ _ _ _ R Hr) as [R' Hs].
    split; [split; [done|] | done]. cbn in Hr. unfold remove_entry in Hr.
    destruct (foldl _ _ _). by simplify_eq.
Defined.

(** C27: The hash table refines a finite map.  Along any sequence of calls in which the client
    inserts only keys its lookups miss, every answer is one that the map may give: a lookup hits
    exactly the stored keys and returns their value, a deletion succeeds exactly on stored keys, and
    an insertion either stores the pair or reports failure and has dropped one stored pair.  The
    tables, evictions included, represent the map that results. *)
Theorem cuckoo_refines_map `{HashConfig} (junk : Z) ins cs t :
  all_allowed (H := cuckoo_ops junk) ins ht_init = true ->
  ht_run (H := cuckoo_ops junk) ins ht_init = (cs, t) ->
  exists m, map_run ∅ cs m /\ cuckoo_repr (cuckooTables t) m.
Proof.
  intros Hok Hrun.
  destruct (ht_run_refines (H := cuckoo_table junk) _ _ _ _ _ kv_repr_empty Hok Hrun) as (m & Hm & [R _]).
  by exists m.
Qed.

Definition put (key value : Z) : option htLookupReq * option htUpdateReq :=
  (None, Some (mk_htUpdateReq KV_INSERT key value RX)).
Definition look (key : Z) : option htLookupReq * option htUpdateReq :=
  (Some (mk_htLookupReq key RX), None).
Definition drop_key (key : Z) : option htLookupReq * option htUpdateReq :=
  (None, Some (mk_htUpdateReq KV_DELETE key 0 RX)).

Lemma cuckoo_refines_map_witness :
  let _ : HashConfig := 30 in
  let ins := [put 7919 1; put 15838 2; look 7919; drop_key 7919; look 7919; look 15838] in
  exists m, map_run ∅ (fst (ht_run (H := cuckoo_ops 77) ins ht_init)) m /\
    cuckoo_repr (cuckooTables (snd (ht_run (H := cuckoo_ops 77) ins ht_init))) m.
Proof.
  intros c ins. apply (cuckoo_refines_map 77 ins); [by vm_compute|].
  apply surjective_pairing.
Defined.

(** ** Capacity *)

Lemma ConstLog2_nonneg (val : Z) : 0 <= ConstLog2 val.
Proof.
  destruct val as [|p|p]; cbn; [done | | done].
  induction p; cbn [ConstLog2_pos]; lia.
Qed.

Lemma ConstLog2_pow (val : Z) : 0 < val -> 2 ^ ConstLog2 val <= val < 2 * 2 ^ ConstLog2 val.
Proof.
  destruct val as [|p|p]; cbn; [lia | intros _ | lia].
  induction p as [p IH|p IH|]; cbn [ConstLog2_pos]; [| | done];
    rewrite Z.pow_add_r by (lia || apply (ConstLog2_nonneg (Zpos p))); lia.
Qed.

Lemma hash_fits `{HashConfig} (i : nat) (key : Z) : fits TABLE_ADDRESS_BITS (hash i key).
Proof.
  unfold hash. pose proof (ConstLog2_nonneg (MAX_NUMBER_OF_ENTRIES / Z.of_nat (NUM_TABLES - 1))) as Hn.
  change (ConstLog2 _) with TABLE_ADDRESS_BITS in Hn.
  assert (fits TABLE_ADDRESS_BITS 0) as H0 by (split; [done | by apply pow2_pos]).
  revert H0. generalize 0 at 1 3 as h. induction (seq 0 MAX_KEY_SIZE) as [|k l IH]; [done|].
  intros h Hh. cbn. apply IH. apply fits_lxor; [done | done |]. by apply bits_range.
Qed.

(** The keys stored at the places of the tables. *)
Definition places `{HashConfig} : list (nat * Z) :=
  list_prod (seq 0 NUM_TABLES) (seqZ 0 TABLE_SIZE).
Definition stored_keys `{HashConfig} (t : cuckoo_tables) : list Z :=
  (fun p => he_key (at_place t p.1 p.2)) <$> places.

Lemma stored_keys_complete `{HashConfig} (t : cuckoo_tables) (m : gmap Z Z) (k v : Z) :
  cuckoo_repr t m -> m !! k = Some v -> k ∈ stored_keys t.
Proof.
  intros R Hk. apply (cr_map _ _ R) in Hk as (i & Hi & He).
  apply list_elem_of_fmap. exists (i, hash i k). cbn [fst snd]. rewrite He. split; [done|].
  unfold places. apply list_elem_of_In, in_prod.
  - apply in_seq. lia.
  - apply list_elem_of_In, elem_of_seqZ. pose proof (hash_fits i k) as Hf. unfold fits in Hf.
    unfold TABLE_SIZE. rewrite Z.shiftl_1_l. lia.
Qed.

Lemma size_stored `{HashConfig} (t : cuckoo_tables) (m : gmap Z Z) :
  cuckoo_repr t m -> (size m <= length (stored_keys t))%nat.
Proof.
  intros R. rewrite <- length_map_to_list, <- (length_fmap fst (map_to_list m)).
  apply submseteq_length, NoDup_submseteq; [apply NoDup_fst_map_to_list|].
  intros k Hk. apply list_elem_of_fmap in Hk as ([k' v] & -> & Hkv).
  apply elem_of_map_to_list in Hkv. by eapply stored_keys_complete.
Qed.

(** Whatever it holds, the hash table of a build for n sessions holds at most
    9 * 2^floor(log2(n / 8)) connections.  That is never more than 9/8 of n, and can be little more
    than half of it: with the default of 1000 sessions it is 576, so that the session table cannot
    hold the sessions the rest of the stack is sized for. *)
Theorem cuckoo_capacity `{HashConfig} (t : cuckoo_tables) (m : gmap Z Z) :
  8 <= MAX_NUMBER_OF_ENTRIES -> cuckoo_repr t m ->
  Z.of_nat (size m) <= 9 * TABLE_SIZE /\
  8 * TABLE_SIZE <= MAX_NUMBER_OF_ENTRIES < 16 * TABLE_SIZE + 8 /\
  (MAX_NUMBER_OF_ENTRIES = 1000 -> Z.of_nat (size m) <= 576).
Proof.
  intros Hn R. pose proof (size_stored t m R) as Hs.
  unfold stored_keys, places in Hs. rewrite length_fmap, length_prod, length_seq, length_seqZ in Hs.
  assert (TABLE_SIZE = 2 ^ TABLE_ADDRESS_BITS) as HT by apply Z.shiftl_1_l.
  assert (1 <= MAX_NUMBER_OF_ENTRIES / 8) as H1 by (apply Z.div_le_lower_bound; lia).
  assert (0 < MAX_NUMBER_OF_ENTRIES / 8) as H2 by exact (Z.lt_le_trans 0 1 _ eq_refl H1).
  pose proof (ConstLog2_pow _ H2) as Hp.
  change (ConstLog2 _) with TABLE_ADDRESS_BITS in Hp. rewrite <- HT in Hp.
  pose proof (Z.div_mod MAX_NUMBER_OF_ENTRIES 8 ltac:(lia)).
  pose proof (Z.mod_pos_bound MAX_NUMBER_OF_ENTRIES 8 ltac:(lia)).
  assert (Z.of_nat (size m) <= 9 * TABLE_SIZE) as Hm by (unfold NUM_TABLES in Hs; lia).
  split_and!; [done | lia | lia |]. intros Hd. etransitivity; [exact Hm|].
  rewrite HT. unfold TABLE_ADDRESS_BITS. by rewrite Hd.
Qed.

Lemma cuckoo_capacity_witness :
  let _ : HashConfig := 1000 in
  let t := cuckooTables (snd (ht_run (H := cuckoo_ops 0) [put 7919 1; put 15838 2] ht_init)) in
  exists m, cuckoo_repr t m /\ Z.of_nat (size m) <= 576.
Proof.
  intros c t.
  destruct (ht_run_refines (H := cuckoo_table 0) [put 7919 1; put 15838 2] ht_init
    (snd (ht_run (H := cuckoo_ops 0) [put 7919 1; put 15838 2] ht_init)) ∅
    (fst (ht_run (H := cuckoo_ops 0) [put 7919 1; put 15838 2] ht_init)))
    as (m & _ & [R _]); [exact cuckoo_init | by vm_compute | apply surjective_pairing |].
  exists m. split; [exact R|]. by apply (cuckoo_capacity t m).
Defined.
