(* ===== verification/SessionLookup.v ===== *)
(** The session lookup controller
    ([session_lookup_controller/session_lookup_controller.cpp]): five processes
    that give each connection a session id, keep the table from ids back to
    connections, and talk to the hash table from connections to ids.  The hash
    table is any implementation of the interface [KvTable]; it is wired to the
    controller's streams as in [tcp_stack.sv]. *)
From stdpp Require Import base numbers list gmap fin_maps strings.
From Stdlib Require Import ZArith Lia.
From S2P Require Import Prelude ToeTypes KvTable.

Local Open Scope Z_scope.

(** ** Data ([session_lookup_controller.hpp], [toe_internals.hpp]) *)

Inductive lookupOp : Type := INSERT | DELETE.

#[export] Instance lookupOp_eq_dec : EqDecision lookupOp.
Proof. solve_decision. Defined.

Record threeTupleInternal : Type := mk_three { theirIp : Z; myPort : Z; theirPort : Z }.

#[export] Instance threeTupleInternal_eq_dec : EqDecision threeTupleInternal.
Proof. solve_decision. Defined.

Definition three_lt (a b : threeTupleInternal) : bool :=
  if theirIp a <? theirIp b then true
  else if theirIp a =? theirIp b then
    if myPort a <? myPort b then true
    else if myPort a =? myPort b then theirPort a <? theirPort b else false
  else false.

Record sessionLookupQuery : Type := mk_slQuery { sl_tuple : fourTuple; sl_allowCreation : bool }.
Record sessionLookupReply : Type := mk_slReply { sl_sessionID : Z; sl_hit : bool }.

Record sessionLookupQueryInternal : Type := mk_intQuery {
  iq_tuple : threeTupleInternal; iq_allowCreation : bool; iq_source : lookupSource }.
Record rtlSessionLookupRequest : Type := mk_rtlLookup { rl_key : threeTupleInternal; rl_source : lookupSource }.
Record rtlSessionUpdateRequest : Type := mk_rtlUpdate {
  ru_op : lookupOp; ru_key : threeTupleInternal; ru_value : Z; ru_source : lookupSource }.
Record rtlSessionLookupReply : Type := mk_rtlReply {
  rp_key : threeTupleInternal; rp_sessionID : Z; rp_hit : bool; rp_source : lookupSource }.
Record rtlSessionUpdateReply : Type := mk_rtlUpdated {
  rd_op : lookupOp; rd_key : threeTupleInternal; rd_sessionID : Z; rd_success : bool; rd_source : lookupSource }.
Record revLupInsert : Type := mk_revInsert { rv_key : Z; rv_value : threeTupleInternal }.

(** The tuples as the controller turns them around. *)
Definition three_of_app (t : fourTuple) : threeTupleInternal := mk_three (dstIp t) (srcPort t) (dstPort t).
Definition three_of_rx (t : fourTuple) : threeTupleInternal := mk_three (srcIp t) (dstPort t) (srcPort t).

(** ** State *)

Inductive slcFsmStateType : Type := LUP_REQ | LUP_RSP | UPD_RSP.

Section controller.
Context `{ToeConfig} `{KvOps} (myIpAddress : Z).

(** In order: the static variables, the internal streams, the streams to and
    from the hash table, those from the other modules, those to them (kept
    whole), and the hash table with the replies it has given. *)
Record slc : Type := mk_slc {
  counter : Z;
  slc_fsmState : slcFsmStateType;
  usedSessionIDs : Z;
  regSessionCount : Z;
  reverseLookupTable : gmap Z threeTupleInternal;
  tupleValid : gmap Z bool;
  sessionIdFreeList : list Z;
  sessionIdFinFifo : list Z;
  slc_insertTuples : list threeTupleInternal;
  slc_queryCache : list sessionLookupQueryInternal;
  sessionInsert_rsp : list rtlSessionUpdateReply;
  sessionInsert_req : list rtlSessionUpdateRequest;
  sessionDelete_req : list rtlSessionUpdateRequest;
  reverseLupInsertFifo : list revLupInsert;
  sessionLookup_req : list rtlSessionLookupRequest;
  sessionLookup_rsp : list rtlSessionLookupReply;
  sessionUpdate_req : list rtlSessionUpdateRequest;
  sessionUpdate_rsp : list rtlSessionUpdateReply;
  rxEng2sLookup_req : list sessionLookupQuery;
  txApp2sLookup_req : list fourTuple;
  releaseSession : list Z;
  txEng2sLookup_rev_req : list Z;
  sLookup2rxEng_rsp : list sessionLookupReply;
  sLookup2txApp_rsp : list sessionLookupReply;
  sLookup2portTable_releasePort : list Z;
  sLookup2txEng_rev_rsp : list fourTuple;
  table : kv;
  update_log : list htUpdateResp
}.

Definition slc_init : slc :=
  mk_slc 0 LUP_REQ 0 0 ∅ ∅ [] [] [] [] [] [] [] [] [] [] [] [] [] [] [] [] [] [] [] [] kv_empty [].

(** Depths of the internal streams. *)
Definition free_list_depth : nat := Z.to_nat 16384.
Definition fin_fifo_depth : nat := 2.
Definition tuples_depth : nat := 4.
Definition cache_depth : nat := 8.
Definition update_depth : nat := 4.

Definition tuple_at (t : gmap Z threeTupleInternal) (i : Z) : threeTupleInternal :=
  entry (mk_three 0 0 0) t i.
Definition valid_at (t : gmap Z bool) (i : Z) : bool := entry false t i.

(** ** The processes *)

Definition sessionIdManager (s : slc) : step_result slc :=
  let '(mk_slc cnt fsm used reg rev val free fin tup cache irsp ireq dreq rins lq lr uq ur rxq apq rel rvq
          rxr apr prt rvr tbl log) := s in
  match fin with
  | sessionID :: fin' =>
      if s_full free_list_depth free then Blocked
      else Next (mk_slc cnt fsm used reg rev val (free ++ [sessionID]) fin' tup cache irsp ireq dreq rins
             lq lr uq ur rxq apq rel rvq rxr apr prt rvr tbl log)
  | [] =>
      if cnt <? MAX_SESSIONS then
        if s_full free_list_depth free then Blocked
        else Next (mk_slc (wrap 14 (cnt + 1)) fsm used reg rev val (free ++ [cnt]) fin tup cache irsp ireq
               dreq rins lq lr uq ur rxq apq rel rvq rxr apr prt rvr tbl log)
      else Next s
  end.

(** An answer goes to the module that asked. *)
Definition reply_rx (source : lookupSource) (r : sessionLookupReply) (l : list sessionLookupReply) :=
  if decide (source = RX) then l ++ [r] else l.
Definition reply_app (source : lookupSource) (r : sessionLookupReply) (l : list sessionLookupReply) :=
  if decide (source = RX) then l else l ++ [r].

Definition lookupReplyHandler (s : slc) : step_result slc :=
  let '(mk_slc cnt fsm used reg rev val free fin tup cache irsp ireq dreq rins lq lr uq ur rxq apq rel rvq
          rxr apr prt rvr tbl log) := s in
  match fsm with
  | LUP_REQ =>
      match apq, rxq with
      | toeTuple :: apq', _ =>
          let q := mk_intQuery (three_of_app toeTuple) true TX_APP in
          if s_full cache_depth cache then Blocked
          else Next (mk_slc cnt LUP_RSP used reg rev val free fin tup (cache ++ [q]) irsp ireq dreq rins
                 (lq ++ [mk_rtlLookup (iq_tuple q) (iq_source q)]) lr uq ur rxq apq' rel rvq
                 rxr apr prt rvr tbl log)
      | [], query :: rxq' =>
          let q := mk_intQuery (three_of_rx (sl_tuple query)) (sl_allowCreation query) RX in
          if s_full cache_depth cache then Blocked
          else Next (mk_slc cnt LUP_RSP used reg rev val free fin tup (cache ++ [q]) irsp ireq dreq rins
                 (lq ++ [mk_rtlLookup (iq_tuple q) (iq_source q)]) lr uq ur rxq' apq rel rvq
                 rxr apr prt rvr tbl log)
      | [], [] => Next s
      end
  | LUP_RSP =>
      match lr, cache with
      | lupReply :: lr', intQuery :: cache' =>
          match negb (rp_hit lupReply) && iq_allowCreation intQuery, free with
          | true, freeID :: free' =>
              let u := mk_rtlUpdate INSERT (iq_tuple intQuery) freeID (rp_source lupReply) in
              if s_full update_depth ireq || s_full tuples_depth tup then Blocked
              else Next (mk_slc cnt UPD_RSP used reg rev val free' fin (tup ++ [iq_tuple intQuery]) cache'
                     irsp (ireq ++ [u]) dreq rins lq lr' uq ur rxq apq rel rvq rxr apr prt rvr tbl log)
          | _, _ =>
              let r := mk_slReply (rp_sessionID lupReply) (rp_hit lupReply) in
              Next (mk_slc cnt LUP_REQ used reg rev val free fin tup cache' irsp ireq dreq rins lq lr' uq ur
                rxq apq rel rvq (reply_rx (rp_source lupReply) r rxr) (reply_app (rp_source lupReply) r apr)
                prt rvr tbl log)
          end
      | _, _ => Next s
      end
  | UPD_RSP =>
      match irsp, tup with
      | insertReply :: irsp', tuple :: tup' =>
          let r := mk_slReply (rd_sessionID insertReply) true in
          if s_full update_depth rins then Blocked
          else Next (mk_slc cnt LUP_REQ used reg rev val free fin tup' cache irsp' ireq dreq
                 (rins ++ [mk_revInsert (rd_sessionID insertReply) tuple]) lq lr uq ur rxq apq rel rvq
                 (reply_rx (rd_source insertReply) r rxr) (reply_app (rd_source insertReply) r apr)
                 prt rvr tbl log)
      | _, _ => Next s
      end
  end.

Definition updateRequestSender (s : slc) : step_result slc :=
  let '(mk_slc cnt fsm used reg rev val free fin tup cache irsp ireq dreq rins lq lr uq ur rxq apq rel rvq
          rxr apr prt rvr tbl log) := s in
  match ireq, dreq with
  | request :: ireq', _ =>
      Next (mk_slc cnt fsm (u16 (used + 1)) (u16 (used + 1)) rev val free fin tup cache irsp ireq' dreq rins
        lq lr (uq ++ [request]) ur rxq apq rel rvq rxr apr prt rvr tbl log)
  | [], request :: dreq' =>
      if s_full fin_fifo_depth fin then Blocked
      else Next (mk_slc cnt fsm (u16 (used - 1)) (u16 (used - 1)) rev val free
             (fin ++ [wrap 14 (ru_value request)]) tup cache irsp ireq dreq' rins
             lq lr (uq ++ [request]) ur rxq apq rel rvq rxr apr prt rvr tbl log)
  | [], [] => Next s
  end.

Definition updateReplyHandler (s : slc) : step_result slc :=
  let '(mk_slc cnt fsm used reg rev val free fin tup cache irsp ireq dreq rins lq lr uq ur rxq apq rel rvq
          rxr apr prt rvr tbl log) := s in
  match ur with
  | upReply :: ur' =>
      match rd_op upReply with
      | INSERT =>
          if s_full update_depth irsp then Blocked
          else Next (mk_slc cnt fsm used reg rev val free fin tup cache (irsp ++ [upReply]) ireq dreq rins
                 lq lr uq ur' rxq apq rel rvq rxr apr prt rvr tbl log)
      | DELETE =>
          Next (mk_slc cnt fsm used reg rev val free fin tup cache irsp ireq dreq rins lq lr uq ur'
            rxq apq rel rvq rxr apr prt rvr tbl log)
      end
  | [] => Next s
  end.

Definition reverseLookupTableInterface (s : slc) : step_result slc :=
  let '(mk_slc cnt fsm used reg rev val free fin tup cache irsp ireq dreq rins lq lr uq ur rxq apq rel rvq
          rxr apr prt rvr tbl log) := s in
  match rins, rel, rvq with
  | insert :: rins', _, _ =>
      at_index (rv_key insert)
        (Next (mk_slc cnt fsm used reg (<[rv_key insert := rv_value insert]> rev)
           (<[rv_key insert := true]> val) free fin tup cache irsp ireq dreq rins' lq lr uq ur
           rxq apq rel rvq rxr apr prt rvr tbl log))
  | [], sessionID :: rel', _ =>
      at_index sessionID
        (let releaseTuple := tuple_at rev sessionID in
         if valid_at val sessionID then
           if s_full update_depth dreq then Blocked
           else Next (mk_slc cnt fsm used reg rev (<[sessionID := false]> val) free fin tup cache irsp ireq
                  (dreq ++ [mk_rtlUpdate DELETE releaseTuple sessionID RX]) rins lq lr uq ur
                  rxq apq rel' rvq rxr apr (prt ++ [myPort releaseTuple]) rvr tbl log)
         else Next (mk_slc cnt fsm used reg rev (<[sessionID := false]> val) free fin tup cache irsp ireq dreq
                rins lq lr uq ur rxq apq rel' rvq rxr apr prt rvr tbl log))
  | [], [], sessionID :: rvq' =>
      at_index sessionID
        (let t := tuple_at rev sessionID in
         Next (mk_slc cnt fsm used reg rev val free fin tup cache irsp ireq dreq rins lq lr uq ur
           rxq apq rel rvq' rxr apr prt
           (rvr ++ [mk_fourTuple (u32 myIpAddress) (theirIp t) (myPort t) (theirPort t)]) tbl log))
  | [], [], [] => Next s
  end.

(** ** The wires to the hash table

    Both sides pack their structures into bits without padding, the first
    member lowest ([aggregate compact=bit]); a tuple is then the 64-bit key. *)
Definition pack_tuple (t : threeTupleInternal) : Z :=
  Z.lor (u32 (theirIp t)) (Z.lor (Z.shiftl (u16 (myPort t)) 32) (Z.shiftl (u16 (theirPort t)) 48)).
Definition unpack_tuple (k : Z) : threeTupleInternal := mk_three (bits k 0 32) (bits k 32 16) (bits k 48 16).

Definition wire_op (o : lookupOp) : kvOperation := match o with INSERT => KV_INSERT | DELETE => KV_DELETE end.
Definition unwire_op (o : kvOperation) : lookupOp := match o with KV_INSERT => INSERT | KV_DELETE => DELETE end.
Definition wire_lookup (q : rtlSessionLookupRequest) : htLookupReq :=
  mk_htLookupReq (pack_tuple (rl_key q)) (rl_source q).
Definition wire_update (q : rtlSessionUpdateRequest) : htUpdateReq :=
  mk_htUpdateReq (wire_op (ru_op q)) (pack_tuple (ru_key q)) (ru_value q) (ru_source q).
Definition unwire_lookup (r : htLookupResp) : rtlSessionLookupReply :=
  mk_rtlReply (unpack_tuple (lr_key r)) (lr_value r) (lr_hit r) (lr_source r).
Definition unwire_update (r : htUpdateResp) : rtlSessionUpdateReply :=
  mk_rtlUpdated (unwire_op (ur_op r)) (unpack_tuple (ur_key r)) (ur_value r) (ur_success r) (ur_source r).

Definition table_call (s : slc) : step_result slc :=
  let '(mk_slc cnt fsm used reg rev val free fin tup cache irsp ireq dreq rins lq lr uq ur rxq apq rel rvq
          rxr apr prt rvr tbl log) := s in
  match hash_table (wire_lookup <$> head lq) (wire_update <$> head uq) tbl with
  | (HtIdle, tbl') =>
      Next (mk_slc cnt fsm used reg rev val free fin tup cache irsp ireq dreq rins lq lr uq ur
        rxq apq rel rvq rxr apr prt rvr tbl' log)
  | (HtLookup _ r, tbl') =>
      Next (mk_slc cnt fsm used reg rev val free fin tup cache irsp ireq dreq rins
        (tail lq) (lr ++ [unwire_lookup r]) uq ur rxq apq rel rvq rxr apr prt rvr tbl' log)
  | (HtUpdate _ r, tbl') =>
      Next (mk_slc cnt fsm used reg rev val free fin tup cache irsp ireq dreq rins
        lq lr (tail uq) (ur ++ [unwire_update r]) rxq apq rel rvq rxr apr prt rvr tbl' (log ++ [r]))
  end.

(** ** Runs: the processes, the hash table, and the requests of the other modules *)

Inductive slc_label : Type :=
| PManager | PLookup | PSender | PReplies | PReverse | PTable
| ERx (q : sessionLookupQuery) | EApp (t : fourTuple) | ERelease (id : Z) | EReverse (id : Z).

Definition slc_request (l : slc_label) (s : slc) : slc :=
  let '(mk_slc cnt fsm used reg rev val free fin tup cache irsp ireq dreq rins lq lr uq ur rxq apq rel rvq
          rxr apr prt rvr tbl log) := s in
  let '(rxq', apq', rel', rvq') :=
    match l with
    | ERx q => (rxq ++ [q], apq, rel, rvq)
    | EApp t => (rxq, apq ++ [t], rel, rvq)
    | ERelease id => (rxq, apq, rel ++ [u16 id], rvq)
    | EReverse id => (rxq, apq, rel, rvq ++ [u16 id])
    | _ => (rxq, apq, rel, rvq)
    end in
  mk_slc cnt fsm used reg rev val free fin tup cache irsp ireq dreq rins lq lr uq ur rxq' apq' rel' rvq'
    rxr apr prt rvr tbl log.

Definition slc_step (l : slc_label) (s : slc) : step_result slc :=
  match l with
  | PManager => sessionIdManager s
  | PLookup => lookupReplyHandler s
  | PSender => updateRequestSender s
  | PReplies => updateReplyHandler s
  | PReverse => reverseLookupTableInterface s
  | PTable => table_call s
  | _ => Next (slc_request l s)
  end.
End controller.
