(* ===== verification/SessionLookupFacts.v ===== *)
(** Theorems on the session lookup controller (SessionLookup): session ids are
    conserved, the table from connections to ids and the table from ids to
    connections describe the same sessions, and what becomes of an insertion
    the hash table refuses. *)
From stdpp Require Import base numbers list gmap fin_maps strings.
From Stdlib Require Import ZArith Lia.
From S2P Require Import Prelude ToeTypes KvTable HashTable SessionLookup.

Local Open Scope Z_scope.

(** ** Where a session id is *)

Section whereabouts.
Context `{ToeConfig} `{KvOps}.

Definition inserting (l : list rtlSessionUpdateRequest) : list Z :=
  ru_value <$> filter (fun r => ru_op r = INSERT) l.
Definition inserted (l : list rtlSessionUpdateReply) : list Z :=
  rd_sessionID <$> filter (fun r => rd_op r = INSERT) l.
Definition valid_ids (val : gmap Z bool) : list Z :=
  filter (fun i => valid_at val i = true) (seqZ 0 MAX_SESSIONS).

(** Free, and reserved for an insertion not yet sent; then from the insertion
    to the table until the deletion is sent. *)
Definition ids_free (s : slc) : list Z :=
  sessionIdFreeList s ++ sessionIdFinFifo s ++ (ru_value <$> sessionInsert_req s).
Definition ids_in_use (s : slc) : list Z :=
  inserting (sessionUpdate_req s) ++ inserted (sessionUpdate_rsp s) ++
  (rd_sessionID <$> sessionInsert_rsp s) ++ (rv_key <$> reverseLupInsertFifo s) ++
  valid_ids (tupleValid s) ++ (ru_value <$> sessionDelete_req s).

Record IdInv (s : slc) : Prop := {
  id_all : ids_free s ++ ids_in_use s ≡ₚ seqZ 0 (counter s);
  id_counter : 0 <= counter s <= MAX_SESSIONS;
  id_used : usedSessionIDs s = u16 (Z.of_nat (length (ids_in_use s)));
  id_ins : Forall (fun r => ru_op r = INSERT) (sessionInsert_req s);
  id_del : Forall (fun r => ru_op r = DELETE) (sessionDelete_req s)
}.
End whereabouts.

Arguments inserting l : simpl never.
Arguments inserted l : simpl never.
Arguments valid_ids {_} val : simpl never.
Arguments s_full {A} depth s : simpl never.

Lemma inserting_app (l1 l2 : list rtlSessionUpdateRequest) :
  inserting (l1 ++ l2) = inserting l1 ++ inserting l2.
Proof. unfold inserting. by rewrite filter_app, fmap_app. Qed.
Lemma inserting_cons (r : rtlSessionUpdateRequest) (l : list rtlSessionUpdateRequest) :
  inserting (r :: l) = (if decide (ru_op r = INSERT) then [ru_value r] else []) ++ inserting l.
Proof. unfold inserting. rewrite filter_cons. by destruct (decide (ru_op r = INSERT)). Qed.
Lemma inserted_app (l1 l2 : list rtlSessionUpdateReply) :
  inserted (l1 ++ l2) = inserted l1 ++ inserted l2.
Proof. unfold inserted. by rewrite filter_app, fmap_app. Qed.
Lemma inserted_cons (r : rtlSessionUpdateReply) (l : list rtlSessionUpdateReply) :
  inserted (r :: l) = (if decide (rd_op r = INSERT) then [rd_sessionID r] else []) ++ inserted l.
Proof. unfold inserted. rewrite filter_cons. by destruct (decide (rd_op r = INSERT)). Qed.
Lemma inserting_nil : inserting [] = [].
Proof. done. Qed.
Lemma inserted_nil : inserted [] = [].
Proof. done. Qed.

Create Rewrite HintDb ids.
#[export] Hint Rewrite inserting_app inserting_cons inserting_nil inserted_app inserted_cons inserted_nil
  @fmap_app @app_nil_r @length_app @length_fmap : ids.

Section id_table.
Context `{ToeConfig}.

Lemma valid_ids_spec (val : gmap Z bool) (i : Z) :
  i ∈ valid_ids val <-> in_table i = true /\ valid_at val i = true.
Proof.
  unfold valid_ids, in_table. rewrite list_elem_of_filter, elem_of_seqZ.
  rewrite andb_true_iff, Z.leb_le, Z.ltb_lt. rewrite Z.add_0_l. tauto.
Qed.

Lemma NoDup_valid_ids (val : gmap Z bool) : NoDup (valid_ids val).
Proof. apply NoDup_filter, NoDup_seqZ. Qed.

Lemma valid_at_insert (val : gmap Z bool) (i j : Z) (b : bool) :
  valid_at (<[i := b]> val) j = if decide (i = j) then b else valid_at val j.
Proof. apply entry_insert. Qed.

Lemma valid_ids_set (val : gmap Z bool) (i : Z) :
  in_table i = true -> i ∉ valid_ids val -> valid_ids (<[i := true]> val) ≡ₚ i :: valid_ids val.
Proof.
  intros Hi Hn. apply NoDup_Permutation; [apply NoDup_valid_ids | by constructor; [|apply NoDup_valid_ids] |].
  intros j. rewrite elem_of_cons, !valid_ids_spec, valid_at_insert.
  destruct (decide (i = j)) as [->|]; intuition congruence.
Qed.

Lemma valid_ids_clear (val : gmap Z bool) (i : Z) :
  in_table i = true -> valid_at val i = true -> valid_ids val ≡ₚ i :: valid_ids (<[i := false]> val).
Proof.
  intros Hi Hv. apply NoDup_Permutation; [apply NoDup_valid_ids | |].
  - constructor; [|apply NoDup_valid_ids]. rewrite valid_ids_spec, valid_at_insert.
    rewrite decide_True by done. by intros [].
  - intros j. rewrite elem_of_cons, !valid_ids_spec, valid_at_insert.
    destruct (decide (i = j)) as [->|]; intuition congruence.
Qed.

Lemma valid_ids_same (val : gmap Z bool) (i : Z) :
  valid_at val i = false -> valid_ids (<[i := false]> val) = valid_ids val.
Proof.
  intros Hv. apply list_filter_iff. intros j. rewrite valid_at_insert.
  destruct (decide (i = j)) as [->|]; [by rewrite Hv | done].
Qed.
End id_table.

(** ** Session ids are conserved *)

Section conserved.
Context `{ToeConfig} `{KvTable} (myIpAddress : Z).
Hypothesis sessions_fit : 0 < MAX_SESSIONS < 2 ^ 14.

Ltac ids_tac :=
  unfold ids_free, ids_in_use in *; cbn in *; repeat (progress autorewrite with ids in *; cbn in *).

Lemma id_range (s : slc) (i : Z) :
  IdInv s -> i ∈ ids_free s ++ ids_in_use s -> 0 <= i < MAX_SESSIONS.
Proof.
  intros [Hp Hc _ _ _] Hi. rewrite Hp in Hi. apply elem_of_seqZ in Hi. lia.
Qed.

Lemma manager_ids (s s' : slc) : IdInv s -> sessionIdManager s = Next s' -> IdInv s'.
Proof.
  intros [Hp Hc Hu Hi Hd] Hs. destruct s. cbn in Hs, Hc.
  destruct sessionIdFinFifo as [|id fin]; [destruct (counter <? MAX_SESSIONS) eqn:Hlt|];
    [destruct (s_full _ _) | | destruct (s_full _ _)]; simplify_eq; [| by split |].
  - apply Z.ltb_lt in Hlt. rewrite wrap_small in * by (unfold fits; lia).
    split; cbn; [| lia | done | done | done].
    ids_tac. replace (counter + 1) with (Z.of_nat (S (Z.to_nat counter))) by lia.
    rewrite seqZ_S, Z.add_0_l, Z2Nat.id, <- Hp by lia. solve_Permutation.
  - split; try done. ids_tac. rewrite <- Hp. solve_Permutation.
Qed.

Lemma lookup_ids (s s' : slc) : IdInv s -> lookupReplyHandler s = Next s' -> IdInv s'.
Proof.
  intros [Hp Hc Hu Hi Hd] Hs. destruct s. cbn in Hs, Hc, Hi, Hd.
  destruct slc_fsmState.
  - destruct txApp2sLookup_req, rxEng2sLookup_req; try destruct (s_full _ _); simplify_eq; by split.
  - destruct sessionLookup_rsp, slc_queryCache; simplify_eq; try by split.
    destruct (_ && _), sessionIdFreeList as [|id free]; try destruct (_ || _); simplify_eq; try by split.
    split; try done; [|by apply Forall_app_2; [|repeat constructor]].
    ids_tac. rewrite <- Hp. solve_Permutation.
  - destruct sessionInsert_rsp, slc_insertTuples; try destruct (s_full _ _); simplify_eq; try by split.
    split; try done; ids_tac.
    + rewrite <- Hp. solve_Permutation.
    + rewrite Hu. f_equal. lia.
Qed.

Lemma sender_ids (s s' : slc) : IdInv s -> updateRequestSender s = Next s' -> IdInv s'.
Proof.
  intros I Hs. pose proof I as [Hp Hc Hu Hi Hd]. destruct s. cbn in Hs, Hc, Hu, Hi, Hd.
  destruct sessionInsert_req as [|r ireq]; [destruct sessionDelete_req as [|r dreq]; [|destruct (s_full _ _)]|];
    simplify_eq; [by split | |].
  - apply Forall_cons in Hd as [Hr Hd].
    assert (wrap 14 (ru_value r) = ru_value r) as Hw.
    { apply wrap_small. pose proof (id_range _ (ru_value r) I) as Hv. ids_tac. unfold fits.
      rewrite !elem_of_app, elem_of_cons in Hv. 
      assert (0 <= ru_value r < MAX_SESSIONS) by tauto. lia. }
    split; try done; ids_tac; rewrite Hr, decide_False in * by done; cbn in *.
    + rewrite <- Hp, Hw. solve_Permutation.
    + rewrite Hu, wrap_sub_l. f_equal. lia.
  - apply Forall_cons in Hi as [Hr Hi].
    split; try done; ids_tac; rewrite Hr, decide_True in * by done; cbn in *.
    + rewrite <- Hp. solve_Permutation.
    + rewrite Hu, wrap_add_l. f_equal. lia.
Qed.

Lemma replies_ids (s s' : slc) : IdInv s -> updateReplyHandler s = Next s' -> IdInv s'.
Proof.
  intros [Hp Hc Hu Hi Hd] Hs. destruct s. cbn in Hs, Hc, Hu, Hi, Hd.
  destruct sessionUpdate_rsp as [|r ur]; [by simplify_eq; split|].
  destruct (rd_op r) eqn:Hr; [destruct (s_full _ _)|]; simplify_eq; (split; try done; ids_tac);
    rewrite ?Hr, ?decide_True, ?decide_False in * by done; ids_tac.
  - rewrite <- Hp. solve_Permutation.
  - rewrite Hu. f_equal. lia.
  - done.
  - done.
Qed.

(** An id on its way into the reverse table is not in it yet. *)
Lemma insert_not_valid (s : slc) (id : Z) (t : threeTupleInternal) (rins : list revLupInsert) :
  IdInv s -> reverseLupInsertFifo s = mk_revInsert id t :: rins -> id ∉ valid_ids (tupleValid s).
Proof.
  intros [Hp _ _ _ _] Hr Hin. pose proof (NoDup_seqZ 0 (counter s)) as Hnd. rewrite <- Hp in Hnd.
  ids_tac. rewrite Hr in Hnd. cbn in Hnd. rewrite (assoc_L (++)), <- !(assoc_L (++)) in Hnd.
  repeat (apply NoDup_app in Hnd as (_ & _ & Hnd)). apply NoDup_cons in Hnd as [Hnd _].
  apply Hnd. rewrite !elem_of_app. tauto.
Qed.

Lemma reverse_ids (s s' : slc) : IdInv s -> reverseLookupTableInterface myIpAddress s = Next s' -> IdInv s'.
Proof.
  intros I Hs. pose proof I as [Hp Hc Hu Hi Hd]. destruct s. cbn in Hs, Hc, Hu, Hi, Hd.
  destruct reverseLupInsertFifo as [|[id t] rins];
    [destruct releaseSession as [|id rel]; [destruct txEng2sLookup_rev_req as [|id rvq]|]|];
    [by simplify_eq; split | | |]; apply at_index_next in Hs as [Hid Hs].
  - simplify_eq. by split.
  - destruct (valid_at tupleValid id) eqn:Hv; [destruct (s_full _ _)|]; simplify_eq.
    + pose proof (valid_ids_clear _ _ Hid Hv) as Hval.
      split; try done; ids_tac.
      * rewrite <- Hp, Hval. solve_Permutation.
      * rewrite Hu. f_equal. rewrite Hval. cbn. lia.
      * apply Forall_app_2; [done | repeat constructor].
    + pose proof (valid_ids_same _ _ Hv) as Hval. split; try done; ids_tac; by rewrite Hval.
  - simplify_eq.
    pose proof (insert_not_valid _ _ _ _ I eq_refl) as Hn. cbn in Hn.
    pose proof (valid_ids_set _ _ Hid Hn) as Hval.
    split; try done; ids_tac.
    + rewrite <- Hp, Hval. solve_Permutation.
    + rewrite Hu. f_equal. rewrite Hval. cbn. lia.
Qed.

Lemma op_wired (o : lookupOp) : unwire_op (wire_op o) = o.
Proof. by destruct o. Qed.

Lemma table_ids (s s' : slc) : IdInv s -> table_call s = Next s' -> IdInv s'.
Proof.
  intros [Hp Hc Hu Hi Hd] Hs. destruct s. cbn in Hs, Hc, Hu, Hi, Hd.
  destruct sessionLookup_req as [|q lq]; cbn in Hs; [|by simplify_eq; split].
  destruct sessionUpdate_req as [|q uq]; cbn in Hs; [by simplify_eq; split|].
  pose proof (update_echo table (wire_update q)) as He.
  destruct (update_table table (wire_update q)) as [r t']. cbn in He. simplify_eq.
  assert (inserted [unwire_update r] = inserting [q]) as Hr.
  { rewrite inserted_cons, inserting_cons, He. cbn. by rewrite op_wired. }
  split; try done; unfold ids_free, ids_in_use in *; cbn in *;
    rewrite inserted_app, Hr; change (q :: uq) with ([q] ++ uq) in *; rewrite inserting_app in *.
  - rewrite <- Hp. solve_Permutation.
  - rewrite Hu, !length_app. f_equal. lia.
Qed.

Lemma IdInv_step (l : slc_label) (s s' : slc) : IdInv s -> slc_step myIpAddress l s = Next s' -> IdInv s'.
Proof.
  intros I Hs. destruct l; cbn [slc_step] in Hs.
  - by eapply manager_ids.
  - by eapply lookup_ids.
  - by eapply sender_ids.
  - by eapply replies_ids.
  - by eapply reverse_ids.
  - by eapply table_ids.
  - destruct s, I. cbn in Hs. simplify_eq. by split.
  - destruct s, I. cbn in Hs. simplify_eq. by split.
  - destruct s, I. cbn in Hs. simplify_eq. by split.
  - destruct s, I. cbn in Hs. simplify_eq. by split.
Qed.

Lemma valid_ids_empty : valid_ids ∅ = [].
Proof.
  destruct (valid_ids ∅) as [|i l] eqn:E; [done|].
  assert (i ∈ valid_ids ∅) as Hi by (rewrite E; left). by apply valid_ids_spec in Hi as [_ Hi].
Qed.

Lemma IdInv_init : IdInv slc_init.
Proof.
  split; try done; [|cbn; lia|]; unfold ids_free, ids_in_use; cbn; by rewrite valid_ids_empty.
Qed.

Lemma run_ids (ls : list slc_label) (s : slc) :
  steps (slc_step myIpAddress) ls slc_init = Next s -> IdInv s.
Proof.
  intros Hrun. refine (steps_invariant _ (fun _ => True) IdInv _ ls _ s _ IdInv_init Hrun).
  - intros l s1 s2 _. apply IdInv_step.
  - by apply Forall_true.
Qed.

Lemma ids_in_use_bound (s : slc) : IdInv s -> Z.of_nat (length (ids_in_use s)) <= MAX_SESSIONS.
Proof.
  intros [Hp Hc _ _ _]. apply Permutation_length in Hp. rewrite length_app, length_seqZ in Hp. lia.
Qed.

(** C36: Session ids are neither lost nor duplicated.  Under any interleaving of the five processes,
    the hash table and the other modules, whatever the hash table answers, each id handed out so far
    is in exactly one place: free, or on its way into the table, in the table of sessions, or on its
    way out; no two connections share an id, and [usedSessionIDs] counts the ids in use. *)
Theorem session_ids_conserved (ls : list slc_label) (s : slc) :
  steps (slc_step myIpAddress) ls slc_init = Next s ->
  (ids_free s ++ ids_in_use s ≡ₚ seqZ 0 (counter s)) /\ counter s <= MAX_SESSIONS /\
  usedSessionIDs s = Z.of_nat (length (ids_in_use s)).
Proof.
  intros Hrun. pose proof (run_ids ls s Hrun) as I. pose proof (ids_in_use_bound s I).
  destruct I as [Hp Hc Hu _ _]. split_and!; [done | lia |].
  rewrite Hu. apply wrap_small. unfold fits. lia.
Qed.


(** ** The two tables describe the same sessions *)

Definition pair_of_update (r : rtlSessionUpdateRequest) : Z * Z := (pack_tuple (ru_key r), ru_value r).
Definition pair_of_insert (r : revLupInsert) : Z * Z := (pack_tuple (rv_value r), rv_key r).
Definition pair_at (rev : gmap Z threeTupleInternal) (id : Z) : Z * Z := (pack_tuple (tuple_at rev id), id).

Definition deleting (l : list rtlSessionUpdateRequest) : list (Z * Z) :=
  pair_of_update <$> filter (fun r => ru_op r = DELETE) l.

(** The sessions that the hash table should hold, with [infl] the one whose
    insertion it has made but the controller has not registered yet. *)
Definition live (s : slc) (infl : list (Z * Z)) : list (Z * Z) :=
  (pair_at (reverseLookupTable s) <$> valid_ids (tupleValid s)) ++
  (pair_of_insert <$> reverseLupInsertFifo s) ++ infl ++
  (pair_of_update <$> sessionDelete_req s) ++ deleting (sessionUpdate_req s).

(** Insertions before and after the hash table. *)
Definition insertions (l : list rtlSessionUpdateRequest) : list rtlSessionUpdateRequest :=
  filter (fun r => ru_op r = INSERT) l.
Definition insert_replies (l : list rtlSessionUpdateReply) : list rtlSessionUpdateReply :=
  filter (fun r => rd_op r = INSERT) l.
Definition ins_sent (s : slc) : list rtlSessionUpdateRequest :=
  sessionInsert_req s ++ insertions (sessionUpdate_req s).
Definition ins_made (s : slc) : list rtlSessionUpdateReply :=
  insert_replies (sessionUpdate_rsp s) ++ sessionInsert_rsp s.

#[local] Arguments deleting l : simpl never.
#[local] Arguments insertions l : simpl never.
#[local] Arguments insert_replies l : simpl never.

Lemma deleting_app (l1 l2 : list rtlSessionUpdateRequest) : deleting (l1 ++ l2) = deleting l1 ++ deleting l2.
Proof. unfold deleting. by rewrite filter_app, fmap_app. Qed.
Lemma deleting_cons (r : rtlSessionUpdateRequest) (l : list rtlSessionUpdateRequest) :
  deleting (r :: l) = (if decide (ru_op r = DELETE) then [pair_of_update r] else []) ++ deleting l.
Proof. unfold deleting. rewrite filter_cons. by destruct (decide (ru_op r = DELETE)). Qed.
Lemma insertions_app (l1 l2 : list rtlSessionUpdateRequest) :
  insertions (l1 ++ l2) = insertions l1 ++ insertions l2.
Proof. apply filter_app. Qed.
Lemma insertions_cons (r : rtlSessionUpdateRequest) (l : list rtlSessionUpdateRequest) :
  insertions (r :: l) = (if decide (ru_op r = INSERT) then [r] else []) ++ insertions l.
Proof. unfold insertions. rewrite filter_cons. by destruct (decide (ru_op r = INSERT)). Qed.
Lemma insert_replies_app (l1 l2 : list rtlSessionUpdateReply) :
  insert_replies (l1 ++ l2) = insert_replies l1 ++ insert_replies l2.
Proof. apply filter_app. Qed.
Lemma insert_replies_cons (r : rtlSessionUpdateReply) (l : list rtlSessionUpdateReply) :
  insert_replies (r :: l) = (if decide (rd_op r = INSERT) then [r] else []) ++ insert_replies l.
Proof. unfold insert_replies. rewrite filter_cons. by destruct (decide (rd_op r = INSERT)). Qed.
Lemma empty_streams :
  deleting [] = [] /\ insertions [] = [] /\ insert_replies [] = [].
Proof. done. Qed.

Ltac ops_tac :=
  unfold ins_sent, ins_made, live in *; cbn in *;
  rewrite ?deleting_app, ?deleting_cons, ?insertions_app, ?insertions_cons, ?insert_replies_app,
    ?insert_replies_cons, ?app_nil_r in *;
  repeat match goal with
  | E : _ = INSERT |- _ => rewrite E in *
  | E : _ = DELETE |- _ => rewrite E in *
  end; rewrite ?decide_True, ?decide_False in * by done; cbn in *;
  rewrite ?(proj1 empty_streams), ?(proj1 (proj2 empty_streams)), ?(proj2 (proj2 empty_streams)), ?app_nil_r in *;
  cbn in *.

(** The lookup or insertion under way, of which there is one at most. *)
Inductive Flight (s : slc) (m : gmap Z Z) : list (Z * Z) -> Prop :=
| FIdle (Hfsm : slc_fsmState s = LUP_REQ) (Hcache : slc_queryCache s = [])
    (Hlq : sessionLookup_req s = []) (Hlr : sessionLookup_rsp s = []) (Htup : slc_insertTuples s = [])
    (Hsent : ins_sent s = []) (Hmade : ins_made s = []) : Flight s m []
| FLookup q (Hfsm : slc_fsmState s = LUP_RSP) (Hcache : slc_queryCache s = [q])
    (Hlq : sessionLookup_req s = [mk_rtlLookup (iq_tuple q) (iq_source q)])
    (Hlr : sessionLookup_rsp s = []) (Htup : slc_insertTuples s = [])
    (Hsent : ins_sent s = []) (Hmade : ins_made s = []) : Flight s m []
| FAnswered q r (Hfsm : slc_fsmState s = LUP_RSP) (Hcache : slc_queryCache s = [q])
    (Hlq : sessionLookup_req s = []) (Hlr : sessionLookup_rsp s = [r])
    (Hmiss : rp_hit r = false -> m !! pack_tuple (iq_tuple q) = None) (Htup : slc_insertTuples s = [])
    (Hsent : ins_sent s = []) (Hmade : ins_made s = []) : Flight s m []
| FInsert r (Hfsm : slc_fsmState s = UPD_RSP) (Hcache : slc_queryCache s = [])
    (Hlq : sessionLookup_req s = []) (Hlr : sessionLookup_rsp s = [])
    (Htup : slc_insertTuples s = [ru_key r]) (Hsent : ins_sent s = [r]) (Hmade : ins_made s = [])
    (Hfresh : m !! pack_tuple (ru_key r) = None) : Flight s m []
| FInserted t r (Hfsm : slc_fsmState s = UPD_RSP) (Hcache : slc_queryCache s = [])
    (Hlq : sessionLookup_req s = []) (Hlr : sessionLookup_rsp s = []) (Htup : slc_insertTuples s = [t])
    (Hsent : ins_sent s = []) (Hmade : ins_made s = [r]) : Flight s m [(pack_tuple t, rd_sessionID r)].

Definition Agree (s : slc) : Prop :=
  exists m infl, kv_repr (table s) m /\ (live s infl ≡ₚ map_to_list m) /\ Flight s m infl.

(** No insertion has failed. *)
Definition stored (r : htUpdateResp) : Prop := ur_op r = KV_INSERT -> ur_success r = true.
#[export] Instance stored_dec (r : htUpdateResp) : Decision (stored r).
Proof. unfold stored. apply _. Defined.

Ltac open_flight HF :=
  destruct HF as [| fq | fq fr | fr | ft fr]; cbn in *; unfold ins_sent, ins_made in *; cbn in *;
  simplify_eq.

Lemma flight_frame (s s' : slc) (m m' : gmap Z Z) (infl : list (Z * Z)) :
  slc_fsmState s' = slc_fsmState s -> slc_queryCache s' = slc_queryCache s ->
  sessionLookup_req s' = sessionLookup_req s -> sessionLookup_rsp s' = sessionLookup_rsp s ->
  slc_insertTuples s' = slc_insertTuples s -> ins_sent s' = ins_sent s -> ins_made s' = ins_made s ->
  (forall k, m !! k = None -> m' !! k = None) -> Flight s m infl -> Flight s' m' infl.
Proof.
  intros E1 E2 E3 E4 E5 E6 E7 Hm HF.
  destruct HF as [|q|q r|r|t r];
    [apply FIdle | apply (FLookup _ _ q) | apply (FAnswered _ _ q r) | apply (FInsert _ _ r) | apply FInserted];
    first [congruence | by auto].
Qed.

Lemma agree_frame (s s' : slc) :
  slc_fsmState s' = slc_fsmState s -> slc_queryCache s' = slc_queryCache s ->
  sessionLookup_req s' = sessionLookup_req s -> sessionLookup_rsp s' = sessionLookup_rsp s ->
  slc_insertTuples s' = slc_insertTuples s -> ins_sent s' = ins_sent s -> ins_made s' = ins_made s ->
  table s' = table s -> (forall infl, live s' infl ≡ₚ live s infl) -> Agree s -> Agree s'.
Proof.
  intros E1 E2 E3 E4 E5 E6 E7 Et El (m & infl & Hm & Hl & HF). exists m, infl.
  split; [by rewrite Et|]. split; [by rewrite El|]. by eapply flight_frame.
Qed.

Lemma manager_agree (s s' : slc) : Agree s -> sessionIdManager s = Next s' -> Agree s'.
Proof.
  intros HA Hs. destruct s. cbn in Hs.
  destruct sessionIdFinFifo; [destruct (counter <? MAX_SESSIONS)|]; try destruct (s_full _ _);
    simplify_eq; by refine (agree_frame _ _ _ _ _ _ _ _ _ _ _ HA).
Qed.

Lemma lookup_agree (s s' : slc) : Agree s -> lookupReplyHandler s = Next s' -> Agree s'.
Proof.
  intros (m & infl & Hm & Hl & HF) Hs. destruct s. cbn in Hs.
  destruct slc_fsmState.
  - open_flight HF. exists m, [].
    destruct txApp2sLookup_req, rxEng2sLookup_req; try destruct (s_full _ _); simplify_eq;
      (split; [exact Hm | split; [exact Hl|]]); [by apply FIdle | by eapply FLookup ..].
  - destruct sessionLookup_rsp as [|r lr], slc_queryCache as [|q cache]; simplify_eq;
      try (exists m, infl; exact (conj Hm (conj Hl HF))).
    open_flight HF. exists m, [].
    destruct (_ && _) eqn:Hno, sessionIdFreeList as [|id free]; try destruct (_ || _); simplify_eq;
      (split; [exact Hm | split; [exact Hl|]]); try by apply FIdle.
    apply andb_true_iff in Hno as [Hno%negb_true_iff _]. apply app_nil in Hsent as [-> Hf].
    apply (FInsert _ _ (mk_rtlUpdate INSERT (iq_tuple fq) id (rp_source fr))); try done; cbn; auto.
    unfold ins_sent. cbn. by rewrite Hf.
  - destruct sessionInsert_rsp as [|r irsp], slc_insertTuples as [|t tup]; try destruct (s_full _ _);
      simplify_eq; try (exists m, infl; exact (conj Hm (conj Hl HF))).
    open_flight HF; [by apply app_nil in Hmade as [_ ?]|].
    apply app_singleton in Hmade as [[Hf [= <- ->]]|[_ ?]]; [|done].
    exists m, []. split; [exact Hm|]. split; [|apply FIdle; try done; unfold ins_made; cbn; by rewrite Hf].
    rewrite <- Hl. unfold live. cbn. rewrite fmap_app. cbn. solve_Permutation.
Qed.

Lemma sender_agree (s s' : slc) : IdInv s -> Agree s -> updateRequestSender s = Next s' -> Agree s'.
Proof.
  intros [_ _ _ Hi Hd] HA Hs. destruct s. cbn in Hs, Hi, Hd.
  destruct sessionInsert_req as [|r ireq]; [destruct sessionDelete_req as [|r dreq]; [|destruct (s_full _ _)]|];
    simplify_eq; [done | |].
  - apply Forall_cons in Hd as [Hr _]. refine (agree_frame _ _ _ _ _ _ _ _ _ _ _ HA); try done; ops_tac.
    + done.
    + intros infl. solve_Permutation.
  - apply Forall_cons in Hi as [Hr _].
    refine (agree_frame _ _ _ _ _ _ _ _ _ _ _ HA); try done; [|intros infl; by ops_tac].
    destruct HA as (m & infl & _ & _ & HF). open_flight HF; ops_tac;
      match goal with E : _ ++ _ = [] |- _ => by rewrite app_assoc, E end.
Qed.

Lemma replies_agree (s s' : slc) : Agree s -> updateReplyHandler s = Next s' -> Agree s'.
Proof.
  intros HA Hs. destruct s. cbn in Hs.
  destruct sessionUpdate_rsp as [|r ur]; [by simplify_eq|].
  destruct (rd_op r) eqn:Hr; [destruct (s_full _ _)|]; simplify_eq;
    refine (agree_frame _ _ _ _ _ _ _ _ _ _ _ HA); try done; [|by ops_tac].
  destruct HA as (m & infl & _ & _ & HF). open_flight HF; ops_tac; simplify_eq.
  match goal with E : _ ++ _ = [] |- _ => by rewrite app_assoc, E end.
Qed.

Lemma pair_at_set (rev : gmap Z threeTupleInternal) (val : gmap Z bool) (id : Z) (t : threeTupleInternal) :
  id ∉ valid_ids val -> pair_at (<[id := t]> rev) <$> valid_ids val = pair_at rev <$> valid_ids val.
Proof.
  intros Hn. apply list_fmap_ext. intros k j Hj. apply list_elem_of_lookup_2 in Hj.
  unfold pair_at, tuple_at. rewrite entry_insert, decide_False; [done|]. congruence.
Qed.

Lemma reverse_agree (s s' : slc) :
  IdInv s -> Agree s -> reverseLookupTableInterface myIpAddress s = Next s' -> Agree s'.
Proof.
  intros I HA Hs. destruct s. cbn in Hs.
  destruct reverseLupInsertFifo as [|[id t] rins];
    [destruct releaseSession as [|id rel]; [destruct txEng2sLookup_rev_req as [|id rvq]|]|];
    [by simplify_eq | | |]; apply at_index_next in Hs as [Hid Hs].
  - simplify_eq. by refine (agree_frame _ _ _ _ _ _ _ _ _ _ _ HA).
  - destruct (valid_at tupleValid id) eqn:Hv; [destruct (s_full _ _)|]; simplify_eq;
      refine (agree_frame _ _ _ _ _ _ _ _ _ _ _ HA); try done; intros infl; unfold live; cbn.
    + rewrite (valid_ids_clear _ _ Hid Hv), fmap_app. cbn. solve_Permutation.
    + by rewrite valid_ids_same.
  - simplify_eq. refine (agree_frame _ _ _ _ _ _ _ _ _ _ _ HA); try done. intros infl. unfold live; cbn.
    pose proof (insert_not_valid _ _ _ _ I eq_refl) as Hn. cbn in Hn.
    rewrite (valid_ids_set _ _ Hid Hn). cbn. rewrite pair_at_set by done.
    unfold pair_at at 1, tuple_at. rewrite entry_insert, decide_True by done. solve_Permutation.
Qed.

Lemma table_agree (s s' : slc) :
  Agree s -> table_call s = Next s' -> Forall stored (update_log s') -> Agree s'.
Proof.
  intros HA Hs Hlog. pose proof HA as (m & infl & Hm & Hl & HF). destruct s. cbn in Hs, Hm.
  destruct sessionLookup_req as [|q lq]; cbn in Hs.
  - destruct sessionUpdate_req as [|q uq]; cbn in Hs; [by simplify_eq|].
    pose proof (update_echo table (wire_update q)) as He.
    destruct (update_table table (wire_update q)) as [r t'] eqn:Ht. cbn in He. simplify_eq.
    apply Forall_app in Hlog as [_ Hok]. apply Forall_cons in Hok as [Hok _].
    unfold update_table in Ht. destruct (ru_op q) eqn:Hq; cbn in Ht; rewrite Hq in Ht; cbn in Ht.
    + open_flight HF; ops_tac; try by apply app_nil in Hsent as [_ ?].
      apply app_singleton in Hsent as [[-> [= <- Hu]]|[_ ?]]; [|done].
      apply app_nil in Hmade as [Hi ->].
      pose proof (kv_insert_repr _ _ (wire_update q) _ _ Hm Hfresh Ht) as Hins.
      assert (ur_op r = KV_INSERT) as Hop by (rewrite He; cbn; by rewrite Hq).
      rewrite (Hok Hop) in Hins. eexists _, [(pack_tuple (ru_key q), ur_value r)]. split; [exact Hins|].
      split; [|apply (FInserted _ _ (ru_key q) (unwire_update r)); try done; ops_tac].
      * rewrite map_to_list_insert, <- Hl by done. ops_tac. rewrite He. cbn. solve_Permutation.
      * rewrite Hi. cbn. rewrite Hop. cbn. by rewrite decide_True.
    + pose proof (kv_remove_repr _ _ (wire_update q) _ _ Hm Ht) as [Hrem _].
      assert (ur_op r = KV_DELETE) as Hop by (rewrite He; cbn; by rewrite Hq).
      exists (delete (pack_tuple (ru_key q)) m), infl. split; [exact Hrem|].
      split.
      * assert (m !! pack_tuple (ru_key q) = Some (ru_value q)) as Hin.
        { apply elem_of_map_to_list. rewrite <- Hl. ops_tac. unfold pair_of_update at 2.
          rewrite !elem_of_app, elem_of_cons. tauto. }
        rewrite <- (map_to_list_delete _ _ _ Hin) in Hl.
        apply (Permutation_cons_inv (a := (pack_tuple (ru_key q), ru_value q))). rewrite <- Hl.
        ops_tac. unfold pair_of_update at 3. solve_Permutation.
      * apply (flight_frame _ _ _ _ _) with (9 := HF); try done; ops_tac; [done| |].
        -- by rewrite Hop; cbn; rewrite decide_False, app_nil_r.
        -- intros k Hk. by rewrite lookup_delete_None; right.
  - simplify_eq. open_flight HF. exists m, []. split; [exact Hm|]. split; [exact Hl|].
    pose proof (kv_lookup_repr _ _ (wire_lookup (mk_rtlLookup (iq_tuple fq) (iq_source fq))) Hm) as (_ & _ & Hr).
    apply (FAnswered _ _ fq (unwire_lookup (kv_lookup table (wire_lookup (mk_rtlLookup (iq_tuple fq) (iq_source fq))))));
      try done. cbn in *. intros Hh. by rewrite Hh in Hr.
Qed.

Lemma log_grows (l : slc_label) (s s' : slc) :
  slc_step myIpAddress l s = Next s' -> exists k, update_log s' = update_log s ++ k.
Proof.
  intros Hs. destruct s. destruct l; cbn in Hs;
    repeat (match type of Hs with context [match ?x with _ => _ end] => destruct x end; cbn in Hs);
    try (apply at_index_next in Hs as [_ Hs]);
    repeat (match type of Hs with context [match ?x with _ => _ end] => destruct x end; cbn in Hs);
    simplify_eq; cbn; solve [by exists []; rewrite app_nil_r | by eexists].
Qed.

Definition AgreeInv (s : slc) : Prop := IdInv s /\ (Forall stored (update_log s) -> Agree s).

Lemma AgreeInv_step (l : slc_label) (s s' : slc) :
  AgreeInv s -> slc_step myIpAddress l s = Next s' -> AgreeInv s'.
Proof.
  intros [I HA] Hs. split; [by eapply IdInv_step|]. intros Hlog.
  destruct (log_grows _ _ _ Hs) as [k Hk].
  pose proof Hlog as Hlog'. rewrite Hk in Hlog'. apply Forall_app in Hlog' as [Hlog' _].
  specialize (HA Hlog'). destruct l; cbn [slc_step] in Hs.
  - by eapply manager_agree.
  - by eapply lookup_agree.
  - by eapply sender_agree.
  - by eapply replies_agree.
  - by eapply reverse_agree.
  - by eapply table_agree.
  - destruct s. cbn in Hs. simplify_eq. by refine (agree_frame _ _ _ _ _ _ _ _ _ _ _ HA).
  - destruct s. cbn in Hs. simplify_eq. by refine (agree_frame _ _ _ _ _ _ _ _ _ _ _ HA).
  - destruct s. cbn in Hs. simplify_eq. by refine (agree_frame _ _ _ _ _ _ _ _ _ _ _ HA).
  - destruct s. cbn in Hs. simplify_eq. by refine (agree_frame _ _ _ _ _ _ _ _ _ _ _ HA).
Qed.

Lemma Agree_init : Agree slc_init.
Proof.
  exists ∅, []. split; [apply kv_repr_empty|]. split; [|by apply FIdle].
  unfold live. cbn. by rewrite valid_ids_empty, map_to_list_empty.
Qed.

Lemma run_agree (ls : list slc_label) (s : slc) :
  steps (slc_step myIpAddress) ls slc_init = Next s -> Forall stored (update_log s) -> Agree s.
Proof.
  intros Hrun. refine (proj2 (steps_invariant _ (fun _ => True) AgreeInv _ ls _ s _ _ Hrun)).
  - intros l s1 s2 _. apply AgreeInv_step.
  - by apply Forall_true.
  - split; [apply IdInv_init | intros _; apply Agree_init].
Qed.

(** No update is under way. *)
Definition settled (s : slc) : Prop :=
  sessionUpdate_req s = [] /\ sessionUpdate_rsp s = [] /\ sessionInsert_rsp s = [] /\
  sessionDelete_req s = [] /\ reverseLupInsertFifo s = [].

(** C4: The table from connections to session ids and the table from ids back to connections
    describe the same sessions.  Whatever interleaving of the processes, the hash table and the other
    modules led there, if no insertion has failed and no update is under way, looking a connection up
    gives an id exactly if that id's entry of the reverse table is valid and names this connection;
    so no two sessions have one connection. *)
Theorem forward_reverse_agree (ls : list slc_label) (s : slc) (t : threeTupleInternal)
    (src : lookupSource) (id : Z) :
  steps (slc_step myIpAddress) ls slc_init = Next s ->
  Forall stored (update_log s) -> settled s ->
  let r := kv_lookup (table s) (wire_lookup (mk_rtlLookup t src)) in
  (lr_hit r = true /\ lr_value r = id) <->
  (in_table id = true /\ valid_at (tupleValid s) id = true /\
   pack_tuple (tuple_at (reverseLookupTable s) id) = pack_tuple t).
Proof.
  intros Hrun Hlog (Huq & Hur & Hirsp & Hdreq & Hrins) r.
  destruct (run_agree _ _ Hrun Hlog) as (m & infl & Hm & Hl & HF).
  assert (infl = []) as ->.
  { destruct HF; try done. unfold ins_made in Hmade. by rewrite Hur, Hirsp in Hmade. }
  unfold live in Hl. rewrite Huq, Hdreq, Hrins in Hl. cbn in Hl. rewrite app_nil_r in Hl.
  pose proof (kv_lookup_repr _ _ (wire_lookup (mk_rtlLookup t src)) Hm) as (_ & _ & Hr).
  cbn in Hr. fold r in Hr. transitivity (m !! pack_tuple t = Some id).
  - destruct (lr_hit r); rewrite Hr; intuition congruence.
  - rewrite <- elem_of_map_to_list, <- Hl, list_elem_of_fmap. unfold pair_at. split.
    + intros (i & [= Ht ->] & [Hi Hv]%valid_ids_spec). by rewrite Ht.
    + intros (Hi & Hv & Ht). exists id. rewrite valid_ids_spec, Ht. done.
Qed.

(** A tuple is recovered from its key. *)
Lemma unpack_pack (t : threeTupleInternal) :
  unpack_tuple (pack_tuple t) = mk_three (u32 (theirIp t)) (u16 (myPort t)) (u16 (theirPort t)).
Proof.
  unfold unpack_tuple, pack_tuple. rewrite <- (Z.shiftl_0_r (u32 (theirIp t))).
  f_equal; solve_bits; by rewrite ?wrap_wrap.
Qed.
End conserved.

(** ** Concrete runs on the cuckoo table *)

Section runs.
#[local] Existing Instance cuckoo_table.
#[local] Existing Instance cuckoo_ops.

(** A connection from a peer, in the RX engine's orientation. *)
Definition peer (n : Z) : fourTuple := mk_fourTuple (u32 (167772161 + n * 65599)) 167772160 (u16 (1024 + n)) 80.
Definition open_session (n : Z) : list slc_label :=
  [PManager; ERx (mk_slQuery (peer n) true); PLookup; PTable; PLookup; PSender; PTable; PReplies; PLookup;
   PReverse].
Definition close_session (id : Z) : list slc_label := [ERelease id; PReverse; PSender; PTable; PReplies; PManager].
Definition ask (n : Z) : list slc_label := [ERx (mk_slQuery (peer n) false); PLookup; PTable; PLookup].

#[local] Instance small : ToeConfig := sim_config 30 false false.
#[local] Instance small_table : HashConfig := 30.
#[local] Instance small_ops : KvOps := cuckoo_ops 0.

Definition run_small (ls : list slc_label) : step_result slc := steps (slc_step 0) ls slc_init.

Definition completes (ls : list slc_label) : bool := match run_small ls with Next _ => true | _ => false end.
Definition final (ls : list slc_label) : slc := match run_small ls with Next s => s | _ => slc_init end.

Lemma small_fits : 0 < MAX_SESSIONS < 2 ^ 14.
Proof. done. Qed.

Lemma run_final (ls : list slc_label) : completes ls = true -> run_small ls = Next (final ls).
Proof. unfold completes, final. by destruct (run_small ls). Qed.

Definition two_opened_one_closed : list slc_label := open_session 0 ++ open_session 1 ++ close_session 0.

Lemma session_ids_conserved_witness :
  let s := final two_opened_one_closed in
  run_small two_opened_one_closed = Next s /\
  (ids_free s ++ ids_in_use s ≡ₚ seqZ 0 (counter s)) /\ usedSessionIDs s = 1.
Proof.
  intros s. assert (run_small two_opened_one_closed = Next s) as E by (apply run_final; by vm_compute).
  split; [exact E|]. split; [|by vm_compute].
  clearbody s.
  exact (proj1 (session_ids_conserved (H := small) (H0 := cuckoo_table 0) 0 small_fits two_opened_one_closed s E)).
Defined.

Lemma forward_reverse_agree_witness :
  let s := final two_opened_one_closed in
  let r := kv_lookup (table s) (wire_lookup (mk_rtlLookup (three_of_rx (peer 1)) RX)) in
  lr_hit r = true /\ lr_value r = 1.
Proof.
  intros s. assert (run_small two_opened_one_closed = Next s) as E by (apply run_final; by vm_compute).
  apply (forward_reverse_agree (H := small) (H0 := cuckoo_table 0) 0 small_fits two_opened_one_closed s
    (three_of_rx (peer 1)) RX 1 E).
  - apply (bool_decide_unpack _). vm_compute. exact I.
  - clear E. repeat split; vm_compute; reflexivity.
  - clear E. repeat split; vm_compute; reflexivity.
Defined.

(** The controller ignores the success flag of insertions.  In a build for 30 sessions the 19th
    connection finds the hash table full: it is nevertheless told that its session 18 exists, while
    the pair the table dropped was that of session 14, established earlier.  That session stays
    registered and counted, with its connection in the reverse table, but from now on no segment of
    its peer finds it. *)
Theorem session_lost :
  let s := final (seqZ 0 19 ≫= open_session) in
  run_small (seqZ 0 19 ≫= open_session) = Next s /\
  ur_success <$> last (update_log s) = Some false /\
  sLookup2rxEng_rsp s !! 18%nat = Some (mk_slReply 18 true) /\
  sLookup2rxEng_rsp s !! 14%nat = Some (mk_slReply 14 true) /\
  valid_at (tupleValid s) 14 = true /\ tuple_at (reverseLookupTable s) 14 = three_of_rx (peer 14) /\
  lr_hit (kv_lookup (table s) (wire_lookup (mk_rtlLookup (three_of_rx (peer 14)) RX))) = false /\
  usedSessionIDs s = 19.
Proof. intros s. split; [apply run_final; by vm_compute | by vm_compute]. Qed.
End runs.
