(* ===== verification/Axi.v ===== *)
(** Words on an AXI stream and the headers packed into them ([axi_utils.hpp],
    [packet.hpp]): byte reversal, and the collecting and emitting of a header
    word by word.  A header that one module emits is the header another module
    collects, whatever the width of the words and whatever the collecting
    register held before. *)
From stdpp Require Import base numbers list strings.
From Stdlib Require Import ZArith Lia.
From S2P Require Import Prelude.

Local Open Scope Z_scope.

(** ** Words *)

Record net_axis : Type := mk_axis { a_data : Z; a_keep : Z; a_last : bool }.

(** [reverse] exchanges the [n] bytes of a word: network to host order. *)
Definition reverse (n : nat) (w : Z) : Z := le_val (rev (le_bytes n w)).

(** ** Headers *)

Record packetHeader : Type := mk_header { h_ready : bool; h_idx : Z; h_header : Z }.

Definition header_new : packetHeader := mk_header false 0 0.
Definition header_clear (h : packetHeader) : packetHeader := mk_header false 0 (h_header h).
Definition setRawHeader (h : packetHeader) (v : Z) : packetHeader := mk_header (h_ready h) (h_idx h) v.

(** [W] is the width of the words, [H] that of the header. *)
Definition parseWord (W H : Z) (h : packetHeader) (w : Z) : packetHeader :=
  let '(mk_header ready idx header) := h in
  if ready then h
  else if idx * W + W <? H then mk_header false (u16 (idx + 1)) (set_bits header (idx * W) W w)
  else mk_header true (u16 (idx + 1)) (set_bits header (idx * W) (H - idx * W) w).

(** The word is overwritten from its lowest bit; the result says how many bytes
    of the header are left. *)
Definition consumeWord (W H : Z) (h : packetHeader) (w : Z) : packetHeader * Z * Z :=
  let '(mk_header ready idx header) := h in
  if (idx + 1) * W <=? H then
    (mk_header ready (u16 (idx + 1)) header, bits header (idx * W) W, u8 ((H - u16 (idx + 1) * W) / 8))
  else if idx * W <? H then
    (mk_header ready (u16 (idx + 1)) header, set_bits w 0 (H mod W) (bits header (idx * W) (H - idx * W)), 0)
  else (h, w, 0).

(** ** Calls of a process

    A process that never blocks is a function from a state to the next one and
    what it writes. *)
Fixpoint calls {S O : Type} (f : S -> S * list O) (n : nat) (s : S) : S * list O :=
  match n with
  | 0%nat => (s, [])
  | Datatypes.S n' => let '(s1, o1) := f s in let '(s2, o2) := calls f n' s1 in (s2, o1 ++ o2)
  end.

(** Some number of calls leads from [s] to [s'] and writes [out]. *)
Definition runs {S O : Type} (f : S -> S * list O) (s s' : S) (out : list O) : Prop :=
  exists n, calls f n s = (s', out).

Section runs.
Context {S O : Type} (f : S -> S * list O).

Lemma runs_refl (s : S) : runs f s s [].
Proof. by exists 0%nat. Qed.

Lemma runs_step (s s1 s2 : S) (o1 o2 : list O) : f s = (s1, o1) -> runs f s1 s2 o2 -> runs f s s2 (o1 ++ o2).
Proof. intros Hf [n Hn]. exists (Datatypes.S n). cbn. by rewrite Hf, Hn. Qed.

Lemma runs_one (s s1 : S) (o1 : list O) : f s = (s1, o1) -> runs f s s1 o1.
Proof. intros Hf. rewrite <- (app_nil_r o1). by eapply runs_step, runs_refl. Qed.

Lemma runs_trans (s s1 s2 : S) (o1 o2 : list O) : runs f s s1 o1 -> runs f s1 s2 o2 -> runs f s s2 (o1 ++ o2).
Proof.
  intros [n Hn]. revert s o1 Hn. induction n as [|n IH]; intros s o1 Hn H2; cbn in Hn.
  - by simplify_eq.
  - destruct (f s) as [s' o'] eqn:Hf. destruct (calls f n s') as [s'' o''] eqn:Hc. simplify_eq.
    rewrite <- app_assoc. eapply runs_step; [done|]. by eapply IH.
Qed.

(** A run that is not over yet begins with a call. *)
Lemma runs_first (s s' : S) (o : list O) :
  runs f s s' o -> s' = s \/ exists s1 o1 o2, f s = (s1, o1) /\ o = o1 ++ o2 /\ runs f s1 s' o2.
Proof.
  intros [[|n] Hn]; cbn in Hn; [simplify_eq; by left|].
  destruct (f s) as [s1 o1]. destruct (calls f n s1) as [s2 o2] eqn:Hc. simplify_eq.
  right. exists s1, o1, o2. split_and!; [done | done | by exists n].
Qed.
End runs.

(** ** Byte reversal *)

Lemma le_bytes_val (l : list Z) : Forall (fits 8) l -> le_bytes (length l) (le_val l) = l.
Proof.
  induction 1 as [|b l Hb Hl IH]; [done|]. cbn [length le_bytes le_val].
  assert (wrap 8 (b + 2 ^ 8 * le_val l) = b) as ->.
  { unfold wrap. rewrite Z.mul_comm, Z.mod_add by lia. by apply wrap_small. }
  rewrite Z.shiftr_div_pow2 by lia. rewrite Z.mul_comm, Z.div_add by lia.
  rewrite Z.div_small by (unfold fits in Hb; lia). by rewrite Z.add_0_l, IH.
Qed.

Lemma le_bytes_fits (n : nat) (z : Z) : Forall (fits 8) (le_bytes n z).
Proof. revert z. induction n as [|n IH]; intros z; cbn; constructor; [by apply wrap_range | apply IH]. Qed.

Lemma le_val_fits (l : list Z) : Forall (fits 8) l -> fits (8 * Z.of_nat (length l)) (le_val l).
Proof.
  intros Hl. rewrite <- (le_bytes_val l) at 2 by done. rewrite le_val_bytes. apply wrap_range. lia.
Qed.

Lemma reverse_fits (n : nat) (w : Z) : fits (8 * Z.of_nat n) (reverse n w).
Proof.
  unfold reverse. rewrite <- (length_le_bytes n w) at 1. rewrite <- length_rev.
  apply le_val_fits. apply Forall_rev, le_bytes_fits.
Qed.

Lemma reverse_involutive (n : nat) (w : Z) : fits (8 * Z.of_nat n) w -> reverse n (reverse n w) = w.
Proof.
  intros Hw. unfold reverse at 1.
  assert (le_bytes n (reverse n w) = rev (le_bytes n w)) as ->.
  { unfold reverse. rewrite <- (length_le_bytes n w) at 1. rewrite <- length_rev.
    apply le_bytes_val, Forall_rev, le_bytes_fits. }
  rewrite rev_involutive, le_val_bytes. by apply wrap_small.
Qed.

Lemma set_bits_fits (n h lo w v : Z) : 0 <= lo -> 0 <= w -> lo + w <= n -> fits n h -> fits n (set_bits h lo w v).
Proof.
  intros. unfold set_bits. assert (0 <= n) by lia. apply fits_lor; [done | |].
  - rewrite Z.ldiff_land, Z.land_comm. by apply fits_land_mask.
  - apply (fits_shiftl w); try lia. by apply wrap_range.
Qed.

Lemma bytes_field (n : nat) (h lo v : Z) :
  0 <= lo -> fits (8 * Z.of_nat n) v ->
  reverse n (bits (set_bits h lo (8 * Z.of_nat n) (reverse n v)) lo (8 * Z.of_nat n)) = v.
Proof.
  intros Hlo Hv. rewrite bits_set_bits_eq by lia. rewrite wrap_small by apply reverse_fits.
  by apply reverse_involutive.
Qed.

Lemma bytes_field2 (h lo v : Z) : 0 <= lo -> fits 16 v -> reverse 2 (bits (set_bits h lo 16 (reverse 2 v)) lo 16) = v.
Proof. apply (bytes_field 2). Qed.

(** ** Headers over words *)

Section words.
Context (W H : Z).

(** The words a header is sent in: [n] calls of [consumeWord] from [h] on; the
    word under way holds [fill i] above the header. *)
Fixpoint emit (n : nat) (fill : nat -> Z) (h : packetHeader) : list Z :=
  match n with
  | O => []
  | S n' => let '(h', w, _) := consumeWord W H h (fill n) in w :: emit n' fill h'
  end.

Definition collect (l : list Z) (h : packetHeader) : packetHeader := foldl (parseWord W H) h l.

(** The number of words the header takes. *)
Definition words : nat := Z.to_nat ((H + W - 1) / W).
End words.

Section roundtrip.
Context (W H : Z).
Hypothesis sizes : 0 < W /\ 0 < H < 2 ^ 16.

Lemma words_bounds : Z.of_nat (words W H) * W < H + W /\ H <= Z.of_nat (words W H) * W.
Proof.
  unfold words. rewrite Z2Nat.id by (apply Z.div_pos; lia).
  pose proof (Z.div_mod (H + W - 1) W ltac:(lia)). pose proof (Z.mod_pos_bound (H + W - 1) W ltac:(lia)). nia.
Qed.

(** A word of the header: its bits are those of the header. *)
Lemma consume_bits (ready : bool) (i : nat) (v w : Z) h' w' r k :
  (i < words W H)%nat -> consumeWord W H (mk_header ready (Z.of_nat i) v) w = (h', w', r) ->
  0 <= k < W -> Z.of_nat i * W + k < H ->
  h' = mk_header ready (Z.of_nat (S i)) v /\ Z.testbit w' k = Z.testbit v (Z.of_nat i * W + k).
Proof.
  intros Hi Hc Hk Hb. pose proof words_bounds as [HW _]. assert (Z.of_nat i < 2 ^ 16 - 1 \/ W = 1) by nia.
  assert (u16 (Z.of_nat i + 1) = Z.of_nat (S i)) as E.
  { rewrite wrap_small; [lia|]. unfold fits. nia. }
  unfold consumeWord in Hc. rewrite E in Hc.
  destruct (Z.leb_spec ((Z.of_nat i + 1) * W) H).
  - simplify_eq. split; [done|]. rewrite bits_testbit by nia.
    destruct (Z.ltb_spec k W); [|lia]. cbn. f_equal. lia.
  - destruct (Z.ltb_spec (Z.of_nat i * W) H); [|lia]. simplify_eq. split; [done|].
    assert (H mod W = H - Z.of_nat i * W) as ->.
    { symmetry. apply (Zmod_unique _ _ (Z.of_nat i)); lia. }
    rewrite set_bits_testbit by lia. rewrite bits_testbit by lia.
    replace ((0 <=? k) && (k <? 0 + (H - Z.of_nat i * W))) with true by lia. rewrite Z.sub_0_r.
    destruct (Z.ltb_spec k (H - Z.of_nat i * W)); [|lia]. cbn. f_equal. lia.
Qed.

(** Collecting it: the bits below the end of this word are the header's. *)
Lemma parse_bits (ready : bool) (i : nat) (v old w : Z) h' w' r :
  (i < words W H)%nat -> consumeWord W H (mk_header ready (Z.of_nat i) v) w = (h', w', r) ->
  (forall k, 0 <= k < Z.of_nat i * W -> Z.testbit old k = Z.testbit v k) ->
  exists old', parseWord W H (mk_header false (Z.of_nat i) old) w' =
      mk_header (bool_decide (S i = words W H)) (Z.of_nat (S i)) old' /\
    (forall k, 0 <= k < Z.of_nat (S i) * W -> k < H -> Z.testbit old' k = Z.testbit v k) /\
    (forall k, H <= k -> Z.testbit old' k = Z.testbit old k).
Proof.
  intros Hi Hc Ho. pose proof words_bounds as [HW1 HW2].
  assert (u16 (Z.of_nat i + 1) = Z.of_nat (S i)) as E by (rewrite wrap_small; [lia | unfold fits; nia]).
  unfold parseWord. rewrite E.
  assert (Hlast : bool_decide (S i = words W H) = negb (Z.of_nat i * W + W <? H)).
  { destruct (Z.ltb_spec (Z.of_nat i * W + W) H); [apply bool_decide_eq_false_2; nia | apply bool_decide_eq_true_2].
    assert (Z.of_nat (words W H) < Z.of_nat i + 2) by nia. lia. }
  assert (Hbit : forall k, Z.of_nat i * W <= k < Z.of_nat (S i) * W -> k < H ->
    Z.testbit w' (k - Z.of_nat i * W) = Z.testbit v k).
  { intros k Hk HkH. destruct (consume_bits ready i v w h' w' r (k - Z.of_nat i * W) Hi Hc) as [_ ->]; [lia | lia|].
    f_equal. lia. }
  assert (0 <= Z.of_nat i * W < H) by nia. rewrite Hlast.
  destruct (Z.ltb_spec (Z.of_nat i * W + W) H); eexists; (split; [done|]); split; intros k Hk.
  all: try intros HkH; rewrite set_bits_testbit by lia.
  - destruct (Z.leb_spec (Z.of_nat i * W) k); cbn; [|apply Ho; lia].
    replace (k <? Z.of_nat i * W + W) with true by lia. apply Hbit; lia.
  - by replace ((Z.of_nat i * W <=? k) && (k <? Z.of_nat i * W + W)) with false by lia.
  - destruct (Z.leb_spec (Z.of_nat i * W) k); cbn; [|apply Ho; lia].
    replace (k <? Z.of_nat i * W + (H - Z.of_nat i * W)) with true by lia. apply Hbit; lia.
  - by replace ((Z.of_nat i * W <=? k) && (k <? Z.of_nat i * W + (H - Z.of_nat i * W))) with false by lia.
Qed.

Lemma collect_emit (n i : nat) (ready : bool) (v old : Z) (fill : nat -> Z) :
  (i + n = words W H)%nat -> (0 < n)%nat ->
  (forall k, 0 <= k < Z.of_nat i * W -> Z.testbit old k = Z.testbit v k) ->
  exists old', collect W H (emit W H n fill (mk_header ready (Z.of_nat i) v)) (mk_header false (Z.of_nat i) old) =
      mk_header true (Z.of_nat (words W H)) old' /\
    (forall k, 0 <= k < H -> Z.testbit old' k = Z.testbit v k) /\
    (forall k, H <= k -> Z.testbit old' k = Z.testbit old k).
Proof.
  revert i old. induction n as [|n IH]; intros i old Hn Hpos Ho; [lia|]. cbn [emit].
  destruct (consumeWord W H (mk_header ready (Z.of_nat i) v) (fill (S n))) as [[h' w'] r] eqn:Hc.
  destruct (parse_bits ready i v old _ h' w' r ltac:(lia) Hc Ho) as (o1 & Hp & Hb1 & Hb2).
  assert (h' = mk_header ready (Z.of_nat (S i)) v) as ->.
  { pose proof words_bounds. edestruct (consume_bits ready i v _ _ _ _ 0 ltac:(lia) Hc) as [-> _]; [lia | nia | done]. }
  cbn [collect foldl]. rewrite Hp. destruct n as [|n].
  - rewrite bool_decide_eq_true_2 by lia. exists o1. pose proof words_bounds. split; [cbn; f_equal; lia|]. split; [|done].
    intros k Hk. apply Hb1; nia.
  - rewrite bool_decide_eq_false_2 by lia.
    destruct (IH (S i) o1 ltac:(lia) ltac:(lia)) as (o2 & Hc2 & Hb3 & Hb4).
    { intros k Hk. apply Hb1; [done|]. pose proof words_bounds. nia. }
    exists o2. split; [exact Hc2|]. split; [done|]. intros k Hk. by rewrite Hb4, Hb2.
Qed.
End roundtrip.

(** A header survives the wire: a module that collects the words another has
    emitted ends with the same header, and is ready with the last of them, for
    every width of the words and every header size, whatever its register held
    before and whatever follows the header in its last word. *)
Theorem header_roundtrip (W H : Z) (ready : bool) (v old : Z) (fill : nat -> Z) :
  0 < W /\ 0 < H < 2 ^ 16 -> fits H v -> fits H old ->
  collect W H (emit W H (words W H) fill (mk_header ready 0 v)) (mk_header false 0 old) =
    mk_header true (Z.of_nat (words W H)) v.
Proof.
  intros Hs Hv Ho. pose proof (words_bounds W H Hs) as [HW1 HW2].
  destruct (collect_emit W H Hs (words W H) 0 ready v old fill) as (v' & Hc & Hb1 & Hb2); [done | nia | intros; lia |].
  change (Z.of_nat 0) with 0 in Hc. rewrite Hc. f_equal. apply Z.bits_inj'. intros k Hk. destruct (Z.lt_ge_cases k H); [by apply Hb1|].
  rewrite Hb2, !(fits_testbit H) by (done || lia). done.
Qed.
