(* ===== verification/Streams.v ===== *)
(** The stream processes of [axi_utils.hpp] and [axi_utils.cpp]: shifting the
    bytes of a packet, changing the width of the words, merging, splitting and
    dropping packets, and the masks of valid bytes.  Each process is a function
    of its static variables and input streams; a call is one iteration. *)
From stdpp Require Import base numbers list strings.
From Stdlib Require Import ZArith Lia.
From S2P Require Import Prelude Axi.

Local Open Scope Z_scope.

(** ** Shifting *)

(** A word assembled from a low field of [w] bits and the bits above it. *)
Definition assemble (total w lo hi : Z) : Z := set_bits (set_bits 0 0 w lo) w (total - w) hi.

Record rshift : Type := mk_rshift {
  rs_remainder : bool;      (* fsmState = REMAINDER *)
  rs_firstWord : bool; rs_prevWord : net_axis; rs_input : list net_axis }.

Section rshiftWordByOctet.
Context (W offset : Z).

Definition rshift_init (input : list net_axis) : rshift :=
  mk_rshift false (negb (offset =? 0)) (mk_axis 0 0 false) input.

(** The upper bytes of [p] and the lower ones of [c]. *)
Definition rshift_join (p c : net_axis) (last : bool) : net_axis :=
  mk_axis (assemble W (W - 8 * offset) (bits (a_data p) (8 * offset) (W - 8 * offset)) (bits (a_data c) 0 (8 * offset)))
    (assemble (W / 8) (W / 8 - offset) (bits (a_keep p) offset (W / 8 - offset)) (bits (a_keep c) 0 offset)) last.

Definition rshiftWordByOctet (s : rshift) : rshift * list net_axis :=
  let '(mk_rshift rem first prev input) := s in
  if rem then (mk_rshift false first prev input, [rshift_join prev (mk_axis 0 0 false) true])
  else
    match input with
    | [] => (s, [])
    | c :: input' =>
        let send := if offset =? 0 then c
                    else rshift_join prev c (bits (a_keep c) offset (W / 8 - offset) =? 0) in
        let sent_last := negb first && a_last send in
        (mk_rshift (a_last c && negb sent_last) (a_last c && negb (offset =? 0)) c input',
         if first then [] else [send])
    end.
End rshiftWordByOctet.

Record lshift : Type := mk_lshift {
  ls_firstWord : bool; ls_writeRemainder : bool; ls_prevWord : net_axis; ls_input : list net_axis }.

Section lshiftWordByOctet.
Context (W offset : Z).

Definition lshift_init (input : list net_axis) : lshift := mk_lshift true false (mk_axis 0 0 false) input.

(** The uppermost bytes of [p] and the lower ones of [c]. *)
Definition lshift_join (p c : net_axis) (last : bool) : net_axis :=
  mk_axis (assemble W (8 * offset) (bits (a_data p) (W - 8 * offset) (8 * offset)) (bits (a_data c) 0 (W - 8 * offset)))
    (assemble (W / 8) offset (bits (a_keep p) (W / 8 - offset) offset) (bits (a_keep c) 0 (W / 8 - offset))) last.

(** The first word: the bytes in front are zero, and valid. *)
Definition lshift_first (c : net_axis) (last : bool) : net_axis :=
  mk_axis (assemble W (8 * offset) 0 (bits (a_data c) 0 (W - 8 * offset)))
    (assemble (W / 8) offset 0xFFFFFFFF (bits (a_keep c) 0 (W / 8 - offset))) last.

Definition lshiftWordByOctet (s : lshift) : lshift * list net_axis :=
  let '(mk_lshift first rem prev input) := s in
  if rem then (mk_lshift first false prev input, [lshift_join prev (mk_axis 0 0 false) true])
  else
    match input with
    | [] => (s, [])
    | c :: input' =>
        if offset =? 0 then (mk_lshift first false prev input', [c])
        else
          let last := bits (a_keep c) (W / 8 - offset) offset =? 0 in
          (mk_lshift (a_last c) (a_last c && negb last) c input',
           [if first then lshift_first c last else lshift_join prev c last])
    end.

(** [alignWords]: as the right shift, the last flag is left to the caller. *)
Definition alignWords (prev c : net_axis) (last : bool) : net_axis := rshift_join W offset prev c last.
End lshiftWordByOctet.

(** The modules have copies of the two processes under names of their own. *)
Definition udp_lshiftWordByOctet := lshiftWordByOctet.
Definition mac_lshiftWordByOctet := lshiftWordByOctet.
Definition ipv4_lshiftWordByOctet := lshiftWordByOctet.
Definition ip_handler_rshiftWordByOctet := rshiftWordByOctet.
Definition udp_rshiftWordByOctet := rshiftWordByOctet.

(** ** Widths *)

Record widener : Type := mk_widener { in_count : Z; in_temp : net_axis; in_input : list net_axis }.

Section increaseStreamWidth.
Context (W D : Z).

(** [sim]: compiled for simulation, where the word is cleared as well. *)
Definition increaseStreamWidth (sim : bool) (s : widener) : widener * list net_axis :=
  let '(mk_widener count temp input) := s in
  match input with
  | [] => (s, [])
  | c :: input' =>
      let temp' := mk_axis (set_bits (a_data temp) (W * count) W (a_data c))
                     (set_bits (a_keep temp) (W / 8 * count) (W / 8) (a_keep c)) (a_last c) in
      if a_last c || (count + 1 =? D) then
        (mk_widener 0 (mk_axis (if sim then 0 else a_data temp') 0 (a_last c)) input', [temp'])
      else (mk_widener (count + 1) temp' input', [])
  end.
End increaseStreamWidth.

Record narrower : Type := mk_narrower {
  rd_second : bool; rd_count : Z; rd_currWord : net_axis; rd_input : list net_axis }.

Section reduceStreamWidth.
Context (W D : Z).

Definition reduce_head (w : net_axis) (last : bool) : net_axis :=
  mk_axis (bits (a_data w) 0 (W / D)) (bits (a_keep w) 0 (W / D / 8)) last.
Definition reduce_more (w : net_axis) : bool := Z.testbit (a_keep w) (W / 8 / D).
(** The upper part of the data is left as it is. *)
Definition reduce_shift (w : net_axis) : net_axis :=
  mk_axis (set_bits (a_data w) 0 (W - W / D) (bits (a_data w) (W / D) (W - W / D)))
    (set_bits (set_bits (a_keep w) 0 (W / 8 - W / 8 / D) (bits (a_keep w) (W / 8 / D) (W / 8 - W / 8 / D)))
       (W / 8 - W / 8 / D) (W / 8 / D) 0) (a_last w).

Definition reduceStreamWidth (s : narrower) : narrower * list net_axis :=
  let '(mk_narrower second count w input) := s in
  if second then
    let t := reduce_head w (if count <? D - 1 then negb (reduce_more w) else a_last w) in
    (mk_narrower (negb ((count + 1 =? D) || a_last t)) (count + 1) (reduce_shift w) input, [t])
  else
    match input with
    | [] => (s, [])
    | c :: input' =>
        (mk_narrower (reduce_more c) (if reduce_more c then 1 else count) (reduce_shift c) input',
         [reduce_head c (negb (reduce_more c))])
    end.
End reduceStreamWidth.

(** ** Merging and splitting *)

Section mergers.
Context {T : Type}.

(** The first stream has priority. *)
Definition stream_merger (s : list T * list T) : (list T * list T) * list T :=
  match s with
  | (x :: in1, in2) => ((in1, in2), [x])
  | ([], x :: in2) => (([], in2), [x])
  | ([], []) => (s, [])
  end.

(** The stream [in0] and [in1] take turns while both have elements. *)
Record fair : Type := mk_fair { merge_pref : bool; fm_in0 : list T; fm_in1 : list T }.
Definition fair_merger (s : fair) : fair * list T :=
  let '(mk_fair pref in0 in1) := s in
  match pref, in0, in1 with
  | true, x :: in0', _ => (mk_fair false in0' in1, [x])
  | true, [], x :: in1' => (mk_fair true [] in1', [x])
  | false, _, x :: in1' => (mk_fair true in0 in1', [x])
  | false, x :: in0', [] => (mk_fair false in0' [], [x])
  | _, [], [] => (s, [])
  end.

Definition duplicate_stream (s : list T) : list T * list (T * T) :=
  match s with x :: s' => (s', [(x, x)]) | [] => (s, []) end.
End mergers.
Arguments fair T : clear implicits.

(** The state of a process that forwards packets. *)
Inductive fwdState : Type := IDLE | FWD0 | FWD1.

(** [fair_pkg_merger] as it is written: a packet of [in0] that is started while
    [merge_pref] holds goes on in [FWD1]. *)
Record fairPkg : Type := mk_fairPkg {
  fp_state : fwdState; fp_pref : bool; fp_in0 : list net_axis; fp_in1 : list net_axis }.
Definition fair_pkg_merger (s : fairPkg) : fairPkg * list net_axis :=
  let '(mk_fairPkg st pref in0 in1) := s in
  let next st w := if a_last w then IDLE else st in
  match st, pref, in0, in1 with
  | IDLE, true, w :: in0', _ => (mk_fairPkg (next FWD1 w) pref in0' in1, [w])
  | IDLE, true, [], w :: in1' => (mk_fairPkg (next FWD1 w) pref in0 in1', [w])
  | IDLE, false, _, w :: in1' => (mk_fairPkg (next FWD1 w) pref in0 in1', [w])
  | IDLE, false, w :: in0', [] => (mk_fairPkg (next FWD0 w) pref in0' in1, [w])
  | FWD0, _, w :: in0', _ => (mk_fairPkg (next FWD0 w) (if a_last w then false else pref) in0' in1, [w])
  | FWD1, _, _, w :: in1' => (mk_fairPkg (next FWD1 w) (if a_last w then true else pref) in0 in1', [w])
  | _, _, _, _ => (s, [])
  end.

(** Element by element in the order [originIn] gives. *)
Section origin.
Context {T : Type}.
Record byOrigin : Type := mk_byOrigin {
  bo_state : fwdState; bo_originIn : list Z; bo_input0 : list T; bo_input1 : list T }.

Definition stream_merger_origin (s : byOrigin) : byOrigin * list T :=
  let '(mk_byOrigin st org in0 in1) := s in
  match st, org, in0, in1 with
  | IDLE, o :: org', _, _ =>
      if o =? 0 then
        match in0 with
        | x :: in0' => (mk_byOrigin IDLE org' in0' in1, [x])
        | [] => (mk_byOrigin FWD0 org' in0 in1, [])
        end
      else
        match in1 with
        | x :: in1' => (mk_byOrigin IDLE org' in0 in1', [x])
        | [] => (mk_byOrigin FWD1 org' in0 in1, [])
        end
  | FWD0, _, x :: in0', _ => (mk_byOrigin IDLE org in0' in1, [x])
  | FWD1, _, _, x :: in1' => (mk_byOrigin IDLE org in0 in1', [x])
  | _, _, _, _ => (s, [])
  end.
End origin.
Arguments byOrigin T : clear implicits.

(** Packet by packet. *)
Definition stream_pkg_merger (s : byOrigin net_axis) : byOrigin net_axis * list net_axis :=
  let '(mk_byOrigin st org in0 in1) := s in
  let next st w := if a_last w then IDLE else st in
  match st, org, in0, in1 with
  | IDLE, o :: org', _, _ =>
      if o =? 0 then
        match in0 with
        | w :: in0' => (mk_byOrigin (next FWD0 w) org' in0' in1, [w])
        | [] => (mk_byOrigin FWD0 org' in0 in1, [])
        end
      else
        match in1 with
        | w :: in1' => (mk_byOrigin (next FWD1 w) org' in0 in1', [w])
        | [] => (mk_byOrigin FWD1 org' in0 in1, [])
        end
  | FWD0, _, w :: in0', _ => (mk_byOrigin (next FWD0 w) org in0' in1, [w])
  | FWD1, _, _, w :: in1' => (mk_byOrigin (next FWD1 w) org in0 in1', [w])
  | _, _, _, _ => (s, [])
  end.

Record splitter : Type := mk_splitter { sp_state : fwdState; sp_destIn : list Z; sp_input : list net_axis }.

(** The outputs carry the number of their stream. *)
Definition stream_pkg_splitter (s : splitter) : splitter * list (bool * net_axis) :=
  let '(mk_splitter st dst input) := s in
  let next st w := if a_last w then IDLE else st in
  match st, dst, input with
  | IDLE, d :: dst', [] => (mk_splitter (if d =? 0 then FWD0 else FWD1) dst' input, [])
  | IDLE, d :: dst', w :: input' =>
      (mk_splitter (next (if d =? 0 then FWD0 else FWD1) w) dst' input', [(negb (d =? 0), w)])
  | FWD0, _, w :: input' => (mk_splitter (next FWD0 w) dst input', [(false, w)])
  | FWD1, _, w :: input' => (mk_splitter (next FWD1 w) dst input', [(true, w)])
  | _, _, _ => (s, [])
  end.

Inductive validState : Type := VALID | FWD | DROP.
Record validPkg : Type := mk_validPkg { vp_state : validState; vp_valid : list bool; vp_input : list net_axis }.

Definition pass_valid_pkg (s : validPkg) : validPkg * list net_axis :=
  let '(mk_validPkg st vs input) := s in
  let next st w := if a_last w then VALID else st in
  match st, vs, input with
  | VALID, v :: vs', w :: input' =>
      if v then (mk_validPkg (next FWD w) vs' input', [w]) else (mk_validPkg (next DROP w) vs' input', [])
  | FWD, _, w :: input' => (mk_validPkg (next FWD w) vs input', [w])
  | DROP, _, w :: input' => (mk_validPkg (next DROP w) vs input', [])
  | _, _, _ => (s, [])
  end.

(** ** Masks *)

(** The length is a 6-bit number; 0 gives the full mask. *)
Definition lenToKeep (length : Z) : Z :=
  let l := wrap 6 length in if l =? 0 then 2 ^ 64 - 1 else 2 ^ l - 1.

(** The mask of another form than [2^n - 1] has no length: the result is 0xFF. *)
Definition keepToLen (keep : Z) : Z :=
  if (0 <? keep) && (keep =? 2 ^ Z.log2 (keep + 1) - 1) then Z.log2 (keep + 1) else 0xFF.
