(* ===== verification/StreamsFacts.v ===== *)
(** Theorems on the stream processes (Streams): what the shifts, the width
    converters and the mergers do to the packets on a stream, a packet being
    the bytes its words hold. *)
From stdpp Require Import base numbers list strings.
From Stdlib Require Import ZArith Lia.
From S2P Require Import Prelude Axi Streams.

Local Open Scope Z_scope.

(** ** Bytes of a word *)

Lemma le_bytes_ext (n : nat) (x y : Z) :
  (forall i, 0 <= i < 8 * Z.of_nat n -> Z.testbit x i = Z.testbit y i) -> le_bytes n x = le_bytes n y.
Proof.
  revert x y. induction n as [|n IH]; intros x y Hxy; [done|]. cbn [le_bytes]. f_equal.
  - apply Z.bits_inj'. intros i Hi. rewrite !wrap_testbit by lia. destruct (Z.ltb_spec i 8); [|done].
    cbn. apply Hxy. lia.
  - apply IH. intros i Hi. rewrite !Z.shiftr_spec by lia. apply Hxy. lia.
Qed.

Lemma le_bytes_app (a b : nat) (z : Z) :
  le_bytes (a + b) z = le_bytes a z ++ le_bytes b (Z.shiftr z (8 * Z.of_nat a)).
Proof.
  revert z. induction a as [|a IH]; intros z; cbn [le_bytes app Nat.add].
  - by rewrite Z.mul_0_r, Z.shiftr_0_r.
  - rewrite IH. do 3 f_equal. rewrite Z.shiftr_shiftr by lia. f_equal. lia.
Qed.

Lemma take_le_bytes_le (k n : nat) (z : Z) : (k <= n)%nat -> take k (le_bytes n z) = le_bytes k z.
Proof.
  intros. replace n with (k + (n - k))%nat by lia. rewrite le_bytes_app.
  by rewrite take_app_length' by (by rewrite length_le_bytes).
Qed.

Lemma drop_le_bytes_le (k n : nat) (z : Z) :
  (k <= n)%nat -> drop k (le_bytes n z) = le_bytes (n - k) (Z.shiftr z (8 * Z.of_nat k)).
Proof.
  intros. replace n with (k + (n - k))%nat at 1 by lia. rewrite le_bytes_app.
  by rewrite drop_app_length' by (by rewrite length_le_bytes).
Qed.

Lemma le_bytes_0 (k : nat) : le_bytes k 0 = replicate k 0.
Proof. induction k as [|k IH]; [done|]. cbn [le_bytes replicate]. rewrite Z.shiftr_0_l, IH. done. Qed.

Lemma bits_low (x i w : Z) : 0 <= i < w -> Z.testbit (bits x 0 w) i = Z.testbit x i.
Proof.
  intros. rewrite bits_testbit by lia. rewrite Z.add_0_r. by replace (i <? w) with true by lia.
Qed.

(** Fields of whole bytes. *)
Lemma le_bytes_bits (k : nat) (x lo w : Z) :
  0 <= lo -> 8 * Z.of_nat k <= w -> le_bytes k (bits x lo w) = le_bytes k (Z.shiftr x lo).
Proof.
  intros. apply le_bytes_ext. intros i Hi. rewrite bits_testbit, Z.shiftr_spec by lia.
  by replace (i <? w) with true by lia.
Qed.

Lemma assemble_testbit total w lo hi i :
  0 <= w <= total -> 0 <= i < total ->
  Z.testbit (assemble total w lo hi) i = if i <? w then Z.testbit lo i else Z.testbit hi (i - w).
Proof.
  intros. unfold assemble. rewrite !set_bits_testbit by lia. destruct (Z.ltb_spec i w).
  - replace (w <=? i) with false by lia. cbn. replace ((0 <=? i) && (i <? 0 + w)) with true by lia. f_equal. lia.
  - by replace ((w <=? i) && (i <? w + (total - w))) with true by lia.
Qed.

Lemma assemble_high total w lo hi i : 0 <= w <= total -> total <= i -> Z.testbit (assemble total w lo hi) i = false.
Proof.
  intros. unfold assemble. rewrite !set_bits_testbit by lia.
  replace ((w <=? i) && (i <? w + (total - w))) with false by lia.
  replace ((0 <=? i) && (i <? 0 + w)) with false by lia. apply Z.bits_0.
Qed.

Lemma le_bytes_assemble (n a : nat) (lo hi : Z) :
  (a <= n)%nat ->
  le_bytes n (assemble (8 * Z.of_nat n) (8 * Z.of_nat a) lo hi) = le_bytes a lo ++ le_bytes (n - a) hi.
Proof.
  intros. replace n with (a + (n - a))%nat at 1 by lia. rewrite le_bytes_app. f_equal; apply le_bytes_ext; intros i Hi.
  - rewrite assemble_testbit by lia. by replace (i <? 8 * Z.of_nat a) with true by lia.
  - rewrite Z.shiftr_spec, assemble_testbit by lia.
    replace (i + 8 * Z.of_nat a <? 8 * Z.of_nat a) with false by lia. f_equal. lia.
Qed.

(** Masks. *)
Lemma ones_testbit (k i : Z) : 0 <= k -> 0 <= i -> Z.testbit (Z.ones k) i = (i <? k).
Proof.
  intros. destruct (Z.ltb_spec i k); [by rewrite Z.ones_spec_low by lia | by rewrite Z.ones_spec_high by lia].
Qed.

Lemma bits_ones (k lo w : Z) : 0 <= k -> 0 <= lo -> 0 <= w -> bits (Z.ones k) lo w = Z.ones (Z.max 0 (Z.min w (k - lo))).
Proof.
  intros. apply Z.bits_inj'. intros i Hi. rewrite bits_testbit, !ones_testbit by lia.
  destruct (Z.ltb_spec i w), (Z.ltb_spec (i + lo) k), (Z.ltb_spec i (Z.max 0 (Z.min w (k - lo)))); lia || done.
Qed.

Lemma ones_0 (k : Z) : 0 <= k -> (Z.ones k =? 0) = (k =? 0).
Proof.
  intros. rewrite Z.ones_equiv. destruct (Z.eqb_spec k 0) as [->|]; [done|].
  assert (0 < k) as Hk by lia. apply (Z.pow_gt_1 2) in Hk; [|lia]. apply Z.eqb_neq. lia.
Qed.

Lemma assemble_ones (total w a b : Z) :
  0 <= a <= w -> 0 <= b <= total - w -> a = w \/ b = 0 -> assemble total w (Z.ones a) (Z.ones b) = Z.ones (a + b).
Proof.
  intros. apply Z.bits_inj'. intros i Hi. rewrite ones_testbit by lia.
  destruct (Z.lt_ge_cases i total).
  - rewrite assemble_testbit by lia. destruct (Z.ltb_spec i w); rewrite ones_testbit by lia;
      destruct (Z.ltb_spec i (a + b)); lia.
  - rewrite assemble_high by lia. lia.
Qed.

Lemma lenToKeep_ones (T : nat) : (1 <= T <= 64)%nat -> lenToKeep (wrap 6 (Z.of_nat T)) = Z.ones (Z.of_nat T).
Proof.
  intros HT. unfold lenToKeep. rewrite wrap_wrap by lia. destruct (Nat.lt_ge_cases T 64).
  - rewrite wrap_small by (unfold fits; lia). rewrite (proj2 (Z.eqb_neq (Z.of_nat T) 0)) by lia. rewrite Z.ones_equiv. lia.
  - by replace T with 64%nat by lia.
Qed.

(** ** Packets *)

Section packets.
Context (n : nat).

(** The words of a packet, [n] bytes each, and its bytes. *)
Inductive packet : list net_axis -> list Z -> Prop :=
| packet_last d k :
    (1 <= k <= n)%nat -> packet [mk_axis d (Z.ones (Z.of_nat k)) true] (take k (le_bytes n d))
| packet_more d ws l :
    packet ws l -> packet (mk_axis d (Z.ones (Z.of_nat n)) false :: ws) (le_bytes n d ++ l).

Lemma packet_one w k l :
  a_last w = true -> a_keep w = Z.ones (Z.of_nat k) -> (1 <= k <= n)%nat -> l = take k (le_bytes n (a_data w)) -> packet [w] l.
Proof. destruct w. cbn. intros -> -> Hk ->. by constructor. Qed.

Lemma packet_cons w ws l l' :
  a_last w = false -> a_keep w = Z.ones (Z.of_nat n) -> packet ws l -> l' = le_bytes n (a_data w) ++ l -> packet (w :: ws) l'.
Proof. destruct w. cbn. intros -> -> Hl ->. by constructor. Qed.

(** A stream of packets. *)
Inductive packet_stream : list net_axis -> list (list Z) -> Prop :=
| stream_nil : packet_stream [] []
| stream_cons ws l s ls : packet ws l -> packet_stream s ls -> packet_stream (ws ++ s) (l :: ls).

Lemma packet_length ws l : packet ws l -> (1 <= length l)%nat.
Proof.
  induction 1; [rewrite length_take, length_le_bytes; lia | rewrite length_app; lia].
Qed.

Lemma packet_stream_length ws ls l : packet_stream ws ls -> l ∈ ls -> (1 <= length l)%nat.
Proof.
  induction 1 as [|ws l' s ls Hw Hs IH]; intros Hl; [by apply elem_of_nil in Hl|].
  apply elem_of_cons in Hl as [->|Hl]; [by eapply packet_length | auto].
Qed.
End packets.

(** ** The shifts *)

Section shifts.
Context (n o : nat).
Hypothesis offset_ok : (0 < o < n)%nat.

Abbreviation W := (8 * Z.of_nat n).
Abbreviation offset := (Z.of_nat o).

Lemma width_bytes : W / 8 = Z.of_nat n.
Proof. rewrite Z.mul_comm. by apply Z.div_mul. Qed.

(** What the words hold after a right shift. *)
Lemma rshift_data p c last :
  le_bytes n (a_data (rshift_join W offset p c last)) = drop o (le_bytes n (a_data p)) ++ le_bytes o (a_data c).
Proof.
  unfold rshift_join. cbn [a_data]. replace (W - 8 * offset) with (8 * Z.of_nat (n - o)) by lia.
  rewrite le_bytes_assemble by lia. rewrite !le_bytes_bits by lia.
  rewrite Z.shiftr_0_r, drop_le_bytes_le by lia. do 2 f_equal. lia.
Qed.

Lemma rshift_keep p c last (j k : nat) :
  (o <= j <= n)%nat -> (k <= n)%nat -> j = n \/ k = 0%nat ->
  a_keep p = Z.ones (Z.of_nat j) -> a_keep c = Z.ones (Z.of_nat k) ->
  a_keep (rshift_join W offset p c last) = Z.ones (Z.of_nat (j - o + o `min` k)).
Proof.
  intros ??? Hp Hc. unfold rshift_join. cbn [a_keep]. rewrite width_bytes, Hp, Hc, !bits_ones by lia.
  rewrite assemble_ones by lia. f_equal. lia.
Qed.

Lemma rshift_last c (k : nat) :
  a_keep c = Z.ones (Z.of_nat k) -> (bits (a_keep c) offset (W / 8 - offset) =? 0) = bool_decide (k <= o)%nat.
Proof.
  intros ->. rewrite width_bytes, bits_ones, ones_0 by lia.
  destruct (Nat.leb_spec k o); [rewrite bool_decide_eq_true_2 by lia | rewrite bool_decide_eq_false_2 by lia]; lia.
Qed.

Lemma offset_nonzero : (offset =? 0) = false.
Proof. lia. Qed.

Lemma take_shifted (k : nat) dp dc :
  (n - o <= k)%nat -> take k (drop o (le_bytes n dp) ++ le_bytes o dc) = drop o (le_bytes n dp) ++ take (k - (n - o)) (le_bytes o dc).
Proof. intros. rewrite take_app, length_drop, length_le_bytes. rewrite take_ge; [done|]. rewrite length_drop, length_le_bytes. lia. Qed.

(** What is left of the last word of a packet. *)
Lemma rest_packet p (k : nat) :
  a_keep p = Z.ones (Z.of_nat k) -> (o < k <= n)%nat ->
  packet n [rshift_join W offset p (mk_axis 0 0 false) true] (drop o (take k (le_bytes n (a_data p)))).
Proof.
  intros Hp Hk. eapply (packet_one n _ (k - o)); [done | | lia |].
  - rewrite (rshift_keep p _ _ k 0) by (done || lia). do 2 f_equal. lia.
  - rewrite rshift_data, take_app_le by (rewrite length_drop, length_le_bytes; lia).
    rewrite take_le_bytes_le, !drop_le_bytes_le, take_le_bytes_le by lia. done.
Qed.

(** Every process that joins each word with the next one: [at_ p] holds the word
    [p], [rem p] has its upper bytes left to send, [fin p] has finished; [g] is
    how it writes a word. *)
Record joins {S O : Type} (f : S -> S * list O) (g : net_axis -> O) (at_ rem fin : net_axis -> list net_axis -> S) : Prop := {
  joins_word p c (k : nat) input :
    a_keep c = Z.ones (Z.of_nat k) -> (k <= n)%nat -> (a_last c = false -> k = n) ->
    f (at_ p (c :: input)) =
      (if a_last c then if bool_decide (k <= o)%nat then fin c input else rem c input else at_ c input,
       [g (rshift_join W offset p c (bool_decide (k <= o)%nat))]);
  joins_rest p input : f (rem p input) = (fin p input, [g (rshift_join W offset p (mk_axis 0 0 false) true)]) }.

Section joins.
Context {S O : Type} (f : S -> S * list O) (g : net_axis -> O) (at_ rem fin : net_axis -> list net_axis -> S).
Hypothesis process : joins f g at_ rem fin.

(** The rest of a packet behind a full word. *)
Lemma join_rest ws l rest p :
  packet n ws l -> a_keep p = Z.ones (Z.of_nat n) ->
  exists p' out, runs f (at_ p (ws ++ rest)) (fin p' rest) (g <$> out) /\ packet n out (drop o (le_bytes n (a_data p)) ++ l).
Proof.
  intros Hws. revert p. induction Hws as [d k Hk|d ws l Hws IH]; intros p Hp.
  - set (c := mk_axis d (Z.ones (Z.of_nat k)) true).
    set (send := rshift_join W offset p c (bool_decide (k <= o)%nat)).
    pose proof (joins_word _ _ _ _ _ process p c k rest eq_refl ltac:(lia) ltac:(done)) as Hc. cbn [a_last c] in Hc. fold send in Hc.
    assert (a_keep send = Z.ones (Z.of_nat (n - o + o `min` k))) as Hkeep by (apply (rshift_keep p c _ n k); lia || done).
    destruct (Nat.leb_spec k o) as [Hle|Hgt].
    + rewrite bool_decide_eq_true_2 in Hc by done. exists c, [send]. split; [by apply runs_one|].
      eapply (packet_one n send (n - o + k)); [by apply bool_decide_eq_true_2 | rewrite Hkeep; do 2 f_equal; lia | lia |].
      unfold send. rewrite rshift_data, take_shifted by lia. f_equal. rewrite !take_le_bytes_le by lia. f_equal. lia.
    + rewrite bool_decide_eq_false_2 in Hc by lia.
      set (r := rshift_join W offset c (mk_axis 0 0 false) true).
      exists c, [send; r]. split.
      { eapply (runs_step _ _ _ _ [g send]); [exact Hc|]. apply runs_one, (joins_rest _ _ _ _ _ process). }
      eapply packet_cons; [by apply bool_decide_eq_false_2; lia | rewrite Hkeep; do 2 f_equal; lia | apply (rest_packet c k); [done | lia] |].
      unfold send, r. rewrite !rshift_data, <- app_assoc. f_equal. cbn [a_data c].
      replace k with (o + (k - o))%nat at 1 by lia.
      rewrite !take_le_bytes_le by lia. rewrite le_bytes_app. f_equal. rewrite drop_le_bytes_le by lia. f_equal.
  - set (c := mk_axis d (Z.ones (Z.of_nat n)) false).
    destruct (IH c eq_refl) as (p' & out & Hr & Hout).
    exists p', (rshift_join W offset p c false :: out). split.
    + eapply (runs_step _ _ _ _ [_]); [|exact Hr]. cbn [app]. rewrite (joins_word _ _ _ _ _ process p c n) by (done || lia).
      by rewrite bool_decide_eq_false_2 by lia.
    + eapply packet_cons; [done | | exact Hout |].
      * rewrite (rshift_keep p c _ n n) by (done || lia). do 2 f_equal. lia.
      * rewrite rshift_data, <- !app_assoc. f_equal. cbn [a_data c]. rewrite app_assoc. f_equal.
        replace n with (o + (n - o))%nat at 1 by lia. rewrite le_bytes_app, drop_le_bytes_le by lia. done.
Qed.

Lemma join_packet (start : list net_axis -> S) ws l rest :
  (forall c input, f (start (c :: input)) = (if a_last c then rem c input else at_ c input, [])) ->
  packet n ws l -> (o < length l)%nat ->
  exists p' out, runs f (start (ws ++ rest)) (fin p' rest) (g <$> out) /\ packet n out (drop o l).
Proof.
  intros Hstart Hws Hl. destruct Hws as [d k Hk|d ws l Hws].
  - rewrite length_take, length_le_bytes in Hl. set (c := mk_axis d (Z.ones (Z.of_nat k)) true).
    exists c, [rshift_join W offset c (mk_axis 0 0 false) true]. split.
    + eapply (runs_step _ _ (rem c rest) _ []); [apply Hstart|]. apply runs_one, (joins_rest _ _ _ _ _ process).
    + apply (rest_packet c k); [done | lia].
  - set (c := mk_axis d (Z.ones (Z.of_nat n)) false).
    destruct (join_rest ws l rest c Hws eq_refl) as (p' & out & Hr & Hout).
    exists p', out. split.
    + eapply (runs_step _ _ _ _ []); [apply Hstart | exact Hr].
    + rewrite drop_app_le by (rewrite length_le_bytes; lia). exact Hout.
Qed.
End joins.

Lemma rshift_joins :
  joins (rshiftWordByOctet W offset) id (mk_rshift false false) (mk_rshift true true) (mk_rshift false true).
Proof.
  constructor; [|done].
  - intros p c k input Hk Hkn Hlast. cbn [rshiftWordByOctet]. rewrite offset_nonzero, (rshift_last c k Hk).
    destruct (a_last c); [by destruct (bool_decide _)|]. rewrite Hlast by done. by rewrite bool_decide_eq_false_2 by lia.
Qed.

Lemma rshift_packet ws l rest p :
  packet n ws l -> (o < length l)%nat ->
  exists p' out, runs (rshiftWordByOctet W offset) (mk_rshift false true p (ws ++ rest)) (mk_rshift false true p' rest) out /\
    packet n out (drop o l).
Proof.
  intros Hw Hl. destruct (join_packet _ _ _ _ _ rshift_joins (mk_rshift false true p) ws l rest) as (p' & out & Hr & Hout); [|done..|].
  - intros c input. cbn [rshiftWordByOctet]. rewrite offset_nonzero. by destruct (a_last c).
  - rewrite list_fmap_id in Hr. eauto.
Qed.

Lemma rshift_packets ws ls p :
  packet_stream n ws ls -> Forall (fun l => (o < length l)%nat) ls ->
  exists p' out, runs (rshiftWordByOctet W offset) (mk_rshift false true p ws) (mk_rshift false true p' []) out /\
    packet_stream n out (drop o <$> ls).
Proof.
  intros Hws. revert p. induction Hws as [|ws l s ls Hw Hs IH]; intros p Hl.
  - exists p, []. split; [apply runs_refl | constructor].
  - apply Forall_cons in Hl as [Hl Hls]. destruct (rshift_packet ws l s p Hw Hl) as (p1 & o1 & Hr1 & Ho1).
    destruct (IH p1 Hls) as (p2 & o2 & Hr2 & Ho2). exists p2, (o1 ++ o2).
    split; [by eapply runs_trans | by constructor].
Qed.

(** What the words hold after a left shift. *)
Lemma lshift_data p c last :
  le_bytes n (a_data (lshift_join W offset p c last)) = drop (n - o) (le_bytes n (a_data p)) ++ le_bytes (n - o) (a_data c).
Proof.
  unfold lshift_join. cbn [a_data]. rewrite le_bytes_assemble by lia. rewrite !le_bytes_bits by lia.
  rewrite Z.shiftr_0_r, drop_le_bytes_le by lia. f_equal. f_equal; [lia|]. f_equal. lia.
Qed.

Lemma lshift_first_data c last :
  le_bytes n (a_data (lshift_first W offset c last)) = replicate o 0 ++ le_bytes (n - o) (a_data c).
Proof.
  unfold lshift_first. cbn [a_data]. rewrite le_bytes_assemble by lia. rewrite !le_bytes_bits by lia.
  by rewrite Z.shiftr_0_r, le_bytes_0.
Qed.

Lemma lshift_keep p c last (j k : nat) :
  (j <= n)%nat -> (k <= n)%nat -> j = n \/ k = 0%nat ->
  a_keep p = Z.ones (Z.of_nat j) -> a_keep c = Z.ones (Z.of_nat k) ->
  a_keep (lshift_join W offset p c last) = Z.ones (Z.of_nat (j - (n - o) + (n - o) `min` k)).
Proof.
  intros ??? Hp Hc. unfold lshift_join. cbn [a_keep]. rewrite width_bytes, Hp, Hc, !bits_ones by lia.
  rewrite assemble_ones by lia. f_equal. lia.
Qed.

Lemma lshift_first_keep c last (k : nat) :
  (o <= 32)%nat -> (k <= n)%nat -> a_keep c = Z.ones (Z.of_nat k) ->
  a_keep (lshift_first W offset c last) = Z.ones (Z.of_nat (o + (n - o) `min` k)).
Proof.
  intros Ho Hk Hc. unfold lshift_first. cbn [a_keep]. rewrite width_bytes, Hc, !bits_ones by lia.
  transitivity (assemble (Z.of_nat n) offset (Z.ones offset) (Z.ones (Z.max 0 (Z.min (Z.of_nat n - offset) (Z.of_nat k - 0))))).
  - apply Z.bits_inj'. intros i Hi. destruct (Z.lt_ge_cases i (Z.of_nat n)); [|by rewrite !assemble_high by lia].
    rewrite !assemble_testbit by lia. destruct (Z.ltb_spec i offset); [|done].
    change 0xFFFFFFFF with (Z.ones 32). rewrite !ones_testbit by lia. lia.
  - rewrite assemble_ones by lia. f_equal. lia.
Qed.

Lemma lshift_last c (k : nat) :
  a_keep c = Z.ones (Z.of_nat k) -> (bits (a_keep c) (W / 8 - offset) offset =? 0) = bool_decide (k <= n - o)%nat.
Proof.
  intros ->. rewrite width_bytes, bits_ones, ones_0 by lia.
  destruct (Nat.leb_spec k (n - o)); [rewrite bool_decide_eq_true_2 by lia | rewrite bool_decide_eq_false_2 by lia]; lia.
Qed.

(** The last word of a packet, and the remainder if there is one: [front] are
    the bytes in front of it. *)
Lemma lshift_tail first p c send (k : nat) front rest :
  (1 <= k <= n)%nat -> a_keep c = Z.ones (Z.of_nat k) -> length front = o ->
  lshiftWordByOctet W offset (mk_lshift first false p ([c] ++ rest)) =
    (mk_lshift true (negb (bool_decide (k <= n - o)%nat)) c rest, [send]) ->
  a_last send = bool_decide (k <= n - o)%nat -> a_keep send = Z.ones (Z.of_nat (o + (n - o) `min` k)) ->
  le_bytes n (a_data send) = front ++ le_bytes (n - o) (a_data c) ->
  exists out, runs (lshiftWordByOctet W offset) (mk_lshift first false p ([c] ++ rest)) (mk_lshift true false c rest) out /\
    packet n out (front ++ take k (le_bytes n (a_data c))).
Proof.
  intros Hk Hck Hf Hc Hl Hkeep Hdata. destruct (Nat.leb_spec k (n - o)) as [Hle|Hgt].
  - rewrite bool_decide_eq_true_2 in Hc, Hl by done. exists [send]. split; [by apply runs_one|].
    eapply (packet_one n send (o + k)); [done | rewrite Hkeep; do 2 f_equal; lia | lia |].
    rewrite Hdata, take_app_ge by lia. f_equal. rewrite !take_le_bytes_le by lia. f_equal. lia.
  - rewrite bool_decide_eq_false_2 in Hc, Hl by lia.
    set (rem := lshift_join W offset c (mk_axis 0 0 false) true). exists ([send] ++ [rem]). split.
    + eapply runs_step; [exact Hc|]. by apply runs_one.
    + eapply packet_cons; [done | rewrite Hkeep; do 2 f_equal; lia | |].
      * eapply (packet_one n rem (k - (n - o))); [done | | lia | done].
        unfold rem. rewrite (lshift_keep c _ _ k 0) by (done || lia). do 2 f_equal. lia.
      * unfold rem. rewrite Hdata, lshift_data, <- app_assoc. f_equal.
        rewrite (take_app_le _ (le_bytes (n - o) (a_data (mk_axis 0 0 false)))) by (rewrite length_drop, length_le_bytes; lia).
        replace k with ((n - o) + (k - (n - o)))%nat at 1 by lia.
        rewrite drop_le_bytes_le, !take_le_bytes_le, le_bytes_app by lia. done.
Qed.

(** The rest of a packet: the bytes of the word before that are still to come,
    and those of the words. *)
Lemma lshift_rest ws l rest p :
  packet n ws l -> a_keep p = Z.ones (Z.of_nat n) ->
  exists p' out, runs (lshiftWordByOctet W offset) (mk_lshift false false p (ws ++ rest)) (mk_lshift true false p' rest) out /\
    packet n out (drop (n - o) (le_bytes n (a_data p)) ++ l).
Proof.
  intros Hws. revert p. induction Hws as [d k Hk|d ws l Hws IH]; intros p Hp.
  - set (c := mk_axis d (Z.ones (Z.of_nat k)) true).
    set (send := lshift_join W offset p c (bool_decide (k <= n - o)%nat)).
    assert (lshiftWordByOctet W offset (mk_lshift false false p ([c] ++ rest)) =
      (mk_lshift true (negb (bool_decide (k <= n - o)%nat)) c rest, [send])) as Hc.
    { cbn [lshiftWordByOctet app]. rewrite offset_nonzero, (lshift_last c k eq_refl). done. }
    assert (a_keep send = Z.ones (Z.of_nat (o + (n - o) `min` k))) as Hkeep.
    { unfold send. rewrite (lshift_keep p c _ n k) by (lia || done). do 2 f_equal. lia. }
    destruct (lshift_tail false p c send k (drop (n - o) (le_bytes n (a_data p))) rest) as (out & Hr & Hout);
      [done.. | rewrite length_drop, length_le_bytes; lia | done | done | done | apply lshift_data |].
    by exists c, out.
  - set (c := mk_axis d (Z.ones (Z.of_nat n)) false).
    destruct (IH c eq_refl) as (p' & out & Hr & Hout).
    exists p', ([lshift_join W offset p c false] ++ out). split.
    + eapply runs_step; [|exact Hr]. cbn [lshiftWordByOctet app]. rewrite offset_nonzero, (lshift_last c n eq_refl).
      by rewrite bool_decide_eq_false_2 by lia.
    + eapply packet_cons; [done | | exact Hout |].
      * rewrite (lshift_keep p c _ n n) by (done || lia). do 2 f_equal. lia.
      * rewrite lshift_data, <- !app_assoc. f_equal. cbn [a_data c]. rewrite app_assoc. f_equal.
        replace n with ((n - o) + o)%nat at 1 by lia. rewrite le_bytes_app, drop_le_bytes_le by lia.
        do 2 f_equal. lia.
Qed.

Hypothesis offset_mask : (o <= 32)%nat.

Lemma lshift_packet ws l rest p :
  packet n ws l ->
  exists p' out, runs (lshiftWordByOctet W offset) (mk_lshift true false p (ws ++ rest)) (mk_lshift true false p' rest) out /\
    packet n out (replicate o 0 ++ l).
Proof.
  intros Hws. destruct Hws as [d k Hk|d ws l Hws].
  - set (c := mk_axis d (Z.ones (Z.of_nat k)) true).
    set (send := lshift_first W offset c (bool_decide (k <= n - o)%nat)).
    destruct (lshift_tail true p c send k (replicate o 0) rest) as (out & Hr & Hout); try done.
    + by rewrite length_replicate.
    + cbn [lshiftWordByOctet app]. by rewrite offset_nonzero, (lshift_last c k eq_refl).
    + unfold send. by rewrite (lshift_first_keep c _ k) by (lia || done).
    + apply lshift_first_data.
    + by exists c, out.
  - set (c := mk_axis d (Z.ones (Z.of_nat n)) false).
    destruct (lshift_rest ws l rest c Hws eq_refl) as (p' & out & Hr & Hout).
    exists p', ([lshift_first W offset c false] ++ out). split.
    + eapply runs_step; [|exact Hr]. cbn [lshiftWordByOctet app]. rewrite offset_nonzero, (lshift_last c n eq_refl).
      by rewrite bool_decide_eq_false_2 by lia.
    + eapply packet_cons; [done | | exact Hout |].
      * rewrite (lshift_first_keep c _ n) by (done || lia). do 2 f_equal. lia.
      * rewrite lshift_first_data, <- !app_assoc. f_equal. cbn [a_data c]. rewrite app_assoc. f_equal.
        replace n with ((n - o) + o)%nat at 1 by lia. rewrite le_bytes_app, drop_le_bytes_le by lia.
        do 2 f_equal. lia.
Qed.

Lemma lshift_packets ws ls p :
  packet_stream n ws ls ->
  exists p' out, runs (lshiftWordByOctet W offset) (mk_lshift true false p ws) (mk_lshift true false p' []) out /\
    packet_stream n out ((fun l => replicate o 0 ++ l) <$> ls).
Proof.
  intros Hws. revert p. induction Hws as [|ws l s ls Hw Hs IH]; intros p.
  - exists p, []. split; [apply runs_refl | constructor].
  - destruct (lshift_packet ws l s p Hw) as (p1 & o1 & Hr1 & Ho1).
    destruct (IH p1) as (p2 & o2 & Hr2 & Ho2). exists p2, (o1 ++ o2).
    split; [by eapply runs_trans | by constructor].
Qed.
End shifts.

(** Making room for a header of [o] bytes and taking it away again: whatever
    packets are on the stream, and wherever they end in a word, the left shift
    puts [o] bytes in front of each, and the right shift of that is a stream of
    packets with the original bytes. *)
Theorem shift_roundtrip (n o : nat) ws ls :
  (0 < o < n)%nat -> (o <= 32)%nat -> packet_stream n ws ls ->
  let W := 8 * Z.of_nat n in
  exists s1 mid s2 out,
    runs (lshiftWordByOctet W (Z.of_nat o)) (lshift_init ws) s1 mid /\ ls_input s1 = [] /\
    packet_stream n mid ((fun l => replicate o 0 ++ l) <$> ls) /\
    runs (rshiftWordByOctet W (Z.of_nat o)) (rshift_init (Z.of_nat o) mid) s2 out /\ rs_input s2 = [] /\
    packet_stream n out ls.
Proof.
  intros Ho Hm Hs W. destruct (lshift_packets n o Ho Hm ws ls (mk_axis 0 0 false) Hs) as (p1 & mid & Hr1 & Hmid).
  destruct (rshift_packets n o Ho mid ((fun l => replicate o 0 ++ l) <$> ls) (mk_axis 0 0 false) Hmid) as (p2 & out & Hr2 & Hout).
  { apply Forall_fmap, Forall_forall. intros l Hl. cbn. rewrite length_app, length_replicate.
    pose proof (packet_stream_length n ws ls l Hs Hl). lia. }
  exists (mk_lshift true false p1 []), mid, (mk_rshift false true p2 []), out. split_and!; try done.
  - unfold rshift_init. by rewrite (offset_nonzero n o Ho).
  - rewrite <- list_fmap_compose in Hout. replace ls with ((drop o ∘ (fun l => replicate o 0 ++ l)) <$> ls); [done|].
    rewrite <- (list_fmap_id ls) at 2. apply list_fmap_ext. intros i l Hl. cbn.
    by rewrite drop_app_length' by (by rewrite length_replicate).
Qed.

Lemma shift_roundtrip_witness :
  let ws := [mk_axis 0x04030201 0xF false; mk_axis 0x99990605 0x3 true; mk_axis 0x0A090807 0xF true] in
  packet_stream 4 ws [[1; 2; 3; 4; 5; 6]; [7; 8; 9; 10]] /\
  exists s1 mid s2 out,
    runs (lshiftWordByOctet 32 3) (lshift_init ws) s1 mid /\ ls_input s1 = [] /\
    packet_stream 4 mid ((fun l => replicate 3 0 ++ l) <$> [[1; 2; 3; 4; 5; 6]; [7; 8; 9; 10]]) /\
    runs (rshiftWordByOctet 32 3) (rshift_init 3 mid) s2 out /\ rs_input s2 = [] /\
    packet_stream 4 out [[1; 2; 3; 4; 5; 6]; [7; 8; 9; 10]].
Proof.
  intros ws. assert (packet_stream 4 ws [[1; 2; 3; 4; 5; 6]; [7; 8; 9; 10]]) as Hs.
  { apply (stream_cons 4 [mk_axis 0x04030201 0xF false; mk_axis 0x99990605 0x3 true] _
             [mk_axis 0x0A090807 0xF true] [[7; 8; 9; 10]]).
    - apply (packet_more 4 0x04030201 [mk_axis 0x99990605 0x3 true] [5; 6]), (packet_last 4 0x99990605 2). lia.
    - apply (stream_cons 4 [mk_axis 0x0A090807 0xF true] _ [] []); [|constructor].
      apply (packet_last 4 0x0A090807 4). lia. }
  split; [exact Hs|]. apply (shift_roundtrip 4 3 ws); [lia | lia | exact Hs].
Defined.

(** ** The merger of packets

    A packet of the first stream that starts while this stream has priority is
    continued with words of the second. *)
Lemma fair_pkg_merger_mixes :
  let w d last := mk_axis d 0xF last in
  calls fair_pkg_merger 2 (mk_fairPkg IDLE true [w 1 false; w 2 true] [w 3 false; w 4 true]) =
    (mk_fairPkg FWD1 true [w 2 true] [w 4 true], [w 1 false; w 3 false]).
Proof. reflexivity. Qed.
