(* ===== verification/Wire.v ===== *)
(** Packets on the wire, for every protocol: the header in the first word of a
    packet, processes that pass the words of a packet through, and the pair of
    steps with which every module puts a header in front of a payload (shift,
    then write the header into the gap) or takes it off. *)
From stdpp Require Import base numbers list strings.
From Stdlib Require Import ZArith Lia.
From S2P Require Import Prelude Axi Streams StreamsFacts.

Local Open Scope Z_scope.

(** ** Headers in the first word *)

Lemma le_bytes_inj (n : nat) (x y : Z) : fits (8 * Z.of_nat n) x -> fits (8 * Z.of_nat n) y -> le_bytes n x = le_bytes n y -> x = y.
Proof. intros Hx Hy E. rewrite <- (wrap_small _ _ Hx), <- (wrap_small _ _ Hy), <- !le_val_bytes. by rewrite E. Qed.

Lemma le_bytes_set (n m : nat) (d v : Z) :
  (m <= n)%nat -> le_bytes n (set_bits d 0 (8 * Z.of_nat m) v) = le_bytes m v ++ drop m (le_bytes n d).
Proof.
  intros. rewrite drop_le_bytes_le by lia. replace n with (m + (n - m))%nat at 1 by lia. rewrite le_bytes_app.
  f_equal; apply le_bytes_ext; intros i Hi; rewrite ?Z.shiftr_spec, set_bits_testbit by lia.
  - replace ((0 <=? i) && (i <? 0 + 8 * Z.of_nat m)) with true by lia. f_equal. lia.
  - by replace ((0 <=? i + 8 * Z.of_nat m) && (i + 8 * Z.of_nat m <? 0 + 8 * Z.of_nat m)) with false by lia.
Qed.

(** The same for bytes in the middle of a word. *)
Lemma le_bytes_set_at (n a m : nat) (d v : Z) :
  (a + m <= n)%nat ->
  le_bytes n (set_bits d (8 * Z.of_nat a) (8 * Z.of_nat m) v) =
    take a (le_bytes n d) ++ le_bytes m v ++ drop (a + m) (le_bytes n d).
Proof.
  intros. rewrite take_le_bytes_le, drop_le_bytes_le by lia. replace n with (a + (m + (n - (a + m))))%nat at 1 by lia.
  rewrite !le_bytes_app. f_equal; [|f_equal]; apply le_bytes_ext; intros i Hi; rewrite ?Z.shiftr_spec, set_bits_testbit by lia.
  - by replace ((8 * Z.of_nat a <=? i) && (i <? 8 * Z.of_nat a + 8 * Z.of_nat m)) with false by lia.
  - replace ((8 * Z.of_nat a <=? i + 8 * Z.of_nat a) && (i + 8 * Z.of_nat a <? 8 * Z.of_nat a + 8 * Z.of_nat m)) with true by lia.
    f_equal. lia.
  - replace (i + 8 * Z.of_nat m + 8 * Z.of_nat a) with (i + 8 * Z.of_nat (a + m)) by lia.
    rewrite (proj2 (Z.ltb_ge _ _)) by lia. by rewrite andb_false_r.
Qed.

(** The first [m] bytes of a packet replaced. *)
Definition patch (m : nat) (v : Z) (ws : list net_axis) : list net_axis :=
  match ws with
  | w :: ws' => mk_axis (set_bits (a_data w) 0 (8 * Z.of_nat m) v) (a_keep w) (a_last w) :: ws'
  | [] => []
  end.

Lemma packet_patch (n m : nat) v ws l :
  packet n ws l -> (m <= n)%nat -> (m <= length l)%nat -> packet n (patch m v ws) (le_bytes m v ++ drop m l).
Proof.
  intros Hw Hm Hl. destruct Hw as [d k Hk|d ws l Hw]; cbn.
  - rewrite length_take, length_le_bytes in Hl. eapply (packet_one n _ k); [done..|]. cbn.
    rewrite le_bytes_set, take_app_ge, length_le_bytes by (rewrite ?length_le_bytes; lia).
    by rewrite skipn_firstn_comm.
  - eapply packet_cons; [done | done | exact Hw|]. cbn.
    rewrite le_bytes_set, drop_app_le, app_assoc by (rewrite ?length_le_bytes; lia). done.
Qed.

Lemma packet_first (n m : nat) w ws l :
  packet n (w :: ws) l -> (m <= n)%nat -> (m <= length l)%nat -> take m l = le_bytes m (a_data w).
Proof.
  intros Hw Hm Hl. inversion Hw as [d k Hk|d ws' l' Hw']; subst; cbn [a_data].
  - rewrite length_take, length_le_bytes in Hl. rewrite take_take, take_le_bytes_le by lia. f_equal. lia.
  - rewrite take_app_le by (rewrite length_le_bytes; lia). by apply take_le_bytes_le.
Qed.

Lemma packet_nonempty n ws l : packet n ws l -> exists w ws', ws = w :: ws'.
Proof. destruct 1; by eexists _, _. Qed.

(** Bytes in the first word of a packet replaced. *)
Definition patch_at (a m : nat) (v : Z) (ws : list net_axis) : list net_axis :=
  match ws with
  | w :: ws' => mk_axis (set_bits (a_data w) (8 * Z.of_nat a) (8 * Z.of_nat m) v) (a_keep w) (a_last w) :: ws'
  | [] => []
  end.

Lemma packet_patch_at (n a m : nat) v ws l :
  packet n ws l -> (a + m <= n)%nat -> (a + m <= length l)%nat ->
  packet n (patch_at a m v ws) (take a l ++ le_bytes m v ++ drop (a + m) l).
Proof.
  intros Hw Hm Hl. destruct Hw as [d k Hk|d ws l Hw]; cbn.
  - rewrite length_take, length_le_bytes in Hl. eapply (packet_one n _ k); [done..|]. cbn [a_data].
    rewrite le_bytes_set_at, (take_app_ge (take a _)) by (rewrite ?length_take, ?length_le_bytes; lia).
    rewrite take_app_ge by (rewrite ?length_take, ?length_le_bytes; lia).
    rewrite take_take, skipn_firstn_comm, length_take, !length_le_bytes.
    replace (a `min` k)%nat with a by lia. by replace (k - a `min` n - m)%nat with (k - (a + m))%nat by lia.
  - rewrite length_app, length_le_bytes in Hl. eapply packet_cons; [done | done | exact Hw |]. cbn [a_data].
    rewrite le_bytes_set_at, take_app_le, drop_app_le by (rewrite ?length_le_bytes; lia). by rewrite <- !app_assoc.
Qed.

(** The two shapes of a packet. *)
Lemma packet_cases n w ws l :
  packet n (w :: ws) l ->
  (exists d k, (1 <= k <= n)%nat /\ w = mk_axis d (Z.ones (Z.of_nat k)) true /\ ws = [] /\ l = take k (le_bytes n d)) \/
  (exists d l1, w = mk_axis d (Z.ones (Z.of_nat n)) false /\ packet n ws l1 /\ l = le_bytes n d ++ l1).
Proof. inversion 1; subst; [left | right]; eauto 10. Qed.

(** Processes that pass the words of a packet through and fall back to another
    state with the last. *)
Lemma forward_out {S O : Type} (f : S -> S * list O) (g : net_axis -> O) (n : nat) (at_ final : list net_axis -> S) :
  (forall w input, f (at_ (w :: input)) = (if a_last w then final input else at_ input, [g w])) ->
  forall ws l rest, packet n ws l -> runs f (at_ (ws ++ rest)) (final rest) (g <$> ws).
Proof.
  intros Hf ws l rest Hw. induction Hw as [d k Hk|d ws l Hw IH].
  - apply runs_one. apply Hf.
  - rewrite fmap_cons. apply (runs_step _ _ (at_ (ws ++ rest)) _ [_] (g <$> ws)); [apply Hf | exact IH].
Qed.

Lemma forward_packet {S : Type} (f : S -> S * list net_axis) (n : nat) (at_ final : list net_axis -> S) :
  (forall w input, f (at_ (w :: input)) = (if a_last w then final input else at_ input, [w])) ->
  forall ws l rest, packet n ws l -> runs f (at_ (ws ++ rest)) (final rest) ws.
Proof. intros Hf ws l rest Hw. rewrite <- (list_fmap_id ws) at 2. by eapply (forward_out f id). Qed.

(** ** Shifts *)

(** [shifted W m ws out]: [out] is what the left shift by [m] bytes makes of the
    stream [ws]; a module without a header does not shift. *)
Definition shifted (W : Z) (m : nat) (ws out : list net_axis) : Prop :=
  if decide (m = 0%nat) then out = ws
  else exists s, runs (lshiftWordByOctet W (Z.of_nat m)) (lshift_init ws) s out /\ ls_input s = [].

Definition unshifted (W : Z) (m : nat) (ws out : list net_axis) : Prop :=
  if decide (m = 0%nat) then out = ws
  else exists s, runs (rshiftWordByOctet W (Z.of_nat m)) (rshift_init (Z.of_nat m) ws) s out /\ rs_input s = [].

(** ** Writing and reading a header that fits a word *)

Lemma consume_partial (W h v d : Z) :
  0 < h < W -> consumeWord W h (mk_header false 0 v) d = (mk_header false 1 v, set_bits d 0 h (bits v 0 h), 0).
Proof.
  intros. unfold consumeWord. replace ((0 + 1) * W <=? h) with false by lia. replace (0 * W <? h) with true by lia.
  rewrite Z.mul_0_l, Z.sub_0_r, Z.mod_small by lia. done.
Qed.

Lemma parse_whole (W h v d : Z) : 0 < h < W -> parseWord W h (mk_header false 0 v) d = mk_header true 1 (set_bits v 0 h d).
Proof. intros. unfold parseWord. replace (0 * W + W <? h) with false by lia. rewrite Z.mul_0_l, Z.sub_0_r. done. Qed.

Section wire.
Context (W : Z) (n : nat).
Hypothesis width : W = 8 * Z.of_nat n.

Lemma shifted_packet (m : nat) ws l :
  (m < n)%nat -> (m <= 32)%nat -> packet n ws l -> exists out, shifted W m ws out /\ packet n out (replicate m 0 ++ l).
Proof.
  intros Hm H32 Hw. unfold shifted. destruct (decide (m = 0%nat)) as [->|Hne]; [by exists ws|]. rewrite width.
  destruct (lshift_packet n m ltac:(lia) ltac:(lia) ws l [] (mk_axis 0 0 false) Hw) as (p & out & Hr & Hout).
  rewrite app_nil_r in Hr. exists out. split; [|done]. by eexists.
Qed.

Lemma unshifted_packet (m : nat) ws l :
  (m < n)%nat -> (m < length l)%nat -> packet n ws l -> exists out, unshifted W m ws out /\ packet n out (drop m l).
Proof.
  intros Hm Hl Hw. unfold unshifted. destruct (decide (m = 0%nat)) as [->|Hne]; [by exists ws|]. rewrite width.
  destruct (rshift_packet n m ltac:(lia) ws l [] (mk_axis 0 0 false) Hw Hl) as (p & out & Hr & Hout).
  rewrite app_nil_r in Hr. exists out. split; [|done].
  exists (mk_rshift false true p []). split; [|done].
  unfold rshift_init. rewrite (offset_nonzero n m) by lia. exact Hr.
Qed.

Lemma patched (m : nat) (v d : Z) ws l :
  (m <= n)%nat -> packet n ws (replicate m 0 ++ l) -> le_bytes m d = le_bytes m v ->
  packet n (patch m (bits d 0 (8 * Z.of_nat m)) ws) (le_bytes m v ++ l).
Proof.
  intros Hm Hw Hd. pose proof (packet_patch n m (bits d 0 (8 * Z.of_nat m)) _ _ Hw) as Hp.
  rewrite length_app, length_replicate, drop_app_length' in Hp by (by rewrite length_replicate).
  rewrite (le_bytes_bits m), Z.shiftr_0_r, Hd in Hp by lia. apply Hp; lia.
Qed.

Lemma header_word (m : nat) (fill v : Z) : le_bytes m (set_bits fill 0 (8 * Z.of_nat m) (bits v 0 (8 * Z.of_nat m))) = le_bytes m v.
Proof.
  rewrite le_bytes_set, drop_ge, app_nil_r by (rewrite ?length_le_bytes; lia).
  by rewrite le_bytes_bits, Z.shiftr_0_r by lia.
Qed.

Lemma first_header (m : nat) (v : Z) w ws l (h : packetHeader) :
  (m <= n)%nat -> packet n (w :: ws) (le_bytes m v ++ l) -> fits (8 * Z.of_nat m) v -> fits (8 * Z.of_nat m) (h_header h) ->
  set_bits (h_header h) 0 (8 * Z.of_nat m) (a_data w) = v.
Proof.
  intros Hm Hw Hv Hh. apply (le_bytes_inj m); [by apply set_bits_fits; lia || done | done |].
  rewrite le_bytes_set, drop_ge, app_nil_r by (rewrite ?length_le_bytes; lia).
  rewrite <- (packet_first n m w ws (le_bytes m v ++ l)) by (done || lia || rewrite length_app, length_le_bytes; lia).
  by rewrite take_app_length' by (by rewrite length_le_bytes).
Qed.

End wire.

(** ** Modules on a packet *)

(** A module that looks at the first word of a packet and passes the words on:
    [first] is what it writes for that word. *)
Lemma observe_packet {S O : Type} (f : S -> S * list O) (n : nat) (start : S) (later final : list net_axis -> S)
    (g : net_axis -> O) (first : list O) w ws l :
  packet n (w :: ws) l ->
  f start = (if a_last w then final ws else later ws, first) ->
  (forall w input, f (later (w :: input)) = (if a_last w then final input else later input, [g w])) ->
  runs f start (final []) (first ++ (g <$> ws)).
Proof.
  intros Hw Hf Hl. inversion Hw as [d k Hk|d ws1 l1 Hw1]; subst; cbn [a_last] in Hf.
  - rewrite app_nil_r. by apply runs_one.
  - eapply runs_step; [exact Hf|]. pose proof (forward_out f g n later final Hl ws l1 [] Hw1) as Hr. by rewrite app_nil_r in Hr.
Qed.

(** What is written for later words, on the stream of the words and on others. *)
Lemma omap_words {O : Type} (p : O -> option net_axis) (g : net_axis -> O) (ws : list net_axis) :
  (forall w, p (g w) = Some w) -> omap p (g <$> ws) = ws.
Proof. intros Hp. induction ws as [|w ws IH]; [done|]. cbn. by rewrite Hp, IH. Qed.

Lemma omap_none {O A : Type} (p : O -> option A) (g : net_axis -> O) (ws : list net_axis) :
  (forall w, p (g w) = None) -> omap p (g <$> ws) = [].
Proof. intros Hp. induction ws as [|w ws IH]; [done|]. cbn. by rewrite Hp, IH. Qed.

(** A module that writes a header of [m] bytes into the gap in front of a
    packet. *)
Lemma prepend_packet {S : Type} (f : S -> S * list net_axis) (n m : nat) (v : Z) (partial body final : list net_axis -> S) ws l :
  (m <= n)%nat -> packet n ws (replicate m 0 ++ l) ->
  (forall w input, f (partial (w :: input)) =
     (if a_last w then final input else body input,
      [mk_axis (set_bits (a_data w) 0 (8 * Z.of_nat m) (bits v 0 (8 * Z.of_nat m))) (a_keep w) (a_last w)])) ->
  (forall w input, f (body (w :: input)) = (if a_last w then final input else body input, [w])) ->
  exists out, runs f (partial ws) (final []) out /\ packet n out (le_bytes m v ++ l).
Proof.
  intros Hm Hw Hp Hb. exists (patch m (bits v 0 (8 * Z.of_nat m)) ws). split; [|by apply (patched n m v v)].
  destruct (packet_nonempty _ _ _ Hw) as (w & ws' & ->). cbn [patch].
  pose proof (observe_packet f n (partial (w :: ws')) body final id _ w ws' _ Hw (Hp w ws') Hb) as Hr.
  by rewrite list_fmap_id in Hr.
Qed.
