(* ===== verification/Ipv4.v ===== *)
(** The IPv4 module ([ipv4.hpp], [ipv4.cpp], [ipv4_utils.cpp]): the header, its
    checksum, and the processes that put the header in front of a packet and
    take it off again.  Each process is a function of its static variables and
    input streams; a call is one iteration.  [W] is the width of the words. *)
From stdpp Require Import base numbers list strings.
From Stdlib Require Import ZArith Lia.
From S2P Require Import Prelude Axi Streams.

Local Open Scope Z_scope.

(** ** Header and meta data *)

Definition IPV4_HEADER_SIZE : Z := 160.

Record ipv4Meta : Type := mk_ipv4Meta { im_their_address : Z; im_length : Z }.
Definition ipv4Meta_new (addr len : Z) : ipv4Meta := mk_ipv4Meta addr len.
(** From an address of 128 bits, of which the uppermost 32 are taken. *)
Definition ipv4Meta_new128 (addr len : Z) : ipv4Meta := mk_ipv4Meta (bits addr 96 32) len.

(** Version, header length and time to live. *)
Definition ipv4Header : packetHeader := mk_header false 0 (set_bits (set_bits 0 0 8 0x45) 64 8 0x40).

Definition ip_setSrcAddr (h addr : Z) : Z := set_bits h 96 32 addr.
Definition ip_getSrcAddr (h : Z) : Z := bits h 96 32.
Definition ip_setDstAddr (h addr : Z) : Z := set_bits h 128 32 addr.
Definition ip_getDstAddr (h : Z) : Z := bits h 128 32.
Definition ip_setLength (h len : Z) : Z := set_bits h 16 16 (reverse 2 len).
Definition ip_getLength (h : Z) : Z := reverse 2 (bits h 16 16).
Definition ip_setProtocol (h protocol : Z) : Z := set_bits h 72 8 protocol.
Definition ip_getProtocol (h : Z) : Z := bits h 72 8.
Definition ip_getHeaderLength (h : Z) : Z := bits h 0 4.

(** ** [process_ipv4] *)

Record pip : Type := mk_pip { ip_header : packetHeader; ip_headerWordsDropped : Z; ip_metaWritten : bool; ip_dataIn : list net_axis }.
Inductive pip_out : Type :=
| IpWord (w : net_axis)          (* dataOut *)
| IpDropLength (l : Z)           (* process2dropLengthFifo *)
| IpMeta (m : ipv4Meta).         (* MetaOut *)

Definition pip_init (input : list net_axis) : pip := mk_pip ipv4Header 0 false input.

Section process_ipv4.
Context (W : Z).

Definition process_ipv4 (s : pip) : pip * list pip_out :=
  match s with
  | mk_pip h dropped written (w :: input) =>
      let h' := parseWord W IPV4_HEADER_SIZE h (a_data w) in
      let v := h_header h' in
      let written' := written || h_ready h' in
      let out := if h_ready h' then
                   IpWord w :: if written then [] else
                     [IpDropLength (wrap 4 (ip_getHeaderLength v - dropped));
                      IpMeta (ipv4Meta_new (ip_getSrcAddr v) (ip_getLength v))]
                 else [] in
      (if a_last w then mk_pip (header_clear h') 0 false input
       else mk_pip h' (wrap 4 (dropped + W / 32)) written' input, out)
  | _ => (s, [])
  end.
End process_ipv4.

(** ** [drop_optional_ip_header] *)

Inductive dohState : Type := DOH_META | DOH_DROP | DOH_BODY | DOH_SHIFT | DOH_LAST | SHIFT_FIVE | LAST_FIVE.

Record doh : Type := mk_doh {
  doh_state : dohState; doh_length : Z; doh_prevWord : net_axis;
  process2dropLengthFifo : list Z; process2dropFifo : list net_axis }.

Definition doh_init (lengths : list Z) (input : list net_axis) : doh := mk_doh DOH_META 0 (mk_axis 0 0 false) lengths input.

Section drop_optional_ip_header.
Context (W : Z).

(** A word shifted by [o] bytes, and what follows it in the state [st]. *)
Definition doh_shift (o : Z) (st last : dohState) (len : Z) (prev c : net_axis) lens input : doh * list net_axis :=
  let send := rshift_join W o prev c (negb (Z.testbit (a_keep c) o)) in
  (mk_doh (if a_last send then DOH_META else if a_last c then last else st) len c lens input, [send]).

Definition drop_optional_ip_header (s : doh) : doh * list net_axis :=
  let '(mk_doh st len prev lens input) := s in
  match st with
  | DOH_META =>
      match lens, input with
      | l :: lens', w :: input' =>
          if (W =? 64) || (W =? 128) then
            if 1 <? l then (mk_doh DOH_DROP l prev lens' input, [])
            else (mk_doh DOH_SHIFT l w lens' input', [])
          else if ((W =? 256) || (W =? 512)) && (l =? 5) then
            (mk_doh (if a_last w then LAST_FIVE else SHIFT_FIVE) l w lens' input', [])
          else (mk_doh DOH_META l prev lens' input, [])
      | _, _ => (s, [])
      end
  | DOH_DROP =>
      match input with
      | w :: input' =>
          let len' := wrap 4 (len - 2) in
          (mk_doh (if len' =? 1 then DOH_SHIFT else if len' =? 0 then DOH_BODY else DOH_DROP) len' w lens input', [])
      | [] => (s, [])
      end
  | DOH_BODY =>
      match input with
      | w :: input' => (mk_doh (if a_last w then DOH_META else DOH_BODY) len prev lens input', [w])
      | [] => (s, [])
      end
  | DOH_SHIFT =>
      match input with
      | c :: input' => doh_shift 4 DOH_SHIFT DOH_LAST len prev c lens input'
      | [] => (s, [])
      end
  | SHIFT_FIVE =>
      match input with
      | c :: input' => doh_shift 20 SHIFT_FIVE LAST_FIVE len prev c lens input'
      | [] => (s, [])
      end
  | DOH_LAST => (mk_doh DOH_META len prev lens input, [rshift_join W 4 prev (mk_axis 0 0 false) true])
  | LAST_FIVE => (mk_doh DOH_META len prev lens input, [rshift_join W 20 prev (mk_axis 0 0 false) true])
  end.
End drop_optional_ip_header.

(** The copy that builds with Vitis use. *)
Definition ipv4_drop_optional_ip_header := drop_optional_ip_header.

(** ** [generate_ipv4] *)

Inductive giIpState : Type := GIP_META | GIP_HEADER | GIP_PARTIAL | GIP_BODY.

Record gip : Type := mk_gip {
  gip_state : giIpState; gip_header : packetHeader; gip_metaIn : list ipv4Meta; gip_dataIn : list net_axis }.

Definition gip_init (metas : list ipv4Meta) (input : list net_axis) : gip := mk_gip GIP_META ipv4Header metas input.

Section generate_ipv4.
Context (W local_ipv4_address protocol : Z).
(** What a new word holds. *)
Context (fill : Z).

(** The header as it is filled in: length, addresses and protocol. *)
Definition ip_fill (v : Z) (m : ipv4Meta) : Z :=
  ip_setProtocol (ip_setSrcAddr (ip_setDstAddr (ip_setLength v (u16 (im_length m + 20))) (im_their_address m))
                    local_ipv4_address) protocol.

Definition generate_ipv4 (s : gip) : gip * list net_axis :=
  let '(mk_gip st h metas input) := s in
  match st with
  | GIP_META =>
      match metas with
      | m :: metas' =>
          (mk_gip (if W <=? IPV4_HEADER_SIZE then GIP_HEADER else GIP_PARTIAL)
             (mk_header false 0 (ip_fill (h_header h) m)) metas' input, [])
      | [] => (s, [])
      end
  | GIP_HEADER =>
      let '(h', d, remaining) := consumeWord W IPV4_HEADER_SIZE h fill in
      (mk_gip (if remaining <? W / 8 then GIP_PARTIAL else GIP_HEADER) h' metas input,
       [mk_axis d (wrap (W / 8) 0xFFFFFFFF) false])
  | GIP_PARTIAL =>
      match input with
      | w :: input' =>
          let '(h', d, _) := consumeWord W IPV4_HEADER_SIZE h (a_data w) in
          (mk_gip (if a_last w then GIP_META else GIP_BODY) h' metas input', [mk_axis d (a_keep w) (a_last w)])
      | [] => (s, [])
      end
  | GIP_BODY =>
      match input with
      | w :: input' => (mk_gip (if a_last w then GIP_META else GIP_BODY) h metas input', [w])
      | [] => (s, [])
      end
  end.
End generate_ipv4.

Definition ipv4_generate_ipv4 := generate_ipv4.

(** ** The checksum *)

(** One sum of 17 bits: addition with the carry taken around. *)
Definition add_sum (s t : Z) : Z :=
  let x := wrap 17 (s + t) in Z.land (x + Z.shiftr x 16) 0xFFFF.

(** The [i]th 16-bit word of a bus word, in host order. *)
Definition be16 (d : Z) (i : nat) : Z := reverse 2 (bits d (16 * Z.of_nat i) 16).

(** Each of the sums takes the 16-bit word at its place, if [p] says so. *)
Definition sum_words (p : nat -> bool) (d : Z) (sums : list Z) : list Z :=
  imap (fun i s => if p i then add_sum s (be16 d i) else s) sums.

(** [cics_wordCount] is the flag [cics_firstWord] for words of 512 bits: 0 is
    the first word. *)
Record cics : Type := mk_cics { cics_sums : list Z; cics_headerLen : Z; cics_wordCount : Z; cics_dataIn : list net_axis }.
Inductive cics_out : Type :=
| CsWord (w : net_axis)        (* dataOut *)
| CsSums (l : list Z).         (* subSumFiFoOut *)

Definition cics_init (N : nat) (input : list net_axis) : cics := mk_cics (replicate N 0) 0 0 input.

(** The words after those with a case of their own: [L] is the number of 32-bit
    words in a bus word. *)
Definition cics_rest (L : Z) (d : Z) (sums : list Z) (len : Z) : list Z * Z * list cics_out :=
  if len =? 0 then (sums, len, [])
  else if len <? L then
    let sums' := sum_words (fun i => Z.of_nat i <? 2 * len) d sums in (sums', 0, [CsSums sums'])
  else
    let sums' := sum_words (fun _ => true) d sums in
    (sums', wrap 4 (len - L), if len =? L then [CsSums sums'] else []).

(** The sums are cleared after the last word. *)
Definition cics_next (N : nat) (w : net_axis) (wc : Z) (input : list net_axis) (r : list Z * Z * list cics_out) : cics * list cics_out :=
  let '(sums, len, out) := r in
  (if a_last w then mk_cics (replicate N 0) len 0 input else mk_cics sums len wc input, CsWord w :: out).

Section compute_ipv4_checksum.
Context (skipChecksum : bool).

Definition compute_ipv4_checksum_64 (s : cics) : cics * list cics_out :=
  match s with
  | mk_cics sums len wc (w :: input) =>
      let d := a_data w in
      if wc =? 0 then
        cics_next 4 w 1 input (sum_words (fun _ => true) d sums, wrap 4 (bits d 0 4 - 2), [])
      else if wc =? 1 then
        cics_next 4 w 2 input
          (sum_words (fun i => negb skipChecksum || negb (i =? 1)%nat) d sums, wrap 4 (len - 2), [])
      else cics_next 4 w wc input (cics_rest 2 d sums len)
  | _ => (s, [])
  end.

Definition compute_ipv4_checksum_128 (s : cics) : cics * list cics_out :=
  match s with
  | mk_cics sums len wc (w :: input) =>
      let d := a_data w in
      if wc =? 0 then
        cics_next 8 w 1 input
          (sum_words (fun i => negb skipChecksum || negb (i =? 5)%nat) d sums, wrap 4 (bits d 0 4 - 4), [])
      else cics_next 8 w wc input (cics_rest 4 d sums len)
  | _ => (s, [])
  end.

(** The 16-bit words of the header in the first bus word. *)
Definition in_header (len : Z) (i : nat) : bool :=
  (negb skipChecksum || negb (i =? 5)%nat) && (Z.of_nat i / 2 <? len).

Definition compute_ipv4_checksum_256 (s : cics) : cics * list cics_out :=
  match s with
  | mk_cics sums len wc (w :: input) =>
      let d := a_data w in
      if wc =? 0 then
        let sums' := sum_words (in_header (bits d 0 4)) d sums in
        cics_next 16 w 1 input
          (if 8 <? bits d 0 4 then (sums', wrap 4 (bits d 0 4 - 8), []) else (sums', 0, [CsSums sums']))
      else cics_next 16 w wc input (cics_rest 8 d sums len)
  | _ => (s, [])
  end.

Definition compute_ipv4_checksum_512 (s : cics) : cics * list cics_out :=
  match s with
  | mk_cics sums len wc (w :: input) =>
      let d := a_data w in
      if wc =? 0 then
        let sums' := sum_words (in_header (bits d 0 4)) d sums in
        cics_next 32 w 1 input (sums', bits d 0 4, [CsSums sums'])
      else cics_next 32 w wc input (sums, len, [])
  | _ => (s, [])
  end.

(** The overload for words of [W] bits. *)
Definition compute_ipv4_checksum (W : Z) : cics -> cics * list cics_out :=
  if W =? 64 then compute_ipv4_checksum_64 else if W =? 128 then compute_ipv4_checksum_128
  else if W =? 256 then compute_ipv4_checksum_256 else compute_ipv4_checksum_512.
End compute_ipv4_checksum.

Definition mac_compute_ipv4_checksum := compute_ipv4_checksum_512.
Definition ip_handler_compute_ipv4_checksum := compute_ipv4_checksum_512.

(** The first [k] sums take the [k] after them. *)
Definition fold_half (sums : list Z) (k : nat) : list Z :=
  imap (fun i s => if (i <? k)%nat then add_sum s (nth (i + k) sums 0) else s) sums.

(** The tree for [N] sums, and the complement of its result. *)
Definition fold_sums (N : nat) (sums : list Z) : Z :=
  let tree := foldl (fun s k => if (k <=? 2)%nat || (2 * k <=? N)%nat then fold_half s k else s) sums [16; 8; 4; 2; 1]%nat in
  bits (wrap 17 (Z.lnot (nth 0 tree 0))) 0 16.

Definition finalize_ipv4_checksum (N : nat) (s : list (list Z)) : list (list Z) * list Z :=
  match s with
  | sums :: s' => (s', [fold_sums N sums])
  | [] => (s, [])
  end.

Definition mac_finalize_ipv4_checksum := finalize_ipv4_checksum.

Definition toe_check_ipv4_checksum (N : nat) (s : list (list Z)) : list (list Z) * list bool :=
  match s with
  | sums :: s' => (s', [fold_sums N sums =? 0])
  | [] => (s, [])
  end.

Definition ip_handler_check_ipv4_checksum := toe_check_ipv4_checksum.
