(* ===== verification/Ipv4Facts.v ===== *)
(** Theorems on the IPv4 module (Ipv4): the checksum is that of RFC 1071 for
    every width of the words, and a header with the checksum inserted passes the
    check. *)
From stdpp Require Import base numbers list strings.
From Stdlib Require Import ZArith Lia.
From S2P Require Import Prelude Axi Streams StreamsFacts Wire Ipv4.

Local Open Scope Z_scope.

(** ** Ones' complement sums *)

(** The ones' complement sum of numbers whose ordinary sum is [x]. *)
Definition oc (x : Z) : Z := if x =? 0 then 0 else (x - 1) mod 65535 + 1.

Fixpoint sumZ (l : list Z) : Z :=
  match l with
  | [] => 0
  | x :: l' => x + sumZ l'
  end.

(** The bytes of a packet as 16-bit words, the first byte above the second. *)
Fixpoint words_be (l : list Z) : list Z :=
  match l with
  | a :: b :: l' => (256 * a + b) :: words_be l'
  | [a] => [256 * a]
  | [] => []
  end.

(** RFC 1071: the complement of the ones' complement sum of the words. *)
Definition internet_checksum (l : list Z) : Z := 65535 - oc (sumZ (words_be l)).

Lemma oc_range (x : Z) : 0 <= x -> 0 <= oc x <= 65535.
Proof. intros. unfold oc. destruct (Z.eqb_spec x 0); [lia|]. pose proof (Z.mod_pos_bound (x - 1) 65535). lia. Qed.

Lemma oc_small (x : Z) : 0 <= x <= 65535 -> oc x = x.
Proof. intros. unfold oc. destruct (Z.eqb_spec x 0); [lia|]. rewrite Z.mod_small by lia. lia. Qed.

Lemma oc_zero (x : Z) : 0 <= x -> oc x = 0 -> x = 0.
Proof. unfold oc. destruct (Z.eqb_spec x 0); [done|]. pose proof (Z.mod_pos_bound (x - 1) 65535). lia. Qed.

Lemma oc_step (x : Z) : 0 < x -> oc (x + 65535) = oc x.
Proof.
  intros. unfold oc. replace (x + 65535 =? 0) with false by lia. replace (x =? 0) with false by lia.
  replace (x + 65535 - 1) with (x - 1 + 1 * 65535) by lia. by rewrite Z.mod_add by lia.
Qed.

Lemma oc_add_l (x y : Z) : 0 <= x -> 0 <= y -> oc (oc x + y) = oc (x + y).
Proof.
  intros Hx Hy. unfold oc at 2. destruct (Z.eqb_spec x 0) as [->|Hne]; [done|].
  pose proof (Z.mod_pos_bound (x - 1) 65535 ltac:(lia)).
  unfold oc. replace ((x - 1) mod 65535 + 1 + y =? 0) with false by lia. replace (x + y =? 0) with false by lia.
  f_equal. replace (x + y - 1) with ((x - 1) + y) by lia. rewrite <- (Zplus_mod_idemp_l (x - 1)). f_equal. lia.
Qed.

Lemma oc_add_r (x y : Z) : 0 <= x -> 0 <= y -> oc (x + oc y) = oc (x + y).
Proof. intros. rewrite Z.add_comm, oc_add_l by done. f_equal. lia. Qed.

Lemma add_sum_oc (s t : Z) : fits 16 s -> fits 16 t -> add_sum s t = oc (s + t).
Proof.
  unfold fits, add_sum. intros Hs Ht. rewrite wrap_small by (unfold fits; lia).
  change 65535 with (Z.ones 16). rewrite Z.land_ones, Z.shiftr_div_pow2 by lia.
  destruct (Z.lt_ge_cases (s + t) 65536).
  - rewrite (Z.div_small (s + t)) by lia. rewrite Z.add_0_r, Z.mod_small by lia. symmetry. apply oc_small. lia.
  - replace (s + t) with ((s + t - 65536) + 1 * 2 ^ 16) at 2 by lia. rewrite Z.div_add, Z.div_small by lia.
    replace (s + t + (0 + 1)) with ((s + t - 65535) + 1 * 2 ^ 16) by lia. rewrite Z.mod_add, Z.mod_small by lia.
    rewrite <- (oc_small (s + t - 65535)), <- oc_step by lia. f_equal. lia.
Qed.

Lemma fits_oc (x : Z) : 0 <= x -> fits 16 (oc x).
Proof. intros. pose proof (oc_range x). unfold fits. lia. Qed.

Lemma sumZ_app l1 l2 : sumZ (l1 ++ l2) = sumZ l1 + sumZ l2.
Proof. induction l1 as [|x l1 IH]; cbn; [done|]. rewrite IH. lia. Qed.

Lemma sumZ_nonneg (l : list Z) : Forall (fits 16) l -> 0 <= sumZ l.
Proof. induction 1 as [|x l Hx Hl IH]; cbn; [lia|]. unfold fits in Hx. lia. Qed.

(** Sums that each take a number keep the ones' complement of their total. *)
Lemma imap_total (f : nat -> Z -> Z) (g : nat -> Z) (l : list Z) :
  Forall (fits 16) l ->
  (forall i x, (i < length l)%nat -> fits 16 x -> f i x = oc (x + g i) /\ 0 <= g i) ->
  Forall (fits 16) (imap f l) /\ 0 <= sumZ (imap (fun i _ => g i) l) /\
  oc (sumZ (imap f l)) = oc (sumZ l + sumZ (imap (fun i _ => g i) l)).
Proof.
  intros Hl. revert f g. induction Hl as [|x l Hx Hl IH]; intros f g Hf; [by cbn; auto|].
  destruct (IH (f ∘ S) (g ∘ S)) as (H1 & H2 & H3).
  { intros i y Hi Hy. apply Hf; [cbn; lia | done]. }
  destruct (Hf 0%nat x) as [E Hg]; [cbn; lia | done |].
  change (imap f (x :: l)) with (f 0%nat x :: imap (f ∘ S) l).
  change (imap (fun i _ => g i) (x :: l)) with (g 0%nat :: imap (fun i _ => (g ∘ S) i) l).
  unfold fits in Hx. pose proof (sumZ_nonneg l Hl). cbn [sumZ]. split_and!; [|lia|].
  - constructor; [rewrite E; apply fits_oc; lia | exact H1].
  - rewrite E, oc_add_l by (try apply sumZ_nonneg; done || lia).
    rewrite <- oc_add_r, H3, oc_add_r by (try apply sumZ_nonneg; done || lia). f_equal. lia.
Qed.

(** ** The 16-bit words of a bus word *)

Lemma be16_fits d i : fits 16 (be16 d i).
Proof. apply (reverse_fits 2). Qed.

Lemma reverse2 (x : Z) : reverse 2 x = 256 * wrap 8 x + wrap 8 (Z.shiftr x 8).
Proof. unfold reverse. cbn [le_bytes rev app le_val]. rewrite Z.mul_0_r, Z.add_0_r, Z.add_comm. done. Qed.

Lemma be16_bytes d i : be16 d i = 256 * wrap 8 (Z.shiftr d (16 * Z.of_nat i)) + wrap 8 (Z.shiftr d (16 * Z.of_nat i + 8)).
Proof.
  unfold be16. rewrite reverse2. f_equal; [f_equal|].
  - rewrite !wrap_land by lia. apply Z.bits_inj'. intros k Hk.
    rewrite !Z.land_spec, bits_testbit, Z.shiftr_spec, ones_testbit by lia.
    destruct (Z.ltb_spec k 8); [|by rewrite !andb_false_r]. replace (k <? 16) with true by lia. done.
  - rewrite !wrap_land by lia. apply Z.bits_inj'. intros k Hk.
    rewrite !Z.land_spec, !Z.shiftr_spec, bits_testbit, ones_testbit by lia.
    destruct (Z.ltb_spec k 8); [|by rewrite !andb_false_r]. replace (k + 8 <? 16) with true by lia.
    cbn. f_equal. f_equal. lia.
Qed.

Lemma be16_succ d i : be16 d (S i) = be16 (Z.shiftr d 16) i.
Proof.
  rewrite !be16_bytes, !Z.shiftr_shiftr by lia.
  replace (16 * Z.of_nat (S i)) with (16 + 16 * Z.of_nat i) by lia. by rewrite Z.add_assoc.
Qed.

Lemma words_le_bytes (N : nat) d : words_be (le_bytes (2 * N) d) = imap (fun i _ => be16 d i) (replicate N 0).
Proof.
  revert d. induction N as [|N IH]; intros d; [done|]. replace (2 * S N)%nat with (S (S (2 * N))) by lia.
  cbn [le_bytes words_be replicate]. rewrite IH, Z.shiftr_shiftr by lia.
  change (imap (fun i _ => be16 d i) (0 :: replicate N 0)) with (be16 d 0 :: imap (fun i _ => be16 d (S i)) (replicate N 0)).
  f_equal; [by rewrite be16_bytes, Z.mul_0_r, Z.shiftr_0_r|]. apply imap_ext. intros i x _. by rewrite be16_succ.
Qed.

(** ** The sums *)

Definition sums_ok (N : nat) (sums : list Z) : Prop := length sums = N /\ Forall (fits 16) sums.

(** What the words selected by [p] add. *)
Definition added (p : nat -> bool) (d : Z) (N : nat) : Z := sumZ (imap (fun i _ => if p i then be16 d i else 0) (replicate N 0)).

Lemma imap_const {A} (g : nat -> Z) (l : list A) : imap (fun i _ => g i) l = imap (fun i _ => g i) (replicate (length l) 0).
Proof.
  revert g. induction l as [|x l IH]; intros g; [done|]. cbn [length replicate].
  change (imap (fun i _ => g i) (x :: l)) with (g 0%nat :: imap (fun i _ => (g ∘ S) i) l).
  change (imap (fun i _ => g i) (0 :: replicate (length l) 0)) with (g 0%nat :: imap (fun i _ => (g ∘ S) i) (replicate (length l) 0)).
  by rewrite IH.
Qed.

Lemma sum_words_total p d sums N :
  sums_ok N sums ->
  sums_ok N (sum_words p d sums) /\ 0 <= added p d N /\
  oc (sumZ (sum_words p d sums)) = oc (sumZ sums + added p d N).
Proof.
  intros [Hlen Hok]. unfold added.
  destruct (imap_total (fun i s => if p i then add_sum s (be16 d i) else s) (fun i => if p i then be16 d i else 0) sums)
    as (H1 & H2 & H3); [done | |].
  - intros i x _ Hx. pose proof (be16_fits d i) as Hb. destruct (p i); [rewrite add_sum_oc by done|];
      unfold fits in *; [split; [done | lia]|]. split; [|lia]. rewrite Z.add_0_r. symmetry. apply oc_small. lia.
  - rewrite imap_const, Hlen in H2, H3. split_and!; [split; [unfold sum_words; by rewrite length_imap | done] | done | exact H3].
Qed.

Lemma sum_words_ext p q d sums : (forall i, (i < length sums)%nat -> p i = q i) -> sum_words p d sums = sum_words q d sums.
Proof. intros Hpq. apply imap_ext. intros i x Hx. rewrite Hpq; [done|]. by eapply lookup_lt_Some. Qed.

Lemma sum_words_none p d sums : (forall i, (i < length sums)%nat -> p i = false) -> sum_words p d sums = sums.
Proof.
  intros Hp. rewrite (sum_words_ext p (fun _ => false)) by done. unfold sum_words. clear.
  induction sums as [|x sums IH]; [done|]. cbn. f_equal. exact IH.
Qed.

(** One level of the tree. *)
Lemma fold_half_total k sums N :
  sums_ok N sums -> (2 * k <= N)%nat ->
  sums_ok N (fold_half sums k) /\ oc (sumZ (take k (fold_half sums k))) = oc (sumZ (take (2 * k) sums)).
Proof.
  intros [Hlen Hok] Hk.
  assert (forall i, fits 16 (nth i sums 0)) as Hnth.
  { intros i. destruct (Nat.lt_ge_cases i (length sums)); [|rewrite nth_overflow by lia; done].
    rewrite Forall_forall in Hok. apply Hok, list_elem_of_In, nth_In. lia. }
  destruct (imap_total (fun i s => if (i <? k)%nat then add_sum s (nth (i + k) sums 0) else s)
    (fun i => if (i <? k)%nat then nth (i + k) sums 0 else 0) sums Hok) as (H1 & _ & _).
  { intros i x _ Hx. specialize (Hnth (i + k)%nat). destruct (i <? k)%nat; [rewrite add_sum_oc by done|];
      unfold fits in *; [split; [done | lia]|]. split; [|lia]. rewrite Z.add_0_r. symmetry. apply oc_small. lia. }
  split; [split; [unfold fold_half; by rewrite length_imap | exact H1]|].
  set (F := fun (i : nat) s => if (i <? k)%nat then add_sum s (nth (i + k) sums 0) else s).
  assert (fold_half sums k = imap F (take k sums ++ drop k sums)) as -> by (by rewrite take_drop).
  rewrite imap_app.
  rewrite take_app_length' by (rewrite length_imap, length_take; lia).
  destruct (imap_total F (fun i => nth (i + k) sums 0) (take k sums)) as (_ & H2 & H3).
  { by apply Forall_take. }
  { intros i x Hi Hx. rewrite length_take in Hi. specialize (Hnth (i + k)%nat). unfold F.
    rewrite (proj2 (Nat.ltb_lt i k)) by lia. rewrite add_sum_oc by done. unfold fits in Hnth. split; [done | lia]. }
  rewrite H3. f_equal. replace (2 * k)%nat with (k + k)%nat by lia. rewrite <- (take_take_drop sums k k), sumZ_app. f_equal. f_equal.
  apply list_eq. intros i. rewrite list_lookup_imap. destruct (Nat.lt_ge_cases i k).
  - rewrite !lookup_take_lt, lookup_drop by lia. destruct (lookup_lt_is_Some_2 sums i ltac:(lia)) as [x ->].
    destruct (lookup_lt_is_Some_2 sums (k + i) ltac:(lia)) as [y Hy]. rewrite Hy. cbn.
    rewrite (Nat.add_comm i k). f_equal. by apply nth_lookup_Some.
  - rewrite !lookup_take_ge by lia. done.
Qed.

(** The tree returns the complement of the total. *)
Lemma fold_sums_total N sums :
  sums_ok N sums -> N ∈ [4; 8; 16; 32]%nat -> fold_sums N sums = 65535 - oc (sumZ sums).
Proof.
  intros Hs HN.
  assert (forall t, sums_ok N t -> oc (sumZ (take 4 t)) = oc (sumZ sums) ->
    bits (wrap 17 (Z.lnot (nth 0 (fold_half (fold_half t 2) 1) 0))) 0 16 = 65535 - oc (sumZ sums)) as Hend.
  { intros t Ht E. assert (4 <= N)%nat as H4 by (repeat (apply elem_of_cons in HN as [->|HN]; [lia|]); by apply elem_of_nil in HN).
    destruct (fold_half_total 2 t N Ht ltac:(lia)) as [Ht2 E2].
    destruct (fold_half_total 1 _ N Ht2 ltac:(lia)) as [[Hl1 Ht1] E1].
    destruct (fold_half (fold_half t 2) 1) as [|x r]; [cbn in Hl1; lia|]. apply Forall_cons in Ht1 as [Hx _].
    change (2 * 1)%nat with 2%nat in E1. change (2 * 2)%nat with 4%nat in E2. rewrite E2, E in E1. cbn in E1.
    rewrite Z.add_0_r, oc_small in E1 by (unfold fits in Hx; lia). rewrite <- E1. cbn [nth].
    unfold bits. rewrite Z.shiftr_0_r, wrap_land, <- Z.land_assoc by lia. change (Z.land (Z.ones 17) (Z.ones 16)) with (Z.ones 16).
    rewrite Z.land_ones by lia. unfold Z.lnot, Z.pred. unfold fits in Hx. symmetry. apply (Zmod_unique _ _ (-1)); lia. }
  unfold fold_sums.
  repeat (apply elem_of_cons in HN as [->|HN]; [cbn [foldl Nat.leb orb Nat.mul Nat.add];
    repeat match goal with |- context [fold_half ?t ?k] =>
      lazymatch k with 2%nat => fail | 1%nat => fail | _ =>
        lazymatch goal with H : sums_ok _ t |- _ => 
          let E := fresh "E" in let Hn := fresh "Hs" in
          destruct (fold_half_total k t _ H ltac:(lia)) as [Hn E]; cbn [Nat.mul Nat.add] in E;
          let u := fresh "u" in set (u := fold_half t k) in *; clearbody u end end end;
    apply Hend; [assumption|]|]); [..|by apply elem_of_nil in HN].
  all: repeat match goal with H : oc _ = oc _ |- _ => rewrite H; clear H end.
  all: rewrite take_ge; [done | destruct Hs; lia].
Qed.

(** ** The header of a packet *)

(** The 16-bit word at the place [m] of a packet counts: [h] is the header
    length in 32-bit words. *)
Definition counted (skip : bool) (h m : nat) : bool := (m <? 2 * h)%nat && (negb skip || negb (m =? 5)%nat).

(** What the bytes [l] of a packet add, the first of which are the word at the
    place [start]. *)
Definition csum (skip : bool) (h start : nat) (l : list Z) : Z :=
  sumZ (imap (fun i x => if counted skip h (start + i) then x else 0) (words_be l)).

Lemma csum_word skip h start N d :
  csum skip h start (le_bytes (2 * N) d) = added (fun i => counted skip h (start + i)) d N.
Proof.
  unfold csum, added. rewrite words_le_bytes. f_equal. apply list_eq. intros i.
  rewrite !list_lookup_imap. destruct (replicate N 0 !! i); cbn; [|done]. by destruct (counted _ _ _).
Qed.

Lemma csum_cons skip h start a b l :
  csum skip h start (a :: b :: l) = (if counted skip h start then 256 * a + b else 0) + csum skip h (S start) l.
Proof.
  unfold csum. change (words_be (a :: b :: l)) with ((256 * a + b) :: words_be l). rewrite imap_cons.
  cbn [sumZ]. rewrite Nat.add_0_r. f_equal. f_equal. apply imap_ext. intros i x _. cbn. by rewrite Nat.add_succ_r.
Qed.

(** Lists of words, two bytes at a time. *)
Lemma pairs_ind (P : list Z -> Prop) : P [] -> (forall a, P [a]) -> (forall a b l, P l -> P (a :: b :: l)) -> forall l, P l.
Proof.
  intros H0 H1 H2. fix IH 1. intros [|a [|b l]]; [exact H0 | apply H1 | apply H2, IH].
Qed.

Lemma csum_beyond skip h start l : (2 * h <= start)%nat -> csum skip h start l = 0.
Proof.
  revert start. induction l as [|a|a b l IH] using pairs_ind; intros start Hs; [done| |].
  - unfold csum. cbn. rewrite Nat.add_0_r. unfold counted. by rewrite (proj2 (Nat.ltb_ge start (2 * h))) by lia.
  - rewrite csum_cons, IH by lia. unfold counted. by rewrite (proj2 (Nat.ltb_ge start (2 * h))) by lia.
Qed.

(** Bytes behind the header do not count. *)
Lemma csum_take skip h start k l : (4 * h <= 2 * start + k)%nat -> csum skip h start (take k l) = csum skip h start l.
Proof.
  revert start k. induction l as [|a|a b l IH] using pairs_ind; intros start k Hk.
  - by rewrite take_nil.
  - destruct k; [|by rewrite take_ge by (cbn; lia)]. rewrite !csum_beyond by lia. done.
  - destruct k as [|[|k]]; [rewrite !csum_beyond by lia; done..|]. cbn [take]. rewrite !csum_cons, IH by lia. done.
Qed.

Lemma csum_app skip h start N d l :
  csum skip h start (le_bytes (2 * N) d ++ l) = csum skip h start (le_bytes (2 * N) d) + csum skip h (start + N) l.
Proof.
  revert start d. induction N as [|N IH]; intros start d; [by rewrite Nat.add_0_r|].
  replace (2 * S N)%nat with (S (S (2 * N))) by lia. cbn [le_bytes app].
  rewrite !csum_cons, IH, Nat.add_succ_r. cbn [Nat.add]. lia.
Qed.

(** The packet with its checksum field cleared. *)
Definition clear_field (l : list Z) : list Z := take 10 l ++ [0; 0] ++ drop 12 l.

Lemma csum_plain h start l : csum false h start (take (4 * h - 2 * start) l) = sumZ (words_be (take (4 * h - 2 * start) l)).
Proof.
  revert start. induction l as [|a|a b l IH] using pairs_ind; intros start.
  - by rewrite take_nil.
  - destruct (4 * h - 2 * start)%nat as [|k] eqn:E; [done|].
    change (take (S k) [a]) with (a :: take k []). rewrite take_nil. unfold csum, counted. cbn [words_be]. rewrite imap_cons, Nat.add_0_r.
    by rewrite (proj2 (Nat.ltb_lt start (2 * h))) by lia.
  - destruct (4 * h - 2 * start)%nat as [|[|k]] eqn:E; [done|lia|]. cbn [take]. rewrite csum_cons.
    replace k with (4 * h - 2 * S start)%nat by lia. rewrite IH. cbn [words_be sumZ]. f_equal.
    unfold counted. by rewrite (proj2 (Nat.ltb_lt start (2 * h))) by lia.
Qed.

Lemma csum_header skip h l :
  (5 <= h)%nat -> (4 * h <= length l)%nat ->
  csum skip h 0 l = sumZ (words_be (take (4 * h) (if skip then clear_field l else l))).
Proof.
  intros Hh Hl. rewrite <- (csum_take skip h 0 (4 * h) l) by lia.
  pose proof (csum_plain h 0 (if skip then clear_field l else l)) as Hp. rewrite Nat.mul_0_r, Nat.sub_0_r in Hp. rewrite <- Hp.
  destruct skip; [|done].
  do 12 (destruct l as [|? l]; [cbn in Hl; lia|]). unfold clear_field. cbn [take drop app].
  destruct (4 * h)%nat as [|[|[|[|[|[|[|[|[|[|[|[|k]]]]]]]]]]]] eqn:Ek; try lia. cbn [take].
  rewrite !csum_cons. unfold counted.
  rewrite (proj2 (Nat.ltb_lt 0 (2 * h))) by lia. rewrite (proj2 (Nat.ltb_lt 1 (2 * h))) by lia. rewrite (proj2 (Nat.ltb_lt 2 (2 * h))) by lia.
  rewrite (proj2 (Nat.ltb_lt 3 (2 * h))) by lia. rewrite (proj2 (Nat.ltb_lt 4 (2 * h))) by lia. rewrite (proj2 (Nat.ltb_lt 5 (2 * h))) by lia.
  cbn [negb orb andb Nat.eqb]. do 6 f_equal.
Qed.

(** ** The processes, one word at a time *)

(** What the processes of the four widths do with the [j]th word of a packet
    whose header has [h] 32-bit words: [L] is the number of those in a word,
    [len j] the value of the static header length before that word. *)
Record cics_process (L : nat) (skip : bool) (f : cics -> cics * list cics_out) (len : nat -> nat -> Z) (wc : nat -> Z) : Prop := {
  cics_wc0 : wc 0%nat = 0;
  cics_first h len0 w sums input :
    (5 <= h < 16)%nat -> bits (a_data w) 0 4 = Z.of_nat h -> length sums = (2 * L)%nat ->
    f (mk_cics sums len0 0 (w :: input)) =
      let sums' := sum_words (counted skip h) (a_data w) sums in
      cics_next (2 * L) w (wc 1%nat) input (sums', len h 1%nat, if (h <=? L)%nat then [CsSums sums'] else []);
  cics_later h j w sums input :
    (5 <= h < 16)%nat -> (0 < j)%nat -> length sums = (2 * L)%nat ->
    f (mk_cics sums (len h j) (wc j) (w :: input)) =
      let sums' := sum_words (fun i => counted skip h (2 * L * j + i)) (a_data w) sums in
      cics_next (2 * L) w (wc (S j)) input
        (sums', len h (S j), if (L * j <? h)%nat && (h <=? L * S j)%nat then [CsSums sums'] else []) }.

Lemma counted_lt skip h m : (5 < m)%nat -> counted skip h m = (m <? 2 * h)%nat.
Proof. intros. unfold counted. rewrite (proj2 (Nat.eqb_neq m 5)) by lia. by rewrite orb_true_r, andb_true_r. Qed.

Lemma rest_spec L skip h j d sums :
  (0 < L)%nat -> (h < 16)%nat -> (5 < 2 * L * j)%nat -> length sums = (2 * L)%nat ->
  cics_rest (Z.of_nat L) d sums (Z.of_nat (h - L * j)) =
    let sums' := sum_words (fun i => counted skip h (2 * L * j + i)) d sums in
    (sums', Z.of_nat (h - L * S j), if (L * j <? h)%nat && (h <=? L * S j)%nat then [CsSums sums'] else []).
Proof.
  intros HL Hh Hj Hlen. unfold cics_rest.
  destruct (Z.eqb_spec (Z.of_nat (h - L * j)) 0).
  - rewrite (proj2 (Nat.ltb_ge (L * j) h)) by lia. rewrite sum_words_none.
    + cbn [andb]. do 2 f_equal. lia.
    + intros i _. rewrite counted_lt by lia. apply Nat.ltb_ge. lia.
  - rewrite (proj2 (Nat.ltb_lt (L * j) h)) by lia. destruct (Z.ltb_spec (Z.of_nat (h - L * j)) (Z.of_nat L)).
    + rewrite (proj2 (Nat.leb_le h (L * S j))) by lia. replace (h - L * S j)%nat with 0%nat by lia.
      rewrite (sum_words_ext _ (fun i => counted skip h (2 * L * j + i))); [done|].
      intros i _. rewrite counted_lt by lia. destruct (Nat.ltb_spec (2 * L * j + i) (2 * h)), (Z.ltb_spec (Z.of_nat i) (2 * Z.of_nat (h - L * j))); try done; lia.
    + rewrite wrap_small by (unfold fits; lia).
      rewrite (sum_words_ext _ (fun i => counted skip h (2 * L * j + i))).
      * assert ((Z.of_nat (h - L * j) =? Z.of_nat L) = (h <=? L * S j)%nat) as E
          by (destruct (Nat.leb_spec h (L * S j)), (Z.eqb_spec (Z.of_nat (h - L * j)) (Z.of_nat L)); try done; lia).
        rewrite E. cbn [andb]. f_equal. f_equal. lia.
      * intros i Hi. rewrite counted_lt by lia. symmetry. apply Nat.ltb_lt. lia.
Qed.

Lemma process_64 skip : cics_process 2 skip (compute_ipv4_checksum_64 skip) (fun h j => Z.of_nat (h - 2 * j)) (fun j => Z.of_nat (j `min` 2)).
Proof.
  constructor; [done| |].
  - intros h len0 w sums input Hh Hb Hlen. cbn [compute_ipv4_checksum_64 Z.eqb]. rewrite Hb, wrap_small by (unfold fits; lia).
    rewrite (proj2 (Nat.leb_gt h 2)) by lia. rewrite (sum_words_ext _ (counted skip h)).
    + cbn zeta. do 3 f_equal. lia.
    + intros i Hi. unfold counted. rewrite (proj2 (Nat.ltb_lt i (2 * h))) by lia. rewrite (proj2 (Nat.eqb_neq i 5)) by lia.
      by rewrite orb_true_r.
  - intros h j w sums input Hh Hj Hlen. cbn [compute_ipv4_checksum_64].
    rewrite (proj2 (Z.eqb_neq (Z.of_nat (j `min` 2)) 0)) by lia. destruct (Z.eqb_spec (Z.of_nat (j `min` 2)) 1).
    + assert (j = 1%nat) as -> by lia. rewrite wrap_small by (unfold fits; lia).
      rewrite (proj2 (Nat.leb_gt h (2 * 2))) by lia. rewrite andb_false_r.
      rewrite (sum_words_ext _ (fun i => counted skip h (2 * 2 * 1 + i))).
      * cbn zeta. f_equal. f_equal. f_equal. lia.
      * intros i Hi. unfold counted. rewrite (proj2 (Nat.ltb_lt (2 * 2 * 1 + i) (2 * h))) by lia. done.
    + rewrite (rest_spec 2 skip) by lia. f_equal. lia.
Qed.

Lemma process_128 skip : cics_process 4 skip (compute_ipv4_checksum_128 skip) (fun h j => Z.of_nat (h - 4 * j)) (fun j => Z.of_nat (j `min` 1)).
Proof.
  constructor; [done| |].
  - intros h len0 w sums input Hh Hb Hlen. cbn [compute_ipv4_checksum_128 Z.eqb]. rewrite Hb, wrap_small by (unfold fits; lia).
    rewrite (proj2 (Nat.leb_gt h 4)) by lia. rewrite (sum_words_ext _ (counted skip h)).
    + cbn zeta. do 3 f_equal. lia.
    + intros i Hi. unfold counted. by rewrite (proj2 (Nat.ltb_lt i (2 * h))) by lia.
  - intros h j w sums input Hh Hj Hlen. cbn [compute_ipv4_checksum_128].
    rewrite (proj2 (Z.eqb_neq (Z.of_nat (j `min` 1)) 0)) by lia. rewrite (rest_spec 4 skip) by lia. f_equal. lia.
Qed.

Lemma in_header_counted skip h i : in_header skip (Z.of_nat h) i = counted skip h i.
Proof.
  unfold in_header, counted. rewrite andb_comm. f_equal.
  destruct (Nat.ltb_spec i (2 * h)), (Z.ltb_spec (Z.of_nat i / 2) (Z.of_nat h)); try done; Z.div_mod_to_equations; lia.
Qed.

Lemma process_256 skip : cics_process 8 skip (compute_ipv4_checksum_256 skip) (fun h j => Z.of_nat (h - 8 * j)) (fun j => Z.of_nat (j `min` 1)).
Proof.
  constructor; [done| |].
  - intros h len0 w sums input Hh Hb Hlen. cbn [compute_ipv4_checksum_256 Z.eqb]. rewrite Hb.
    rewrite (sum_words_ext _ (counted skip h)) by (intros; apply in_header_counted). cbn zeta.
    destruct (Z.ltb_spec 8 (Z.of_nat h)).
    + rewrite (proj2 (Nat.leb_gt h 8)), wrap_small by (unfold fits; lia). do 3 f_equal. lia.
    + rewrite (proj2 (Nat.leb_le h 8)) by lia. do 3 f_equal. lia.
  - intros h j w sums input Hh Hj Hlen. cbn [compute_ipv4_checksum_256].
    rewrite (proj2 (Z.eqb_neq (Z.of_nat (j `min` 1)) 0)) by lia. rewrite (rest_spec 8 skip) by lia. f_equal. lia.
Qed.

Lemma process_512 skip : cics_process 16 skip (compute_ipv4_checksum_512 skip) (fun h j => Z.of_nat h) (fun j => Z.of_nat (j `min` 1)).
Proof.
  constructor; [done| |].
  - intros h len0 w sums input Hh Hb Hlen. cbn [compute_ipv4_checksum_512 Z.eqb]. rewrite Hb.
    rewrite (sum_words_ext _ (counted skip h)) by (intros; apply in_header_counted). cbn zeta.
    by rewrite (proj2 (Nat.leb_le h 16)) by lia.
  - intros h j w sums input Hh Hj Hlen. cbn [compute_ipv4_checksum_512].
    rewrite (proj2 (Z.eqb_neq (Z.of_nat (j `min` 1)) 0)) by lia. cbn zeta. rewrite sum_words_none.
    + rewrite (proj2 (Nat.ltb_ge (16 * j) h)) by lia. cbn [andb]. f_equal. lia.
    + intros i _. rewrite counted_lt by lia. apply Nat.ltb_ge. lia.
Qed.

(** ** The checksum of a packet *)

Lemma words_be_fits (l : list Z) : Forall (fits 8) l -> Forall (fits 16) (words_be l).
Proof.
  induction l as [|a|a b l IH] using pairs_ind; intros Hl; [done| |].
  - apply Forall_cons in Hl as [Ha _]. constructor; [unfold fits in *; lia | done].
  - apply Forall_cons in Hl as [Ha Hl]. apply Forall_cons in Hl as [Hb Hl]. cbn. constructor; [unfold fits in *; lia | auto].
Qed.

Lemma csum_nonneg skip h start (l : list Z) : Forall (fits 8) l -> 0 <= csum skip h start l.
Proof.
  intros Hl. apply sumZ_nonneg, Forall_lookup_2. intros i x Hx. rewrite list_lookup_imap in Hx.
  apply words_be_fits in Hl. destruct (words_be l !! i) as [y|] eqn:Hy; [|done]. cbn in Hx.
  pose proof (Forall_lookup_1 _ _ _ _ Hl Hy). destruct (counted _ _ _); simplify_eq; [done | unfold fits; lia].
Qed.

Lemma packet_fits n ws l : packet n ws l -> Forall (fits 8) l.
Proof.
  induction 1 as [d k Hk|d ws l Hw IH]; [apply Forall_take, le_bytes_fits | apply Forall_app; split; [apply le_bytes_fits | done]].
Qed.

Definition cs_words (o : list cics_out) : list net_axis := omap (fun x => match x with CsWord w => Some w | _ => None end) o.
Definition cs_sums (o : list cics_out) : list (list Z) := omap (fun x => match x with CsSums l => Some l | _ => None end) o.

Section checksum.
Context (L : nat) (skip : bool) (f : cics -> cics * list cics_out) (len : nat -> nat -> Z) (wc : nat -> Z).
Hypothesis process : cics_process L skip f len wc.
Hypothesis size : (0 < L)%nat.
Context (h : nat).
Hypothesis header : (5 <= h < 16)%nat.

(** From the word [j > 0] of a packet to its end. *)
Lemma later_words ws l j sums :
  packet (4 * L) ws l -> (0 < j)%nat -> sums_ok (2 * L) sums -> (4 * h <= 4 * L * j + length l)%nat ->
  exists o len', runs f (mk_cics sums (len h j) (wc j) ws) (mk_cics (replicate (2 * L) 0) len' 0 []) o /\ cs_words o = ws /\
    if (L * j <? h)%nat
    then exists t, cs_sums o = [t] /\ sums_ok (2 * L) t /\
      oc (sumZ t) = oc (sumZ sums + csum skip h (2 * L * j) l)
    else cs_sums o = [].
Proof.
  intros Hw. revert j sums. induction Hw as [d k Hk|d ws l Hw IH]; intros j sums Hj Hs Hl.
  - destruct (sum_words_total (fun i => counted skip h (2 * L * j + i)) d sums _ Hs) as (Hs' & Ha & Ht).
    eexists _, (len h (S j)). split; [apply runs_one; rewrite (cics_later _ _ _ _ _ process) by (done || apply Hs);
      cbn zeta; unfold cics_next; cbn [a_last]; reflexivity|].
    split; [by destruct (_ && _)|]. rewrite length_take, length_le_bytes in Hl.
    destruct (Nat.ltb_spec (L * j) h); [|done]. rewrite (proj2 (Nat.leb_le h (L * S j))) by lia. cbn [andb].
    eexists. split; [done|]. split; [done|]. cbn [a_data]. rewrite Ht. f_equal. f_equal.
    rewrite csum_take by lia. replace (4 * L)%nat with (2 * (2 * L))%nat by lia. symmetry. apply csum_word.
  - destruct (sum_words_total (fun i => counted skip h (2 * L * j + i)) d sums _ Hs) as (Hs' & Ha & Ht).
    rewrite length_app, length_le_bytes in Hl.
    destruct (IH (S j) _ ltac:(lia) Hs' ltac:(lia)) as (o & len' & Hr & Hws & Ho).
    set (first := if (L * j <? h)%nat && (h <=? L * S j)%nat
      then [CsSums (sum_words (fun i => counted skip h (2 * L * j + i)) d sums)] else []).
    exists ((CsWord (mk_axis d (Z.ones (Z.of_nat (4 * L))) false) :: first) ++ o), len'. split.
    { eapply runs_step; [rewrite (cics_later _ _ _ _ _ process) by (done || apply Hs);
        cbn zeta; unfold cics_next; cbn [a_last a_data]; reflexivity | exact Hr]. }
    assert (cs_words first = [] /\ cs_sums first = if (L * j <? h)%nat && (h <=? L * S j)%nat
      then [sum_words (fun i => counted skip h (2 * L * j + i)) d sums] else []) as [Hfw Hfs]
      by (unfold first; by destruct (_ && _)).
    split; [unfold cs_words in *; cbn [app omap list_omap]; by rewrite omap_app, Hfw, Hws|].
    assert (csum skip h (2 * L * j) (le_bytes (4 * L) d ++ l) =
      added (fun i => counted skip h (2 * L * j + i)) d (2 * L) + csum skip h (2 * L * S j) l) as Hc.
    { replace (4 * L)%nat with (2 * (2 * L))%nat by lia. rewrite csum_app, csum_word. f_equal. f_equal. lia. }
    rewrite Hc. unfold cs_sums in *. cbn [app omap list_omap]. rewrite omap_app, Hfs.
    destruct (Nat.ltb_spec (L * j) h) as [Hjh|Hjh]; cbn [andb].
    + destruct (Nat.leb_spec h (L * S j)) as [Hend|Hend].
      * rewrite (proj2 (Nat.ltb_ge (L * S j) h)) in Ho by lia. rewrite Ho. eexists. split; [done|]. split; [done|].
        rewrite Ht. f_equal. rewrite (csum_beyond _ _ (2 * L * S j)) by lia. lia.
      * rewrite (proj2 (Nat.ltb_lt (L * S j) h)) in Ho by lia. destruct Ho as (t & Hst & Hok & Hoc).
        exists t. split; [exact Hst|]. split; [done|].
        assert (0 <= csum skip h (2 * L * S j) l) as Hpos by (by eapply csum_nonneg, packet_fits).
        pose proof (sumZ_nonneg _ (proj2 Hs)) as P1. pose proof (sumZ_nonneg _ (proj2 Hs')) as P2.
        rewrite Hoc, <- oc_add_l, Ht, oc_add_l by lia. f_equal. lia.
    + rewrite (proj2 (Nat.ltb_ge (L * S j) h)) in Ho by lia. exact Ho.
Qed.
End checksum.

(** The length of the header of a packet, in 32-bit words. *)
Definition ihl (l : list Z) : nat := Z.to_nat (bits (nth 0 l 0) 0 4).

Lemma packet_size n ws l : packet n ws l -> (1 <= n)%nat.
Proof. by induction 1; [lia|]. Qed.

Lemma ihl_first n w ws l : packet n (w :: ws) l -> bits (a_data w) 0 4 = Z.of_nat (ihl l).
Proof.
  intros Hw. pose proof (packet_length _ _ _ Hw) as Hlen.
  pose proof (packet_size _ _ _ Hw) as Hn.
  pose proof (packet_first n 1 w ws l Hw ltac:(lia) Hlen) as E. destruct l as [|b l]; [cbn in Hlen; lia|].
  cbn [take le_bytes] in E. injection E as ->. unfold ihl. cbn [nth].
  rewrite Z2Nat.id by (apply bits_range; lia). apply Z.bits_inj'. intros i Hi. rewrite !bits_testbit by lia.
  destruct (Z.ltb_spec i 4); [|done]. rewrite wrap_land, Z.land_spec, ones_testbit by lia.
  replace (i + 0 <? 8) with true by lia. by rewrite andb_true_r.
Qed.

Lemma compute_process L skip :
  L ∈ [2; 4; 8; 16]%nat ->
  exists len wc, cics_process L skip (compute_ipv4_checksum skip (32 * Z.of_nat L)) len wc.
Proof.
  intros HL. repeat (apply elem_of_cons in HL as [->|HL]); [..|by apply elem_of_nil in HL]; eexists _, _;
    [apply process_64 | apply process_128 | apply process_256 | apply process_512].
Qed.

Lemma packet_sums L skip len0 ws l :
  L ∈ [2; 4; 8; 16]%nat -> packet (4 * L) ws l -> (5 <= ihl l)%nat -> (4 * ihl l <= length l)%nat ->
  exists o len' t, runs (compute_ipv4_checksum skip (32 * Z.of_nat L)) (mk_cics (replicate (2 * L) 0) len0 0 ws)
      (mk_cics (replicate (2 * L) 0) len' 0 []) o /\
    cs_words o = ws /\ cs_sums o = [t] /\
    fold_sums (2 * L) t = internet_checksum (take (4 * ihl l) (if skip then clear_field l else l)).
Proof.
  intros HL Hw Hh Hl. destruct (compute_process L skip HL) as (len & wc & Hf).
  assert (0 < L)%nat as HL0 by (repeat (apply elem_of_cons in HL as [->|HL]; [lia|]); by apply elem_of_nil in HL).
  assert ((2 * L)%nat ∈ [4; 8; 16; 32]%nat) as HN.
  { clear -HL. repeat (apply elem_of_cons in HL as [->|HL]; [by apply (bool_decide_unpack _)|]). by apply elem_of_nil in HL. }
  assert (ihl l < 16)%nat as H16.
  { unfold ihl. pose proof (bits_range (nth 0 l 0) 0 4 ltac:(lia)). unfold fits in *. lia. }
  assert (sums_ok (2 * L) (replicate (2 * L) 0)) as H0 by (split; [apply length_replicate | by apply Forall_replicate]).
  assert (sumZ (replicate (2 * L) 0) = 0) as Hz by (generalize (2 * L)%nat as m; induction m; [done | cbn; lia]).
  destruct (packet_nonempty _ _ _ Hw) as (w & ws' & ->). pose proof (ihl_first _ _ _ _ Hw) as Hb.
  destruct (sum_words_total (counted skip (ihl l)) (a_data w) _ _ H0) as (Hs' & Ha & Ht). rewrite Hz, Z.add_0_l in Ht.
  unfold internet_checksum. rewrite <- (csum_header skip (ihl l) l) by lia. remember (ihl l) as h eqn:Eh. clear Eh.
  assert (forall input, runs (compute_ipv4_checksum skip (32 * Z.of_nat L)) (mk_cics (replicate (2 * L) 0) len0 0 (w :: input)) _ _) as Hr1
    by (intros input; apply runs_one, (cics_first _ _ _ _ _ Hf h); done || lia || apply H0).
  cbn zeta in Hr1. unfold cics_next in Hr1. set (t1 := sum_words (counted skip h) (a_data w) (replicate (2 * L) 0)) in *.
  inversion Hw as [d k Hk|d ws1 l1 Hw1]; subst; cbn [a_last a_data] in *.
  - rewrite length_take, length_le_bytes in Hl. rewrite (proj2 (Nat.leb_le h L)) in Hr1 by lia.
    eexists _, _, t1. split; [exact (Hr1 [])|]. split; [done|]. split; [done|].
    rewrite (fold_sums_total _ _ Hs' HN), Ht, csum_take by lia. do 2 f_equal.
    replace (4 * L)%nat with (2 * (2 * L))%nat by lia. symmetry. apply csum_word.
  - rewrite length_app, length_le_bytes in Hl.
    destruct (later_words L skip _ len wc Hf HL0 h ltac:(lia) ws' l1 1 t1 Hw1 ltac:(lia) Hs' ltac:(lia)) as (o & len' & Hr & Hws & Ho).
    assert (csum skip h 0 (le_bytes (4 * L) d ++ l1) = added (counted skip h) d (2 * L) + csum skip h (2 * L) l1) as Hc.
    { replace (4 * L)%nat with (2 * (2 * L))%nat by lia. rewrite csum_app, csum_word. done. }
    rewrite !Nat.mul_1_r in Ho. destruct (Nat.leb_spec h L).
    + rewrite (proj2 (Nat.ltb_ge L h)) in Ho by lia. eexists _, len', t1.
      split; [eapply runs_trans; [exact (Hr1 ws') | exact Hr]|]. unfold cs_words, cs_sums in *. rewrite !omap_app, Hws, Ho.
      split; [done|]. split; [done|]. rewrite (fold_sums_total _ _ Hs' HN), Ht, Hc, (csum_beyond _ _ (2 * L)) by lia. do 2 f_equal. lia.
    + rewrite (proj2 (Nat.ltb_lt L h)) in Ho by lia. destruct Ho as (t & Ho & Hok & Hoc). exists ([CsWord (mk_axis d (Z.ones (Z.of_nat (4 * L))) false)] ++ o), len', t.
      split; [eapply runs_trans; [exact (Hr1 ws') | exact Hr]|]. unfold cs_words, cs_sums in *. rewrite !omap_app, Hws, Ho.
      split; [done|]. split; [done|]. pose proof (sumZ_nonneg _ (proj2 Hs')) as P.
      assert (0 <= csum skip h (2 * L) l1) as Hpos by (by eapply csum_nonneg, packet_fits).
      rewrite (fold_sums_total _ _ Hok HN), Hoc, <- oc_add_l, Ht, oc_add_l, Hc by lia. done.
Qed.

(** ** A checksum that has been inserted *)

Definition set_field (c : Z) (l : list Z) : list Z := take 10 l ++ le_bytes 2 (reverse 2 c) ++ drop 12 l.

Lemma le_bytes_reverse n x : le_bytes n (reverse n x) = rev (le_bytes n x).
Proof.
  unfold reverse. rewrite <- (length_le_bytes n x) at 1. rewrite <- length_rev.
  apply le_bytes_val, Forall_rev, le_bytes_fits.
Qed.

Lemma words_be_field c : fits 16 c -> words_be (le_bytes 2 (reverse 2 c)) = [c].
Proof.
  intros Hc. rewrite le_bytes_reverse. cbn [le_bytes rev app words_be]. f_equal.
  rewrite (wrap_small 8 (Z.shiftr c 8)) by (unfold fits in *; rewrite Z.shiftr_div_pow2 by lia; Z.div_mod_to_equations; lia).
  unfold wrap. rewrite Z.shiftr_div_pow2 by lia. change (2 ^ 8) with 256. pose proof (Z.div_mod c 256). lia.
Qed.

Lemma ihl_take l l' : nth 0 l 0 = nth 0 l' 0 -> ihl l = ihl l'.
Proof. unfold ihl. by intros ->. Qed.

Lemma set_field_sum c h l :
  fits 16 c -> (3 <= h)%nat -> (12 <= length l)%nat ->
  sumZ (words_be (take (4 * h) (set_field c l))) = sumZ (words_be (take (4 * h) (clear_field l))) + c.
Proof.
  intros Hc Hh Hl. do 12 (destruct l as [|? l]; [cbn in Hl; lia|]). unfold set_field, clear_field.
  destruct (le_bytes 2 (reverse 2 c)) as [|x [|y [|]]] eqn:E; try (apply (f_equal length) in E; rewrite length_le_bytes in E; discriminate E).
  pose proof (words_be_field c Hc) as Hw. rewrite E in Hw. cbn [words_be] in Hw. injection Hw as Hw.
  cbn [take drop app]. replace (4 * h)%nat with (12 + (4 * h - 12))%nat by lia. cbn [Nat.add take words_be sumZ]. lia.
Qed.

Lemma set_field_ihl c l : (12 <= length l)%nat -> ihl (set_field c l) = ihl l /\ length (set_field c l) = length l.
Proof.
  intros Hl. do 12 (destruct l as [|? l]; [cbn in Hl; lia|]). split; [done|].
  unfold set_field. rewrite !length_app, length_le_bytes, length_take, length_drop. cbn. lia.
Qed.

(** With its checksum in the field the header has the checksum zero. *)
Lemma inserted_valid l :
  Forall (fits 8) l -> (3 <= ihl l)%nat -> (12 <= length l)%nat ->
  internet_checksum (take (4 * ihl l) (set_field (internet_checksum (take (4 * ihl l) (clear_field l))) l)) = 0.
Proof.
  intros Hb Hh Hl. set (S0 := sumZ (words_be (take (4 * ihl l) (clear_field l)))).
  assert (0 <= S0) as Hpos.
  { apply sumZ_nonneg, words_be_fits, Forall_take. unfold clear_field. rewrite !Forall_app. split; [by apply Forall_take|].
    split; [|by apply Forall_drop]. by repeat constructor. }
  pose proof (oc_range S0 Hpos). unfold internet_checksum at 2. fold S0.
  unfold internet_checksum. rewrite set_field_sum by (try (unfold fits); lia). fold S0.
  rewrite <- oc_add_l by lia. replace (oc S0 + (65535 - oc S0)) with 65535 by lia. reflexivity.
Qed.

(** ** Taking the header off *)

Lemma doh_joins :
  joins 64 20 (drop_optional_ip_header 512) id (fun p => mk_doh SHIFT_FIVE 5 p []) (fun p => mk_doh LAST_FIVE 5 p [])
    (fun p => mk_doh DOH_META 5 p []).
Proof.
  constructor; [|done].
  - intros p c k input Hk Hkn Hlast. cbn [drop_optional_ip_header]. unfold doh_shift.
    rewrite Hk, ones_testbit by lia.
    assert (negb (20 <? Z.of_nat k) = bool_decide (k <= 20)%nat) as E.
    { destruct (Z.ltb_spec 20 (Z.of_nat k)); [rewrite bool_decide_eq_false_2 by lia | rewrite bool_decide_eq_true_2 by lia]; done. }
    rewrite E. cbn [a_last rshift_join]. destruct (a_last c); [by destruct (bool_decide _)|].
    rewrite Hlast by done. by rewrite bool_decide_eq_false_2 by lia.
Qed.

(** Over words of 512 bits, and for a header without options. *)
Lemma doh_packet hd ws l :
  packet 64 ws (hd ++ l) -> length hd = 20%nat -> (0 < length l)%nat ->
  exists s out, runs (drop_optional_ip_header 512) (doh_init [5] ws) s out /\ process2dropFifo s = [] /\ packet 64 out l.
Proof.
  intros Hw Hh Hl.
  destruct (join_packet 64 20 ltac:(lia) _ _ _ _ _ doh_joins (mk_doh DOH_META 0 (mk_axis 0 0 false) [5]) ws (hd ++ l) [])
    as (p & out & Hr & Hout); [|done | rewrite length_app; lia |].
  - intros c input. cbn. by destruct (a_last c).
  - rewrite app_nil_r, list_fmap_id in Hr. rewrite drop_app_length' in Hout by done. by eexists _, out.
Qed.

(** ** Theorems *)

(** C26: The checksum of the packets the module sends and checks is that of RFC 1071,
    for each of the four widths of the words: whatever the length of the header
    (with or without options) and of the packet, the packet is passed on
    unchanged and exactly one checksum is finished, the complement of the ones'
    complement sum of the 16-bit words of the header; with [skipChecksum] the
    checksum field counts as zero.  The process is then ready for the next
    packet. *)
Theorem checksum_rfc1071 (L : nat) (skip : bool) (len0 : Z) ws l :
  L ∈ [2; 4; 8; 16]%nat -> packet (4 * L) ws l -> (5 <= ihl l)%nat -> (4 * ihl l <= length l)%nat ->
  let W := 32 * Z.of_nat L in
  let ready len input := mk_cics (replicate (2 * L) 0) len 0 input in
  exists o len' t, runs (compute_ipv4_checksum skip W) (ready len0 ws) (ready len' []) o /\
    cs_words o = ws /\ cs_sums o = [t] /\
    finalize_ipv4_checksum (2 * L) [t] =
      ([], [internet_checksum (take (4 * ihl l) (if skip then clear_field l else l))]).
Proof.
  intros HL Hw Hh Hl W ready. destruct (packet_sums L skip len0 ws l HL Hw Hh Hl) as (o & len' & t & Hr & Hws & Hs & Hf).
  exists o, len', t. cbn [finalize_ipv4_checksum]. by rewrite Hf.
Qed.

(** A header of 20 bytes and 12 bytes of data over words of 64 bits; the
    checksum in the packet is the right one. *)
Definition rfc_bytes : list Z :=
  [0x45; 0; 0; 0x73; 0; 0; 0x40; 0; 0x40; 0x11; 0xb8; 0x61; 0xc0; 0xa8; 0; 1; 0xc0; 0xa8; 0; 0xc7] ++ repeat 0xAA 12.
Definition rfc_words : list net_axis :=
  [mk_axis 0x0040000073000045 0xFF false; mk_axis 0x0100A8C061B81140 0xFF false; mk_axis 0xAAAAAAAAC700A8C0 0xFF false;
   mk_axis 0xAAAAAAAAAAAAAAAA 0xFF true].

Lemma checksum_rfc1071_witness :
  packet 8 rfc_words rfc_bytes /\
  exists o len' t, runs (compute_ipv4_checksum true 64) (mk_cics (replicate 4 0) 0 0 rfc_words) (mk_cics (replicate 4 0) len' 0 []) o /\
    cs_words o = rfc_words /\ cs_sums o = [t] /\ finalize_ipv4_checksum 4 [t] = ([], [0xb861]).
Proof.
  assert (packet 8 rfc_words rfc_bytes) as Hw.
  { apply (packet_more 8 0x0040000073000045), (packet_more 8 0x0100A8C061B81140), (packet_more 8 0xAAAAAAAAC700A8C0),
      (packet_last 8 0xAAAAAAAAAAAAAAAA 8). lia. }
  split; [exact Hw|].
  apply (checksum_rfc1071 2 true 0 rfc_words rfc_bytes);
    [by apply (bool_decide_unpack _) | exact Hw | apply Nat.leb_le; reflexivity | apply Nat.leb_le; reflexivity].
Defined.
