(* ===== verification/Crc.v ===== *)
(** The invariant CRC of RoCE v2 packets ([crc.cpp]): it is computed over the packet
    with the fields that change on the way masked, put behind the packet on the
    transmit path, and taken off and compared on the receive path.

    Each process is a function of its static variables and input streams; a call is
    one iteration.  [W] is the width of the words and [check] is false in builds with
    [DISABLE_CRC_CHECK]. *)
From stdpp Require Import base numbers list strings.
From Stdlib Require Import ZArith Lia.
From S2P Require Import Prelude Axi.

Local Open Scope Z_scope.

Section crc.
Context (W : Z) (check : bool).

(** ** [extract_icrc] *)

Inductive extractState : Type := EI_FIRST | EI_PKG | EI_LAST.

Record eicrc : Type := mk_eicrc { ei_state : extractState; ei_prevWord : net_axis; ei_input : list net_axis }.

Inductive crc_out : Type :=
| CrcWord (w : net_axis)        (* output *)
| CrcValue (c : Z).             (* rx_crcFifo *)

Definition eicrc_init (input : list net_axis) : eicrc := mk_eicrc EI_FIRST (mk_axis 0 0 false) input.

(** The cases over [keep]: a last word of [4 * k] bytes. *)
Definition keep_case (keep : Z) : option Z :=
  snd <$> list_find (fun k => wrap 64 keep = Z.ones (4 * k)) (seqZ 1 16).

Definition crc_value (c : Z) : list crc_out := if check then [CrcValue c] else [].

(** Of a word that is in none of the cases no CRC is read: [unset] is the value of the
    variable then. *)
Definition extract_last (unset : Z) (p : net_axis) : net_axis * Z :=
  match keep_case (a_keep p) with
  | Some k =>
      (if k =? 1 then p else mk_axis (a_data p) (set_bits (a_keep p) (4 * (k - 1)) 4 0) (a_last p), bits (a_data p) (32 * (k - 1)) 32)
  | None => (p, unset)
  end.

Definition extract_icrc (unset : Z) (s : eicrc) : eicrc * list crc_out :=
  match s with
  | mk_eicrc EI_FIRST p (w :: input) => (mk_eicrc (if a_last w then EI_LAST else EI_PKG) w input, [])
  | mk_eicrc EI_PKG p (w :: input) =>
      if a_last w then
        if Z.testbit (a_keep w) 4 then (mk_eicrc EI_LAST w input, [CrcWord p])
        else (mk_eicrc EI_FIRST w input, crc_value (bits (a_data w) 0 32) ++ [CrcWord (mk_axis (a_data p) (a_keep p) true)])
      else (mk_eicrc EI_PKG w input, [CrcWord p])
  | mk_eicrc EI_LAST p input =>
      let '(p', c) := extract_last unset p in (mk_eicrc EI_FIRST p' input, CrcWord p' :: crc_value c)
  | _ => (s, [])
  end.

(** ** [mask_header_fields]: 424 bits, those of an IPv6, a UDP and a transport header *)

Definition one_mask : Z :=
  let m := set_bits 0 0 4 0xF in let m := set_bits m 8 4 0xF in let m := set_bits m 12 20 0xFFFFF in
  let m := set_bits m 56 8 0xFF in let m := set_bits m 368 16 0xFFFF in set_bits m 416 8 0xFF.

Record mhf : Type := mk_mhf { ai_wordCount : Z; mhf_input : list net_axis }.

Inductive mhf_out : Type :=
| MaskData (w : net_axis)         (* dataOut *)
| MaskMasked (w : net_axis).      (* maskedDataOut *)

Definition mask_header_length : Z := wrap 3 (424 / W).

Definition masked_data (cnt d : Z) : Z :=
  if cnt <? mask_header_length then Z.lor d (bits one_mask (cnt * W) W)
  else if cnt =? mask_header_length then
    set_bits d 0 (424 mod W) (Z.lor (bits d 0 (424 mod W)) (bits one_mask (cnt * W) (424 - cnt * W)))
  else d.

Definition mask_header_fields (s : mhf) : mhf * list mhf_out :=
  match s with
  | mk_mhf cnt (w :: input) =>
      (mk_mhf (if a_last w then 0 else u8 (cnt + 1)) input,
       [MaskMasked (mk_axis (masked_data cnt (a_data w)) (a_keep w) (a_last w)); MaskData w])
  | _ => (s, [])
  end.

(** ** [compute_crc32]: half of the bytes of a word in each of two rounds *)

Definition polynomial : Z := 0xEDB88320.
Definition crc_start : Z := 0xdebb20e3.

(** A step and a byte. *)
Definition crc_bit (crc : Z) : Z := Z.lxor (Z.shiftr crc 1) (Z.land polynomial (u32 (- Z.land crc 1))).
Definition crc_byte (crc b : Z) : Z := Nat.iter 8 crc_bit (Z.lxor crc b).

(** The kept ones of [n] bytes from the [i]th. *)
Definition crc_part (w : net_axis) (i n : nat) (crc : Z) : Z :=
  foldl (fun c i => if Z.testbit (a_keep w) (Z.of_nat i) then crc_byte c (bits (a_data w) (Z.of_nat i * 8) 8) else c) crc (seq i n).

(** [crc_second] is [crcState]. *)
Record cc32 : Type := mk_cc32 { crc_second : bool; cc_crc : Z; cc_currWord : net_axis; cc_input : list net_axis }.

Definition cc32_init (input : list net_axis) : cc32 := mk_cc32 false crc_start (mk_axis 0 0 false) input.

Definition half_bytes : nat := Z.to_nat (W / 8 / 2).

Definition compute_crc32 (s : cc32) : cc32 * list Z :=
  match s with
  | mk_cc32 false crc p (w :: input) => (mk_cc32 true (crc_part w 0 half_bytes crc) w input, [])
  | mk_cc32 true crc p input =>
      let crc := crc_part p half_bytes (Z.to_nat (W / 8) - half_bytes) crc in
      if a_last p then (mk_cc32 false crc_start p input, [crc]) else (mk_cc32 false crc p input, [])
  | _ => (s, [])
  end.

(** ** [insert_icrc] *)

Inductive insertState : Type := II_CRC | II_FWD | II_POST.

Record iicrc : Type := mk_iicrc { ii_state : insertState; ii_crc : Z; ii_crcIn : list Z; ii_input : list net_axis }.

Definition ii_start : insertState := if check then II_CRC else II_FWD.
Definition iicrc_init (crcs : list Z) (input : list net_axis) : iicrc := mk_iicrc ii_start 0xdeadbeef crcs input.

(** Behind a last word that is not full. *)
Definition insert_last (crc : Z) (w : net_axis) : net_axis :=
  match keep_case (a_keep w) with
  | Some k => if k <? 16 then mk_axis (set_bits (a_data w) (32 * k) 32 crc) (set_bits (a_keep w) (4 * k) 4 0xF) (a_last w) else w
  | None => w
  end.

Definition insert_icrc (s : iicrc) : iicrc * list net_axis :=
  match s with
  | mk_iicrc II_CRC crc (c :: crcs) input => (mk_iicrc II_FWD (u32 (Z.lnot c)) crcs input, [])
  | mk_iicrc II_FWD crc crcs (w :: input) =>
      if a_last w then
        if Z.testbit (a_keep w) (W / 8 - 1) then (mk_iicrc II_POST crc crcs input, [mk_axis (a_data w) (a_keep w) false])
        else (mk_iicrc ii_start crc crcs input, [insert_last crc w])
      else (mk_iicrc II_FWD crc crcs input, [w])
  | mk_iicrc II_POST crc crcs input => (mk_iicrc ii_start crc crcs input, [mk_axis crc 0xF true])
  | _ => (s, [])
  end.

(** ** [round_robin_arbiter] and [round_robin_merger]: packets go to two processes in turn *)

(** [true] is the first output. *)
Definition round_robin_arbiter (s : bool * list net_axis) : (bool * list net_axis) * list (bool * net_axis) :=
  match s with
  | (one, w :: input) => ((if a_last w then negb one else one, input), [(one, w)])
  | _ => (s, [])
  end.

Record rrm : Type := mk_rrm { one_m : bool; rrm_in1 : list Z; rrm_in2 : list Z }.

Definition round_robin_merger (s : rrm) : rrm * list Z :=
  match s with
  | mk_rrm true (c :: in1) in2 => (mk_rrm false in1 in2, [c])
  | mk_rrm false in1 (c :: in2) => (mk_rrm true in1 in2, [c])
  | _ => (s, [])
  end.

(** ** [drop_invalid_crc] *)

Inductive dropState : Type := DC_META | DC_FWD | DC_DROP.

Record dic : Type := mk_dic { dc_state : dropState; droppedPackts : Z; dc_crcs : list Z; dc_calcCrcs : list Z; dc_input : list net_axis }.

Inductive dic_out : Type :=
| DicWord (w : net_axis)       (* output *)
| DicCount (n : Z).            (* regCrcDropPkgCount *)

(** A packet whose CRC is wrong is counted; it is forwarded all the same. *)
Definition drop_invalid_crc (s : dic) : dic * list dic_out :=
  match s with
  | mk_dic DC_META n (act :: crcs) (calc :: calcs) input =>
      if act =? u32 (Z.lnot calc) then (mk_dic DC_FWD n crcs calcs input, [])
      else (mk_dic DC_FWD (u32 (n + 1)) crcs calcs input, [DicCount (u32 (n + 1))])
  | mk_dic DC_FWD n crcs calcs (w :: input) =>
      (mk_dic (if a_last w then DC_META else DC_FWD) n crcs calcs input, [DicWord w])
  | mk_dic DC_DROP n crcs calcs (w :: input) => (mk_dic (if a_last w then DC_META else DC_DROP) n crcs calcs input, [])
  | _ => (s, [])
  end.

End crc.

Example crc_check_value : u32 (Z.lnot (foldl crc_byte 0xFFFFFFFF [49; 50; 51; 52; 53; 54; 55; 56; 57])) = 0xCBF43926.
Proof. by vm_compute. Qed.

Example crc_start_ones : foldl crc_byte 0xFFFFFFFF (replicate 8 0xFF) = crc_start.
Proof. by vm_compute. Qed.
