(* ===== verification/CrcFacts.v ===== *)
(** The CRC of [Crc] as a code: it is the remainder of the packet as a polynomial over
    GF(2), and packets that differ in a burst of at most 32 bits have different CRCs. *)
From stdpp Require Import base numbers list strings.
From Stdlib Require Import ZArith Lia.
From S2P Require Import Prelude Axi Streams StreamsFacts Wire Ipv4Facts Crc.

Local Open Scope Z_scope.

(** ** The step is linear and injective *)

Lemma land_1 x : Z.land x 1 = Z.b2z (Z.testbit x 0).
Proof. change 1 with (Z.ones 1). rewrite Z.land_ones, Z.bit0_mod by lia. done. Qed.

Definition when (b : bool) (x : Z) : Z := if b then x else 0.

Lemma when_xor b b' x : when (xorb b b') x = Z.lxor (when b x) (when b' x).
Proof. destruct b, b'; cbn; rewrite ?Z.lxor_0_r, ?Z.lxor_0_l, ?Z.lxor_nilpotent; done. Qed.

Lemma crc_bit_when x : crc_bit x = Z.lxor (Z.shiftr x 1) (when (Z.testbit x 0) polynomial).
Proof. unfold crc_bit. rewrite land_1. by destruct (Z.testbit x 0). Qed.

Lemma crc_bit_lxor x y : crc_bit (Z.lxor x y) = Z.lxor (crc_bit x) (crc_bit y).
Proof.
  rewrite !crc_bit_when, Z.lxor_spec, when_xor, Z.shiftr_lxor, !Z.lxor_assoc. f_equal.
  rewrite <- !Z.lxor_assoc. f_equal. apply Z.lxor_comm.
Qed.

Lemma crc_bit_double x : crc_bit (2 * x) = x.
Proof.
  rewrite crc_bit_when, Z.testbit_even_0. cbn [when]. rewrite Z.lxor_0_r, Z.shiftr_div_pow2, Z.mul_comm by lia. by apply Z.div_mul.
Qed.

Lemma crc_bit_fits x : fits 32 x -> fits 32 (crc_bit x).
Proof.
  intros Hx. rewrite crc_bit_when. apply fits_lxor; [lia| |].
  - unfold fits in *. rewrite Z.shiftr_div_pow2 by lia. split; [apply Z.div_pos; lia|]. apply Z.div_lt_upper_bound; lia.
  - by destruct (Z.testbit x 0).
Qed.

Lemma crc_bit_zero x : fits 32 x -> crc_bit x = 0 -> x = 0.
Proof.
  unfold fits. intros Hx E. rewrite crc_bit_when in E. apply Z.lxor_eq in E.
  pose proof (Z.div2_odd x) as Ho. rewrite <- Z.bit0_odd in Ho. rewrite <- Z.div2_spec in E.
  destruct (Z.testbit x 0); cbn [when Z.b2z] in *; unfold polynomial in *; lia.
Qed.

Lemma crc_bit_inj x y : fits 32 x -> fits 32 y -> crc_bit x = crc_bit y -> x = y.
Proof.
  intros Hx Hy E. apply Z.lxor_eq, crc_bit_zero; [by apply fits_lxor; [lia|..]|]. by rewrite crc_bit_lxor, E, Z.lxor_nilpotent.
Qed.

(** ** Bit by bit *)

Definition crc_feed (c : Z) (b : bool) : Z := crc_bit (Z.lxor c (Z.b2z b)).

(** The lowest [n] bits of a number, the lowest first, and the bits of bytes. *)
Fixpoint bits_of (n : nat) (x : Z) : list bool :=
  match n with 0%nat => [] | S n => Z.testbit x 0 :: bits_of n (Z.shiftr x 1) end.
Definition byte_bits (l : list Z) : list bool := l ≫= bits_of 8.

Lemma length_bits_of n x : length (bits_of n x) = n.
Proof. revert x. induction n as [|n IH]; intros x; [done|]. cbn. by rewrite IH. Qed.

(** Feeding the bits of a number is adding it and taking as many steps. *)
Lemma feed_bits n : forall c x, fits (Z.of_nat n) x -> foldl crc_feed c (bits_of n x) = Nat.iter n crc_bit (Z.lxor c x).
Proof.
  induction n as [|n IH]; intros c x Hx.
  - assert (x = 0) as -> by (unfold fits in Hx; cbn in Hx; lia). cbn. by rewrite Z.lxor_0_r.
  - cbn [bits_of foldl]. rewrite IH.
    2: { unfold fits in *. rewrite Z.shiftr_div_pow2 by lia. split; [apply Z.div_pos; lia|]. apply Z.div_lt_upper_bound; [lia|].
         rewrite <- Z.pow_add_r by lia. replace (1 + Z.of_nat n) with (Z.of_nat (S n)) by lia. lia. }
    rewrite Nat.iter_succ_r. f_equal. unfold crc_feed.
    rewrite <- (crc_bit_double (Z.shiftr x 1)), <- crc_bit_lxor, Z.lxor_assoc. do 2 f_equal.
    apply Z.bits_inj'. intros i Hi. rewrite Z.lxor_spec. destruct (Z.eq_dec i 0) as [->|Hne].
    + rewrite Z.testbit_even_0, xorb_false_r. by destruct (Z.testbit x 0).
    + replace i with (Z.succ (i - 1)) by lia. rewrite Z.testbit_even_succ, Z.shiftr_spec by lia.
      assert (Z.testbit (Z.b2z (Z.testbit x 0)) (Z.succ (i - 1)) = false) as ->.
      { destruct (Z.testbit x 0); [|apply Z.bits_0]. apply Z.bits_above_log2; cbn; lia. }
      by rewrite xorb_false_l.
Qed.

Lemma feed_byte c b : fits 8 b -> crc_byte c b = foldl crc_feed c (bits_of 8 b).
Proof. intros Hb. by rewrite feed_bits. Qed.

Lemma feed_bytes l : Forall (fits 8) l -> forall c, foldl crc_byte c l = foldl crc_feed c (byte_bits l).
Proof.
  induction 1 as [|b l Hb Hl IH]; intros c; [done|].
  unfold byte_bits in *. rewrite bind_cons, foldl_app, <- feed_byte by done. apply IH.
Qed.

Lemma crc_feed_fits c b : fits 32 c -> fits 32 (crc_feed c b).
Proof. intros Hc. apply crc_bit_fits, fits_lxor; [lia | done | by destruct b]. Qed.

Lemma feeds_fit l : forall c, fits 32 c -> fits 32 (foldl crc_feed c l).
Proof. induction l as [|b l IH]; intros c Hc; [done|]. apply IH. by apply crc_feed_fits. Qed.

Lemma feeds_inj l : forall c c', fits 32 c -> fits 32 c' -> foldl crc_feed c l = foldl crc_feed c' l -> c = c'.
Proof.
  induction l as [|b l IH]; intros c c' Hc Hc' E; [done|].
  apply IH in E; [|by apply crc_feed_fits..]. unfold crc_feed in E.
  apply crc_bit_inj in E; [|by apply fits_lxor; [lia| |destruct b]..].
  apply (f_equal (fun z => Z.lxor z (Z.b2z b))) in E. by rewrite !Z.lxor_assoc, Z.lxor_nilpotent, !Z.lxor_0_r in E.
Qed.

(** ** Bursts *)

Definition bits_val (l : list bool) : Z := foldr (fun b acc => Z.b2z b + 2 * acc) 0 l.

Lemma bits_val_fits l : fits (Z.of_nat (length l)) (bits_val l).
Proof.
  induction l as [|b l IH]; [by cbn|]. unfold fits in *. cbn [length bits_val foldr] in *. fold (bits_val l) in *.
  rewrite Nat2Z.inj_succ, Z.pow_succ_r by lia. destruct b; cbn [Z.b2z]; lia.
Qed.

Lemma bits_of_val l : bits_of (length l) (bits_val l) = l.
Proof.
  induction l as [|b l IH]; [done|]. cbn [length bits_of bits_val foldr]. fold (bits_val l).
  rewrite Z.bit0_odd, Z.odd_add_mul_2, Z.shiftr_div_pow2 by lia. f_equal; [by destruct b|].
  assert ((Z.b2z b + 2 * bits_val l) / 2 ^ 1 = bits_val l) as ->; [|exact IH].
  symmetry. apply Z.div_unique with (Z.b2z b); destruct b; cbn [Z.b2z]; lia.
Qed.

Lemma iter_bit_inj n : forall x y, fits 32 x -> fits 32 y -> Nat.iter n crc_bit x = Nat.iter n crc_bit y -> x = y.
Proof.
  induction n as [|n IH]; intros x y Hx Hy E; [done|]. rewrite !Nat.iter_succ_r in E.
  apply IH in E; [by apply crc_bit_inj | by apply crc_bit_fits..].
Qed.

Lemma burst_differs c pre b b' post :
  fits 32 c -> length b = length b' -> (length b <= 32)%nat -> b <> b' ->
  foldl crc_feed c (pre ++ b ++ post) <> foldl crc_feed c (pre ++ b' ++ post).
Proof.
  intros Hc Hl Hn Hb. rewrite !foldl_app. set (s := foldl crc_feed c pre).
  assert (fits 32 s) as Hs by by apply feeds_fit.
  intros E. apply feeds_inj in E; [|by apply feeds_fit..].
  rewrite <- (bits_of_val b), <- (bits_of_val b'), !feed_bits, Hl in E by apply bits_val_fits.
  assert (forall l, (length l <= 32)%nat -> fits 32 (bits_val l)) as Hv.
  { intros l Hl'. apply (fits_weaken (Z.of_nat (length l))); [lia | apply bits_val_fits]. }
  apply iter_bit_inj in E; [|apply fits_lxor; [lia | done | apply Hv; lia]..].
  apply Hb. rewrite <- (bits_of_val b), <- (bits_of_val b'), Hl. f_equal.
  apply (f_equal (Z.lxor s)) in E. by rewrite <- !Z.lxor_assoc, Z.lxor_nilpotent, !Z.lxor_0_l in E.
Qed.

(** ** Polynomials over GF(2), the coefficient of the highest power first *)

Definition horner {A} (f : A -> Z) (acc : Z) (l : list A) : Z := foldl (fun acc b => Z.lxor (Z.shiftl acc 1) (f b)) acc l.
Definition poly (l : list bool) : Z := horner Z.b2z 0 l.
Definition gf2_mul (q : list bool) (p : Z) : Z := horner (fun t => when t p) 0 q.

(** The polynomial of Ethernet, x^32 included, and a CRC with its bits in that order. *)
Definition ethernet_poly : Z := 0x104C11DB7.
Definition rev32 (c : Z) : Z := poly (bits_of 32 c).

Lemma horner_snoc {A} (f : A -> Z) acc l b : horner f acc (l ++ [b]) = Z.lxor (Z.shiftl (horner f acc l) 1) (f b).
Proof. unfold horner. by rewrite foldl_app. Qed.

Lemma horner_acc {A} (f : A -> Z) acc l : horner f acc l = Z.lxor (Z.shiftl acc (Z.of_nat (length l))) (horner f 0 l).
Proof.
  induction l as [|b l IH] using rev_ind; [by cbn; rewrite Z.lxor_0_r|].
  rewrite !horner_snoc, IH, length_app, Z.shiftl_lxor, Z.shiftl_shiftl, Z.lxor_assoc by lia. cbn [length]. do 2 f_equal. lia.
Qed.

Lemma poly_cons b l : poly (b :: l) = Z.lxor (Z.shiftl (Z.b2z b) (Z.of_nat (length l))) (poly l).
Proof. unfold poly. rewrite <- horner_acc. by destruct b. Qed.

Lemma bits_of_snoc n x : bits_of (S n) x = bits_of n x ++ [Z.testbit x (Z.of_nat n)].
Proof.
  revert x. induction n as [|n IH]; intros x; [done|]. change (bits_of (S (S n)) x) with (Z.testbit x 0 :: bits_of (S n) (Z.shiftr x 1)).
  rewrite IH. cbn [bits_of app]. rewrite Z.shiftr_spec by lia. do 4 f_equal. lia.
Qed.

Lemma poly_lxor n x y : poly (bits_of n (Z.lxor x y)) = Z.lxor (poly (bits_of n x)) (poly (bits_of n y)).
Proof.
  induction n as [|n IH]; [done|]. rewrite !bits_of_snoc. unfold poly in *. rewrite !horner_snoc, IH, Z.shiftl_lxor, Z.lxor_spec.
  rewrite !Z.lxor_assoc. f_equal. rewrite (Z.lxor_comm (Z.b2z _)), !Z.lxor_assoc. f_equal.
  by destruct (Z.testbit x _), (Z.testbit y _).
Qed.

Lemma rev32_lxor x y : rev32 (Z.lxor x y) = Z.lxor (rev32 x) (rev32 y).
Proof. exact (poly_lxor 32 x y). Qed.

Lemma rev32_when b x : rev32 (when b x) = when b (rev32 x).
Proof. destruct b; cbn [when]; [reflexivity | vm_compute; reflexivity]. Qed.

Lemma rev32_shift c : fits 32 c -> Z.shiftl (rev32 c) 1 = Z.lxor (when (Z.testbit c 0) (2 ^ 32)) (rev32 (Z.shiftr c 1)).
Proof.
  intros Hc. unfold rev32. rewrite (bits_of_snoc 31 (Z.shiftr c 1)).
  assert (Z.testbit (Z.shiftr c 1) (Z.of_nat 31) = false) as ->.
  { rewrite Z.shiftr_spec by lia. apply (fits_testbit 32); [lia | done | lia]. }
  change (bits_of 32 c) with (Z.testbit c 0 :: bits_of 31 (Z.shiftr c 1)).
  rewrite poly_cons, length_bits_of, Z.shiftl_lxor. unfold poly. rewrite horner_snoc. cbn [Z.b2z]. rewrite Z.lxor_0_r.
  f_equal. by destruct (Z.testbit c 0).
Qed.

Lemma rev32_bit c : fits 32 c -> rev32 (crc_bit c) = Z.lxor (Z.shiftl (rev32 c) 1) (when (Z.testbit c 0) ethernet_poly).
Proof.
  intros Hc. rewrite rev32_shift, crc_bit_when, rev32_lxor, rev32_when by done. rewrite (Z.lxor_comm (when _ (2 ^ 32))), Z.lxor_assoc. f_equal.
  destruct (Z.testbit c 0); vm_compute; reflexivity.
Qed.

Lemma rev32_feed c b :
  fits 32 c ->
  exists t, rev32 (crc_feed c b) = Z.lxor (Z.lxor (Z.shiftl (rev32 c) 1) (Z.shiftl (Z.b2z b) 32)) (when t ethernet_poly).
Proof.
  intros Hc. exists (Z.testbit (Z.lxor c (Z.b2z b)) 0). unfold crc_feed.
  assert (Z.shiftl (rev32 (Z.b2z b)) 1 = Z.shiftl (Z.b2z b) 32) as <- by (destruct b; vm_compute; reflexivity).
  rewrite <- Z.shiftl_lxor, <- rev32_lxor. apply rev32_bit, fits_lxor; [lia | done | by destruct b].
Qed.

(** The CRC is the remainder of the message, with its start value in front and 32
    zeros behind. *)
Lemma feeds_remainder c l :
  fits 32 c ->
  exists q, Z.lxor (gf2_mul q ethernet_poly) (rev32 (foldl crc_feed c l)) =
    Z.lxor (Z.shiftl (rev32 c) (Z.of_nat (length l))) (Z.shiftl (poly l) 32).
Proof.
  intros Hc. induction l as [|b l [q IH]] using rev_ind.
  - exists []. unfold gf2_mul, poly, horner. cbn [foldl length Z.of_nat]. by rewrite Z.lxor_0_l, !Z.shiftl_0_l, Z.shiftl_0_r, Z.lxor_0_r.
  - rewrite foldl_app. cbn [foldl]. destruct (rev32_feed (foldl crc_feed c l) b) as [t Ht]; [by apply feeds_fit|].
    exists (q ++ [t]). unfold gf2_mul, poly in *. rewrite Ht, !horner_snoc, length_app. cbn [length].
    replace (Z.of_nat (length l + 1)) with (Z.of_nat (length l) + 1) by lia.
    assert (forall z, Z.shiftl (Z.shiftl z 1) 32 = Z.shiftl (Z.shiftl z 32) 1) as Hcomm by (intros z; rewrite !Z.shiftl_shiftl by lia; done).
    rewrite <- (Z.shiftl_shiftl (rev32 c)), (Z.shiftl_lxor _ (Z.b2z b) 32), Hcomm by lia.
    apply (f_equal (fun z => Z.lxor (Z.shiftl z 1) (Z.shiftl (Z.b2z b) 32))) in IH. rewrite !Z.shiftl_lxor, (Z.lxor_assoc (Z.shiftl (Z.shiftl _ _) 1)) in IH.
    rewrite <- IH.
    set (A := Z.shiftl (horner _ 0 q) 1). set (B := Z.shiftl (rev32 _) 1). set (T := when t ethernet_poly).
    rewrite (Z.lxor_comm (Z.lxor B _) T), !Z.lxor_assoc, <- (Z.lxor_assoc T T), Z.lxor_nilpotent, Z.lxor_0_l. done.
Qed.

(** ** [compute_crc32] over a packet *)

Lemma le_bytes_map k d : le_bytes k d = map (fun i => bits d (Z.of_nat i * 8) 8) (seq 0 k).
Proof.
  revert d. induction k as [|k IH]; intros d; [done|]. cbn [le_bytes seq map]. rewrite bits_wrap, Z.shiftr_0_r by lia. f_equal.
  rewrite IH, <- seq_shift, map_map. apply map_ext. intros i. rewrite !bits_wrap, Z.shiftr_shiftr by lia. do 2 f_equal. lia.
Qed.

Lemma crc_part_app w i a b c : crc_part w (i + a) b (crc_part w i a c) = crc_part w i (a + b) c.
Proof. unfold crc_part. by rewrite seq_app, foldl_app. Qed.

Lemma crc_part_kept d k last a c :
  (a <= k)%nat -> crc_part (mk_axis d (Z.ones (Z.of_nat k)) last) 0 a c = foldl crc_byte c (le_bytes a d).
Proof.
  intros Ha. unfold crc_part. cbn [a_keep a_data]. rewrite le_bytes_map.
  assert (forall i, In i (seq 0 a) -> (i < k)%nat) as Hk by (intros i Hi; apply in_seq in Hi; lia).
  revert c Hk. induction (seq 0 a) as [|i l IH]; intros c Hk; [done|]. cbn [foldl map].
  rewrite ones_testbit by lia. assert (i < k)%nat by (apply Hk; by left). replace (Z.of_nat i <? Z.of_nat k) with true by lia.
  apply IH. intros j Hj. apply Hk. by right.
Qed.

Lemma crc_part_dropped d k last b : forall c, crc_part (mk_axis d (Z.ones (Z.of_nat k)) last) k b c = c.
Proof.
  unfold crc_part. cbn [a_keep a_data]. assert (forall i, In i (seq k b) -> (k <= i)%nat) as Hk by (intros i Hi; apply in_seq in Hi; lia).
  revert Hk. induction (seq k b) as [|i l IH]; intros Hk c; [done|]. cbn [foldl].
  rewrite ones_testbit by lia. assert (k <= i)%nat by (apply Hk; by left). replace (Z.of_nat i <? Z.of_nat k) with false by lia.
  apply IH. intros j Hj. apply Hk. by right.
Qed.

Section compute.
Context (n : nat).
Local Abbreviation W := (8 * Z.of_nat n).

Lemma crc_word d k last c :
  (k <= n)%nat ->
  crc_part (mk_axis d (Z.ones (Z.of_nat k)) last) (half_bytes W) (Z.to_nat (W / 8) - half_bytes W)
    (crc_part (mk_axis d (Z.ones (Z.of_nat k)) last) 0 (half_bytes W) c) = foldl crc_byte c (take k (le_bytes n d)).
Proof.
  intros Hk. set (w := mk_axis _ _ last). assert (W / 8 = Z.of_nat n) as E by (rewrite Z.mul_comm; by apply Z.div_mul).
  assert (half_bytes W <= n)%nat as Hh. { unfold half_bytes. rewrite E. pose proof (Z.div_lt_upper_bound (Z.of_nat n) 2 (Z.of_nat n + 1)). lia. }
  rewrite E, Nat2Z.id. change (half_bytes W) with (0 + half_bytes W)%nat at 1. rewrite crc_part_app.
  replace (half_bytes W + (n - half_bytes W))%nat with (k + (n - k))%nat by lia.
  rewrite <- crc_part_app. unfold w. by rewrite crc_part_kept, crc_part_dropped, take_le_bytes_le by lia.
Qed.

Lemma compute_packet ws l rest : packet n ws l -> forall c p,
  exists p', runs (compute_crc32 W) (mk_cc32 false c p (ws ++ rest)) (mk_cc32 false crc_start p' rest) [foldl crc_byte c l].
Proof.
  induction 1 as [d k Hk|d ws l Hw IH]; intros c p.
  - eexists. eapply (runs_step _ _ _ _ []); [reflexivity|]. apply runs_one. cbn [compute_crc32 a_last]. by rewrite crc_word by lia.
  - set (w := mk_axis d (Z.ones (Z.of_nat n)) false). destruct (IH (foldl crc_byte c (le_bytes n d)) w) as [p' Hr].
    exists p'. eapply (runs_step _ _ _ _ []); [reflexivity|]. rewrite foldl_app. eapply (runs_step _ _ _ _ []); [|exact Hr].
    cbn [compute_crc32 a_last w]. unfold w. rewrite crc_word by lia. by rewrite take_ge by (rewrite length_le_bytes; lia).
Qed.

(** C19: The CRC of a packet is the remainder, by the polynomial of Ethernet over GF(2), of the
    packet with eight bytes of ones in front: the register starts with ones, and the value
    the code starts with is the one after those bytes. *)
Theorem crc_is_remainder ws l :
  packet n ws l ->
  exists p c q,
    runs (compute_crc32 W) (cc32_init ws) (mk_cc32 false crc_start p []) [c] /\ fits 32 c /\
    let message := byte_bits (replicate 8 0xFF ++ l) in
    Z.lxor (gf2_mul q ethernet_poly) (rev32 c) =
      Z.lxor (Z.shiftl (2 ^ 32 - 1) (Z.of_nat (length message))) (Z.shiftl (poly message) 32).
Proof.
  intros Hw. destruct (compute_packet ws l [] Hw crc_start (mk_axis 0 0 false)) as [p Hr]. rewrite app_nil_r in Hr.
  destruct (feeds_remainder 0xFFFFFFFF (byte_bits (replicate 8 0xFF ++ l)) ltac:(by vm_compute)) as [q Hq].
  pose proof (packet_fits _ _ _ Hw) as Fl.
  assert (foldl crc_byte crc_start l = foldl crc_feed 0xFFFFFFFF (byte_bits (replicate 8 0xFF ++ l))) as E.
  { rewrite <- feed_bytes, foldl_app, crc_start_ones; [done|]. apply Forall_app. split; [by apply Forall_replicate | done]. }
  exists p, (foldl crc_byte crc_start l), q. split; [exact Hr|]. rewrite E. split; [by apply feeds_fit|]. rewrite Hq. f_equal.
Qed.

Lemma crc_bytes_fits l : Forall (fits 8) l -> fits 32 (foldl crc_byte crc_start l).
Proof. intros Hl. rewrite feed_bytes by done. apply feeds_fit. by vm_compute. Qed.

(** Bytes whose bits differ in a burst of at most 32. *)
Definition burst (l l' : list Z) : Prop :=
  exists pre b b' post, byte_bits l = pre ++ b ++ post /\ byte_bits l' = pre ++ b' ++ post /\
    length b = length b' /\ (length b <= 32)%nat /\ b <> b'.

Lemma burst_crc l l' :
  Forall (fits 8) l -> Forall (fits 8) l' -> burst l l' -> foldl crc_byte crc_start l <> foldl crc_byte crc_start l'.
Proof.
  intros Hl Hl' (pre & b & b' & post & E & E' & Hlen & Hmax & Hne). rewrite !feed_bytes, E, E' by done.
  apply burst_differs; [by vm_compute | done..].
Qed.

(** Packets that differ in a burst of at most 32 bits have different CRCs. *)
Theorem burst_detected ws ws' l l' :
  packet n ws l -> packet n ws' l' -> burst l l' ->
  exists p p' c c',
    runs (compute_crc32 W) (cc32_init ws) (mk_cc32 false crc_start p []) [c] /\
    runs (compute_crc32 W) (cc32_init ws') (mk_cc32 false crc_start p' []) [c'] /\ c <> c'.
Proof.
  intros Hw Hw' Hb.
  destruct (compute_packet ws l [] Hw crc_start (mk_axis 0 0 false)) as [p Hr]. destruct (compute_packet ws' l' [] Hw' crc_start (mk_axis 0 0 false)) as [p' Hr'].
  rewrite app_nil_r in Hr, Hr'. exists p, p'. eexists _, _. split; [exact Hr|]. split; [exact Hr'|].
  apply burst_crc; [by eapply packet_fits.. | done].
Qed.
End compute.

(** Two words, the second of two bytes. *)
Definition crc_demo (x : Z) : list net_axis := [mk_axis 0x0807060504030201 (Z.ones 8) false; mk_axis x (Z.ones 2) true].

Lemma crc_demo_packet x : packet 8 (crc_demo x) ([1; 2; 3; 4; 5; 6; 7; 8] ++ take 2 (le_bytes 8 x)).
Proof. apply (packet_more 8 0x0807060504030201), (packet_last 8 x 2). lia. Qed.

Lemma crc_is_remainder_witness :
  exists p c q, runs (compute_crc32 64) (cc32_init (crc_demo 0x0A09)) (mk_cc32 false crc_start p []) [c] /\
    let message := byte_bits (replicate 8 0xFF ++ [1; 2; 3; 4; 5; 6; 7; 8; 9; 10]) in
    Z.lxor (gf2_mul q ethernet_poly) (rev32 c) =
      Z.lxor (Z.shiftl (2 ^ 32 - 1) (Z.of_nat (length message))) (Z.shiftl (poly message) 32).
Proof.
  destruct (crc_is_remainder 8 (crc_demo 0x0A09) [1; 2; 3; 4; 5; 6; 7; 8; 9; 10] (crc_demo_packet 0x0A09)) as (p & c & q & Hr & _ & E).
  exists p, c, q. split; [exact Hr | exact E].
Defined.

Lemma burst_detected_witness :
  exists p p' c c',
    runs (compute_crc32 64) (cc32_init (crc_demo 0x0A09)) (mk_cc32 false crc_start p []) [c] /\
    runs (compute_crc32 64) (cc32_init (crc_demo 0x0809)) (mk_cc32 false crc_start p' []) [c'] /\ c <> c'.
Proof.
  apply (burst_detected 8 (crc_demo 0x0A09) (crc_demo 0x0809) _ _ (crc_demo_packet 0x0A09) (crc_demo_packet 0x0809)).
  exists (byte_bits [1; 2; 3; 4; 5; 6; 7; 8; 9]), (bits_of 8 10), (bits_of 8 8), [].
  split; [reflexivity|]. split; [reflexivity|]. split; [reflexivity|]. split; [cbn; lia | discriminate].
Defined.


