(* ===== verification/CrcWire.v ===== *)
(** The CRC of [Crc] on the wire: what the transmit path puts behind packets, the receive
    path takes off, compares and counts; packets arrive as they were sent. *)
From stdpp Require Import base numbers list strings.
From Stdlib Require Import ZArith Lia.
From S2P Require Import Prelude Axi Streams StreamsFacts Wire Ipv4Facts Crc CrcFacts.

Local Open Scope Z_scope.

(** ** Bytes under a mask *)

Definition mask_bytes (m : Z) (l : list Z) : list Z := zip_with Z.lor l (le_bytes (length l) m).

Lemma le_bytes_lor n x y : le_bytes n (Z.lor x y) = zip_with Z.lor (le_bytes n x) (le_bytes n y).
Proof.
  revert x y. induction n as [|n IH]; intros x y; [done|]. cbn [le_bytes zip_with]. rewrite Z.shiftr_lor, IH. f_equal.
  rewrite !wrap_land by lia. apply Z.land_lor_distr_l.
Qed.

Lemma mask_bytes_app m l l' : mask_bytes m (l ++ l') = mask_bytes m l ++ mask_bytes (Z.shiftr m (8 * Z.of_nat (length l))) l'.
Proof. unfold mask_bytes. by rewrite length_app, le_bytes_app, zip_with_app by (by rewrite length_le_bytes). Qed.

Lemma mask_bytes_take k n m d : (k <= n)%nat -> mask_bytes m (take k (le_bytes n d)) = take k (le_bytes n (Z.lor d m)).
Proof.
  intros Hk. rewrite !take_le_bytes_le by done. unfold mask_bytes. by rewrite length_le_bytes, le_bytes_lor.
Qed.

Lemma length_mask_bytes m l : length (mask_bytes m l) = length l.
Proof. unfold mask_bytes. rewrite length_zip_with, length_le_bytes. lia. Qed.

Lemma one_mask_fits : fits 424 one_mask.
Proof. by vm_compute. Qed.

Lemma mask_fits l : Forall (fits 8) l -> Forall (fits 8) (mask_bytes one_mask l).
Proof.
  intros Hl. unfold mask_bytes. generalize one_mask as m. induction Hl as [|b l Hb Hl IH]; intros m; [constructor|].
  cbn [length le_bytes zip_with]. constructor; [|apply IH]. apply fits_lor; [lia | done | by apply wrap_range].
Qed.

Lemma crc_complement a b : fits 32 a -> fits 32 b -> u32 (Z.lnot a) = u32 (Z.lnot b) -> a = b.
Proof.
  unfold fits. intros Ha Hb. assert (forall x, 0 <= x < 2 ^ 32 -> u32 (Z.lnot x) = 2 ^ 32 - 1 - x) as H.
  { intros x Hx. unfold wrap, Z.lnot. symmetry. apply Z.mod_unique with (-1); lia. }
  rewrite !H by done. lia.
Qed.

Section wire.
Context (n : nat) (n_low : (8 <= n)%nat) (n_high : (n <= 64)%nat).
Local Abbreviation W := (8 * Z.of_nat n).

Lemma header_words : mask_header_length W = 424 / W /\ 0 <= 424 / W < 7.
Proof.
  assert (0 <= 424 / W < 7) as H by (split; [apply Z.div_pos; lia | apply Z.div_lt_upper_bound; lia]).
  split; [|done]. apply wrap_small. unfold fits. lia.
Qed.

Lemma mask_high cnt i : 424 <= i + cnt * W -> 0 <= i -> 0 <= cnt -> Z.testbit (Z.shiftr one_mask (cnt * W)) i = false.
Proof. intros. rewrite Z.shiftr_spec by lia. apply (fits_testbit 424); [lia | apply one_mask_fits | lia]. Qed.

(** Every word is masked with the part of the mask at its place. *)
Lemma masked_word cnt d : 0 <= cnt -> le_bytes n (masked_data W cnt d) = le_bytes n (Z.lor d (Z.shiftr one_mask (cnt * W))).
Proof.
  intros Hc. destruct header_words as [Eh Hh]. pose proof (Z.div_mod 424 W ltac:(lia)) as Hd. pose proof (Z.mod_pos_bound 424 W ltac:(lia)) as Hm.
  unfold masked_data. rewrite Eh. apply le_bytes_ext. intros i Hi. rewrite Z.lor_spec.
  destruct (Z.ltb_spec cnt (424 / W)); [|destruct (Z.eqb_spec cnt (424 / W)) as [->|Hne]].
  - rewrite Z.lor_spec, bits_testbit, Z.shiftr_spec by lia. by replace (i <? W) with true by lia.
  - rewrite set_bits_testbit by lia. destruct (Z.ltb_spec i (424 mod W)).
    + replace ((0 <=? i) && (i <? 0 + 424 mod W)) with true by lia. rewrite Z.lor_spec, !bits_testbit, Z.shiftr_spec by lia.
      replace (i - 0 <? 424 mod W) with true by lia. replace (i - 0 <? 424 - 424 / W * W) with true by lia. cbn [andb]. by rewrite Z.sub_0_r, Z.add_0_r.
    + replace ((0 <=? i) && (i <? 0 + 424 mod W)) with false by lia. by rewrite mask_high, orb_false_r by lia.
  - rewrite mask_high, orb_false_r by nia. done.
Qed.

Definition mask_data (o : list mhf_out) : list net_axis := omap (fun x => match x with MaskData w => Some w | _ => None end) o.
Definition mask_masked (o : list mhf_out) : list net_axis := omap (fun x => match x with MaskMasked w => Some w | _ => None end) o.

Lemma mask_packet_from ws l rest : packet n ws l -> forall cnt, 0 <= cnt -> cnt + Z.of_nat (length ws) <= 256 ->
  exists o ms, runs (mask_header_fields W) (mk_mhf cnt (ws ++ rest)) (mk_mhf 0 rest) o /\
    mask_data o = ws /\ mask_masked o = ms /\ packet n ms (mask_bytes (Z.shiftr one_mask (cnt * W)) l).
Proof.
  induction 1 as [d k Hk|d ws l Hw IH]; intros cnt Hc Hb; cbn [length] in Hb.
  - eexists _, _. split; [apply runs_one; reflexivity|]. split; [done|]. split; [reflexivity|].
    eapply packet_one; [done | done | exact Hk|]. cbn [a_data]. by rewrite mask_bytes_take, masked_word by lia.
  - destruct (packet_nonempty _ _ _ Hw) as (w & ws' & E). assert (1 <= Z.of_nat (length ws)) by (rewrite E; cbn [length]; lia).
    destruct (IH (cnt + 1) ltac:(lia) ltac:(lia)) as (o & ms & Hr & Ho & Hm & Hp).
    eexists _, _. split; [|split; [|split; [reflexivity|]]].
    + eapply runs_step; [reflexivity|]. cbn [a_last]. rewrite wrap_small by (unfold fits; lia). exact Hr.
    + unfold mask_data in *. cbn [omap list_omap app]. by rewrite Ho.
    + unfold mask_masked in *. cbn [omap list_omap app]. rewrite Hm. eapply packet_cons; [done | done | exact Hp|].
      cbn [a_data]. rewrite mask_bytes_app, length_le_bytes, masked_word by lia. f_equal.
      * rewrite <- (take_ge (le_bytes n d) n) at 1 by (by rewrite length_le_bytes). rewrite mask_bytes_take by lia.
        by rewrite take_ge by (by rewrite length_le_bytes).
      * f_equal. rewrite Z.shiftr_shiftr by lia. f_equal. lia.
Qed.

(** The bytes the CRC is computed over, and the CRC on the wire. *)
Definition masked (l : list Z) : list Z := mask_bytes one_mask l.
Definition icrc (l : list Z) : Z := u32 (Z.lnot (foldl crc_byte crc_start (masked l))).

(** Packets the counter of words does not overflow on. *)
Definition short (l : list Z) : Prop := (length l <= 256 * n)%nat.

Lemma packet_count ws l : packet n ws l -> (n * length ws < length l + n)%nat.
Proof.
  induction 1 as [d k Hk|d ws l Hw IH]; cbn [length].
  - rewrite length_take, length_le_bytes. lia.
  - rewrite length_app, length_le_bytes. lia.
Qed.

Lemma mask_packet ws l rest : packet n ws l -> short l ->
  exists o ms, runs (mask_header_fields W) (mk_mhf 0 (ws ++ rest)) (mk_mhf 0 rest) o /\
    mask_data o = ws /\ mask_masked o = ms /\ packet n ms (masked l).
Proof.
  intros Hw Hs. pose proof (packet_count _ _ Hw) as Hc. unfold short in Hs.
  apply (mask_packet_from ws l rest Hw 0); [lia|]. nia.
Qed.

(** ** Taking the CRC off and putting it on *)

Context (m : nat) (n_words : n = (4 * m)%nat) (check : bool).

Lemma keep_case_ones j : (1 <= j <= 16)%nat -> keep_case (Z.ones (4 * Z.of_nat j)) = Some (Z.of_nat j).
Proof. intros Hj. do 17 (destruct j as [|j]; [first [lia | by vm_compute]|]). lia. Qed.

Lemma ones_less a : 0 <= a -> set_bits (Z.ones (a + 4)) a 4 0 = Z.ones a.
Proof.
  intros Ha. apply Z.bits_inj'. intros i Hi. rewrite set_bits_testbit, !ones_testbit by lia.
  destruct ((a <=? i) && (i <? a + 4)) eqn:E; [rewrite Z.bits_0|]; lia.
Qed.

Lemma ones_more a : 0 <= a -> set_bits (Z.ones a) a 4 0xF = Z.ones (a + 4).
Proof.
  intros Ha. apply Z.bits_inj'. intros i Hi. rewrite set_bits_testbit, !ones_testbit by lia.
  destruct ((a <=? i) && (i <? a + 4)) eqn:E; [|lia]. change 0xF with (Z.ones 4). rewrite ones_testbit by lia. lia.
Qed.

Definition crc_words (o : list crc_out) : list net_axis := omap (fun x => match x with CrcWord w => Some w | _ => None end) o.
Definition crc_values (o : list crc_out) : list Z := omap (fun x => match x with CrcValue c => Some c | _ => None end) o.

Lemma crc_value_words v : crc_words (crc_value check v) = [].
Proof. unfold crc_value. by destruct check. Qed.
Lemma crc_value_values v : crc_values (crc_value check v) = if check then [v] else [].
Proof. unfold crc_value. by destruct check. Qed.

(** The bytes of a last word that ends with a CRC. *)
Lemma last_parts d (j : nat) x v :
  (4 * j + 4 <= n)%nat -> fits 32 v -> take (4 * j + 4) (le_bytes n d) = x ++ le_bytes 4 v ->
  x = take (4 * j) (le_bytes n d) /\ bits d (32 * Z.of_nat j) 32 = v.
Proof.
  intros Hj Hv E. rewrite !take_le_bytes_le, le_bytes_app in * by lia.
  apply app_inj_2 in E as [<- E]; [|by rewrite !length_le_bytes]. split; [done|].
  apply (le_bytes_inj 4); [apply bits_range; lia | done|]. rewrite <- E, (le_bytes_bits 4) by lia. f_equal. f_equal. lia.
Qed.

Lemma extract_last_word unset d (j : nat) x v :
  (1 <= j)%nat -> (4 * j + 4 <= n)%nat -> fits 32 v -> take (4 * j + 4) (le_bytes n d) = x ++ le_bytes 4 v ->
  exists w, extract_last unset (mk_axis d (Z.ones (Z.of_nat (4 * j + 4))) true) = (w, v) /\ packet n [w] x.
Proof.
  intros Hj Hn Hv E. apply last_parts in E as [-> E]; [|done..]. unfold extract_last. cbn [a_keep a_data a_last].
  replace (Z.of_nat (4 * j + 4)) with (4 * Z.of_nat (S j)) by lia. rewrite keep_case_ones by lia.
  replace (Z.of_nat (S j) - 1) with (Z.of_nat j) by lia. replace (4 * Z.of_nat (S j)) with (4 * Z.of_nat j + 4) by lia.
  rewrite E, ones_less by lia. rewrite (proj2 (Z.eqb_neq _ 1)) by lia. eexists. split; [done|].
  replace (4 * Z.of_nat j) with (Z.of_nat (4 * j)) by lia. apply packet_last. lia.
Qed.

(** A word of a packet that ends with a CRC, and more behind it. *)
Lemma split_front d l x v (j : nat) :
  x ++ le_bytes 4 v = le_bytes n d ++ l -> length x = (4 * j)%nat -> (1 <= length l)%nat ->
  exists x1, x = le_bytes n d ++ x1 /\ l = x1 ++ le_bytes 4 v /\ length x1 = (4 * (j - m))%nat.
Proof.
  intros E Hx Hl. pose proof (f_equal length E) as El. rewrite !length_app, !length_le_bytes in El.
  exists (drop n x). assert (take n x = le_bytes n d) as Ed.
  { apply (f_equal (take n)) in E. rewrite take_app_le, take_app_length' in E by (rewrite ?length_le_bytes; lia). done. }
  split; [by rewrite <- Ed, take_drop|]. split; [|rewrite length_drop; lia].
  apply (f_equal (drop n)) in E. rewrite drop_app_le, drop_app_length' in E by (rewrite ?length_le_bytes; lia). done.
Qed.

Lemma extract_rest unset rest ws l : packet n ws l -> forall p x v (j : nat),
  a_keep p = Z.ones (Z.of_nat n) -> a_last p = false -> l = x ++ le_bytes 4 v -> length x = (4 * j)%nat -> fits 32 v ->
  exists p' o, runs (extract_icrc check unset) (mk_eicrc EI_PKG p (ws ++ rest)) (mk_eicrc EI_FIRST p' rest) o /\
    crc_values o = (if check then [v] else []) /\ packet n (crc_words o) (le_bytes n (a_data p) ++ x).
Proof.
  induction 1 as [d k Hk|d ws l Hw IH]; intros p x v j Hp Hl E Hx Hv.
  - assert (k = 4 * j + 4)%nat as ->.
    { apply (f_equal length) in E. rewrite length_take, length_app, !length_le_bytes in E. lia. }
    destruct j as [|j].
    + apply last_parts in E as [-> E]; [|lia|done]. eexists _, _. split; [|split].
      * apply runs_one. cbn [app extract_icrc a_last a_keep a_data]. rewrite ones_testbit by lia. cbn. reflexivity.
      * unfold crc_values. rewrite omap_app. fold (crc_values (crc_value check (bits d 0 32))). rewrite crc_value_values, app_nil_r.
        change (32 * Z.of_nat 0) with 0 in E. by rewrite E.
      * unfold crc_words. rewrite omap_app. fold (crc_words (crc_value check (bits d 0 32))). rewrite crc_value_words.
        cbn [omap list_omap app]. cbn [take]. rewrite app_nil_r. eapply (packet_one n _ n); [done | done | lia|].
        by rewrite take_ge by (by rewrite length_le_bytes).
    + destruct (extract_last_word unset d (S j) x v ltac:(lia) ltac:(lia) Hv E) as (w & Ew & Hpw).
      eexists _, _. split; [|split].
      * eapply runs_step; [cbn [app extract_icrc a_last a_keep a_data]; rewrite ones_testbit by lia; rewrite (proj2 (Z.ltb_lt 4 (Z.of_nat (4 * S j + 4)))) by lia; reflexivity|].
        apply runs_one. cbn [extract_icrc]. by rewrite Ew.
      * unfold crc_values. cbn [omap list_omap app]. apply crc_value_values.
      * unfold crc_words. cbn [omap list_omap app]. fold (crc_words (crc_value check v)). rewrite crc_value_words.
        eapply packet_cons; [exact Hl | exact Hp | exact Hpw | done].
  - destruct (split_front _ _ _ _ _ (eq_sym E) Hx (packet_length _ _ _ Hw)) as (x1 & -> & -> & Hx1).
    destruct (IH (mk_axis d (Z.ones (Z.of_nat n)) false) x1 v (j - m)%nat) as (p' & o & Hr & Hv' & Hp'); [done | done | done | exact Hx1 | done|].
    exists p', (CrcWord p :: o). split; [|split].
    + eapply (runs_step _ _ _ _ [CrcWord p]); [|exact Hr]. done.
    + exact Hv'.
    + unfold crc_words in *. cbn [omap list_omap]. eapply packet_cons; [exact Hl | exact Hp | exact Hp' | done].
Qed.

Lemma extract_packet unset rest ws p x v (j : nat) :
  packet n ws (x ++ le_bytes 4 v) -> length x = (4 * j)%nat -> (1 <= j)%nat -> fits 32 v ->
  exists p' o, runs (extract_icrc check unset) (mk_eicrc EI_FIRST p (ws ++ rest)) (mk_eicrc EI_FIRST p' rest) o /\
    crc_values o = (if check then [v] else []) /\ packet n (crc_words o) x.
Proof.
  intros Hw Hx Hj Hv. destruct (packet_nonempty _ _ _ Hw) as (w & ws' & ->).
  destruct (packet_cases _ _ _ _ Hw) as [(d & k & Hk & -> & -> & E)|(d & l1 & -> & Hp & E)].
  - assert (k = 4 * j + 4)%nat as ->.
    { apply (f_equal length) in E. rewrite length_take, length_app, !length_le_bytes in E. lia. }
    destruct (extract_last_word unset d j x v Hj ltac:(lia) Hv (eq_sym E)) as (w & Ew & Hpw).
    eexists _, _. split; [|split].
    + eapply runs_step; [reflexivity|]. apply runs_one. cbn [extract_icrc a_last]. by rewrite Ew.
    + unfold crc_values. cbn [omap list_omap app]. apply crc_value_values.
    + unfold crc_words. cbn [omap list_omap app]. fold (crc_words (crc_value check v)). by rewrite crc_value_words.
  - destruct (split_front _ _ _ _ _ E Hx (packet_length _ _ _ Hp)) as (x1 & -> & -> & Hx1).
    destruct (extract_rest unset rest ws' _ Hp (mk_axis d (Z.ones (Z.of_nat n)) false) x1 v (j - m)%nat) as (p' & o & Hr & Hv' & Hp'); [done | done | done | exact Hx1 | done|].
    exists p', ([] ++ o). split; [|split; [exact Hv' | exact Hp']]. eapply runs_step; [reflexivity | exact Hr].
Qed.

Lemma insert_last_word crc d (j : nat) :
  (1 <= j)%nat -> (4 * j + 4 <= n)%nat -> 
  packet n [insert_last crc (mk_axis d (Z.ones (Z.of_nat (4 * j))) true)] (take (4 * j) (le_bytes n d) ++ le_bytes 4 crc).
Proof.
  intros Hj Hn. unfold insert_last. cbn [a_keep a_data a_last]. replace (Z.of_nat (4 * j)) with (4 * Z.of_nat j) by lia.
  rewrite keep_case_ones, ones_more by lia. rewrite (proj2 (Z.ltb_lt (Z.of_nat j) 16)) by lia.
  eapply (packet_one n _ (4 * j + 4)); [done | cbn; f_equal; lia | lia|]. cbn [a_data].
  replace (32 * Z.of_nat j) with (8 * Z.of_nat (4 * j)) by lia. change 32 with (8 * Z.of_nat 4). rewrite le_bytes_set_at by lia.
  rewrite app_assoc, take_app_length'; [done|]. rewrite length_app, length_take, !length_le_bytes. lia.
Qed.

Lemma insert_crc_packet rest crcs crc ws l : packet n ws l -> forall (j : nat), length l = (4 * j)%nat ->
  exists out, runs (insert_icrc W check) (mk_iicrc II_FWD crc crcs (ws ++ rest)) (mk_iicrc (ii_start check) crc crcs rest) out /\
    packet n out (l ++ le_bytes 4 crc).
Proof.
  assert (W / 8 = Z.of_nat n) as EW by (rewrite Z.mul_comm; by apply Z.div_mul).
  induction 1 as [d k Hk|d ws l Hw IH]; intros j Hl.
  - assert (k = 4 * j)%nat as -> by (rewrite length_take, length_le_bytes in Hl; lia).
    destruct (decide (4 * j = n)%nat) as [Ej|Hne].
    + eexists. split.
      * eapply runs_step; [cbn [app insert_icrc a_last a_keep a_data]; rewrite EW, ones_testbit by lia; rewrite (proj2 (Z.ltb_lt (Z.of_nat n - 1) (Z.of_nat (4 * j)))) by lia; reflexivity|].
        apply runs_one. reflexivity.
      * rewrite take_ge, Ej by (rewrite length_le_bytes; lia). cbn [app]. eapply packet_cons; [done | done | | done].
        eapply (packet_one n _ 4); [done | done | lia|]. cbn [a_data]. by rewrite take_le_bytes_le by lia.
    + eexists. split; [|apply insert_last_word; lia].
      apply runs_one. cbn [app insert_icrc a_last a_keep a_data]. rewrite EW, ones_testbit by lia.
      rewrite (proj2 (Z.ltb_ge (Z.of_nat n - 1) (Z.of_nat (4 * j)))) by lia. done.
  - rewrite length_app, length_le_bytes in Hl. destruct (IH (j - m)%nat ltac:(lia)) as (out & Hr & Hp).
    exists ([mk_axis d (Z.ones (Z.of_nat n)) false] ++ out). split.
    + eapply runs_step; [reflexivity | exact Hr].
    + rewrite <- app_assoc. by apply packet_more.
Qed.
End wire.

(** ** Streams of packets *)

(** The packets of each of the two processes that compute CRCs; [one] is the first. *)
Fixpoint deal {A} (one : bool) (l : list A) : list A * list A :=
  match l with
  | [] => ([], [])
  | x :: l' => let '(a, b) := deal (negb one) l' in if one then (x :: a, b) else (a, x :: b)
  end.

Lemma deal_map {A B} (f : A -> B) l : forall one, deal one (map f l) = (map f (fst (deal one l)), map f (snd (deal one l))).
Proof. induction l as [|x l IH]; intros one; [done|]. cbn. rewrite IH. by destruct (deal (negb one) l), one. Qed.

Definition dealt (one : bool) (o : list (bool * net_axis)) : list net_axis :=
  omap (fun x => if bool_decide (fst x = one) then Some (snd x) else None) o.

Lemma dealt_app b o1 o2 : dealt b (o1 ++ o2) = dealt b o1 ++ dealt b o2.
Proof. apply omap_app. Qed.

Lemma arbiter_packet n ws l rest one : packet n ws l ->
  exists o, runs round_robin_arbiter (one, ws ++ rest) (negb one, rest) o /\ dealt one o = ws /\ dealt (negb one) o = [].
Proof.
  induction 1 as [d k Hk|d ws l Hw IH].
  - eexists. split; [apply runs_one; reflexivity|]. by destruct one.
  - destruct IH as (o & Hr & H1 & H2). eexists. split; [eapply runs_step; [reflexivity | exact Hr]|].
    rewrite !dealt_app, H1, H2. by destruct one.
Qed.

Lemma arbiter_stream n ws ls : packet_stream n ws ls -> forall one,
  exists one' o, runs round_robin_arbiter (one, ws) (one', []) o /\
    packet_stream n (dealt true o) (fst (deal one ls)) /\ packet_stream n (dealt false o) (snd (deal one ls)).
Proof.
  induction 1 as [|ws l s ls Hw Hs IH]; intros one.
  - exists one, []. split; [apply runs_refl|]. split; constructor.
  - destruct (arbiter_packet n ws l s one Hw) as (o & Hr & H1 & H2). destruct (IH (negb one)) as (one' & o' & Hr' & H3 & H4).
    exists one', (o ++ o'). split; [by eapply runs_trans|]. rewrite !dealt_app. cbn [deal].
    destruct (deal (negb one) ls) as [a b]. destruct one; cbn [negb] in *; rewrite H1, H2; (split; [|done]; by constructor) || (split; [done|]; by constructor).
Qed.

Lemma merger_stream cs : forall one, exists one',
  runs round_robin_merger (mk_rrm one (fst (deal one cs)) (snd (deal one cs))) (mk_rrm one' [] []) cs.
Proof.
  induction cs as [|c cs IH]; intros one; [exists one; apply runs_refl|].
  destruct (IH (negb one)) as [one' Hr]. exists one'. cbn [deal]. destruct (deal (negb one) cs) as [a b].
  destruct one; cbn in *; eapply (runs_step _ _ _ _ [c]); [reflexivity | exact Hr | reflexivity | exact Hr].
Qed.

Lemma compute_stream n ws ls : packet_stream n ws ls -> forall p,
  exists p', runs (compute_crc32 (8 * Z.of_nat n)) (mk_cc32 false crc_start p ws) (mk_cc32 false crc_start p' []) (map (foldl crc_byte crc_start) ls).
Proof.
  induction 1 as [|ws l s ls Hw Hs IH]; intros p; [exists p; apply runs_refl|].
  destruct (compute_packet n ws l s Hw crc_start p) as [p1 H1]. destruct (IH p1) as [p' Hr].
  exists p'. exact (runs_trans _ _ _ _ [_] _ H1 Hr).
Qed.

Lemma stream_nil_inv n ws : packet_stream n ws [] -> ws = [].
Proof. by inversion 1. Qed.

Lemma stream_cons_inv n ws l ls : packet_stream n ws (l :: ls) -> exists ws1 s, ws = ws1 ++ s /\ packet n ws1 l /\ packet_stream n s ls.
Proof. inversion 1. by eexists _, _. Qed.

Section paths.
Context (n m : nat) (n_low : (8 <= n)%nat) (n_high : (n <= 64)%nat) (n_words : n = (4 * m)%nat).
Local Abbreviation W := (8 * Z.of_nat n).

Lemma mask_stream ws ls : packet_stream n ws ls -> Forall (short n) ls ->
  exists o, runs (mask_header_fields W) (mk_mhf 0 ws) (mk_mhf 0 []) o /\
    mask_data o = ws /\ packet_stream n (mask_masked o) (map masked ls).
Proof.
  induction 1 as [|ws l s ls Hw Hs IH]; intros Hf; [exists []; split; [apply runs_refl|]; split; [done | constructor]|].
  apply Forall_cons in Hf as [Hl Hf]. destruct (IH Hf) as (o & Hr & Ho & Hm).
  destruct (mask_packet n n_low n_high ws l s Hw Hl) as (o1 & ms & Hr1 & Ho1 & Hm1 & Hp1).
  exists (o1 ++ o). split; [by eapply runs_trans|]. unfold mask_data, mask_masked in *. rewrite !omap_app, Ho1, Ho, Hm1.
  split; [done|]. by constructor.
Qed.

(** The part both paths share: the CRCs of the packets of a stream, computed by two
    processes in turn. *)
Definition computes (ws : list net_axis) (crcs : list Z) : Prop :=
  exists om one oa p1 p2 c1 c2 one',
    runs (mask_header_fields W) (mk_mhf 0 ws) (mk_mhf 0 []) om /\ mask_data om = ws /\
    runs round_robin_arbiter (true, mask_masked om) (one, []) oa /\
    runs (compute_crc32 W) (cc32_init (dealt true oa)) (mk_cc32 false crc_start p1 []) c1 /\
    runs (compute_crc32 W) (cc32_init (dealt false oa)) (mk_cc32 false crc_start p2 []) c2 /\
    runs round_robin_merger (mk_rrm true c1 c2) (mk_rrm one' [] []) crcs.

Definition crc_of (l : list Z) : Z := foldl crc_byte crc_start (masked l).

Lemma computes_stream ws ls : packet_stream n ws ls -> Forall (short n) ls -> computes ws (map crc_of ls).
Proof.
  intros Hs Hf. destruct (mask_stream ws ls Hs Hf) as (om & Hr & Ho & Hm).
  destruct (arbiter_stream n _ _ Hm true) as (one & oa & Ha & H1 & H2).
  destruct (compute_stream n _ _ H1 (mk_axis 0 0 false)) as [p1 Hc1]. destruct (compute_stream n _ _ H2 (mk_axis 0 0 false)) as [p2 Hc2].
  destruct (merger_stream (map crc_of ls) true) as [one' Hg].
  replace (map crc_of ls) with (map (foldl crc_byte crc_start) (map masked ls)) in Hg at 1 2 by (by rewrite map_map).
  rewrite deal_map in Hg. cbn [fst snd] in Hg.
  exists om, one, oa, p1, p2. eexists _, _, one'. split; [exact Hr|]. split; [done|]. split; [exact Ha|].
  split; [exact Hc1|]. split; [exact Hc2 | exact Hg].
Qed.

(** The transmit path, and the receive path from a count of dropped packets to another,
    as [crc] wires them.  In a build with [DISABLE_CRC_CHECK] ([check] is false) only
    [insert_icrc] and [extract_icrc] are there and the count is reported as 0.  [unset] is
    the value of a variable that is not assigned. *)
Definition crc_sends (check : bool) (ws out : list net_axis) : Prop :=
  if check then
    exists crcs c, computes ws crcs /\ runs (insert_icrc W true) (iicrc_init true crcs ws) (mk_iicrc II_CRC c [] []) out
  else runs (insert_icrc W false) (iicrc_init false [] ws) (iicrc_init false [] []) out.

Definition dic_words (o : list dic_out) : list net_axis := omap (fun x => match x with DicWord w => Some w | _ => None end) o.

Definition crc_receives (check : bool) (unset count : Z) (ws out : list net_axis) (count' : Z) : Prop :=
  if check then
    exists p o crcs od, runs (extract_icrc true unset) (eicrc_init ws) (mk_eicrc EI_FIRST p []) o /\ computes (crc_words o) crcs /\
      runs drop_invalid_crc (mk_dic DC_META count (crc_values o) crcs (crc_words o)) (mk_dic DC_META count' [] [] []) od /\ dic_words od = out
  else
    exists p o, runs (extract_icrc false unset) (eicrc_init ws) (mk_eicrc EI_FIRST p []) o /\ crc_words o = out /\ count' = 0.

(** What is put behind a packet. *)
Definition trailer (check : bool) (l : list Z) : Z := if check then icrc l else 0xdeadbeef.

Lemma trailer_fits check l : fits 32 (trailer check l).
Proof. destruct check; [by apply wrap_range | done]. Qed.

(** Packets of whole words of 32 bits that the counters have room for. *)
Definition sized (l : list Z) : Prop := short n l /\ exists j, (1 <= j)%nat /\ length l = (4 * j)%nat.

Definition with_crc (x : list Z * Z) : list Z := fst x ++ le_bytes 4 (snd x).

Lemma insert_stream ws ls : packet_stream n ws ls -> Forall sized ls -> forall c,
  exists c' out, runs (insert_icrc W true) (mk_iicrc II_CRC c (map crc_of ls) ws) (mk_iicrc II_CRC c' [] []) out /\
    packet_stream n out (map (fun l => with_crc (l, icrc l)) ls).
Proof.
  induction 1 as [|ws l s ls Hw Hs IH]; intros Hf c; [exists c, []; split; [apply runs_refl | constructor]|].
  apply Forall_cons in Hf as [(_ & j & Hj & Hl) Hf].
  destruct (insert_crc_packet n n_low n_high m n_words true s (map crc_of ls) (icrc l) ws l Hw j Hl) as (out & Hr & Hp).
  destruct (IH Hf (icrc l)) as (c' & out' & Hr' & Hp').
  exists c', ([] ++ out ++ out'). split; [|cbn [app map]; apply stream_cons; [exact Hp | exact Hp']].
  eapply runs_step; [reflexivity|]. eapply runs_trans; [exact Hr | exact Hr'].
Qed.

(** Without the check a constant is put behind every packet. *)
Lemma insert_constant ws ls : packet_stream n ws ls -> Forall sized ls ->
  exists out, runs (insert_icrc W false) (iicrc_init false [] ws) (iicrc_init false [] []) out /\
    packet_stream n out (map (fun l => with_crc (l, 0xdeadbeef)) ls).
Proof.
  induction 1 as [|ws l s ls Hw Hs IH]; intros Hf; [exists []; split; [apply runs_refl | constructor]|].
  apply Forall_cons in Hf as [(_ & j & Hj & Hl) Hf].
  destruct (insert_crc_packet n n_low n_high m n_words false s [] 0xdeadbeef ws l Hw j Hl) as (out & Hr & Hp).
  destruct (IH Hf) as (out' & Hr' & Hp'). exists (out ++ out'). split; [|cbn [map]; apply stream_cons; [exact Hp | exact Hp']].
  eapply runs_trans; [exact Hr | exact Hr'].
Qed.

Lemma extract_stream check unset ws xs : packet_stream n ws (map with_crc xs) -> Forall (fun x => sized (fst x) /\ fits 32 (snd x)) xs ->
  forall p, exists p' o, runs (extract_icrc check unset) (mk_eicrc EI_FIRST p ws) (mk_eicrc EI_FIRST p' []) o /\
    crc_values o = (if check then map snd xs else []) /\ packet_stream n (crc_words o) (map fst xs).
Proof.
  revert ws. induction xs as [|[l v] xs IH]; intros ws Hs Hf p; cbn [map] in Hs.
  - apply stream_nil_inv in Hs as ->. exists p, []. split; [apply runs_refl|]. split; [by destruct check | constructor].
  - apply stream_cons_inv in Hs as (ws1 & s & -> & Hw & Hs1). apply Forall_cons in Hf as [[(_ & j & Hj & Hl) Hv] Hf]. cbn [fst snd] in *.
    destruct (extract_packet n n_low n_high m n_words check unset s ws1 p l v j Hw Hl Hj Hv) as (p1 & o1 & Hr1 & Hv1 & Hp1).
    destruct (IH s Hs1 Hf p1) as (p' & o & Hr & Hvs & Hp). exists p', (o1 ++ o). split; [by eapply runs_trans|].
    unfold crc_values, crc_words in *. rewrite !omap_app, Hv1, Hvs. split; [by destruct check|]. cbn [map fst]. by constructor.
Qed.

(** What a packet with this CRC does to the count. *)
Definition counted_drop (count : Z) (x : list Z * Z) : Z := if snd x =? icrc (fst x) then count else u32 (count + 1).

Lemma dropper_forward ws l rest crcs calcs count : packet n ws l ->
  exists o, runs drop_invalid_crc (mk_dic DC_FWD count crcs calcs (ws ++ rest)) (mk_dic DC_META count crcs calcs rest) o /\ dic_words o = ws.
Proof.
  induction 1 as [d k Hk|d ws l Hw (o & Hr & Ho)].
  - eexists. split; [apply runs_one; reflexivity | done].
  - eexists. split; [eapply runs_step; [reflexivity | exact Hr]|]. unfold dic_words in *. cbn [omap list_omap app]. by rewrite Ho.
Qed.

Lemma drop_stream ws xs : packet_stream n ws (map fst xs) -> forall count,
  exists o, runs drop_invalid_crc (mk_dic DC_META count (map snd xs) (map (fun x => crc_of (fst x)) xs) ws)
      (mk_dic DC_META (foldl counted_drop count xs) [] [] []) o /\ dic_words o = ws.
Proof.
  revert ws. induction xs as [|[l v] xs IH]; intros ws Hs count; cbn [map] in Hs.
  - apply stream_nil_inv in Hs as ->. exists []. split; [apply runs_refl | done].
  - apply stream_cons_inv in Hs as (ws1 & s & -> & Hw & Hs1).
    destruct (IH s Hs1 (counted_drop count (l, v))) as (o & Hr & Ho). cbn [map fst snd foldl].
    destruct (dropper_forward ws1 l s (map snd xs) (map (fun x => crc_of (fst x)) xs) (counted_drop count (l, v)) Hw) as (o1 & Hr1 & Ho1).
    exists ((if v =? icrc l then [] else [DicCount (u32 (count + 1))]) ++ o1 ++ o). split.
    + eapply runs_step; [|eapply runs_trans; [exact Hr1 | exact Hr]]. cbn [drop_invalid_crc]. unfold counted_drop. cbn [fst snd].
      change (u32 (Z.lnot (crc_of l))) with (icrc l). by destruct (v =? icrc l).
    + unfold dic_words in *. rewrite !omap_app, Ho1, Ho. by destruct (v =? icrc l).
Qed.

Lemma receive_stream unset ws xs count :
  packet_stream n ws (map with_crc xs) -> Forall (fun x => sized (fst x) /\ fits 32 (snd x)) xs ->
  exists out, crc_receives true unset count ws out (foldl counted_drop count xs) /\ packet_stream n out (map fst xs).
Proof.
  intros Hs Hf. destruct (extract_stream true unset ws xs Hs Hf (mk_axis 0 0 false)) as (p & o & Hr & Hv & Hp).
  assert (Forall (short n) (map fst xs)) as Hshort.
  { apply Forall_map. eapply Forall_impl; [exact Hf|]. by intros x [[Hx _] _]. }
  pose proof (computes_stream _ _ Hp Hshort) as Hc. rewrite map_map in Hc.
  destruct (drop_stream _ _ Hp count) as (od & Hd & Hod). rewrite <- Hv in Hd.
  exists (crc_words o). split; [|done]. exists p, o. eexists _, od. split; [exact Hr|]. split; [exact Hc|]. split; [exact Hd | done].
Qed.

Lemma receive_any (check : bool) unset ws xs count :
  packet_stream n ws (map with_crc xs) -> Forall (fun x => sized (fst x) /\ fits 32 (snd x)) xs ->
  exists out, crc_receives check unset count ws out (if check then foldl counted_drop count xs else 0) /\
    packet_stream n out (map fst xs).
Proof.
  intros Hs Hf. destruct check; [by apply receive_stream|].
  destruct (extract_stream false unset ws xs Hs Hf (mk_axis 0 0 false)) as (p & o & Hr & _ & Hp).
  exists (crc_words o). split; [|done]. by exists p, o.
Qed.


End paths.

(** A packet of two words, and the same with a bit of its fifth byte changed. *)
Definition icrc_demo : list Z := [1; 2; 3; 4; 5; 6; 7; 8; 9; 10; 11; 12].
Definition icrc_demo' : list Z := [1; 2; 3; 4; 4; 6; 7; 8; 9; 10; 11; 12].
Definition icrc_words : list net_axis := [mk_axis 0x0807060504030201 (Z.ones 8) false; mk_axis 0x0C0B0A09 (Z.ones 4) true].

Lemma icrc_sized l : length l = 12%nat -> sized 8 l.
Proof. intros Hl. unfold sized, short. rewrite Hl. split; [lia|]. exists 3%nat. lia. Qed.


Definition corrupted_words : list net_axis :=
  [mk_axis 0x0807060404030201 (Z.ones 8) false; mk_axis (Z.lor 0x0C0B0A09 (Z.shiftl (icrc icrc_demo) 32)) (Z.ones 8) true].

