(* ===== verification/IbTypes.v ===== *)
(** The data of the RoCE transport ([ib_transport_protocol.hpp], [ib_utils.cpp],
    [retransmitter.hpp]): operation codes, the meta data and events the
    processes exchange, memory commands, and the three packet headers with
    their field accessors.  Fields are integers below the width of their type;
    the constructors truncate what they are given. *)
From stdpp Require Import base numbers list strings.
From Stdlib Require Import ZArith Lia.
From S2P Require Import Prelude Axi.

Local Open Scope Z_scope.

Abbreviation u4 := (wrap 4).
Abbreviation u10 := (wrap 10).
Abbreviation u22 := (wrap 22).
Abbreviation u24 := (wrap 24).
Abbreviation u28 := (wrap 28).
Abbreviation u29 := (wrap 29).
Abbreviation u48 := (wrap 48).
Abbreviation u128 := (wrap 128).

(** The build parameters ([rocev2_config.hpp.in]). *)
Class RoceConfig : Type := { MAX_QPS : Z; PMTU : Z; WIDTH : Z }.

Class RoceConfigOk `{RoceConfig} : Prop := {
  max_qps_ok : 0 < MAX_QPS <= 2 ^ 10;
  pmtu_ok : 0 < PMTU < 2 ^ 16;
  pmtu_8 : PMTU mod 8 = 0
}.

(** A small configuration, for the examples. *)
Definition small_roce : RoceConfig := {| MAX_QPS := 4; PMTU := 1024; WIDTH := 512 |}.

Definition BTH_SIZE : Z := 96.
Definition RETH_SIZE : Z := 128.
Definition AETH_SIZE : Z := 32.
Definition RETRANS_RETRY_CNT : Z := 12.
Definition RETRANS_S1 : Z := 3.
Definition RETRANS_S2 : Z := 3.
Definition RETRANS_S3 : Z := 3.
Definition RDMA_DEFAULT_PORT : Z := 0x12B7.

(** ** Operation codes *)

(** The header field has eight bits; a value without a name is kept as it is. *)
Inductive ibOpCode : Type :=
| RC_SEND_FIRST | RC_SEND_MIDDLE | RC_SEND_LAST | RC_SEND_LAST_WITH_IMD
| RC_SEND_ONLY | RC_SEND_ONLY_WITH_IMD
| RC_RDMA_WRITE_FIRST | RC_RDMA_WRITE_MIDDLE | RC_RDMA_WRITE_LAST | RC_RDMA_WRITE_LAST_WITH_IMD
| RC_RDMA_WRITE_ONLY | RC_RDMA_WRITE_ONLY_WIT_IMD
| RC_RDMA_READ_REQUEST
| RC_RDMA_READ_RESP_FIRST | RC_RDMA_READ_RESP_MIDDLE | RC_RDMA_READ_RESP_LAST | RC_RDMA_READ_RESP_ONLY
| RC_ACK
| RC_OTHER (n : Z).

#[export] Instance ibOpCode_eq_dec : EqDecision ibOpCode.
Proof. solve_decision. Defined.

Definition named_codes : list ibOpCode :=
  [RC_SEND_FIRST; RC_SEND_MIDDLE; RC_SEND_LAST; RC_SEND_LAST_WITH_IMD; RC_SEND_ONLY; RC_SEND_ONLY_WITH_IMD;
   RC_RDMA_WRITE_FIRST; RC_RDMA_WRITE_MIDDLE; RC_RDMA_WRITE_LAST; RC_RDMA_WRITE_LAST_WITH_IMD;
   RC_RDMA_WRITE_ONLY; RC_RDMA_WRITE_ONLY_WIT_IMD; RC_RDMA_READ_REQUEST; RC_RDMA_READ_RESP_FIRST;
   RC_RDMA_READ_RESP_MIDDLE; RC_RDMA_READ_RESP_LAST; RC_RDMA_READ_RESP_ONLY; RC_ACK].

Definition opcode_num (c : ibOpCode) : Z :=
  match c with
  | RC_SEND_FIRST => 0x00 | RC_SEND_MIDDLE => 0x01 | RC_SEND_LAST => 0x02 | RC_SEND_LAST_WITH_IMD => 0x03
  | RC_SEND_ONLY => 0x04 | RC_SEND_ONLY_WITH_IMD => 0x05
  | RC_RDMA_WRITE_FIRST => 0x06 | RC_RDMA_WRITE_MIDDLE => 0x07 | RC_RDMA_WRITE_LAST => 0x08
  | RC_RDMA_WRITE_LAST_WITH_IMD => 0x09 | RC_RDMA_WRITE_ONLY => 0x0A | RC_RDMA_WRITE_ONLY_WIT_IMD => 0x0B
  | RC_RDMA_READ_REQUEST => 0x0C
  | RC_RDMA_READ_RESP_FIRST => 0x0D | RC_RDMA_READ_RESP_MIDDLE => 0x0E | RC_RDMA_READ_RESP_LAST => 0x0F
  | RC_RDMA_READ_RESP_ONLY => 0x10 | RC_ACK => 0x11
  | RC_OTHER n => n
  end.

Definition opcode_of (n : Z) : ibOpCode := default (RC_OTHER n) (named_codes !! Z.to_nat n).

Definition checkIfResponse (c : ibOpCode) : bool :=
  match c with
  | RC_RDMA_READ_RESP_FIRST | RC_RDMA_READ_RESP_MIDDLE | RC_RDMA_READ_RESP_LAST | RC_RDMA_READ_RESP_ONLY
  | RC_ACK => true
  | _ => false
  end.
Definition checkIfWrite (c : ibOpCode) : bool :=
  match c with
  | RC_RDMA_WRITE_FIRST | RC_RDMA_WRITE_MIDDLE | RC_RDMA_WRITE_LAST | RC_RDMA_WRITE_ONLY => true
  | _ => false
  end.
Definition checkIfAethHeader (c : ibOpCode) : bool :=
  match c with
  | RC_RDMA_READ_RESP_ONLY | RC_RDMA_READ_RESP_FIRST | RC_RDMA_READ_RESP_LAST | RC_ACK => true
  | _ => false
  end.
Definition checkIfRethHeader (c : ibOpCode) : bool :=
  match c with RC_RDMA_WRITE_ONLY | RC_RDMA_WRITE_FIRST | RC_RDMA_READ_REQUEST => true | _ => false end.

(** ** Headers *)

(** Base transport header. *)
Definition bth_setOpCode (h : Z) (c : ibOpCode) : Z := set_bits h 0 8 (u8 (opcode_num c)).
Definition bth_getOpCode (h : Z) : ibOpCode := opcode_of (bits h 0 8).
Definition bth_setPartitionKey (h key : Z) : Z := set_bits h 16 16 key.
Definition bth_getPartitionKey (h : Z) : Z := bits h 16 16.
Definition bth_setPsn (h psn : Z) : Z := set_bits h 72 24 (reverse 3 psn).
Definition bth_getPsn (h : Z) : Z := reverse 3 (bits h 72 24).
Definition bth_setDstQP (h qp : Z) : Z := set_bits h 40 24 (reverse 3 qp).
Definition bth_getDstQP (h : Z) : Z := reverse 3 (bits h 40 24).
Definition bth_setAckReq (h : Z) (bit : bool) : Z := set_bits h 71 1 (Z.b2z bit).

(** RDMA extended transport header. *)
Definition reth_setVirtualAddress (h a : Z) : Z := set_bits h 0 64 (reverse 8 a).
Definition reth_getVirtualAddress (h : Z) : Z := reverse 8 (bits h 0 64).
Definition reth_setRemoteKey (h k : Z) : Z := set_bits h 64 32 (reverse 4 k).
Definition reth_getRemoteKey (h : Z) : Z := reverse 4 (bits h 64 32).
Definition reth_setLength (h l : Z) : Z := set_bits h 96 32 (reverse 4 l).
Definition reth_getLength (h : Z) : Z := reverse 4 (bits h 96 32).

(** Acknowledgement extended transport header. *)
Definition aeth_setSyndrome (h s : Z) : Z := set_bits h 0 8 s.
Definition aeth_getSyndrome (h : Z) : Z := bits h 0 8.
Definition aeth_setMsn (h m : Z) : Z := set_bits h 8 24 (reverse 3 m).
Definition aeth_getMsn (h : Z) : Z := reverse 3 (bits h 8 24).
Definition aeth_isNAK (h : Z) : bool := bits h 5 2 =? 3.

(** The common register for both: the shorter header is zero-extended. *)
Definition exHeader_of_reth (h : Z) : Z := wrap RETH_SIZE h.
Definition exHeader_of_aeth (h : Z) : Z := wrap AETH_SIZE h.
Definition getRdmaHeader (h : Z) : Z := h.
Definition getAckHeader (h : Z) : Z := wrap AETH_SIZE h.

(** ** Meta data of packets *)

Record ibhMeta : Type := mk_ibhMeta {
  ibh_op_code : ibOpCode; ibh_partition_key : Z; ibh_dest_qp : Z; ibh_psn : Z; ibh_validPSN : bool; ibh_numPkg : Z }.
Definition ibhMeta_psn (op : ibOpCode) (key qp psn : Z) (vp : bool) : ibhMeta :=
  mk_ibhMeta op (u16 key) (u24 qp) (u24 psn) vp 1.
Definition ibhMeta_count (op : ibOpCode) (key qp numPkg : Z) : ibhMeta :=
  mk_ibhMeta op (u16 key) (u24 qp) 0 false (u22 numPkg).

Record exhMeta : Type := mk_exhMeta { exh_isNak : bool; exh_numPkg : Z }.
Definition exhMeta_nak (nak : bool) : exhMeta := mk_exhMeta nak 1.
Definition exhMeta_count (nak : bool) (numPkg : Z) : exhMeta := mk_exhMeta nak (u22 numPkg).

Record fwdPolicy : Type := mk_fwd { fp_isDrop : bool; fp_ackOnly : bool }.

Record ackEvent : Type := mk_ackEvent { ae_qpn : Z; ae_psn : Z; ae_validPsn : bool; ae_isNak : bool }.
Definition ackEvent_psn (qp psn : Z) (nak : bool) : ackEvent := mk_ackEvent (u24 qp) (u24 psn) true nak.

Record event : Type := mk_event {
  ev_op_code : ibOpCode; ev_qpn : Z; ev_addr : Z; ev_length : Z; ev_psn : Z; ev_validPsn : bool; ev_isNak : bool }.
Definition event_of_ack (a : ackEvent) (addr len : Z) : event :=
  mk_event RC_ACK (ae_qpn a) addr len (ae_psn a) (ae_validPsn a) (ae_isNak a).
Definition event_local (op : ibOpCode) (qp addr len : Z) : event :=
  mk_event op (u24 qp) (u64 addr) (u32 len) 0 false false.
Definition event_read (op : ibOpCode) (qp len psn : Z) : event :=
  mk_event op (u24 qp) 0 (u32 len) (u24 psn) true false.
Definition event_psn (op : ibOpCode) (qp addr len psn : Z) : event :=
  mk_event op (u24 qp) (u64 addr) (u32 len) (u24 psn) true false.

Record ackMeta : Type := mk_ackMeta { am_rd : Z; am_qpn : Z; am_psn : Z }.
Definition ackMeta_new (rd : bool) (qpn psn : Z) : ackMeta := mk_ackMeta (Z.b2z rd) (u10 qpn) (u24 psn).

Record readRequest : Type := mk_readRequest {
  rr_qpn : Z; rr_vaddr : Z; rr_dma_length : Z; rr_psn : Z; rr_host : Z }.
Definition readRequest_new (qpn vaddr len psn : Z) : readRequest :=
  mk_readRequest (u24 qpn) (u64 vaddr) (u32 len) (u24 psn) 1.

Inductive pkgType : Type := AETH | RETH | RAW | IMMED.
Inductive pkgShiftType : Type := SHIFT_AETH | SHIFT_RETH | SHIFT_NONE.
Record pkgShift : Type := mk_pkgShift { ps_type : pkgShiftType; ps_qpn : Z }.
Record pkgInfo : Type := mk_pkgInfo { pi_type : pkgType; pi_words : Z }.
Record txPacketInfo : Type := mk_txInfo { ti_isAETH : bool; ti_hasHeader : bool; ti_hasPayload : bool }.

Record txMeta : Type := mk_txMeta {
  tm_op_code : ibOpCode; tm_qpn : Z; tm_host : Z; tm_lst : Z; tm_offs : Z; tm_params : Z }.

Inductive qpState : Type := RESET | INIT | READY_RECV | READY_SEND | SQ_ERROR | ERROR.
Record qpContext : Type := mk_qpContext {
  qc_newState : qpState; qc_qp_num : Z; qc_remote_psn : Z; qc_local_psn : Z; qc_r_key : Z; qc_virtual_address : Z }.
Record ifConnReq : Type := mk_ifConnReq {
  ic_qpn : Z; ic_remote_qpn : Z; ic_remote_ip_address : Z; ic_remote_udp_port : Z }.
Record ipUdpMeta : Type := mk_ipUdpMeta { iu_their_address : Z; iu_their_port : Z; iu_my_port : Z; iu_length : Z }.
Definition ipUdpMeta_new (addr tport mport len : Z) : ipUdpMeta :=
  mk_ipUdpMeta (u128 addr) (u16 tport) (u16 mport) (u16 len).

(** ** Memory commands *)

Record memCmdInternal : Type := mk_memInternal {
  mi_op_code : ibOpCode; mi_qpn : Z; mi_addr : Z; mi_len : Z; mi_host : Z; mi_sync : Z; mi_offs : Z }.
Definition memCmdInternal_new (op : ibOpCode) (qpn addr len host : Z) : memCmdInternal :=
  mk_memInternal op (u16 qpn) (u64 addr) (u32 len) (wrap 1 host) 0 0.
Definition memCmdInternal_sync (op : ibOpCode) (qpn addr len host offs : Z) : memCmdInternal :=
  mk_memInternal op (u16 qpn) (u64 addr) (u32 len) (wrap 1 host) 1 (u4 offs).

Definition PKG_NF : Z := 0.
Definition PKG_F : Z := 1.
Definition PKG_INT : Z := 0.
Definition PKG_HOST : Z := 1.
Definition SYNC : Z := 1.

Record memCmd : Type := mk_memCmd {
  mc_addr : Z; mc_len : Z; mc_ctl : Z; mc_strm : Z; mc_sync : Z; mc_host : Z; mc_tdst : Z; mc_pid : Z; mc_vfid : Z }.
Definition memCmd_qpn (addr len ctl host qpn : Z) : memCmd :=
  mk_memCmd (bits addr 0 48) (u28 len) (wrap 1 ctl) (bits addr 52 1) 0 (wrap 1 host) (bits addr 48 4)
    (bits qpn 0 6) (bits qpn 6 4).
Definition memCmd_sync (addr len ctl sync host tdst qpn : Z) : memCmd :=
  mk_memCmd (bits addr 0 48) (u28 len) (wrap 1 ctl) 0 (wrap 1 sync) (wrap 1 host) (u4 tdst)
    (bits qpn 0 6) (bits qpn 6 4).

(** ** Retransmission *)

Record retransUpdate : Type := mk_retransUpdate { ru_qpn : Z; ru_latest_acked_req : Z; ru_op_code : ibOpCode }.
Definition retransUpdate_new (qpn psn : Z) (op : ibOpCode) : retransUpdate := mk_retransUpdate (u16 qpn) (u24 psn) op.
Record retransRdInit : Type := mk_retransRdInit { ri_laddr : Z; ri_lst : Z }.
Record retransmission : Type := mk_retransmission { rm_qpn : Z; rm_psn : Z }.
Definition retransmission_new (qpn psn : Z) : retransmission := mk_retransmission (u16 qpn) (u24 psn).
Record retransMeta : Type := mk_retransMeta { rt_qpn : Z; rt_psn : Z; rt_opCode : ibOpCode }.
Definition retransMeta_new (qpn psn : Z) (op : ibOpCode) : retransMeta := mk_retransMeta (u16 qpn) (u24 psn) op.
Record retransAddrLen : Type := mk_retransAddrLen {
  al_localAddr : Z; al_remoteAddr : Z; al_length : Z; al_lst : Z; al_offs : Z }.

(** An entry of the retransmission table, without the links. *)
Record retransPayload : Type := mk_rp {
  rp_psn : Z; rp_opCode : ibOpCode; rp_localAddr : Z; rp_remoteAddr : Z; rp_length : Z; rp_lst : Z; rp_offs : Z }.
Record retransEntry : Type := mk_retransEntry { re_qpn : Z; re_payload : retransPayload }.
Definition retransEntry_merge (m : retransMeta) (a : retransAddrLen) : retransEntry :=
  mk_retransEntry (rt_qpn m)
    (mk_rp (rt_psn m) (rt_opCode m) (al_localAddr a) (al_remoteAddr a) (al_length a) (al_lst a) (al_offs a)).

Record retransEvent : Type := mk_retransEvent { rv_qpn : Z; rv_payload : retransPayload }.

Record rxTimerUpdate : Type := mk_rxTimer { xt_qpn : Z; xt_stop : bool }.
Definition rxTimerUpdate_new (qpn : Z) (stop : bool) : rxTimerUpdate := mk_rxTimer (u16 qpn) stop.

(** ** Lemmas *)

Lemma opcode_roundtrip (c : ibOpCode) :
  (forall n, c = RC_OTHER n -> 18 <= n < 2 ^ 8) -> opcode_of (opcode_num c) = c /\ fits 8 (opcode_num c).
Proof.
  intros Hc. destruct c; try (split; [done | unfold fits; cbn; lia]).
  specialize (Hc n eq_refl). cbn. split; [|unfold fits; lia]. unfold opcode_of.
  by rewrite lookup_ge_None_2 by (cbn; lia).
Qed.

Lemma opcode_named (n : Z) : fits 8 n -> forall m, opcode_of n = RC_OTHER m -> m = n /\ 18 <= n.
Proof.
  intros Hn m. unfold opcode_of. destruct (named_codes !! Z.to_nat n) as [c|] eqn:E; cbn.
  - intros ->. apply list_elem_of_lookup_2 in E. repeat (apply elem_of_cons in E as [E|E]; [done|]).
    by apply elem_of_nil in E.
  - intros [= <-]. split; [done|]. apply lookup_ge_None_1 in E. cbn in E. unfold fits in Hn. lia.
Qed.

Lemma bytes_field3 (h lo v : Z) : 0 <= lo -> fits 24 v -> reverse 3 (bits (set_bits h lo 24 (reverse 3 v)) lo 24) = v.
Proof. apply (bytes_field 3). Qed.
Lemma bytes_field4 (h lo v : Z) : 0 <= lo -> fits 32 v -> reverse 4 (bits (set_bits h lo 32 (reverse 4 v)) lo 32) = v.
Proof. apply (bytes_field 4). Qed.
Lemma bytes_field8 (h lo v : Z) : 0 <= lo -> fits 64 v -> reverse 8 (bits (set_bits h lo 64 (reverse 8 v)) lo 64) = v.
Proof. apply (bytes_field 8). Qed.

(** A base transport header as the transmit side fills it in. *)
Definition bth_make (h : Z) (op : ibOpCode) (key qp psn : Z) : Z :=
  bth_setDstQP (bth_setPsn (bth_setPartitionKey (bth_setOpCode h op) key) psn) qp.

Lemma bth_fields (h : Z) (op : ibOpCode) (key qp psn : Z) (ack : bool) :
  opcode_of (opcode_num op) = op /\ fits 8 (opcode_num op) -> fits 16 key -> fits 24 qp -> fits 24 psn ->
  let h' := bth_make h op key qp psn in
  Forall (fun h'' => bth_getOpCode h'' = op /\ bth_getPartitionKey h'' = key /\
                     bth_getDstQP h'' = qp /\ bth_getPsn h'' = psn) [h'; bth_setAckReq h' ack].
Proof.
  intros [Hop Hf] Hkey Hqp Hpsn. unfold bth_make, bth_getOpCode, bth_getPartitionKey, bth_getDstQP, bth_getPsn,
    bth_setAckReq, bth_setDstQP, bth_setPsn, bth_setPartitionKey, bth_setOpCode.
  repeat constructor.
  all: repeat (rewrite bits_set_bits_ne by lia).
  all: rewrite ?bytes_field3 by (done || lia); try done.
  all: rewrite bits_set_bits_eq, ?wrap_wrap, wrap_small by (done || lia); done.
Qed.

Lemma reth_fields (h a k l : Z) :
  fits 64 a -> fits 32 k -> fits 32 l ->
  let h' := reth_setRemoteKey (reth_setLength (reth_setVirtualAddress h a) l) k in
  reth_getVirtualAddress h' = a /\ reth_getRemoteKey h' = k /\ reth_getLength h' = l.
Proof.
  intros Ha Hk Hl h'. unfold h', reth_getVirtualAddress, reth_getRemoteKey, reth_getLength, reth_setVirtualAddress, reth_setRemoteKey,
    reth_setLength. split_and!.
  all: repeat (rewrite bits_set_bits_ne by lia).
  all: by rewrite ?bytes_field4, ?bytes_field8 by (done || lia).
Qed.

Lemma aeth_fields (h s m : Z) :
  fits 8 s -> fits 24 m ->
  let h' := aeth_setMsn (aeth_setSyndrome h s) m in
  aeth_getSyndrome h' = s /\ aeth_getMsn h' = m /\ aeth_isNAK h' = (bits s 5 2 =? 3).
Proof.
  intros Hs Hm h'. unfold h', aeth_getSyndrome, aeth_getMsn, aeth_isNAK, aeth_setSyndrome, aeth_setMsn. split_and!.
  - rewrite bits_set_bits_ne, bits_set_bits_eq, wrap_small by (done || lia). done.
  - by rewrite bytes_field3 by (done || lia).
  - rewrite bits_set_bits_ne by lia. f_equal. apply Z.bits_inj'. intros i Hi.
    rewrite !bits_testbit, set_bits_testbit by lia. destruct (Z.ltb_spec i 2); [|done]. cbn.
    replace ((0 <=? i + 5) && (i + 5 <? 0 + 8)) with true by lia. f_equal. lia.
Qed.

(** A transport header survives the wire: what the transmit side fills in and
    sends word by word, the receive side reads back, for every width of the
    words and whatever its register held. *)
Theorem bth_wire_roundtrip (W h old : Z) (ready : bool) (fill : nat -> Z) (op : ibOpCode) (key qp psn : Z) :
  0 < W -> fits BTH_SIZE h -> fits BTH_SIZE old ->
  (forall n, op = RC_OTHER n -> 18 <= n < 2 ^ 8) -> fits 16 key -> fits 24 qp -> fits 24 psn ->
  let received := collect W BTH_SIZE
    (emit W BTH_SIZE (words W BTH_SIZE) fill (mk_header ready 0 (bth_make h op key qp psn))) (mk_header false 0 old) in
  h_ready received = true /\ bth_getOpCode (h_header received) = op /\
  bth_getPartitionKey (h_header received) = key /\ bth_getDstQP (h_header received) = qp /\
  bth_getPsn (h_header received) = psn.
Proof.
  intros HW Hh Hold Hop Hkey Hqp Hpsn received.
  assert (fits BTH_SIZE (bth_make h op key qp psn)) as Hf.
  { unfold bth_make, bth_setDstQP, bth_setPsn, bth_setPartitionKey, bth_setOpCode, BTH_SIZE in *.
    repeat (apply set_bits_fits; [lia | lia | lia |]). done. }
  unfold received. rewrite header_roundtrip by (done || (split; [done | unfold BTH_SIZE; lia])). cbn [h_ready h_header].
  split; [done|].
  by destruct (Forall_inv (bth_fields h op key qp psn true (opcode_roundtrip op Hop) Hkey Hqp Hpsn))
    as (-> & -> & -> & ->).
Qed.

Lemma bth_wire_roundtrip_witness :
  let received := collect 64 BTH_SIZE (emit 64 BTH_SIZE (words 64 BTH_SIZE) (fun _ => 77)
      (mk_header false 0 (bth_make 0 RC_ACK 0xFFFF 0x123456 0xABCDEF))) (mk_header false 0 5) in
  h_ready received = true /\ bth_getOpCode (h_header received) = RC_ACK /\
  bth_getPartitionKey (h_header received) = 0xFFFF /\ bth_getDstQP (h_header received) = 0x123456 /\
  bth_getPsn (h_header received) = 0xABCDEF.
Proof. apply (bth_wire_roundtrip 64 0 5 false (fun _ => 77) RC_ACK 0xFFFF 0x123456 0xABCDEF); done. Defined.
