(* ===== verification/LinkedQueues.v ===== *)
(** Queues as linked lists in one shared memory.  The multi queue
    ([ib_transport_protocol/multi_queue/multi_queue.hpp]) and the retransmitter
    ([retransmitter/retransmitter.hpp]) keep a table of head and tail pointers
    by queue, a memory of nodes and a free list, each behind a process with its
    own FIFOs; a fourth process works on them one request at a time.  This file
    holds the three memory processes, which the two modules have in common,
    and what they guarantee to the fourth: its view of the tables is up to date
    although its writes are still in FIFOs. *)
From stdpp Require Import base numbers list gmap fin_maps strings.
From Stdlib Require Import ZArith Lia.
From S2P Require Import Prelude.

Local Open Scope Z_scope.

(** ** Data *)

Record mqPointerEntry : Type := mk_mqPointer { mp_head : Z; mp_tail : Z; mp_valid : bool }.
Record mqPointerReq : Type := mk_mqPointerReq { pq_key : Z; pq_lock : bool }.
Record mqPointerUpdate : Type := mk_mqPointerUpdate { pu_key : Z; pu_entry : mqPointerEntry }.

Record mqMetaEntry (T : Type) : Type := mk_mqMeta {
  mm_value : T; mm_next : Z; mm_valid : bool; mm_isTail : bool }.
Arguments mk_mqMeta {T}.
Arguments mm_value {T}.
Arguments mm_next {T}.
Arguments mm_valid {T}.
Arguments mm_isTail {T}.

(** The three constructors of [mqMetaReq]: read an entry, link it to the next
    one, write it. *)
Inductive mqMetaReq (T : Type) : Type :=
| MetaRead (idx : Z)
| MetaAppend (idx next : Z)
| MetaWrite (idx : Z) (e : mqMetaEntry T).
Arguments MetaRead {T}.
Arguments MetaAppend {T}.
Arguments MetaWrite {T}.

(** The entry of a new element is a tail. *)
Definition mqMetaEntry_new {T : Type} (v : T) : mqMetaEntry T := mk_mqMeta v 0 true true.

(** The memory: the static variables of the three processes and their FIFOs. *)
Record lq (T : Type) : Type := mk_lq {
  ptr_table : gmap Z mqPointerEntry;
  mq_lockedKey : Z;
  mq_isLocked : bool;
  mq_wait : bool;
  mq_request : mqPointerReq;
  freeListCounter : Z;
  meta_table : gmap Z (mqMetaEntry T);
  pointerReqFifo : list mqPointerReq;
  pointerUpdFifo : list mqPointerUpdate;
  pointerRspFifo : list mqPointerEntry;
  metaReqFifo : list (mqMetaReq T);
  metaRspFifo : list (mqMetaEntry T);
  freeListFifo : list Z;
  releaseFifo : list Z
}.
Arguments mk_lq {T}.
Arguments ptr_table {T}.
Arguments mq_lockedKey {T}.
Arguments mq_isLocked {T}.
Arguments mq_wait {T}.
Arguments mq_request {T}.
Arguments freeListCounter {T}.
Arguments meta_table {T}.
Arguments pointerReqFifo {T}.
Arguments pointerUpdFifo {T}.
Arguments pointerRspFifo {T}.
Arguments metaReqFifo {T}.
Arguments metaRspFifo {T}.
Arguments freeListFifo {T}.
Arguments releaseFifo {T}.

Definition lq_init {T : Type} : lq T :=
  mk_lq ∅ 0 false false (mk_mqPointerReq 0 false) 0 ∅ [] [] [] [] [] [] [].

(** The FIFOs between the processes have depth 2. *)
Definition lq_depth : nat := 2.

Section memory.
Context {T : Type} (zero : T).

Definition pointer_at (t : gmap Z mqPointerEntry) (k : Z) : mqPointerEntry :=
  default (mk_mqPointer 0 0 false) (t !! k).
Definition node_at (t : gmap Z (mqMetaEntry T)) (i : Z) : mqMetaEntry T :=
  default (mk_mqMeta zero 0 false false) (t !! i).

(** ** The processes *)

Definition mq_pointer_table (NUM_QUEUES : Z) (s : lq T) : step_result (lq T) :=
  let '(mk_lq pt lk il wt req fc mt pq pu pr mq mr fl rel) := s in
  let in_range k := (0 <=? k) && (k <? NUM_QUEUES) in
  match pu with
  | upd :: pu' =>
      if in_range (pu_key upd) then
        Next (mk_lq (<[pu_key upd := pu_entry upd]> pt) lk (if lk =? pu_key upd then false else il)
          wt req fc mt pq pu' pr mq mr fl rel)
      else StepUndef "index outside the pointer table"
  | [] =>
      match pq, wt with
      | r :: pq', false =>
          if pq_lock r && il then Next (mk_lq pt lk il true r fc mt pq' pu pr mq mr fl rel)
          else if negb (in_range (pq_key r)) then StepUndef "index outside the pointer table"
          else if s_full lq_depth pr then Blocked
          else Next (mk_lq pt (if pq_lock r then pq_key r else lk) (if pq_lock r then true else il) wt r fc mt
                 pq' pu (pr ++ [pointer_at pt (pq_key r)]) mq mr fl rel)
      | _, true =>
          if il then Next s
          else if negb (in_range (pq_key req)) then StepUndef "index outside the pointer table"
          else if s_full lq_depth pr then Blocked
          else Next (mk_lq pt (pq_key req) true false req fc mt pq pu (pr ++ [pointer_at pt (pq_key req)])
                 mq mr fl rel)
      | [], false => Next s
      end
  end.

Definition mq_freelist_handler (MULTI_QUEUE_SIZE : Z) (s : lq T) : step_result (lq T) :=
  let '(mk_lq pt lk il wt req fc mt pq pu pr mq mr fl rel) := s in
  let full := s_full (Z.to_nat MULTI_QUEUE_SIZE) fl in
  match rel with
  | i :: rel' =>
      if full then Blocked else Next (mk_lq pt lk il wt req fc mt pq pu pr mq mr (fl ++ [i]) rel')
  | [] =>
      if (fc <? MULTI_QUEUE_SIZE) && negb full then
        Next (mk_lq pt lk il wt req (wrap 16 (fc + 1)) mt pq pu pr mq mr (fl ++ [fc]) rel)
      else Next s
  end.

Definition apply_meta (t : gmap Z (mqMetaEntry T)) (r : mqMetaReq T) : gmap Z (mqMetaEntry T) :=
  match r with
  | MetaRead _ => t
  | MetaAppend i n => <[i := mk_mqMeta (mm_value (node_at t i)) n (mm_valid (node_at t i)) false]> t
  | MetaWrite i e => <[i := e]> t
  end.

Definition meta_idx (r : mqMetaReq T) : Z :=
  match r with MetaRead i | MetaAppend i _ | MetaWrite i _ => i end.

Definition mq_meta_table (MULTI_QUEUE_SIZE : Z) (s : lq T) : step_result (lq T) :=
  let '(mk_lq pt lk il wt req fc mt pq pu pr mq mr fl rel) := s in
  match mq with
  | r :: mq' =>
      if (0 <=? meta_idx r) && (meta_idx r <? MULTI_QUEUE_SIZE) then
        match r with
        | MetaRead i =>
            if s_full lq_depth mr then Blocked
            else Next (mk_lq pt lk il wt req fc mt pq pu pr mq' (mr ++ [node_at mt i]) fl rel)
        | _ => Next (mk_lq pt lk il wt req fc (apply_meta mt r) pq pu pr mq' mr fl rel)
        end
      else StepUndef "index outside the meta table"
  | [] => Next s
  end.

Inductive mem_label : Type := MPointers | MFree | MNodes.

Definition mem_step (NUM_QUEUES MULTI_QUEUE_SIZE : Z) (l : mem_label) (s : lq T) : step_result (lq T) :=
  match l with
  | MPointers => mq_pointer_table NUM_QUEUES s
  | MFree => mq_freelist_handler MULTI_QUEUE_SIZE s
  | MNodes => mq_meta_table MULTI_QUEUE_SIZE s
  end.

(** ** What the requesting process does to the FIFOs *)

Definition push_pointerReq (r : mqPointerReq) (s : lq T) : lq T :=
  let '(mk_lq pt lk il wt req fc mt pq pu pr mq mr fl rel) := s in
  mk_lq pt lk il wt req fc mt (pq ++ [r]) pu pr mq mr fl rel.
Definition push_pointerUpd (u : mqPointerUpdate) (s : lq T) : lq T :=
  let '(mk_lq pt lk il wt req fc mt pq pu pr mq mr fl rel) := s in
  mk_lq pt lk il wt req fc mt pq (pu ++ [u]) pr mq mr fl rel.
Definition push_metaReq (r : mqMetaReq T) (s : lq T) : lq T :=
  let '(mk_lq pt lk il wt req fc mt pq pu pr mq mr fl rel) := s in
  mk_lq pt lk il wt req fc mt pq pu pr (mq ++ [r]) mr fl rel.
Definition push_release (i : Z) (s : lq T) : lq T :=
  let '(mk_lq pt lk il wt req fc mt pq pu pr mq mr fl rel) := s in
  mk_lq pt lk il wt req fc mt pq pu pr mq mr fl (rel ++ [i]).
Definition pop_pointerRsp (s : lq T) : lq T :=
  let '(mk_lq pt lk il wt req fc mt pq pu pr mq mr fl rel) := s in
  mk_lq pt lk il wt req fc mt pq pu (tail pr) mq mr fl rel.
Definition pop_metaRsp (s : lq T) : lq T :=
  let '(mk_lq pt lk il wt req fc mt pq pu pr mq mr fl rel) := s in
  mk_lq pt lk il wt req fc mt pq pu pr mq (tail mr) fl rel.
Definition pop_freeList (s : lq T) : lq T :=
  let '(mk_lq pt lk il wt req fc mt pq pu pr mq mr fl rel) := s in
  mk_lq pt lk il wt req fc mt pq pu pr mq mr (tail fl) rel.
End memory.

(** ** The memory as the requesting process sees it *)

Section view.
Context {T : Type} (zero : T) (NUM_QUEUES SIZE : Z).

(** The tables once the writes in the FIFOs have been made. *)
Definition eff_ptr (s : lq T) (k : Z) : mqPointerEntry :=
  pointer_at (foldl (fun t u => <[pu_key u := pu_entry u]> t) (ptr_table s) (pointerUpdFifo s)) k.
Definition eff_node (s : lq T) (i : Z) : mqMetaEntry T :=
  node_at zero (foldl (apply_meta zero) (meta_table s) (metaReqFifo s)) i.

Definition is_read (r : mqMetaReq T) : bool := match r with MetaRead _ => true | _ => false end.

(** The pointer entry the process waits for: asked for, or given. *)
Inductive ptr_pending (s : lq T) (hold : option Z) : option Z -> Prop :=
| PNone (Hreq : pointerReqFifo s = []) (Hrsp : pointerRspFifo s = []) : ptr_pending s hold None
| PAsked r (Hreq : pointerReqFifo s = [r]) (Hrsp : pointerRspFifo s = [])
    (Hrange : 0 <= pq_key r < NUM_QUEUES) (Hlock : pq_lock r = true -> hold = Some (pq_key r)) :
    ptr_pending s hold (Some (pq_key r))
| PGiven k (Hreq : pointerReqFifo s = []) (Hrsp : pointerRspFifo s = [eff_ptr s k]) :
    ptr_pending s hold (Some k).

(** The node it waits for. *)
Inductive node_pending (s : lq T) : option Z -> Prop :=
| NNone (Hreq : Forall (fun r => is_read r = false) (metaReqFifo s)) (Hrsp : metaRspFifo s = []) :
    node_pending s None
| NAsked l i (Hreq : metaReqFifo s = l ++ [MetaRead i]) (Hl : Forall (fun r => is_read r = false) l)
    (Hrsp : metaRspFifo s = []) : node_pending s (Some i)
| NGiven i (Hreq : metaReqFifo s = []) (Hrsp : metaRspFifo s = [eff_node s i]) : node_pending s (Some i).

(** [hold]: the queue the process has asked to lock and not yet updated.
    [used]: the nodes it has taken from the free list and not returned. *)
Record MemInv (s : lq T) (pw nw hold : option Z) (used : list Z) : Prop := {
  mi_wait : mq_wait s = false;
  mi_ptr : ptr_pending s hold pw;
  mi_node : node_pending s nw;
  mi_lock : mq_isLocked s = true ->
    (hold = Some (mq_lockedKey s) /\ pointerReqFifo s = []) \/
    exists u, u ∈ pointerUpdFifo s /\ pu_key u = mq_lockedKey s;
  mi_upd : Forall (fun u => 0 <= pu_key u < NUM_QUEUES) (pointerUpdFifo s);
  mi_idx : Forall (fun r => 0 <= meta_idx r < SIZE) (metaReqFifo s);
  mi_free : freeListFifo s ++ releaseFifo s ++ used ≡ₚ seqZ 0 (freeListCounter s);
  mi_counter : 0 <= freeListCounter s <= SIZE
}.

Hypothesis sizes : 0 < SIZE < 2 ^ 16.
#[local] Arguments s_full {A} depth s : simpl never.

Lemma apply_read (t : gmap Z (mqMetaEntry T)) (r : mqMetaReq T) : is_read r = true -> apply_meta zero t r = t.
Proof. by destruct r. Qed.

Lemma range_true (n k : Z) : 0 <= k < n -> (0 <=? k) && (k <? n) = true.
Proof. lia. Qed.

Lemma ptr_pending_frame (s s' : lq T) (hold pw : option Z) :
  pointerReqFifo s' = pointerReqFifo s -> pointerRspFifo s' = pointerRspFifo s ->
  (forall k, eff_ptr s' k = eff_ptr s k) -> ptr_pending s hold pw -> ptr_pending s' hold pw.
Proof.
  intros E1 E2 E3 []; [apply PNone | eapply PAsked | apply PGiven]; rewrite ?E1, ?E2, ?E3; done.
Qed.

Lemma node_pending_frame (s s' : lq T) (nw : option Z) :
  metaReqFifo s' = metaReqFifo s -> metaRspFifo s' = metaRspFifo s ->
  (forall i, eff_node s' i = eff_node s i) -> node_pending s nw -> node_pending s' nw.
Proof.
  intros E1 E2 E3 []; [apply NNone | eapply NAsked | apply NGiven]; rewrite ?E1, ?E2, ?E3; done.
Qed.

Lemma pointers_inv (s s' : lq T) pw nw hold used :
  MemInv s pw nw hold used -> mq_pointer_table NUM_QUEUES s = Next s' ->
  MemInv s' pw nw hold used /\ (forall k, eff_ptr s' k = eff_ptr s k) /\ (forall i, eff_node s' i = eff_node s i).
Proof.
  intros [Hw Hp Hn Hl Hu Hi Hf Hc] Hs. destruct s as [pt lk il wt req fc mt pq pu pr mq mr fl rel]. cbn in *.
  subst wt. destruct pu as [|u pu].
  - destruct pq as [|r pq]; [simplify_eq; by split_and!|].
    destruct Hp as [|r' Hq Hr Hrange Hlock|]; cbn in *; simplify_eq.
    destruct il; [by destruct (Hl eq_refl) as [[_ ?]|(u & Hu' & _)]; [|apply elem_of_nil in Hu']|].
    rewrite andb_false_r in Hs. rewrite range_true in Hs by done. cbn in Hs.
    destruct (s_full lq_depth []); simplify_eq.
    split_and!; [|done|done].
    split; cbn; try done; [by apply PGiven | by refine (node_pending_frame _ _ _ _ _ _ Hn)|].
    destruct (pq_lock r'); [|done]. intros _. left. auto.
  - apply Forall_cons in Hu as [Hu Hus]. rewrite range_true in Hs by done. simplify_eq.
    split_and!; [|done|done]. split; cbn; try done.
    + by refine (ptr_pending_frame _ _ _ _ _ _ _ Hp).
    + by refine (node_pending_frame _ _ _ _ _ _ Hn).
    + destruct (Z.eqb_spec lk (pu_key u)); [done|]. intros Hil.
      destruct (Hl Hil) as [|(u' & Hu' & Hk)]; [by left|]. right. exists u'.
      apply elem_of_cons in Hu' as [->|]; [congruence | done].
Qed.

Lemma nodes_inv (s s' : lq T) pw nw hold used :
  MemInv s pw nw hold used -> mq_meta_table zero SIZE s = Next s' ->
  MemInv s' pw nw hold used /\ (forall k, eff_ptr s' k = eff_ptr s k) /\ (forall i, eff_node s' i = eff_node s i).
Proof.
  intros [Hw Hp Hn Hl Hu Hi Hf Hc] Hs. destruct s as [pt lk il wt req fc mt pq pu pr mq mr fl rel]. cbn in *.
  destruct mq as [|r mq]; [simplify_eq; by split_and!|].
  apply Forall_cons in Hi as [Hr Hi]. rewrite range_true in Hs by done.
  destruct (is_read r) eqn:Er.
  - destruct r as [i| |]; try done. destruct (s_full lq_depth mr); simplify_eq.
    split_and!; [|done|done]. split; cbn; try done; [by refine (ptr_pending_frame _ _ _ _ _ _ _ Hp)|].
    destruct Hn as [Hq|l i' Hq Hl' Hr'|]; cbn in *; [by apply Forall_cons in Hq as [? _] | | done].
    destruct l as [|r l]; cbn in Hq; simplify_eq; [|by apply Forall_cons in Hl' as [? _]].
    by apply NGiven.
  - assert (s' = mk_lq pt lk il wt req fc (apply_meta zero mt r) pq pu pr mq mr fl rel) as ->
      by (destruct r; by simplify_eq).
    split_and!; [|done|done]. split; cbn; try done; [by refine (ptr_pending_frame _ _ _ _ _ _ _ Hp)|].
    destruct Hn as [Hq|l i' Hq Hl' Hr'|]; cbn in *; [| |done].
    + apply Forall_cons in Hq as [_ Hq]. by apply NNone.
    + destruct l as [|r' l]; cbn in Hq; simplify_eq. apply Forall_cons in Hl' as [_ Hl'].
      by apply (NAsked _ l).
Qed.

(** Taking nodes from the free list and returning them touches nothing else. *)
Lemma MemInv_free pt lk il wt req fc mt pq pu pr mq mr fl rel fc' fl' rel' used used' pw nw hold :
  MemInv (mk_lq pt lk il wt req fc mt pq pu pr mq mr fl rel) pw nw hold used ->
  fl' ++ rel' ++ used' ≡ₚ seqZ 0 fc' -> 0 <= fc' <= SIZE ->
  MemInv (mk_lq pt lk il wt req fc' mt pq pu pr mq mr fl' rel') pw nw hold used'.
Proof.
  intros [Hw Hp Hn Hl Hu Hi Hf Hc] Hf' Hc'. split; [done | | | done | done | done | done | done].
  - destruct Hp; [by apply PNone | by apply PAsked | by apply PGiven].
  - destruct Hn; [by apply NNone | by eapply NAsked | by apply NGiven].
Qed.

Lemma freelist_inv (s s' : lq T) pw nw hold used :
  MemInv s pw nw hold used -> mq_freelist_handler SIZE s = Next s' ->
  MemInv s' pw nw hold used /\ (forall k, eff_ptr s' k = eff_ptr s k) /\ (forall i, eff_node s' i = eff_node s i).
Proof.
  intros I Hs. pose proof (mi_free _ _ _ _ _ I) as Hf. pose proof (mi_counter _ _ _ _ _ I) as Hc.
  destruct s as [pt lk il wt req fc mt pq pu pr mq mr fl rel]. cbn in Hs, Hf, Hc.
  destruct rel as [|i rel].
  - destruct (fc <? SIZE) eqn:E; cbn in Hs; [destruct (s_full _ fl); cbn in Hs|]; simplify_eq; try by split_and!.
    apply Z.ltb_lt in E. rewrite wrap_small by (unfold fits; lia). split_and!; [|done|done].
    refine (MemInv_free _ _ _ _ _ _ _ _ _ _ _ _ _ _ _ _ _ _ _ _ _ _ I _ _); [|lia].
    replace (fc + 1) with (Z.of_nat (S (Z.to_nat fc))) by lia.
    rewrite seqZ_S, Z.add_0_l, Z2Nat.id, <- Hf by lia. solve_Permutation.
  - destruct (s_full _ fl); simplify_eq. split_and!; [|done|done].
    refine (MemInv_free _ _ _ _ _ _ _ _ _ _ _ _ _ _ _ _ _ _ _ _ _ _ I _ _); [|done].
    rewrite <- Hf. solve_Permutation.
Qed.

Lemma mem_inv (l : mem_label) (s s' : lq T) pw nw hold used :
  MemInv s pw nw hold used -> mem_step zero NUM_QUEUES SIZE l s = Next s' ->
  MemInv s' pw nw hold used /\ (forall k, eff_ptr s' k = eff_ptr s k) /\ (forall i, eff_node s' i = eff_node s i).
Proof.
  destruct l; cbn [mem_step]; [apply pointers_inv | apply freelist_inv | apply nodes_inv].
Qed.

(** *** What the requesting process may do *)

Lemma ask_pointer (s : lq T) (nw : option Z) (used : list Z) (k : Z) (lock : bool) :
  MemInv s None nw None used -> 0 <= k < NUM_QUEUES ->
  MemInv (push_pointerReq (mk_mqPointerReq k lock) s) (Some k) nw (if lock then Some k else None) used.
Proof.
  intros [Hw Hp Hn Hl Hu Hi Hf Hc] Hk. destruct s. cbn in *.
  inversion Hp as [Hq Hr| |]; cbn in *; subst. split; cbn; try done.
  - apply (PAsked _ _ (mk_mqPointerReq k lock)); try done. cbn. by intros ->.
  - by refine (node_pending_frame _ _ _ _ _ _ Hn).
  - intros Hil. destruct (Hl Hil) as [[? _]|?]; [done | by right].
Qed.

Lemma take_pointer (s : lq T) (k : Z) (nw hold : option Z) (used : list Z) e l :
  MemInv s (Some k) nw hold used -> pointerRspFifo s = e :: l ->
  e = eff_ptr s k /\ MemInv (pop_pointerRsp s) None nw hold used.
Proof.
  intros [Hw Hp Hn Hl Hu Hi Hf Hc] He. destruct s. cbn in *. subst.
  inversion Hp as [| |k' Hq Hr]; cbn in *; simplify_eq. split; [done|]. split; cbn; try done.
  - by apply PNone.
  - by refine (node_pending_frame _ _ _ _ _ _ Hn).
Qed.

Lemma update_pointer (s : lq T) (nw hold : option Z) (used : list Z) (k : Z) (e : mqPointerEntry) :
  MemInv s None nw hold used -> 0 <= k < NUM_QUEUES -> hold = None \/ hold = Some k ->
  MemInv (push_pointerUpd (mk_mqPointerUpdate k e) s) None nw None used.
Proof.
  intros [Hw Hp Hn Hl Hu Hi Hf Hc] Hk Hh. destruct s. cbn in *.
  inversion Hp as [Hq Hr| |]; cbn in *; subst. split; cbn; try done.
  - by apply PNone.
  - by refine (node_pending_frame _ _ _ _ _ _ Hn).
  - intros Hil. right. destruct (Hl Hil) as [[Ho _]|(u & Hin & Hu')].
    + exists (mk_mqPointerUpdate k e). rewrite elem_of_app, list_elem_of_singleton. cbn.
      split; [by right|]. destruct Hh; congruence.
    + exists u. rewrite elem_of_app. auto.
  - apply Forall_app_2; [done | by apply Forall_singleton].
Qed.

Lemma eff_ptr_update (s : lq T) (k : Z) (e : mqPointerEntry) (j : Z) :
  eff_ptr (push_pointerUpd (mk_mqPointerUpdate k e) s) j = if decide (k = j) then e else eff_ptr s j.
Proof.
  destruct s. unfold eff_ptr. cbn. rewrite foldl_app. cbn. unfold pointer_at.
  destruct (decide (k = j)) as [->|]; [by rewrite lookup_insert_eq | by rewrite lookup_insert_ne].
Qed.

Lemma ask_node (s : lq T) (pw hold : option Z) (used : list Z) (i : Z) :
  MemInv s pw None hold used -> 0 <= i < SIZE -> MemInv (push_metaReq (MetaRead i) s) pw (Some i) hold used.
Proof.
  intros [Hw Hp Hn Hl Hu Hi Hf Hc] Hr. destruct s. cbn in *. split; cbn; try done.
  - by refine (ptr_pending_frame _ _ _ _ _ _ _ Hp).
  - inversion Hn; cbn in *; subst. by eapply NAsked.
  - apply Forall_app_2; [done | by apply Forall_singleton].
Qed.

Lemma take_node (s : lq T) (pw hold : option Z) (i : Z) (used : list Z) e l :
  MemInv s pw (Some i) hold used -> metaRspFifo s = e :: l ->
  e = eff_node s i /\ MemInv (pop_metaRsp s) pw None hold used.
Proof.
  intros [Hw Hp Hn Hl Hu Hi Hf Hc] He. destruct s. cbn in *. subst.
  inversion Hn as [| |i' Hq Hr]; cbn in *; simplify_eq. split; [done|]. split; cbn; try done.
  - by refine (ptr_pending_frame _ _ _ _ _ _ _ Hp).
  - by apply NNone.
Qed.

Lemma write_node (s : lq T) (pw hold : option Z) (used : list Z) (r : mqMetaReq T) :
  MemInv s pw None hold used -> is_read r = false -> 0 <= meta_idx r < SIZE ->
  MemInv (push_metaReq r s) pw None hold used.
Proof.
  intros [Hw Hp Hn Hl Hu Hi Hf Hc] Hr Hi'. destruct s. cbn in *. split; cbn; try done.
  - by refine (ptr_pending_frame _ _ _ _ _ _ _ Hp).
  - inversion Hn; cbn in *; subst. apply NNone; [|done]. apply Forall_app_2; [done | by apply Forall_singleton].
  - apply Forall_app_2; [done | by apply Forall_singleton].
Qed.

Lemma node_at_insert (t : gmap Z (mqMetaEntry T)) (i j : Z) (e : mqMetaEntry T) :
  node_at zero (<[i := e]> t) j = if decide (i = j) then e else node_at zero t j.
Proof.
  unfold node_at. destruct (decide (i = j)) as [->|]; [by rewrite lookup_insert_eq | by rewrite lookup_insert_ne].
Qed.

Lemma eff_node_write (s : lq T) (i j : Z) (e : mqMetaEntry T) :
  eff_node (push_metaReq (MetaWrite i e) s) j = if decide (i = j) then e else eff_node s j.
Proof. destruct s. unfold eff_node. cbn. rewrite foldl_app. cbn. apply node_at_insert. Qed.

Lemma eff_node_append (s : lq T) (i n j : Z) :
  eff_node (push_metaReq (MetaAppend i n) s) j =
    if decide (i = j) then mk_mqMeta (mm_value (eff_node s i)) n (mm_valid (eff_node s i)) false
    else eff_node s j.
Proof. destruct s. unfold eff_node. cbn. rewrite foldl_app. cbn. apply node_at_insert. Qed.

Lemma eff_node_read (s : lq T) (i j : Z) : eff_node (push_metaReq (MetaRead i) s) j = eff_node s j.
Proof. destruct s. unfold eff_node. cbn. by rewrite foldl_app. Qed.

Lemma take_free (s : lq T) (pw nw hold : option Z) (used : list Z) i l :
  MemInv s pw nw hold used -> freeListFifo s = i :: l -> MemInv (pop_freeList s) pw nw hold (i :: used).
Proof.
  intros I Hi. pose proof (mi_free _ _ _ _ _ I) as Hf. pose proof (mi_counter _ _ _ _ _ I) as Hc.
  destruct s. cbn in *. subst. refine (MemInv_free _ _ _ _ _ _ _ _ _ _ _ _ _ _ _ _ _ _ _ _ _ _ I _ _); [|done].
  rewrite <- Hf. cbn. solve_Permutation.
Qed.

Lemma give_back (s : lq T) (pw nw hold : option Z) (used used' : list Z) i :
  MemInv s pw nw hold used -> used ≡ₚ i :: used' -> MemInv (push_release i s) pw nw hold used'.
Proof.
  intros I Hi. pose proof (mi_free _ _ _ _ _ I) as Hf. pose proof (mi_counter _ _ _ _ _ I) as Hc.
  destruct s. cbn in *. refine (MemInv_free _ _ _ _ _ _ _ _ _ _ _ _ _ _ _ _ _ _ _ _ _ _ I _ _); [|done].
  rewrite <- Hf, Hi. solve_Permutation.
Qed.

Lemma MemInv_perm (s : lq T) (pw nw hold : option Z) (used used' : list Z) :
  used ≡ₚ used' -> MemInv s pw nw hold used -> MemInv s pw nw hold used'.
Proof. intros Hu []. split; try done. by rewrite <- Hu. Qed.

(** The node numbers in use are distinct and inside the memory. *)
Lemma used_nodes (s : lq T) (pw nw hold : option Z) (used : list Z) :
  MemInv s pw nw hold used -> NoDup used /\ Forall (fun i => 0 <= i < SIZE) used.
Proof.
  intros [_ _ _ _ _ _ Hf Hc]. pose proof (NoDup_seqZ 0 (freeListCounter s)) as Hnd. rewrite <- Hf in Hnd.
  split; [by do 2 (apply NoDup_app in Hnd as (_ & _ & Hnd))|].
  apply Forall_forall. intros i Hi.
  assert (i ∈ seqZ 0 (freeListCounter s)) as Hin by (rewrite <- Hf, !elem_of_app; tauto).
  apply elem_of_seqZ in Hin. lia.
Qed.

Lemma MemInv_init : MemInv lq_init None None None [].
Proof. split; cbn; try done; [by apply PNone | by apply NNone | lia]. Qed.

(** *** Progress

    What each process has left to do; it always can do it. *)
Definition mem_work (l : mem_label) (s : lq T) : nat :=
  match l with
  | MPointers => length (pointerUpdFifo s) + length (pointerReqFifo s)
  | MFree => length (releaseFifo s)
  | MNodes => length (metaReqFifo s)
  end.

Lemma pointers_progress (s : lq T) pw nw hold used :
  MemInv s pw nw hold used -> exists s', mq_pointer_table NUM_QUEUES s = Next s' /\
    mem_work MPointers s' = pred (mem_work MPointers s) /\
    forall l, l <> MPointers -> mem_work l s' = mem_work l s.
Proof.
  intros [Hw Hp Hn Hl Hu Hi Hf Hc]. destruct s as [pt lk il wt req fc mt pq pu pr mq mr fl rel]. cbn in *.
  subst wt. destruct pu as [|u pu].
  - destruct pq as [|r pq]; [eexists; split_and!; [done | done | by intros []]|].
    destruct Hp as [|r' Hq Hr Hrange Hlock|]; cbn in *; simplify_eq.
    destruct il; [by destruct (Hl eq_refl) as [[_ ?]|(u & Hu' & _)]; [|apply elem_of_nil in Hu']|].
    rewrite andb_false_r, range_true by done. cbn. eexists; split_and!; [done | done | by intros []].
  - apply Forall_cons in Hu as [Hu Hus]. rewrite range_true by done.
    eexists; split_and!; [done | done | by intros []].
Qed.

Lemma nodes_progress (s : lq T) pw nw hold used :
  MemInv s pw nw hold used -> exists s', mq_meta_table zero SIZE s = Next s' /\
    mem_work MNodes s' = pred (mem_work MNodes s) /\
    forall l, l <> MNodes -> mem_work l s' = mem_work l s.
Proof.
  intros [Hw Hp Hn Hl Hu Hi Hf Hc]. destruct s as [pt lk il wt req fc mt pq pu pr mq mr fl rel]. cbn in *.
  destruct mq as [|r mq]; [eexists; split_and!; [done | done | by intros []]|].
  apply Forall_cons in Hi as [Hr Hi]. rewrite range_true by done.
  destruct r as [i|i n|i e]; [|eexists; split_and!; [done | done | by intros []]..].
  assert (mr = []) as -> by (by destruct Hn).
  eexists; split_and!; [done | done | by intros []].
Qed.

(** The free list has room for every node that is not in it. *)
Lemma freelist_progress (s : lq T) pw nw hold used :
  MemInv s pw nw hold used -> exists s', mq_freelist_handler SIZE s = Next s' /\
    mem_work MFree s' = pred (mem_work MFree s) /\
    forall l, l <> MFree -> mem_work l s' = mem_work l s.
Proof.
  intros [Hw Hp Hn Hl Hu Hi Hf Hc]. destruct s as [pt lk il wt req fc mt pq pu pr mq mr fl rel]. cbn in *.
  destruct rel as [|i rel].
  - destruct ((fc <? SIZE) && _); eexists; split_and!; [done | done | by intros [] | done | done | by intros []].
  - apply Permutation_length in Hf. rewrite !length_app, length_seqZ in Hf. cbn in Hf.
    unfold s_full. rewrite (proj2 (Nat.leb_gt (Z.to_nat SIZE) (length fl))) by lia.
    eexists; split_and!; [done | done | by intros []].
Qed.

Lemma mem_progress (l : mem_label) (s : lq T) pw nw hold used :
  MemInv s pw nw hold used -> exists s', mem_step zero NUM_QUEUES SIZE l s = Next s' /\
    mem_work l s' = pred (mem_work l s) /\ forall l', l' <> l -> mem_work l' s' = mem_work l' s.
Proof.
  destruct l; cbn [mem_step]; [apply pointers_progress | apply freelist_progress | apply nodes_progress].
Qed.
End view.

(** ** Queues in the memory *)

Section queues.
Context {T : Type}.
Implicit Types (M : Z -> mqMetaEntry T) (P : Z -> mqPointerEntry).

(** The nodes [ns] are linked in this order, hold the values [vs], and only
    the last is a tail. *)
Fixpoint chain M (ns : list Z) (vs : list T) : Prop :=
  match ns, vs with
  | [], [] => True
  | i :: ns', v :: vs' =>
      mm_valid (M i) = true /\ mm_value (M i) = v /\
      mm_isTail (M i) = match ns' with [] => true | _ => false end /\
      match ns' with [] => True | j :: _ => mm_next (M i) = j end /\ chain M ns' vs'
  | _, _ => False
  end.

Definition points (p : mqPointerEntry) (ns : list Z) : Prop :=
  match ns with
  | [] => mp_valid p = false
  | i :: _ => mp_valid p = true /\ mp_head p = i /\ last ns = Some (mp_tail p)
  end.

Lemma chain_ext M M' ns vs : (forall i, i ∈ ns -> M' i = M i) -> chain M ns vs -> chain M' ns vs.
Proof.
  revert vs. induction ns as [|i ns IH]; intros [|v vs] HM; cbn; try done.
  intros (H1 & H2 & H3 & H4 & H5). rewrite HM by left. split_and!; try done.
  apply IH; [|done]. intros j Hj. apply HM. by right.
Qed.

Lemma chain_length M ns vs : chain M ns vs -> length ns = length vs.
Proof.
  revert vs. induction ns as [|i ns IH]; intros [|v vs]; cbn; try done. intros (_ & _ & _ & _ & H). by rewrite (IH vs).
Qed.

Lemma chain_new M n v : M n = mqMetaEntry_new v -> chain M [n] [v].
Proof. intros E. cbn. by rewrite E. Qed.

(** Linking a new node behind the tail. *)
Lemma chain_snoc M M' ns vs t n v :
  chain M ns vs -> NoDup ns -> last ns = Some t -> n ∉ ns ->
  M' t = mk_mqMeta (mm_value (M t)) n (mm_valid (M t)) false -> M' n = mqMetaEntry_new v ->
  (forall i, i ∈ ns -> i <> t -> M' i = M i) -> chain M' (ns ++ [n]) (vs ++ [v]).
Proof.
  revert vs. induction ns as [|i ns IH]; intros vs Hc Hnd Ht Hn HMt HMn HM; [done|].
  destruct vs as [|w vs]; [done|]. cbn in Hc. destruct Hc as (H1 & H2 & H3 & H4 & H5).
  apply NoDup_cons in Hnd as [Hi Hnd].
  destruct ns as [|j ns].
  - cbn in Ht. simplify_eq. destruct vs; [|done]. cbn. rewrite HMt, HMn. cbn. by rewrite H1.
  - rewrite last_cons_cons in Ht.
    assert (i <> t) as Hit. { intros ->. apply Hi. by apply last_Some_elem_of. }
    change ((i :: j :: ns) ++ [n]) with (i :: (j :: ns) ++ [n]). cbn [app]. cbn [chain].
    rewrite HM by (done || left). split_and!; try done.
    apply IH; try done.
    + intros Hn'. apply Hn. by right.
    + intros k Hk. apply HM. by right.
Qed.

Lemma chain_tail M i ns v vs : chain M (i :: ns) (v :: vs) -> chain M ns vs.
Proof. cbn. tauto. Qed.

Lemma chain_head M i ns vs : chain M (i :: ns) vs ->
  exists v vs', vs = v :: vs' /\ mm_valid (M i) = true /\ mm_value (M i) = v /\
    mm_isTail (M i) = bool_decide (ns = []) /\ (forall j ns', ns = j :: ns' -> mm_next (M i) = j).
Proof.
  destruct vs as [|v vs]; [done|]. cbn. intros (H1 & H2 & H3 & H4 & H5). exists v, vs.
  split_and!; try done; [by destruct ns|]. by intros j ns' ->.
Qed.

(** Somewhere on the chain. *)
Lemma chain_at M n1 i n2 v1 v2 :
  chain M (n1 ++ i :: n2) (v1 ++ v2) -> length n1 = length v1 ->
  exists v vs, v2 = v :: vs /\ mm_valid (M i) = true /\ mm_value (M i) = v /\
    mm_isTail (M i) = bool_decide (n2 = []) /\ (forall j ns', n2 = j :: ns' -> mm_next (M i) = j) /\
    length n2 = length vs.
Proof.
  revert v1. induction n1 as [|n n1 IH]; intros [|w v1] Hc Hl; cbn in Hl; try done.
  - cbn [app] in Hc. destruct (chain_head _ _ _ _ Hc) as (v & vs & -> & H1 & H2 & H3 & H4).
    exists v, vs. split_and!; try done. apply chain_length in Hc. cbn in Hc. lia.
  - cbn in Hc. destruct Hc as (_ & _ & _ & _ & Hc). apply (IH v1); [done | lia].
Qed.

(** ** All queues *)

Section with_queues.
Context (N : Z).

(** [own k]: the nodes of queue [k]; [q k]: its contents. *)
Definition Rep P M (own : Z -> list Z) (q : Z -> list T) : Prop :=
  forall k, 0 <= k < N -> chain M (own k) (q k) /\ points (P k) (own k).

Definition all_nodes (own : Z -> list Z) : list Z := seqZ 0 N ≫= own.

Definition upd {A : Type} (f : Z -> A) (k : Z) (x : A) (j : Z) : A := if decide (k = j) then x else f j.

Lemma upd_eq {A : Type} (f : Z -> A) (k : Z) (x : A) : upd f k x k = x.
Proof. unfold upd. by rewrite decide_True. Qed.
Lemma upd_ne {A : Type} (f : Z -> A) (k j : Z) (x : A) : k <> j -> upd f k x j = f j.
Proof. intros. unfold upd. by rewrite decide_False. Qed.

(** The nodes of one queue, apart from those of the others. *)
Lemma all_nodes_split (own : Z -> list Z) (k : Z) :
  0 <= k < N -> exists rest, forall l, all_nodes (upd own k l) ≡ₚ l ++ rest.
Proof.
  intros Hk. assert (k ∈ seqZ 0 N) as Hin by (apply elem_of_seqZ; lia).
  apply list_elem_of_split in Hin as (l1 & l2 & Hl). pose proof (NoDup_seqZ 0 N) as Hnd.
  rewrite Hl in Hnd. apply NoDup_app in Hnd as (_ & Hd & [Hk2 _]%NoDup_cons).
  exists ((l1 ≫= own) ++ (l2 ≫= own)). intros l. unfold all_nodes. rewrite Hl, bind_app, bind_cons, upd_eq.
  assert (forall l', k ∉ l' -> l' ≫= upd own k l = l' ≫= own) as E.
  { intros l' Hk'. induction l' as [|j l' IH]; [done|]. rewrite !bind_cons.
    apply not_elem_of_cons in Hk' as [Hj Hk']. rewrite upd_ne, IH by done. done. }
  rewrite !E; [solve_Permutation | done |]. intros Hk1. apply (Hd k Hk1). left.
Qed.

Lemma upd_id {A : Type} (f : Z -> A) (k : Z) : forall j, upd f k (f k) j = f j.
Proof. intros j. unfold upd. by destruct (decide (k = j)) as [->|]. Qed.

Lemma all_nodes_ext (f g : Z -> list Z) : (forall k, f k = g k) -> all_nodes f = all_nodes g.
Proof. intros E. unfold all_nodes. induction (seqZ 0 N) as [|k l IH]; [done|]. by rewrite !bind_cons, E, IH. Qed.

Lemma all_nodes_at (own : Z -> list Z) (k : Z) :
  0 <= k < N -> exists rest, all_nodes own ≡ₚ own k ++ rest /\ forall l, all_nodes (upd own k l) ≡ₚ l ++ rest.
Proof.
  intros Hk. destruct (all_nodes_split own k Hk) as [rest Hr]. exists rest. split; [|done].
  rewrite <- (Hr (own k)). by rewrite (all_nodes_ext _ _ (upd_id own k)).
Qed.

(** A change of one queue that leaves the nodes of the others alone. *)
Lemma Rep_upd P P' M M' own q k ns vs :
  0 <= k < N -> Rep P M own q ->
  (forall j, j <> k -> 0 <= j < N -> P' j = P j) ->
  (forall j i, j <> k -> 0 <= j < N -> i ∈ own j -> M' i = M i) ->
  chain M' ns vs -> points (P' k) ns -> Rep P' M' (upd own k ns) (upd q k vs).
Proof.
  intros Hk HR HP HM Hc Hp j Hj. destruct (decide (k = j)) as [<-|Hne].
  - by rewrite !upd_eq.
  - rewrite !upd_ne by done. destruct (HR j Hj) as [Hcj Hpj]. split.
    + eapply chain_ext; [|exact Hcj]. intros i Hi. by apply (HM j).
    + by rewrite HP.
Qed.

Lemma own_disjoint (own : Z -> list Z) (j k i : Z) :
  NoDup (all_nodes own) -> 0 <= j < N -> 0 <= k < N -> j <> k -> i ∈ own j -> i ∉ own k.
Proof.
  intros Hnd Hj Hk Hne Hi Hi'. destruct (all_nodes_at own k Hk) as (rest & Hp & Hu).
  rewrite Hp in Hnd. apply NoDup_app in Hnd as (_ & Hd & _). apply (Hd i Hi').
  assert (i ∈ all_nodes (upd own k [])) as Hin.
  { unfold all_nodes. apply list_elem_of_bind. exists j. rewrite upd_ne by done.
    split; [done|]. apply elem_of_seqZ. lia. }
  by rewrite Hu in Hin.
Qed.
End with_queues.
End queues.

(** ** What the clients share *)

Section clients.
Context {T : Type} (zero : T) (N SIZE : Z).

Lemma Rep_ext P P' (M M' : Z -> mqMetaEntry T) own q :
  (forall k, P' k = P k) -> (forall i, M' i = M i) -> Rep N P M own q -> Rep N P' M' own q.
Proof.
  intros HP HM HR k Hk. destruct (HR k Hk) as [Hc Hp]. rewrite HP. split; [|done].
  eapply chain_ext; [|exact Hc]. by intros.
Qed.

(** The views of the memory after each action on its FIFOs. *)
Lemma eff_ptr_pop_freeList (m : lq T) k : eff_ptr (pop_freeList m) k = eff_ptr m k.
Proof. by destruct m. Qed.
Lemma eff_ptr_pointerReq (m : lq T) r k : eff_ptr (push_pointerReq r m) k = eff_ptr m k.
Proof. by destruct m. Qed.
Lemma eff_ptr_metaReq (m : lq T) r k : eff_ptr (push_metaReq r m) k = eff_ptr m k.
Proof. by destruct m. Qed.
Lemma eff_ptr_release (m : lq T) i k : eff_ptr (push_release i m) k = eff_ptr m k.
Proof. by destruct m. Qed.
Lemma eff_ptr_pop_pointerRsp (m : lq T) k : eff_ptr (pop_pointerRsp m) k = eff_ptr m k.
Proof. by destruct m. Qed.
Lemma eff_ptr_pop_metaRsp (m : lq T) k : eff_ptr (pop_metaRsp m) k = eff_ptr m k.
Proof. by destruct m. Qed.
Lemma eff_node_pop_freeList (m : lq T) i : eff_node zero (pop_freeList m) i = eff_node zero m i.
Proof. by destruct m. Qed.
Lemma eff_node_pointerReq (m : lq T) r i : eff_node zero (push_pointerReq r m) i = eff_node zero m i.
Proof. by destruct m. Qed.
Lemma eff_node_pointerUpd (m : lq T) u i : eff_node zero (push_pointerUpd u m) i = eff_node zero m i.
Proof. by destruct m. Qed.
Lemma eff_node_release (m : lq T) j i : eff_node zero (push_release j m) i = eff_node zero m i.
Proof. by destruct m. Qed.
Lemma eff_node_pop_pointerRsp (m : lq T) i : eff_node zero (pop_pointerRsp m) i = eff_node zero m i.
Proof. by destruct m. Qed.
Lemma eff_node_pop_metaRsp (m : lq T) i : eff_node zero (pop_metaRsp m) i = eff_node zero m i.
Proof. by destruct m. Qed.

Section with_sizes.
Hypothesis sizes : 0 < SIZE < 2 ^ 16.

Lemma own_range (own : Z -> list Z) (m : lq T) pw nw hold extra k i :
  MemInv zero N SIZE m pw nw hold (all_nodes N own ++ extra) -> 0 <= k < N -> i ∈ own k -> 0 <= i < SIZE.
Proof.
  intros HI Hk Hi. destruct (used_nodes zero N SIZE sizes _ _ _ _ _ HI) as [_ HF]. rewrite Forall_forall in HF.
  apply HF, elem_of_app. left. apply list_elem_of_bind. exists k. split; [done|]. apply elem_of_seqZ. lia.
Qed.

Lemma extra_fresh (own : Z -> list Z) (m : lq T) pw nw hold n k :
  MemInv zero N SIZE m pw nw hold (all_nodes N own ++ [n]) -> 0 <= k < N -> (n ∉ own k) /\ 0 <= n < SIZE.
Proof.
  intros HI Hk. destruct (used_nodes zero N SIZE sizes _ _ _ _ _ HI) as [Hnd HF].
  apply Forall_app in HF as [_ HF]. rewrite Forall_singleton in HF. split; [|done].
  apply NoDup_app in Hnd as (_ & Hd & _). intros Hin. apply (Hd n); [|left].
  apply list_elem_of_bind. exists k. split; [done|]. apply elem_of_seqZ. lia.
Qed.
(** *** The operations on a queue

    [Mem]: the nodes in use are those of the queues and those in [extra].
    [Reps]: the queues hold the lists [q]. *)
Definition Mem (m : lq T) (pw nw hold : option Z) (own : Z -> list Z) (extra : list Z) : Prop :=
  MemInv zero N SIZE m pw nw hold (all_nodes N own ++ extra).
Definition Reps (m : lq T) (own : Z -> list Z) (q : Z -> list T) : Prop :=
  Rep N (eff_ptr m) (eff_node zero m) own q.

Lemma Reps_ext (m m' : lq T) own q :
  (forall k, eff_ptr m' k = eff_ptr m k) -> (forall i, eff_node zero m' i = eff_node zero m i) ->
  Reps m own q -> Reps m' own q.
Proof. apply Rep_ext. Qed.

Lemma Reps_queues (m : lq T) own q q' : (forall k, q' k = q k) -> Reps m own q -> Reps m own q'.
Proof. intros Hq HR k Hk. rewrite Hq. by apply HR. Qed.

(** A node of the free list. *)
Lemma take_new (m : lq T) (pw nw hold : option Z) own i l :
  Mem m pw nw hold own [] -> freeListFifo m = i :: l -> Mem (pop_freeList m) pw nw hold own [i].
Proof.
  intros HI Hi. eapply MemInv_perm; [|by eapply (take_free zero N SIZE)]. by rewrite app_nil_r, Permutation_cons_append.
Qed.

(** The first element of a queue. *)
Lemma push_first (m : lq T) own q k idx v :
  0 <= k < N -> Mem m None None (Some k) own [idx] -> Reps m own q -> own k = [] ->
  let m' := push_pointerUpd (mk_mqPointerUpdate k (mk_mqPointer idx idx true))
              (push_metaReq (MetaWrite idx (mqMetaEntry_new v)) m) in
  q k = [] /\ Mem m' None None None (upd own k [idx]) [] /\ Reps m' (upd own k [idx]) (upd q k [v]).
Proof.
  intros Hk HI HR Hown m'. destruct (extra_fresh _ _ _ _ _ _ _ HI Hk) as [Hn Hidx].
  destruct (HR k Hk) as [Hc _]. rewrite Hown in Hc. split_and!.
  - by destruct (q k).
  - apply update_pointer with (hold := Some k); [|done|by right]. apply write_node; [|done|done].
    eapply MemInv_perm; [|exact HI]. destruct (all_nodes_at N own k Hk) as (rest & Ha & Hb).
    rewrite Ha, Hb, Hown, app_nil_r. cbn. solve_Permutation.
  - unfold m'. eapply (Rep_upd N); [done | exact HR | | | |].
    + intros j Hj _. by rewrite eff_ptr_update, decide_False, eff_ptr_metaReq by done.
    + intros j n Hj Hjr Hnj. rewrite eff_node_pointerUpd, eff_node_write, decide_False; [done|].
      intros ->. by destruct (extra_fresh _ _ _ _ _ _ j HI Hjr).
    + apply chain_new. rewrite eff_node_pointerUpd, eff_node_write. by rewrite decide_True.
    + by rewrite eff_ptr_update, decide_True by done.
Qed.

(** The node behind the tail of a queue, once it is linked from there. *)
Lemma push_behind (m : lq T) own q k idx v M t :
  0 <= k < N -> Mem m None None (Some k) own [idx] -> Rep N (eff_ptr m) M own q -> last (own k) = Some t ->
  (forall j, eff_node zero m j =
     if decide (t = j) then mk_mqMeta (mm_value (M t)) idx (mm_valid (M t)) false else M j) ->
  let m' := push_pointerUpd (mk_mqPointerUpdate k (mk_mqPointer (mp_head (eff_ptr m k)) idx true))
              (push_metaReq (MetaWrite idx (mqMetaEntry_new v)) m) in
  Mem m' None None None (upd own k (own k ++ [idx])) [] /\
  Reps m' (upd own k (own k ++ [idx])) (upd q k (q k ++ [v])).
Proof.
  intros Hk HI HR Ht HM m'. destruct (extra_fresh _ _ _ _ _ _ _ HI Hk) as [Hn Hidx].
  destruct (all_nodes_at N own k Hk) as (rest & Ha & Hb). destruct (HR k Hk) as [Hc Hpt]. split.
  - apply update_pointer with (hold := Some k); [|done|by right]. apply write_node; [|done|done].
    eapply MemInv_perm; [|exact HI]. rewrite Ha, Hb, app_nil_r. solve_Permutation.
  - destruct (used_nodes zero N SIZE sizes _ _ _ _ _ HI) as [Hnd _]. apply NoDup_app in Hnd as (Hnd & _ & _).
    unfold m'. eapply (Rep_upd N); [done | exact HR | | | |].
    + intros j Hj _. by rewrite eff_ptr_update, decide_False, eff_ptr_metaReq by done.
    + intros j n Hj Hjr Hnj. rewrite eff_node_pointerUpd, eff_node_write, HM, !decide_False; [done | |].
      * intros ->. eapply (own_disjoint N own k j n); [done|done|done|done| |done]. by apply last_Some_elem_of.
      * intros ->. by destruct (extra_fresh _ _ _ _ _ _ j HI Hjr).
    + apply (chain_snoc M _ _ _ t idx v); try done.
      * rewrite Ha in Hnd. by apply NoDup_app in Hnd as [Hnd _].
      * rewrite eff_node_pointerUpd, eff_node_write, HM, decide_False, decide_True; [done | done |].
        intros ->. apply Hn. by apply last_Some_elem_of.
      * rewrite eff_node_pointerUpd, eff_node_write, decide_True; done.
      * intros n Hn' Hnt. rewrite eff_node_pointerUpd, eff_node_write, HM, !decide_False; [done|congruence|].
        intros ->. done.
    + rewrite eff_ptr_update, decide_True by done. destruct (own k) as [|hd tl]; [done|].
      cbn in Hpt. destruct Hpt as (_ & Hhd & _). cbn. by rewrite Hhd, last_cons, last_snoc.
Qed.

(** Linking it. *)
Lemma link_node (m : lq T) (hold : option Z) own extra k t idx :
  0 <= k < N -> Mem m None None hold own extra -> last (own k) = Some t ->
  Mem (push_metaReq (MetaAppend t idx) m) None None hold own extra.
Proof.
  intros Hk HI Ht. apply write_node; [done | done |]. cbn. eapply (own_range own m); [exact HI | exact Hk |].
  by apply last_Some_elem_of.
Qed.

(** Removing the oldest element. *)
Lemma pop_oldest (m : lq T) (hold : option Z) own q k hd tl :
  0 <= k < N -> hold = None \/ hold = Some k -> Mem m None None hold own [] -> Reps m own q -> own k = hd :: tl ->
  let e := eff_node zero m hd in
  let m' := push_pointerUpd (mk_mqPointerUpdate k
                (mk_mqPointer (mm_next e) (mp_tail (eff_ptr m k)) (negb (mm_isTail e)))) (push_release hd m) in
  exists v vs, q k = v :: vs /\ mm_value e = v /\
    Mem m' None None None (upd own k tl) [] /\ Reps m' (upd own k tl) (upd q k vs).
Proof.
  intros Hk Hh HI HR Hown e m'. destruct (HR k Hk) as [Hc Hpt]. rewrite Hown in Hc, Hpt.
  destruct Hpt as (Hv & Hhd & Ht). destruct (chain_head _ _ _ _ Hc) as (v & vs & Hqk & Hmv & Hval & Htl & Hnx).
  destruct (all_nodes_at N own k Hk) as (rest & Ha & Hb).
  exists v, vs. split; [done|]. split; [done|]. split.
  - apply update_pointer with (hold := hold); [|done|done].
    eapply give_back; [exact HI|]. rewrite Ha, Hb, Hown, !app_nil_r. done.
  - unfold m'. eapply (Rep_upd N); [done | exact HR | | | |].
    + intros j Hj _. by rewrite eff_ptr_update, decide_False, eff_ptr_release by done.
    + intros j n _ _ _. by rewrite eff_node_pointerUpd, eff_node_release.
    + eapply chain_ext; [|rewrite Hqk in Hc; by eapply chain_tail].
      intros. by rewrite eff_node_pointerUpd, eff_node_release.
    + rewrite eff_ptr_update, decide_True by done. subst e. rewrite Htl. destruct tl as [|n tl]; [done|].
      cbn. by rewrite (Hnx n tl) by done.
Qed.

(** Changing the oldest element in place. *)
Lemma change_oldest (m : lq T) (hold : option Z) own q k hd tl v vs v' :
  0 <= k < N -> hold = None \/ hold = Some k -> Mem m None None hold own [] -> Reps m own q -> own k = hd :: tl ->
  q k = v :: vs ->
  let e := eff_node zero m hd in
  let m' := push_pointerUpd (mk_mqPointerUpdate k (eff_ptr m k))
              (push_metaReq (MetaWrite hd (mk_mqMeta v' (mm_next e) (mm_valid e) (mm_isTail e))) m) in
  Mem m' None None None own [] /\ Reps m' own (upd q k (v' :: vs)).
Proof.
  intros Hk Hh HI HR Hown Hqk e m'. destruct (HR k Hk) as [Hc Hpt]. rewrite Hown, Hqk in Hc.
  assert (Hr : 0 <= hd < SIZE) by (eapply (own_range own m); [exact HI | exact Hk | rewrite Hown; left]).
  destruct (used_nodes zero N SIZE sizes _ _ _ _ _ HI) as [Hnd _]. rewrite app_nil_r in Hnd. split.
  - apply update_pointer with (hold := hold); [|done|done]. by apply write_node.
  - intros j Hj. destruct (decide (k = j)) as [<-|Hne].
    + rewrite upd_eq, Hown. split.
      * destruct (all_nodes_at N own k Hk) as (rest & Ha & _). rewrite Ha, Hown in Hnd.
        apply NoDup_app in Hnd as ([Hhd _]%NoDup_cons & _). cbn in Hc |- *. unfold m'.
        rewrite !eff_node_pointerUpd, !eff_node_write, !decide_True by done. cbn.
        destruct Hc as (H1 & H2 & H3 & H4 & H5). split_and!; try done.
        eapply chain_ext; [|exact H5]. intros i Hi.
        rewrite eff_node_pointerUpd, eff_node_write, decide_False; [done|]. by intros ->.
      * unfold m'. rewrite eff_ptr_update, decide_True by done. by rewrite <- Hown.
    + rewrite upd_ne by done. destruct (HR j Hj) as [Hcj Hpj]. unfold m'. split.
      * eapply chain_ext; [|exact Hcj]. intros i Hi.
        rewrite eff_node_pointerUpd, eff_node_write, decide_False; [done|]. intros <-.
        apply (own_disjoint N own k j hd Hnd Hk Hj Hne); [rewrite Hown; left | done].
      * by rewrite eff_ptr_update, decide_False, eff_ptr_metaReq by done.
Qed.

Lemma Mem_init : Mem lq_init None None None (fun _ => []) [].
Proof.
  unfold Mem. assert (all_nodes N (fun _ => []) = []) as -> by (unfold all_nodes; by induction (seqZ 0 N)).
  by apply MemInv_init.
Qed.

Lemma Reps_init : Reps lq_init (fun _ => []) (fun _ => []).
Proof. by intros k Hk. Qed.
End with_sizes.
End clients.

Create Rewrite HintDb mq_views.
#[export] Hint Rewrite @eff_ptr_pop_freeList @eff_ptr_pointerReq @eff_ptr_metaReq @eff_ptr_release
  @eff_ptr_pop_pointerRsp @eff_ptr_pop_metaRsp @eff_ptr_update @eff_node_pop_freeList @eff_node_pointerReq
  @eff_node_pointerUpd @eff_node_release @eff_node_pop_pointerRsp @eff_node_pop_metaRsp @eff_node_read
  @eff_node_write @eff_node_append : mq_views.
