(* ===== verification/MultiQueue.v ===== *)
(** The multi queue ([ib_transport_protocol/multi_queue/multi_queue.hpp]): FIFO
    queues that share one memory of linked nodes.  The RoCE transport keeps the
    local addresses of outstanding read requests in it, one queue per queue
    pair.  The memory processes are in LinkedQueues; here is the process that
    serves pushes and pops, and the proof that the whole is a family of
    independent queues. *)
From stdpp Require Import base numbers list gmap fin_maps strings.
From Stdlib Require Import ZArith Lia.
From S2P Require Import Prelude LinkedQueues.

Local Open Scope Z_scope.

(** ** Data *)

Record mqInsertReq (T : Type) : Type := mk_mqInsert { mi_key : Z; mi_value : T }.
Arguments mk_mqInsert {T}.
Arguments mi_key {T}.
Arguments mi_value {T}.

Inductive mqPopOperation : Type := POP | FRONT.
Record mqPopReq : Type := mk_mqPopReq { po_op : mqPopOperation; po_key : Z }.

Inductive mqStateType : Type := STATE_MAIN | STATE_PUSH | STATE_PUSH_2 | STATE_POP | STATE_POP_2.

#[export] Instance mqStateType_eq_dec : EqDecision mqStateType.
Proof. solve_decision. Defined.

Record mq (T : Type) : Type := mk_mq {
  rt_state : mqStateType;
  newMetaIdx : Z;
  insert_reg : option (mqInsertReq T);
  popRequest : mqPopReq;
  ptrMeta : mqPointerEntry;
  multiQueue_push : list (mqInsertReq T);
  multiQueue_pop_req : list mqPopReq;
  multiQueue_pop_rsp : list T;
  memory : lq T
}.
Arguments mk_mq {T}.
Arguments rt_state {T}.
Arguments newMetaIdx {T}.
Arguments insert_reg {T}.
Arguments popRequest {T}.
Arguments ptrMeta {T}.
Arguments multiQueue_push {T}.
Arguments multiQueue_pop_req {T}.
Arguments multiQueue_pop_rsp {T}.
Arguments memory {T}.

(** The registers start zeroed; [insert] is assigned before it is used. *)
Definition mq_init {T : Type} : mq T :=
  mk_mq STATE_MAIN 0 None (mk_mqPopReq POP 0) (mk_mqPointer 0 0 false) [] [] [] lq_init.

(** ** The process *)

Section process.
Context {T : Type}.

Definition mq_main (s : mq T) : step_result (mq T) :=
  let '(mk_mq st idx ins popr pm push popq out m) := s in
  match push, freeListFifo m with
  | i :: push', f :: _ =>
      if s_full lq_depth (pointerReqFifo m) then Blocked
      else Next (mk_mq STATE_PUSH f (Some i) popr pm push' popq out
             (push_pointerReq (mk_mqPointerReq (mi_key i) true) (pop_freeList m)))
  | _, _ =>
      match popq with
      | r :: popq' =>
          if s_full lq_depth (pointerReqFifo m) then Blocked
          else Next (mk_mq STATE_POP idx ins r pm push popq' out
                 (push_pointerReq (mk_mqPointerReq (po_key r) false) m))
      | [] => Next s
      end
  end.

Definition mq_push (s : mq T) (i : mqInsertReq T) : step_result (mq T) :=
  let '(mk_mq st idx ins popr pm push popq out m) := s in
  match pointerRspFifo m with
  | e :: _ =>
      if mp_valid e then
        if s_full lq_depth (metaReqFifo m) then Blocked
        else Next (mk_mq STATE_PUSH_2 idx ins popr (mk_mqPointer (mp_head e) idx true) push popq out
               (push_metaReq (MetaAppend (mp_tail e) idx) (pop_pointerRsp m)))
      else
        if s_full lq_depth (metaReqFifo m) || s_full lq_depth (pointerUpdFifo m) then Blocked
        else Next (mk_mq STATE_MAIN idx ins popr (mk_mqPointer idx idx true) push popq out
               (push_pointerUpd (mk_mqPointerUpdate (mi_key i) (mk_mqPointer idx idx true))
                 (push_metaReq (MetaWrite idx (mqMetaEntry_new (mi_value i))) (pop_pointerRsp m))))
  | [] => Next s
  end.

Definition mq_push_2 (s : mq T) (i : mqInsertReq T) : step_result (mq T) :=
  let '(mk_mq st idx ins popr pm push popq out m) := s in
  if s_full lq_depth (metaReqFifo m) || s_full lq_depth (pointerUpdFifo m) then Blocked
  else Next (mk_mq STATE_MAIN idx ins popr pm push popq out
         (push_pointerUpd (mk_mqPointerUpdate (mi_key i) pm)
           (push_metaReq (MetaWrite idx (mqMetaEntry_new (mi_value i))) m))).

(** A pop of an empty queue is not answered. *)
Definition mq_pop (s : mq T) : step_result (mq T) :=
  let '(mk_mq st idx ins popr pm push popq out m) := s in
  match pointerRspFifo m with
  | e :: _ =>
      if mp_valid e then
        if s_full lq_depth (metaReqFifo m) then Blocked
        else Next (mk_mq STATE_POP_2 idx ins popr e push popq out
               (push_metaReq (MetaRead (mp_head e)) (pop_pointerRsp m)))
      else Next (mk_mq STATE_MAIN idx ins popr e push popq out (pop_pointerRsp m))
  | [] => Next s
  end.

Definition mq_pop_2 (s : mq T) : step_result (mq T) :=
  let '(mk_mq st idx ins popr pm push popq out m) := s in
  match metaRspFifo m with
  | e :: _ =>
      if mm_valid e then
        match po_op popr with
        | POP =>
            let pm' := mk_mqPointer (mm_next e) (mp_tail pm) (negb (mm_isTail e)) in
            if s_full lq_depth (releaseFifo m) || s_full lq_depth (pointerUpdFifo m) then Blocked
            else Next (mk_mq STATE_MAIN idx ins popr pm' push popq (out ++ [mm_value e])
                   (push_pointerUpd (mk_mqPointerUpdate (po_key popr) pm')
                     (push_release (mp_head pm) (pop_metaRsp m))))
        | FRONT => Next (mk_mq STATE_MAIN idx ins popr pm push popq (out ++ [mm_value e]) (pop_metaRsp m))
        end
      else Next (mk_mq STATE_MAIN idx ins popr pm push popq out (pop_metaRsp m))
  | [] => Next s
  end.

Definition mq_process_requests (s : mq T) : step_result (mq T) :=
  match rt_state s, insert_reg s with
  | STATE_MAIN, _ => mq_main s
  | STATE_PUSH, Some i => mq_push s i
  | STATE_PUSH_2, Some i => mq_push_2 s i
  | STATE_POP, _ => mq_pop s
  | STATE_POP_2, _ => mq_pop_2 s
  | _, None => StepUndef "insert register not assigned"
  end.

(** ** Runs

    The other modules write requests; the history records the operations in the
    order in which the process takes them. *)
Inductive aop : Type := APush (k : Z) (v : T) | APop (k : Z) | AFront (k : Z).

Definition op_of_pop (r : mqPopReq) : aop :=
  match po_op r with POP => APop (po_key r) | FRONT => AFront (po_key r) end.

Inductive mq_label : Type :=
| QProcess
| QMemory (l : mem_label)
| QPush (k : Z) (v : T)
| QPop (op : mqPopOperation) (k : Z).

(** The operation a call of the process takes. *)
Definition taken (s : mq T) : list aop :=
  match rt_state s, multiQueue_push s, freeListFifo (memory s), multiQueue_pop_req s with
  | STATE_MAIN, i :: _, _ :: _, _ => [APush (mi_key i) (mi_value i)]
  | STATE_MAIN, _, _, r :: _ => [op_of_pop r]
  | _, _, _, _ => []
  end.

Definition mq_step (zero : T) (NUM_QUEUES SIZE : Z) (l : mq_label) (sh : mq T * list aop) :
    step_result (mq T * list aop) :=
  let '(s, h) := sh in
  let '(mk_mq st idx ins popr pm push popq out m) := s in
  match l with
  | QProcess =>
      match mq_process_requests s with
      | Next s' => Next (s', h ++ taken s)
      | Blocked => Blocked
      | StepUndef e => StepUndef e
      end
  | QMemory ml =>
      match mem_step zero NUM_QUEUES SIZE ml m with
      | Next m' => Next (mk_mq st idx ins popr pm push popq out m', h)
      | Blocked => Blocked
      | StepUndef e => StepUndef e
      end
  | QPush k v => Next (mk_mq st idx ins popr pm (push ++ [mk_mqInsert k v]) popq out m, h)
  | QPop op k => Next (mk_mq st idx ins popr pm push (popq ++ [mk_mqPopReq op k]) out m, h)
  end.

(** ** The abstract queues *)

Definition astep (x : list T * (Z -> list T)) (o : aop) : list T * (Z -> list T) :=
  let '(out, q) := x in
  match o with
  | APush k v => (out, upd q k (q k ++ [v]))
  | APop k => match q k with v :: vs => (out ++ [v], upd q k vs) | [] => (out, q) end
  | AFront k => match q k with v :: _ => (out ++ [v], q) | [] => (out, q) end
  end.

Definition aexec (l : list aop) : list T * (Z -> list T) := foldl astep ([], fun _ => []) l.
End process.
