(* ===== verification/MultiQueueFacts.v ===== *)
(** The multi queue (MultiQueue) is a family of independent queues: the
    invariant that ties the linked nodes and the operation under way to the
    abstract queues, and the theorems that follow from it. *)
From stdpp Require Import base numbers list gmap fin_maps strings.
From Stdlib Require Import ZArith Lia.
From S2P Require Import Prelude LinkedQueues MultiQueue.

Local Open Scope Z_scope.

(** ** The processes implement the abstract queues *)

Section refinement.
Context {T : Type} (zero : T) (N SIZE : Z).
Hypothesis sizes : 0 < SIZE < 2 ^ 16.

#[local] Arguments s_full {A} depth s : simpl never.

Definition in_queues (k : Z) : Prop := 0 <= k < N.

(** The state of the process: the operation under way, what it waits for, the
    queue it locks and the node it has taken. *)
Inductive Phase (s : mq T) (own : Z -> list Z) (q : Z -> list T) :
    list aop -> option Z -> option Z -> option Z -> list Z -> Prop :=
| PhMain (Hst : rt_state s = STATE_MAIN)
    (HR : Reps zero N (memory s) own q) :
    Phase s own q [] None None None []
| PhPush i (Hst : rt_state s = STATE_PUSH) (Hi : insert_reg s = Some i) (Hk : in_queues (mi_key i))
    (HR : Reps zero N (memory s) own q) :
    Phase s own q [APush (mi_key i) (mi_value i)] (Some (mi_key i)) None (Some (mi_key i)) [newMetaIdx s]
| PhPush2 i M t (Hst : rt_state s = STATE_PUSH_2) (Hi : insert_reg s = Some i) (Hk : in_queues (mi_key i))
    (HR : Rep N (eff_ptr (memory s)) M own q) (Ht : last (own (mi_key i)) = Some t)
    (HM : forall j, eff_node zero (memory s) j =
      if decide (t = j) then mk_mqMeta (mm_value (M t)) (newMetaIdx s) (mm_valid (M t)) false else M j)
    (Hpm : ptrMeta s = mk_mqPointer (mp_head (eff_ptr (memory s) (mi_key i))) (newMetaIdx s) true) :
    Phase s own q [APush (mi_key i) (mi_value i)] None None (Some (mi_key i)) [newMetaIdx s]
| PhPop (Hst : rt_state s = STATE_POP) (Hk : in_queues (po_key (popRequest s)))
    (HR : Reps zero N (memory s) own q) :
    Phase s own q [op_of_pop (popRequest s)] (Some (po_key (popRequest s))) None None []
| PhPop2 (Hst : rt_state s = STATE_POP_2) (Hk : in_queues (po_key (popRequest s)))
    (HR : Reps zero N (memory s) own q)
    (Hown : own (po_key (popRequest s)) <> []) (Hpm : ptrMeta s = eff_ptr (memory s) (po_key (popRequest s))) :
    Phase s own q [op_of_pop (popRequest s)] None (Some (mp_head (ptrMeta s))) None [].

Definition MqInv (sh : mq T * list aop) : Prop :=
  let '(s, h) := sh in
  exists fin pend own q pw nw hold extra,
    h = fin ++ pend /\ aexec fin = (multiQueue_pop_rsp s, q) /\
    Mem zero N SIZE (memory s) pw nw hold own extra /\
    Phase s own q pend pw nw hold extra /\
    Forall (fun i => in_queues (mi_key i)) (multiQueue_push s) /\
    Forall (fun r => in_queues (po_key r)) (multiQueue_pop_req s).

Ltac views := intros; cbn [memory]; autorewrite with mq_views; done.

Lemma aexec_snoc (l : list (@aop T)) o : aexec (l ++ [o]) = astep (aexec l) o.
Proof. unfold aexec. by rewrite foldl_app. Qed.

Lemma Phase_frame (s s' : mq T) own q pend pw nw hold extra :
  rt_state s' = rt_state s -> newMetaIdx s' = newMetaIdx s -> insert_reg s' = insert_reg s ->
  popRequest s' = popRequest s -> ptrMeta s' = ptrMeta s ->
  (forall k, eff_ptr (memory s') k = eff_ptr (memory s) k) ->
  (forall i, eff_node zero (memory s') i = eff_node zero (memory s) i) ->
  Phase s own q pend pw nw hold extra -> Phase s' own q pend pw nw hold extra.
Proof.
  intros E1 E2 E3 E4 E5 EP EN HP. destruct HP as [|i|i M t| |].
  - apply PhMain; [congruence | by eapply Rep_ext].
  - rewrite <- E2. apply PhPush; [congruence | congruence | done | by eapply Rep_ext].
  - rewrite <- E2. apply (PhPush2 s' own q i M t); [congruence | congruence | done | | done | | ].
    + by eapply Rep_ext.
    + intros j. by rewrite EN, E2, HM.
    + by rewrite E5, EP, E2.
  - rewrite <- E4 in *. apply PhPop; [congruence | done | by eapply Rep_ext].
  - rewrite <- E4, <- E5 in *. apply PhPop2; [congruence | done | by eapply Rep_ext | done | by rewrite EP].
Qed.

Lemma MqInv_memory (ml : mem_label) st idx ins popr pm push popq out m m' h :
  MqInv (mk_mq st idx ins popr pm push popq out m, h) -> mem_step zero N SIZE ml m = Next m' ->
  MqInv (mk_mq st idx ins popr pm push popq out m', h).
Proof.
  intros (fin & pend & own & q & pw & nw & hold & extra & Hh & Hq & HI & HP & Hpush & Hpop) Hs.
  destruct (mem_inv zero N SIZE sizes _ _ _ _ _ _ _ HI Hs) as (HI' & EP & EN).
  exists fin, pend, own, q, pw, nw, hold, extra. split_and!; try done.
  by refine (Phase_frame _ _ _ _ _ _ _ _ _ _ _ _ _ _ _ _ HP).
Qed.

Lemma main_inv (s s' : mq T) h :
  rt_state s = STATE_MAIN -> MqInv (s, h) -> mq_main s = Next s' -> MqInv (s', h ++ taken s).
Proof.
  intros Hst (fin & pend & own & q & pw & nw & hold & extra & Hh & Hq & HI & HP & Hpush & Hpop) Hs.
  destruct s as [st idx ins popr pm push popq out m]. cbn in Hs, Hst, Hq, Hpush, Hpop, HI. subst st.
  inversion HP as [_ HR| | | |]; cbn in *; try done. subst. rewrite app_nil_r.
  assert (forall r popq', popq = r :: popq' -> forall m', m' = push_pointerReq (mk_mqPointerReq (po_key r) false) m ->
    MqInv (mk_mq STATE_POP idx ins r pm push popq' out m', fin ++ [op_of_pop r])) as Hp.
  { intros r popq' -> m' ->. apply Forall_cons in Hpop as [Hr Hpop].
    exists fin, [op_of_pop r], own, q, (Some (po_key r)), None, None, []. split_and!; try done.
    - by apply (ask_pointer zero N SIZE _ _ _ _ false).
    - apply PhPop; [done | done |]. by eapply Reps_ext; [..|exact HR]; views. }
  destruct push as [|i push].
  - destruct popq as [|r popq].
    + simplify_eq. rewrite app_nil_r. exists fin, [], own, q, None, None, None, []. rewrite app_nil_r. by split_and!.
    + destruct (s_full _ _); simplify_eq. by eapply Hp.
  - apply Forall_cons in Hpush as [Hi Hpush]. destruct (freeListFifo m) as [|f fl] eqn:Hfl.
    + destruct popq as [|r popq].
      * simplify_eq. rewrite app_nil_r. exists fin, [], own, q, None, None, None, []. rewrite app_nil_r.
        split_and!; try done. by apply Forall_cons.
      * destruct (s_full _ _); simplify_eq.
        destruct (Hp r popq eq_refl _ eq_refl) as (fin' & pend' & own' & q' & ? & ? & ? & ? & ? & ? & ? & ? & ? & ?).
        by exists fin', pend', own', q', x, x0, x1, x2; split_and!.
    + destruct (s_full _ _); simplify_eq.
      exists fin, [APush (mi_key i) (mi_value i)], own, q, (Some (mi_key i)), None, (Some (mi_key i)), [f].
      split_and!; try done.
      * apply (ask_pointer zero N SIZE _ _ _ _ true); [|done].
        by eapply (take_new zero N SIZE).
      * apply PhPush; [done | done | done |]. by eapply Reps_ext; [..|exact HR]; views.
Qed.

Lemma main_pop_frame st idx ins popr pm push push' popq out m h :
  MqInv (mk_mq st idx ins popr pm push popq out m, h) -> Forall (fun i => in_queues (mi_key i)) push' ->
  MqInv (mk_mq st idx ins popr pm push' popq out m, h).
Proof.
  intros (fin & pend & own & q & pw & nw & hold & extra & Hh & Hq & HI & HP & _ & Hpop) Hpush.
  exists fin, pend, own, q, pw, nw, hold, extra. split_and!; try done.
  by refine (Phase_frame _ _ _ _ _ _ _ _ _ _ _ _ _ _ _ _ HP).
Qed.

Lemma push_inv (s s' : mq T) i h :
  rt_state s = STATE_PUSH -> insert_reg s = Some i -> MqInv (s, h) -> mq_push s i = Next s' -> MqInv (s', h).
Proof.
  intros Hst Hi (fin & pend & own & q & pw & nw & hold & extra & Hh & Hq & HI & HP & Hpush & Hpop) Hs.
  destruct s as [st idx ins popr pm push popq out m]. cbn in Hs, Hst, Hi, Hq, Hpush, Hpop, HI. subst st ins.
  inversion HP as [|i' _ [= <-] Hk HR| | |]; cbn in *; try done. subst.
  destruct (pointerRspFifo m) as [|e l] eqn:He.
  { simplify_eq. by exists fin, [APush (mi_key i) (mi_value i)], own, q, (Some (mi_key i)), None, (Some (mi_key i)), [idx]. }
  destruct (take_pointer zero N SIZE _ _ _ _ _ _ _ HI He) as [-> HI1].
  destruct (HR _ Hk) as [Hc Hpt].
  assert (Reps zero N (pop_pointerRsp m) own q) as HR1 by (by eapply Reps_ext; [..|exact HR]; views).
  destruct (own (mi_key i)) as [|hd tl] eqn:Hown; cbn in Hpt.
  - rewrite Hpt in Hs. destruct (_ || _); simplify_eq.
    destruct (push_first zero N SIZE sizes _ own q _ idx (mi_value i) Hk HI1 HR1 Hown) as (Eq & HI2 & HR2).
    eexists (fin ++ [APush (mi_key i) (mi_value i)]), [], _, _, None, None, None, [].
    rewrite app_nil_r, aexec_snoc, Hq. cbn. rewrite Eq. split_and!; try done. by apply PhMain.
  - destruct Hpt as (Hv & Hhd & Ht). rewrite Hv in Hs. destruct (s_full _ _); simplify_eq.
    exists fin, [APush (mi_key i) (mi_value i)], own, q, None, None, (Some (mi_key i)), [idx].
    split_and!; try done.
    + apply (link_node zero N SIZE sizes _ _ _ _ (mi_key i)); [done | done | by rewrite Hown].
    + match goal with |- Phase ?s' _ _ _ _ _ _ _ =>
        apply (PhPush2 s' own q i (eff_node zero m) (mp_tail (eff_ptr m (mi_key i)))) end; cbn; try done;
        [|by rewrite Hown| |].
      * by eapply Rep_ext; [..|exact HR]; views.
      * intros j. rewrite eff_node_append. autorewrite with mq_views. done.
      * by autorewrite with mq_views.
Qed.

Lemma push_2_inv (s s' : mq T) i h :
  rt_state s = STATE_PUSH_2 -> insert_reg s = Some i -> MqInv (s, h) -> mq_push_2 s i = Next s' -> MqInv (s', h).
Proof.
  intros Hst Hi (fin & pend & own & q & pw & nw & hold & extra & Hh & Hq & HI & HP & Hpush & Hpop) Hs.
  destruct s as [st idx ins popr pm push popq out m]. cbn in Hs, Hst, Hi, Hq, Hpush, Hpop, HI. subst st ins.
  inversion HP as [| |i' M t _ [= <-] Hk HR Ht HM Hpm| |]; cbn in *; try done. subst.
  destruct (_ || _); simplify_eq.
  destruct (push_behind zero N SIZE sizes _ own q _ idx (mi_value i) M t Hk HI HR Ht HM) as [HI2 HR2].
  eexists (fin ++ [APush (mi_key i) (mi_value i)]), [], _, _, None, None, None, [].
  rewrite app_nil_r, aexec_snoc, Hq. split_and!; try done. by apply PhMain.
Qed.

Lemma pop_inv (s s' : mq T) h :
  rt_state s = STATE_POP -> MqInv (s, h) -> mq_pop s = Next s' -> MqInv (s', h).
Proof.
  intros Hst (fin & pend & own & q & pw & nw & hold & extra & Hh & Hq & HI & HP & Hpush & Hpop) Hs.
  destruct s as [st idx ins popr pm push popq out m]. cbn in Hs, Hst, Hq, Hpush, Hpop, HI. subst st.
  inversion HP as [| | |_ Hk HR|]; cbn in *; try done. subst.
  destruct (pointerRspFifo m) as [|e l] eqn:He.
  { simplify_eq. by exists fin, [op_of_pop popr], own, q, (Some (po_key popr)), None, None, []. }
  destruct (take_pointer zero N SIZE _ _ _ _ _ _ _ HI He) as [-> HI1].
  destruct (HR _ Hk) as [Hc Hpt].
  destruct (own (po_key popr)) as [|hd tl] eqn:Hown; cbn in Hpt.
  - rewrite Hpt in Hs. simplify_eq. destruct (q (po_key popr)) as [|v vs] eqn:Eq; [|done].
    exists (fin ++ [op_of_pop popr]), [], own, q, None, None, None, [].
    rewrite app_nil_r, aexec_snoc, Hq. split_and!; try done.
    + unfold op_of_pop. cbn. by destruct (po_op popr); cbn; rewrite Eq.
    + apply PhMain; [done|]. by eapply Reps_ext; [..|exact HR]; views.
  - destruct Hpt as (Hv & Hhd & Ht). rewrite Hv in Hs. destruct (s_full _ _); simplify_eq.
    exists fin, [op_of_pop popr], own, q, None, (Some (mp_head (eff_ptr m (po_key popr)))), None, [].
    split_and!; try done.
    + apply ask_node; [done|]. eapply (own_range zero N SIZE sizes own m); [exact HI | exact Hk |]. rewrite Hown. left.
    + match goal with |- Phase ?s' _ _ _ _ _ _ _ => apply (PhPop2 s' own q) end; cbn; try done.
      * by eapply Reps_ext; [..|exact HR]; views.
      * by rewrite Hown.
      * by autorewrite with mq_views.
Qed.

Lemma pop_2_inv (s s' : mq T) h :
  rt_state s = STATE_POP_2 -> MqInv (s, h) -> mq_pop_2 s = Next s' -> MqInv (s', h).
Proof.
  intros Hst (fin & pend & own & q & pw & nw & hold & extra & Hh & Hq & HI & HP & Hpush & Hpop) Hs.
  destruct s as [st idx ins popr pm push popq out m]. cbn in Hs, Hst, Hq, Hpush, Hpop, HI. subst st.
  inversion HP as [| | | |_ Hk HR Hne Hpm]; cbn in *; try done. subst.
  destruct (metaRspFifo m) as [|e l] eqn:He.
  { simplify_eq. by exists fin, [op_of_pop popr], own, q, None,
      (Some (mp_head (eff_ptr m (po_key popr)))), None, []. }
  destruct (take_node zero N SIZE _ _ _ _ _ _ _ HI He) as [-> HI1].
  assert (Reps zero N (pop_metaRsp m) own q) as HR1 by (by eapply Reps_ext; [..|exact HR]; views).
  destruct (HR _ Hk) as [Hc Hpt].
  destruct (own (po_key popr)) as [|hd tl] eqn:Hown; [done|]. destruct Hpt as (Hv & Hhd & Ht). rewrite Hhd in *.
  destruct (chain_head _ _ _ _ Hc) as (v & vs & Hqk & Hmv & Hval & Htl & Hnx). rewrite Hmv in Hs.
  destruct (po_op popr) eqn:Hop.
  - destruct (_ || _); simplify_eq.
    destruct (pop_oldest zero N SIZE _ None own q _ _ tl Hk (or_introl eq_refl) HI1 HR1 Hown)
      as (v & vs' & Hqk' & Hval' & HI2 & HR2).
    rewrite Hqk in Hqk'. simplify_eq.
    eexists (fin ++ [op_of_pop popr]), [], _, _, None, None, None, [].
    rewrite app_nil_r, aexec_snoc, Hq. split_and!; [done | | | | done | done].
    + unfold op_of_pop. rewrite Hop. cbn. by rewrite Hqk.
    + cbn. by rewrite eff_node_pop_metaRsp, eff_ptr_pop_metaRsp in HI2.
    + apply PhMain; [done|]. cbn. by rewrite eff_node_pop_metaRsp, eff_ptr_pop_metaRsp in HR2.
  - simplify_eq.
    exists (fin ++ [op_of_pop popr]), [], own, q, None, None, None, [].
    rewrite app_nil_r, aexec_snoc, Hq. split_and!; try done.
    + unfold op_of_pop. rewrite Hop. cbn. by rewrite Hqk.
    + by apply PhMain.
Qed.

Definition in_range (l : @mq_label T) : Prop :=
  match l with QPush k _ | QPop _ k => in_queues k | _ => True end.

Lemma MqInv_step l sh sh' : in_range l -> MqInv sh -> mq_step zero N SIZE l sh = Next sh' -> MqInv sh'.
Proof.
  intros Hl HI Hs. destruct sh as [s h]. destruct l as [|ml|k v|op k].
  - assert (match mq_process_requests s with
            | Next s' => Next (s', h ++ taken s) | Blocked => Blocked | StepUndef e => StepUndef e
            end = Next sh') as Hs' by (by destruct s). clear Hs.
    destruct (mq_process_requests s) as [| |s'] eqn:Hp; simplify_eq.
    unfold mq_process_requests in Hp.
    destruct (rt_state s) eqn:Hst; [by eapply main_inv|..];
      (assert (taken s = []) as -> by (unfold taken; by rewrite Hst)); rewrite app_nil_r.
    + destruct (insert_reg s) as [i|] eqn:Hi; [|done]. by eapply push_inv.
    + destruct (insert_reg s) as [i|] eqn:Hi; [|done]. by eapply push_2_inv.
    + by eapply pop_inv.
    + by eapply pop_2_inv.
  - destruct s as [st idx ins popr pm push popq out m]. cbn in Hs.
    destruct (mem_step zero N SIZE ml m) eqn:Hm; simplify_eq. by eapply MqInv_memory.
  - destruct s as [st idx ins popr pm push popq out m]. cbn in Hs. simplify_eq.
    destruct HI as (fin & pend & own & q & pw & nw & hold & extra & Hh & Hq & HI & HP & Hpush & Hpop).
    exists fin, pend, own, q, pw, nw, hold, extra. split_and!; try done.
    + by refine (Phase_frame _ _ _ _ _ _ _ _ _ _ _ _ _ _ _ _ HP).
    + apply Forall_app_2; [done | by apply Forall_singleton].
  - destruct s as [st idx ins popr pm push popq out m]. cbn in Hs. simplify_eq.
    destruct HI as (fin & pend & own & q & pw & nw & hold & extra & Hh & Hq & HI & HP & Hpush & Hpop).
    exists fin, pend, own, q, pw, nw, hold, extra. split_and!; try done.
    + by refine (Phase_frame _ _ _ _ _ _ _ _ _ _ _ _ _ _ _ _ HP).
    + apply Forall_app_2; [done | by apply Forall_singleton].
Qed.

Lemma MqInv_init : MqInv (mq_init, []).
Proof.
  exists [], [], (fun _ => []), (fun _ => []), None, None, None, []. split_and!; try done.
  - by apply Mem_init.
  - apply PhMain; [done | apply Reps_init].
Qed.

(** *** Progress *)

Definition rank (st : mqStateType) : nat :=
  match st with STATE_MAIN => 0 | STATE_PUSH | STATE_POP => 2 | STATE_PUSH_2 | STATE_POP_2 => 1 end.
Definition total (m : lq T) : nat := (mem_work MPointers m + mem_work MFree m + mem_work MNodes m)%nat.
Definition measure (x : mq T * list (@aop T)) : nat := (2 * rank (rt_state (fst x)) + total (memory (fst x)))%nat.

(** A component that cannot run waits for its next turn. *)
Definition tick (l : @mq_label T) (x : mq T * list (@aop T)) : mq T * list (@aop T) :=
  match mq_step zero N SIZE l x with Next x' => x' | _ => x end.
Definition sweep (x : mq T * list (@aop T)) : mq T * list (@aop T) :=
  tick QProcess (tick (QMemory MNodes) (tick (QMemory MFree) (tick (QMemory MPointers) x))).

Lemma tick_inv l x : in_range l -> MqInv x -> MqInv (tick l x).
Proof. intros Hl HI. unfold tick. destruct (mq_step _ _ _ l x) eqn:E; try done. by eapply MqInv_step. Qed.

Lemma tick_memory (ml : mem_label) x : MqInv x ->
  rt_state (fst (tick (QMemory ml) x)) = rt_state (fst x) /\
  mem_work ml (memory (fst (tick (QMemory ml) x))) = pred (mem_work ml (memory (fst x))) /\
  forall ml', ml' <> ml -> mem_work ml' (memory (fst (tick (QMemory ml) x))) = mem_work ml' (memory (fst x)).
Proof.
  destruct x as [s h]. intros (fin & pend & own & q & pw & nw & hold & extra & Hh & Hq & HI & HP & Hpush & Hpop).
  destruct (mem_progress zero N SIZE sizes ml _ _ _ _ _ HI) as (m' & Hs & Hm & Ho).
  destruct s as [st idx ins popr pm push popq out m]. cbn in Hs, Hm, Ho. unfold tick. cbn. rewrite Hs. by split_and!.
Qed.

(** The process goes on, or is done. *)
Lemma process_moves (s s' : mq T) :
  rt_state s <> STATE_MAIN -> mq_process_requests s = Next s' ->
  rt_state s' = STATE_MAIN \/ s' = s \/
  (rank (rt_state s) = 2%nat /\ rank (rt_state s') = 1%nat /\ total (memory s') = S (total (memory s))).
Proof.
  intros Hst Hs. destruct s as [st idx ins popr pm push popq out m]. unfold mq_process_requests in Hs. cbn in *.
  destruct st; [done | destruct ins as [i|]; [|done].. | |]; cbn in Hs.
  - destruct (pointerRspFifo m); [simplify_eq; auto|]. destruct (mp_valid _); destruct (_ : bool); simplify_eq; auto.
    right; right. split_and!; try done. destruct m. unfold total. cbn. rewrite length_app. cbn. lia.
  - destruct (_ || _); simplify_eq. auto.
  - destruct (pointerRspFifo m); [simplify_eq; auto|]. destruct (mp_valid _); [destruct (_ : bool)|]; simplify_eq; auto.
    right; right. split_and!; try done. destruct m. unfold total. cbn. rewrite length_app. cbn. lia.
  - destruct (metaRspFifo m); [simplify_eq; auto|]. destruct (mm_valid _); [|simplify_eq; auto].
    destruct (po_op popr); [destruct (_ || _)|]; simplify_eq; auto.
Qed.

(** Once the memory has worked off its FIFOs the process is not waiting. *)
Lemma process_unblocked (s : mq T) h :
  MqInv (s, h) -> rt_state s <> STATE_MAIN -> total (memory s) = 0%nat ->
  exists s', mq_process_requests s = Next s' /\ s' <> s.
Proof.
  intros (fin & pend & own & q & pw & nw & hold & extra & Hh & Hq & HI & HP & Hpush & Hpop) Hst Ht.
  pose proof (mi_ptr _ _ _ _ _ _ _ _ HI) as Hp. pose proof (mi_node _ _ _ _ _ _ _ _ HI) as Hn.
  destruct s as [st idx ins popr pm push popq out m].
  assert (pointerUpdFifo m = [] /\ pointerReqFifo m = [] /\ releaseFifo m = [] /\ metaReqFifo m = []) as
    (E1 & E2 & E3 & E4).
  { destruct m. unfold total in Ht. cbn in Ht. split_and!; apply length_zero_iff_nil; cbn; lia. }
  clear Ht Hq HI Hpush Hpop. unfold mq_process_requests.
  destruct HP as [|i|i M t| |]; cbn in *; subst; cbn in *; try done; rewrite ?E1, ?E3, ?E4; cbn.
  - inversion Hp as [|r Hr|k Hr1 Hr2]; [by rewrite E2 in Hr|]. rewrite Hr2. destruct (mp_valid _); by eexists.
  - by eexists.
  - inversion Hp as [|r Hr|k Hr1 Hr2]; [by rewrite E2 in Hr|]. rewrite Hr2. destruct (mp_valid _); by eexists.
  - inversion Hn as [|l j Hr Hf|j Hr1 Hr2]; [by rewrite E4 in Hr; destruct l|]. rewrite Hr2.
    destruct (mm_valid _); [destruct (po_op popr)|]; by eexists.
Qed.

Lemma sweep_decreases x :
  MqInv x -> rt_state (fst x) <> STATE_MAIN ->
  rt_state (fst (sweep x)) = STATE_MAIN \/ (measure (sweep x) < measure x)%nat.
Proof.
  intros HI Hst. unfold sweep.
  destruct (tick_memory MPointers x HI) as (S1 & W1 & O1).
  pose proof (tick_inv (QMemory MPointers) x I HI) as I1. set (x1 := tick _ x) in *.
  destruct (tick_memory MFree x1 I1) as (S2 & W2 & O2).
  pose proof (tick_inv (QMemory MFree) x1 I I1) as I2. set (x2 := tick _ x1) in *.
  destruct (tick_memory MNodes x2 I2) as (S3 & W3 & O3).
  pose proof (tick_inv (QMemory MNodes) x2 I I2) as I3. set (x3 := tick _ x2) in *.
  assert (rt_state (fst x3) = rt_state (fst x)) as S4 by congruence. rewrite <- S4 in Hst.
  assert (total (memory (fst x3)) = 0%nat \/ (total (memory (fst x3)) < total (memory (fst x)))%nat) as Ht.
  { unfold total. rewrite W3, !O3, W2, !O2, W1, !O1 by done. lia. }
  assert (total (memory (fst x3)) <= total (memory (fst x)))%nat as Hle.
  { unfold total. rewrite W3, !O3, W2, !O2, W1, !O1 by done. lia. }
  clearbody x3. clear W1 O1 W2 O2 W3 O3 S1 S2 S3 I1 I2 HI. destruct x3 as [s h]. cbn [fst] in *.
  assert (tick QProcess (s, h) =
    match mq_process_requests s with Next s' => (s', h ++ taken s) | _ => (s, h) end) as ->.
  { unfold tick. cbn. destruct s. by destruct (mq_process_requests _). }
  unfold measure. destruct Ht as [Ht|Ht].
  - destruct (process_unblocked s h I3 Hst Ht) as (s' & Hs & Hne). rewrite Hs. cbn [fst].
    destruct (process_moves s s' Hst Hs) as [?|[?|(R1 & R2 & R3)]]; [by left | done|]. right. rewrite <- S4, R1, R2, R3. lia.
  - destruct (mq_process_requests s) as [| |s'] eqn:Hs; cbn [fst]; [right; rewrite S4; lia..|].
    destruct (process_moves s s' Hst Hs) as [?|[->|(R1 & R2 & R3)]]; [by left | right; rewrite S4; lia |].
    right. rewrite <- S4, R1, R2, R3. lia.
Qed.

Lemma sweeps_complete n x :
  MqInv x -> (measure x <= n)%nat ->
  exists k, (k <= n)%nat /\ rt_state (fst (Nat.iter k sweep x)) = STATE_MAIN.
Proof.
  revert x. induction n as [|n IH]; intros x HI Hn.
  all: destruct (decide (rt_state (fst x) = STATE_MAIN)) as [E|E].
  1, 3: exists 0%nat; split; [lia | done].
  - exfalso. unfold measure in Hn. destruct (rt_state (fst x)); cbn in Hn; try done; lia.
  - destruct (sweep_decreases x HI E) as [E'|Hlt]; [exists 1%nat; split; [lia | done]|].
    destruct (IH (sweep x)) as (k & Hk & Hm); [by repeat apply tick_inv | lia |].
    exists (S k). split; [lia|]. by rewrite Nat.iter_succ_r.
Qed.
End refinement.

(** ** Theorems *)

(** C29: The multi queue is a family of independent FIFO queues: in every
    interleaving of the four processes with pushes, pops and front requests on
    queues in range, the answers written so far are those of abstract queues
    that execute the accepted operations in their order, except for at most
    the last one, which is under way. *)
Theorem mq_refines {T : Type} (zero : T) (N SIZE : Z) ls (s : mq T) h :
  0 < SIZE < 2 ^ 16 -> Forall (in_range N) ls -> steps (mq_step zero N SIZE) ls (mq_init, []) = Next (s, h) ->
  exists fin pend q, h = fin ++ pend /\ aexec fin = (multiQueue_pop_rsp s, q) /\
    (if decide (rt_state s = STATE_MAIN) then pend = [] else length pend = 1%nat).
Proof.
  intros Hsz Hls Hs.
  assert (MqInv zero N SIZE (s, h)) as (fin & pend & own & q & pw & nw & hold & extra & Hh & Hq & HI & HP & _).
  { refine (steps_invariant _ (in_range N) _ _ ls _ _ Hls (MqInv_init _ _ _ _) Hs); [|done].
    intros l x x'. by apply MqInv_step. }
  exists fin, pend, q. split_and!; [done | done|]. clear HI Hs Hq.
  destruct HP as [Hst|i Hst|i M t Hst|Hst|Hst]; rewrite Hst; by case_decide.
Qed.

(** C39: An operation the multi queue has accepted is completed: from every
    reachable state the process is back in its main state after a bounded
    number of rounds in which each of the four processes gets one turn. *)
Theorem mq_completes {T : Type} (zero : T) (N SIZE : Z) ls (s : mq T) h :
  0 < SIZE < 2 ^ 16 -> Forall (in_range N) ls -> steps (mq_step zero N SIZE) ls (mq_init, []) = Next (s, h) ->
  exists n, (n <= 4 + total (memory s))%nat /\
    rt_state (fst (Nat.iter n (sweep zero N SIZE) (s, h))) = STATE_MAIN.
Proof.
  intros Hsz Hls Hs.
  assert (MqInv zero N SIZE (s, h)) as HI.
  { refine (steps_invariant _ (in_range N) _ _ ls _ _ Hls (MqInv_init _ _ _ _) Hs); [|done].
    intros l x x'. by apply MqInv_step. }
  destruct (sweeps_complete zero N SIZE Hsz (4 + total (memory s)) (s, h) HI) as (n & Hn & Hm).
  - unfold measure. cbn. destruct (rt_state s); cbn; lia.
  - eauto.
Qed.

(** Two pushes, a front request and two pops of one queue, a push to another. *)
Definition demo_requests : list (@mq_label Z) :=
  [QPush 1 7; QPush 1 8; QPush 0 9; QPop FRONT 1; QPop POP 1; QPop POP 1].
Definition demo_round : list (@mq_label Z) :=
  [QMemory MFree; QMemory MPointers; QMemory MNodes; QProcess].
Definition demo_run (rounds : nat) : list (@mq_label Z) := demo_requests ++ concat (replicate rounds demo_round).
Definition demo_end (rounds : nat) : step_result (mq Z * list (@aop Z)) :=
  steps (mq_step 0 2 4) (demo_run rounds) (mq_init, []).

Lemma demo_in_range (rounds : nat) : Forall (in_range 2) (demo_run rounds).
Proof.
  apply Forall_app_2; [repeat constructor; done|]. apply Forall_concat, Forall_replicate. repeat constructor.
Qed.

Lemma mq_refines_witness :
  exists s h, demo_end 20 = Next (s, h) /\ multiQueue_pop_rsp s = [7; 7; 8] /\
    exists fin pend q, h = fin ++ pend /\ aexec fin = (multiQueue_pop_rsp s, q) /\
      (if decide (rt_state s = STATE_MAIN) then pend = [] else length pend = 1%nat).
Proof.
  destruct (demo_end 20) as [| |[s h]] eqn:E; [exfalso; revert E; vm_compute; discriminate..|].
  exists s, h. split; [done|]. split; [revert E; vm_compute; by intros [= <- <-]|].
  refine (mq_refines 0 2 4 (demo_run 20) s h _ (demo_in_range 20) E). lia.
Defined.

Lemma mq_completes_witness :
  exists s h, demo_end 4 = Next (s, h) /\ rt_state s = STATE_PUSH_2 /\
    exists n, (n <= 4 + total (memory s))%nat /\ rt_state (fst (Nat.iter n (sweep 0 2 4) (s, h))) = STATE_MAIN.
Proof.
  destruct (demo_end 4) as [| |[s h]] eqn:E; [exfalso; revert E; vm_compute; discriminate..|].
  exists s, h. split; [done|]. split; [revert E; vm_compute; by intros [= <- <-]|].
  refine (mq_completes 0 2 4 (demo_run 4) s h _ (demo_in_range 4) E). lia.
Defined.
