(* ===== verification/Retransmitter.v ===== *)
(** The retransmitter of the RoCE transport
    ([ib_transport_protocol/retransmitter/retransmitter.hpp]): per queue pair
    the requests that have been sent and not acknowledged, oldest first, kept as
    linked nodes in one memory.  An acknowledgement removes the oldest entry, a
    response to a read request advances it, a negative acknowledgement or the
    timer sends entries again.  The three memory processes are those of
    LinkedQueues at this module's sizes. *)
From stdpp Require Import base numbers list gmap fin_maps strings.
From Stdlib Require Import ZArith Lia.
From S2P Require Import Prelude Axi IbTypes LinkedQueues.

Local Open Scope Z_scope.

Definition META_TABLE_SIZE : Z := 2000.

Inductive retransStateType : Type :=
| MAIN | INSERT_0 | INSERT_1 | UPDATE_0 | UPDATE_1 | RETRANS_0 | RETRANS_1 | RETRANS_2 | TIMER_RETRANS_0.

#[export] Instance retransStateType_eq_dec : EqDecision retransStateType.
Proof. solve_decision. Defined.

(** An unassigned table entry is zero. *)
Definition rp_zero : retransPayload := mk_rp 0 RC_SEND_FIRST 0 0 0 0 0.

(** The static variables and streams of [process_retransmissions]. *)
Record rtx : Type := mk_rtx {
  x_state : retransStateType;
  x_update : retransUpdate;
  x_curr : Z;
  x_newMetaIdx : Z;
  x_insert : retransEntry;
  x_retrans : retransmission;
  x_ptrMeta : mqPointerEntry;
  rx2retrans_upd : list retransUpdate;
  rx2retrans_req : list retransmission;
  timer2retrans_req : list retransmission;
  tx2retrans_insertRequest : list retransEntry;
  retrans2rx_init : list retransRdInit;
  retrans2event : list retransEvent;
  x_memory : lq retransPayload
}.

Definition rtx_init : rtx :=
  mk_rtx MAIN (mk_retransUpdate 0 0 RC_SEND_FIRST) 0 0 (mk_retransEntry 0 rp_zero) (mk_retransmission 0 0)
    (mk_mqPointer 0 0 false) [] [] [] [] [] [] lq_init.

Section process.
Context `{RoceConfig}.

Definition retrans_pointer_table : lq retransPayload -> step_result (lq retransPayload) := mq_pointer_table MAX_QPS.
Definition retrans_meta_table : lq retransPayload -> step_result (lq retransPayload) :=
  mq_meta_table rp_zero META_TABLE_SIZE.
Definition freelist_handler : lq retransPayload -> step_result (lq retransPayload) :=
  mq_freelist_handler META_TABLE_SIZE.

(** The entry of a read request after one more packet of the response. *)
Definition advance (e : retransPayload) : retransPayload :=
  mk_rp (u24 (rp_psn e + 1)) (rp_opCode e) (u64 (rp_localAddr e + PMTU)) (u64 (rp_remoteAddr e + PMTU))
    (u32 (rp_length e - PMTU)) (rp_lst e) (rp_offs e).

Definition retransEvent_of (qpn : Z) (e : retransPayload) : retransEvent := mk_retransEvent (u24 qpn) e.

Definition is_first_or_only (c : ibOpCode) : bool :=
  match c with RC_RDMA_READ_RESP_FIRST | RC_RDMA_READ_RESP_ONLY => true | _ => false end.
Definition is_first_or_middle (c : ibOpCode) : bool :=
  match c with RC_RDMA_READ_RESP_FIRST | RC_RDMA_READ_RESP_MIDDLE => true | _ => false end.

Definition rt_main (s : rtx) : step_result rtx :=
  let '(mk_rtx st upd curr idx ins ret pm uq rq tq iq ini evs m) := s in
  let full := s_full lq_depth (pointerReqFifo m) in
  match uq, rq, tq, iq, freeListFifo m with
  | u :: uq', _, _, _, _ =>
      if full then Blocked
      else Next (mk_rtx UPDATE_0 u curr idx ins ret pm uq' rq tq iq ini evs
             (push_pointerReq (mk_mqPointerReq (ru_qpn u) true) m))
  | [], r :: rq', _, _, _ =>
      if full then Blocked
      else Next (mk_rtx RETRANS_0 upd curr idx ins r pm uq rq' tq iq ini evs
             (push_pointerReq (mk_mqPointerReq (rm_qpn r) false) m))
  | [], [], r :: tq', _, _ =>
      if full then Blocked
      else Next (mk_rtx TIMER_RETRANS_0 upd curr idx ins r pm uq rq tq' iq ini evs
             (push_pointerReq (mk_mqPointerReq (rm_qpn r) false) m))
  | [], [], [], e :: iq', f :: _ =>
      if full then Blocked
      else Next (mk_rtx INSERT_0 upd curr f e ret pm uq rq tq iq' ini evs
             (push_pointerReq (mk_mqPointerReq (re_qpn e) true) (pop_freeList m)))
  | _, _, _, _, _ => Next s
  end.

Definition rt_insert_0 (s : rtx) : step_result rtx :=
  let '(mk_rtx st upd curr idx ins ret pm uq rq tq iq ini evs m) := s in
  match pointerRspFifo m with
  | e :: _ =>
      if mp_valid e then
        if s_full lq_depth (metaReqFifo m) then Blocked
        else Next (mk_rtx INSERT_1 upd curr idx ins ret (mk_mqPointer (mp_head e) idx true) uq rq tq iq ini evs
               (push_metaReq (MetaAppend (mp_tail e) idx) (pop_pointerRsp m)))
      else
        if s_full lq_depth (metaReqFifo m) || s_full lq_depth (pointerUpdFifo m) then Blocked
        else Next (mk_rtx MAIN upd curr idx ins ret (mk_mqPointer idx idx true) uq rq tq iq ini evs
               (push_pointerUpd (mk_mqPointerUpdate (re_qpn ins) (mk_mqPointer idx idx true))
                 (push_metaReq (MetaWrite idx (mqMetaEntry_new (re_payload ins))) (pop_pointerRsp m))))
  | [] => Next s
  end.

Definition rt_insert_1 (s : rtx) : step_result rtx :=
  let '(mk_rtx st upd curr idx ins ret pm uq rq tq iq ini evs m) := s in
  if s_full lq_depth (metaReqFifo m) || s_full lq_depth (pointerUpdFifo m) then Blocked
  else Next (mk_rtx MAIN upd curr idx ins ret pm uq rq tq iq ini evs
         (push_pointerUpd (mk_mqPointerUpdate (re_qpn ins) pm)
           (push_metaReq (MetaWrite idx (mqMetaEntry_new (re_payload ins))) m))).

Definition rt_update_0 (s : rtx) : step_result rtx :=
  let '(mk_rtx st upd curr idx ins ret pm uq rq tq iq ini evs m) := s in
  match pointerRspFifo m with
  | e :: _ =>
      if mp_valid e then
        if s_full lq_depth (metaReqFifo m) then Blocked
        else Next (mk_rtx UPDATE_1 upd (mp_head e) idx ins ret e uq rq tq iq ini evs
               (push_metaReq (MetaRead (mp_head e)) (pop_pointerRsp m)))
      else
        if s_full lq_depth (pointerUpdFifo m) then Blocked
        else Next (mk_rtx MAIN upd curr idx ins ret e uq rq tq iq ini evs
               (push_pointerUpd (mk_mqPointerUpdate (ru_qpn upd) e) (pop_pointerRsp m)))
  | [] => Next s
  end.

(** An invalid entry is read and the state kept. *)
Definition rt_update_1 (s : rtx) : step_result rtx :=
  let '(mk_rtx st upd curr idx ins ret pm uq rq tq iq ini evs m) := s in
  match metaRspFifo m with
  | e :: _ =>
      if negb (mm_valid e) then Next (mk_rtx UPDATE_1 upd curr idx ins ret pm uq rq tq iq ini evs (pop_metaRsp m))
      else
        let v := mm_value e in
        let ini' := if is_first_or_only (ru_op_code upd) then ini ++ [mk_retransRdInit (rp_localAddr v) (rp_lst v)]
                    else ini in
        if s_full lq_depth (pointerUpdFifo m) then Blocked
        else if is_first_or_middle (ru_op_code upd) then
          if s_full lq_depth (metaReqFifo m) then Blocked
          else Next (mk_rtx MAIN upd curr idx ins ret pm uq rq tq iq ini' evs
                 (push_pointerUpd (mk_mqPointerUpdate (ru_qpn upd) pm)
                   (push_metaReq (MetaWrite (mp_head pm)
                       (mk_mqMeta (advance v) (mm_next e) (mm_valid e) (mm_isTail e))) (pop_metaRsp m))))
        else
          let pm' := mk_mqPointer (mm_next e) (mp_tail pm) (negb (mm_isTail e)) in
          if s_full lq_depth (releaseFifo m) then Blocked
          else Next (mk_rtx MAIN upd (mm_next e) idx ins ret pm' uq rq tq iq ini' evs
                 (push_pointerUpd (mk_mqPointerUpdate (ru_qpn upd) pm')
                   (push_release curr (pop_metaRsp m))))
  | [] => Next s
  end.

Definition rt_retrans_0 (s : rtx) : step_result rtx :=
  let '(mk_rtx st upd curr idx ins ret pm uq rq tq iq ini evs m) := s in
  match pointerRspFifo m with
  | e :: _ =>
      if mp_valid e then
        if s_full lq_depth (metaReqFifo m) then Blocked
        else Next (mk_rtx RETRANS_1 upd (mp_head e) idx ins ret e uq rq tq iq ini evs
               (push_metaReq (MetaRead (mp_head e)) (pop_pointerRsp m)))
      else Next (mk_rtx MAIN upd curr idx ins ret e uq rq tq iq ini evs (pop_pointerRsp m))
  | [] => Next s
  end.

(** Whatever the entry, [rt_state] ends as [RETRANS_1] when it is not the one
    looked for, also when there is no next one. *)
Definition rt_retrans_1 (s : rtx) : step_result rtx :=
  let '(mk_rtx st upd curr idx ins ret pm uq rq tq iq ini evs m) := s in
  match metaRspFifo m with
  | e :: _ =>
      if negb (mm_valid e) then Next (mk_rtx MAIN upd curr idx ins ret pm uq rq tq iq ini evs (pop_metaRsp m))
      else if negb (mm_isTail e) && s_full lq_depth (metaReqFifo m) then Blocked
      else
        let m' := if mm_isTail e then pop_metaRsp m else push_metaReq (MetaRead (mm_next e)) (pop_metaRsp m) in
        if rp_psn (mm_value e) =? rm_psn ret then
          Next (mk_rtx (if mm_isTail e then MAIN else RETRANS_2) upd curr idx ins ret pm uq rq tq iq ini
                 (evs ++ [retransEvent_of (rm_qpn ret) (mm_value e)]) m')
        else Next (mk_rtx RETRANS_1 upd curr idx ins ret pm uq rq tq iq ini evs m')
  | [] => Next s
  end.

Definition rt_retrans_2 (s : rtx) : step_result rtx :=
  let '(mk_rtx st upd curr idx ins ret pm uq rq tq iq ini evs m) := s in
  match metaRspFifo m with
  | e :: _ =>
      if negb (mm_valid e) then Next (mk_rtx MAIN upd curr idx ins ret pm uq rq tq iq ini evs (pop_metaRsp m))
      else if negb (mm_isTail e) && s_full lq_depth (metaReqFifo m) then Blocked
      else
        Next (mk_rtx (if mm_isTail e then MAIN else RETRANS_2) upd curr idx ins ret pm uq rq tq iq ini
               (evs ++ [retransEvent_of (rm_qpn ret) (mm_value e)])
               (if mm_isTail e then pop_metaRsp m else push_metaReq (MetaRead (mm_next e)) (pop_metaRsp m)))
  | [] => Next s
  end.

Definition rt_timer_retrans_0 (s : rtx) : step_result rtx :=
  let '(mk_rtx st upd curr idx ins ret pm uq rq tq iq ini evs m) := s in
  match pointerRspFifo m with
  | e :: _ =>
      if mp_valid e then
        if s_full lq_depth (metaReqFifo m) then Blocked
        else Next (mk_rtx RETRANS_2 upd curr idx ins ret e uq rq tq iq ini evs
               (push_metaReq (MetaRead (mp_head e)) (pop_pointerRsp m)))
      else Next (mk_rtx MAIN upd curr idx ins ret e uq rq tq iq ini evs (pop_pointerRsp m))
  | [] => Next s
  end.

Definition process_retransmissions (s : rtx) : step_result rtx :=
  match x_state s with
  | MAIN => rt_main s
  | INSERT_0 => rt_insert_0 s
  | INSERT_1 => rt_insert_1 s
  | UPDATE_0 => rt_update_0 s
  | UPDATE_1 => rt_update_1 s
  | RETRANS_0 => rt_retrans_0 s
  | RETRANS_1 => rt_retrans_1 s
  | RETRANS_2 => rt_retrans_2 s
  | TIMER_RETRANS_0 => rt_timer_retrans_0 s
  end.

(** ** Runs

    The history records the operations in the order the process takes them. *)
Inductive rop : Type :=
| OUpdate (u : retransUpdate) | ORetrans (r : retransmission) | OTimer (r : retransmission) | OInsert (e : retransEntry).

Definition rt_taken (s : rtx) : list rop :=
  match x_state s, rx2retrans_upd s, rx2retrans_req s, timer2retrans_req s, tx2retrans_insertRequest s,
        freeListFifo (x_memory s) with
  | MAIN, u :: _, _, _, _, _ => [OUpdate u]
  | MAIN, [], r :: _, _, _, _ => [ORetrans r]
  | MAIN, [], [], r :: _, _, _ => [OTimer r]
  | MAIN, [], [], [], e :: _, _ :: _ => [OInsert e]
  | _, _, _, _, _, _ => []
  end.

Inductive rt_label : Type :=
| TProcess | TPointers | TNodes | TFree
| TRequest (o : rop).

Definition rt_request (o : rop) (s : rtx) : rtx :=
  let '(mk_rtx st upd curr idx ins ret pm uq rq tq iq ini evs m) := s in
  match o with
  | OUpdate u => mk_rtx st upd curr idx ins ret pm (uq ++ [u]) rq tq iq ini evs m
  | ORetrans r => mk_rtx st upd curr idx ins ret pm uq (rq ++ [r]) tq iq ini evs m
  | OTimer r => mk_rtx st upd curr idx ins ret pm uq rq (tq ++ [r]) iq ini evs m
  | OInsert e => mk_rtx st upd curr idx ins ret pm uq rq tq (iq ++ [e]) ini evs m
  end.

Definition set_memory (s : rtx) (m : lq retransPayload) : rtx :=
  let '(mk_rtx st upd curr idx ins ret pm uq rq tq iq ini evs _) := s in
  mk_rtx st upd curr idx ins ret pm uq rq tq iq ini evs m.

Definition retransmitter (l : rt_label) (x : rtx * list rop) : step_result (rtx * list rop) :=
  let '(s, h) := x in
  let lift (f : lq retransPayload -> step_result (lq retransPayload)) :=
    match f (x_memory s) with
    | Next m => Next (set_memory s m, h) | Blocked => Blocked | StepUndef e => StepUndef e
    end in
  match l with
  | TProcess =>
      match process_retransmissions s with
      | Next s' => Next (s', h ++ rt_taken s) | Blocked => Blocked | StepUndef e => StepUndef e
      end
  | TPointers => lift retrans_pointer_table
  | TNodes => lift retrans_meta_table
  | TFree => lift freelist_handler
  | TRequest o => Next (rt_request o s, h)
  end.

(** ** The abstract retransmission queues *)

(** The entries from the one with this packet number on. *)
Fixpoint from_psn (psn : Z) (l : list retransPayload) : list retransPayload :=
  match l with
  | [] => []
  | e :: l' => if rp_psn e =? psn then l else from_psn psn l'
  end.

Definition rop_qpn (o : rop) : Z :=
  match o with OUpdate u => ru_qpn u | ORetrans r | OTimer r => rm_qpn r | OInsert e => re_qpn e end.

(** What an operation sends again. *)
Definition resend (o : rop) (l : list retransPayload) : list retransEvent :=
  retransEvent_of (rop_qpn o) <$>
    match o with ORetrans r => from_psn (rm_psn r) l | OTimer _ => l | _ => [] end.

(** The addresses it hands to the receive side. *)
Definition hand_out (o : rop) (l : list retransPayload) : list retransRdInit :=
  match o, l with
  | OUpdate u, e :: _ =>
      if is_first_or_only (ru_op_code u) then [mk_retransRdInit (rp_localAddr e) (rp_lst e)] else []
  | _, _ => []
  end.

(** The outstanding requests of its queue pair afterwards. *)
Definition outstanding (o : rop) (l : list retransPayload) : list retransPayload :=
  match o, l with
  | OUpdate u, e :: l' => if is_first_or_middle (ru_op_code u) then advance e :: l' else l'
  | OInsert e, _ => l ++ [re_payload e]
  | _, _ => l
  end.

(** A request for a packet that is not outstanding while others are. *)
Definition astray (o : rop) (l : list retransPayload) : bool :=
  match o, l with
  | ORetrans r, _ :: _ => bool_decide (from_psn (rm_psn r) l = [])
  | _, _ => false
  end.

Record rt_spec : Type := mk_spec {
  sp_init : list retransRdInit; sp_events : list retransEvent; sp_queues : Z -> list retransPayload }.

Definition rt_abstract (x : option rt_spec) (o : rop) : option rt_spec :=
  match x with
  | Some (mk_spec ini evs q) =>
      let l := q (rop_qpn o) in
      if astray o l then None
      else Some (mk_spec (ini ++ hand_out o l) (evs ++ resend o l) (upd q (rop_qpn o) (outstanding o l)))
  | None => None
  end.

Definition rt_exec (l : list rop) : option rt_spec := foldl rt_abstract (Some (mk_spec [] [] (fun _ => []))) l.
End process.
