(* ===== verification/RetransmitterFacts.v ===== *)
(** The retransmitter (Retransmitter) keeps, per queue pair, the list of
    outstanding requests: the invariant that ties its linked nodes and the
    operation under way to the abstract lists, and the theorems that follow. *)
From stdpp Require Import base numbers list gmap fin_maps strings.
From Stdlib Require Import ZArith Lia.
From S2P Require Import Prelude Axi IbTypes LinkedQueues Retransmitter.

Local Open Scope Z_scope.

Section refinement.
Context `{RoceConfig}.

#[local] Arguments s_full {A} depth s : simpl never.
#[local] Arguments upd {A} f k x j : simpl never.

Definition in_table (k : Z) : Prop := 0 <= k < MAX_QPS.
Definition RMem : lq retransPayload -> option Z -> option Z -> option Z -> (Z -> list Z) -> list Z -> Prop :=
  Mem rp_zero MAX_QPS META_TABLE_SIZE.
Definition RReps : lq retransPayload -> (Z -> list Z) -> (Z -> list retransPayload) -> Prop := Reps rp_zero MAX_QPS.

Lemma size_ok : 0 < META_TABLE_SIZE < 2 ^ 16.
Proof. unfold META_TABLE_SIZE. lia. Qed.

(** How far a walk along the queue of [k] has come: at node [i], which holds
    the first of [v2]. *)
Definition walk (own : Z -> list Z) (q : Z -> list retransPayload) (k i : Z) (v2 : list retransPayload) : Prop :=
  exists n1 n2 v1, own k = n1 ++ i :: n2 /\ q k = v1 ++ v2 /\ length n1 = length v1.

(** The operation under way, what the process waits for, the queue it locks,
    the node it has taken, and what it has sent again so far ([part]). *)
Inductive Phase (s : rtx) (own : Z -> list Z) (q : Z -> list retransPayload) (part : list retransEvent) :
    list rop -> option Z -> option Z -> option Z -> list Z -> Prop :=
| RMain (Hst : x_state s = MAIN) (HR : RReps (x_memory s) own q) (Hp : part = []) :
    Phase s own q part [] None None None []
| RInsert0 (Hst : x_state s = INSERT_0) (Hk : in_table (re_qpn (x_insert s)))
    (HR : RReps (x_memory s) own q) (Hp : part = []) :
    Phase s own q part [OInsert (x_insert s)] (Some (re_qpn (x_insert s))) None (Some (re_qpn (x_insert s)))
      [x_newMetaIdx s]
| RInsert1 M t (Hst : x_state s = INSERT_1) (Hk : in_table (re_qpn (x_insert s)))
    (HR : Rep MAX_QPS (eff_ptr (x_memory s)) M own q) (Ht : last (own (re_qpn (x_insert s))) = Some t)
    (HM : forall j, eff_node rp_zero (x_memory s) j =
      if decide (t = j) then mk_mqMeta (mm_value (M t)) (x_newMetaIdx s) (mm_valid (M t)) false else M j)
    (Hpm : x_ptrMeta s = mk_mqPointer (mp_head (eff_ptr (x_memory s) (re_qpn (x_insert s)))) (x_newMetaIdx s) true)
    (Hp : part = []) :
    Phase s own q part [OInsert (x_insert s)] None None (Some (re_qpn (x_insert s))) [x_newMetaIdx s]
| RUpdate0 (Hst : x_state s = UPDATE_0) (Hk : in_table (ru_qpn (x_update s)))
    (HR : RReps (x_memory s) own q) (Hp : part = []) :
    Phase s own q part [OUpdate (x_update s)] (Some (ru_qpn (x_update s))) None (Some (ru_qpn (x_update s))) []
| RUpdate1 hd tl (Hst : x_state s = UPDATE_1) (Hk : in_table (ru_qpn (x_update s)))
    (HR : RReps (x_memory s) own q) (Hown : own (ru_qpn (x_update s)) = hd :: tl)
    (Hpm : x_ptrMeta s = eff_ptr (x_memory s) (ru_qpn (x_update s))) (Hc : x_curr s = hd) (Hp : part = []) :
    Phase s own q part [OUpdate (x_update s)] None (Some hd) (Some (ru_qpn (x_update s))) []
| RRetrans0 (Hst : x_state s = RETRANS_0) (Hk : in_table (rm_qpn (x_retrans s)))
    (HR : RReps (x_memory s) own q) (Hp : part = []) :
    Phase s own q part [ORetrans (x_retrans s)] (Some (rm_qpn (x_retrans s))) None None []
| RRetrans1 i v2 (Hst : x_state s = RETRANS_1) (Hk : in_table (rm_qpn (x_retrans s)))
    (HR : RReps (x_memory s) own q) (Hw : walk own q (rm_qpn (x_retrans s)) i v2)
    (Hf : from_psn (rm_psn (x_retrans s)) (q (rm_qpn (x_retrans s))) = from_psn (rm_psn (x_retrans s)) v2)
    (Hp : part = []) :
    Phase s own q part [ORetrans (x_retrans s)] None (Some i) None []
| RAstray (Hst : x_state s = RETRANS_1) (Hk : in_table (rm_qpn (x_retrans s))) (HR : RReps (x_memory s) own q)
    (Ha : astray (ORetrans (x_retrans s)) (q (rm_qpn (x_retrans s))) = true) (Hp : part = []) :
    Phase s own q part [ORetrans (x_retrans s)] None None None []
| RRetrans2 o i v2 (Hst : x_state s = RETRANS_2) (Hk : in_table (rm_qpn (x_retrans s)))
    (HR : RReps (x_memory s) own q) (Ho : o = ORetrans (x_retrans s) \/ o = OTimer (x_retrans s))
    (Hw : walk own q (rm_qpn (x_retrans s)) i v2)
    (Hp : part ++ (retransEvent_of (rm_qpn (x_retrans s)) <$> v2) = resend o (q (rm_qpn (x_retrans s)))) :
    Phase s own q part [o] None (Some i) None []
| RTimer0 (Hst : x_state s = TIMER_RETRANS_0) (Hk : in_table (rm_qpn (x_retrans s)))
    (HR : RReps (x_memory s) own q) (Hp : part = []) :
    Phase s own q part [OTimer (x_retrans s)] (Some (rm_qpn (x_retrans s))) None None [].

Definition queued (s : rtx) : Prop :=
  Forall (fun u => in_table (ru_qpn u)) (rx2retrans_upd s) /\
  Forall (fun r => in_table (rm_qpn r)) (rx2retrans_req s) /\
  Forall (fun r => in_table (rm_qpn r)) (timer2retrans_req s) /\
  Forall (fun e => in_table (re_qpn e)) (tx2retrans_insertRequest s).

Definition RtInv (x : rtx * list rop) : Prop :=
  let '(s, h) := x in
  exists fin pend own q evs part pw nw hold extra,
    h = fin ++ pend /\ rt_exec fin = Some (mk_spec (retrans2rx_init s) evs q) /\ retrans2event s = evs ++ part /\
    RMem (x_memory s) pw nw hold own extra /\ Phase s own q part pend pw nw hold extra /\ queued s.

Ltac views := intros; cbn [x_memory]; autorewrite with mq_views; done.

(** Applies a constructor of [Phase] to the state of the goal. *)
Ltac phase C :=
  lazymatch goal with |- Phase ?s ?own ?q ?part _ _ _ _ _ => eapply (C s own q part) end.

Lemma rt_phase_frame (s s' : rtx) own q part pend pw nw hold extra :
  x_state s' = x_state s -> x_update s' = x_update s -> x_curr s' = x_curr s ->
  x_newMetaIdx s' = x_newMetaIdx s -> x_insert s' = x_insert s -> x_retrans s' = x_retrans s ->
  x_ptrMeta s' = x_ptrMeta s ->
  (forall k, eff_ptr (x_memory s') k = eff_ptr (x_memory s) k) ->
  (forall i, eff_node rp_zero (x_memory s') i = eff_node rp_zero (x_memory s) i) ->
  Phase s own q part pend pw nw hold extra -> Phase s' own q part pend pw nw hold extra.
Proof.
  intros E1 E2 E3 E4 E5 E6 E7 EP EN HP.
  assert (HE : forall own q, RReps (x_memory s) own q -> RReps (x_memory s') own q) by (intros; by eapply Reps_ext).
  destruct HP; rewrite <- ?E1, <- ?E2, <- ?E3, <- ?E4, <- ?E5, <- ?E6, <- ?E7 in *.
  - by apply RMain; auto.
  - by apply RInsert0; auto.
  - apply (RInsert1 s' own q part M t); try done.
    + by eapply Rep_ext.
    + intros j. by rewrite EN.
    + by rewrite EP.
  - by apply RUpdate0; auto.
  - apply (RUpdate1 s' own q part hd tl); auto. by rewrite EP.
  - by apply RRetrans0; auto.
  - by apply (RRetrans1 s' own q part i v2); auto.
  - by apply RAstray; auto.
  - by apply (RRetrans2 s' own q part o i v2); auto.
  - by apply RTimer0; auto.
Qed.

Lemma rt_exec_snoc (l : list rop) o : rt_exec (l ++ [o]) = rt_abstract (rt_exec l) o.
Proof. unfold rt_exec. by rewrite foldl_app. Qed.

(** The abstract state after an operation that is not astray. *)
Lemma rt_exec_done (fin : list rop) o ini evs q :
  rt_exec fin = Some (mk_spec ini evs q) -> astray o (q (rop_qpn o)) = false ->
  rt_exec (fin ++ [o]) = Some (mk_spec (ini ++ hand_out o (q (rop_qpn o))) (evs ++ resend o (q (rop_qpn o)))
                                 (upd q (rop_qpn o) (outstanding o (q (rop_qpn o))))).
Proof. intros E Ha. rewrite rt_exec_snoc, E. cbn. by rewrite Ha. Qed.

Lemma RReps_same (m : lq retransPayload) own q k : RReps m own q -> RReps m own (upd q k (q k)).
Proof. apply Reps_queues. apply upd_id. Qed.

Lemma finish (s' : rtx) fin o ini evs q own' :
  rt_exec fin = Some (mk_spec ini evs q) -> astray o (q (rop_qpn o)) = false ->
  x_state s' = MAIN -> retrans2rx_init s' = ini ++ hand_out o (q (rop_qpn o)) ->
  retrans2event s' = evs ++ resend o (q (rop_qpn o)) ->
  RMem (x_memory s') None None None own' [] ->
  RReps (x_memory s') own' (upd q (rop_qpn o) (outstanding o (q (rop_qpn o)))) -> queued s' ->
  RtInv (s', fin ++ [o]).
Proof.
  intros Hq Ha Hst Hini Hev HI HR Hqd.
  exists (fin ++ [o]), [], own', (upd q (rop_qpn o) (outstanding o (q (rop_qpn o)))), (retrans2event s'), [],
    None, None, None, []. rewrite !app_nil_r.
  split_and!; [done | | done | done | by apply RMain | done].
  rewrite (rt_exec_done fin o ini evs q) by done. by rewrite Hini, Hev.
Qed.

(** Taking an operation. *)
Lemma rt_main_inv (s s' : rtx) h :
  x_state s = MAIN -> RtInv (s, h) -> rt_main s = Next s' -> RtInv (s', h ++ rt_taken s).
Proof.
  intros Hst (fin & pend & own & q & evs & part & pw & nw & hold & extra & Hh & Hq & Hev & HI & HP & Hu & Hr & Ht & Hi) Hs.
  destruct s as [st u curr idx ins ret pm uq rq tq iq ini ev m]. cbn in Hs, Hst, Hq, Hev, HI, Hu, Hr, Ht, Hi. subst st.
  inversion HP as [_ HR Hp| | | | | | | | |]; cbn in *; try done. subst part. rewrite !app_nil_r in Hev. subst. rewrite !app_nil_r.
  destruct uq as [|u' uq]; [destruct rq as [|r rq]; [destruct tq as [|r tq]; [destruct iq as [|e iq]|]|]|].
  - simplify_eq. rewrite app_nil_r. exists fin, [], own, q, evs, [], None, None, None, []. rewrite !app_nil_r. by split_and!.
  - destruct (freeListFifo m) as [|f fl] eqn:Hfl.
    { simplify_eq. rewrite app_nil_r. exists fin, [], own, q, evs, [], None, None, None, []. rewrite !app_nil_r.
      by split_and!. }
    destruct (s_full _ _); simplify_eq. apply Forall_cons in Hi as [Hk Hi].
    exists fin, [OInsert e], own, q, evs, [], (Some (re_qpn e)), None, (Some (re_qpn e)), [f]. rewrite app_nil_r.
    split_and!; try done.
    + apply (ask_pointer rp_zero MAX_QPS META_TABLE_SIZE _ _ _ _ true); [|done].
      by eapply (take_new rp_zero MAX_QPS META_TABLE_SIZE).
    + apply RInsert0; [done | done | | done]. by eapply Reps_ext; [..|exact HR]; views.
  - destruct (s_full _ _); simplify_eq. apply Forall_cons in Ht as [Hk Ht].
    exists fin, [OTimer r], own, q, evs, [], (Some (rm_qpn r)), None, None, []. rewrite app_nil_r. split_and!; try done.
    + by apply (ask_pointer rp_zero MAX_QPS META_TABLE_SIZE _ _ _ _ false).
    + apply RTimer0; [done | done | | done]. by eapply Reps_ext; [..|exact HR]; views.
  - destruct (s_full _ _); simplify_eq. apply Forall_cons in Hr as [Hk Hr].
    exists fin, [ORetrans r], own, q, evs, [], (Some (rm_qpn r)), None, None, []. rewrite app_nil_r. split_and!; try done.
    + by apply (ask_pointer rp_zero MAX_QPS META_TABLE_SIZE _ _ _ _ false).
    + apply RRetrans0; [done | done | | done]. by eapply Reps_ext; [..|exact HR]; views.
  - destruct (s_full _ _); simplify_eq. apply Forall_cons in Hu as [Hk Hu].
    exists fin, [OUpdate u'], own, q, evs, [], (Some (ru_qpn u')), None, (Some (ru_qpn u')), []. rewrite app_nil_r.
    split_and!; try done.
    + by apply (ask_pointer rp_zero MAX_QPS META_TABLE_SIZE _ _ _ _ true).
    + apply RUpdate0; [done | done | | done]. by eapply Reps_ext; [..|exact HR]; views.
Qed.

Lemma insert_0_inv (s s' : rtx) h :
  x_state s = INSERT_0 -> RtInv (s, h) -> rt_insert_0 s = Next s' -> RtInv (s', h).
Proof.
  intros Hst (fin & pend & own & q & evs & part & pw & nw & hold & extra & Hh & Hq & Hev & HI & HP & Hqd) Hs.
  destruct s as [st u curr idx ins ret pm uq rq tq iq ini ev m]. cbn in Hs, Hst, Hq, Hev, HI. subst st.
  inversion HP as [|_ Hk HR Hp| | | | | | | |]; cbn in *; try done. subst part. rewrite app_nil_r in Hev. subst.
  destruct (pointerRspFifo m) as [|e l] eqn:He.
  { simplify_eq. exists fin, [OInsert ins], own, q, evs, [], (Some (re_qpn ins)), None, (Some (re_qpn ins)), [idx].
    rewrite app_nil_r. by split_and!. }
  destruct (take_pointer _ _ _ _ _ _ _ _ _ _ HI He) as [-> HI1]. destruct (HR _ Hk) as [Hc Hpt].
  assert (RReps (pop_pointerRsp m) own q) as HR1 by (by eapply Reps_ext; [..|exact HR]; views).
  destruct (own (re_qpn ins)) as [|hd tl] eqn:Hown; cbn in Hpt.
  - rewrite Hpt in Hs. destruct (_ || _); simplify_eq.
    destruct (push_first _ _ _ size_ok _ own q _ idx (re_payload ins) Hk HI1 HR1 Hown) as (Eq & HI2 & HR2).
    eapply finish; try done; cbn; try by rewrite app_nil_r. by rewrite Eq.
  - destruct Hpt as (Hv & Hhd & Ht). rewrite Hv in Hs. destruct (s_full _ _); simplify_eq.
    exists fin, [OInsert ins], own, q, evs, [], None, None, (Some (re_qpn ins)), [idx]. rewrite app_nil_r.
    split_and!; try done.
    + apply (link_node _ _ _ size_ok _ _ _ _ (re_qpn ins)); [done | done | by rewrite Hown].
    + match goal with |- Phase ?s' _ _ _ _ _ _ _ _ =>
        apply (RInsert1 s' own q [] (eff_node rp_zero m) (mp_tail (eff_ptr m (re_qpn ins)))) end; cbn; try done;
        [|by rewrite Hown| |].
      * by eapply Rep_ext; [..|exact HR]; views.
      * intros j. rewrite eff_node_append. by autorewrite with mq_views.
      * by autorewrite with mq_views.
Qed.

Lemma insert_1_inv (s s' : rtx) h :
  x_state s = INSERT_1 -> RtInv (s, h) -> rt_insert_1 s = Next s' -> RtInv (s', h).
Proof.
  intros Hst (fin & pend & own & q & evs & part & pw & nw & hold & extra & Hh & Hq & Hev & HI & HP & Hqd) Hs.
  destruct s as [st u curr idx ins ret pm uq rq tq iq ini ev m]. cbn in Hs, Hst, Hq, Hev, HI. subst st.
  inversion HP as [| |M t _ Hk HR Ht HM Hpm Hp| | | | | | |]; cbn in *; try done. subst part. rewrite app_nil_r in Hev. subst.
  destruct (_ || _); simplify_eq.
  destruct (push_behind _ _ _ size_ok _ own q _ idx (re_payload ins) M t Hk HI HR Ht HM) as [HI2 HR2].
  by eapply finish; cbn; rewrite ?app_nil_r.
Qed.

Lemma update_0_inv (s s' : rtx) h :
  x_state s = UPDATE_0 -> RtInv (s, h) -> rt_update_0 s = Next s' -> RtInv (s', h).
Proof.
  intros Hst (fin & pend & own & q & evs & part & pw & nw & hold & extra & Hh & Hq & Hev & HI & HP & Hqd) Hs.
  destruct s as [st u curr idx ins ret pm uq rq tq iq ini ev m]. cbn in Hs, Hst, Hq, Hev, HI. subst st.
  inversion HP as [| | |_ Hk HR Hp| | | | | |]; cbn in *; try done. subst part. rewrite app_nil_r in Hev. subst.
  destruct (pointerRspFifo m) as [|e l] eqn:He.
  { simplify_eq. exists fin, [OUpdate u], own, q, evs, [], (Some (ru_qpn u)), None, (Some (ru_qpn u)), [].
    rewrite app_nil_r. by split_and!. }
  destruct (take_pointer _ _ _ _ _ _ _ _ _ _ HI He) as [-> HI1]. destruct (HR _ Hk) as [Hc Hpt].
  destruct (own (ru_qpn u)) as [|hd tl] eqn:Hown; cbn in Hpt.
  - rewrite Hpt in Hs. destruct (s_full _ _); simplify_eq. destruct (q (ru_qpn u)) as [|v vs] eqn:Eq; [|done].
    eapply finish; try done; cbn; rewrite ?Eq; cbn; rewrite ?app_nil_r; try done.
    + apply update_pointer with (hold := Some (ru_qpn u)); [done | done | by right].
    + rewrite <- Eq. apply RReps_same. eapply Reps_ext; [..|exact HR]; [|views].
      intros k. rewrite eff_ptr_update. autorewrite with mq_views. by destruct (decide _) as [->|].
  - destruct Hpt as (Hv & Hhd & Ht). rewrite Hv in Hs. destruct (s_full _ _); simplify_eq.
    exists fin, [OUpdate u], own, q, evs, [], None, (Some (mp_head (eff_ptr m (ru_qpn u)))), (Some (ru_qpn u)), [].
    rewrite app_nil_r. split_and!; try done.
    + apply ask_node; [done|]. eapply (own_range _ _ _ size_ok own m); [exact HI | exact Hk |]. rewrite Hown. left.
    + phase RUpdate1; cbn; try done.
      * by eapply Reps_ext; [..|exact HR]; views.
      * by autorewrite with mq_views.
Qed.

Lemma update_1_inv (s s' : rtx) h :
  x_state s = UPDATE_1 -> RtInv (s, h) -> rt_update_1 s = Next s' -> RtInv (s', h).
Proof.
  intros Hst (fin & pend & own & q & evs & part & pw & nw & hold & extra & Hh & Hq & Hev & HI & HP & Hqd) Hs.
  destruct s as [st u curr idx ins ret pm uq rq tq iq ini ev m]. cbn in Hs, Hst, Hq, Hev, HI. subst st.
  inversion HP as [| | | |hd tl _ Hk HR Hown Hpm Hcu Hp| | | | |]; cbn in *; try done.
  subst part. rewrite app_nil_r in Hev. subst.
  destruct (metaRspFifo m) as [|e l] eqn:He.
  { simplify_eq. exists fin, [OUpdate u], own, q, evs, [], None, (Some hd), (Some (ru_qpn u)), [].
    rewrite app_nil_r. by split_and!. }
  destruct (take_node _ _ _ _ _ _ _ _ _ _ HI He) as [-> HI1].
  assert (RReps (pop_metaRsp m) own q) as HR1 by (by eapply Reps_ext; [..|exact HR]; views).
  destruct (HR _ Hk) as [Hc Hpt]. rewrite Hown in Hc, Hpt. cbn in Hpt. destruct Hpt as (_ & Hhd & _).
  destruct (chain_head _ _ _ _ Hc) as (v & vs & Hqk & Hmv & Hval & _). rewrite Hmv, Hval in Hs. cbn in Hs.
  destruct (s_full _ _); [done|].
  assert (forall own' m' pm' curr', RMem m' None None None own' [] ->
    RReps m' own' (upd q (ru_qpn u) (outstanding (OUpdate u) (q (ru_qpn u)))) ->
    RtInv (mk_rtx MAIN u curr' idx ins ret pm' uq rq tq iq
      (if is_first_or_only (ru_op_code u) then ini ++ [mk_retransRdInit (rp_localAddr v) (rp_lst v)] else ini) evs m',
      fin ++ [OUpdate u])) as Hfin.
  { intros own' m' pm' curr' HI2 HR2. eapply finish; try done; cbn; rewrite ?app_nil_r; try done.
    rewrite Hqk. cbn. destruct (is_first_or_only _); [done | by rewrite app_nil_r]. }
  cbn [outstanding] in Hfin. rewrite Hqk in Hfin.
  destruct (is_first_or_middle (ru_op_code u)).
  - destruct (s_full _ _); simplify_eq.
    destruct (change_oldest _ _ _ size_ok _ (Some (ru_qpn u)) own q _ _ tl _ vs
      (advance (mm_value (eff_node rp_zero m (mp_head (eff_ptr m (ru_qpn u))))))
      Hk (or_intror eq_refl) HI1 HR1 Hown Hqk) as [HI2 HR2].
    rewrite eff_node_pop_metaRsp, eff_ptr_pop_metaRsp, Hmv in HI2, HR2. by eapply Hfin.
  - destruct (s_full _ _); simplify_eq.
    destruct (pop_oldest _ _ _ _ (Some (ru_qpn u)) own q _ _ tl Hk (or_intror eq_refl) HI1 HR1 Hown)
      as (v' & vs' & Hqk' & _ & HI2 & HR2).
    rewrite Hqk in Hqk'. simplify_eq. rewrite eff_node_pop_metaRsp, eff_ptr_pop_metaRsp in HI2, HR2. by eapply Hfin.
Qed.

(** A request for what is not there is done at once. *)
Lemma resend_nothing (m : lq retransPayload) own q k o : RReps m own q ->
  own k = [] -> in_table k -> rop_qpn o = k -> (exists r, o = ORetrans r) \/ (exists r, o = OTimer r) ->
  q k = [] /\ astray o (q k) = false /\ resend o (q k) = [] /\ hand_out o (q k) = [] /\ outstanding o (q k) = q k.
Proof.
  intros HR Hown Hk Ho Hor. destruct (HR k Hk) as [Hc _]. rewrite Hown in Hc. destruct (q k) as [|v vs]; [|done].
  destruct Hor as [[r ->]|[r ->]]; done.
Qed.

(** Waiting for the head pointer, in the states [RETRANS_0] and [TIMER_RETRANS_0]. *)
Lemma walk_head (m : lq retransPayload) own q k : RReps m own q -> in_table k -> own k <> [] ->
  walk own q k (mp_head (eff_ptr m k)) (q k) /\ 0 <= k < MAX_QPS /\ mp_head (eff_ptr m k) ∈ own k.
Proof.
  intros HR Hk Hown. destruct (HR k Hk) as [_ Hpt]. destruct (own k) as [|hd tl] eqn:Eo; [done|].
  destruct Hpt as (_ & Hhd & _). rewrite Hhd. split; [|split; [done | left]].
  by exists [], tl, [].
Qed.

Lemma retrans_0_inv (s s' : rtx) h :
  x_state s = RETRANS_0 -> RtInv (s, h) -> rt_retrans_0 s = Next s' -> RtInv (s', h).
Proof.
  intros Hst (fin & pend & own & q & evs & part & pw & nw & hold & extra & Hh & Hq & Hev & HI & HP & Hqd) Hs.
  destruct s as [st u curr idx ins ret pm uq rq tq iq ini ev m]. cbn in Hs, Hst, Hq, Hev, HI. subst st.
  inversion HP as [| | | | |_ Hk HR Hp| | | |]; cbn in *; try done. subst part. rewrite app_nil_r in Hev. subst.
  destruct (pointerRspFifo m) as [|e l] eqn:He.
  { simplify_eq. exists fin, [ORetrans ret], own, q, evs, [], (Some (rm_qpn ret)), None, None, [].
    rewrite app_nil_r. by split_and!. }
  destruct (take_pointer _ _ _ _ _ _ _ _ _ _ HI He) as [-> HI1].
  assert (RReps (pop_pointerRsp m) own q) as HR1 by (by eapply Reps_ext; [..|exact HR]; views).
  destruct (decide (own (rm_qpn ret) = [])) as [Hown|Hown].
  - destruct (HR _ Hk) as [_ Hpt]. rewrite Hown in Hpt. cbn in Hpt. rewrite Hpt in Hs. simplify_eq.
    destruct (resend_nothing m own q (rm_qpn ret) (ORetrans ret) HR Hown Hk eq_refl ltac:(eauto)) as (Eq & E1 & E2 & E3 & E4).
    eapply finish; try done; cbn [retrans2rx_init retrans2event rop_qpn]; rewrite ?E2, ?E3, ?E4, ?app_nil_r; try done.
    by apply RReps_same.
  - destruct (walk_head m own q _ HR Hk Hown) as (Hw & _ & Hin).
    assert (mp_valid (eff_ptr m (rm_qpn ret)) = true) as Hv.
    { destruct (HR _ Hk) as [_ Hpt]. destruct (own (rm_qpn ret)); [done|]. by destruct Hpt. }
    rewrite Hv in Hs. destruct (s_full _ _); simplify_eq.
    exists fin, [ORetrans ret], own, q, evs, [], None, (Some (mp_head (eff_ptr m (rm_qpn ret)))), None, [].
    rewrite app_nil_r. split_and!; try done.
    + apply ask_node; [done|]. by eapply (own_range _ _ _ size_ok own m); [exact HI | exact Hk |].
    + phase RRetrans1; cbn; try done.
      by eapply Reps_ext; [..|exact HR]; views.
Qed.

Lemma timer_0_inv (s s' : rtx) h :
  x_state s = TIMER_RETRANS_0 -> RtInv (s, h) -> rt_timer_retrans_0 s = Next s' -> RtInv (s', h).
Proof.
  intros Hst (fin & pend & own & q & evs & part & pw & nw & hold & extra & Hh & Hq & Hev & HI & HP & Hqd) Hs.
  destruct s as [st u curr idx ins ret pm uq rq tq iq ini ev m]. cbn in Hs, Hst, Hq, Hev, HI. subst st.
  inversion HP as [| | | | | | | | |_ Hk HR Hp]; cbn in *; try done. subst part. rewrite app_nil_r in Hev. subst.
  destruct (pointerRspFifo m) as [|e l] eqn:He.
  { simplify_eq. exists fin, [OTimer ret], own, q, evs, [], (Some (rm_qpn ret)), None, None, [].
    rewrite app_nil_r. by split_and!. }
  destruct (take_pointer _ _ _ _ _ _ _ _ _ _ HI He) as [-> HI1].
  assert (RReps (pop_pointerRsp m) own q) as HR1 by (by eapply Reps_ext; [..|exact HR]; views).
  destruct (decide (own (rm_qpn ret) = [])) as [Hown|Hown].
  - destruct (HR _ Hk) as [_ Hpt]. rewrite Hown in Hpt. cbn in Hpt. rewrite Hpt in Hs. simplify_eq.
    destruct (resend_nothing m own q (rm_qpn ret) (OTimer ret) HR Hown Hk eq_refl ltac:(eauto)) as (Eq & E1 & E2 & E3 & E4).
    eapply finish; try done; cbn [retrans2rx_init retrans2event rop_qpn]; rewrite ?E2, ?E3, ?E4, ?app_nil_r; try done.
    by apply RReps_same.
  - destruct (walk_head m own q _ HR Hk Hown) as (Hw & _ & Hin).
    assert (mp_valid (eff_ptr m (rm_qpn ret)) = true) as Hv.
    { destruct (HR _ Hk) as [_ Hpt]. destruct (own (rm_qpn ret)); [done|]. by destruct Hpt. }
    rewrite Hv in Hs. destruct (s_full _ _); simplify_eq.
    exists fin, [OTimer ret], own, q, evs, [], None, (Some (mp_head (eff_ptr m (rm_qpn ret)))), None, [].
    rewrite app_nil_r. split_and!; try done.
    + apply ask_node; [done|]. by eapply (own_range _ _ _ size_ok own m); [exact HI | exact Hk |].
    + phase RRetrans2; cbn; try done; [|by right].
      by eapply Reps_ext; [..|exact HR]; views.
Qed.

(** The node of a walk, and the next one. *)
Lemma walk_node (m : lq retransPayload) own q k i v2 :
  RReps m own q -> in_table k -> walk own q k i v2 ->
  exists v vs, v2 = v :: vs /\ mm_valid (eff_node rp_zero m i) = true /\ mm_value (eff_node rp_zero m i) = v /\
    mm_isTail (eff_node rp_zero m i) = bool_decide (vs = []) /\
    (vs <> [] -> walk own q k (mm_next (eff_node rp_zero m i)) vs /\ mm_next (eff_node rp_zero m i) ∈ own k).
Proof.
  intros HR Hk (n1 & n2 & v1 & Hown & Hq & Hl). destruct (HR k Hk) as [Hc _]. rewrite Hown, Hq in Hc.
  destruct (chain_at _ _ _ _ _ _ Hc Hl) as (v & vs & -> & H1 & H2 & H3 & H4 & H5).
  exists v, vs. split_and!; try done.
  - rewrite H3. destruct n2, vs; cbn in H5; try done.
  - intros Hvs. destruct n2 as [|j n2]; [by destruct vs|]. rewrite (H4 j n2 eq_refl). split.
    + exists (n1 ++ [i]), n2, (v1 ++ [v]). rewrite <- !app_assoc. split_and!; try done. rewrite !length_app. cbn. lia.
    + rewrite Hown. apply elem_of_app. right. right. left.
Qed.

Lemma retrans_1_inv (s s' : rtx) h :
  x_state s = RETRANS_1 -> RtInv (s, h) -> rt_retrans_1 s = Next s' -> RtInv (s', h).
Proof.
  intros Hst (fin & pend & own & q & evs & part & pw & nw & hold & extra & Hh & Hq & Hev & HI & HP & Hqd) Hs.
  destruct s as [st u curr idx ins ret pm uq rq tq iq ini ev m]. cbn in Hs, Hst, Hq, Hev, HI. subst st.
  inversion HP as [| | | | | |i v2 _ Hk HR Hw Hf Hp|_ Hk HR Ha Hp| |]; cbn in *; try done;
    subst part; rewrite app_nil_r in Hev; subst.
  2: { pose proof (mi_node _ _ _ _ _ _ _ _ HI) as Hn. inversion Hn as [_ Hrsp| |]. rewrite Hrsp in Hs. simplify_eq.
       exists fin, [ORetrans ret], own, q, evs, [], None, None, None, []. rewrite app_nil_r. by split_and!. }
  destruct (metaRspFifo m) as [|e l] eqn:He.
  { simplify_eq. exists fin, [ORetrans ret], own, q, evs, [], None, (Some i), None, []. rewrite app_nil_r. by split_and!. }
  destruct (take_node _ _ _ _ _ _ _ _ _ _ HI He) as [-> HI1].
  assert (RReps (pop_metaRsp m) own q) as HR1 by (by eapply Reps_ext; [..|exact HR]; views).
  destruct (walk_node m own q _ i v2 HR Hk Hw) as (v & vs & -> & Hmv & Hval & Htl & Hnx).
  rewrite Hmv, Hval, Htl in Hs. cbn [negb from_psn] in Hs, Hf. destruct (_ && _) eqn:Hfull; [done|].
  destruct (bool_decide_reflect (vs = [])) as [Evs|Hvs]; [rewrite Evs in *; clear Evs|].
  - destruct (rp_psn v =? rm_psn ret) eqn:Ep; simplify_eq.
    + eapply finish; try done; cbn; rewrite ?app_nil_r; try done.
      * destruct (q (rm_qpn ret)); [done|]. apply bool_decide_eq_false_2. by rewrite Hf.
      * by rewrite Hf.
      * by apply RReps_same.
    + exists fin, [ORetrans ret], own, q, evs, [], None, None, None, []. rewrite app_nil_r. split_and!; try done.
      apply RAstray; try done. cbn. destruct Hw as (n1 & n2 & v1 & _ & Hqk & _).
      destruct (q (rm_qpn ret)); [by destruct v1|]. apply bool_decide_eq_true_2. by rewrite Hf.
  - destruct (Hnx Hvs) as [Hw' Hin].
    assert (RMem (push_metaReq (MetaRead (mm_next (eff_node rp_zero m i))) (pop_metaRsp m)) None
      (Some (mm_next (eff_node rp_zero m i))) None own []) as HI2.
    { apply ask_node; [done|]. by eapply (own_range _ _ _ size_ok own m); [exact HI | exact Hk |]. }
    assert (RReps (push_metaReq (MetaRead (mm_next (eff_node rp_zero m i))) (pop_metaRsp m)) own q) as HR2
      by (by eapply Reps_ext; [..|exact HR1]; views).
    destruct (rp_psn v =? rm_psn ret) eqn:Ep; simplify_eq.
    + eexists fin, [ORetrans ret], own, q, evs, _, None, _, None, []. split_and!; try done.
      phase RRetrans2; try done; [by left|]. cbn. by rewrite Hf.
    + eexists fin, [ORetrans ret], own, q, evs, [], None, _, None, []. rewrite app_nil_r. split_and!; try done.
      by phase RRetrans1.
Qed.

Lemma retrans_2_inv (s s' : rtx) h :
  x_state s = RETRANS_2 -> RtInv (s, h) -> rt_retrans_2 s = Next s' -> RtInv (s', h).
Proof.
  intros Hst (fin & pend & own & q & evs & part & pw & nw & hold & extra & Hh & Hq & Hev & HI & HP & Hqd) Hs.
  destruct s as [st u curr idx ins ret pm uq rq tq iq ini ev m]. cbn in Hs, Hst, Hq, Hev, HI. subst st.
  inversion HP as [| | | | | | | |o i v2 _ Hk HR Ho Hw Hp|]; cbn in *; try done; subst.
  destruct (metaRspFifo m) as [|e l] eqn:He.
  { simplify_eq. exists fin, [o], own, q, evs, part, None, (Some i), None, []. by split_and!. }
  destruct (take_node _ _ _ _ _ _ _ _ _ _ HI He) as [-> HI1].
  assert (RReps (pop_metaRsp m) own q) as HR1 by (by eapply Reps_ext; [..|exact HR]; views).
  destruct (walk_node m own q _ i v2 HR Hk Hw) as (v & vs & -> & Hmv & Hval & Htl & Hnx).
  rewrite Hmv, Hval, Htl in Hs. cbn [negb] in Hs. destruct (_ && _) eqn:Hfull; [done|]. simplify_eq.
  assert (rop_qpn o = rm_qpn ret) as Eo by (by destruct Ho as [->| ->]).
  destruct (bool_decide_reflect (vs = [])) as [Evs|Hvs]; [rewrite Evs in *; clear Evs|].
  - eapply finish; try done; rewrite ?Eo.
    + destruct Ho as [->| ->]; [|done]. cbn. destruct (q (rm_qpn ret)) as [|v0 l0] eqn:Eq; [done|].
      apply bool_decide_eq_false_2. intros E. unfold resend in Hp. rewrite E in Hp. by destruct part.
    + cbn. destruct Ho as [->| ->]; cbn; by rewrite app_nil_r.
    + cbn. by rewrite <- Hp, app_assoc.
    + assert (outstanding o (q (rm_qpn ret)) = q (rm_qpn ret)) as -> by (by destruct Ho as [->| ->]).
      by apply RReps_same.
  - destruct (Hnx Hvs) as [Hw' Hin].
    eexists fin, [o], own, q, evs, (part ++ [_]), None, _, None, []. split_and!; [done | done | | | | done].
    + cbn. by rewrite app_assoc.
    + apply ask_node; [done|]. by eapply (own_range _ _ _ size_ok own m); [exact HI | exact Hk |].
    + phase RRetrans2; try done.
      * by eapply Reps_ext; [..|exact HR1]; views.
      * cbn. rewrite <- app_assoc. exact Hp.
Qed.

(** ** Steps *)

Definition ok_request (l : rt_label) : Prop := match l with TRequest o => in_table (rop_qpn o) | _ => True end.

Lemma memory_inv (s : rtx) (ml : mem_label) m' h :
  RtInv (s, h) -> mem_step rp_zero MAX_QPS META_TABLE_SIZE ml (x_memory s) = Next m' -> RtInv (set_memory s m', h).
Proof.
  intros (fin & pend & own & q & evs & part & pw & nw & hold & extra & Hh & Hq & Hev & HI & HP & Hqd) Hs.
  destruct (mem_inv _ _ _ size_ok _ _ _ _ _ _ _ HI Hs) as (HI' & EP & EN).
  exists fin, pend, own, q, evs, part, pw, nw, hold, extra. destruct s. split_and!; try done.
  by refine (rt_phase_frame _ _ _ _ _ _ _ _ _ _ _ _ _ _ _ _ _ _ _ HP).
Qed.

Lemma request_inv (s : rtx) o h : in_table (rop_qpn o) -> RtInv (s, h) -> RtInv (rt_request o s, h).
Proof.
  intros Ho (fin & pend & own & q & evs & part & pw & nw & hold & extra & Hh & Hq & Hev & HI & HP & Hu & Hr & Ht & Hi).
  exists fin, pend, own, q, evs, part, pw, nw, hold, extra. destruct s. cbn in Hu, Hr, Ht, Hi.
  split; [done|]. split; [by destruct o|]. split; [by destruct o|]. split; [by destruct o|]. split.
  - by refine (rt_phase_frame _ _ _ _ _ _ _ _ _ _ _ _ _ _ _ _ _ _ _ HP); destruct o.
  - destruct o; split_and!; try done; apply Forall_app_2; try done; by apply Forall_singleton.
Qed.

Lemma process_inv (s s' : rtx) h :
  RtInv (s, h) -> process_retransmissions s = Next s' -> RtInv (s', h ++ rt_taken s).
Proof.
  intros HI Hs. unfold process_retransmissions in Hs.
  destruct (x_state s) eqn:Hst; [by apply rt_main_inv|..];
    (assert (rt_taken s = []) as -> by (unfold rt_taken; by rewrite Hst)); rewrite app_nil_r.
  - by eapply insert_0_inv.
  - by eapply insert_1_inv.
  - by eapply update_0_inv.
  - by eapply update_1_inv.
  - by eapply retrans_0_inv.
  - by eapply retrans_1_inv.
  - by eapply retrans_2_inv.
  - by eapply timer_0_inv.
Qed.

Lemma rt_inv_step l x x' : ok_request l -> RtInv x -> retransmitter l x = Next x' -> RtInv x'.
Proof.
  intros Hl HI Hs. destruct x as [s h]. destruct l as [| | | |o]; cbn in Hs.
  - destruct (process_retransmissions s) eqn:E; simplify_eq. by eapply process_inv.
  - destruct (retrans_pointer_table _) eqn:E; simplify_eq. by apply (memory_inv s MPointers).
  - destruct (retrans_meta_table _) eqn:E; simplify_eq. by apply (memory_inv s MNodes).
  - destruct (freelist_handler _) eqn:E; simplify_eq. by apply (memory_inv s MFree).
  - simplify_eq. by apply request_inv.
Qed.

Lemma RtInv_init : RtInv (rtx_init, []).
Proof.
  exists [], [], (fun _ => []), (fun _ => []), [], [], None, None, None, []. split_and!; try done.
  - apply Mem_init, size_ok.
  - apply RMain; [done | apply Reps_init | done].
Qed.

Lemma RtInv_run ls s h : Forall ok_request ls -> steps retransmitter ls (rtx_init, []) = Next (s, h) -> RtInv (s, h).
Proof.
  intros Hls Hs. refine (steps_invariant _ ok_request _ _ ls _ _ Hls RtInv_init Hs).
  intros l x x'. by apply rt_inv_step.
Qed.
End refinement.

(** ** Theorems *)

(** C28: The retransmitter keeps, per queue pair, the list of outstanding requests:
    in every interleaving of its four processes with requests of the other
    modules, what it has handed out and sent again is what abstract lists
    answer to the accepted operations in their order - an acknowledgement
    removes the oldest entry, a part of a read response advances it, a timeout
    sends all entries again and a negative acknowledgement those from its
    packet number on - except that the last operation may be under way and
    have sent a prefix of its entries. *)
Theorem rt_refines `{RoceConfig} ls (s : rtx) h :
  Forall ok_request ls -> steps retransmitter ls (rtx_init, []) = Next (s, h) ->
  exists fin pend evs part q, h = fin ++ pend /\
    rt_exec fin = Some (mk_spec (retrans2rx_init s) evs q) /\ retrans2event s = evs ++ part /\
    match pend with
    | [] => x_state s = MAIN /\ part = []
    | [o] => x_state s <> MAIN /\ part `prefix_of` resend o (q (rop_qpn o))
    | _ => False
    end.
Proof.
  intros Hls Hs. destruct (RtInv_run ls s h Hls Hs)
    as (fin & pend & own & q & evs & part & pw & nw & hold & extra & Hh & Hq & Hev & _ & HP & _).
  exists fin, pend, evs, part, q. split_and!; [done | done | done |].
  destruct HP as [Hst _ Hp|Hst _ _ Hp|M t Hst _ _ _ _ _ Hp|Hst _ _ Hp|hd tl Hst _ _ _ _ _ Hp|Hst _ _ Hp
    |i v2 Hst _ _ _ _ Hp|Hst _ _ _ Hp|o i v2 Hst _ _ Ho _ Hp|Hst _ _ Hp]; rewrite Hst;
    (split; [done|]); try (rewrite Hp; done || apply prefix_nil).
  assert (rop_qpn o = rm_qpn (x_retrans s)) as -> by (by destruct Ho as [->| ->]). rewrite <- Hp. by eexists.
Qed.

(** A negative acknowledgement for a packet that is not outstanding, while
    others of its queue pair are, stops the retransmitter for good: no
    operation is ever accepted after it, on any queue pair, whatever the
    processes and the other modules do. *)
Theorem retransmitter_stuck `{RoceConfig} ls (s : rtx) fin r rest ini evs q :
  Forall ok_request ls -> steps retransmitter ls (rtx_init, []) = Next (s, fin ++ ORetrans r :: rest) ->
  rt_exec fin = Some (mk_spec ini evs q) -> q (rm_qpn r) <> [] -> from_psn (rm_psn r) (q (rm_qpn r)) = [] ->
  rest = [] /\ x_state s <> MAIN /\ retrans2event s = evs.
Proof.
  intros Hls Hs Hq Hne Hf.
  assert (rt_exec (fin ++ [ORetrans r]) = None) as Hnone.
  { rewrite rt_exec_snoc, Hq. cbn. destruct (q (rm_qpn r)) as [|v l] eqn:E; [done|]. by rewrite bool_decide_eq_true_2. }
  assert (forall l, rt_exec (fin ++ ORetrans r :: l) = None) as Hall.
  { intros l. change (ORetrans r :: l) with ([ORetrans r] ++ l). rewrite app_assoc. unfold rt_exec in *.
    rewrite foldl_app, Hnone. clear. by induction l. }
  destruct (RtInv_run ls s _ Hls Hs)
    as (fin' & pend & own & q' & evs' & part & pw & nw & hold & extra & Hh & Hq' & Hev & _ & HP & _).
  destruct pend as [|o pend].
  - rewrite app_nil_r in Hh. rewrite <- Hh, Hall in Hq'. done.
  - assert (pend = []) as -> by (by inversion HP).
    destruct rest as [|o' rest' _] using rev_ind.
    + apply app_inj_tail in Hh as [-> <-]. rewrite Hq' in Hq. simplify_eq. split; [done|].
      assert (x_state s <> MAIN /\ part = []) as [Hst ->]; [|by rewrite app_nil_r in Hev].
      inversion HP as [| | | | |Hst _ _ Hp|i v2 Hst _ _ _ _ Hp|Hst _ _ _ Hp|o i v2 Hst _ _ Ho _ Hp|];
        rewrite Hst; (split; [done|]); try done.
      destruct Ho as [Ho|Ho]; [|done]. injection Ho as Hr. unfold resend in Hp. cbn in Hp. rewrite <- Hr, Hf in Hp.
      by apply app_eq_nil in Hp as [-> _].
    + change (ORetrans r :: rest' ++ [o']) with ((ORetrans r :: rest') ++ [o']) in Hh.
      rewrite app_assoc in Hh. apply app_inj_tail in Hh as [Hh _]. by rewrite <- Hh, Hall in Hq'.
Qed.

(** Two writes are sent, the first is acknowledged, the timer expires. *)
Definition demo_entry (psn : Z) : retransEntry :=
  mk_retransEntry 1 (mk_rp psn RC_RDMA_WRITE_ONLY (4096 * psn) (8192 * psn) 64 1 0).
Definition demo_requests (last : rop) : list rt_label :=
  [TRequest (OInsert (demo_entry 5)); TRequest (OInsert (demo_entry 6))] ++
  concat (replicate 5 [TFree; TPointers; TNodes; TProcess]) ++
  [TRequest (OUpdate (mk_retransUpdate 1 5 RC_ACK))] ++
  concat (replicate 5 [TFree; TPointers; TNodes; TProcess]) ++
  [TRequest last; TRequest (OInsert (demo_entry 7))] ++
  concat (replicate 10 [TFree; TPointers; TNodes; TProcess]).

Lemma demo_ok last : 0 <= rop_qpn last < 4 -> Forall (@ok_request small_roce) (demo_requests last).
Proof.
  intros Hl. unfold demo_requests. repeat apply Forall_app_2.
  all: try (apply Forall_concat, Forall_replicate; repeat constructor).
  all: repeat constructor; unfold in_table; cbn; lia.
Qed.

Definition demo_end (last : rop) : step_result (rtx * list rop) :=
  steps (@retransmitter small_roce) (demo_requests last) (rtx_init, []).

Lemma rt_refines_witness :
  exists s h, demo_end (OTimer (mk_retransmission 1 0)) = Next (s, h) /\
    (rp_psn ∘ rv_payload) <$> retrans2event s = [6] /\ length h = 5%nat /\
    exists fin pend evs part q, h = fin ++ pend /\
      rt_exec (H := small_roce) fin = Some (mk_spec (retrans2rx_init s) evs q) /\ retrans2event s = evs ++ part /\
      match pend with
      | [] => x_state s = MAIN /\ part = []
      | [o] => x_state s <> MAIN /\ part `prefix_of` resend o (q (rop_qpn o))
      | _ => False
      end.
Proof.
  assert (0 <= rop_qpn (OTimer (mk_retransmission 1 0)) < 4) as Hr by (cbn; lia).
  destruct (demo_end (OTimer (mk_retransmission 1 0))) as [| |[s h]] eqn:E;
    [exfalso; revert E; vm_compute; discriminate..|].
  exists s, h. split; [done|]. split; [revert E; vm_compute; by intros [= <- <-]|].
  split; [revert E; vm_compute; by intros [= <- <-]|].
  exact (@rt_refines small_roce (demo_requests (OTimer (mk_retransmission 1 0))) s h
    (demo_ok (OTimer (mk_retransmission 1 0)) Hr) E).
Defined.

Definition demo_before : list rop :=
  [OInsert (demo_entry 5); OInsert (demo_entry 6); OUpdate (mk_retransUpdate 1 5 RC_ACK)].

Lemma retransmitter_stuck_witness :
  exists s rest, demo_end (ORetrans (mk_retransmission 1 9)) =
      Next (s, demo_before ++ ORetrans (mk_retransmission 1 9) :: rest) /\
    rest = [] /\ x_state s <> MAIN /\ retrans2event s = [].
Proof.
  assert (0 <= rop_qpn (ORetrans (mk_retransmission 1 9)) < 4) as Hr by (cbn; lia).
  destruct (demo_end (ORetrans (mk_retransmission 1 9))) as [| |[s h]] eqn:E;
    [exfalso; revert E; vm_compute; discriminate..|].
  assert (h = demo_before ++ [ORetrans (mk_retransmission 1 9)]) as ->
    by (revert E; vm_compute; by intros [= <- <-]).
  exists s, []. split; [done|].
  pose (q := sp_queues (default (mk_spec [] [] (fun _ => [])) (@rt_exec small_roce demo_before))).
  assert (@rt_exec small_roce demo_before = Some (mk_spec [] [] q)) as Hx by reflexivity.
  assert (q 1 <> []) as Hne by (vm_compute; discriminate).
  assert (from_psn 9 (q 1) = []) as Hf by (vm_compute; reflexivity).
  clearbody q. unfold demo_end in E.
  exact (@retransmitter_stuck small_roce (demo_requests (ORetrans (mk_retransmission 1 9))) s demo_before
    (mk_retransmission 1 9) [] [] [] q (demo_ok (ORetrans (mk_retransmission 1 9)) Hr) E Hx Hne Hf).
Defined.
