(* ===== verification/IbTables.v ===== *)
(** The tables of the RoCE transport, one entry per queue pair:
    [conn_table.hpp], [state_table.hpp], [msn_table.hpp], [read_req_table.hpp]
    and the retransmission timer [transport_timer.hpp].  Each process is a
    function of its static table and its input streams; a call serves one
    request and returns what it writes. *)
From stdpp Require Import base numbers list gmap fin_maps strings.
From Stdlib Require Import ZArith Lia.
From S2P Require Import Prelude Axi IbTypes.

Local Open Scope Z_scope.

Section access.
Context `{RoceConfig}.

(** An access outside the table has no defined behaviour. *)
Definition at_qp {A : Type} (k : Z) (r : step_result A) : step_result A :=
  if (0 <=? k) && (k <? MAX_QPS) then r else StepUndef "index outside the table".

Lemma at_qp_in {A : Type} (k : Z) (r : step_result A) : 0 <= k < MAX_QPS -> at_qp k r = r.
Proof. intros. unfold at_qp. by replace ((0 <=? k) && (k <? MAX_QPS)) with true by lia. Qed.

Lemma at_qp_next {A : Type} (k : Z) (r : step_result A) (a : A) : at_qp k r = Next a -> 0 <= k < MAX_QPS /\ r = Next a.
Proof. unfold at_qp. destruct ((0 <=? k) && (k <? MAX_QPS)) eqn:E; [|done]. split; [lia | done]. Qed.
End access.

(** ** Connections *)

Record connTableEntry : Type := mk_conn { ce_remote_qpn : Z; ce_remote_ip_address : Z; ce_remote_udp_port : Z }.
Definition conn_zero : connTableEntry := mk_conn 0 0 0.

Record conns : Type := mk_conns {
  conn_tbl : gmap Z connTableEntry; tx_ibhconnTable_req : list Z; qpi2connTable_req : list ifConnReq }.

Section conn_table.
Context `{RoceConfig}.

Definition conn_table (s : conns) : step_result (conns * list connTableEntry) :=
  let '(mk_conns t tx qp) := s in
  match tx, qp with
  | k :: tx', _ => at_qp k (Next (mk_conns t tx' qp, [default conn_zero (t !! k)]))
  | [], r :: qp' =>
      at_qp (ic_qpn r) (Next (
        mk_conns (<[ic_qpn r := mk_conn (ic_remote_qpn r) (ic_remote_ip_address r) (ic_remote_udp_port r)]> t) tx qp',
        []))
  | [], [] => Next (s, [])
  end.
End conn_table.

(** ** Packet sequence numbers *)

Record stateTableEntry : Type := mk_state {
  se_resp_epsn : Z; se_resp_old_outstanding : Z; se_req_next_psn : Z; se_req_old_unack : Z;
  se_req_old_valid : Z; se_retryCounter : Z }.
Definition state_zero : stateTableEntry := mk_state 0 0 0 0 0 0.

(** A request of the receive side reads or writes, of either window. *)
Inductive rxStateReq : Type :=
| RxStateRead (qpn : Z) (isResponse : bool)
| RxStateWrite (qpn epsn retryCounter : Z) (isResponse : bool).
Inductive txStateReq : Type := TxStateRead (qpn : Z) | TxStateWrite (qpn psn : Z).
Inductive ifStateReq : Type := IfStateRead (qpn : Z) | IfStateWrite (qpn : Z) (s : qpState) (remote_psn local_psn : Z).
Record rxStateRsp : Type := mk_rxStateRsp {
  sr_epsn : Z; sr_oldest_outstanding_psn : Z; sr_max_forward : Z; sr_retryCounter : Z }.

Definition rxStateReq_psn (qpn psn : Z) (rsp : bool) : rxStateReq := RxStateWrite (u16 qpn) (u24 psn) 7 rsp.
Definition rxStateReq_retry (qpn psn rc : Z) (rsp : bool) : rxStateReq :=
  RxStateWrite (u16 qpn) (u24 psn) (wrap 3 rc) rsp.

Record states : Type := mk_states {
  state_tbl : gmap Z stateTableEntry;
  rxIbh2stateTable_upd_req : list rxStateReq;
  txIbh2stateTable_upd_req : list txStateReq;
  qpi2stateTable_upd_req : list ifStateReq }.

Inductive state_out : Type :=
| SToRx (r : rxStateRsp)             (* stateTable2rxIbh_rsp *)
| SToTx (e : stateTableEntry)        (* stateTable2txIbh_rsp *)
| SToQpi (e : stateTableEntry).      (* stateTable2qpi_rsp *)

Definition set_epsn (psn rc : Z) (e : stateTableEntry) : stateTableEntry :=
  mk_state psn (se_resp_old_outstanding e) (se_req_next_psn e) (se_req_old_unack e) (se_req_old_valid e) rc.
Definition set_unack (psn : Z) (e : stateTableEntry) : stateTableEntry :=
  mk_state (se_resp_epsn e) (se_resp_old_outstanding e) (se_req_next_psn e) psn (se_req_old_valid e) (se_retryCounter e).
Definition set_next_psn (psn : Z) (e : stateTableEntry) : stateTableEntry :=
  mk_state (se_resp_epsn e) (se_resp_old_outstanding e) psn (se_req_old_unack e) (se_req_old_valid e) (se_retryCounter e).
(** The retry counter has three bits: [0xF] is stored as [7]. *)
Definition state_setup (remote_psn local_psn : Z) : stateTableEntry :=
  mk_state local_psn local_psn remote_psn remote_psn remote_psn (wrap 3 0xF).

Definition state_at (t : gmap Z stateTableEntry) (k : Z) : stateTableEntry := default state_zero (t !! k).

(** What the receive side is told of the window. *)
Definition rx_window (e : stateTableEntry) (rsp : bool) : rxStateRsp :=
  if rsp then mk_rxStateRsp (se_req_old_unack e) (se_req_old_valid e) (u24 (se_req_next_psn e - 1)) 0
  else mk_rxStateRsp (se_resp_epsn e) (se_resp_old_outstanding e) (se_resp_epsn e) (se_retryCounter e).

Section state_table.
Context `{RoceConfig}.

Definition state_table (s : states) : step_result (states * list state_out) :=
  let '(mk_states t rx tx qp) := s in
  match rx, tx, qp with
  | RxStateRead k rsp :: rx', _, _ => at_qp k (Next (mk_states t rx' tx qp, [SToRx (rx_window (state_at t k) rsp)]))
  | RxStateWrite k psn rc rsp :: rx', _, _ =>
      at_qp k (Next (mk_states
        (<[k := if rsp then set_unack psn (state_at t k) else set_epsn psn rc (state_at t k)]> t) rx' tx qp, []))
  | [], TxStateRead k :: tx', _ => at_qp k (Next (mk_states t rx tx' qp, [SToTx (state_at t k)]))
  | [], TxStateWrite k psn :: tx', _ =>
      at_qp k (Next (mk_states (<[k := set_next_psn psn (state_at t k)]> t) rx tx' qp, []))
  | [], [], IfStateRead k :: qp' => at_qp k (Next (mk_states t rx tx qp', [SToQpi (state_at t k)]))
  | [], [], IfStateWrite k _ remote_psn local_psn :: qp' =>
      at_qp k (Next (mk_states (<[k := state_setup remote_psn local_psn]> t) rx tx qp', []))
  | [], [], [] => Next (s, [])
  end.
End state_table.

(** ** Message sequence numbers and the transfer under way *)

Record dmaState : Type := mk_dma { dm_msn : Z; dm_vaddr : Z; dm_dma_length : Z; dm_r_key : Z; dm_lst : Z }.
Definition dma_zero : dmaState := mk_dma 0 0 0 0 0.

Inductive rxMsnReq : Type := MsnRead (qpn : Z) | MsnWrite (qpn msn vaddr dma_length lst : Z).
Definition rxMsnReq_msn (qpn msn : Z) : rxMsnReq := MsnWrite (u16 qpn) (u24 msn) 0 0 0.
Definition rxMsnReq_dma (qpn msn vaddr len lst : Z) : rxMsnReq :=
  MsnWrite (u16 qpn) (u24 msn) (u64 vaddr) (u32 len) (wrap 1 lst).
Record ifMsnReq : Type := mk_ifMsn { im_qpn : Z; im_r_key : Z }.
Record txMsnRsp : Type := mk_txMsn { tx_msn : Z; tx_r_key : Z }.

Record msns : Type := mk_msns {
  msn_tbl : gmap Z dmaState;
  rxExh2msnTable_upd_req : list rxMsnReq;
  txExh2msnTable_req : list Z;
  if2msnTable_init : list ifMsnReq }.

Inductive msn_out : Type := MToRx (d : dmaState) | MToTx (r : txMsnRsp).

Definition dma_at (t : gmap Z dmaState) (k : Z) : dmaState := default dma_zero (t !! k).

Section msn_table.
Context `{RoceConfig}.

Definition msn_table (s : msns) : step_result (msns * list msn_out) :=
  let '(mk_msns t rx tx init) := s in
  match rx, tx, init with
  | MsnRead k :: rx', _, _ => at_qp k (Next (mk_msns t rx' tx init, [MToRx (dma_at t k)]))
  | MsnWrite k msn vaddr len lst :: rx', _, _ =>
      at_qp k (Next (mk_msns (<[k := mk_dma msn vaddr len (dm_r_key (dma_at t k)) lst]> t) rx' tx init, []))
  | [], k :: tx', _ =>
      at_qp k (Next (mk_msns t rx tx' init, [MToTx (mk_txMsn (dm_msn (dma_at t k)) (dm_r_key (dma_at t k)))]))
  | [], [], r :: init' =>
      at_qp (im_qpn r) (Next (mk_msns (<[im_qpn r := mk_dma 0 0 0 (im_r_key r) 0]> t) rx tx init', []))
  | [], [], [] => Next (s, [])
  end.
End msn_table.

(** ** Outstanding read requests (not instantiated by the transport) *)

Record readReqTableEntry : Type := mk_rre { rre_oldest : Z; rre_max_fwd : Z }.
Record txReadReqUpdate : Type := mk_txReadReq { trr_qpn : Z; trr_max_fwd : Z }.
Inductive rxReadReqUpdate : Type := ReadReqRead (qpn : Z) | ReadReqWrite (qpn oldest : Z).
Record rxReadReqRsp : Type := mk_readReqRsp { rrr_oldest : Z; rrr_valid : bool }.

Record readreqs : Type := mk_readreqs {
  req_table : gmap Z readReqTableEntry;
  tx_readReqTable_upd : list txReadReqUpdate;
  rx_readReqTable_upd_req : list rxReadReqUpdate }.

Section read_req_table.
Context `{RoceConfig}.

Definition readreq_at (t : gmap Z readReqTableEntry) (k : Z) : readReqTableEntry := default (mk_rre 0 0) (t !! k).

Definition read_req_table (s : readreqs) : step_result (readreqs * list rxReadReqRsp) :=
  let '(mk_readreqs t tx rx) := s in
  match tx, rx with
  | u :: tx', _ =>
      let k := trr_qpn u in
      at_qp k (Next (mk_readreqs (<[k := mk_rre (rre_oldest (readreq_at t k)) (trr_max_fwd u)]> t) tx' rx, []))
  | [], ReadReqWrite k old :: rx' =>
      at_qp k (Next (mk_readreqs (<[k := mk_rre old (rre_max_fwd (readreq_at t k))]> t) tx rx', []))
  | [], ReadReqRead k :: rx' =>
      let e := readreq_at t k in
      at_qp k (Next (mk_readreqs t tx rx', [mk_readReqRsp (rre_oldest e) (rre_oldest e <? rre_max_fwd e)]))
  | [], [] => Next (s, [])
  end.
End read_req_table.

(** ** Retransmission timer *)

Record transportTimerEntry : Type := mk_tte { tte_time : Z; tte_retries : Z; tte_active : bool }.

(** The durations are floating point expressions of the synthesis build. *)
Class TimerTimes : Type := { TIME_1ms : Z; TIME_5ms : Z; TIME_12ms : Z; TIME_64ms : Z }.

Record ttimer : Type := mk_ttimer {
  transportTimerTable : gmap Z transportTimerEntry;
  tt_currPosition : Z;
  rxClearTimer_req : list rxTimerUpdate;
  txSetTimer_req : list Z;
  timer2retrans : list retransmission }.

Definition ttimer_init : ttimer := mk_ttimer ∅ 0 [] [] [].
Definition timer2retrans_depth : nat := 2.

Section transport_timer.
Context `{RoceConfig, TimerTimes}.

Definition tte_at (t : gmap Z transportTimerEntry) (k : Z) : transportTimerEntry :=
  default (mk_tte 0 0 false) (t !! k).

Definition tt_time_for (retries : Z) : Z :=
  if retries <? RETRANS_S1 then TIME_1ms
  else if retries <? RETRANS_S2 then TIME_5ms
  else if retries <? RETRANS_S3 then TIME_12ms
  else TIME_64ms.

Definition tt_clear (u : rxTimerUpdate) (e : transportTimerEntry) : transportTimerEntry :=
  if xt_stop u then mk_tte 0 0 false else mk_tte TIME_1ms 0 (tte_active e).

Definition tt_arm (e : transportTimerEntry) : transportTimerEntry :=
  mk_tte (if tte_active e then tte_time e else tt_time_for (tte_retries e)) (tte_retries e) true.

(** An entry of the sweep: its new value, and whether a retransmission is due.
    [full]: the stream to the retransmitter is full. *)
Definition tt_sweep (full : bool) (e : transportTimerEntry) : transportTimerEntry * bool :=
  if tte_active e then
    if 0 <? tte_time e then (mk_tte (tte_time e - 1) (tte_retries e) true, false)
    else if full then (e, false)
    else if tte_retries e <? RETRANS_RETRY_CNT then (mk_tte 0 (u4 (tte_retries e + 1)) false, true)
    else (mk_tte 0 (tte_retries e) false, false)
  else (e, false).

Definition transport_timer (s : ttimer) : step_result ttimer :=
  let '(mk_ttimer t pos clr set out) := s in
  match clr, set with
  | u :: clr', _ =>
      at_qp (xt_qpn u) (Next (mk_ttimer (<[xt_qpn u := tt_clear u (tte_at t (xt_qpn u))]> t) pos clr' set out))
  | [], k :: set' =>
      let pos' := if (k - 3 <? pos) && (pos <=? k) then u16 (pos + 5) else pos in
      at_qp k (Next (mk_ttimer (<[k := tt_arm (tte_at t k)]> t) pos' clr set' out))
  | [], [] =>
      let pos' := if MAX_QPS <=? u16 (pos + 1) then 0 else u16 (pos + 1) in
      let '(e, due) := tt_sweep (s_full timer2retrans_depth out) (tte_at t pos) in
      at_qp pos (Next (mk_ttimer (<[pos := e]> t) pos' clr set
        (if due then out ++ [retransmission_new pos 0] else out)))
  end.
End transport_timer.

(** ** The timer gives up *)

Inductive timer_label : Type :=
| TtTick                        (* a call of the process *)
| TtClear (u : rxTimerUpdate)   (* the receive side *)
| TtSet (qpn : Z)               (* the transmit side *)
| TtTake.                       (* the retransmitter reads *)

Section timer_runs.
Context `{RoceConfig, TimerTimes}.

(** [log]: the retransmissions requested so far. *)
Definition timer_step (l : timer_label) (x : ttimer * list retransmission) : step_result (ttimer * list retransmission) :=
  let '(s, log) := x in
  let '(mk_ttimer t pos clr set out) := s in
  match l with
  | TtTick =>
      match transport_timer s with
      | Next s' => Next (s', log ++ drop (length out) (timer2retrans s'))
      | Blocked => Blocked
      | StepUndef e => StepUndef e
      end
  | TtClear u => Next (mk_ttimer t pos (clr ++ [u]) set out, log)
  | TtSet k => Next (mk_ttimer t pos clr (set ++ [u24 k]) out, log)
  | TtTake => Next (mk_ttimer t pos clr set (tail out), log)
  end.

Definition requested (k : Z) (log : list retransmission) : nat := length (filter (fun r => rm_qpn r = k) log).

(** Without an acknowledgement the counter of the queue pair is the number of
    requests. *)
Definition counts (k : Z) (x : ttimer * list retransmission) : Prop :=
  Forall (fun u => xt_qpn u <> k) (rxClearTimer_req (fst x)) /\
  0 <= tt_currPosition (fst x) < 2 ^ 16 /\
  Z.of_nat (requested k (snd x)) = tte_retries (tte_at (transportTimerTable (fst x)) k) /\
  tte_retries (tte_at (transportTimerTable (fst x)) k) <= RETRANS_RETRY_CNT.

Definition not_cleared (k : Z) (l : timer_label) : Prop := match l with TtClear u => xt_qpn u <> k | _ => True end.

Lemma tte_at_insert (t : gmap Z transportTimerEntry) (i k : Z) e :
  tte_at (<[i := e]> t) k = if decide (i = k) then e else tte_at t k.
Proof.
  unfold tte_at. destruct (decide (i = k)) as [->|]; [by rewrite lookup_insert_eq | by rewrite lookup_insert_ne].
Qed.

Lemma requested_snoc (k : Z) log r : requested k (log ++ [r]) = (requested k log + if decide (rm_qpn r = k) then 1 else 0)%nat.
Proof. unfold requested. rewrite filter_app, length_app. f_equal. rewrite filter_cons, filter_nil. by case_decide. Qed.

Lemma sweep_counts full e e' due :
  tt_sweep full e = (e', due) -> 0 <= tte_retries e <= RETRANS_RETRY_CNT ->
  tte_retries e' = tte_retries e + (if due then 1 else 0) /\ tte_retries e' <= RETRANS_RETRY_CNT.
Proof.
  unfold tt_sweep, RETRANS_RETRY_CNT. intros Hs Hr. destruct (tte_active e); [|simplify_eq; lia].
  destruct (0 <? tte_time e); [simplify_eq; cbn; lia|]. destruct full; [simplify_eq; lia|].
  destruct (Z.ltb_spec (tte_retries e) 12); simplify_eq; cbn; [|lia].
  rewrite wrap_small by (unfold fits; lia). lia.
Qed.

#[local] Arguments s_full {A} depth s : simpl never.
#[local] Arguments requested k log : simpl never.

Lemma counts_step k l x x' : not_cleared k l -> counts k x -> timer_step l x = Next x' -> counts k x'.
Proof.
  intros Hl (Hc & Hp & He & Hle) Hs. destruct x as [s log]. destruct s as [t pos clr set out]. cbn in *.
  destruct l as [|u|j|]; [|simplify_eq; unfold counts; cbn..].
  2: { split_and!; try done; try lia. apply Forall_app_2; [done | by apply Forall_singleton]. }
  2, 3: split_and!; done || lia.
  destruct clr as [|u clr]; [destruct set as [|j set]|].
  - destruct (tt_sweep (s_full timer2retrans_depth out) (tte_at t pos)) as [e due] eqn:Ew.
    destruct (at_qp pos (Next _)) eqn:Ea; simplify_eq. apply at_qp_next in Ea as [Hpos [= <-]]. unfold counts. cbn.
    assert (0 <= (if MAX_QPS <=? u16 (pos + 1) then 0 else u16 (pos + 1)) < 2 ^ 16) as Hp'.
    { destruct (MAX_QPS <=? _); [lia|]. by apply (wrap_range 16). }
    rewrite tte_at_insert. destruct (decide (pos = k)) as [->|Hne].
    + destruct (sweep_counts _ _ _ _ Ew ltac:(lia)) as [E1 E2]. split_and!; try done; try lia.
      destruct due; rewrite ?drop_app_length, ?drop_all, ?app_nil_r; [|lia].
      rewrite requested_snoc. cbn. rewrite wrap_small by (unfold fits; lia). rewrite decide_True by done. lia.
    + split_and!; try done; try lia. destruct due; rewrite ?drop_app_length, ?drop_all, ?app_nil_r; [|lia].
      rewrite requested_snoc. cbn. rewrite wrap_small by (unfold fits; lia). rewrite decide_False by done. lia.
  - destruct (at_qp j (Next _)) eqn:Ea; simplify_eq. apply at_qp_next in Ea as [Hj [= <-]]. unfold counts. cbn.
    rewrite drop_all, app_nil_r, tte_at_insert. split_and!; try done.
    1, 2: destruct (_ && _); [apply (wrap_range 16); lia | lia].
    all: destruct (decide (j = k)) as [->|]; cbn; lia.
  - apply Forall_cons in Hc as [Hu Hc]. destruct (at_qp (xt_qpn u) (Next _)) eqn:Ea; simplify_eq.
    apply at_qp_next in Ea as [Hj [= <-]]. unfold counts. cbn.
    rewrite drop_all, app_nil_r, tte_at_insert, decide_False by done. split_and!; done || lia.
Qed.
End timer_runs.

(** A queue pair that gets no acknowledgement is retransmitted at most
    [RETRANS_RETRY_CNT] times, whatever the transmit side sets and however the
    requests interleave with the sweep. *)
Theorem transport_retries_bounded `{RoceConfig, TimerTimes} (k : Z) ls (s : ttimer) log :
  Forall (not_cleared k) ls -> steps timer_step ls (ttimer_init, []) = Next (s, log) ->
  Z.of_nat (requested k log) <= RETRANS_RETRY_CNT.
Proof.
  intros Hls Hs.
  assert (counts k (s, log)) as (_ & _ & E & Hle); [|cbn [fst snd] in *; lia].
  refine (steps_invariant _ (not_cleared k) (counts k) _ ls _ _ Hls _ Hs).
  - intros l x x'. apply counts_step.
  - unfold counts. cbn. split_and!; try done.
Qed.

Definition small_times : TimerTimes := {| TIME_1ms := 1; TIME_5ms := 2; TIME_12ms := 3; TIME_64ms := 4 |}.

(** The queue pair times out once and is retransmitted. *)
Definition timeout_run : list timer_label := TtSet 3 :: replicate 12 TtTick.

Lemma transport_retries_bounded_witness :
  exists s log, steps (@timer_step small_roce small_times) timeout_run (ttimer_init, []) = Next (s, log) /\
    log = [mk_retransmission 3 0] /\ Z.of_nat (requested 3 log) <= RETRANS_RETRY_CNT.
Proof.
  destruct (steps (@timer_step small_roce small_times) timeout_run (ttimer_init, [])) as [| |[s log]] eqn:E;
    [exfalso; revert E; vm_compute; discriminate..|].
  exists s, log. split; [done|]. split; [revert E; vm_compute; by intros [= <- <-]|].
  refine (@transport_retries_bounded small_roce small_times 3 timeout_run s log _ E).
  unfold timeout_run. constructor; [done|]. by apply Forall_replicate.
Defined.

(** The cursor is moved five entries on past the end of the table: setting the
    timer of the last queue pair while the cursor is there makes the next call
    access the table out of bounds. *)
Lemma tt_position_overrun :
  exists e, steps (@timer_step small_roce small_times) (replicate 3 TtTick ++ [TtSet 3; TtTick; TtTick])
    (ttimer_init, []) = StepUndef e.
Proof. eexists. vm_compute. reflexivity. Qed.
