(* ===== verification/IbRx.v ===== *)
(** The receive path of the RoCE transport ([ib_transport_protocol.cpp]): the
    processes that strip the headers of a packet, check its sequence number
    against the window of its queue pair, turn it into memory commands and
    acknowledgements, and route its payload.  Each process is a function of its
    static variables and input streams; a call is one iteration and returns
    what it writes, in the order of the writes. *)
From stdpp Require Import base numbers list strings.
From Stdlib Require Import ZArith Lia.
From S2P Require Import Prelude Axi IbTypes IbTables.

Local Open Scope Z_scope.

(** ** [rx_process_ibh]: the base transport header *)

Record pibh : Type := mk_pibh {
  pi_bth : packetHeader; pi_metaWritten : bool; pi_validRx : Z; pi_input : list net_axis }.
Definition pibh_init (input : list net_axis) : pibh := mk_pibh header_new false 0 input.

Inductive pibh_out : Type :=
| IbhWord (w : net_axis)      (* output *)
| IbhMeta (m : ibhMeta)       (* metaOut *)
| IbhCode (c : ibOpCode).     (* metaOut2 *)

Section rx_process_ibh.
Context `{RoceConfig}.

(** [pi_validRx] is also the value of the register [regIbvCountRx]. *)
Definition rx_process_ibh (s : pibh) : pibh * list pibh_out :=
  let '(mk_pibh bth written cnt input) := s in
  match input with
  | [] => (s, [])
  | w :: input' =>
      let bth' := parseWord WIDTH BTH_SIZE bth (a_data w) in
      let h := h_header bth' in
      let meta := [IbhMeta (ibhMeta_psn (bth_getOpCode h) (bth_getPartitionKey h) (bth_getDstQP h) (bth_getPsn h) true);
                   IbhCode (bth_getOpCode h)] in
      let o := if h_ready bth' then IbhWord w :: (if written then [] else meta) else [] in
      let written' := written || h_ready bth' in
      if a_last w then (mk_pibh (header_clear bth') false (u32 (cnt + 1)) input', o)
      else (mk_pibh bth' written' (u32 (cnt + 1)) input', o)
  end.
End rx_process_ibh.

(** ** [rx_process_exh]: the extension headers *)

Inductive exhStateType : Type := EXH_META | ACK_HEADER | RETH_HEADER | NO_HEADER.

Record pexh : Type := mk_pexh {
  px_state : exhStateType; px_rdmaHeader : packetHeader; px_ackHeader : packetHeader;
  px_metaWritten : bool; px_opCode : ibOpCode; px_input : list net_axis; px_metaIn : list ibOpCode }.

Inductive pexh_out : Type :=
| ExhMetaOut (m : exhMeta)    (* exhMetaFifo *)
| ExhHeader (h : Z)           (* metaOut *)
| ExhWord (w : net_axis).     (* output *)

Section rx_process_exh.
Context `{RoceConfig}.
(** What a new [ExHeader] holds. *)
Context (blank : Z).

(** The number of packets a read request asks for. *)
Definition packets (len : Z) : Z := (len + (PMTU - 1)) / PMTU.

Definition rx_process_exh (s : pexh) : pexh * list pexh_out :=
  let '(mk_pexh st rh ah written op input metaIn) := s in
  match st with
  | EXH_META =>
      match metaIn with
      | c :: metaIn' =>
          let st' := if checkIfAethHeader c then ACK_HEADER
                     else if checkIfRethHeader c then RETH_HEADER else NO_HEADER in
          (mk_pexh st' rh ah false c input metaIn', [])
      | [] => (s, [])
      end
  | ACK_HEADER =>
      match input with
      | w :: input' =>
          let ah' := parseWord WIDTH AETH_SIZE ah (a_data w) in
          let meta := [ExhMetaOut (exhMeta_nak (aeth_isNAK (h_header ah')));
                       ExhHeader (exHeader_of_aeth (h_header ah'))] in
          let o := if h_ready ah' then
                     (if bool_decide (op = RC_ACK) then [] else [ExhWord w]) ++ (if written then [] else meta)
                   else [] in
          let written' := written || h_ready ah' in
          if a_last w then (mk_pexh EXH_META rh (header_clear ah') written' op input' metaIn, o)
          else (mk_pexh ACK_HEADER rh ah' written' op input' metaIn, o)
      | [] => (s, [])
      end
  | RETH_HEADER =>
      match input with
      | w :: input' =>
          let rh' := parseWord WIDTH RETH_SIZE rh (a_data w) in
          let meta := [ExhMetaOut (if bool_decide (op = RC_RDMA_READ_REQUEST)
                                   then exhMeta_count false (packets (reth_getLength (h_header rh')))
                                   else exhMeta_nak false);
                       ExhHeader (exHeader_of_reth (h_header rh'))] in
          let o1 := if written && (WIDTH <=? RETH_SIZE) then [ExhWord w] else [] in
          let o2 := if h_ready rh' then
                      (if written then [] else meta) ++
                      (if checkIfWrite op && (RETH_SIZE <? WIDTH) then [ExhWord w] else [])
                    else [] in
          let written' := written || h_ready rh' in
          if a_last w then (mk_pexh EXH_META (header_clear rh') ah written' op input' metaIn, o1 ++ o2)
          else (mk_pexh RETH_HEADER rh' ah written' op input' metaIn, o1 ++ o2)
      | [] => (s, [])
      end
  | NO_HEADER =>
      match input with
      | w :: input' =>
          let o := ExhWord w :: (if written then [] else [ExhMetaOut (exhMeta_nak false); ExhHeader blank]) in
          (mk_pexh (if a_last w then EXH_META else NO_HEADER) rh ah true op input' metaIn, o)
      | [] => (s, [])
      end
  end.
End rx_process_exh.

(** ** [rx_ibh_fsm]: sequence numbers *)

Inductive ibhFsmState : Type := LOAD | PROCESS.

Record ibhfsm : Type := mk_ibhfsm {
  bf_state : ibhFsmState; bf_meta : ibhMeta; bf_emeta : exhMeta; bf_isResponse : bool; bf_droppedPackets : Z;
  bf_metaIn : list ibhMeta; bf_exhMetaFifo : list exhMeta; bf_stateTable_rsp : list rxStateRsp }.

Definition ibhMeta_zero : ibhMeta := mk_ibhMeta RC_ACK 0 0 0 false 0.
Definition ibhfsm_init : ibhfsm := mk_ibhfsm LOAD ibhMeta_zero (mk_exhMeta false 0) false 0 [] [] [].

Inductive ibhfsm_out : Type :=
| BState (r : rxStateReq)       (* stateTable_upd_req *)
| BDrop (drop : bool)           (* ibhDropFifo *)
| BPolicy (p : fwdPolicy)       (* ibhDropMetaFifo *)
| BMeta (m : ibhMeta)           (* metaOut *)
| BEvent (e : ackEvent)         (* ibhEventFifo *)
| BAck (a : ackMeta)            (* m_axis_rx_ack_meta *)
| BTimer (u : rxTimerUpdate)    (* rxClearTimer_req *)
| BRetrans (u : retransUpdate). (* rx2retrans_upd *)

Definition is_ack (m : ibhMeta) : bool := bool_decide (ibh_op_code m = RC_ACK).

(** A packet number between the oldest the window still knows and the next. *)
Definition duplicate (q : rxStateRsp) (psn : Z) : bool :=
  let old := sr_oldest_outstanding_psn q in
  let e := sr_epsn q in
  ((old <? e) && (psn <? e) && (old <=? psn)) || ((e <? old) && ((psn <? e) || (old <=? psn))).

(** An acknowledgement inside the window of sent packets. *)
Definition ack_in_window (q : rxStateRsp) (psn : Z) : bool :=
  let e := sr_epsn q in
  let f := sr_max_forward q in
  ((e <=? psn) && (psn <=? f)) || (((e <=? psn) || (psn <=? f)) && (f <? e)).

(** The three branches of [PROCESS]. *)
Definition ibh_accept (m : ibhMeta) (x : exhMeta) (rsp : bool) (q : rxStateRsp) : list ibhfsm_out :=
  let op := ibh_op_code m in
  (if is_ack m || bool_decide (op = RC_RDMA_READ_REQUEST) then [] else [BDrop false]) ++
  [BPolicy (mk_fwd false false);
   BMeta (ibhMeta_psn op (ibh_partition_key m) (ibh_dest_qp m) (ibh_psn m) (ibh_validPSN m))] ++
  (if negb (exh_isNak x) && (negb (is_ack m) || ack_in_window q (ibh_psn m))
   then [BState (rxStateReq_psn (ibh_dest_qp m) (ibh_psn m + exh_numPkg x) rsp)] else []) ++
  (if rsp && negb (exh_isNak x) then
     BRetrans (retransUpdate_new (ibh_dest_qp m) (ibh_psn m) op) ::
     match op with
     | RC_RDMA_READ_RESP_FIRST | RC_RDMA_READ_RESP_MIDDLE => []
     | _ => [BAck (ackMeta_new (is_ack m) (ibh_dest_qp m) (ibh_psn m))]
     end
   else []) ++
  (if rsp && negb (bool_decide (op = RC_RDMA_READ_RESP_MIDDLE))
   then [BTimer (rxTimerUpdate_new (ibh_dest_qp m) (ibh_psn m =? sr_max_forward q))] else []).

Definition ibh_duplicate (m : ibhMeta) : list ibhfsm_out :=
  let op := ibh_op_code m in
  if bool_decide (op = RC_RDMA_READ_REQUEST) then
    [BPolicy (mk_fwd false false);
     BMeta (ibhMeta_psn op (ibh_partition_key m) (ibh_dest_qp m) (ibh_psn m) (ibh_validPSN m))]
  else if checkIfWrite op then
    [BEvent (ackEvent_psn (ibh_dest_qp m) (ibh_psn m) false); BDrop true; BPolicy (mk_fwd false true)]
  else (if is_ack m then [] else [BDrop true]) ++ [BPolicy (mk_fwd true false)].

Definition ibh_invalid (m : ibhMeta) (rsp : bool) (q : rxStateRsp) : list ibhfsm_out :=
  BPolicy (mk_fwd true false) ::
  if is_ack m then []
  else
    let first := sr_retryCounter q =? 7 in
    let rc := if first then 6 else sr_retryCounter q in
    BDrop true ::
    (if first then [BEvent (ackEvent_psn (ibh_dest_qp m) (if rsp then ibh_psn m else sr_epsn q) true)] else []) ++
    [BState (rxStateReq_retry (ibh_dest_qp m) (sr_epsn q) rc rsp)].

Definition in_order (m : ibhMeta) (q : rxStateRsp) : bool := (sr_epsn q =? ibh_psn m) || is_ack m.

(** Whether the packet counts as dropped. *)
Definition ibh_counted (m : ibhMeta) (q : rxStateRsp) : bool :=
  negb (in_order m q) && (if duplicate q (ibh_psn m) then checkIfWrite (ibh_op_code m) else true).

Definition ibh_process (m : ibhMeta) (x : exhMeta) (rsp : bool) (q : rxStateRsp) : list ibhfsm_out :=
  if in_order m q then ibh_accept m x rsp q
  else if duplicate q (ibh_psn m) then ibh_duplicate m
  else ibh_invalid m rsp q.

Definition rx_ibh_fsm (s : ibhfsm) : ibhfsm * list ibhfsm_out :=
  let '(mk_ibhfsm st meta emeta rsp dropped metaIn exhIn tblIn) := s in
  match st with
  | LOAD =>
      match metaIn, exhIn with
      | m :: metaIn', x :: exhIn' =>
          let rsp' := checkIfResponse (ibh_op_code m) in
          (mk_ibhfsm PROCESS m x rsp' dropped metaIn' exhIn' tblIn, [BState (RxStateRead (u16 (ibh_dest_qp m)) rsp')])
      | _, _ => (s, [])
      end
  | PROCESS =>
      match tblIn with
      | q :: tblIn' =>
          (mk_ibhfsm LOAD meta emeta rsp (if ibh_counted meta q then u32 (dropped + 1) else dropped) metaIn exhIn tblIn',
           ibh_process meta emeta rsp q)
      | [] => (s, [])
      end
  end.

(** ** [rx_exh_fsm]: from packets to memory commands *)

Inductive exhFsmState : Type := FSM_META | DMA_META | DATA.

Record exhfsm : Type := mk_exhfsm {
  ef_state : exhFsmState; ef_meta : ibhMeta; ef_exHeader : Z; ef_dmaMeta : dmaState; ef_udpLength : Z;
  ef_consumeReadInit : bool; ef_readReqInit : retransRdInit;
  ef_metaIn : list ibhMeta; ef_udpLengthFifo : list Z; ef_msnTable_rsp : list dmaState;
  ef_retrans2rx_init : list retransRdInit; ef_headerInput : list Z }.

Definition exhfsm_init : exhfsm :=
  mk_exhfsm FSM_META ibhMeta_zero 0 dma_zero 0 false (mk_retransRdInit 0 0) [] [] [] [] [].

Inductive exhfsm_out : Type :=
| EMsn (r : rxMsnReq)           (* rxExh2msnTable_upd_req *)
| EMem (c : memCmd)             (* memoryWriteCmd *)
| ERead (r : readRequest)       (* readRequestFifo *)
| EEvent (e : ackEvent)         (* rx_exhEventMetaFifo *)
| ESplit (c : ibOpCode)         (* rx_pkgSplitTypeFifo *)
| EShift (p : pkgShift)         (* rx_pkgShiftTypeFifo *)
| ERetrans (r : retransmission). (* rx2retrans_req *)

Section rx_exh_fsm.

(** What a packet of each kind leads to; [None]: the state machine stays in
    [DATA].  The payload length is what is left of the UDP length, as a 32-bit
    number. *)
Definition exh_data (m : ibhMeta) (hdr : Z) (dma : dmaState) (udp : Z) (rd : retransRdInit) : option (list exhfsm_out) :=
  let qp := ibh_dest_qp m in
  let op := ibh_op_code m in
  let tail shift := [EEvent (ackEvent_psn qp (ibh_psn m) false); ESplit op; EShift (mk_pkgShift shift qp)] in
  match op with
  | RC_SEND_ONLY | RC_SEND_LAST =>
      let pay := u32 (udp - (8 + 12 + 4)) in
      Some (EMem (memCmd_qpn 0 pay PKG_F PKG_INT qp) :: EMsn (rxMsnReq_msn qp (dm_msn dma + 1)) :: tail SHIFT_NONE)
  | RC_SEND_FIRST | RC_SEND_MIDDLE =>
      let pay := u32 (udp - (8 + 12 + 4)) in
      Some (EMem (memCmd_qpn 0 pay PKG_NF PKG_INT qp) :: EMsn (rxMsnReq_msn qp (dm_msn dma + 1)) :: tail SHIFT_NONE)
  | RC_RDMA_WRITE_ONLY | RC_RDMA_WRITE_FIRST =>
      let h := getRdmaHeader hdr in
      if reth_getLength h =? 0 then None
      else
        let pay := u32 (udp - (8 + 12 + 16 + 4)) in
        let rest := u32 (reth_getLength h - pay) in
        Some (EMem (memCmd_qpn (reth_getVirtualAddress h) pay
                      (if bool_decide (op = RC_RDMA_WRITE_ONLY) then PKG_F else PKG_NF) PKG_HOST qp) ::
              EMsn (rxMsnReq_dma qp (dm_msn dma + 1) (reth_getVirtualAddress h + pay) rest 1) :: tail SHIFT_RETH)
  | RC_RDMA_WRITE_MIDDLE | RC_RDMA_WRITE_LAST =>
      let pay := u32 (udp - (8 + 12 + 4)) in
      let rest := u32 (dm_dma_length dma - pay) in
      Some (EMem (memCmd_qpn (dm_vaddr dma) pay
                    (if bool_decide (op = RC_RDMA_WRITE_LAST) then PKG_F else PKG_NF) PKG_HOST qp) ::
            EMsn (rxMsnReq_dma qp (dm_msn dma + 1) (dm_vaddr dma + pay) rest 1) :: tail SHIFT_NONE)
  | RC_RDMA_READ_REQUEST =>
      let h := getRdmaHeader hdr in
      Some (if reth_getLength h =? 0 then []
            else [ERead (readRequest_new qp (reth_getVirtualAddress h) (reth_getLength h) (ibh_psn m));
                  EMsn (rxMsnReq_msn qp (dm_msn dma + 1))])
  | RC_RDMA_READ_RESP_ONLY | RC_RDMA_READ_RESP_FIRST | RC_RDMA_READ_RESP_LAST =>
      let pay := u32 (udp - (8 + 12 + 4 + 4)) in
      Some ((if aeth_isNAK (getAckHeader hdr) then [ERetrans (retransmission_new qp (ibh_psn m))] else []) ++
            [EShift (mk_pkgShift SHIFT_AETH qp)] ++
            match op with
            | RC_RDMA_READ_RESP_FIRST =>
                [EMem (memCmd_qpn (ri_laddr rd) pay PKG_NF PKG_HOST qp);
                 EMsn (rxMsnReq_dma qp (dm_msn dma) (ri_laddr rd + pay) pay (ri_lst rd))]
            | RC_RDMA_READ_RESP_ONLY =>
                [EMem (memCmd_qpn (ri_laddr rd) pay (ri_lst rd) PKG_HOST qp);
                 EMsn (rxMsnReq_dma qp (dm_msn dma) (ri_laddr rd + pay) pay (ri_lst rd))]
            | _ => [EMem (memCmd_qpn (dm_vaddr dma) pay (dm_lst dma) PKG_HOST qp)]
            end ++ [ESplit op])
  | RC_RDMA_READ_RESP_MIDDLE =>
      let pay := u32 (udp - (8 + 12 + 4)) in
      Some [EShift (mk_pkgShift SHIFT_NONE qp); EMem (memCmd_qpn (dm_vaddr dma) pay PKG_NF PKG_HOST qp);
            EMsn (rxMsnReq_dma qp (dm_msn dma) (dm_vaddr dma + pay) pay (dm_lst dma)); ESplit op]
  | RC_ACK =>
      Some (if aeth_isNAK (getAckHeader hdr) then [ERetrans (retransmission_new qp (ibh_psn m))] else [])
  | _ => None
  end.

Definition takes_init (c : ibOpCode) : bool :=
  match c with RC_RDMA_READ_RESP_ONLY | RC_RDMA_READ_RESP_FIRST => true | _ => false end.

Definition rx_exh_fsm (s : exhfsm) : exhfsm * list exhfsm_out :=
  let '(mk_exhfsm st meta hdr dma udp consume rd metaIn udpIn msnIn initIn hdrIn) := s in
  match st with
  | FSM_META =>
      match metaIn, hdrIn with
      | m :: metaIn', h :: hdrIn' =>
          (mk_exhfsm DMA_META m h dma udp (takes_init (ibh_op_code m)) rd metaIn' udpIn msnIn initIn hdrIn',
           [EMsn (MsnRead (u16 (ibh_dest_qp m)))])
      | _, _ => (s, [])
      end
  | DMA_META =>
      match msnIn, udpIn, consume, initIn with
      | d :: msnIn', l :: udpIn', false, _ =>
          (mk_exhfsm DATA meta hdr d l consume rd metaIn udpIn' msnIn' initIn hdrIn, [])
      | d :: msnIn', l :: udpIn', true, i :: initIn' =>
          (mk_exhfsm DATA meta hdr d l consume i metaIn udpIn' msnIn' initIn' hdrIn, [])
      | _, _, _, _ => (s, [])
      end
  | DATA =>
      match exh_data meta hdr dma udp rd with
      | Some o => (mk_exhfsm FSM_META meta hdr dma udp consume rd metaIn udpIn msnIn initIn hdrIn, o)
      | None => (s, [])
      end
  end.
End rx_exh_fsm.

(** ** Routing of payload words *)

(** [drop_ooo_ibh]: forwards or drops the payload of a packet. *)
Inductive dropState : Type := DROP_META | DROP_FWD | DROP_DROP.
Record dropper : Type := mk_dropper { dr_state : dropState; dr_input : list net_axis; dr_metaIn : list bool }.

Definition drop_ooo_ibh (s : dropper) : dropper * list net_axis :=
  let '(mk_dropper st input metaIn) := s in
  match st, metaIn, input with
  | DROP_META, d :: metaIn', _ => (mk_dropper (if d then DROP_DROP else DROP_FWD) input metaIn', [])
  | DROP_FWD, _, w :: input' => (mk_dropper (if a_last w then DROP_META else DROP_FWD) input' metaIn, [w])
  | DROP_DROP, _, w :: input' => (mk_dropper (if a_last w then DROP_META else DROP_DROP) input' metaIn, [])
  | _, _, _ => (s, [])
  end.

(** [rx_exh_payload]: one of three streams by the kind of the packet. *)
Inductive payloadRoute : Type := ToRethShift | ToAethShift | ToNoShift.
Record payloader : Type := mk_payloader {
  rep_meta : option ibOpCode; rep_metaIn : list ibOpCode; rep_input : list net_axis }.

Definition payload_route (c : ibOpCode) : payloadRoute :=
  if checkIfRethHeader c then ToRethShift
  else match c with
       | RC_RDMA_READ_RESP_ONLY | RC_RDMA_READ_RESP_FIRST | RC_RDMA_READ_RESP_LAST => ToAethShift
       | _ => ToNoShift
       end.

(** [rep_meta] is the packet in the state [PKG], nothing in [META]. *)
Definition rx_exh_payload (s : payloader) : payloader * list (payloadRoute * net_axis) :=
  let '(mk_payloader meta metaIn input) := s in
  match meta, metaIn, input with
  | None, c :: metaIn', _ => (mk_payloader (Some c) metaIn' input, [])
  | Some c, _, w :: input' => (mk_payloader (if a_last w then None else meta) metaIn input', [(payload_route c, w)])
  | _, _, _ => (s, [])
  end.

(** [merge_rx_pkgs]: back from the three streams into one. *)
Record merger : Type := mk_merger {
  mrp_state : option pkgShiftType; mrp_shift : list pkgShift;
  mrp_aeth : list net_axis; mrp_reth : list net_axis; mrp_none : list net_axis }.

Definition merge_rx_pkgs (s : merger) : merger * list net_axis :=
  let '(mk_merger st sh ae re no) := s in
  let next w t := if a_last w then None else Some t in
  match st, sh, ae, re, no with
  | None, p :: sh', _, _, _ => (mk_merger (Some (ps_type p)) sh' ae re no, [])
  | Some SHIFT_AETH, _, w :: ae', _, _ => (mk_merger (next w SHIFT_AETH) sh ae' re no, [w])
  | Some SHIFT_RETH, _, _, w :: re', _ => (mk_merger (next w SHIFT_RETH) sh ae re' no, [w])
  | Some SHIFT_NONE, _, _, _, w :: no' => (mk_merger (next w SHIFT_NONE) sh ae re no', [w])
  | _, _, _, _, _ => (s, [])
  end.

(** [ipUdpMetaHandler]: the length and extension header of a packet that is
    not dropped. *)
Record udpmeta : Type := mk_udpmeta { um_input : list ipUdpMeta; um_exHeader : list Z; um_policy : list fwdPolicy }.

Definition ipUdpMetaHandler (s : udpmeta) : udpmeta * list (Z * Z) :=
  match s with
  | mk_udpmeta (m :: input) (h :: hdr) (p :: policy) =>
      (mk_udpmeta input hdr policy, if fp_isDrop p || fp_ackOnly p then [] else [(iu_length m, h)])
  | _ => (s, [])
  end.

(** ** [handle_read_requests]: a read request becomes the packets of its response *)

(** [hr_request]: the rest of the request in the state [GENERATE]. *)
Record hrr : Type := mk_hrr { hr_request : option readRequest; hr_requestIn : list readRequest }.

Definition response : Type := (memCmdInternal * event)%type.

Section handle_read_requests.
Context `{RoceConfig}.

Definition read_packet (op : ibOpCode) (r : readRequest) (addr len psn : Z) : response :=
  (memCmdInternal_new op (rr_qpn r) addr len (rr_host r), event_read op (rr_qpn r) len psn).

(** The rest after a full packet. *)
Definition rr_advance (r : readRequest) : readRequest :=
  mk_readRequest (rr_qpn r) (u64 (rr_vaddr r + PMTU)) (u32 (rr_dma_length r - PMTU)) (rr_psn r) (rr_host r).
Definition rr_next_psn (r : readRequest) : readRequest :=
  mk_readRequest (rr_qpn r) (rr_vaddr r) (rr_dma_length r) (u24 (rr_psn r + 1)) (rr_host r).

Definition handle_read_requests (s : hrr) : hrr * list response :=
  match s with
  | mk_hrr None (r :: rest) =>
      if PMTU <? rr_dma_length r then
        (mk_hrr (Some (rr_advance r)) rest, [read_packet RC_RDMA_READ_RESP_FIRST r (rr_vaddr r) PMTU (rr_psn r)])
      else (mk_hrr None rest, [read_packet RC_RDMA_READ_RESP_ONLY r (rr_vaddr r) (rr_dma_length r) (rr_psn r)])
  | mk_hrr None [] => (s, [])
  | mk_hrr (Some r) rest =>
      let r' := rr_next_psn r in
      if PMTU <? rr_dma_length r then
        (mk_hrr (Some (rr_advance r')) rest, [read_packet RC_RDMA_READ_RESP_MIDDLE r (rr_vaddr r) PMTU (rr_psn r')])
      else (mk_hrr None rest, [read_packet RC_RDMA_READ_RESP_LAST r (rr_vaddr r) (rr_dma_length r) (rr_psn r')])
  end.
End handle_read_requests.
