(* ===== verification/IbRxFacts.v ===== *)
(** Theorems on the receive path (IbRx): the packets of a read response, and
    the checking of sequence numbers against the shared state table. *)
From stdpp Require Import base numbers list gmap fin_maps strings.
From Stdlib Require Import ZArith Lia.
From S2P Require Import Prelude Axi IbTypes IbTables IbRx.

Local Open Scope Z_scope.

(** ** Read responses *)

Section read_responses.
Context `{RoceConfig}.
Hypothesis pmtu : 0 < PMTU < 2 ^ 16.
#[local] Arguments packets {_} len : simpl never.

(** The packets of a response: consecutive pieces of the memory with
    consecutive packet numbers. *)
Definition response_op (i n : Z) : ibOpCode :=
  if n =? 1 then RC_RDMA_READ_RESP_ONLY
  else if i =? 0 then RC_RDMA_READ_RESP_FIRST
  else if i =? n - 1 then RC_RDMA_READ_RESP_LAST else RC_RDMA_READ_RESP_MIDDLE.

Definition response_packet (r : readRequest) (i : Z) : response :=
  read_packet (response_op i (packets (rr_dma_length r))) r (rr_vaddr r + i * PMTU)
    (Z.min PMTU (rr_dma_length r - i * PMTU)) (rr_psn r + i).

Lemma packets_spec (len : Z) : 0 < len -> 0 < packets len /\ (packets len - 1) * PMTU < len <= packets len * PMTU.
Proof.
  intros Hl. unfold packets. assert (PMTU <> 0) as Hne by lia. destruct pmtu as [Hpos _].
  pose proof (Z.div_mod (len + (PMTU - 1)) PMTU Hne). pose proof (Z.mod_pos_bound (len + (PMTU - 1)) PMTU Hpos).
  set (n := (len + (PMTU - 1)) / PMTU) in *. clearbody n. assert (0 < n) by nia. split; [done | lia].
Qed.

(** What [handle_read_requests] holds before the [i]-th packet of [r]. *)
Definition hrr_at (r : readRequest) (i : Z) : readRequest :=
  mk_readRequest (rr_qpn r) (u64 (rr_vaddr r + i * PMTU)) (rr_dma_length r - i * PMTU) (u24 (rr_psn r + (i - 1)))
    (rr_host r).

Definition request_ok (r : readRequest) : Prop :=
  fits 64 (rr_vaddr r) /\ fits 32 (rr_dma_length r) /\ 0 < rr_dma_length r /\ fits 24 (rr_psn r).

Lemma u32_len (r : readRequest) i :
  request_ok r -> 0 <= i < packets (rr_dma_length r) -> u32 (rr_dma_length r - i * PMTU) = rr_dma_length r - i * PMTU.
Proof.
  intros (_ & Hl & Hp & _) Hi. destruct (packets_spec _ Hp) as [Hn [H1 H2]]. apply wrap_small. unfold fits in *. nia.
Qed.

Lemma hrr_advance (r : readRequest) i :
  request_ok r -> 0 <= i -> i + 1 < packets (rr_dma_length r) ->
  rr_advance (rr_next_psn (hrr_at r i)) = hrr_at r (i + 1).
Proof.
  intros Hr Hi Hn. unfold rr_advance, rr_next_psn, hrr_at. cbn. f_equal.
  - rewrite wrap_add_l. f_equal. lia.
  - rewrite <- (u32_len r (i + 1)) by (done || lia). f_equal. lia.
  - rewrite wrap_add_l. f_equal. lia.
Qed.

Lemma hrr_packet op (r : readRequest) i len :
  read_packet op (hrr_at r i) (rr_vaddr (hrr_at r i)) len (rr_psn (rr_next_psn (hrr_at r i))) =
  read_packet op r (rr_vaddr r + i * PMTU) len (rr_psn r + i).
Proof.
  unfold read_packet, memCmdInternal_new, event_read. cbn. f_equal; f_equal.
  - by rewrite wrap_wrap.
  - rewrite wrap_wrap by lia. rewrite wrap_add_l. f_equal. lia.
Qed.

Lemma generate_packets (r : readRequest) rest (k : nat) i :
  request_ok r -> 0 < i -> i + Z.of_nat k = packets (rr_dma_length r) -> (0 < k)%nat ->
  calls handle_read_requests k (mk_hrr (Some (hrr_at r i)) rest) =
    (mk_hrr None rest, response_packet r <$> seqZ i (Z.of_nat k)).
Proof.
  intros Hr. pose proof Hr as (_ & Hl & Hp & _). destruct (packets_spec _ Hp) as [Hn [H1 H2]].
  revert i. induction k as [|k IH]; intros i Hi Hk Hpos; [lia|].
  cbn [calls]. unfold handle_read_requests at 1. cbn [rr_dma_length hrr_at].
  fold (hrr_at r i). destruct (Z.ltb_spec PMTU (rr_dma_length r - i * PMTU)) as [Hlt|Hge].
  - rewrite hrr_advance by (done || nia). rewrite hrr_packet.
    rewrite (IH (i + 1)) by (done || nia).
    rewrite (seqZ_cons i), fmap_cons by lia. replace (Z.pred (Z.of_nat (S k))) with (Z.of_nat k) by lia.
    rewrite <- Z.add_1_r. f_equal. cbn [app]. f_equal. unfold response_packet, response_op.
    replace (packets (rr_dma_length r) =? 1) with false by lia. replace (i =? 0) with false by lia.
    replace (i =? packets (rr_dma_length r) - 1) with false by nia. f_equal. lia.
  - assert (k = 0%nat) as -> by nia. cbn [calls]. rewrite hrr_packet, app_nil_r.
    rewrite seqZ_cons, fmap_cons by lia. cbn. f_equal. f_equal. unfold response_packet, response_op.
    replace (packets (rr_dma_length r) =? 1) with false by lia. replace (i =? 0) with false by lia.
    replace (i =? packets (rr_dma_length r) - 1) with true by lia. f_equal. lia.
Qed.

Lemma all_packets (r : readRequest) rest :
  request_ok r ->
  calls handle_read_requests (Z.to_nat (packets (rr_dma_length r))) (mk_hrr None (r :: rest)) =
    (mk_hrr None rest, response_packet r <$> seqZ 0 (packets (rr_dma_length r))).
Proof.
  intros Hr. pose proof Hr as (Hv & Hl & Hp & Hpsn). destruct (packets_spec _ Hp) as [Hn [H1 H2]].
  destruct (Z.to_nat (packets (rr_dma_length r))) as [|k] eqn:Ek; [lia|].
  cbn [calls handle_read_requests]. rewrite seqZ_cons, fmap_cons by lia.
  destruct (Z.ltb_spec PMTU (rr_dma_length r)) as [Hlt|Hge].
  - assert (rr_advance r = hrr_at r 1) as ->.
    { unfold rr_advance, hrr_at. rewrite Z.mul_1_l, Z.sub_diag, Z.add_0_r. f_equal.
      - rewrite wrap_small by (unfold fits in *; lia). done.
      - by rewrite wrap_small. }
    rewrite (generate_packets r rest k 1) by (done || nia).
    replace (Z.pred (packets (rr_dma_length r))) with (Z.of_nat k) by lia. f_equal. cbn [app]. f_equal.
    unfold response_packet, response_op. replace (packets (rr_dma_length r) =? 1) with false by nia.
    replace (0 =? 0) with true by lia. rewrite Z.mul_0_l, !Z.add_0_r. f_equal. lia.
  - assert (k = 0%nat) as -> by nia. replace (packets (rr_dma_length r)) with 1 by lia. cbn [calls].
    rewrite app_nil_r. cbn. f_equal. f_equal. unfold response_packet, response_op.
    replace (packets (rr_dma_length r) =? 1) with true by nia. rewrite Z.mul_0_l, !Z.add_0_r. f_equal. lia.
Qed.

(** Their lengths add up to the length asked for. *)
Lemma lengths_sum (r : readRequest) (k : nat) i :
  request_ok r -> 0 <= i -> i + Z.of_nat k = packets (rr_dma_length r) ->
  foldr Z.add 0 ((fun p : response => ev_length (snd p)) <$> (response_packet r <$> seqZ i (Z.of_nat k))) =
    Z.max 0 (rr_dma_length r - i * PMTU).
Proof.
  intros Hr. pose proof Hr as (_ & Hl & Hp & _). destruct (packets_spec _ Hp) as [Hn [H1 H2]].
  revert i. induction k as [|k IH]; intros i Hi Hk.
  - assert (i = packets (rr_dma_length r)) as -> by lia. rewrite seqZ_nil, !fmap_nil by lia. cbn [foldr]. lia.
  - rewrite seqZ_cons by lia. replace (Z.pred (Z.of_nat (S k))) with (Z.of_nat k) by lia.
    rewrite !fmap_cons. cbn [foldr]. rewrite <- Z.add_1_r, (IH (i + 1)) by lia. cbn.
    rewrite wrap_small; [nia|]. unfold fits in *. nia.
Qed.
End read_responses.

(** A read request becomes the packets of its response: as many calls as it has
    packets write consecutive pieces of the memory, all of the size of a packet
    but the last, with consecutive packet numbers and the op codes only, or
    first, middle and last; the lengths add up to the length asked for, and the
    responder's expected number has been moved past exactly these packets. *)
Theorem read_response_packets `{RoceConfig} (r : readRequest) rest :
  0 < PMTU < 2 ^ 16 -> request_ok r -> packets (rr_dma_length r) < 2 ^ 22 ->
  let n := packets (rr_dma_length r) in
  calls handle_read_requests (Z.to_nat n) (mk_hrr None (r :: rest)) =
    (mk_hrr None rest, response_packet r <$> seqZ 0 n) /\
  foldr Z.add 0 ((fun p : response => ev_length (snd p)) <$> (response_packet r <$> seqZ 0 n)) = rr_dma_length r /\
  exh_numPkg (exhMeta_count false n) = n.
Proof.
  intros Hp Hr Hn n. destruct (packets_spec Hp (rr_dma_length r)) as [Hpos _]; [apply Hr|].
  split; [by apply all_packets|]. split; [|apply wrap_small; unfold fits, n; lia].
  pose proof (lengths_sum Hp r (Z.to_nat n) 0 Hr) as Hs. rewrite Z2Nat.id in Hs by (unfold n; lia).
  rewrite Hs by (unfold n; lia). destruct Hr as (_ & _ & Hl & _). lia.
Qed.

Lemma read_response_packets_witness :
  let r := mk_readRequest 1 4096 2500 (2 ^ 24 - 1) 1 in
  calls (@handle_read_requests small_roce) 3 (mk_hrr None [r]) =
    (mk_hrr None [],
     [read_packet RC_RDMA_READ_RESP_FIRST r 4096 1024 (2 ^ 24 - 1);
      read_packet RC_RDMA_READ_RESP_MIDDLE r 5120 1024 (2 ^ 24);
      read_packet RC_RDMA_READ_RESP_LAST r 6144 452 (2 ^ 24 + 1)]).
Proof.
  intros r. destruct (@read_response_packets small_roce r []) as [E _].
  - vm_compute. intuition discriminate.
  - vm_compute. intuition discriminate.
  - reflexivity.
  - exact E.
Defined.

(** ** Sequence numbers: the state machine and the shared table *)

Section sequence_numbers.
Context `{RoceConfig}.

(** The state machine and the table with the streams between them; [pn_log] is
    what the state machine has written to the other modules, [pn_hist] the
    accesses to the table in the order the table serves them. *)
Inductive access : Type := APacket (m : ibhMeta) (x : exhMeta) | ATx (qpn psn : Z).
Record psns : Type := mk_psns { pn_fsm : ibhfsm; pn_tbl : states; pn_log : list ibhfsm_out; pn_hist : list access }.

Inductive psn_label : Type :=
| NFsm | NTable
| NMeta (m : ibhMeta) | NExh (x : exhMeta)   (* the header processes *)
| NTx (q : txStateReq).                       (* the transmit side *)

Definition state_reqs (o : list ibhfsm_out) : list rxStateReq := omap (fun x => match x with BState r => Some r | _ => None end) o.
Definition others (o : list ibhfsm_out) : list ibhfsm_out := omap (fun x => match x with BState _ => None | _ => Some x end) o.

Definition to_rx (o : list state_out) : list rxStateRsp := omap (fun x => match x with SToRx r => Some r | _ => None end) o.

(** The access the table serves next, seen from the packet under way. *)
Definition served (f : ibhfsm) (t : states) : list access :=
  match rxIbh2stateTable_upd_req t, txIbh2stateTable_upd_req t with
  | RxStateRead _ _ :: _, _ => [APacket (bf_meta f) (bf_emeta f)]
  | [], TxStateWrite k psn :: _ => [ATx k psn]
  | _, _ => []
  end.

Definition push_rsp (l : list rxStateRsp) (f : ibhfsm) : ibhfsm :=
  let '(mk_ibhfsm st m x rsp d mi xi ti) := f in mk_ibhfsm st m x rsp d mi xi (ti ++ l).
Definition push_meta (l : list ibhMeta) (f : ibhfsm) : ibhfsm :=
  let '(mk_ibhfsm st m x rsp d mi xi ti) := f in mk_ibhfsm st m x rsp d (mi ++ l) xi ti.
Definition push_exh (l : list exhMeta) (f : ibhfsm) : ibhfsm :=
  let '(mk_ibhfsm st m x rsp d mi xi ti) := f in mk_ibhfsm st m x rsp d mi (xi ++ l) ti.
Definition push_reqs (l : list rxStateReq) (t : states) : states :=
  let '(mk_states tb rx tx qp) := t in mk_states tb (rx ++ l) tx qp.
Definition push_tx (l : list txStateReq) (t : states) : states :=
  let '(mk_states tb rx tx qp) := t in mk_states tb rx (tx ++ l) qp.

Definition psn_step (l : psn_label) (s : psns) : step_result psns :=
  let '(mk_psns f t log h) := s in
  match l with
  | NFsm => let '(f', o) := rx_ibh_fsm f in Next (mk_psns f' (push_reqs (state_reqs o) t) (log ++ others o) h)
  | NTable =>
      match state_table t with
      | Next (t', o) => Next (mk_psns (push_rsp (to_rx o) f) t' log (h ++ served f t))
      | Blocked => Blocked
      | StepUndef e => StepUndef e
      end
  | NMeta m => Next (mk_psns (push_meta [m] f) t log h)
  | NExh x => Next (mk_psns (push_exh [x] f) t log h)
  | NTx q => Next (mk_psns f (push_tx [q] t) log h)
  end.

Definition psns_init (t0 : gmap Z stateTableEntry) : psns := mk_psns ibhfsm_init (mk_states t0 [] [] []) [] [].

(** The same, one access at a time. *)
Definition apply_rx (t : gmap Z stateTableEntry) (r : rxStateReq) : gmap Z stateTableEntry :=
  match r with
  | RxStateRead _ _ => t
  | RxStateWrite k psn rc rsp => <[k := if rsp then set_unack psn (state_at t k) else set_epsn psn rc (state_at t k)]> t
  end.
Definition apply_tx (t : gmap Z stateTableEntry) (k psn : Z) : gmap Z stateTableEntry :=
  <[k := set_next_psn psn (state_at t k)]> t.

(** What the state machine decides about a packet. *)
Definition decide_packet (t : gmap Z stateTableEntry) (m : ibhMeta) (x : exhMeta) : list ibhfsm_out :=
  let rsp := checkIfResponse (ibh_op_code m) in
  ibh_process m x rsp (rx_window (state_at t (u16 (ibh_dest_qp m))) rsp).

Definition access_once (s : gmap Z stateTableEntry * list ibhfsm_out) (a : access) :
    gmap Z stateTableEntry * list ibhfsm_out :=
  let '(t, out) := s in
  match a with
  | APacket m x =>
      let o := decide_packet t m x in (foldl apply_rx t (state_reqs o), out ++ others o)
  | ATx k psn => (apply_tx t k psn, out)
  end.
Definition in_sequence (t0 : gmap Z stateTableEntry) (h : list access) : gmap Z stateTableEntry * list ibhfsm_out :=
  foldl access_once (t0, []) h.

Lemma state_at_insert (t : gmap Z stateTableEntry) (i k : Z) e :
  state_at (<[i := e]> t) k = if decide (i = k) then e else state_at t k.
Proof.
  unfold state_at. destruct (decide (i = k)) as [->|]; [by rewrite lookup_insert_eq | by rewrite lookup_insert_ne].
Qed.

(** The transmit side writes a field of its own. *)
Lemma apply_rx_tx t r k psn : apply_rx (apply_tx t k psn) r = apply_tx (apply_rx t r) k psn.
Proof.
  destruct r as [|k' psn' rc rsp]; [done|]. cbn. unfold apply_tx. rewrite !state_at_insert.
  destruct (decide (k = k')) as [->|Hne].
  - rewrite decide_True by done. rewrite !insert_insert_eq. f_equal. destruct rsp; by destruct (state_at t k').
  - rewrite decide_False by done. by rewrite insert_insert_ne by done.
Qed.

Lemma foldl_rx_tx l t k psn : foldl apply_rx (apply_tx t k psn) l = apply_tx (foldl apply_rx t l) k psn.
Proof. revert t. induction l as [|r l IH]; intros t; [done|]. cbn. by rewrite apply_rx_tx, IH. Qed.

Lemma in_sequence_snoc t0 h a : in_sequence t0 (h ++ [a]) = access_once (in_sequence t0 h) a.
Proof. unfold in_sequence. by rewrite foldl_app. Qed.

(** Where the packet under way is. *)
Inductive PPhase (s : psns) : gmap Z stateTableEntry * list ibhfsm_out -> Prop :=
| PIdle w (Hst : bf_state (pn_fsm s) = LOAD) (Hw : Forall (fun r => ~ exists k b, r = RxStateRead k b) w)
    (Hreq : rxIbh2stateTable_upd_req (pn_tbl s) = w) (Hrsp : bf_stateTable_rsp (pn_fsm s) = []) :
    PPhase s (foldl apply_rx (state_tbl (pn_tbl s)) w, pn_log s)
| PAsked w (Hst : bf_state (pn_fsm s) = PROCESS) (Hw : Forall (fun r => ~ exists k b, r = RxStateRead k b) w)
    (Hb : bf_isResponse (pn_fsm s) = checkIfResponse (ibh_op_code (bf_meta (pn_fsm s))))
    (Hreq : rxIbh2stateTable_upd_req (pn_tbl s) =
            w ++ [RxStateRead (u16 (ibh_dest_qp (bf_meta (pn_fsm s)))) (bf_isResponse (pn_fsm s))])
    (Hrsp : bf_stateTable_rsp (pn_fsm s) = []) :
    PPhase s (foldl apply_rx (state_tbl (pn_tbl s)) w, pn_log s)
| PTold q (Hst : bf_state (pn_fsm s) = PROCESS)
    (Hreq : rxIbh2stateTable_upd_req (pn_tbl s) = []) (Hrsp : bf_stateTable_rsp (pn_fsm s) = [q]) :
    let o := ibh_process (bf_meta (pn_fsm s)) (bf_emeta (pn_fsm s)) (bf_isResponse (pn_fsm s)) q in
    PPhase s (foldl apply_rx (state_tbl (pn_tbl s)) (state_reqs o), pn_log s ++ others o).

Definition PsnInv (t0 : gmap Z stateTableEntry) (s : psns) : Prop :=
  PPhase s (in_sequence t0 (pn_hist s)) /\ qpi2stateTable_upd_req (pn_tbl s) = [].

(** A decision never asks the table again. *)
Lemma process_writes m x rsp q : Forall (fun r => ~ exists k b, r = RxStateRead k b) (state_reqs (ibh_process m x rsp q)).
Proof.
  unfold ibh_process, ibh_accept, ibh_duplicate, ibh_invalid.
  repeat match goal with |- context [if ?b then _ else _] => destruct b end;
    try destruct (ibh_op_code m); cbn; repeat constructor; by intros (? & ? & ?).
Qed.

Ltac pphase C := match goal with |- PPhase ?s' _ => eapply (C s') end; done.

Lemma fsm_phase f log te oe f' o t h h' :
  PPhase (mk_psns f t log h) (te, oe) -> rx_ibh_fsm f = (f', o) ->
  PPhase (mk_psns f' (push_reqs (state_reqs o) t) (log ++ others o) h') (te, oe).
Proof.
  intros HI Ef. destruct f as [st m x rsp d mi xi ti]. destruct t as [tb rx tx qp].
  inversion HI as [w Hst Hw Hreq Hrsp E|w Hst Hw Hb Hreq Hrsp E|q Hst Hreq Hrsp o' E]; cbn in *; subst; cbn in Ef.
  - destruct mi as [|m' mi]; [|destruct xi as [|x' xi]]; simplify_eq; cbn; rewrite ?app_nil_r.
    1, 2: by pphase PIdle.
    by pphase PAsked.
  - simplify_eq. cbn. rewrite !app_nil_r. by pphase PAsked.
  - simplify_eq. cbn. subst o'. match goal with |- PPhase ?s' _ => apply (PIdle s') end; try done.
    apply process_writes.
Qed.

Lemma table_phase t0 f t log h t' o :
  PsnInv t0 (mk_psns f t log h) -> state_table t = Next (t', o) ->
  PsnInv t0 (mk_psns (push_rsp (to_rx o) f) t' log (h ++ served f t)).
Proof.
  intros [HI Hqp] Et. unfold PsnInv in *. cbn [pn_hist pn_tbl] in *. destruct (in_sequence t0 h) as [te oe] eqn:Eh.
  destruct f as [st m x rsp d mi xi ti]. destruct t as [tb rx tx qp]. cbn in Et, Hqp. subst qp.
  assert (forall te oe, PPhase (mk_psns (mk_ibhfsm st m x rsp d mi xi ti) (mk_states tb rx tx []) log h) (te, oe) ->
    in_sequence t0 h = (te, oe) -> rx = [] ->
    PPhase (mk_psns (push_rsp (to_rx o) (mk_ibhfsm st m x rsp d mi xi ti)) t' log
              (h ++ served (mk_ibhfsm st m x rsp d mi xi ti) (mk_states tb rx tx [])))
      (in_sequence t0 (h ++ served (mk_ibhfsm st m x rsp d mi xi ti) (mk_states tb rx tx []))) /\
    qpi2stateTable_upd_req t' = []) as Htx.
  { clear te oe HI Eh. intros te oe HI Eh ->. destruct tx as [|[k|k psn] tx]; cbn in Et |- *.
    - simplify_eq. cbn. rewrite !app_nil_r, Eh. split; [|done].
      inversion HI; cbn in *; subst; [by pphase PIdle | by destruct w | by pphase PTold].
    - apply at_qp_next in Et as [_ [= <- <-]]. cbn. rewrite !app_nil_r, Eh. split; [|done].
      inversion HI; cbn in *; subst; [by pphase PIdle | by destruct w | by pphase PTold].
    - apply at_qp_next in Et as [_ [= <- <-]]. cbn. rewrite !app_nil_r, in_sequence_snoc, Eh. split; [|done]. cbn.
      inversion HI as [w Hst Hw Hreq Hrsp E|w Hst Hw Hb Hreq Hrsp E|q Hst Hreq Hrsp o' E]; cbn in *; subst.
      + rewrite <- foldl_rx_tx. by pphase PIdle.
      + by destruct w.
      + rewrite <- foldl_rx_tx. by pphase PTold. }
  inversion HI as [w Hst Hw Hreq Hrsp E|w Hst Hw Hb Hreq Hrsp E|q Hst Hreq Hrsp o' E]; cbn in *; subst.
  - destruct w as [|[k b|k psn rc b] w].
    + by eapply Htx.
    + apply Forall_cons in Hw as [Hr _]. destruct Hr. by eexists _, _.
    + apply Forall_cons in Hw as [_ Hw]. apply at_qp_next in Et as [_ [= <- <-]]. cbn. rewrite !app_nil_r, Eh.
      split; [|done]. by pphase PIdle.
  - destruct w as [|[k b|k psn rc b] w].
    + cbn in Et. apply at_qp_next in Et as [_ [= <- <-]]. cbn. rewrite in_sequence_snoc, Eh. split; [|done].
      by pphase PTold.
    + apply Forall_cons in Hw as [Hr _]. destruct Hr. by eexists _, _.
    + apply Forall_cons in Hw as [_ Hw]. cbn in Et. apply at_qp_next in Et as [_ [= <- <-]]. cbn.
      rewrite !app_nil_r, Eh. split; [|done]. by pphase PAsked.
  - by eapply Htx.
Qed.

Lemma PsnInv_step t0 l s s' : PsnInv t0 s -> psn_step l s = Next s' -> PsnInv t0 s'.
Proof.
  intros HI Hs. destruct s as [f t log h]. destruct l as [| |m|x|q]; cbn in Hs.
  - destruct (rx_ibh_fsm f) as [f' o] eqn:Ef. simplify_eq. destruct HI as [HI Hqp]. unfold PsnInv. cbn [pn_hist pn_tbl] in *.
    destruct (in_sequence t0 h) as [te oe] eqn:Eh. split; [by eapply fsm_phase | by destruct t].
  - destruct (state_table t) as [| |[t' o]] eqn:Et; simplify_eq. by apply table_phase.
  - simplify_eq. destruct HI as [HI Hqp]. split; [|done]. cbn in *. destruct f.
    inversion HI; cbn in *; subst; [by pphase PIdle | by pphase PAsked | by pphase PTold].
  - simplify_eq. destruct HI as [HI Hqp]. split; [|done]. cbn in *. destruct f.
    inversion HI; cbn in *; subst; [by pphase PIdle | by pphase PAsked | by pphase PTold].
  - simplify_eq. destruct HI as [HI Hqp]. destruct t. split; [|done]. cbn in *. destruct f.
    inversion HI; cbn in *; subst; [by pphase PIdle | by pphase PAsked | by pphase PTold].
Qed.

Lemma PsnInv_run t0 ls s : steps psn_step ls (psns_init t0) = Next s -> PsnInv t0 s.
Proof.
  intros Hs. refine (steps_invariant _ (fun _ => True) (PsnInv t0) _ ls _ _ _ _ Hs).
  - intros l x x' _. apply PsnInv_step.
  - by apply Forall_true.
  - split; [|done]. by apply (PIdle (psns_init t0) []).
Qed.

(** *** The requests that are accepted *)

(** A request with the expected packet number. *)
Definition accepts (t : gmap Z stateTableEntry) (m : ibhMeta) : bool :=
  negb (checkIfResponse (ibh_op_code m)) && in_order m (rx_window (state_at t (u16 (ibh_dest_qp m))) false).

Fixpoint acceptances (t : gmap Z stateTableEntry) (h : list access) : list (ibhMeta * exhMeta) :=
  match h with
  | [] => []
  | a :: h' =>
      match a with APacket m x => if accepts t m then [(m, x)] else [] | ATx _ _ => [] end ++
      acceptances (fst (access_once (t, []) a)) h'
  end.

(** Each has the number that follows the packets of the one before. *)
Fixpoint consecutive (e : Z) (l : list (ibhMeta * exhMeta)) (e' : Z) : Prop :=
  match l with
  | [] => e = e'
  | (m, x) :: l' =>
      ibh_psn m = e /\ consecutive (if exh_isNak x then e else u24 (ibh_psn m + exh_numPkg x)) l' e'
  end.

Definition to_qp (k : Z) (l : list (ibhMeta * exhMeta)) : list (ibhMeta * exhMeta) :=
  filter (fun p => u16 (ibh_dest_qp (fst p)) = k) l.

Lemma access_once_tbl t o o' a : fst (access_once (t, o) a) = fst (access_once (t, o') a).
Proof. by destruct a. Qed.

Lemma in_sequence_tbl t0 a h : fst (in_sequence t0 (a :: h)) = fst (in_sequence (fst (access_once (t0, []) a)) h).
Proof.
  unfold in_sequence. cbn [foldl]. destruct (access_once (t0, []) a) as [t1 o1]. cbn [fst].
  assert (forall h t o o', fst (foldl access_once (t, o) h) = fst (foldl access_once (t, o') h)) as Hf.
  { clear. induction h as [|a h IH]; intros t o o'; [done|]. cbn [foldl].
    pose proof (access_once_tbl t o o' a) as E. destruct (access_once (t, o) a), (access_once (t, o') a). cbn in E.
    subst. apply IH. }
  apply Hf.
Qed.

(** The numbers in the table have 24 bits. *)
Definition numbers_fit (t : gmap Z stateTableEntry) : Prop := forall k, fits 24 (se_resp_epsn (state_at t k)).

(** A write of the table, seen from a queue pair. *)
Lemma epsn_write t k0 psn rc b k :
  se_resp_epsn (state_at (apply_rx t (RxStateWrite k0 psn rc b)) k) =
    if decide (k0 = k) then if b then se_resp_epsn (state_at t k0) else psn else se_resp_epsn (state_at t k).
Proof. cbn. rewrite state_at_insert. destruct (decide (k0 = k)); [|done]. by destruct b. Qed.

(** Responses write the other window. *)
Lemma epsn_response_writes t l k :
  Forall (fun r => exists k0 psn rc, r = RxStateWrite k0 psn rc true) l ->
  se_resp_epsn (state_at (foldl apply_rx t l) k) = se_resp_epsn (state_at t k).
Proof.
  intros Hl. revert t. induction Hl as [|r l (k0 & psn & rc & ->) Hl IH]; intros t; [done|]. cbn [foldl].
  rewrite IH, epsn_write. by destruct (decide (k0 = k)) as [->|].
Qed.

Lemma response_writes m x q :
  Forall (fun r => exists k0 psn rc, r = RxStateWrite k0 psn rc true) (state_reqs (ibh_process m x true q)).
Proof.
  unfold ibh_process, ibh_accept, ibh_duplicate, ibh_invalid, rxStateReq_psn, rxStateReq_retry.
  repeat match goal with |- context [if ?b then _ else _] => destruct b end;
    try destruct (ibh_op_code m); cbn; repeat constructor; by eexists _, _, _.
Qed.

(** What a request writes. *)
Lemma request_writes m x q :
  checkIfResponse (ibh_op_code m) = false ->
  state_reqs (ibh_process m x false q) =
    if in_order m q then if exh_isNak x then [] else [rxStateReq_psn (ibh_dest_qp m) (ibh_psn m + exh_numPkg x) false]
    else if duplicate q (ibh_psn m) then []
    else [rxStateReq_retry (ibh_dest_qp m) (sr_epsn q) (if sr_retryCounter q =? 7 then 6 else sr_retryCounter q) false].
Proof.
  intros Hr. assert (is_ack m = false) as Ha by (unfold is_ack; apply bool_decide_eq_false_2; intros E; by rewrite E in Hr).
  unfold ibh_process. destruct (in_order m q); [|destruct (duplicate q (ibh_psn m))].
  - unfold ibh_accept. rewrite Ha. cbn [negb andb orb].
    destruct (exh_isNak x), (bool_decide (ibh_op_code m = RC_RDMA_READ_REQUEST)); reflexivity.
  - unfold ibh_duplicate. rewrite Ha. by destruct (bool_decide (ibh_op_code m = RC_RDMA_READ_REQUEST)), (checkIfWrite (ibh_op_code m)).
  - unfold ibh_invalid. rewrite Ha. by destruct (_ =? 7).
Qed.

(** What a packet does to the expected number of a queue pair. *)
Lemma packet_epsn t m x k :
  numbers_fit t ->
  se_resp_epsn (state_at (fst (access_once (t, []) (APacket m x))) k) =
    if decide (u16 (ibh_dest_qp m) = k) then
      if accepts t m && negb (exh_isNak x) then u24 (ibh_psn m + exh_numPkg x) else se_resp_epsn (state_at t k)
    else se_resp_epsn (state_at t k).
Proof.
  intros Hfit. cbn. unfold decide_packet, accepts. destruct (checkIfResponse (ibh_op_code m)) eqn:Hr; cbn [negb andb].
  { rewrite epsn_response_writes by apply response_writes. by destruct (decide _). }
  rewrite request_writes by done. set (q := rx_window _ _).
  destruct (in_order m q), (exh_isNak x), (duplicate q (ibh_psn m)); cbn [foldl negb andb]; unfold rxStateReq_psn, rxStateReq_retry; rewrite ?epsn_write;
    destruct (decide (_ = k)) as [<-|]; try done; apply wrap_small, Hfit.
Qed.

Lemma access_fits t a : numbers_fit t -> numbers_fit (fst (access_once (t, []) a)).
Proof.
  intros Hfit k. destruct a as [m x|k0 psn].
  - rewrite packet_epsn by done. destruct (decide _); [|apply Hfit]. destruct (_ && _); [by apply wrap_range | apply Hfit].
  - cbn. unfold apply_tx. rewrite state_at_insert. destruct (decide _) as [->|]; apply Hfit.
Qed.

Lemma tx_epsn t k0 psn k : se_resp_epsn (state_at (fst (access_once (t, []) (ATx k0 psn))) k) = se_resp_epsn (state_at t k).
Proof. cbn. unfold apply_tx. rewrite state_at_insert. by destruct (decide _) as [->|]. Qed.

Lemma accepted_consecutive k h t :
  numbers_fit t ->
  consecutive (se_resp_epsn (state_at t k)) (to_qp k (acceptances t h)) (se_resp_epsn (state_at (fst (in_sequence t h)) k)).
Proof.
  revert t. induction h as [|a h IH]; intros t Hfit; [done|]. rewrite in_sequence_tbl. cbn [acceptances].
  unfold to_qp in *. rewrite filter_app. pose proof (IH _ (access_fits t a Hfit)) as Hc.
  destruct a as [m x|k0 psn]; [|by rewrite tx_epsn in Hc].
  rewrite packet_epsn in Hc by done. destruct (accepts t m) eqn:Ha; cbn [andb] in Hc.
  - rewrite filter_cons, filter_nil. cbn [fst]. destruct (decide _) as [<-|]; [|done]. cbn.
    unfold accepts, in_order in Ha. apply andb_true_iff in Ha as [Hr Ha]. apply negb_true_iff in Hr.
    apply orb_true_iff in Ha as [Ha|Ha].
    + split; [cbn in Ha; lia|]. by destruct (exh_isNak x).
    + unfold is_ack in Ha. apply bool_decide_eq_true in Ha. by rewrite Ha in Hr.
  - rewrite filter_nil. by destruct (decide _).
Qed.

(** *** What is executed *)

(** Requests that are executed once only: all but reads, whose data may be
    asked for again. *)
Definition once_only (m : ibhMeta) : bool :=
  negb (checkIfResponse (ibh_op_code m)) && negb (bool_decide (ibh_op_code m = RC_RDMA_READ_REQUEST)).
Definition passed_on (m : ibhMeta) : ibhMeta :=
  ibhMeta_psn (ibh_op_code m) (ibh_partition_key m) (ibh_dest_qp m) (ibh_psn m) (ibh_validPSN m).
Definition requests_passed (o : list ibhfsm_out) : list ibhMeta :=
  omap (fun x => match x with BMeta m => if once_only m then Some m else None | _ => None end) o.
Definition requests_accepted (l : list (ibhMeta * exhMeta)) : list ibhMeta :=
  omap (fun p => if once_only (fst p) then Some (passed_on (fst p)) else None) l.

Lemma decide_passes t m x :
  requests_passed (others (decide_packet t m x)) = requests_accepted (if accepts t m then [(m, x)] else []).
Proof.
  assert (once_only (passed_on m) = once_only m) as Ho by done.
  unfold decide_packet, accepts. destruct (checkIfResponse (ibh_op_code m)) eqn:Hr; cbn [negb andb].
  - assert (once_only m = false) as Hf by (unfold once_only; by rewrite Hr).
    unfold ibh_process, ibh_accept, ibh_duplicate, ibh_invalid. fold (passed_on m).
    repeat match goal with |- context [if ?b then _ else _] => lazymatch b with once_only _ => fail | _ => destruct b end end;
      try destruct (ibh_op_code m) eqn:Eop; cbn; rewrite ?Ho, ?Hf; done.
  - set (q := rx_window _ _). unfold ibh_process. destruct (in_order m q); [|destruct (duplicate q (ibh_psn m))].
    + unfold ibh_accept. fold (passed_on m). cbn [andb].
      repeat match goal with |- context [if ?b then _ else _] => lazymatch b with once_only _ => fail | _ => destruct b end end;
        cbn; rewrite Ho; by destruct (once_only m).
    + unfold ibh_duplicate. fold (passed_on m). destruct (bool_decide _) eqn:Er.
      * cbn. rewrite Ho. unfold once_only. rewrite Er. by rewrite andb_false_r.
      * by destruct (checkIfWrite (ibh_op_code m)), (is_ack m).
    + unfold ibh_invalid. by destruct (is_ack m), (sr_retryCounter q =? 7).
Qed.

Lemma others_app a b : others (a ++ b) = others a ++ others b.
Proof. apply omap_app. Qed.

Lemma passed_accepted t out h :
  requests_passed (snd (foldl access_once (t, out) h)) = requests_passed out ++ requests_accepted (acceptances t h).
Proof.
  revert t out. induction h as [|a h IH]; intros t out; cbn [foldl acceptances]; [by rewrite app_nil_r|].
  destruct a as [m x|k psn]; cbn [access_once app]; rewrite IH; [|done].
  unfold requests_passed at 1. rewrite omap_app. fold (requests_passed out).
  fold (requests_passed (others (decide_packet t m x))). rewrite decide_passes. unfold requests_accepted at 3.
  rewrite omap_app. by rewrite app_assoc.
Qed.

(** *** The packets are taken in the order they arrive *)

Definition packets_of (h : list access) : list (ibhMeta * exhMeta) :=
  omap (fun a => match a with APacket m x => Some (m, x) | ATx _ _ => None end) h.
Definition metas (ls : list psn_label) : list ibhMeta := omap (fun l => match l with NMeta m => Some m | _ => None end) ls.
Definition exhs (ls : list psn_label) : list exhMeta := omap (fun l => match l with NExh x => Some x | _ => None end) ls.

(** The packet whose entry has not been read yet. *)
Definition under_way (f : ibhfsm) : list (ibhMeta * exhMeta) :=
  match bf_state f, bf_stateTable_rsp f with PROCESS, [] => [(bf_meta f, bf_emeta f)] | _, _ => [] end.

Definition Taken (t0 : gmap Z stateTableEntry) (ls : list psn_label) (s : psns) : Prop :=
  PsnInv t0 s /\
  (fst <$> (packets_of (pn_hist s) ++ under_way (pn_fsm s))) ++ bf_metaIn (pn_fsm s) = metas ls /\
  (snd <$> (packets_of (pn_hist s) ++ under_way (pn_fsm s))) ++ bf_exhMetaFifo (pn_fsm s) = exhs ls.

#[local] Arguments packets_of h : simpl never.

Lemma packets_snoc h m x : packets_of (h ++ [APacket m x]) = packets_of h ++ [(m, x)].
Proof. unfold packets_of. by rewrite omap_app. Qed.
Lemma packets_snoc_tx h k psn : packets_of (h ++ [ATx k psn]) = packets_of h.
Proof. unfold packets_of. rewrite omap_app. apply app_nil_r. Qed.

Lemma Taken_step t0 ls l s s' : Taken t0 ls s -> psn_step l s = Next s' -> Taken t0 (ls ++ [l]) s'.
Proof.
  intros (HI & Hm & Hx) Hs. pose proof (PsnInv_step _ _ _ _ HI Hs) as HI'. split; [done|]. clear HI'.
  destruct HI as [HI Hqp]. destruct (in_sequence t0 (pn_hist s)) as [te oe]. unfold metas, exhs in *. rewrite !omap_app.
  destruct s as [f t log h]. destruct f as [st m x rsp d mi xi ti]. destruct t as [tb rx tx qp]. cbn in Hqp. subst qp.
  destruct l as [| |m'|x'|q]; cbn -[state_table] in Hs; cbn [omap list_omap]; rewrite ?app_nil_r.
  - inversion HI as [w Hst Hw Hreq Hrsp E|w Hst Hw Hb Hreq Hrsp E|q Hst Hreq Hrsp o' E]; cbn in *; subst; simplify_eq.
    + destruct mi as [|m' mi]; [by simplify_eq|]. destruct xi as [|x' xi]; [by simplify_eq|]. simplify_eq. cbn in *.
      rewrite app_nil_r in Hm, Hx. rewrite !fmap_app. cbn. by rewrite <- Hm, <- Hx, <- !app_assoc.
    + done.
    + done.
  - destruct (state_table (mk_states tb rx tx [])) as [| |[t' o]] eqn:Et; simplify_eq. cbn in Et |- *.
    destruct rx as [|[k b|k psn rc b] rx]; [destruct tx as [|[k|k psn] tx]|..].
    1: simplify_eq.
    2-5: apply at_qp_next in Et as [_ [= <- <-]].
    1-3, 5: cbn; rewrite ?packets_snoc_tx; by rewrite !app_nil_r.
    inversion HI as [w Hst Hw Hreq Hrsp E|w Hst Hw Hb Hreq Hrsp E|q Hst Hreq Hrsp o' E]; cbn in *; subst.
    + apply Forall_cons in Hw as [Hr _]. destruct Hr. by eexists _, _.
    + cbn. by rewrite packets_snoc, app_nil_r.
    + done.
  - simplify_eq. cbn in *. rewrite <- Hm. by rewrite app_assoc.
  - simplify_eq. cbn in *. rewrite <- Hx. by rewrite app_assoc.
  - by simplify_eq.
Qed.

Lemma Taken_run t0 ls s : steps psn_step ls (psns_init t0) = Next s -> Taken t0 ls s.
Proof.
  apply (steps_history _ (Taken t0)).
  - intros h l x x'. apply Taken_step.
  - split; [|done]. split; [|done]. by apply (PIdle (psns_init t0) []).
Qed.
End sequence_numbers.

(** C31: The state machine, the table and the transmit side run concurrently, and
    between reading an entry and writing it back the table serves others.  Every
    run is nevertheless equivalent to one that handles a packet or a write of
    the transmit side at a time, in the order the table is accessed: the packets
    come in the order of their headers, the state machine has written what the
    sequential run writes, up to the decision under way, and when it waits for
    the next packet and its writes are served the tables agree. *)
Theorem rx_psn_sequential `{RoceConfig} (t0 : gmap Z stateTableEntry) ls (s : psns) :
  steps psn_step ls (psns_init t0) = Next s ->
  let '(t, out) := in_sequence t0 (pn_hist s) in
  fst <$> packets_of (pn_hist s) `prefix_of` metas ls /\
  snd <$> packets_of (pn_hist s) `prefix_of` exhs ls /\
  pn_log s `prefix_of` out /\
  (bf_state (pn_fsm s) = LOAD ->
     out = pn_log s /\
     (rxIbh2stateTable_upd_req (pn_tbl s) = [] -> state_tbl (pn_tbl s) = t)).
Proof.
  intros Hs. destruct (Taken_run _ _ _ Hs) as ([HI _] & Hm & Hx). destruct (in_sequence t0 (pn_hist s)) as [t out].
  rewrite fmap_app in Hm. rewrite fmap_app in Hx. rewrite <- Hm, <- Hx, <- !app_assoc.
  split; [by eexists|]. split; [by eexists|].
  inversion HI as [w Hst Hw Hreq Hrsp E|w Hst Hw Hb Hreq Hrsp E|q Hst Hreq Hrsp o' E]; subst.
  - split; [done|]. intros _. split; [done|]. by intros ->.
  - split; [done|]. intros Hl. congruence.
  - split; [by eexists|]. intros Hl. congruence.
Qed.

(** Two writes to queue pair 1, the first of them twice; the transmit side
    counts a packet of its own in between. *)
Definition demo_table : gmap Z stateTableEntry := {[1 := state_setup 5 10]}.
Definition demo_packet (psn : Z) : list psn_label :=
  [NMeta (ibhMeta_psn RC_RDMA_WRITE_ONLY 0 1 psn true); NExh (exhMeta_nak false); NFsm; NTx (TxStateWrite 1 6); NTable;
   NFsm; NTable; NTable].
Definition psn_demo : list psn_label := demo_packet 10 ++ demo_packet 10 ++ demo_packet 11.

Lemma rx_psn_sequential_witness :
  exists s, steps (@psn_step small_roce) psn_demo (psns_init demo_table) = Next s /\
    bf_state (pn_fsm s) = LOAD /\ rxIbh2stateTable_upd_req (pn_tbl s) = [] /\
    state_tbl (pn_tbl s) = fst (in_sequence demo_table (pn_hist s)) /\
    state_at (state_tbl (pn_tbl s)) 1 = mk_state 12 10 6 5 5 7.
Proof.
  destruct (steps (@psn_step small_roce) psn_demo (psns_init demo_table)) as [| |s] eqn:E;
    [exfalso; revert E; vm_compute; discriminate..|].
  exists s. split; [done|].
  assert (bf_state (pn_fsm s) = LOAD) as Hst by (revert E; vm_compute; by intros [= <-]).
  assert (rxIbh2stateTable_upd_req (pn_tbl s) = []) as Hreq by (revert E; vm_compute; by intros [= <-]).
  assert (state_at (state_tbl (pn_tbl s)) 1 = mk_state 12 10 6 5 5 7) as H1 by (revert E; vm_compute; by intros [= <-]).
  split; [exact Hst|]. split; [exact Hreq|]. split; [|exact H1].
  pose proof (@rx_psn_sequential small_roce demo_table psn_demo s E) as Ht. clear E.
  destruct (in_sequence demo_table (pn_hist s)) as [t out]. destruct Ht as (_ & _ & _ & Ht).
  exact (proj2 (Ht Hst) Hreq).
Defined.

(** C32: A queue pair accepts the requests whose numbers follow one another without
    a gap from the number its table starts with, a read request taking as many
    numbers as its response has packets; and of the requests that change
    memory exactly the accepted ones are passed on, each once and in order,
    whatever is retransmitted, duplicated or reordered on the way. *)
Theorem requests_in_order `{RoceConfig} (t0 : gmap Z stateTableEntry) ls (s : psns) :
  numbers_fit t0 -> steps psn_step ls (psns_init t0) = Next s ->
  (forall k, consecutive (se_resp_epsn (state_at t0 k)) (to_qp k (acceptances t0 (pn_hist s)))
               (se_resp_epsn (state_at (fst (in_sequence t0 (pn_hist s))) k))) /\
  requests_passed (pn_log s) `prefix_of` requests_accepted (acceptances t0 (pn_hist s)) /\
  (bf_state (pn_fsm s) = LOAD -> requests_passed (pn_log s) = requests_accepted (acceptances t0 (pn_hist s))).
Proof.
  intros Hfit Hs. split; [intros k; by apply accepted_consecutive|].
  destruct (Taken_run _ _ _ Hs) as ([HI _] & _). pose proof (passed_accepted t0 [] (pn_hist s)) as Hp.
  unfold in_sequence in HI. destruct (foldl access_once (t0, []) (pn_hist s)) as [t out]. cbn [snd] in Hp.
  cbn [app requests_passed omap list_omap] in Hp. rewrite <- Hp.
  inversion HI as [w Hst Hw Hreq Hrsp E|w Hst Hw Hb Hreq Hrsp E|q Hst Hreq Hrsp o' E]; subst; [done..|].
  split; [|congruence]. unfold requests_passed at 2. rewrite omap_app. by eexists.
Qed.

Lemma requests_in_order_witness :
  exists s, steps (@psn_step small_roce) psn_demo (psns_init demo_table) = Next s /\
    requests_passed (pn_log s) =
      [ibhMeta_psn RC_RDMA_WRITE_ONLY 0 1 10 true; ibhMeta_psn RC_RDMA_WRITE_ONLY 0 1 11 true] /\
    requests_passed (pn_log s) = requests_accepted (acceptances demo_table (pn_hist s)).
Proof.
  destruct (steps (@psn_step small_roce) psn_demo (psns_init demo_table)) as [| |s] eqn:E;
    [exfalso; revert E; vm_compute; discriminate..|].
  exists s. split; [done|].
  assert (bf_state (pn_fsm s) = LOAD) as Hst by (revert E; vm_compute; by intros [= <-]).
  split; [revert E; vm_compute; by intros [= <-]|].
  assert (numbers_fit demo_table) as Hfit.
  { intros k. unfold state_at, demo_table. destruct (decide (1 = k)) as [<-|Hne];
      [rewrite lookup_singleton_eq | rewrite lookup_singleton_ne by exact Hne]; vm_compute; intuition discriminate. }
  exact (proj2 (proj2 (@requests_in_order small_roce demo_table psn_demo s Hfit E)) Hst).
Defined.
