(* ===== verification/IbTx.v ===== *)
(** The transmit path of the RoCE transport ([ib_transport_protocol.cpp]): the
    processes that turn local requests, retransmissions, read responses and
    acknowledgements into packets, from the memory commands that fetch the
    payload to the two headers in front of it, and the configuration of a queue
    pair.  Each process is a function of its static variables and input
    streams; a call is one iteration. *)
From stdpp Require Import base numbers list strings.
From Stdlib Require Import ZArith Lia.
From S2P Require Import Prelude Axi IbTypes IbTables.

Local Open Scope Z_scope.

(** ** [local_req_handler] *)

Record reqh : Type := mk_reqh {
  lr_retransCount : Z; lr_retransEventFifo : list retransEvent; lr_sq_meta : list txMeta }.

Inductive reqh_out : Type :=
| LMeta (e : event)              (* tx_localTxMeta *)
| LMem (c : memCmdInternal)      (* tx_local_memCmdFifo *)
| LAddrLen (a : retransAddrLen). (* tx2retrans_insertAddrLen *)

(** The operations that read memory for their payload. *)
Definition has_payload (c : ibOpCode) : bool :=
  match c with
  | RC_RDMA_WRITE_MIDDLE | RC_RDMA_WRITE_FIRST | RC_RDMA_WRITE_LAST | RC_RDMA_WRITE_ONLY
  | RC_SEND_ONLY | RC_SEND_FIRST | RC_SEND_MIDDLE | RC_SEND_LAST => true
  | _ => false
  end.

(** [lr_retransCount] is also the value of the register [regRetransCount]. *)
Definition local_req_handler (s : reqh) : reqh * list reqh_out :=
  match s with
  | mk_reqh cnt (r :: evs) sq =>
      let p := rv_payload r in
      (mk_reqh (u32 (cnt + 1)) evs sq,
       LMeta (event_psn (rp_opCode p) (rv_qpn r) (rp_remoteAddr p) (rp_length p) (rp_psn p)) ::
       if bool_decide (rp_opCode p = RC_RDMA_READ_REQUEST) then []
       else [LMem (memCmdInternal_sync (rp_opCode p) (rv_qpn r) (rp_localAddr p) (rp_length p) PKG_INT (rp_offs p))])
  | mk_reqh cnt [] (m :: sq) =>
      let laddr := bits (tm_params m) 0 64 in
      let raddr := bits (tm_params m) 64 64 in
      let len := bits (tm_params m) 128 32 in
      let op := tm_op_code m in
      (mk_reqh cnt [] sq,
       (if bool_decide (op = RC_RDMA_READ_REQUEST) || has_payload op
        then [LMeta (event_local op (tm_qpn m) raddr len)] else []) ++
       (if has_payload op then [LMem (memCmdInternal_new op (tm_qpn m) laddr len (tm_host m))] else []) ++
       [LAddrLen (mk_retransAddrLen laddr raddr len (tm_lst m) (tm_offs m))])
  | _ => (s, [])
  end.

(** ** [mem_cmd_merger] *)

Record cmdm : Type := mk_cmdm { remoteReadRequests : list memCmdInternal; localReadRequests : list memCmdInternal }.
Inductive cmdm_out : Type := CMem (c : memCmd) | CInfo (i : pkgInfo).

Section mem_cmd_merger.
Context `{RoceConfig}.

Definition payload_words (len : Z) : Z := u29 ((len + WIDTH / 8 - 1) / (WIDTH / 8)).

Definition remote_cmd (c : memCmdInternal) : list cmdm_out :=
  let cmd ctl := CMem (memCmd_qpn (mi_addr c) (mi_len c) ctl (mi_host c) (mi_qpn c)) in
  let info t := CInfo (mk_pkgInfo t (payload_words (mi_len c))) in
  match mi_op_code c with
  | RC_RDMA_READ_RESP_ONLY | RC_RDMA_READ_RESP_LAST => [cmd PKG_F; info AETH]
  | RC_RDMA_READ_RESP_MIDDLE => [cmd PKG_NF; info RAW]
  | RC_RDMA_READ_RESP_FIRST => [cmd PKG_NF; info AETH]
  | _ => []
  end.

Definition local_cmd (c : memCmdInternal) : list cmdm_out :=
  let cmd ctl := CMem (if mi_sync c =? 1
    then memCmd_sync (mi_addr c) (mi_len c) ctl SYNC (mi_host c) (mi_offs c) (mi_qpn c)
    else memCmd_qpn (mi_addr c) (mi_len c) ctl (mi_host c) (mi_qpn c)) in
  let info t := CInfo (mk_pkgInfo t (payload_words (mi_len c))) in
  match mi_op_code c with
  | RC_RDMA_WRITE_ONLY => [cmd PKG_F; info RETH]
  | RC_RDMA_WRITE_FIRST => [cmd PKG_NF; info RETH]
  | RC_RDMA_WRITE_MIDDLE | RC_SEND_FIRST | RC_SEND_MIDDLE => [cmd PKG_NF; info RAW]
  | RC_RDMA_WRITE_LAST | RC_SEND_LAST => [cmd PKG_F; info RAW]
  | RC_SEND_ONLY => [cmd PKG_F; info RAW]
  | _ => []
  end.

Definition mem_cmd_merger (s : cmdm) : cmdm * list cmdm_out :=
  match s with
  | mk_cmdm (c :: rem) loc => (mk_cmdm rem loc, remote_cmd c)
  | mk_cmdm [] (c :: loc) => (mk_cmdm [] loc, local_cmd c)
  | _ => (s, [])
  end.
End mem_cmd_merger.

(** ** [tx_pkg_arbiter]: the payload is cut into packets *)

(** [ar_state]: the packet forwarded, nothing in [IDLE]. *)
Record arb : Type := mk_arb {
  ar_state : option pkgType; ar_wordCounter : Z; ar_pkgInfoFifo : list pkgInfo; ar_mem_read_data : list net_axis }.

Section tx_pkg_arbiter.
Context `{RoceConfig}.

Definition PMTU_WORDS : Z := u16 (PMTU / (WIDTH / 8)).

(** A word goes to the stream of the packet's kind. *)
Definition tx_pkg_arbiter (s : arb) : arb * list (pkgType * net_axis) :=
  match s with
  | mk_arb None cnt (i :: infos) data =>
      (mk_arb (Some (match pi_type i with AETH => AETH | RETH => RETH | _ => RAW end)) 0 infos data, [])
  | mk_arb (Some t) cnt infos (w :: data) =>
      let cnt' := u8 (cnt + 1) in
      let last := a_last w || (cnt' =? PMTU_WORDS) in
      (mk_arb (if last then None else Some t) cnt' infos data,
       [(t, mk_axis (a_data w) (a_keep w) last)])
  | _ => (s, [])
  end.
End tx_pkg_arbiter.

(** ** [meta_merger] *)

Record metam : Type := mk_metam {
  mm_rx_ackEventFifo : list ackEvent; mm_rx_readEvenFifo : list event; mm_tx_appMetaFifo : list event }.
Inductive metam_out : Type :=
| TConn (qpn : Z)        (* tx_connTable_req *)
| TIbh (m : ibhMeta)     (* tx_ibhMetaFifo *)
| TExh (e : event).      (* tx_exhMetaFifo *)

Section meta_merger.
Context `{RoceConfig}.
(** What the unset fields of an event made from an acknowledgement hold. *)
Context (addr0 len0 : Z).

Definition meta_merger (s : metam) : metam * list metam_out :=
  match s with
  | mk_metam (a :: acks) reads app =>
      (mk_metam acks reads app,
       [TConn (bits (ae_qpn a) 0 16); TIbh (ibhMeta_psn RC_ACK 0 (ae_qpn a) (ae_psn a) (ae_validPsn a));
        TExh (event_of_ack a addr0 len0)])
  | mk_metam [] (e :: reads) app =>
      (mk_metam [] reads app,
       [TConn (bits (ev_qpn e) 0 16); TIbh (ibhMeta_psn (ev_op_code e) 0 (ev_qpn e) (ev_psn e) (ev_validPsn e)); TExh e])
  | mk_metam [] [] (e :: app) =>
      let numPkg := if bool_decide (ev_op_code e = RC_RDMA_READ_REQUEST)
                    then u22 ((ev_length e + (PMTU - 1)) / PMTU) else 1 in
      (mk_metam [] [] app,
       [TConn (bits (ev_qpn e) 0 16);
        TIbh (if ev_validPsn e then ibhMeta_psn (ev_op_code e) 0 (ev_qpn e) (ev_psn e) (ev_validPsn e)
              else ibhMeta_count (ev_op_code e) 0 (ev_qpn e) numPkg);
        TExh e])
  | _ => (s, [])
  end.
End meta_merger.

(** ** [generate_ibh]: packet numbers *)

Inductive giState : Type := GI_META | GET_PSN.

Record gibh : Type := mk_gibh {
  gi_state : giState; gi_header : packetHeader; gi_meta : ibhMeta;
  gi_metaIn : list ibhMeta; gi_dstQpIn : list Z; gi_stateTable_rsp : list stateTableEntry }.

Inductive gibh_out : Type :=
| GState (q : txStateReq)         (* txIbh2stateTable_upd_req *)
| GRetrans (m : retransMeta)      (* tx2retrans_insertMeta *)
| GHeader (h : packetHeader).     (* tx_ibhHeaderFifo *)

Definition gibh_init : gibh := mk_gibh GI_META header_new (mk_ibhMeta RC_ACK 0 0 0 false 0) [] [] [].

(** The header keeps the fields it is not given. *)
Definition bth_fill (h : packetHeader) (m : ibhMeta) (dstQp : Z) : packetHeader :=
  let v := h_header h in
  mk_header false 0 (bth_setDstQP (bth_setPsn (bth_setPartitionKey (bth_setOpCode v (ibh_op_code m))
                                                 (ibh_partition_key m)) (ibh_psn m)) dstQp).

Definition generate_ibh (s : gibh) : gibh * list gibh_out :=
  match s with
  | mk_gibh GI_META h meta (m :: metaIn) (d :: dstQpIn) rsp =>
      let m' := mk_ibhMeta (ibh_op_code m) 0xFFFF (ibh_dest_qp m) (ibh_psn m) (ibh_validPSN m) (ibh_numPkg m) in
      let h' := bth_fill h m' d in
      if ibh_validPSN m then (mk_gibh GI_META h' m' metaIn dstQpIn rsp, [GHeader h'])
      else (mk_gibh GET_PSN h' m' metaIn dstQpIn rsp, [GState (TxStateRead (u16 (ibh_dest_qp m)))])
  | mk_gibh GET_PSN h m metaIn dstQpIn (q :: rsp) =>
      if bool_decide (ibh_op_code m = RC_ACK) then
        let h' := setRawHeader h (bth_setPsn (h_header h) (u24 (se_resp_epsn q - 1))) in
        (mk_gibh GI_META h' m metaIn dstQpIn rsp, [GHeader h'])
      else
        let h' := setRawHeader h (bth_setAckReq (bth_setPsn (h_header h) (se_req_next_psn q)) true) in
        (mk_gibh GI_META h' m metaIn dstQpIn rsp,
         [GState (TxStateWrite (u16 (ibh_dest_qp m)) (u24 (se_req_next_psn q + ibh_numPkg m)));
          GRetrans (retransMeta_new (ibh_dest_qp m) (se_req_next_psn q) (ibh_op_code m)); GHeader h'])
  | _ => (s, [])
  end.

(** ** [generate_exh]: extension headers and lengths *)

Inductive geState : Type := GE_META | GET_MSN | GE_PROCESS.

Record gexh : Type := mk_gexh {
  ge_state : geState; ge_meta : event; ge_rdmaHeader : packetHeader; ge_ackHeader : packetHeader;
  ge_metaWritten : bool; ge_msnMeta : txMsnRsp; ge_metaIn : list event; ge_msnTable_rsp : list txMsnRsp }.

Inductive gexh_out : Type :=
| XMsn (qpn : Z)                 (* txExh2msnTable_req *)
| XTimer (qpn : Z)               (* txSetTimer_req *)
| XWord (w : net_axis)           (* output *)
| XInfo (i : txPacketInfo)       (* packetInfoFifo *)
| XLength (l : Z).               (* lengthFifo *)

(** The operations whose timer is started. *)
Definition sets_timer (c : ibOpCode) : bool := checkIfWrite c || bool_decide (c = RC_RDMA_READ_REQUEST).

Section generate_exh.
Context `{RoceConfig}.
(** What a new word holds. *)
Context (fill : Z).

(** The word of an acknowledgement header. *)
Definition aeth_word (ah : packetHeader) : packetHeader * net_axis :=
  let '(ah', d, _) := consumeWord WIDTH AETH_SIZE ah fill in
  (ah', mk_axis d (set_bits (set_bits 0 0 (AETH_SIZE / 8) 0xFF) (AETH_SIZE / 8) (WIDTH / 8 - AETH_SIZE / 8) 0) true).

(** The next word of a RDMA header. *)
Definition reth_word (e : event) (k : txMsnRsp) (rh : packetHeader) : packetHeader * net_axis :=
  let rh1 := setRawHeader rh (reth_setRemoteKey (reth_setLength (reth_setVirtualAddress (h_header rh) (ev_addr e))
                                                   (ev_length e)) (tx_r_key k)) in
  let '(rh', d, remaining) := consumeWord WIDTH RETH_SIZE rh1 fill in
  (rh', mk_axis d (Z.ones (WIDTH / 8)) (remaining =? 0)).

Definition ack_header (ah : packetHeader) (syndrome msn : Z) : packetHeader :=
  setRawHeader ah (aeth_setMsn (aeth_setSyndrome (h_header ah) syndrome) msn).

Definition generate_exh (s : gexh) : gexh * list gexh_out :=
  let '(mk_gexh st e rh ah written k metaIn rsp) := s in
  match st with
  | GE_META =>
      match metaIn with
      | e' :: metaIn' =>
          (mk_gexh GET_MSN e' (header_clear rh) (header_clear ah) false k metaIn' rsp,
           XMsn (u16 (ev_qpn e')) :: if sets_timer (ev_op_code e') then [XTimer (ev_qpn e')] else [])
      | [] => (s, [])
      end
  | GET_MSN =>
      match rsp with
      | k' :: rsp' => (mk_gexh GE_PROCESS e rh ah written k' metaIn rsp', [])
      | [] => (s, [])
      end
  | GE_PROCESS =>
      let payload := negb (ev_length e =? 0) in
      let to st' rh' ah' := mk_gexh st' e rh' ah' written k metaIn rsp in
      let reth op_payload len :=
        let '(rh', w) := reth_word e k rh in
        (mk_gexh (if a_last w then GE_META else GE_PROCESS) e rh' ah true k metaIn rsp,
         XWord w :: if written then [] else [XInfo (mk_txInfo false true op_payload); XLength (u16 len)]) in
      let raw aeth := (to GE_META rh ah, [XInfo (mk_txInfo aeth false payload); XLength (u16 (12 + ev_length e + 4))]) in
      let aeth syndrome op_payload len :=
        let '(ah', w) := aeth_word (ack_header ah syndrome (tx_msn k)) in
        (to GE_META rh ah', [XInfo (mk_txInfo true true op_payload); XWord w; XLength (u16 len)]) in
      match ev_op_code e with
      | RC_RDMA_WRITE_ONLY => reth payload (12 + 16 + ev_length e + 4)
      | RC_RDMA_WRITE_FIRST => reth payload (12 + 16 + PMTU + 4)
      | RC_RDMA_READ_REQUEST => reth false (12 + 16 + 0 + 4)
      | RC_RDMA_WRITE_MIDDLE | RC_RDMA_WRITE_LAST
      | RC_SEND_ONLY | RC_SEND_FIRST | RC_SEND_MIDDLE | RC_SEND_LAST => raw false
      | RC_RDMA_READ_RESP_MIDDLE => raw true
      | RC_RDMA_READ_RESP_ONLY | RC_RDMA_READ_RESP_FIRST | RC_RDMA_READ_RESP_LAST =>
          aeth 0x1f payload (12 + 4 + ev_length e + 4)
      | RC_ACK => aeth (if ev_isNak e then 0x60 else 0x1f) false (12 + 4 + 4)
      | _ => (s, [])
      end
  end.
End generate_exh.

(** ** [append_payload] *)

Inductive apState : Type := INFO | HEADER | AETH_PAYLOAD | RETH_PAYLOAD | RAW_PAYLOAD.

Record appender : Type := mk_appender {
  ap_state : apState; ap_prevWord : net_axis; ap_firstPayload : bool; ap_info : txPacketInfo;
  ap_packetInfoFifo : list txPacketInfo; ap_headerFifo : list net_axis;
  ap_aethPayloadFifo : list net_axis; ap_rethPayloadFifo : list net_axis; ap_rawPayloadFifo : list net_axis }.

Section append_payload.
Context `{RoceConfig}.

Definition append_payload (s : appender) : appender * list net_axis :=
  let '(mk_appender st prev first info infos hdr ae re raw) := s in
  let back (w : net_axis) st' := if a_last w then INFO else st' in
  match st with
  | INFO =>
      match infos with
      | i :: infos' => (mk_appender (if ti_hasHeader i then HEADER else RAW_PAYLOAD) prev true i infos' hdr ae re raw, [])
      | [] => (s, [])
      end
  | HEADER =>
      match hdr with
      | w :: hdr' =>
          if negb (a_last w) then (mk_appender HEADER w first info infos hdr' ae re raw, [w])
          else if negb (ti_hasPayload info) then (mk_appender INFO w first info infos hdr' ae re raw, [w])
          else
            let w' := mk_axis (a_data w) (a_keep w) false in
            if ti_isAETH info then (mk_appender AETH_PAYLOAD w' first info infos hdr' ae re raw, [])
            else (mk_appender RETH_PAYLOAD w' first info infos hdr' ae re raw, if WIDTH <=? RETH_SIZE then [w'] else [])
      | [] => (s, [])
      end
  | AETH_PAYLOAD =>
      match ae with
      | c :: ae' =>
          (mk_appender (back c AETH_PAYLOAD) prev false info infos hdr ae' re raw,
           [if first then mk_axis (set_bits (a_data c) 0 32 (bits (a_data prev) 0 32)) (a_keep c) (a_last c) else c])
      | [] => (s, [])
      end
  | RETH_PAYLOAD =>
      match re with
      | c :: re' =>
          let merge := first && (RETH_SIZE <? WIDTH) in
          (mk_appender (back c RETH_PAYLOAD) prev (if merge then false else first) info infos hdr ae re' raw,
           [if merge then mk_axis (set_bits (a_data c) 0 128 (bits (a_data prev) 0 128)) (a_keep c) (a_last c) else c])
      | [] => (s, [])
      end
  | RAW_PAYLOAD =>
      match raw with
      | c :: raw' => (mk_appender (back c RAW_PAYLOAD) prev first info infos hdr ae re raw', [c])
      | [] => (s, [])
      end
  end.
End append_payload.

(** ** [prepend_ibh_header] *)

Inductive pihState : Type := GET_HEADER | PIH_HEADER | PARTIAL_HEADER | BODY.

Record prepender : Type := mk_prepender {
  ph_state : pihState; ph_header : packetHeader; ph_validTx : Z;
  ph_ibhHeaderFifo : list packetHeader; ph_ibhPayloadFifo : list net_axis }.

Section prepend_ibh_header.
Context `{RoceConfig}.
(** What a new word holds. *)
Context (fill : Z).

(** [ph_validTx] is also the value of the register [regIbvCountTx]. *)
Definition prepend_ibh_header (s : prepender) : prepender * list net_axis :=
  let '(mk_prepender st h cnt hdrs input) := s in
  match st with
  | GET_HEADER =>
      match hdrs with
      | h' :: hdrs' => (mk_prepender (if WIDTH <=? BTH_SIZE then PIH_HEADER else PARTIAL_HEADER) h' cnt hdrs' input, [])
      | [] => (s, [])
      end
  | PIH_HEADER =>
      let '(h', d, remaining) := consumeWord WIDTH BTH_SIZE h fill in
      (mk_prepender (if remaining <? WIDTH / 8 then PARTIAL_HEADER else PIH_HEADER) h' (u32 (cnt + 1)) hdrs input,
       [mk_axis d (Z.ones (WIDTH / 8)) false])
  | PARTIAL_HEADER =>
      match input with
      | w :: input' =>
          let '(h', d, _) := consumeWord WIDTH BTH_SIZE h (a_data w) in
          (mk_prepender (if a_last w then GET_HEADER else BODY) h' (u32 (cnt + 1)) hdrs input',
           [mk_axis d (a_keep w) (a_last w)])
      | [] => (s, [])
      end
  | BODY =>
      match input with
      | w :: input' => (mk_prepender (if a_last w then GET_HEADER else BODY) h (u32 (cnt + 1)) hdrs input', [w])
      | [] => (s, [])
      end
  end.
End prepend_ibh_header.

(** ** Addresses, queue pairs, merging *)

(** [tx_ipUdpMetaMerger]: the address of the packet and the remote queue pair. *)
Definition tx_ipUdpMetaMerger (s : list connTableEntry * list Z) :
    (list connTableEntry * list Z) * list (ipUdpMeta * Z) :=
  match s with
  | (c :: conns, l :: lens) =>
      ((conns, lens), [(ipUdpMeta_new (ce_remote_ip_address c) RDMA_DEFAULT_PORT (ce_remote_udp_port c) l,
                        ce_remote_qpn c)])
  | _ => (s, [])
  end.

(** [qp_interface]: [qi_context] is the context in the state [UPD_STATE]. *)
Record qpif : Type := mk_qpif {
  qi_context : option qpContext; qi_contextIn : list qpContext; qi_stateTable_rsp : list stateTableEntry }.
Inductive qpif_out : Type := QState (q : ifStateReq) | QMsn (q : ifMsnReq).

Definition qp_interface (s : qpif) : qpif * list qpif_out :=
  match s with
  | mk_qpif None (c :: ctxs) rsp => (mk_qpif (Some c) ctxs rsp, [QState (IfStateRead (u16 (qc_qp_num c)))])
  | mk_qpif (Some c) ctxs (_ :: rsp) =>
      (mk_qpif None ctxs rsp,
       [QState (IfStateWrite (u16 (qc_qp_num c)) (qc_newState c) (u24 (qc_remote_psn c)) (u24 (qc_local_psn c)));
        QMsn (mk_ifMsn (u16 (qc_qp_num c)) (u32 (qc_r_key c)))])
  | _ => (s, [])
  end.

Definition three_merger (s : list event * list event * list event) :
    (list event * list event * list event) * list event :=
  match s with
  | (e :: in0, in1, in2) => ((in0, in1, in2), [e])
  | ([], e :: in1, in2) => (([], in1, in2), [e])
  | ([], [], e :: in2) => (([], [], in2), [e])
  | ([], [], []) => (s, [])
  end.

Definition merge_retrans_request (s : list retransMeta * list retransAddrLen) :
    (list retransMeta * list retransAddrLen) * list retransEntry :=
  match s with
  | (m :: metas, a :: addrs) => ((metas, addrs), [retransEntry_merge m a])
  | _ => (s, [])
  end.
