(* ===== verification/IbTxFacts.v ===== *)
(** Theorems on the transmit path (IbTx): the packet numbers of requests, how a
    packet is put together, and the header every packet gets. *)
From stdpp Require Import base numbers list gmap fin_maps strings.
From Stdlib Require Import ZArith Lia.
From S2P Require Import Prelude Axi IbTypes IbTables IbRx IbRxFacts IbTx.

Local Open Scope Z_scope.

(** ** Packet numbers of requests *)

Section numbering.
Context `{RoceConfig}.

(** [generate_ibh] and the table, with the receive side as environment.
    [gn_log]: the packets with what the process writes when it finishes them. *)
Record gens : Type := mk_gens { gn_gen : gibh; gn_tbl : states; gn_log : list (ibhMeta * list gibh_out) }.

Inductive gen_label : Type :=
| NGen | NServe
| NIbhMeta (m : ibhMeta) | NDstQp (d : Z)   (* the merger and the connection table *)
| NRx (r : rxStateReq).                     (* the receive side *)

Definition tx_reqs (o : list gibh_out) : list txStateReq := omap (fun x => match x with GState q => Some q | _ => None end) o.
Definition to_tx (o : list state_out) : list stateTableEntry := omap (fun x => match x with SToTx e => Some e | _ => None end) o.
Definition finished (o : list gibh_out) : bool := existsb (fun x => match x with GHeader _ => true | _ => false end) o.

Definition push_entries (l : list stateTableEntry) (g : gibh) : gibh :=
  let '(mk_gibh st h m mi di rsp) := g in mk_gibh st h m mi di (rsp ++ l).
Definition push_ibh (l : list ibhMeta) (g : gibh) : gibh :=
  let '(mk_gibh st h m mi di rsp) := g in mk_gibh st h m (mi ++ l) di rsp.
Definition push_dst (l : list Z) (g : gibh) : gibh :=
  let '(mk_gibh st h m mi di rsp) := g in mk_gibh st h m mi (di ++ l) rsp.

Definition gen_step (l : gen_label) (s : gens) : step_result gens :=
  let '(mk_gens g t log) := s in
  match l with
  | NGen =>
      let '(g', o) := generate_ibh g in
      Next (mk_gens g' (push_tx (tx_reqs o) t) (log ++ if finished o then [(gi_meta g', o)] else []))
  | NServe =>
      match state_table t with
      | Next (t', o) => Next (mk_gens (push_entries (to_tx o) g) t' log)
      | Blocked => Blocked
      | StepUndef e => StepUndef e
      end
  | NIbhMeta m => Next (mk_gens (push_ibh [m] g) t log)
  | NDstQp d => Next (mk_gens (push_dst [d] g) t log)
  | NRx r => Next (mk_gens g (push_reqs [r] t) log)
  end.

Definition gens_init (t0 : gmap Z stateTableEntry) : gens := mk_gens gibh_init (mk_states t0 [] [] []) [].

(** The requests of queue pair [k]: neither acknowledgements nor packets that
    come with their number. *)
Definition is_local (k : Z) (m : ibhMeta) : bool :=
  negb (ibh_validPSN m) && negb (bool_decide (ibh_op_code m = RC_ACK)) && (u16 (ibh_dest_qp m) =? k).
Definition locals (k : Z) (log : list (ibhMeta * list gibh_out)) : list (ibhMeta * list gibh_out) :=
  filter (fun p => is_local k (fst p) = true) log.

(** Their numbers follow one another: each is in the header, is recorded for a
    retransmission, and leaves room for the packets of its response. *)
Fixpoint numbered (e : Z) (l : list (ibhMeta * list gibh_out)) (e' : Z) : Prop :=
  match l with
  | [] => e = e'
  | (m, o) :: l' =>
      (exists h, o = [GState (TxStateWrite (u16 (ibh_dest_qp m)) (u24 (e + ibh_numPkg m)));
                      GRetrans (retransMeta_new (ibh_dest_qp m) e (ibh_op_code m)); GHeader h] /\
                 bth_getPsn (h_header h) = e) /\
      numbered (u24 (e + ibh_numPkg m)) l' e'
  end.

Lemma numbered_snoc e l e1 m o e2 :
  numbered e l e1 -> numbered e1 [(m, o)] e2 -> numbered e (l ++ [(m, o)]) e2.
Proof.
  revert e. induction l as [|[m' o'] l IH]; intros e Hl Hs; cbn in Hl.
  - by subst.
  - destruct Hl as [Ho Hl]. split; [done|]. by apply IH.
Qed.

Definition next_psn (t : gmap Z stateTableEntry) (k : Z) : Z := se_req_next_psn (state_at t k).
Definition psns_fit (t : gmap Z stateTableEntry) : Prop := forall k, fits 24 (next_psn t k).

(** What the next number of [k] is once the requests [w] are served. *)
Definition pending (w : list txStateReq) (k d : Z) : Z :=
  foldl (fun d q => match q with TxStateWrite j p => if decide (j = k) then p else d | TxStateRead _ => d end) d w.

Definition next_after (t : states) (k : Z) : Z := pending (txIbh2stateTable_upd_req t) k (next_psn (state_tbl t) k).

Lemma pending_app w1 w2 k d : pending (w1 ++ w2) k d = pending w2 k (pending w1 k d).
Proof. unfold pending. by rewrite foldl_app. Qed.

(** Where the packet under way is. *)
Inductive GenPhase (s : gens) : Prop :=
| GpIdle (Hst : gi_state (gn_gen s) = GI_META) (Hrsp : gi_stateTable_rsp (gn_gen s) = [])
    (Hw : Forall (fun q => exists j p, q = TxStateWrite j p) (txIbh2stateTable_upd_req (gn_tbl s)))
| GpAsked w (Hst : gi_state (gn_gen s) = GET_PSN) (Hrsp : gi_stateTable_rsp (gn_gen s) = [])
    (Hv : ibh_validPSN (gi_meta (gn_gen s)) = false)
    (Hq : txIbh2stateTable_upd_req (gn_tbl s) = w ++ [TxStateRead (u16 (ibh_dest_qp (gi_meta (gn_gen s))))])
    (Hw : Forall (fun q => exists j p, q = TxStateWrite j p) w)
| GpTold q (Hst : gi_state (gn_gen s) = GET_PSN) (Hrsp : gi_stateTable_rsp (gn_gen s) = [q])
    (Hv : ibh_validPSN (gi_meta (gn_gen s)) = false)
    (Hq : txIbh2stateTable_upd_req (gn_tbl s) = [])
    (He : se_req_next_psn q = next_psn (state_tbl (gn_tbl s)) (u16 (ibh_dest_qp (gi_meta (gn_gen s))))).

Definition GenInv (t0 : gmap Z stateTableEntry) (s : gens) : Prop :=
  GenPhase s /\ qpi2stateTable_upd_req (gn_tbl s) = [] /\
  forall k, fits 24 (next_after (gn_tbl s) k) /\
            numbered (next_psn t0 k) (locals k (gn_log s)) (next_after (gn_tbl s) k).

Lemma next_psn_insert (t : gmap Z stateTableEntry) i e k : next_psn (<[i := e]> t) k = if decide (i = k) then se_req_next_psn e else next_psn t k.
Proof. unfold next_psn. rewrite state_at_insert. by destruct (decide (i = k)). Qed.

(** The receive side does not touch the numbers of requests. *)
Lemma next_psn_rx (t : gmap Z stateTableEntry) i psn rc (rsp : bool) k :
  next_psn (<[i := if rsp then set_unack psn (state_at t i) else set_epsn psn rc (state_at t i)]> t) k = next_psn t k.
Proof. rewrite next_psn_insert. destruct (decide (i = k)) as [->|]; [|done]. by destruct rsp. Qed.

Lemma next_psn_tx (t : gmap Z stateTableEntry) i psn k : next_psn (<[i := set_next_psn psn (state_at t i)]> t) k = if decide (i = k) then psn else next_psn t k.
Proof. by rewrite next_psn_insert. Qed.

#[local] Arguments next_psn t k : simpl never.
#[local] Arguments pending w k d : simpl never.

(** Serving a request of the transmit side. *)
Lemma pending_write j p w k d : pending (TxStateWrite j p :: w) k d = pending w k (if decide (j = k) then p else d).
Proof. done. Qed.

Lemma serve_phase t0 g t log t' o :
  GenInv t0 (mk_gens g t log) -> state_table t = Next (t', o) ->
  GenInv t0 (mk_gens (push_entries (to_tx o) g) t' log).
Proof.
  intros (HI & Hqp & Hn) Et. destruct g as [st h m mi di rsp]. destruct t as [tb rx tx qp]. cbn in Hqp. subst qp.
  unfold GenInv, next_after in *. cbn [gn_tbl gn_log txIbh2stateTable_upd_req state_tbl qpi2stateTable_upd_req] in *.
  destruct rx as [|[i b|i psn rc b] rx]; [destruct tx as [|[i|i psn] tx]|..]; cbn in Et.
  - simplify_eq. cbn. rewrite app_nil_r. done.
  - apply at_qp_next in Et as [_ [= <- <-]]. cbn.
    inversion HI as [Hst Hrsp Hw|w Hst Hrsp Hv Hq Hw|q Hst Hrsp Hv Hq He]; cbn in *; subst; [| |done].
    + apply Forall_cons in Hw as [(? & ? & ?) _]. done.
    + destruct w as [|q w]; [|apply Forall_cons in Hw as [(? & ? & ->) _]; done].
      cbn in Hq. simplify_eq. split; [|done]. by eapply GpTold.
  - apply at_qp_next in Et as [_ [= <- <-]]. cbn. rewrite app_nil_r.
    inversion HI as [Hst Hrsp Hw|w Hst Hrsp Hv Hq Hw|q Hst Hrsp Hv Hq He]; cbn in *; subst; [| |done].
    + apply Forall_cons in Hw as [_ Hw]. split; [by apply GpIdle|]. split; [done|].
      intros k. rewrite next_psn_tx. apply Hn.
    + destruct w as [|q w]; [done|]. cbn in Hq. simplify_eq. apply Forall_cons in Hw as [_ Hw].
      split; [by eapply GpAsked|]. split; [done|]. intros k. rewrite next_psn_tx. apply Hn.
  - apply at_qp_next in Et as [_ [= <- <-]]. cbn. rewrite app_nil_r. split; [|done].
    inversion HI as [Hst Hrsp Hw|w Hst Hrsp Hv Hq Hw|q Hst Hrsp Hv Hq He]; cbn in *; subst;
      [by apply GpIdle | by eapply GpAsked | by eapply GpTold].
  - apply at_qp_next in Et as [_ [= <- <-]]. cbn. rewrite app_nil_r.
    split; [|split; [done|]; intros k; rewrite next_psn_rx; apply Hn].
    inversion HI as [Hst Hrsp Hw|w Hst Hrsp Hv Hq Hw|q Hst Hrsp Hv Hq He]; cbn in *; subst;
      [by apply GpIdle | by eapply GpAsked | eapply GpTold; try done; cbn; by rewrite next_psn_rx].
Qed.

Lemma psn_field (h psn : Z) (b : bool) : fits 24 psn -> bth_getPsn (bth_setAckReq (bth_setPsn h psn) b) = psn.
Proof.
  intros Hf. unfold bth_getPsn, bth_setAckReq, bth_setPsn. rewrite bits_set_bits_ne by lia. by apply bytes_field3.
Qed.

Lemma gen_phase t0 g t log g' o :
  GenInv t0 (mk_gens g t log) -> generate_ibh g = (g', o) ->
  GenInv t0 (mk_gens g' (push_tx (tx_reqs o) t) (log ++ if finished o then [(gi_meta g', o)] else [])).
Proof.
  intros (HI & Hqp & Hn) Eg. destruct g as [st h m mi di rsp]. destruct t as [tb rx tx qp]. cbn in Hqp. subst qp.
  unfold GenInv, next_after in *. cbn [gn_tbl gn_log txIbh2stateTable_upd_req state_tbl qpi2stateTable_upd_req] in *.
  inversion HI as [Hst Hrsp Hw|w Hst Hrsp Hv Hq Hw|q Hst Hrsp Hv Hq He]; cbn in Hst, Hrsp; subst; cbn in Eg.
  - destruct mi as [|m' mi]; [|destruct di as [|d di]].
    1, 2: simplify_eq; cbn; rewrite !app_nil_r; split; [by apply GpIdle | done].
    destruct (ibh_validPSN m') eqn:Ev; simplify_eq; cbn.
    + rewrite app_nil_r. split; [by apply GpIdle|]. split; [done|]. intros k. unfold locals. rewrite filter_app.
      rewrite filter_cons_False, filter_nil, app_nil_r; [apply Hn|]. by cbn.
    + rewrite app_nil_r. split; [by eapply GpAsked|]. split; [done|]. intros k. rewrite pending_app. apply Hn.
  - simplify_eq. cbn. rewrite !app_nil_r. split; [by eapply GpAsked | done].
  - cbn in Hv, Hq, He. subst tx. destruct (bool_decide (ibh_op_code m = RC_ACK)) eqn:Ha; simplify_eq; cbn.
    + split; [by apply GpIdle|]. split; [done|]. intros k. unfold locals. rewrite filter_app.
      rewrite filter_cons_False, filter_nil, app_nil_r; [apply Hn|]. cbn. unfold is_local. by rewrite Ha, andb_false_r.
    + split; [apply GpIdle; try done; cbn; constructor; [by eexists _, _ | done]|]. split; [done|].
      intros k. specialize (Hn k) as [Hf Hl]. rewrite pending_write. unfold pending in *. cbn [foldl] in *.
      unfold locals in *. rewrite filter_app, filter_cons, filter_nil. cbn [fst].
      assert (is_local k m = (u16 (ibh_dest_qp m) =? k)) as -> by (unfold is_local; by rewrite Hv, Ha).
      destruct (decide (u16 (ibh_dest_qp m) = k)) as [<-|Hne].
      * split; [by apply wrap_range|]. rewrite decide_True by lia. eapply numbered_snoc; [exact Hl|].
        cbn [numbered]. rewrite He. split; [|done]. eexists. split; [done|]. by apply psn_field.
      * rewrite decide_False by lia. rewrite app_nil_r. done.
Qed.

Lemma GenInv_step t0 l s s' : GenInv t0 s -> gen_step l s = Next s' -> GenInv t0 s'.
Proof.
  intros HI Hs. destruct s as [g t log]. destruct l as [| |m|d|r]; cbn in Hs.
  - destruct (generate_ibh g) as [g' o] eqn:Eg. simplify_eq. by apply gen_phase with (g := g).
  - destruct (state_table t) as [| |[t' o]] eqn:Et; simplify_eq. by apply serve_phase with (t := t).
  - simplify_eq. destruct g. destruct HI as (HI & Hn). split; [|done].
    inversion HI; cbn in *; subst; [by apply GpIdle | by eapply GpAsked | by eapply GpTold].
  - simplify_eq. destruct g. destruct HI as (HI & Hn). split; [|done].
    inversion HI; cbn in *; subst; [by apply GpIdle | by eapply GpAsked | by eapply GpTold].
  - simplify_eq. destruct t. destruct HI as (HI & Hn). split; [|done].
    inversion HI; cbn in *; subst; [by apply GpIdle | by eapply GpAsked | by eapply GpTold].
Qed.

Lemma GenInv_run t0 ls s : psns_fit t0 -> steps gen_step ls (gens_init t0) = Next s -> GenInv t0 s.
Proof.
  intros Hfit Hs. refine (steps_invariant _ (fun _ => True) (GenInv t0) _ ls _ _ _ _ Hs).
  - intros l x x' _. apply GenInv_step.
  - by apply Forall_true.
  - split; [by apply GpIdle|]. split; [done|]. intros k. split; [apply Hfit | done].
Qed.

(** *** Packets leave in the order of their meta data *)

Definition with_key (m : ibhMeta) : ibhMeta :=
  mk_ibhMeta (ibh_op_code m) 0xFFFF (ibh_dest_qp m) (ibh_psn m) (ibh_validPSN m) (ibh_numPkg m).
Definition ibh_metas (ls : list gen_label) : list ibhMeta := omap (fun l => match l with NIbhMeta m => Some m | _ => None end) ls.
Definition numbering (g : gibh) : list ibhMeta := match gi_state g with GET_PSN => [gi_meta g] | GI_META => [] end.

Definition Ordered (ls : list gen_label) (s : gens) : Prop :=
  (fst <$> gn_log s) ++ numbering (gn_gen s) ++ (with_key <$> gi_metaIn (gn_gen s)) = with_key <$> ibh_metas ls.

Lemma Ordered_step ls l s s' : Ordered ls s -> gen_step l s = Next s' -> Ordered (ls ++ [l]) s'.
Proof.
  intros Ho Hs. unfold Ordered, ibh_metas in *. rewrite omap_app, fmap_app, <- Ho. clear Ho.
  destruct s as [g t log]. destruct g as [st h m mi di rsp]. destruct l as [| |m'|d|r]; cbn -[state_table] in Hs; cbn [omap list_omap fmap list_fmap].
  - rewrite app_nil_r. destruct st.
    + destruct mi as [|m' mi]; [|destruct di as [|d di]]; [by simplify_eq; cbn; rewrite !app_nil_r..|].
      destruct (ibh_validPSN m') eqn:Ev; simplify_eq; cbn; rewrite ?fmap_app, ?app_nil_r, <- ?app_assoc; cbn;
        unfold with_key at 2; by rewrite Ev.
    + destruct rsp as [|q rsp]; [by simplify_eq; cbn; rewrite !app_nil_r|].
      destruct (bool_decide _); simplify_eq; cbn; by rewrite fmap_app, <- app_assoc.
  - destruct (state_table t) as [| |[t' o]]; simplify_eq. cbn. by rewrite app_nil_r.
  - simplify_eq. cbn. by rewrite fmap_app, <- !app_assoc.
  - simplify_eq. cbn. by rewrite app_nil_r.
  - simplify_eq. cbn. by rewrite app_nil_r.
Qed.

Lemma Ordered_run t0 ls s : steps gen_step ls (gens_init t0) = Next s -> Ordered ls s.
Proof. apply (steps_history _ Ordered); [intros h l x x'; apply Ordered_step | done]. Qed.
End numbering.

(** The requests of a queue pair are numbered without a gap from the number its
    table starts with, whatever acknowledgements, responses and retransmissions
    are sent in between and however the receive side writes the table meanwhile:
    the number is in the header, is recorded for a retransmission and, for a
    read request, leaves room for the packets of the response; and the headers
    are written in the order of the meta data. *)
Theorem requests_numbered `{RoceConfig} (t0 : gmap Z stateTableEntry) ls (s : gens) :
  psns_fit t0 -> steps gen_step ls (gens_init t0) = Next s ->
  (forall k, numbered (next_psn t0 k) (locals k (gn_log s)) (next_after (gn_tbl s) k)) /\
  fst <$> gn_log s `prefix_of` with_key <$> ibh_metas ls.
Proof.
  intros Hfit Hs. destruct (GenInv_run _ _ _ Hfit Hs) as (_ & _ & Hn). split; [intros k; apply Hn|].
  pose proof (Ordered_run _ _ _ Hs) as Ho. unfold Ordered in Ho. rewrite <- Ho. by eexists.
Qed.

(** Two writes and a read request of 3 packets to queue pair 2, an
    acknowledgement between them; the receive side writes the entry while it is
    held. *)
Definition tx_demo_table : gmap Z stateTableEntry := {[2 := state_setup 7 40]}.
Definition tx_demo_packet (m : ibhMeta) : list gen_label :=
  [NIbhMeta m; NDstQp 9; NGen; NRx (RxStateWrite 2 41 7 false); NServe; NServe; NGen; NServe].
Definition tx_demo : list gen_label :=
  tx_demo_packet (ibhMeta_count RC_RDMA_WRITE_ONLY 0 2 1) ++
  tx_demo_packet (ibhMeta_psn RC_ACK 0 2 33 true) ++
  tx_demo_packet (ibhMeta_count RC_RDMA_READ_REQUEST 0 2 3) ++
  tx_demo_packet (ibhMeta_count RC_RDMA_WRITE_ONLY 0 2 1).

Lemma tx_demo_fit : psns_fit tx_demo_table.
Proof.
  intros k. unfold next_psn, state_at, tx_demo_table. destruct (decide (2 = k)) as [<-|Hne];
    [rewrite lookup_singleton_eq | rewrite lookup_singleton_ne by exact Hne]; vm_compute; intuition discriminate.
Qed.

Definition tx_demo_end : gens :=
  match steps (@gen_step small_roce) tx_demo (gens_init tx_demo_table) with Next s => s | _ => gens_init ∅ end.

Lemma tx_demo_run : steps (@gen_step small_roce) tx_demo (gens_init tx_demo_table) = Next tx_demo_end.
Proof. by vm_compute. Qed.

Lemma requests_numbered_witness :
  length (locals 2 (gn_log tx_demo_end)) = 3%nat /\ next_after (gn_tbl tx_demo_end) 2 = 12 /\
  numbered 7 (locals 2 (gn_log tx_demo_end)) (next_after (gn_tbl tx_demo_end) 2).
Proof.
  split; [by vm_compute|]. split; [by vm_compute|].
  exact (proj1 (@requests_numbered small_roce tx_demo_table tx_demo tx_demo_end tx_demo_fit tx_demo_run) 2).
Defined.

(** ** The headers written *)

(** The header a packet is written with. *)
Definition headers (o : list gibh_out) : list packetHeader :=
  omap (fun x => match x with GHeader h => Some h | _ => None end) o.
Definition ibh_dsts (ls : list gen_label) : list Z := omap (fun l => match l with NDstQp d => Some d | _ => None end) ls.

(** A header with the operation of [m] and the queue pair [d]. *)
Definition header_for (m : ibhMeta) (d : Z) (h : packetHeader) : Prop :=
  exists v, h = mk_header false 0 v /\ fits 96 v /\ bth_getOpCode v = ibh_op_code m /\ bth_getDstQP v = d.

Lemma header_filled h m d :
  fits 96 (h_header h) -> fits 24 d -> opcode_of (opcode_num (ibh_op_code m)) = ibh_op_code m /\ fits 8 (opcode_num (ibh_op_code m)) ->
  header_for m d (bth_fill h m d).
Proof.
  intros Hh Hd [Ho Hf]. eexists. split; [reflexivity|]. split_and!.
  - unfold bth_setDstQP, bth_setPsn, bth_setPartitionKey, bth_setOpCode. repeat (apply set_bits_fits; [lia..|]). done.
  - unfold bth_getOpCode, bth_setDstQP, bth_setPsn, bth_setPartitionKey, bth_setOpCode.
    repeat (rewrite bits_set_bits_ne by lia). rewrite bits_set_bits_eq, wrap_wrap, wrap_small by (done || lia). done.
  - unfold bth_getDstQP, bth_setDstQP. by apply bytes_field3.
Qed.

Lemma header_numbered m d h psn :
  header_for m d h -> header_for m d (setRawHeader h (bth_setPsn (h_header h) psn)).
Proof.
  intros (v & -> & Hf & Ho & Hd). eexists. split; [reflexivity|]. cbn [h_header].
  unfold bth_getOpCode, bth_getDstQP, bth_setPsn in *. split_and!.
  - by apply set_bits_fits; [lia..|].
  - by rewrite bits_set_bits_ne by lia.
  - by rewrite bits_set_bits_ne by lia.
Qed.

Lemma header_ack m d h : header_for m d h -> header_for m d (setRawHeader h (bth_setAckReq (h_header h) true)).
Proof.
  intros (v & -> & Hf & Ho & Hd). eexists. split; [reflexivity|]. cbn [h_header].
  unfold bth_getOpCode, bth_getDstQP, bth_setAckReq in *. split_and!.
  - by apply set_bits_fits; [lia..|].
  - by rewrite bits_set_bits_ne by lia.
  - by rewrite bits_set_bits_ne by lia.
Qed.

Section headers_written.
Context `{RoceConfig}.

(** Every packet has one header, for the operation of its meta data and the
    queue pair the connection table gave for it. *)
Definition op_ok (m : ibhMeta) : Prop :=
  opcode_of (opcode_num (ibh_op_code m)) = ibh_op_code m /\ fits 8 (opcode_num (ibh_op_code m)).

Definition Headed (ls : list gen_label) (s : gens) : Prop :=
  Forall op_ok (ibh_metas ls) -> Forall (fits 24) (ibh_dsts ls) ->
  fits 96 (h_header (gi_header (gn_gen s))) /\
  Forall op_ok (gi_metaIn (gn_gen s)) /\ Forall (fits 24) (gi_dstQpIn (gn_gen s)) /\
  exists used, used ++ gi_dstQpIn (gn_gen s) = ibh_dsts ls /\
    match gi_state (gn_gen s) with
    | GI_META => Forall2 (fun p d => exists h, headers (snd p) = [h] /\ header_for (fst p) d h) (gn_log s) used
    | GET_PSN => exists used' d, used = used' ++ [d] /\ header_for (gi_meta (gn_gen s)) d (gi_header (gn_gen s)) /\
        Forall2 (fun p d => exists h, headers (snd p) = [h] /\ header_for (fst p) d h) (gn_log s) used'
    end.

Lemma Headed_gen ls g t log g' o :
  Headed ls (mk_gens g t log) -> generate_ibh g = (g', o) ->
  Headed ls (mk_gens g' (push_tx (tx_reqs o) t) (log ++ if finished o then [(gi_meta g', o)] else [])).
Proof.
  intros HH Eg Hm0 Hd0. destruct (HH Hm0 Hd0) as (Hh & Hm & Hd & used & Hu & Hlog). clear HH.
  destruct g as [st h m mi di rsp]. cbn in Hh, Hm, Hd, Hu, Hlog. destruct st; cbn in Eg.
  - destruct mi as [|m' mi]; [|destruct di as [|d di]].
    1, 2: simplify_eq; cbn; rewrite app_nil_r; eauto 10.
    apply Forall_cons in Hm as [Hop Hm]. apply Forall_cons in Hd as [Hd1 Hd].
    pose proof (header_filled h (mk_ibhMeta (ibh_op_code m') 0xFFFF (ibh_dest_qp m') (ibh_psn m') (ibh_validPSN m') (ibh_numPkg m'))
      d Hh Hd1 Hop) as Hf.
    assert (fits 96 (h_header (bth_fill h (mk_ibhMeta (ibh_op_code m') 0xFFFF (ibh_dest_qp m') (ibh_psn m') (ibh_validPSN m') (ibh_numPkg m')) d)))
      as Hh' by (destruct Hf as (v & -> & ? & _); done).
    destruct (ibh_validPSN m'); simplify_eq; cbn [gn_gen gi_header gi_metaIn gi_dstQpIn gi_state gn_log gi_meta].
    + split; [done|]. split; [done|]. split; [done|]. exists (used ++ [d]). rewrite <- app_assoc. split; [done|].
      apply Forall2_app; [done|]. constructor; [by eexists|done].
    + split; [done|]. split; [done|]. split; [done|]. exists (used ++ [d]). rewrite <- app_assoc. split; [done|].
      exists used, d. cbn. rewrite app_nil_r. done.
  - destruct rsp as [|q rsp]; [simplify_eq; cbn; rewrite app_nil_r; eauto 10|].
    destruct Hlog as (used' & d & -> & Hf & Hlog).
    destruct (bool_decide _); simplify_eq; cbn [gn_gen gi_header gi_metaIn gi_dstQpIn gi_state gn_log gi_meta].
    + pose proof (header_numbered m d h (u24 (se_resp_epsn q - 1)) Hf) as Hn.
      split; [by destruct Hn as (v & -> & ? & _)|]. split; [done|]. split; [done|].
      exists (used' ++ [d]). split; [done|]. apply Forall2_app; [done|]. constructor; [by eexists|done].
    + assert (header_for m d (setRawHeader h (bth_setAckReq (bth_setPsn (h_header h) (se_req_next_psn q)) true))) as Hn
        by exact (header_ack m d _ (header_numbered m d h (se_req_next_psn q) Hf)).
      split; [by destruct Hn as (v & -> & ? & _)|]. split; [done|]. split; [done|].
      exists (used' ++ [d]). split; [done|]. apply Forall2_app; [done|]. constructor; [by eexists|done].
Qed.

Lemma Headed_step ls l s s' : Headed ls s -> gen_step l s = Next s' -> Headed (ls ++ [l]) s'.
Proof.
  intros Ho Hs. destruct s as [g t log]. destruct l as [| |m'|d|r]; cbn -[state_table] in Hs.
  - destruct (generate_ibh g) as [g' o] eqn:Eg. simplify_eq. pose proof (Headed_gen _ _ _ _ _ _ Ho Eg) as Hn.
    unfold Headed, ibh_metas, ibh_dsts in *. rewrite !omap_app. cbn [omap list_omap]. by rewrite !app_nil_r.
  - destruct (state_table t) as [| |[t' o]]; simplify_eq.
    unfold Headed, ibh_metas, ibh_dsts in *. rewrite !omap_app. cbn [omap list_omap]. rewrite !app_nil_r. by destruct g.
  - simplify_eq. destruct g as [st h m mi di rsp].
    unfold Headed, ibh_metas, ibh_dsts in *. rewrite !omap_app. cbn [omap list_omap]. rewrite !app_nil_r.
    intros Hm Hd. apply Forall_app in Hm as [Hm Hm']. destruct (Ho Hm Hd) as (? & ? & ? & ?). cbn in *.
    split; [done|]. split; [by apply Forall_app|]. done.
  - simplify_eq. destruct g as [st h m mi di rsp].
    unfold Headed, ibh_metas, ibh_dsts in *. rewrite !omap_app. cbn [omap list_omap]. rewrite !app_nil_r.
    intros Hm Hd. apply Forall_app in Hd as [Hd Hd']. destruct (Ho Hm Hd) as (? & ? & ? & used & Hu & ?). cbn in *.
    split; [done|]. split; [done|]. split; [by apply Forall_app|]. exists used. by rewrite app_assoc, Hu.
  - simplify_eq. unfold Headed, ibh_metas, ibh_dsts in *. rewrite !omap_app. cbn [omap list_omap]. by rewrite !app_nil_r.
Qed.

(** The packets written, each with the queue pair it goes to. *)
Lemma headers_written t0 ls s :
  steps gen_step ls (gens_init t0) = Next s -> Forall op_ok (ibh_metas ls) -> Forall (fits 24) (ibh_dsts ls) ->
  exists used, used `prefix_of` ibh_dsts ls /\
    Forall2 (fun p d => exists h, headers (snd p) = [h] /\ header_for (fst p) d h) (gn_log s) used.
Proof.
  intros Hs Hm Hd. assert (Headed ls s) as HH.
  { revert Hs. apply (steps_history _ Headed); [intros h l x x'; apply Headed_step|].
    intros _ _. cbn. split; [done|]. split; [done|]. split; [done|]. exists []. by split. }
  destruct (HH Hm Hd) as (_ & _ & _ & used & Hu & Hlog). destruct (gi_state (gn_gen s)).
  - exists used. split; [|done]. rewrite <- Hu. by eexists.
  - destruct Hlog as (used' & d & -> & _ & Hlog). exists used'. split; [|done]. rewrite <- Hu, <- app_assoc. by eexists.
Qed.
End headers_written.
