(* ===== verification/IbWire.v ===== *)
(** A packet with payload from one side of the RoCE transport to the other: the
    transmit path (IbTx) shifts the payload, puts the extension header and the
    base header in front of it, the receive path (IbRx) takes both away again.
    Every stage is the process of the code, run on the output of the stage
    before it. *)
From stdpp Require Import base numbers list strings.
From Stdlib Require Import ZArith Lia.
From S2P Require Import Prelude Axi Streams StreamsFacts Wire IbTypes IbTables IbRx IbTx.

Local Open Scope Z_scope.

(** ** The operations that carry data *)

(** The bytes of the extension header. *)
Definition ext_size (c : ibOpCode) : nat :=
  match c with
  | RC_RDMA_WRITE_ONLY | RC_RDMA_WRITE_FIRST => 16
  | RC_RDMA_READ_RESP_ONLY | RC_RDMA_READ_RESP_FIRST | RC_RDMA_READ_RESP_LAST => 4
  | _ => 0
  end.

Definition carries_data (c : ibOpCode) : bool :=
  match c with
  | RC_RDMA_WRITE_ONLY | RC_RDMA_WRITE_FIRST | RC_RDMA_WRITE_MIDDLE | RC_RDMA_WRITE_LAST
  | RC_SEND_ONLY | RC_SEND_FIRST | RC_SEND_MIDDLE | RC_SEND_LAST
  | RC_RDMA_READ_RESP_ONLY | RC_RDMA_READ_RESP_FIRST | RC_RDMA_READ_RESP_MIDDLE | RC_RDMA_READ_RESP_LAST => true
  | _ => false
  end.

(** The extension header of an event, and the fields it holds. *)
Definition ext_header (e : event) (k : txMsnRsp) : Z :=
  match ext_size (ev_op_code e) with
  | 16%nat => reth_setRemoteKey (reth_setLength (reth_setVirtualAddress 0 (ev_addr e)) (ev_length e)) (tx_r_key k)
  | 4%nat => aeth_setMsn (aeth_setSyndrome 0 0x1f) (tx_msn k)
  | _ => 0
  end.

Section wire.
Context `{RoceConfig} (fill : Z) (n : nat).
Hypothesis width : WIDTH = 8 * Z.of_nat n.
Hypothesis wide : (16 < n)%nat.

Definition infos (o : list gexh_out) : list txPacketInfo := omap (fun x => match x with XInfo i => Some i | _ => None end) o.
Definition ext_words (o : list gexh_out) : list net_axis := omap (fun x => match x with XWord w => Some w | _ => None end) o.

Definition appender_with (i : list txPacketInfo) (h ae re raw : list net_axis) : appender :=
  mk_appender INFO (mk_axis 0 0 false) true (mk_txInfo false false false) i h ae re raw.

(** *** The transmit path *)

(** The payload with the extension header in front of it. *)
Definition with_ext (e : event) (k : txMsnRsp) (ws out : list net_axis) : Prop :=
  let m := ext_size (ev_op_code e) in
  exists o ws' s s',
    runs (generate_exh fill) (mk_gexh GE_PROCESS e header_new header_new false k [] []) s o /\ ge_state s = GE_META /\
    shifted WIDTH m ws ws' /\
    runs append_payload
      (match m with
       | 16%nat => appender_with (infos o) (ext_words o) [] ws' []
       | 4%nat => appender_with (infos o) (ext_words o) ws' [] []
       | _ => appender_with (infos o) (ext_words o) [] [] ws'
       end) s' out /\
    ap_state s' = INFO.

Lemma append_reth w ws l :
  packet n ws l -> a_last w = true -> (16 <= length l)%nat ->
  exists s, runs append_payload (appender_with [mk_txInfo false true true] [w] [] ws []) s (patch 16 (bits (a_data w) 0 128) ws) /\
    ap_state s = INFO.
Proof.
  intros Hw Hl Hlen. set (w' := mk_axis (a_data w) (a_keep w) false).
  set (at_ f := fun input => mk_appender RETH_PAYLOAD w' f (mk_txInfo false true true) [] [] [] input []).
  set (fin f := fun input => mk_appender INFO w' f (mk_txInfo false true true) [] [] [] input []).
  assert (forall c input, append_payload (at_ false (c :: input)) = (if a_last c then fin false input else at_ false input, [c])) as Hf
    by (intros c input; cbn; by destruct (a_last c)).
  exists (fin false []). split; [|done].
  apply (runs_step _ _ (mk_appender HEADER (mk_axis 0 0 false) true (mk_txInfo false true true) [] [w] [] ws []) _ []); [done|].
  apply (runs_step _ _ (at_ true ws) _ []).
  { cbn. rewrite Hl. cbn. by replace (WIDTH <=? RETH_SIZE) with false by (rewrite width; unfold RETH_SIZE; lia). }
  destruct Hw as [d j Hj|d ws l Hw]; cbn [patch a_data a_keep a_last].
  - apply runs_one. cbn. by replace (RETH_SIZE <? WIDTH) with true by (rewrite width; unfold RETH_SIZE; lia).
  - apply (runs_step _ _ (at_ false ws) _ [_] ws).
    + cbn. by replace (RETH_SIZE <? WIDTH) with true by (rewrite width; unfold RETH_SIZE; lia).
    + pose proof (forward_packet append_payload n (at_ false) (fin false) Hf ws l [] Hw) as Hr.
      by rewrite app_nil_r in Hr.
Qed.

Lemma append_aeth w ws l :
  packet n ws l -> a_last w = true ->
  exists s, runs append_payload (appender_with [mk_txInfo true true true] [w] ws [] []) s (patch 4 (bits (a_data w) 0 32) ws) /\
    ap_state s = INFO.
Proof.
  intros Hw Hl. set (w' := mk_axis (a_data w) (a_keep w) false).
  set (at_ f := fun input => mk_appender AETH_PAYLOAD w' f (mk_txInfo true true true) [] [] input [] []).
  set (fin f := fun input => mk_appender INFO w' f (mk_txInfo true true true) [] [] input [] []).
  assert (forall c input, append_payload (at_ false (c :: input)) = (if a_last c then fin false input else at_ false input, [c])) as Hf
    by (intros c input; cbn; by destruct (a_last c)).
  exists (fin false []). split; [|done].
  apply (runs_step _ _ (mk_appender HEADER (mk_axis 0 0 false) true (mk_txInfo true true true) [] [w] ws [] []) _ []); [done|].
  apply (runs_step _ _ (at_ true ws) _ []); [cbn; by rewrite Hl|].
  destruct Hw as [d j Hj|d ws l Hw]; cbn [patch a_data a_keep a_last].
  - by apply runs_one.
  - apply (runs_step _ _ (at_ false ws) _ [_] ws); [done|].
    pose proof (forward_packet append_payload n (at_ false) (fin false) Hf ws l [] Hw) as Hr. by rewrite app_nil_r in Hr.
Qed.

Lemma append_raw aeth ws l :
  packet n ws l ->
  exists s, runs append_payload (appender_with [mk_txInfo aeth false true] [] [] [] ws) s ws /\ ap_state s = INFO.
Proof.
  intros Hw.
  set (at_ := fun input => mk_appender RAW_PAYLOAD (mk_axis 0 0 false) true (mk_txInfo aeth false true) [] [] [] [] input).
  set (fin := fun input => mk_appender INFO (mk_axis 0 0 false) true (mk_txInfo aeth false true) [] [] [] [] input).
  assert (forall c input, append_payload (at_ (c :: input)) = (if a_last c then fin input else at_ input, [c])) as Hf
    by (intros c input; cbn; by destruct (a_last c)).
  exists (fin []). split; [|done]. apply (runs_step _ _ (at_ ws) _ [] ws); [done|].
  pose proof (forward_packet append_payload n at_ fin Hf ws l [] Hw) as Hr. by rewrite app_nil_r in Hr.
Qed.

Lemma with_ext_packet e k ws l :
  carries_data (ev_op_code e) = true -> ev_length e <> 0 -> packet n ws l ->
  exists out, with_ext e k ws out /\ packet n out (le_bytes (ext_size (ev_op_code e)) (ext_header e k) ++ l).
Proof.
  intros Hc Hlen Hw. assert ((ev_length e =? 0) = false) as Hl by lia.
  destruct (shifted_packet WIDTH n width (ext_size (ev_op_code e)) ws l) as (ws' & Hs & Hws');
    [destruct (ev_op_code e); cbn; lia | destruct (ev_op_code e); cbn; lia | done|].
  assert (forall m : nat, ext_size (ev_op_code e) = m -> (16 <= m)%nat -> (16 <= length (replicate m 0%Z ++ l))%nat) as Hlong
    by (intros m _ Hm; rewrite length_app, length_replicate; lia).
  unfold with_ext. remember (ext_size (ev_op_code e)) as m eqn:Em.
  assert (m = 16%nat \/ m = 4%nat \/ m = 0%nat) as [->|[->| ->]] by (subst m; destruct (ev_op_code e); cbn; lia).
  - set (v := ext_header e k). set (w := mk_axis (set_bits fill 0 128 (bits v 0 128)) (Z.ones (WIDTH / 8)) true).
    assert (exists s o, generate_exh fill (mk_gexh GE_PROCESS e header_new header_new false k [] []) = (s, o) /\
        ge_state s = GE_META /\ infos o = [mk_txInfo false true true] /\ ext_words o = [w]) as (s & o & Hg & Hst & Hi & Hx).
    { assert (reth_word fill e k header_new = (mk_header false 1 v, w)) as Hr.
      { unfold reth_word, setRawHeader. cbn [h_ready h_idx h_header header_new].
        rewrite (consume_partial WIDTH) by (rewrite width; unfold RETH_SIZE; lia). unfold w, v, ext_header. by rewrite <- Em. }
      cbn [generate_exh]. rewrite Hr, Hl. cbn [negb a_last w].
      destruct (ev_op_code e); try done; by eexists _, _. }
    destruct (append_reth w ws' _ Hws' eq_refl) as (s' & Ha & Hst'); [by apply Hlong|].
    exists (patch 16 (bits (a_data w) 0 128) ws'). split.
    + exists o, ws', s, s'. rewrite Hi, Hx. split_and!; try done. by apply runs_one.
    + apply (patched n 16); [lia | done|]. apply (header_word 16).
  - set (v := ext_header e k). set (w := mk_axis (set_bits fill 0 32 (bits v 0 32))
      (set_bits (set_bits 0 0 (AETH_SIZE / 8) 0xFF) (AETH_SIZE / 8) (WIDTH / 8 - AETH_SIZE / 8) 0) true).
    assert (exists s o, generate_exh fill (mk_gexh GE_PROCESS e header_new header_new false k [] []) = (s, o) /\
        ge_state s = GE_META /\ infos o = [mk_txInfo true true true] /\ ext_words o = [w]) as (s & o & Hg & Hst & Hi & Hx).
    { assert (aeth_word fill (ack_header header_new 0x1f (tx_msn k)) = (mk_header false 1 v, w)) as Hr.
      { unfold aeth_word, ack_header, setRawHeader. cbn [h_ready h_idx h_header header_new].
        rewrite (consume_partial WIDTH) by (rewrite width; unfold AETH_SIZE; lia). unfold w, v, ext_header. by rewrite <- Em. }
      cbn [generate_exh]. rewrite Hr, Hl. cbn [negb a_last w].
      destruct (ev_op_code e); try done; by eexists _, _. }
    destruct (append_aeth w ws' _ Hws' eq_refl) as (s' & Ha & Hst').
    exists (patch 4 (bits (a_data w) 0 32) ws'). split.
    + exists o, ws', s, s'. rewrite Hi, Hx. split_and!; try done. by apply runs_one.
    + apply (patched n 4); [lia | done|]. apply (header_word 4).
  - assert (exists s o b, generate_exh fill (mk_gexh GE_PROCESS e header_new header_new false k [] []) = (s, o) /\
        ge_state s = GE_META /\ infos o = [mk_txInfo b false true] /\ ext_words o = []) as (s & o & b & Hg & Hst & Hi & Hx).
    { cbn [generate_exh]. rewrite Hl. cbn [negb]. destruct (ev_op_code e); try done; by eexists _, _, _. }
    destruct (append_raw b ws' _ Hws') as (s' & Ha & Hst'). exists ws'. split; [|done].
    exists o, ws', s, s'. rewrite Hi, Hx. split_and!; try done. by apply runs_one.
Qed.

(** The base header in front of that. *)
Definition with_bth (hdr : packetHeader) (ws out : list net_axis) : Prop :=
  exists ws' s, shifted WIDTH 12 ws ws' /\
    runs (prepend_ibh_header fill) (mk_prepender GET_HEADER header_new 0 [hdr] ws') s out /\ ph_state s = GET_HEADER.

(** The words leave, but for their counter, as they are. *)
Lemma prepend_body ws l h cnt :
  packet n ws l -> exists s, runs (prepend_ibh_header fill) (mk_prepender BODY h cnt [] ws) s ws /\ ph_state s = GET_HEADER.
Proof.
  intros Hw. revert cnt. induction Hw as [d k Hk|d ws l Hw IH]; intros cnt.
  - eexists. split; [by apply runs_one | done].
  - destruct (IH (u32 (cnt + 1))) as (s & Hr & Hs). exists s. split; [|done].
    by apply (runs_step _ _ (mk_prepender BODY h (u32 (cnt + 1)) [] ws) _ [_] ws).
Qed.

Lemma with_bth_packet (v : Z) ws l :
  packet n ws l -> exists out, with_bth (mk_header false 0 v) ws out /\ packet n out (le_bytes 12 v ++ l).
Proof.
  intros Hw. destruct (shifted_packet WIDTH n width 12 ws l) as (ws' & Hs & Hws'); [lia | lia | done|].
  exists (patch 12 (bits v 0 96) ws'). split; [|by apply (patched n 12 v v); [lia | |]].
  unfold with_bth. assert ((WIDTH <=? BTH_SIZE) = false) as Hwide by (rewrite width; unfold BTH_SIZE; lia).
  assert (forall w cnt input, prepend_ibh_header fill (mk_prepender PARTIAL_HEADER (mk_header false 0 v) cnt [] (w :: input)) =
    (mk_prepender (if a_last w then GET_HEADER else BODY) (mk_header false 1 v) (u32 (cnt + 1)) [] input,
     [mk_axis (set_bits (a_data w) 0 96 (bits v 0 96)) (a_keep w) (a_last w)])) as Hp.
  { intros w cnt input. cbn [prepend_ibh_header]. by rewrite (consume_partial WIDTH) by (rewrite width; unfold BTH_SIZE; lia). }
  clear Hw. destruct Hws' as [d k Hk|d ws1 l1 Hw1].
  - eexists _, (mk_prepender GET_HEADER (mk_header false 1 v) (u32 (0 + 1)) [] []). split; [exact Hs|]. split; [|done].
    apply (runs_step _ _ (mk_prepender PARTIAL_HEADER (mk_header false 0 v) 0 [] [mk_axis d (Z.ones (Z.of_nat k)) true]) _ [] _);
      [cbn; by rewrite Hwide|]. by apply runs_one; rewrite Hp.
  - destruct (prepend_body ws1 l1 (mk_header false 1 v) (u32 (0 + 1)) Hw1) as (s & Hr & Hst).
    eexists _, s. split; [exact Hs|]. split; [|done].
    apply (runs_step _ _ (mk_prepender PARTIAL_HEADER (mk_header false 0 v) 0 []
      (mk_axis d (Z.ones (Z.of_nat n)) false :: ws1)) _ [] _); [cbn; by rewrite Hwide|].
    eapply (runs_step _ _ _ _ [_]); [apply Hp | exact Hr].
Qed.

(** *** The receive path *)

Definition ibh_words (o : list pibh_out) : list net_axis := omap (fun x => match x with IbhWord w => Some w | _ => None end) o.
Definition ibh_metas (o : list pibh_out) : list ibhMeta := omap (fun x => match x with IbhMeta m => Some m | _ => None end) o.
Definition ibh_codes (o : list pibh_out) : list ibOpCode := omap (fun x => match x with IbhCode c => Some c | _ => None end) o.
Definition exh_words (o : list pexh_out) : list net_axis := omap (fun x => match x with ExhWord w => Some w | _ => None end) o.
Definition exh_headers (o : list pexh_out) : list Z := omap (fun x => match x with ExhHeader h => Some h | _ => None end) o.
Definition exh_metas (o : list pexh_out) : list exhMeta := omap (fun x => match x with ExhMetaOut m => Some m | _ => None end) o.

(** The base header is taken off. *)
Lemma ibh_rest ws l h cnt :
  packet n ws l -> h_ready h = true ->
  exists s o, runs rx_process_ibh (mk_pibh h true cnt ws) s o /\ pi_input s = [] /\
    ibh_words o = ws /\ ibh_metas o = [] /\ ibh_codes o = [].
Proof.
  intros Hw Hh. destruct h as [r i v]. cbn in Hh. subst r. revert cnt. induction Hw as [d k Hk|d ws l Hw IH]; intros cnt.
  - eexists _, _. split; [by apply runs_one | done].
  - destruct (IH (u32 (cnt + 1))) as (s & o & Hr & Hs & Hws & Hm & Hc). eexists s, ([_] ++ o).
    split; [by eapply runs_step; [reflexivity | exact Hr]|].
    unfold ibh_words, ibh_metas, ibh_codes in *. by rewrite !omap_app, Hws, Hm, Hc.
Qed.

Definition meta_of_bth (v : Z) : ibhMeta :=
  ibhMeta_psn (bth_getOpCode v) (bth_getPartitionKey v) (bth_getDstQP v) (bth_getPsn v) true.

Lemma ibh_packet (v : Z) ws l :
  fits 96 v -> packet n ws (le_bytes 12 v ++ l) ->
  exists s o, runs rx_process_ibh (pibh_init ws) s o /\ pi_input s = [] /\
    ibh_words o = ws /\ ibh_metas o = [meta_of_bth v] /\ ibh_codes o = [bth_getOpCode v].
Proof.
  intros Hv Hw. destruct (packet_nonempty _ _ _ Hw) as (w & ws' & ->).
  assert (set_bits 0 0 96 (a_data w) = v) as Hh by (eapply (first_header n 12 v w ws' l header_new); cbn; done || lia).
  assert (forall input, rx_process_ibh (pibh_init (w :: input)) =
    (if a_last w then mk_pibh (mk_header false 0 v) false 1 input else mk_pibh (mk_header true 1 v) true 1 input,
     [IbhWord w; IbhMeta (meta_of_bth v); IbhCode (bth_getOpCode v)])) as Hf.
  { intros input. unfold pibh_init, header_new. cbn [rx_process_ibh].
    rewrite (parse_whole WIDTH) by (rewrite width; unfold BTH_SIZE; lia).
    change (set_bits 0 0 BTH_SIZE (a_data w)) with (set_bits 0 0 96 (a_data w)). rewrite Hh. by destruct (a_last w). }
  inversion Hw as [d k Hk|d ws1 l1 Hw1]; subst.
  - eexists _, _. split; [apply runs_one, Hf | done].
  - destruct (ibh_rest ws' l1 (mk_header true 1 (set_bits 0 0 96 (a_data (mk_axis d (Z.ones (Z.of_nat n)) false)))) 1 Hw1 eq_refl)
      as (s & o & Hr & Hs & Hws & Hm & Hc).
    eexists s, (_ ++ o). split; [eapply runs_step; [apply Hf | exact Hr]|].
    unfold ibh_words, ibh_metas, ibh_codes in *. by rewrite !omap_app, Hws, Hm, Hc.
Qed.

Lemma words_of (ws : list net_axis) : exh_words (ExhWord <$> ws) = ws /\ exh_metas (ExhWord <$> ws) = [] /\ exh_headers (ExhWord <$> ws) = [].
Proof. unfold exh_words, exh_metas, exh_headers. induction ws as [|w ws (IH1 & IH2 & IH3)]; [done|]. cbn. by rewrite IH1, IH2, IH3. Qed.

(** What the extension header says. *)
Definition meta_of_ext (c : ibOpCode) (v : Z) : exhMeta :=
  if (ext_size c =? 4)%nat then exhMeta_nak (aeth_isNAK v) else exhMeta_nak false.

(** A process that, once the header is ready, passes every word on. *)
Lemma exh_run (blank : Z) c st (at_ fin : bool -> list net_axis -> pexh) first ws l :
  packet n ws l ->
  rx_process_exh blank (mk_pexh EXH_META header_new header_new false RC_ACK ws [c]) = (at_ false ws, []) ->
  st = EXH_META -> (forall b input, px_state (fin b input) = st /\ px_input (fin b input) = input) ->
  (forall w input, ws = w :: input ->
     exists o, rx_process_exh blank (at_ false (w :: input)) = (if a_last w then fin true input else at_ true input, o) /\
       exh_words o = [w] /\ exh_metas o = [fst first] /\ exh_headers o = [snd first]) ->
  (forall w input, rx_process_exh blank (at_ true (w :: input)) =
     (if a_last w then fin true input else at_ true input, [ExhWord w])) ->
  exists s o, runs (rx_process_exh blank) (mk_pexh EXH_META header_new header_new false RC_ACK ws [c]) s o /\
    px_state s = EXH_META /\ px_input s = [] /\
    exh_words o = ws /\ exh_metas o = [fst first] /\ exh_headers o = [snd first].
Proof.
  intros Hw H0 -> Hfin H1 H2. destruct (packet_nonempty _ _ _ Hw) as (w & ws' & ->).
  destruct (H1 w ws' eq_refl) as (o1 & Hf & Ho1 & Ho2 & Ho3). exists (fin true []).
  destruct (Hfin true []) as [Hs Hi]. inversion Hw as [d k Hk|d ws1 l1 Hw1]; subst.
  - exists ([] ++ o1). split_and!; try done. eapply runs_step; [exact H0|]. by apply runs_one.
  - destruct (words_of ws') as (E1 & E2 & E3).
    exists ([] ++ (o1 ++ (ExhWord <$> ws'))). split_and!; try done.
    + eapply runs_step; [exact H0|]. eapply runs_step; [exact Hf|]. cbn [a_last].
      pose proof (forward_out _ ExhWord n (at_ true) (fin true) H2 ws' l1 [] Hw1) as Hr. by rewrite app_nil_r in Hr.
    + unfold exh_words in *. cbn [app]. by rewrite omap_app, Ho1, E1.
    + unfold exh_metas in *. cbn [app]. by rewrite omap_app, Ho2, E2.
    + unfold exh_headers in *. cbn [app]. by rewrite omap_app, Ho3, E3.
Qed.

Lemma exh_packet (blank : Z) c (v : Z) ws l :
  carries_data c = true -> fits (8 * Z.of_nat (ext_size c)) v -> packet n ws (le_bytes (ext_size c) v ++ l) ->
  exists s o, runs (rx_process_exh blank) (mk_pexh EXH_META header_new header_new false RC_ACK ws [c]) s o /\
    px_state s = EXH_META /\ px_input s = [] /\
    exh_words o = ws /\ exh_metas o = [meta_of_ext c v] /\
    exh_headers o = [if (ext_size c =? 0)%nat then blank else v].
Proof.
  intros Hc Hv Hw. unfold meta_of_ext. remember (ext_size c) as m eqn:Em.
  assert (m = 16%nat /\ checkIfAethHeader c = false /\ checkIfRethHeader c = true /\ checkIfWrite c = true /\ bool_decide (c = RC_RDMA_READ_REQUEST) = false \/
          m = 4%nat /\ checkIfAethHeader c = true /\ bool_decide (c = RC_ACK) = false \/
          m = 0%nat /\ checkIfAethHeader c = false /\ checkIfRethHeader c = false) as Hcase
    by (subst m; destruct c; try discriminate Hc; cbn; auto 10).
  destruct Hcase as [(-> & Ha & Hr & Hwr & Hrr)|[(-> & Ha & Hack)|(-> & Ha & Hr)]];
    cbn [Nat.eqb].
  - assert ((RETH_SIZE <? WIDTH) = true /\ (WIDTH <=? RETH_SIZE) = false) as [E1 E2] by (rewrite width; unfold RETH_SIZE; lia).
    refine (exh_run blank c EXH_META
      (fun b input => mk_pexh RETH_HEADER (if b then mk_header true 1 v else header_new) header_new b c input [])
      (fun b input => mk_pexh EXH_META (mk_header false 0 v) header_new true c input []) (exhMeta_nak false, v) ws _ Hw _ eq_refl _ _ _).
    + cbn. by rewrite Ha, Hr.
    + done.
    + intros w input ->. eexists. split.
      * cbn [rx_process_exh]. unfold header_new. rewrite (parse_whole WIDTH) by (rewrite width; unfold RETH_SIZE; lia).
        change (set_bits 0 0 RETH_SIZE (a_data w)) with (set_bits (h_header header_new) 0 (8 * Z.of_nat 16) (a_data w)).
        rewrite (first_header n 16 v w input l header_new) by (done || lia).
        cbn [h_ready h_header andb orb negb]. rewrite Hwr, Hrr, E1. by destruct (a_last w).
      * cbn. unfold exHeader_of_reth. by rewrite wrap_small.
    + intros w input. cbn. rewrite E2, Hwr, E1. by destruct (a_last w).
  - refine (exh_run blank c EXH_META
      (fun b input => mk_pexh ACK_HEADER header_new (if b then mk_header true 1 v else header_new) b c input [])
      (fun b input => mk_pexh EXH_META header_new (mk_header false 0 v) true c input []) (exhMeta_nak (aeth_isNAK v), v) ws _ Hw _ eq_refl _ _ _).
    + cbn. by rewrite Ha.
    + done.
    + intros w input ->. eexists. split.
      * cbn [rx_process_exh]. unfold header_new. rewrite (parse_whole WIDTH) by (rewrite width; unfold AETH_SIZE; lia).
        change (set_bits 0 0 AETH_SIZE (a_data w)) with (set_bits (h_header header_new) 0 (8 * Z.of_nat 4) (a_data w)).
        rewrite (first_header n 4 v w input l header_new) by (done || lia).
        cbn [h_ready h_header andb orb negb]. rewrite Hack. by destruct (a_last w).
      * cbn. unfold exHeader_of_aeth. by rewrite wrap_small.
    + intros w input. cbn. rewrite Hack. by destruct (a_last w).
  - refine (exh_run blank c EXH_META
      (fun b input => mk_pexh NO_HEADER header_new header_new b c input [])
      (fun b input => mk_pexh EXH_META header_new header_new true c input []) (exhMeta_nak false, blank) ws _ Hw _ eq_refl _ _ _).
    + cbn. by rewrite Ha, Hr.
    + done.
    + intros w input ->. eexists. split; [cbn; by destruct (a_last w) | done].
    + intros w input. cbn. by destruct (a_last w).
Qed.

Definition splits (o : list exhfsm_out) : list ibOpCode := omap (fun x => match x with ESplit c => Some c | _ => None end) o.
Definition shifts (o : list exhfsm_out) : list pkgShift := omap (fun x => match x with EShift p => Some p | _ => None end) o.
Definition shift_of (c : ibOpCode) : pkgShiftType :=
  match ext_size c with 16%nat => SHIFT_RETH | 4%nat => SHIFT_AETH | _ => SHIFT_NONE end.
Definition route_of (c : ibOpCode) : payloadRoute :=
  match ext_size c with 16%nat => ToRethShift | 4%nat => ToAethShift | _ => ToNoShift end.

Lemma exh_data_streams m hdr dma udp rd :
  carries_data (ibh_op_code m) = true ->
  (ext_size (ibh_op_code m) = 16%nat -> reth_getLength (getRdmaHeader hdr) <> 0) ->
  exists o, exh_data m hdr dma udp rd = Some o /\ splits o = [ibh_op_code m] /\
    ps_type <$> shifts o = [shift_of (ibh_op_code m)].
Proof.
  intros Hc Hl. destruct m as [op key qp psn vp np]. cbn [ibh_op_code] in *.
  assert (ext_size op = 16%nat -> (reth_getLength (getRdmaHeader hdr) =? 0) = false) as Hl' by (intros E; specialize (Hl E); lia).
  destruct op; try discriminate Hc; unfold exh_data; cbn [ibh_op_code ibh_dest_qp]; rewrite ?Hl' by done;
    try (eexists; split; [reflexivity | split; reflexivity]).
  all: destruct (aeth_isNAK _); eexists; (split; [reflexivity | split; reflexivity]).
Qed.

(** The words on one of the three streams. *)
Definition on_route (r : payloadRoute) (o : list (payloadRoute * net_axis)) : list net_axis :=
  omap (fun p => match fst p, r with
                 | ToRethShift, ToRethShift | ToAethShift, ToAethShift | ToNoShift, ToNoShift => Some (snd p)
                 | _, _ => None end) o.

Definition merger_with (t : pkgShiftType) (sh : list pkgShift) (ws : list net_axis) : merger :=
  match t with
  | SHIFT_AETH => mk_merger None sh ws [] []
  | SHIFT_RETH => mk_merger None sh [] ws []
  | SHIFT_NONE => mk_merger None sh [] [] ws
  end.

(** A packet goes through the receive path, not dropped: [m], [x] and [h] are
    what is passed on of its headers, [out] the words written to memory. *)
Definition received (blank : Z) (dma : dmaState) (udp : Z) (rd : retransRdInit) (d : list net_axis)
    (m : ibhMeta) (x : exhMeta) (h : Z) (out : list net_axis) : Prop :=
  let c := ibh_op_code m in
  exists s1 o1 w1 s2 o2 s3 w3 o s4 o4 w5 s6,
    runs rx_process_ibh (pibh_init d) s1 o1 /\ pi_input s1 = [] /\ ibh_metas o1 = [m] /\
    unshifted WIDTH 12 (ibh_words o1) w1 /\
    runs (rx_process_exh blank) (mk_pexh EXH_META header_new header_new false RC_ACK w1 (ibh_codes o1)) s2 o2 /\
    px_state s2 = EXH_META /\ px_input s2 = [] /\ exh_metas o2 = [x] /\ exh_headers o2 = [h] /\
    runs drop_ooo_ibh (mk_dropper DROP_META (exh_words o2) [false]) s3 w3 /\ dr_input s3 = [] /\
    exh_data m h dma udp rd = Some o /\
    runs rx_exh_payload (mk_payloader None (splits o) w3) s4 o4 /\ rep_input s4 = [] /\
    unshifted WIDTH (ext_size c) (on_route (route_of c) o4) w5 /\
    runs merge_rx_pkgs (merger_with (shift_of c) (shifts o) w5) s6 out /\ mrp_state s6 = None.

Lemma drop_packet ws l :
  packet n ws l -> exists s, runs drop_ooo_ibh (mk_dropper DROP_META ws [false]) s ws /\ dr_input s = [].
Proof.
  intros Hw. exists (mk_dropper DROP_META [] []). split; [|done].
  apply (runs_step _ _ (mk_dropper DROP_FWD ws []) _ [] ws); [done|].
  pose proof (forward_packet drop_ooo_ibh n (fun i => mk_dropper DROP_FWD i []) (fun i => mk_dropper DROP_META i [])
    ltac:(intros w input; cbn; by destruct (a_last w)) ws l [] Hw) as Hr. by rewrite app_nil_r in Hr.
Qed.

Lemma route_packet c ws l :
  carries_data c = true -> packet n ws l ->
  exists s o, runs rx_exh_payload (mk_payloader None [c] ws) s o /\ rep_input s = [] /\ on_route (route_of c) o = ws.
Proof.
  intros Hc Hw. exists (mk_payloader None [] []), ((fun w => (payload_route c, w)) <$> ws). split_and!; [|done|].
  - apply (runs_step _ _ (mk_payloader (Some c) [] ws) _ [] _); [done|].
    pose proof (forward_out rx_exh_payload (fun w => (payload_route c, w)) n (fun i => mk_payloader (Some c) [] i)
      (fun i => mk_payloader None [] i) ltac:(intros w input; cbn; by destruct (a_last w)) ws l [] Hw) as Hr.
    by rewrite app_nil_r in Hr.
  - clear Hw. induction ws as [|w ws IH]; [done|]. rewrite fmap_cons. unfold on_route in *. cbn [omap list_omap fst snd].
    rewrite IH. by destruct c.
Qed.

Lemma merge_packet t (sh : pkgShift) ws l :
  ps_type sh = t -> packet n ws l ->
  exists s, runs merge_rx_pkgs (merger_with t [sh] ws) s ws /\ mrp_state s = None.
Proof.
  intros Ht Hw.
  set (at_ := fun i => match t with SHIFT_AETH => mk_merger (Some t) [] i [] [] | SHIFT_RETH => mk_merger (Some t) [] [] i []
                     | SHIFT_NONE => mk_merger (Some t) [] [] [] i end).
  exists (merger_with t [] []). split; [|by destruct t].
  apply (runs_step _ _ (at_ ws) _ [] ws); [unfold at_; destruct t; cbn; by rewrite Ht|].
  pose proof (forward_packet merge_rx_pkgs n at_ (merger_with t [])) as Hr.
  specialize (Hr ltac:(intros w input; unfold at_; destruct t; cbn; by destruct (a_last w)) ws l [] Hw).
  by rewrite app_nil_r in Hr.
Qed.

Lemma received_packet blank dma udp rd (v ext : Z) d l :
  let c := bth_getOpCode v in
  carries_data c = true -> fits 96 v -> fits (8 * Z.of_nat (ext_size c)) ext -> (1 <= length l)%nat ->
  (ext_size c = 16%nat -> reth_getLength ext <> 0) ->
  packet n d (le_bytes 12 v ++ le_bytes (ext_size c) ext ++ l) ->
  exists out, received blank dma udp rd d (meta_of_bth v) (meta_of_ext c ext)
      (if (ext_size c =? 0)%nat then blank else ext) out /\ packet n out l.
Proof.
  intros c Hc Hv Hext Hl Hlen Hd.
  destruct (ibh_packet v d _ Hv Hd) as (s1 & o1 & Hr1 & Hi1 & Hw1 & Hm1 & Hc1).
  set (l1 := le_bytes (ext_size c) ext ++ l) in *.
  assert (length l1 = (ext_size c + length l)%nat) as Hl1 by (unfold l1; by rewrite length_app, length_le_bytes).
  assert (12 < length (le_bytes 12 v ++ l1))%nat as Hl12 by (rewrite length_app, length_le_bytes; lia).
  destruct (unshifted_packet WIDTH n width 12 d (le_bytes 12 v ++ l1)) as (w1 & Hu1 & Hp1); [lia | exact Hl12 | exact Hd |].
  rewrite drop_app_length' in Hp1 by (by rewrite length_le_bytes).
  destruct (exh_packet blank c ext w1 l Hc Hext Hp1) as (s2 & o2 & Hr2 & Hs2 & Hi2 & Hw2 & Hm2 & Hh2).
  destruct (drop_packet w1 _ Hp1) as (s3 & Hr3 & Hi3).
  assert (ext_size c = 16%nat -> reth_getLength (getRdmaHeader (if (ext_size c =? 0)%nat then blank else ext)) <> 0) as Hlen'
    by (intros E; specialize (Hlen E); by rewrite E).
  destruct (exh_data_streams (meta_of_bth v) (if (ext_size c =? 0)%nat then blank else ext) dma udp rd Hc Hlen') as (o & Ho & Hsp & Hsh).
  destruct (route_packet c w1 _ Hc Hp1) as (s4 & o4 & Hr4 & Hi4 & Hw4).
  assert (ext_size c <= 16)%nat as Hsize by (destruct c; cbn; lia).
  destruct (unshifted_packet WIDTH n width (ext_size c) w1 l1) as (w5 & Hu5 & Hp5); [lia | lia | exact Hp1 |].
  unfold l1 in Hp5. rewrite drop_app_length' in Hp5 by (by rewrite length_le_bytes).
  destruct (shifts o) as [|sh [|]] eqn:Esh; try discriminate Hsh. injection Hsh as Hsh.
  destruct (merge_packet (shift_of c) sh w5 l Hsh Hp5) as (s6 & Hr6 & Hs6).
  exists w5. split; [|done]. exists s1, o1, w1, s2, o2, s3, w1, o, s4, o4, w5, s6.
  rewrite Hw1, Hc1, Hw2, Hsp, Esh. fold c. change (ibh_op_code (meta_of_bth v)) with c. rewrite Hw4. split_and!; done.
Qed.
End wire.

(** The extension header fits its register, is no NAK, and of a RDMA header the
    receiver reads back the address, the length and the key. *)
Lemma ext_header_fits e k : fits (8 * Z.of_nat (ext_size (ev_op_code e))) (ext_header e k).
Proof.
  assert (fits 32 (aeth_setMsn (aeth_setSyndrome 0 0x1f) (tx_msn k))) as Ha
    by (unfold aeth_setMsn, aeth_setSyndrome; repeat (apply set_bits_fits; [lia..|]); done).
  assert (fits 128 (reth_setRemoteKey (reth_setLength (reth_setVirtualAddress 0 (ev_addr e)) (ev_length e)) (tx_r_key k))) as Hr
    by (unfold reth_setRemoteKey, reth_setLength, reth_setVirtualAddress; repeat (apply set_bits_fits; [lia..|]); done).
  unfold ext_header. by destruct (ev_op_code e).
Qed.

Definition reth_says (e : event) (k : txMsnRsp) (h : Z) : Prop :=
  reth_getVirtualAddress h = ev_addr e /\ reth_getLength h = ev_length e /\ reth_getRemoteKey h = tx_r_key k.

Lemma ext_header_reads e k :
  fits 64 (ev_addr e) -> fits 32 (ev_length e) -> fits 32 (tx_r_key k) -> fits 24 (tx_msn k) ->
  meta_of_ext (ev_op_code e) (ext_header e k) = exhMeta_nak false /\
  (ext_size (ev_op_code e) = 16%nat -> reth_says e k (ext_header e k)).
Proof.
  intros Ha Hl Hk Hm. unfold meta_of_ext, ext_header, reth_says.
  destruct (ext_size (ev_op_code e)) as [|[|[|[|[|[|[|[|[|[|[|[|[|[|[|[|[|]]]]]]]]]]]]]]]]]; try done.
  - split; [|done]. cbn [Nat.eqb]. destruct (aeth_fields 0 0x1f (tx_msn k)) as (_ & _ & E); [done | done |]. by rewrite E.
  - split; [done|]. intros _. destruct (reth_fields 0 (ev_addr e) (tx_r_key k) (ev_length e) Ha Hk Hl) as (E1 & E2 & E3).
    split_and!; done.
Qed.

(** C5: The bytes of a message reach the other side: for every operation that
    carries data, the words on the wire hold the base header, the extension
    header of the operation and the payload, in this order and without a gap,
    wherever the payload ends in a word; and the processes of the receive path,
    run one after the other on these words, read the same two headers and write
    exactly the payload to memory. *)
Theorem payload_delivered `{RoceConfig} (fill blank : Z) (n : nat) (e : event) (k : txMsnRsp) (v : Z)
    (dma : dmaState) (udp : Z) (rd : retransRdInit) ws l :
  WIDTH = 8 * Z.of_nat n -> (16 < n)%nat ->
  carries_data (ev_op_code e) = true -> ev_length e <> 0 ->
  fits 64 (ev_addr e) -> fits 32 (ev_length e) -> fits 32 (tx_r_key k) -> fits 24 (tx_msn k) ->
  fits 96 v -> bth_getOpCode v = ev_op_code e -> packet n ws l ->
  exists ws' wire h out,
    with_ext fill e k ws ws' /\ with_bth fill (mk_header false 0 v) ws' wire /\
    packet n wire (le_bytes 12 v ++ le_bytes (ext_size (ev_op_code e)) (ext_header e k) ++ l) /\
    received blank dma udp rd wire (meta_of_bth v) (exhMeta_nak false) h out /\
    packet n out l /\ (ext_size (ev_op_code e) = 16%nat -> reth_says e k h).
Proof.
  intros HW Hn Hc Hl Ha Hlen Hk Hm Hv Hop Hws.
  destruct (with_ext_packet fill n HW Hn e k ws l Hc Hl Hws) as (ws' & Ht1 & Hp1).
  destruct (with_bth_packet fill n HW Hn v ws' _ Hp1) as (wire & Ht2 & Hp2).
  destruct (ext_header_reads e k Ha Hlen Hk Hm) as [Hx Hsays].
  destruct (received_packet n HW Hn blank dma udp rd v (ext_header e k) wire l) as (out & Hrx & Hout).
  { by rewrite Hop. }
  { done. }
  { rewrite Hop. apply ext_header_fits. }
  { by eapply packet_length. }
  { rewrite Hop. intros E. destruct (Hsays E) as (_ & -> & _). done. }
  { by rewrite Hop. }
  rewrite Hop, Hx in Hrx. eexists ws', wire, _, out. split_and!; [done..| exact Hrx | done |].
  intros E. rewrite E. by apply Hsays.
Qed.

(** A write of 70 bytes over words of 64 bytes. *)
Definition demo_write : event := event_local RC_RDMA_WRITE_ONLY 3 0x1234 70.
Definition demo_bth : Z := bth_make 0 RC_RDMA_WRITE_ONLY 0xFFFF 9 42.
Definition demo_payload : list net_axis := [mk_axis 0x0A0B0C (Z.ones 64) false; mk_axis 0x060504030201 (Z.ones 6) true].
Definition demo_bytes : list Z := le_bytes 64 0x0A0B0C ++ [1; 2; 3; 4; 5; 6].

Lemma payload_delivered_witness :
  exists ws' wire h out,
    with_ext (H := small_roce) 77 demo_write (mk_txMsn 0 5) demo_payload ws' /\
    with_bth (H := small_roce) 77 (mk_header false 0 demo_bth) ws' wire /\
    received (H := small_roce) 0 dma_zero 110 (mk_retransRdInit 0 0) wire (meta_of_bth demo_bth) (exhMeta_nak false) h out /\
    packet 64 out demo_bytes /\ reth_says demo_write (mk_txMsn 0 5) h.
Proof.
  assert (packet 64 demo_payload demo_bytes) as Hp
    by (apply (packet_more 64 0x0A0B0C), (packet_last 64 0x060504030201 6); lia).
  assert (fits 96 demo_bth) as Hf by (vm_compute; intuition discriminate).
  destruct (@payload_delivered small_roce 77 0 64 demo_write (mk_txMsn 0 5) demo_bth dma_zero 110 (mk_retransRdInit 0 0)
    demo_payload demo_bytes) as (ws' & wire & h & out & H1 & H2 & _ & H3 & H4 & H5);
    [reflexivity | lia | reflexivity | discriminate | vm_compute; intuition discriminate | vm_compute; intuition discriminate
    | vm_compute; intuition discriminate | vm_compute; intuition discriminate | exact Hf | reflexivity | exact Hp |].
  exists ws', wire, h, out. split; [exact H1|]. split; [exact H2|]. split; [exact H3|]. split; [exact H4|]. exact (H5 eq_refl).
Defined.
