(* ===== verification/IbPath.v ===== *)
(** The requests of a queue pair from the merger of one node to the packet
    number check of the other: the meta data the transmit path makes of a
    request, the number [generate_ibh] gives it, the words of its headers on
    the wire, and what the receive path reads from them - its own count of the
    packets of a read request included - come together in the theorem that
    every request is accepted. *)
From stdpp Require Import base numbers list gmap fin_maps strings.
From Stdlib Require Import ZArith Lia.
From S2P Require Import Prelude Axi Streams StreamsFacts Wire IbTypes IbTables IbRx IbRxFacts IbTx IbTxFacts IbWire.

Local Open Scope Z_scope.

(** A local request: its event, the answer of the message table and its payload. *)
Record request : Type := mk_request {
  rq_event : event; rq_msn : txMsnRsp; rq_words : list net_axis; rq_bytes : list Z }.

Section path.
Context `{RoceConfig} (fill blank addr0 len0 : Z) (n : nat).

(** What [meta_merger] makes of it. *)
Definition merged (e : event) : list ibhMeta :=
  omap (fun x => match x with TIbh m => Some m | _ => None end) (snd (meta_merger addr0 len0 (mk_metam [] [] [e]))).

(** The words of a read request: the extension header alone. *)
Definition header_only (e : event) (k : txMsnRsp) (out : list net_axis) : Prop :=
  exists o s s',
    runs (generate_exh fill) (mk_gexh GE_PROCESS e header_new header_new false k [] []) s o /\ ge_state s = GE_META /\
    runs append_payload (appender_with (infos o) (ext_words o) [] [] []) s' out /\ ap_state s' = INFO.

(** A request on its way: [generate_ibh] wrote [o] for it; its extension header
    and payload and the base header become the words [wire]; the receiver takes
    the base header off and hands [fst a] and [snd a] to the check. *)
Definition arrives (r : request) (o : list gibh_out) (a : ibhMeta * exhMeta) : Prop :=
  let e := rq_event r in
  exists hdr ws wire s1 o1 w1 s2 o2,
    headers o = [hdr] /\
    (if carries_data (ev_op_code e) then with_ext fill e (rq_msn r) (rq_words r) ws else header_only e (rq_msn r) ws) /\
    with_bth fill hdr ws wire /\
    runs rx_process_ibh (pibh_init wire) s1 o1 /\ ibh_metas o1 = [fst a] /\ unshifted WIDTH 12 (ibh_words o1) w1 /\
    runs (rx_process_exh blank) (mk_pexh EXH_META header_new header_new false RC_ACK w1 (ibh_codes o1)) s2 o2 /\
    exh_metas o2 = [snd a].

(** The requests the transmit path knows: writes and sends with a payload, and
    reads. *)
Definition request_ok (r : request) : Prop :=
  let e := rq_event r in
  checkIfResponse (ev_op_code e) = false /\ ev_validPsn e = false /\
  fits 64 (ev_addr e) /\ fits 32 (ev_length e) /\ fits 32 (tx_r_key (rq_msn r)) /\ fits 24 (tx_msn (rq_msn r)) /\
  (ev_op_code e = RC_RDMA_READ_REQUEST \/
   carries_data (ev_op_code e) = true /\ ev_length e <> 0 /\ packet n (rq_words r) (rq_bytes r)).

(** *** Accepted when numbered in turn *)

(** What the receiver reads of a packet is what the sender numbered. *)
Definition reads (kr : Z) (p : ibhMeta * list gibh_out) (a : ibhMeta * exhMeta) : Prop :=
  ibh_op_code (fst a) = ibh_op_code (fst p) /\ ibh_dest_qp (fst a) = kr /\
  (exists h, headers (snd p) = [h] /\ ibh_psn (fst a) = bth_getPsn (h_header h)) /\
  snd a = mk_exhMeta false (ibh_numPkg (fst p)).

Definition arrival (p : ibhMeta * exhMeta) : access := APacket (fst p) (snd p).

Lemma numbered_accepted (kr e e' : Z) l sent (t : gmap Z stateTableEntry) :
  fits 16 kr -> numbers_fit t -> Forall (fun p => checkIfResponse (ibh_op_code (fst p)) = false) l ->
  se_resp_epsn (state_at t kr) = e -> numbered e l e' -> Forall2 (reads kr) l sent ->
  acceptances t (arrival <$> sent) = sent.
Proof.
  intros Hkr Hfit Hreq Ht Hn Hs. revert e t Hfit Hreq Ht Hn.
  induction Hs as [|[m o] [m' x] l sent (Hop & Hq & (h & Hh & Hp) & Hx) Hs IH]; intros e t Hfit Hreq Ht Hn; [done|].
  apply Forall_cons in Hreq as [Hr Hreq]. destruct Hn as [(h0 & -> & Hpsn) Hn].
  cbn [fst snd headers omap list_omap] in *. injection Hh as <-. rewrite Hpsn in Hp.
  assert (u16 (ibh_dest_qp m') = kr) as Hq' by (rewrite Hq; by apply wrap_small).
  assert (accepts t m' = true) as Ha.
  { unfold accepts, in_order. rewrite Hq', Hp. cbn [rx_window sr_epsn]. by rewrite Ht, Hop, Hr, Z.eqb_refl. }
  cbn [fmap list_fmap arrival fst snd acceptances]. rewrite Ha. cbn [app]. f_equal.
  apply (IH (u24 (e + ibh_numPkg m))); [by apply access_fits | done | | done].
  unfold arrival. cbn [fst snd]. rewrite packet_epsn by done. rewrite decide_True by done. by rewrite Ha, Hp, Hx.
Qed.

(** *** On the wire *)
Section wire_path.
Hypothesis width : WIDTH = 8 * Z.of_nat n.
Hypothesis wide : (16 < n)%nat.

(** The header of a read request. *)
Definition read_header (e : event) (k : txMsnRsp) : Z :=
  reth_setRemoteKey (reth_setLength (reth_setVirtualAddress 0 (ev_addr e)) (ev_length e)) (tx_r_key k).

Lemma read_header_fits e k : fits 128 (read_header e k).
Proof.
  unfold read_header, reth_setRemoteKey, reth_setLength, reth_setVirtualAddress.
  repeat (apply set_bits_fits; [lia..|]). done.
Qed.

Lemma header_only_packet e k :
  ev_op_code e = RC_RDMA_READ_REQUEST ->
  exists out l, header_only e k out /\ packet n out (le_bytes 16 (read_header e k) ++ l) /\ length l = (n - 16)%nat.
Proof.
  intros Hop. set (v := read_header e k). set (d := set_bits fill 0 128 (bits v 0 128)).
  set (w := mk_axis d (Z.ones (WIDTH / 8)) true).
  assert (reth_word fill e k header_new = (mk_header false 1 v, w)) as Hr.
  { unfold reth_word, setRawHeader. cbn [h_ready h_idx h_header header_new].
    by rewrite (consume_partial WIDTH) by (rewrite width; unfold RETH_SIZE; lia). }
  assert (le_bytes 16 d = le_bytes 16 v) as Hd by apply (header_word 16).
  assert (Z.ones (WIDTH / 8) = Z.ones (Z.of_nat n)) as Hk
    by (rewrite width, Z.mul_comm, Z.div_mul by done; done).
  exists [w], (drop 16 (le_bytes n d)). split_and!.
  - eexists [XWord w; XInfo (mk_txInfo false true false); XLength _], _, (mk_appender INFO w true (mk_txInfo false true false) [] [] [] [] []).
    split_and!.
    + apply runs_one. cbn [generate_exh]. rewrite Hop, Hr. reflexivity.
    + done.
    + apply (runs_step _ _ (mk_appender HEADER (mk_axis 0 0 false) true (mk_txInfo false true false) [] [w] [] [] []) _ [] [w]); [done|].
      by apply runs_one.
    + done.
  - rewrite <- Hd, <- (take_le_bytes_le 16 n) by lia. rewrite take_drop. unfold w. rewrite Hk.
    eapply (packet_one n _ n); [done | done | lia |]. cbn. by rewrite take_ge by (rewrite length_le_bytes; lia).
  - by rewrite length_drop, length_le_bytes.
Qed.

(** Its packets, as the receiver counts them. *)
Lemma read_counted (v : Z) ws l :
  fits 128 v -> length l = (n - 16)%nat -> packet n ws (le_bytes 16 v ++ l) ->
  exists s o, runs (rx_process_exh blank) (mk_pexh EXH_META header_new header_new false RC_ACK ws [RC_RDMA_READ_REQUEST]) s o /\
    exh_metas o = [exhMeta_count false (packets (reth_getLength v))].
Proof.
  intros Hv Hlen Hw. destruct (packet_nonempty _ _ _ Hw) as (w & ws' & ->).
  assert (set_bits 0 0 128 (a_data w) = v) as Hh by (eapply (first_header n 16 v w ws' l header_new); cbn; done || lia).
  assert (ws' = [] /\ a_last w = true) as [-> Hl].
  { destruct (packet_cases _ _ _ _ Hw) as [(d & k & _ & -> & -> & _)|(d & l1 & -> & Hw1 & E)]; [done|].
    apply packet_length in Hw1. apply (f_equal length) in E. rewrite !length_app, !length_le_bytes in E. lia. }
  set (h := mk_pexh RETH_HEADER header_new header_new false RC_RDMA_READ_REQUEST [w] []).
  assert (exists s o, rx_process_exh blank h = (s, o) /\ exh_metas o = [exhMeta_count false (packets (reth_getLength v))])
    as (s & o & Hs & Ho).
  { unfold h. cbn [rx_process_exh]. unfold header_new.
    rewrite (parse_whole WIDTH) by (rewrite width; unfold RETH_SIZE; lia).
    change (set_bits 0 0 RETH_SIZE (a_data w)) with (set_bits 0 0 128 (a_data w)). rewrite Hh, Hl.
    by eexists _, _. }
  exists s, ([] ++ o). split; [|done]. apply (runs_step _ _ h); [done|]. by apply runs_one.
Qed.

(** *** One request *)

Lemma merged_read e :
  ev_op_code e = RC_RDMA_READ_REQUEST -> ev_validPsn e = false ->
  merged e = [ibhMeta_count RC_RDMA_READ_REQUEST 0 (ev_qpn e) (packets (ev_length e))].
Proof.
  intros Hop Hv. unfold merged. cbn [meta_merger snd omap list_omap]. rewrite Hv, Hop.
  unfold ibhMeta_count, packets. rewrite bool_decide_true by done. by rewrite wrap_wrap.
Qed.

Lemma merged_data e :
  carries_data (ev_op_code e) = true -> ev_validPsn e = false ->
  merged e = [ibhMeta_count (ev_op_code e) 0 (ev_qpn e) 1].
Proof.
  intros Hc Hv. unfold merged. cbn [meta_merger snd omap list_omap]. rewrite Hv.
  by rewrite bool_decide_false by (intros E; by rewrite E in Hc).
Qed.

Lemma request_arrives kr r m d p :
  request_ok r -> merged (rq_event r) = [m] -> fst p = with_key m -> d = kr -> fits 24 kr ->
  (exists h, headers (snd p) = [h] /\ header_for (fst p) d h) ->
  exists a, arrives r (snd p) a /\ reads kr p a.
Proof.
  intros (Hreq & Hv & Ha & Hlen & Hk & Hm & Hkind) Hmerged Hp -> Hkr (h & Hh & v & -> & Hfv & Hov & Hdv).
  set (e := rq_event r) in *.
  assert (ibh_op_code m = ev_op_code e /\ ibh_numPkg m = if carries_data (ev_op_code e) then 1 else u22 (packets (ev_length e)))
    as [Hop Hcnt].
  { destruct Hkind as [E|(Hc & _)].
    - rewrite (merged_read e E Hv) in Hmerged. injection Hmerged as <-. by rewrite E.
    - rewrite (merged_data e Hc Hv) in Hmerged. injection Hmerged as <-. by rewrite Hc. }
  assert (bth_getOpCode v = ev_op_code e) as Hcode by (by rewrite Hov, Hp, <- Hop).
  set (c := ev_op_code e) in *.
  (* the words, with the header [ext] of [sz] bytes in front *)
  assert (exists ws (sz : nat) ext l, (if carries_data c then with_ext fill e (rq_msn r) (rq_words r) ws else header_only e (rq_msn r) ws) /\
    packet n ws (le_bytes sz ext ++ l) /\ (1 <= length l)%nat /\
    forall w1, packet n w1 (le_bytes sz ext ++ l) -> exists s o,
      runs (rx_process_exh blank) (mk_pexh EXH_META header_new header_new false RC_ACK w1 [c]) s o /\
      exh_metas o = [mk_exhMeta false (ibh_numPkg m)]) as (ws & sz & ext & l & Hws & Hpws & Hl & Hexh).
  { destruct Hkind as [E|(Hc & Hne & Hpay)].
    - fold c in E. rewrite Hcnt, E. cbn [carries_data].
      destruct (header_only_packet e (rq_msn r) E) as (ws & l & Hws & Hpws & Hl).
      exists ws, 16%nat, (read_header e (rq_msn r)), l. split; [done|]. split; [done|]. split; [lia|].
      intros w1 Hw1. destruct (read_counted _ _ _ (read_header_fits e (rq_msn r)) Hl Hw1) as (s & o & Hr & Ho).
      exists s, o. split; [done|]. rewrite Ho. unfold read_header.
      by destruct (reth_fields 0 (ev_addr e) (tx_r_key (rq_msn r)) (ev_length e) Ha Hk Hlen) as (_ & _ & ->).
    - fold c in Hc. rewrite Hcnt, Hc.
      destruct (with_ext_packet fill n width wide e (rq_msn r) _ _ Hc Hne Hpay) as (ws & Hws & Hpws).
      eexists ws, _, _, _. split; [done|]. split; [done|]. split; [by eapply packet_length|].
      intros w1 Hw1. destruct (exh_packet n width wide blank c _ _ _ Hc (ext_header_fits e (rq_msn r)) Hw1) as (s & o & Hr & _ & _ & _ & Ho & _).
      exists s, o. split; [done|]. rewrite Ho.
      pose proof (proj1 (ext_header_reads e (rq_msn r) Ha Hlen Hk Hm)) as E. fold c in E. by rewrite E. }
  destruct (with_bth_packet fill n width wide v ws _ Hpws) as (wire & Hb & Hpw).
  destruct (ibh_packet n width wide v wire _ Hfv Hpw) as (s1 & o1 & Hr1 & _ & Hw1 & Hm1 & Hc1).
  assert (12 < length (le_bytes 12 v ++ le_bytes sz ext ++ l))%nat as Hl12
    by (rewrite !length_app, length_le_bytes; lia).
  destruct (unshifted_packet WIDTH n width 12 wire _ ltac:(lia) Hl12 Hpw) as (w1 & Hu1 & Hp1).
  rewrite drop_app_length' in Hp1 by (by rewrite length_le_bytes).
  destruct (Hexh w1 Hp1) as (s2 & o2 & Hr2 & Ho2).
  exists (meta_of_bth v, mk_exhMeta false (ibh_numPkg m)). split.
  - exists (mk_header false 0 v), ws, wire, s1, o1, w1, s2, o2. rewrite Hw1, Hc1, Hcode. split_and!; done.
  - unfold reads. cbn [fst snd]. rewrite Hp. split_and!; try done.
    + change (bth_getOpCode v = ibh_op_code m). by rewrite Hcode, Hop.
    + unfold meta_of_bth, ibhMeta_psn. cbn [ibh_dest_qp]. rewrite Hdv. by apply wrap_small.
    + exists (mk_header false 0 v). split; [done|]. cbn. apply wrap_small. apply (reverse_fits 3).
Qed.

Lemma merged_one r :
  request_ok r -> exists m, merged (rq_event r) = [m] /\ checkIfResponse (ibh_op_code m) = false.
Proof.
  intros (Hreq & Hv & _ & _ & _ & _ & [E|(Hc & _)]).
  - rewrite merged_read by done. by eexists.
  - rewrite merged_data by done. by eexists.
Qed.
End wire_path.

(** The packets of one queue pair with the queue pair they go to. *)
Lemma local_headers (k kr : Z) log used (ms : list ibhMeta) dsts :
  (forall i m d, ms !! i = Some m -> dsts !! i = Some d -> u16 (ibh_dest_qp m) = k -> d = kr) ->
  fst <$> log `prefix_of` with_key <$> ms -> used `prefix_of` dsts ->
  Forall2 (fun p d => exists h, headers (snd p) = [h] /\ header_for (fst p) d h) log used ->
  Forall (fun p => exists h, headers (snd p) = [h] /\ header_for (fst p) kr h) (locals k log).
Proof.
  intros Hdst Hlog Hused HF. unfold locals. apply Forall_forall. intros p Hp.
  apply list_elem_of_filter in Hp as [Hloc Hin]. apply list_elem_of_lookup in Hin as [i Hi].
  destruct (Forall2_lookup_l _ _ _ _ _ HF Hi) as (d & Hd & h & Hh & Hf).
  assert ((with_key <$> ms) !! i = Some (fst p)) as Hm
    by (eapply prefix_lookup_Some; [|exact Hlog]; by rewrite list_lookup_fmap, Hi).
  rewrite list_lookup_fmap in Hm. destruct (ms !! i) as [m|] eqn:Em; [|done]. injection Hm as Hm.
  exists h. split; [done|]. replace kr with d; [done|].
  apply (Hdst i m); [done | by eapply prefix_lookup_Some |].
  unfold is_local in Hloc. apply andb_true_iff in Hloc as [_ Hq]. rewrite <- Hm in Hq. cbn in Hq. lia.
Qed.

(** C30: Both sides of a connection agree on the numbers, over words of more than
    128 bits.  The requests of a queue pair - writes and sends with data, and reads,
    none with a number of its own - go through [meta_merger] and
    [generate_ibh], with whatever acknowledgements, responses and
    retransmissions in between; each becomes words on the wire, from which
    [rx_process_ibh] and [rx_process_exh] of the other node read the operation,
    the number and, of a read request, the count of the packets of its
    response.  When these packets reach the queue pair they are addressed to
    in the order they are sent, every one of them is accepted, from a state
    in which the receiver expects the sender's next number on and across the wrap-around of the 24-bit numbers:
    the count the receiver computes is the one the sender left room for. *)
Theorem requests_accepted (t0 t1 : gmap Z stateTableEntry) ls (s : gens) (k kr : Z) (rs : list request) :
  WIDTH = 8 * Z.of_nat n -> (16 < n)%nat ->
  psns_fit t0 -> steps gen_step ls (gens_init t0) = Next s ->
  Forall op_ok (IbTxFacts.ibh_metas ls) -> Forall (fits 24) (ibh_dsts ls) ->
  (forall i m d, IbTxFacts.ibh_metas ls !! i = Some m -> ibh_dsts ls !! i = Some d -> u16 (ibh_dest_qp m) = k -> d = kr) ->
  Forall request_ok rs -> fst <$> locals k (gn_log s) = with_key <$> (rs ≫= fun r => merged (rq_event r)) ->
  numbers_fit t1 -> fits 16 kr -> se_resp_epsn (state_at t1 kr) = next_psn t0 k ->
  exists sent : list (ibhMeta * exhMeta),
    Forall2 (fun rp a => arrives (fst rp) (snd (snd rp)) a) (zip rs (locals k (gn_log s))) sent /\
    length sent = length rs /\ acceptances t1 (arrival <$> sent) = sent.
Proof.
  intros HW Hn Hfit Hs Hops Hdsts Hdst Hok Hrs Hfit1 Hkr Ht.
  destruct (GenInv_run _ _ _ Hfit Hs) as (_ & _ & Hnum). specialize (Hnum k) as [_ Hnum].
  destruct (headers_written _ _ _ Hs Hops Hdsts) as (used & Hused & HF).
  assert (fst <$> gn_log s `prefix_of` with_key <$> IbTxFacts.ibh_metas ls) as Hpre
    by (rewrite <- (Ordered_run _ _ _ Hs); by eexists).
  pose proof (local_headers k kr _ _ _ _ Hdst Hpre Hused HF) as Hh.
  set (l := locals k (gn_log s)) in *.
  assert (Forall2 (fun r p => exists m, merged (rq_event r) = [m] /\ fst p = with_key m /\
    checkIfResponse (ibh_op_code m) = false) rs l) as Hm.
  { clear - Hrs Hok. revert Hrs. generalize l. clear l. induction Hok as [|r rs Hr Hok IH]; intros l Hrs.
    - destruct l; [by constructor | done].
    - destruct (merged_one r Hr) as (m & Hm & Hc). cbn [mbind list_bind] in Hrs. rewrite Hm in Hrs. cbn [app] in Hrs.
      destruct l as [|p l]; [done|]. injection Hrs as Hp Hrs. constructor; [by exists m | by apply IH]. }
  assert (exists sent, Forall2 (fun rp a => arrives (fst rp) (snd (snd rp)) a /\ reads kr (snd rp) a) (zip rs l) sent) as [sent Hsent].
  { clear - Hm Hh Hok Hkr HW Hn. induction Hm as [|r p rs l (m & Hm & Hp & _) _ IH]; [by exists []|].
    apply Forall_cons in Hh as [Hh1 Hh]. apply Forall_cons in Hok as [Hr Hok].
    destruct (IH Hok Hh) as [sent Hsent].
    destruct (request_arrives HW Hn kr r m kr p) as (a & Ha); try done; [by apply (fits_weaken 16)|].
    exists (a :: sent). by constructor. }
  exists sent. split; [by eapply Forall2_impl; [exact Hsent|]; intros ? ? [? _]|].
  pose proof (Forall2_length _ _ _ Hm) as Hlen. split.
  - rewrite <- (Forall2_length _ _ _ Hsent), length_zip_with. lia.
  - apply (numbered_accepted kr (next_psn t0 k) (next_after (gn_tbl s) k) l); try done.
    + eapply Forall2_Forall_r; [exact Hm|]. apply Forall_true. intros r p (m & _ & -> & Hc). exact Hc.
    + clear - Hsent Hlen. revert rs Hsent Hlen. generalize sent. clear sent.
      induction l as [|p l IH]; intros sent [|r rs] Hsent Hlen; try done; cbn [zip zip_with] in Hsent.
      * apply Forall2_nil_inv_l in Hsent as ->. constructor.
      * apply Forall2_cons_inv_l in Hsent as (a & sent' & [_ Ha] & Hs & ->). constructor; [done|].
        eapply IH; [exact Hs|]. cbn in Hlen. lia.
Qed.
End path.

(** The run of IbTxFacts: a write, an acknowledgement, a read and a write, from
    queue pair 2 to queue pair 9. *)
Definition path_write : request := mk_request (event_local RC_RDMA_WRITE_ONLY 2 0x1234 70) (mk_txMsn 0 5) demo_payload demo_bytes.
Definition path_read : request := mk_request (event_local RC_RDMA_READ_REQUEST 2 0x5678 2500) (mk_txMsn 0 5) [] [].
Definition path_table : gmap Z stateTableEntry := {[9 := state_setup 40 7]}.

Lemma requests_accepted_witness :
  exists sent : list (ibhMeta * exhMeta),
    Forall2 (fun rp a => @arrives small_roce 77 0 (fst rp) (snd (snd rp)) a)
      (zip [path_write; path_read; path_write] (locals 2 (gn_log tx_demo_end))) sent /\
    length sent = 3%nat /\ acceptances path_table (arrival <$> sent) = sent.
Proof.
  assert (packet 64 demo_payload demo_bytes) as Hp
    by (apply (packet_more 64 0x0A0B0C), (packet_last 64 0x060504030201 6); lia).
  assert (request_ok 64 path_write) as Hw
    by (unfold request_ok; split_and!; [reflexivity..| vm_compute; intuition discriminate | vm_compute; intuition discriminate
        | vm_compute; intuition discriminate | vm_compute; intuition discriminate | right; split_and!; [reflexivity | discriminate | exact Hp]]).
  assert (request_ok 64 path_read) as Hr
    by (unfold request_ok; split_and!; [reflexivity..| vm_compute; intuition discriminate | vm_compute; intuition discriminate
        | vm_compute; intuition discriminate | vm_compute; intuition discriminate | by left]).
  assert (numbers_fit path_table) as Hfit.
  { intros k. unfold state_at, path_table. destruct (decide (9 = k)) as [<-|Hne];
      [rewrite lookup_singleton_eq | rewrite lookup_singleton_ne by exact Hne]; vm_compute; intuition discriminate. }
  apply (@requests_accepted small_roce 77 0 0 0 64 tx_demo_table path_table tx_demo tx_demo_end 2 9 [path_write; path_read; path_write]).
  - reflexivity.
  - lia.
  - exact tx_demo_fit.
  - exact tx_demo_run.
  - repeat constructor; vm_compute; intuition discriminate.
  - repeat constructor; vm_compute; intuition discriminate.
  - intros i m d _ Hd _. do 4 (destruct i as [|i]; [vm_compute in Hd; congruence|]). vm_compute in Hd. discriminate.
  - by constructor; [|constructor; [|constructor]].
  - vm_compute. reflexivity.
  - exact Hfit.
  - vm_compute. intuition discriminate.
  - reflexivity.
Defined.
