(* ===== verification/Ethernet.v ===== *)
(** Ethernet: the header ([ethernet.hpp]), the padding of short frames
    ([ethernet_frame_padding.cpp], [ethernet_frame_padding_512.cpp]), and the
    module that turns IP packets into frames ([mac_ip_encode.cpp]): it asks for
    the hardware address, writes the IP checksum and puts the header in front. *)
From stdpp Require Import base numbers list strings.
From Stdlib Require Import ZArith Lia.
From S2P Require Import Prelude Axi Streams Ipv4.

Local Open Scope Z_scope.

(** ** The header *)

Definition ETH_HEADER_SIZE : Z := 112.
Definition ETHERTYPE_IPV4 : Z := 0x0800.

Definition eth_setDstAddress (h addr : Z) : Z := set_bits h 0 48 addr.
Definition eth_setSrcAddress (h addr : Z) : Z := set_bits h 48 48 addr.
Definition eth_setEthertype (h type : Z) : Z := set_bits h 96 16 (reverse 2 type).
Definition eth_getEthertype (h : Z) : Z := reverse 2 (bits h 96 16).

(** ** Padding *)

Record padder : Type := mk_padder { pd_state : bool; pd_wordCounter : Z; pd_dataIn : list net_axis }.

(** Over words of 64 bits; [pd_state]: the frame has ended and is filled up.  The
    bytes behind the end of the frame in its last word are sent as they are. *)
Definition ethernet_frame_padding (s : padder) : padder * list net_axis :=
  match s with
  | mk_padder false cnt (w :: input) =>
      let cnt' := u8 (cnt + 1) in
      if a_last w then
        if cnt' <? 8 then (mk_padder true cnt' input, [mk_axis (a_data w) 0xFF false])
        else (mk_padder false 0 input,
              [mk_axis (a_data w) (if (cnt' =? 8) && (a_keep w <? 0xF) then 0x0F else a_keep w) true])
      else (mk_padder false cnt' input, [w])
  | mk_padder true cnt input =>
      let cnt' := u8 (cnt + 1) in
      if cnt' =? 8 then (mk_padder false 0 input, [mk_axis 0 0x0F true])
      else (mk_padder true cnt' input, [mk_axis 0 0xFF false])
  | mk_padder false _ [] => (s, [])
  end.

(** A byte that is not valid is cleared and marked valid. *)
Definition pad_byte (w : net_axis) (i : nat) : net_axis :=
  if Z.testbit (a_keep w) (Z.of_nat i) then w
  else mk_axis (set_bits (a_data w) (8 * Z.of_nat i) 8 0) (set_bits (a_keep w) (Z.of_nat i) 1 1) (a_last w).

(** Over words of 512 bits; the state is whether the first word has passed. *)
Definition ethernet_frame_padding_512 (s : bool * list net_axis) : (bool * list net_axis) * list net_axis :=
  match s with
  | (false, w :: input) =>
      if a_last w then ((false, input), [foldl pad_byte w (seq 0 64)]) else ((true, input), [w])
  | (true, w :: input) => ((negb (a_last w), input), [w])
  | (_, []) => (s, [])
  end.

(** ** [mac_ip_encode] *)

Record arpTableReply : Type := mk_arpTableReply { ar_macAddress : Z; ar_hit : bool }.

(** [extract_ip_address]: what to ask the ARP server for. *)
Record eip : Type := mk_eip { eip_header : packetHeader; eip_metaWritten : bool; eip_dataIn : list net_axis }.
Inductive eip_out : Type :=
| EipWord (w : net_axis)          (* dataOut *)
| EipQuery (addr : Z).            (* arpTableOut *)

Definition eip_init (input : list net_axis) : eip := mk_eip ipv4Header false input.

Section extract_ip_address.
Context (W regSubNetMask regDefaultGateway : Z).

(** An address outside the subnet is reached through the gateway. *)
Definition next_hop (dst : Z) : Z :=
  if Z.land dst regSubNetMask =? Z.land regDefaultGateway regSubNetMask then dst else regDefaultGateway.

Definition extract_ip_address (s : eip) : eip * list eip_out :=
  match s with
  | mk_eip h written (w :: input) =>
      let h' := parseWord W IPV4_HEADER_SIZE h (a_data w) in
      let ask := h_ready h' && negb written in
      (if a_last w then mk_eip (header_clear h') false input else mk_eip h' (written || ask) input,
       EipWord w :: if ask then [EipQuery (next_hop (ip_getDstAddr (h_header h')))] else [])
  | _ => (s, [])
  end.
End extract_ip_address.

(** [insert_ip_checksum] *)
Record iic : Type := mk_iic {
  iic_wordCount : Z; iic_checksum : Z; iic_dataIn : list net_axis; iic_checksumFifoIn : list Z }.

Definition iic_init (input : list net_axis) (checksums : list Z) : iic := mk_iic 0 0 input checksums.

Section insert_ip_checksum.
Context (W : Z).

Definition insert_ip_checksum (s : iic) : iic * list net_axis :=
  let set w lo c := mk_axis (set_bits (a_data w) lo 16 (reverse 2 c)) (a_keep w) (a_last w) in
  match s with
  | mk_iic cnt cs (w :: input) css =>
      if cnt =? 0 then
        match css with
        | c :: css' => (mk_iic (if a_last w then 0 else 1) c input css', [if 64 <? W then set w 80 c else w])
        | [] => (s, [])
        end
      else if cnt =? 1 then
        (mk_iic (if a_last w then 0 else 2) cs input css, [if W =? 64 then set w 16 cs else w])
      else (mk_iic (if a_last w then 0 else cnt) cs input css, [w])
  | _ => (s, [])
  end.
End insert_ip_checksum.

(** [handle_arp_reply]: a packet whose address is not known is dropped. *)
Inductive harState : Type := HAR_ARP | HAR_FWD | HAR_DROP.
Record har : Type := mk_har { har_state : harState; har_arpTableIn : list arpTableReply; har_dataIn : list net_axis }.
Inductive har_out : Type :=
| HarHeader (h : packetHeader)    (* headerOut *)
| HarWord (w : net_axis).         (* dataOut *)

Section handle_arp_reply.
Context (myMacAddress : Z).

Definition eth_fill (h dst : Z) : Z := eth_setEthertype (eth_setSrcAddress (eth_setDstAddress h dst) myMacAddress) ETHERTYPE_IPV4.

Definition handle_arp_reply (s : har) : har * list har_out :=
  match s with
  | mk_har HAR_ARP (r :: arp) (w :: input) =>
      let next st := mk_har (if a_last w then HAR_ARP else st) arp input in
      if ar_hit r then (next HAR_FWD, [HarHeader (mk_header false 0 (eth_fill 0 (ar_macAddress r))); HarWord w])
      else (next HAR_DROP, [])
  | mk_har HAR_FWD arp (w :: input) => (mk_har (if a_last w then HAR_ARP else HAR_FWD) arp input, [HarWord w])
  | mk_har HAR_DROP arp (w :: input) => (mk_har (if a_last w then HAR_ARP else HAR_DROP) arp input, [])
  | _ => (s, [])
  end.
End handle_arp_reply.

(** [insert_ethernet_header] *)
Inductive iehState : Type := IEH_HEADER | IEH_PARTIAL | IEH_BODY.
Record ieh : Type := mk_ieh {
  ieh_state : iehState; ieh_header : packetHeader; ieh_headerIn : list packetHeader; ieh_dataIn : list net_axis }.

Section insert_ethernet_header.
Context (W : Z).
(** What a new word holds. *)
Context (fill : Z).

(** The state in which a frame begins. *)
Definition ieh_start : iehState := if W <=? ETH_HEADER_SIZE then IEH_HEADER else IEH_PARTIAL.
Definition ieh_init (hdrs : list packetHeader) (input : list net_axis) : ieh := mk_ieh ieh_start header_new hdrs input.

Definition insert_ethernet_header (s : ieh) : ieh * list net_axis :=
  let '(mk_ieh st h hdrs input) := s in
  match st with
  | IEH_HEADER =>
      match hdrs with
      | h0 :: hdrs' =>
          let '(h', d, _) := consumeWord W ETH_HEADER_SIZE h0 fill in
          (mk_ieh IEH_PARTIAL h' hdrs' input, [mk_axis d (Z.ones (W / 8)) false])
      | [] => (s, [])
      end
  | IEH_PARTIAL =>
      let one h0 hdrs' :=
        match input with
        | w :: input' =>
            let '(h', d, _) := consumeWord W ETH_HEADER_SIZE h0 (a_data w) in
            (mk_ieh (if a_last w then ieh_start else IEH_BODY) h' hdrs' input', [mk_axis d (a_keep w) (a_last w)])
        | [] => (s, [])
        end in
      if W <=? ETH_HEADER_SIZE then one h hdrs
      else match hdrs with h0 :: hdrs' => one h0 hdrs' | [] => (s, []) end
  | IEH_BODY =>
      match input with
      | w :: input' => (mk_ieh (if a_last w then ieh_start else IEH_BODY) h hdrs input', [w])
      | [] => (s, [])
      end
  end.
End insert_ethernet_header.

(** [generate_ethernet]: the two steps in one process; not used. *)
Inductive geEthState : Type := GETH_META | GETH_HEADER | GETH_PARTIAL | GETH_BODY | GETH_DROP.
Record geth : Type := mk_geth {
  geth_state : geEthState; geth_header : packetHeader; geth_arpTableIn : list arpTableReply; geth_dataIn : list net_axis }.

Section generate_ethernet.
Context (W myMacAddress fill : Z).

Definition generate_ethernet (s : geth) : geth * list net_axis :=
  let '(mk_geth st h arp input) := s in
  match st with
  | GETH_META =>
      match arp with
      | r :: arp' =>
          if ar_hit r then
            (mk_geth (if W <=? ETH_HEADER_SIZE then GETH_HEADER else GETH_PARTIAL)
               (mk_header false 0 (eth_fill myMacAddress (h_header h) (ar_macAddress r))) arp' input, [])
          else (mk_geth GETH_DROP (header_clear h) arp' input, [])
      | [] => (s, [])
      end
  | GETH_HEADER =>
      let '(h', d, remaining) := consumeWord W ETH_HEADER_SIZE h fill in
      (mk_geth (if remaining <? W / 8 then GETH_PARTIAL else GETH_HEADER) h' arp input, [mk_axis d (Z.ones (W / 8)) false])
  | GETH_PARTIAL =>
      match input with
      | w :: input' =>
          let '(h', d, _) := consumeWord W ETH_HEADER_SIZE h (a_data w) in
          (mk_geth (if a_last w then GETH_META else GETH_BODY) h' arp input', [mk_axis d (a_keep w) (a_last w)])
      | [] => (s, [])
      end
  | GETH_BODY =>
      match input with
      | w :: input' => (mk_geth (if a_last w then GETH_META else GETH_BODY) h arp input', [w])
      | [] => (s, [])
      end
  | GETH_DROP =>
      match input with
      | w :: input' => (mk_geth (if a_last w then GETH_META else GETH_DROP) h arp input', [])
      | [] => (s, [])
      end
  end.
End generate_ethernet.
