(* ===== verification/Arp.v ===== *)
(** The ARP server ([arp_server_subnet.cpp], [arp_server_subnet.hpp]): it answers
    requests for its own address, keeps the table of the subnet's hardware
    addresses, and asks for those it does not know. *)
From stdpp Require Import base numbers list gmap strings.
From Stdlib Require Import ZArith Lia.
From S2P Require Import Prelude Axi Streams StreamsFacts Wire Ethernet.

Local Open Scope Z_scope.

(** ** The packet *)

Definition ARP_HEADER_SIZE : Z := 336.
Definition ARP_OP_REQUEST : Z := 0x0100.
Definition ARP_OP_REPLY : Z := 0x0200.
Definition BROADCAST_MAC : Z := 0xFFFFFFFFFFFF.

Record arpTableEntry : Type := mk_arpTableEntry { ae_ipAddress : Z; ae_macAddress : Z; ae_valid : bool }.
Record arpReplyMeta : Type := mk_arpReplyMeta { am_srcMacAddr : Z; am_senderHwAddr : Z; am_senderProtoAddr : Z }.

(** Numbers are in network order already; the length of addresses of the protocol
    is written to seven bits. *)
Definition arpHeader : packetHeader :=
  mk_header false 0
    (set_bits (set_bits (set_bits (set_bits (set_bits 0 96 16 0x0608) 112 16 0x0100) 128 16 0x0008) 144 8 6) 152 7 4).

Definition arp_setDstMacAddr (h addr : Z) : Z := set_bits h 0 48 addr.
Definition arp_getDstMacAddr (h : Z) : Z := bits h 0 48.
Definition arp_setSrcMacAddr (h addr : Z) : Z := set_bits h 48 48 addr.
Definition arp_getSrcMacAddr (h : Z) : Z := bits h 48 48.
Definition arp_setSenderHwAddr (h addr : Z) : Z := set_bits h 176 48 addr.
Definition arp_getSenderHwAddr (h : Z) : Z := bits h 176 48.
Definition arp_setSenderProtoAddr (h addr : Z) : Z := set_bits h 224 32 addr.
Definition arp_getSenderProtoAddr (h : Z) : Z := bits h 224 32.
Definition arp_setTargetHwAddr (h addr : Z) : Z := set_bits h 256 48 addr.
Definition arp_getTargetHwAddr (h : Z) : Z := bits h 256 48.
Definition arp_setTargetProtoAddr (h addr : Z) : Z := set_bits h 304 32 addr.
Definition arp_getTargetProtoAddr (h : Z) : Z := bits h 304 32.
Definition arp_setRequest (h : Z) : Z := set_bits h 160 16 ARP_OP_REQUEST.
Definition arp_isRequest (h : Z) : bool := bits h 160 16 =? ARP_OP_REQUEST.
Definition arp_setReply (h : Z) : Z := set_bits h 160 16 ARP_OP_REPLY.
Definition arp_isReply (h : Z) : bool := bits h 160 16 =? ARP_OP_REPLY.

(** ** [process_arp_pkg] *)

Record pap : Type := mk_pap { pap_header : packetHeader; pag_requestCounter : Z; pag_replyCounter : Z; pap_dataIn : list net_axis }.

Inductive pap_out : Type :=
| PapReply (m : arpReplyMeta)       (* arpReplyMetaFifo *)
| PapInsert (e : arpTableEntry)     (* arpTableInsertFifo *)
| PapRequests (n : Z)               (* regRequestCount *)
| PapReplies (n : Z).               (* regReplyCount *)

Definition pap_init (input : list net_axis) : pap := mk_pap arpHeader 0 0 input.

Section process_arp_pkg.
Context (W myIpAddress : Z).

Definition process_arp_pkg (s : pap) : pap * list pap_out :=
  match s with
  | mk_pap h reqs reps (w :: input) =>
      let h' := parseWord W ARP_HEADER_SIZE h (a_data w) in
      let v := h_header h' in
      if a_last w then
        if arp_getTargetProtoAddr v =? myIpAddress then
          if arp_isRequest v then
            (mk_pap (header_clear h') (u16 (reqs + 1)) reps input,
             [PapReply (mk_arpReplyMeta (arp_getSrcMacAddr v) (arp_getSenderHwAddr v) (arp_getSenderProtoAddr v)); PapRequests (u16 (reqs + 1))])
          else if arp_isReply v then
            (mk_pap (header_clear h') reqs (u16 (reps + 1)) input,
             [PapInsert (mk_arpTableEntry (arp_getSenderProtoAddr v) (arp_getSenderHwAddr v) true); PapReplies (u16 (reps + 1))])
          else (mk_pap (header_clear h') reqs reps input, [])
        else (mk_pap (header_clear h') reqs reps input, [])
      else (mk_pap h' reqs reps input, [])
  | _ => (s, [])
  end.
End process_arp_pkg.

(** ** [generate_arp_pkg] *)

Inductive gapState : Type := GAP_IDLE | GAP_HEADER | GAP_PARTIAL.

Record gap : Type := mk_gap {
  gap_state : gapState; gap_header : packetHeader; gap_remaining : Z; arpReplyMetaFifo : list arpReplyMeta; arpRequestMetaFifo : list Z }.

Definition gap_init (replies : list arpReplyMeta) (requests : list Z) : gap := mk_gap GAP_IDLE arpHeader 0 replies requests.

Section generate_arp_pkg.
Context (W myMacAddress myIpAddress : Z).

Definition arp_reply_fill (v : Z) (m : arpReplyMeta) : Z :=
  let v := arp_setDstMacAddr v (am_srcMacAddr m) in
  let v := arp_setSrcMacAddr v myMacAddress in
  let v := arp_setReply v in
  let v := arp_setSenderHwAddr v myMacAddress in
  let v := arp_setSenderProtoAddr v myIpAddress in
  let v := arp_setTargetHwAddr v (am_senderHwAddr m) in
  arp_setTargetProtoAddr v (am_senderProtoAddr m).

Definition arp_request_fill (v ip : Z) : Z :=
  let v := arp_setDstMacAddr v BROADCAST_MAC in
  let v := arp_setSrcMacAddr v myMacAddress in
  let v := arp_setRequest v in
  let v := arp_setSenderHwAddr v myMacAddress in
  let v := arp_setSenderProtoAddr v myIpAddress in
  let v := arp_setTargetHwAddr v 0 in
  arp_setTargetProtoAddr v ip.

Definition generate_arp_pkg (s : gap) : gap * list net_axis :=
  let '(mk_gap st h rem replies requests) := s in
  match st with
  | GAP_IDLE =>
      let h := header_clear h in
      match replies, requests with
      | m :: replies', _ => (mk_gap GAP_HEADER (mk_header (h_ready h) (h_idx h) (arp_reply_fill (h_header h) m)) rem replies' requests, [])
      | [], ip :: requests' =>
          (mk_gap GAP_HEADER (mk_header (h_ready h) (h_idx h) (arp_request_fill (h_header h) ip)) rem replies requests', [])
      | [], [] => (mk_gap GAP_IDLE h rem replies requests, [])
      end
  | GAP_HEADER =>
      let '(h', d, rem') := consumeWord W ARP_HEADER_SIZE h 0 in
      if ARP_HEADER_SIZE <? W then
        (mk_gap GAP_IDLE h' rem' replies requests, [mk_axis d (wrap (W / 8) (lenToKeep (wrap 6 (ARP_HEADER_SIZE / 8)))) true])
      else
        (mk_gap (if rem' <? W / 8 then GAP_PARTIAL else GAP_HEADER) h' rem' replies requests, [mk_axis d (Z.ones (W / 8)) false])
  | GAP_PARTIAL =>
      let '(h', d, _) := consumeWord W ARP_HEADER_SIZE h 0 in
      (mk_gap GAP_IDLE h' rem replies requests, [mk_axis d (wrap (W / 8) (lenToKeep (wrap 6 rem))) true])
  end.
End generate_arp_pkg.

(** ** [arp_table]: one entry for each last byte of an address *)

Record arpt : Type := mk_arpt {
  arpTable : gmap Z arpTableEntry; arpTableInsertFifo : list arpTableEntry; macIpEncode_req : list Z; hostIpEncode_req : list Z }.

Inductive arpt_out : Type :=
| ArpMac (r : arpTableReply)        (* macIpEncode_rsp *)
| ArpHost (r : arpTableReply)       (* hostIpEncode_rsp *)
| ArpAsk (ip : Z).                  (* arpRequestMetaFifo *)

Definition arp_at (t : gmap Z arpTableEntry) (ip : Z) : arpTableEntry := default (mk_arpTableEntry 0 0 false) (t !! bits ip 24 8).
Definition arp_answer (e : arpTableEntry) : arpTableReply := mk_arpTableReply (ae_macAddress e) (ae_valid e).
Definition arp_miss (e : arpTableEntry) (ip : Z) : list arpt_out := if ae_valid e then [] else [ArpAsk ip].

Definition arp_table (s : arpt) : arpt * list arpt_out :=
  match s with
  | mk_arpt t (e :: ins) macs hosts => (mk_arpt (<[bits (ae_ipAddress e) 24 8 := e]> t) ins macs hosts, [])
  | mk_arpt t [] (ip :: macs) hosts => (mk_arpt t [] macs hosts, arp_miss (arp_at t ip) ip ++ [ArpMac (arp_answer (arp_at t ip))])
  | mk_arpt t [] [] (ip :: hosts) => (mk_arpt t [] [] hosts, arp_miss (arp_at t ip) ip ++ [ArpHost (arp_answer (arp_at t ip))])
  | _ => (s, [])
  end.
