(* ===== verification/IpHandler.v ===== *)
(** The module that sorts received frames ([ip_handler.cpp]): by Ethernet type,
    then, with the Ethernet header taken off and the IP checksum and destination
    checked, by IP protocol.  Each process is a function of its static variables
    and input streams; a call is one iteration. *)
From stdpp Require Import base numbers list strings.
From Stdlib Require Import ZArith Lia.
From S2P Require Import Prelude Axi Streams Ipv4 Ethernet.

Local Open Scope Z_scope.

(** ** Protocol numbers *)

Definition ARP : Z := 0x0806.
Definition IPv4 : Z := 0x0800.
Definition IPv6 : Z := 0x86DD.
Definition ICMP : Z := 0x01.
Definition ICMPv6 : Z := 0x3a.
Definition UDP : Z := 0x11.
Definition TCP : Z := 0x06.

(** ** Frames *)

(** [detect_eth_protocol] *)
Record dep : Type := mk_dep { dep_header : packetHeader; dep_metaWritten : bool; dep_dataIn : list net_axis }.
Inductive dep_out : Type :=
| DepType (t : Z)              (* etherTypeFifo *)
| DepWord (w : net_axis).      (* dataOut *)

Definition dep_init (input : list net_axis) : dep := mk_dep header_new false input.

Section detect_eth_protocol.
Context (W : Z).

Definition detect_eth_protocol (s : dep) : dep * list dep_out :=
  match s with
  | mk_dep h written (w :: input) =>
      let h' := parseWord W ETH_HEADER_SIZE h (a_data w) in
      let tell := h_ready h' && negb written in
      (if a_last w then mk_dep (header_clear h') false input else mk_dep h' (written || tell) input,
       (if tell then [DepType (eth_getEthertype (h_header h'))] else []) ++ [DepWord w])
  | _ => (s, [])
  end.
End detect_eth_protocol.

(** [route_by_eth_protocol]: [rep_fsmState] is true inside a frame. *)
Record rep : Type := mk_rep {
  rep_fsmState : bool; rep_etherType : Z; rep_etherTypeFifoIn : list Z; rep_dataIn : list net_axis }.
Inductive ethRoute : Type := ToARP | ToIP | ToIPv6.

Section route_by_eth_protocol.
Context (W : Z).

(** The stream of a type; frames of other types are dropped. *)
Definition eth_route (t : Z) : option ethRoute :=
  if t =? ARP then Some ToARP else if t =? IPv4 then Some ToIP else if t =? IPv6 then Some ToIPv6 else None.

Definition send_on {R} (r : option R) (w : net_axis) : list (R * net_axis) :=
  match r with Some x => [(x, w)] | None => [] end.

(** Over words of 64 bits the first word of an IP frame, which has no IP bytes,
    is dropped. *)
Definition route_by_eth_protocol (s : rep) : rep * list (ethRoute * net_axis) :=
  match s with
  | mk_rep false _ (t :: types) (w :: input) =>
      (mk_rep (negb (a_last w)) t types input,
       match eth_route t with
       | Some ToARP => [(ToARP, w)]
       | r => if 64 <? W then send_on r w else []
       end)
  | mk_rep true t types (w :: input) => (mk_rep (negb (a_last w)) t types input, send_on (eth_route t) w)
  | _ => (s, [])
  end.
End route_by_eth_protocol.

(** ** IP packets *)

(** [extract_ip_meta] *)
Record eim : Type := mk_eim { eim_header : packetHeader; eim_metaWritten : bool; eim_dataIn : list net_axis }.
Inductive eim_out : Type :=
| EimWord (w : net_axis)          (* dataOut *)
| EimValid (b : bool)             (* validIpAddressFifo *)
| EimProtocol (p : Z).            (* ipv4Protocol *)

Definition eim_init (input : list net_axis) : eim := mk_eim ipv4Header false input.

Section extract_ip_meta.
Context (W myIpAddress : Z).

Definition extract_ip_meta (s : eim) : eim * list eim_out :=
  match s with
  | mk_eim h written (w :: input) =>
      let h' := parseWord W IPV4_HEADER_SIZE h (a_data w) in
      let dst := ip_getDstAddr (h_header h') in
      let tell := h_ready h' && negb written in
      (if a_last w then mk_eim (header_clear h') false input else mk_eim h' (written || tell) input,
       EimWord w :: if tell then [EimValid ((dst =? myIpAddress) || (dst =? 0xFFFFFFFF));
                                  EimProtocol (ip_getProtocol (h_header h'))] else [])
  | _ => (s, [])
  end.
End extract_ip_meta.

(** [ip_invalid_dropper] *)
Inductive iidState : Type := GET_VALID | IID_FWD | IID_DROP.
Record iid : Type := mk_iid {
  iid_state : iidState; iid_dataIn : list net_axis; validChecksumFifoIn : list bool; validIpAddressFifoIn : list bool }.
Inductive iid_out : Type :=
| IidValid (b : bool)             (* ipv4ValidFifoOut *)
| IidWord (w : net_axis).         (* dataOut *)

Definition ip_invalid_dropper (s : iid) : iid * list iid_out :=
  match s with
  | mk_iid GET_VALID input (c :: cs) (a :: addrs) =>
      (mk_iid (if c && a then IID_FWD else IID_DROP) input cs addrs, [IidValid (c && a)])
  | mk_iid IID_FWD (w :: input) cs addrs => (mk_iid (if a_last w then GET_VALID else IID_FWD) input cs addrs, [IidWord w])
  | mk_iid IID_DROP (w :: input) cs addrs => (mk_iid (if a_last w then GET_VALID else IID_DROP) input cs addrs, [])
  | _ => (s, [])
  end.

(** [cut_length]: the padding of the frame is cut off.  [cl_drop]: the rest of
    the frame is dropped.  The lengths are counted in words of 8 bytes. *)
Record cutter : Type := mk_cutter { cl_drop : bool; cl_wordCount : Z; cl_totalLength : Z; cl_dataIn : list net_axis }.

(** The total length in the first word of a packet. *)
Definition total_length (d : Z) : Z := set_bits (set_bits 0 0 8 (bits d 24 8)) 8 8 (bits d 16 8).

Section cut_length.
Context (W : Z).

Definition cut_length (s : cutter) : cutter * list net_axis :=
  match s with
  | mk_cutter false cnt total (w :: input) =>
      let total' := if cnt =? 0 then total_length (a_data w) else total in
      let cut := negb (cnt =? 0) && (total <=? (cnt + 1) * 8) in
      let w' := if cut then mk_axis (a_data w) (wrap (W / 8) (lenToKeep (wrap 6 (wrap 4 (total - cnt * 8))))) true else w in
      (mk_cutter (cut && negb (a_last w)) (if a_last w' then 0 else u16 (cnt + 1)) total' input, [w'])
  | mk_cutter true cnt total (w :: input) => (mk_cutter (negb (a_last w)) cnt total input, [])
  | _ => (s, [])
  end.

End cut_length.

(** The overload for words of 512 bits: only a packet of one word is cut.  The
    state is whether the first word has passed. *)
Definition cut_length_512 (s : bool * list net_axis) : (bool * list net_axis) * list net_axis :=
  match s with
  | (false, w :: input) =>
      if a_last w then ((false, input), [mk_axis (a_data w) (lenToKeep (wrap 6 (total_length (a_data w)))) true])
      else ((true, input), [w])
  | (true, w :: input) => ((negb (a_last w), input), [w])
  | (_, []) => (s, [])
  end.

(** [detect_ipv4_protocol]: [dip_ipProtocol] is the protocol in the state
    [PKG]. *)
Inductive ipRoute : Type := ToICMP | ToUDP | ToTCP.

#[export] Instance ipRoute_eq_dec : EqDecision ipRoute.
Proof. solve_decision. Defined.

Record dip : Type := mk_dip {
  dip_ipProtocol : option Z; ipv4ProtocolIn : list Z; ipv4ValidIn : list bool; dip_dataIn : list net_axis }.

Definition ip_route (p : Z) : option ipRoute :=
  if p =? ICMP then Some ToICMP else if p =? UDP then Some ToUDP else if p =? TCP then Some ToTCP else None.

Definition detect_ipv4_protocol (s : dip) : dip * list (ipRoute * net_axis) :=
  match s with
  | mk_dip None (p :: protocols) (v :: valids) input => (mk_dip (if v then Some p else None) protocols valids input, [])
  | mk_dip (Some p) protocols valids (w :: input) =>
      (mk_dip (if a_last w then None else Some p) protocols valids input, send_on (ip_route p) w)
  | _ => (s, [])
  end.

(** [detect_ipv6_protocol]: [d6_nextHeader] is the next header inside a packet. *)
Inductive ip6Route : Type := ToICMPv6 | ToUDPv6.
Record dip6 : Type := mk_dip6 { d6_nextHeader : option Z; d6_dataIn : list net_axis }.

Definition ip6_route (p : Z) : option ip6Route :=
  if p =? ICMPv6 then Some ToICMPv6 else if p =? UDP then Some ToUDPv6 else None.

Definition detect_ipv6_protocol (s : dip6) : dip6 * list (ip6Route * net_axis) :=
  match s with
  | mk_dip6 st (w :: input) =>
      let p := match st with Some p => p | None => bits (a_data w) 48 8 end in
      (mk_dip6 (if a_last w then None else Some p) input, send_on (ip6_route p) w)
  | _ => (s, [])
  end.
