(* ===== verification/Udp.v ===== *)
(** The UDP module ([udp.hpp], [udp.cpp]): the header, the processes that put it
    in front of a payload and take it off, and the splitting and merging of the
    meta data for IP and UDP.  Each process is a function of its static variables
    and input streams; a call is one iteration. *)
From stdpp Require Import base numbers list strings.
From Stdlib Require Import ZArith Lia.
From S2P Require Import Prelude Axi Streams Ipv4 IbTypes.

Local Open Scope Z_scope.

(** ** Header and meta data *)

Definition UDP_HEADER_SIZE : Z := 64.

Record udpMeta : Type := mk_udpMeta { um_their_port : Z; um_my_port : Z; um_length : Z; um_valid : bool }.
Definition udpMeta_new (tport mport len : Z) : udpMeta := mk_udpMeta tport mport len true.

Definition udp_setSrcPort (h port : Z) : Z := set_bits h 0 16 (reverse 2 port).
Definition udp_getSrcPort (h : Z) : Z := reverse 2 (bits h 0 16).
Definition udp_setDstPort (h port : Z) : Z := set_bits h 16 16 (reverse 2 port).
Definition udp_getDstPort (h : Z) : Z := reverse 2 (bits h 16 16).
Definition udp_setLength (h len : Z) : Z := set_bits h 32 16 (reverse 2 len).
Definition udp_getLength (h : Z) : Z := reverse 2 (bits h 32 16).

(** ** [process_udp] *)

Record pudp : Type := mk_pudp { pu_header : packetHeader; pu_metaWritten : bool; pu_input : list net_axis }.
Inductive pudp_out : Type :=
| UdpWord (w : net_axis)          (* output *)
| UdpMeta (m : udpMeta).          (* metaOut *)

Definition pudp_init (input : list net_axis) : pudp := mk_pudp header_new false input.

Section process_udp.
Context (W regListenPort : Z).

Definition process_udp (s : pudp) : pudp * list pudp_out :=
  match s with
  | mk_pudp h written (w :: input) =>
      let h' := parseWord W UDP_HEADER_SIZE h (a_data w) in
      let dst := udp_getDstPort (h_header h') in
      let tell := h_ready h' && negb written in
      (if a_last w then mk_pudp (header_clear h') false input else mk_pudp h' (written || tell) input,
       (if written && (dst =? regListenPort) && (W <=? UDP_HEADER_SIZE) then [UdpWord w] else []) ++
       (if h_ready h' && (dst =? regListenPort) && (UDP_HEADER_SIZE <? W) then [UdpWord w] else []) ++
       (if tell then [UdpMeta (mk_udpMeta (udp_getSrcPort (h_header h')) dst (udp_getLength (h_header h')) (dst =? regListenPort))]
        else []))
  | _ => (s, [])
  end.
End process_udp.

(** ** [generate_udp] *)

Inductive gudpState : Type := GU_META | GU_HEADER | GU_PARTIAL | GU_BODY.
Record gudp : Type := mk_gudp {
  gu_state : gudpState; gu_header : packetHeader; gu_metaIn : list udpMeta; gu_input : list net_axis }.

Definition gudp_init (metas : list udpMeta) (input : list net_axis) : gudp := mk_gudp GU_META header_new metas input.

Section generate_udp.
Context (W : Z).
(** What a new word holds. *)
Context (fill : Z).

Definition udp_fill (v : Z) (m : udpMeta) : Z :=
  udp_setLength (udp_setSrcPort (udp_setDstPort v (um_their_port m)) (um_my_port m)) (um_length m).

Definition generate_udp (s : gudp) : gudp * list net_axis :=
  let '(mk_gudp st h metas input) := s in
  match st with
  | GU_META =>
      match metas with
      | m :: metas' =>
          (mk_gudp (if W <=? UDP_HEADER_SIZE then GU_HEADER else GU_PARTIAL)
             (mk_header false 0 (udp_fill (h_header h) m)) metas' input, [])
      | [] => (s, [])
      end
  | GU_HEADER =>
      let '(h', d, remaining) := consumeWord W UDP_HEADER_SIZE h fill in
      (mk_gudp (if remaining <? W / 8 then GU_PARTIAL else GU_HEADER) h' metas input,
       [mk_axis d (wrap (W / 8) 0xFFFFFFFF) false])
  | GU_PARTIAL =>
      match input with
      | w :: input' =>
          let '(h', d, _) := consumeWord W UDP_HEADER_SIZE h (a_data w) in
          (mk_gudp (if a_last w then GU_META else GU_BODY) h' metas input', [mk_axis d (a_keep w) (a_last w)])
      | [] => (s, [])
      end
  | GU_BODY =>
      match input with
      | w :: input' => (mk_gudp (if a_last w then GU_META else GU_BODY) h metas input', [w])
      | [] => (s, [])
      end
  end.
End generate_udp.

(** ** Meta data *)

(** The length is that of the payload; 8 bytes are added for the header. *)
Definition split_tx_meta (s : list ipUdpMeta) : list ipUdpMeta * list (ipv4Meta * udpMeta) :=
  match s with
  | m :: s' =>
      let tempLen := u16 (iu_length m + 8) in
      (s', [(ipv4Meta_new128 (iu_their_address m) tempLen, udpMeta_new (iu_their_port m) (iu_my_port m) tempLen)])
  | [] => (s, [])
  end.

(** The meta data of datagrams for other ports is dropped. *)
Definition merge_rx_meta (s : list ipv4Meta * list udpMeta) : (list ipv4Meta * list udpMeta) * list ipUdpMeta :=
  match s with
  | (i :: ips, u :: udps) =>
      ((ips, udps), if um_valid u
                    then [ipUdpMeta_new (im_their_address i) (um_their_port u) (um_my_port u) (um_length u)] else [])
  | _ => (s, [])
  end.
