(* ===== verification/FrameWire.v ===== *)
(** An IP packet from one node to another: into an Ethernet frame with its
    checksum ([mac_ip_encode]), padded, and on the other side through the sorting
    of frames and the checksum and address checks of [ip_handler].  Every stage is
    the process of the code, run on the output of the stage before it, over words
    of 512 bits. *)
From stdpp Require Import base numbers list strings.
From Stdlib Require Import ZArith Lia.
From S2P Require Import Prelude Axi Streams StreamsFacts Wire Ipv4 Ipv4Facts Ethernet IpHandler.

Local Open Scope Z_scope.

(** ** Frames *)

Definition eip_words (o : list eip_out) : list net_axis := omap (fun x => match x with EipWord w => Some w | _ => None end) o.
Definition eip_queries (o : list eip_out) : list Z := omap (fun x => match x with EipQuery q => Some q | _ => None end) o.
Definition har_words (o : list har_out) : list net_axis := omap (fun x => match x with HarWord w => Some w | _ => None end) o.
Definition har_headers (o : list har_out) : list packetHeader := omap (fun x => match x with HarHeader h => Some h | _ => None end) o.

(** [mac_ip_encode]: [query] is what the ARP server is asked, [mac] its answer. *)
Definition framed (fill mask gateway myMac query mac : Z) (ws out : list net_axis) : Prop :=
  exists s1 o1 s2 o2 t c s3 w3 s4 o4 h w5 s5,
    runs (extract_ip_address 512 mask gateway) (eip_init ws) s1 o1 /\ eip_queries o1 = [query] /\
    runs (mac_compute_ipv4_checksum true) (cics_init 32 (eip_words o1)) s2 o2 /\ cs_sums o2 = [t] /\
    mac_finalize_ipv4_checksum 32 [t] = ([], [c]) /\
    runs (insert_ip_checksum 512) (iic_init (cs_words o2) [c]) s3 w3 /\ iic_dataIn s3 = [] /\
    runs (handle_arp_reply myMac) (mk_har HAR_ARP [mk_arpTableReply mac true] w3) s4 o4 /\ har_dataIn s4 = [] /\
    har_headers o4 = [h] /\ shifted 512 14 (har_words o4) w5 /\
    runs (insert_ethernet_header 512 fill) (ieh_init 512 [h] w5) s5 out /\ ieh_dataIn s5 = [].

Lemma insert_body ws l cnt cs css :
  packet 64 ws l -> cnt = 1 \/ cnt = 2 -> runs (insert_ip_checksum 512) (mk_iic cnt cs ws css) (mk_iic 0 cs [] css) ws.
Proof.
  intros Hw. revert cnt. induction Hw as [d k Hk|d ws l Hw IH]; intros cnt Hc.
  - apply runs_one. by destruct Hc as [->| ->].
  - eapply (runs_step _ _ _ _ [_] ws); [|apply (IH 2); by right]. by destruct Hc as [->| ->].
Qed.

Lemma insert_packet ws l c :
  packet 64 ws l -> (12 <= length l)%nat ->
  exists out, runs (insert_ip_checksum 512) (iic_init ws [c]) (mk_iic 0 c [] []) out /\ packet 64 out (set_field c l).
Proof.
  intros Hw Hl. exists (patch_at 10 2 (reverse 2 c) ws). split; [|by apply packet_patch_at; [|lia|]].
  destruct Hw as [d k Hk|d ws l Hw]; cbn [patch_at].
  - by apply runs_one.
  - eapply (runs_step _ _ _ _ [_] ws); [reflexivity | apply (insert_body ws l); auto].
Qed.

Lemma fits_le_bytes_header (m : nat) (v : Z) (w : net_axis) ws l :
  (m <= 64)%nat -> packet 64 (w :: ws) (le_bytes m v ++ l) -> fits (8 * Z.of_nat m) v ->
  forall h, fits (8 * Z.of_nat m) h -> set_bits h 0 (8 * Z.of_nat m) (a_data w) = v.
Proof. intros Hm Hw Hv h Hh. exact (first_header 64 m v w ws l (mk_header false 0 h) Hm Hw Hv Hh). Qed.

Lemma ipv4Header_fits : fits 160 (h_header ipv4Header).
Proof. split; vm_compute; congruence. Qed.

(** The IP header in the first word of a packet, as every module reads it. *)
Lemma parse_ip (v : Z) w ws l :
  packet 64 (w :: ws) (le_bytes 20 v ++ l) -> fits 160 v ->
  parseWord 512 IPV4_HEADER_SIZE ipv4Header (a_data w) = mk_header true 1 v.
Proof.
  intros Hw Hv. unfold ipv4Header. rewrite parse_whole by (unfold IPV4_HEADER_SIZE; lia).
  f_equal. exact (fits_le_bytes_header 20 v w ws l ltac:(lia) Hw Hv _ ipv4Header_fits).
Qed.

Lemma extract_ip_packet mask gateway v ws l :
  packet 64 ws (le_bytes 20 v ++ l) -> fits 160 v ->
  exists s o, runs (extract_ip_address 512 mask gateway) (eip_init ws) s o /\
    eip_words o = ws /\ eip_queries o = [next_hop mask gateway (ip_getDstAddr v)].
Proof.
  intros Hw Hv. destruct (packet_nonempty _ _ _ Hw) as (w & ws' & ->).
  set (first := [EipWord w; EipQuery (next_hop mask gateway (ip_getDstAddr v))]).
  exists (mk_eip (mk_header false 0 v) false []), (first ++ (EipWord <$> ws')). split.
  - apply (observe_packet _ 64 _ (fun i => mk_eip (mk_header true 1 v) true i) (fun i => mk_eip (mk_header false 0 v) false i)
      EipWord first w ws' _ Hw).
    + unfold eip_init. cbn [extract_ip_address]. rewrite (parse_ip v w ws' l Hw Hv). by destruct (a_last w).
    + intros c input. cbn. by destruct (a_last c).
  - unfold eip_words, eip_queries, first. cbn [app omap list_omap]. by rewrite omap_words, omap_none.
Qed.

Lemma arp_packet myMac mac ws l :
  packet 64 ws l ->
  exists s o, runs (handle_arp_reply myMac) (mk_har HAR_ARP [mk_arpTableReply mac true] ws) s o /\ har_dataIn s = [] /\
    har_words o = ws /\ har_headers o = [mk_header false 0 (eth_fill myMac 0 mac)].
Proof.
  intros Hw. destruct (packet_nonempty _ _ _ Hw) as (w & ws' & ->).
  set (first := [HarHeader (mk_header false 0 (eth_fill myMac 0 mac)); HarWord w]).
  exists (mk_har HAR_ARP [] []), (first ++ (HarWord <$> ws')). split_and!; [|done|..].
  - apply (observe_packet _ 64 _ (fun i => mk_har HAR_FWD [] i) (fun i => mk_har HAR_ARP [] i) HarWord first w ws' _ Hw).
    + cbn. by destruct (a_last w).
    + intros c input. cbn. by destruct (a_last c).
  - unfold har_words, first. cbn [app omap list_omap]. by rewrite omap_words.
  - unfold har_headers, first. cbn [app omap list_omap]. by rewrite omap_none.
Qed.

Lemma ethernet_packet fill v ws l :
  packet 64 ws (replicate 14 0 ++ l) ->
  exists s out, runs (insert_ethernet_header 512 fill) (ieh_init 512 [mk_header false 0 v] ws) s out /\ ieh_dataIn s = [] /\
    packet 64 out (le_bytes 14 v ++ l).
Proof.
  intros Hw. destruct (packet_nonempty _ _ _ Hw) as (w & ws' & ->).
  set (h := mk_header false 1 v).
  exists (mk_ieh IEH_PARTIAL h [] []), (patch 14 (bits v 0 112) (w :: ws')). split_and!; [|done|by apply (patched 64 14 v v); [lia | |]].
  cbn [patch].
  pose proof (observe_packet (insert_ethernet_header 512 fill) 64 (ieh_init 512 [mk_header false 0 v] (w :: ws'))
    (fun i => mk_ieh IEH_BODY h [] i) (fun i => mk_ieh IEH_PARTIAL h [] i) id
    [mk_axis (set_bits (a_data w) 0 112 (bits v 0 112)) (a_keep w) (a_last w)] w ws' _ Hw) as Hr.
  rewrite list_fmap_id in Hr. apply Hr; clear Hr.
  - unfold ieh_init, ieh_start. cbn [insert_ethernet_header]. change (512 <=? ETH_HEADER_SIZE) with false. cbn iota.
    rewrite (consume_partial 512) by (unfold ETH_HEADER_SIZE; lia). by destruct (a_last w).
  - intros c input. cbn. by destruct (a_last c).
Qed.

Lemma ihl_header v l : bits v 0 4 = 5 -> ihl (le_bytes 20 v ++ l) = 5%nat.
Proof.
  intros Hv. unfold ihl. cbn [le_bytes app nth].
  assert (bits (wrap 8 v) 0 4 = bits v 0 4) as ->; [|by rewrite Hv].
  apply Z.bits_inj'. intros i Hi. rewrite !bits_testbit, wrap_testbit by lia.
  destruct (Z.ltb_spec i 4); [|done]. by rewrite (proj2 (Z.ltb_lt (i + 0) 8)) by lia.
Qed.

Definition with_checksum (v c : Z) : Z := set_bits v 80 16 (reverse 2 c).

Lemma set_field_header c v l : set_field c (le_bytes 20 v ++ l) = le_bytes 20 (with_checksum v c) ++ l.
Proof.
  unfold set_field, with_checksum. change 80 with (8 * Z.of_nat 10). change 16 with (8 * Z.of_nat 2).
  rewrite le_bytes_set_at, take_app_le, drop_app_le, <- !app_assoc by (rewrite ?length_le_bytes; lia). done.
Qed.

(** A header whose length field is that of a header without options, and whose
    checksum is right. *)
Definition header_ok (v : Z) : Prop :=
  fits 160 v /\ bits v 0 4 = 5 /\ internet_checksum (le_bytes 20 v) = 0.

Lemma with_checksum_ok v l :
  fits 160 v -> bits v 0 4 = 5 -> Forall (fits 8) l ->
  header_ok (with_checksum v (internet_checksum (take 20 (clear_field (le_bytes 20 v ++ l))))).
Proof.
  intros Hv Hb Hl. set (c := internet_checksum _). unfold header_ok, with_checksum. split_and!.
  - apply set_bits_fits; lia || done.
  - by rewrite bits_set_bits_ne by lia.
  - pose proof (inserted_valid (le_bytes 20 v ++ l)) as H. rewrite (ihl_header v l Hb) in H.
    change (4 * 5)%nat with 20%nat in H. fold c in H. rewrite set_field_header in H.
    rewrite take_app_length' in H by (by rewrite length_le_bytes). apply H; [|lia|rewrite length_app, length_le_bytes; lia].
    apply Forall_app. split; [apply le_bytes_fits | done].
Qed.

Lemma framed_packet fill mask gateway myMac mac v ws l :
  packet 64 ws (le_bytes 20 v ++ l) -> fits 160 v -> bits v 0 4 = 5 ->
  exists v' out, framed fill mask gateway myMac (next_hop mask gateway (ip_getDstAddr v)) mac ws out /\
    packet 64 out (le_bytes 14 (eth_fill myMac 0 mac) ++ le_bytes 20 v' ++ l) /\ header_ok v' /\ (exists c, v' = with_checksum v c).
Proof.
  intros Hw Hv Hb. destruct (extract_ip_packet mask gateway v ws l Hw Hv) as (s1 & o1 & Hr1 & Hw1 & Hq1).
  assert (length (le_bytes 20 v ++ l) = 20 + length l)%nat as Hlen by (by rewrite length_app, length_le_bytes).
  pose proof (ihl_header v l Hb) as Hi.
  destruct (packet_sums 16 true 0 ws (le_bytes 20 v ++ l)) as (o2 & len' & t & Hr2 & Hw2 & Ht & Hf);
    [by apply (bool_decide_unpack _) | exact Hw | lia | lia |].
  rewrite Hi in Hf. cbn iota in Hf. change (4 * 5)%nat with 20%nat in Hf.
  set (c := internet_checksum (take 20 (clear_field (le_bytes 20 v ++ l)))) in *.
  destruct (insert_packet ws (le_bytes 20 v ++ l) c Hw ltac:(lia)) as (w3 & Hr3 & Hp3). rewrite set_field_header in Hp3.
  destruct (arp_packet myMac mac w3 _ Hp3) as (s4 & o4 & Hr4 & Hi4 & Hw4 & Hh4).
  destruct (shifted_packet 512 64 eq_refl 14 w3 _ ltac:(lia) ltac:(lia) Hp3) as (w5 & Hs5 & Hp5).
  destruct (ethernet_packet fill (eth_fill myMac 0 mac) w5 _ Hp5) as (s6 & out & Hr6 & Hi6 & Hp6).
  exists (with_checksum v c), out. split_and!; [|exact Hp6| |by exists c].
  - exists s1, o1, (mk_cics (replicate 32 0) len' 0 []), o2, t, c, (mk_iic 0 c [] []), w3, s4, o4, (mk_header false 0 (eth_fill myMac 0 mac)), w5, s6.
    rewrite Hw1, Hw2, Hw4. split_and!; try done.
    unfold mac_finalize_ipv4_checksum. cbn [finalize_ipv4_checksum]. do 2 f_equal. exact Hf.
  - apply with_checksum_ok; [done | done|]. apply packet_fits, Forall_app in Hw. apply Hw.
Qed.

(** ** Padding *)

Definition padded (ws out : list net_axis) : Prop := runs ethernet_frame_padding_512 (false, ws) (false, []) out.

Lemma pad_bytes_valid k d last i : (i < k)%nat -> pad_byte (mk_axis d (Z.ones (Z.of_nat k)) last) i = mk_axis d (Z.ones (Z.of_nat k)) last.
Proof. intros. unfold pad_byte. cbn [a_keep]. rewrite ones_testbit by lia. by rewrite (proj2 (Z.ltb_lt (Z.of_nat i) (Z.of_nat k))) by lia. Qed.

Lemma pad_prefix k d last j m :
  (j + m <= k)%nat -> foldl pad_byte (mk_axis d (Z.ones (Z.of_nat k)) last) (seq j m) = mk_axis d (Z.ones (Z.of_nat k)) last.
Proof.
  revert j. induction m as [|m IH]; intros j Hj; [done|]. cbn [seq foldl]. rewrite pad_bytes_valid by lia. apply IH. lia.
Qed.

Lemma ones_succ (k : nat) : set_bits (Z.ones (Z.of_nat k)) (Z.of_nat k) 1 1 = Z.ones (Z.of_nat (S k)).
Proof.
  apply Z.bits_inj'. intros i Hi. rewrite set_bits_testbit, !ones_testbit by lia.
  destruct (Z.leb_spec (Z.of_nat k) i), (Z.ltb_spec i (Z.of_nat k + 1)); cbn.
  - replace i with (Z.of_nat k) by lia. rewrite Z.sub_diag. symmetry. apply Z.ltb_lt. lia.
  - rewrite !(proj2 (Z.ltb_ge _ _)) by lia. done.
  - rewrite !(proj2 (Z.ltb_lt _ _)) by lia. done.
  - lia.
Qed.

Lemma pad_rest m k d :
  (k + m <= 64)%nat ->
  exists d', foldl pad_byte (mk_axis d (Z.ones (Z.of_nat k)) true) (seq k m) = mk_axis d' (Z.ones (Z.of_nat (k + m))) true /\
    take (k + m) (le_bytes 64 d') = take k (le_bytes 64 d) ++ replicate m 0.
Proof.
  revert k d. induction m as [|m IH]; intros k d Hk; [exists d; by rewrite Nat.add_0_r, app_nil_r|].
  cbn [seq foldl]. unfold pad_byte at 2. cbn [a_keep a_data a_last]. rewrite ones_testbit, Z.ltb_irrefl, ones_succ by lia.
  destruct (IH (S k) (set_bits d (8 * Z.of_nat k) 8 0) ltac:(lia)) as (d' & Hf & Ht). exists d'.
  rewrite Nat.add_succ_r in *. split; [exact Hf|]. cbn [Nat.add] in Ht. rewrite Ht.
  change 8 with (8 * Z.of_nat 1) at 2. rewrite (le_bytes_set_at 64 k 1) by lia.
  rewrite (take_app_ge (take k _)), length_take, length_le_bytes by (rewrite length_take, length_le_bytes; lia).
  replace (S k - k `min` 64)%nat with 1%nat by lia. rewrite <- app_assoc. done.
Qed.

Lemma padded_packet ws l :
  packet 64 ws l ->
  exists out, padded ws out /\ packet 64 out (l ++ replicate (64 - length l) 0).
Proof.
  intros Hw. unfold padded. destruct Hw as [d k Hk|d ws l Hw].
  - destruct (pad_rest (64 - k) k d ltac:(lia)) as (d' & Hf & Ht). replace (k + (64 - k))%nat with 64%nat in * by lia.
    exists [mk_axis d' (Z.ones 64) true]. split.
    + apply runs_one. cbn [ethernet_frame_padding_512 a_last]. do 2 f_equal.
      replace 64%nat with (k + (64 - k))%nat at 1 by lia. rewrite seq_app, foldl_app, pad_prefix by lia. exact Hf.
    + rewrite length_take, length_le_bytes. replace (k `min` 64)%nat with k by lia. rewrite <- Ht. apply (packet_last 64 d' 64). lia.
  - exists (mk_axis d (Z.ones 64) false :: ws). split.
    + eapply (runs_step _ _ (true, ws) _ [_] ws); [done|].
      pose proof (forward_packet ethernet_frame_padding_512 64 (fun i => (true, i)) (fun i => (false, i))
        ltac:(intros w input; cbn; by destruct (a_last w)) ws l [] Hw) as Hr. by rewrite app_nil_r in Hr.
    + rewrite length_app, length_le_bytes. replace (64 - (64 + length l))%nat with 0%nat by lia.
      rewrite app_nil_r. by constructor.
Qed.

(** ** The receive side *)

Definition dep_words (o : list dep_out) : list net_axis := omap (fun x => match x with DepWord w => Some w | _ => None end) o.
Definition dep_types (o : list dep_out) : list Z := omap (fun x => match x with DepType t => Some t | _ => None end) o.
Definition to_ip (o : list (ethRoute * net_axis)) : list net_axis := omap (fun x => match x with (ToIP, w) => Some w | _ => None end) o.
Definition eim_words (o : list eim_out) : list net_axis := omap (fun x => match x with EimWord w => Some w | _ => None end) o.
Definition eim_valids (o : list eim_out) : list bool := omap (fun x => match x with EimValid b => Some b | _ => None end) o.
Definition eim_protocols (o : list eim_out) : list Z := omap (fun x => match x with EimProtocol p => Some p | _ => None end) o.
Definition iid_words (o : list iid_out) : list net_axis := omap (fun x => match x with IidWord w => Some w | _ => None end) o.
Definition iid_valids (o : list iid_out) : list bool := omap (fun x => match x with IidValid b => Some b | _ => None end) o.
Definition to_protocol (r : ipRoute) (o : list (ipRoute * net_axis)) : list net_axis := omap (fun x => if decide (x.1 = r) then Some x.2 else None) o.

(** [ip_handler]: what a frame leaves on the stream of the packets of a protocol. *)
Definition handled (r : ipRoute) (myIp : Z) (ws out : list net_axis) : Prop :=
  exists s1 o1 s2 o2 w3 s4 o4 s5 o5 t b s6 o6 w7 s8 o8,
    runs (detect_eth_protocol 512) (dep_init ws) s1 o1 /\
    runs (route_by_eth_protocol 512) (mk_rep false 0 (dep_types o1) (dep_words o1)) s2 o2 /\ rep_dataIn s2 = [] /\
    unshifted 512 14 (to_ip o2) w3 /\
    runs (extract_ip_meta 512 myIp) (eim_init w3) s4 o4 /\
    runs (ip_handler_compute_ipv4_checksum false) (cics_init 32 (eim_words o4)) s5 o5 /\ cs_sums o5 = [t] /\
    ip_handler_check_ipv4_checksum 32 [t] = ([], [b]) /\
    runs ip_invalid_dropper (mk_iid GET_VALID (cs_words o5) [b] (eim_valids o4)) s6 o6 /\ iid_dataIn s6 = [] /\
    runs cut_length_512 (false, iid_words o6) (false, []) w7 /\
    runs detect_ipv4_protocol (mk_dip None (eim_protocols o4) (iid_valids o6) w7) s8 o8 /\ dip_dataIn s8 = [] /\
    out = to_protocol r o8.

Lemma detect_packet e ws l :
  packet 64 ws (le_bytes 14 e ++ l) -> fits 112 e ->
  exists s o, runs (detect_eth_protocol 512) (dep_init ws) s o /\ dep_words o = ws /\ dep_types o = [eth_getEthertype e].
Proof.
  intros Hw He. destruct (packet_nonempty _ _ _ Hw) as (w & ws' & ->). set (first := [DepType (eth_getEthertype e); DepWord w]).
  exists (mk_dep (mk_header false 0 e) false []), (first ++ (DepWord <$> ws')). split.
  - apply (observe_packet _ 64 _ (fun i => mk_dep (mk_header true 1 e) true i) (fun i => mk_dep (mk_header false 0 e) false i)
      DepWord first w ws' _ Hw).
    + unfold dep_init, header_new. cbn [detect_eth_protocol]. rewrite parse_whole by (unfold ETH_HEADER_SIZE; lia).
      change ETH_HEADER_SIZE with (8 * Z.of_nat 14).
      rewrite (fits_le_bytes_header 14 e w ws' l) by (done || lia). by destruct (a_last w).
    + intros c input. cbn. by destruct (a_last c).
  - unfold dep_words, dep_types, first. cbn [app omap list_omap]. by rewrite omap_words, omap_none.
Qed.

Lemma route_ip_packet ws l :
  packet 64 ws l ->
  exists s o, runs (route_by_eth_protocol 512) (mk_rep false 0 [IPv4] ws) s o /\ rep_dataIn s = [] /\ to_ip o = ws.
Proof.
  intros Hw. destruct (packet_nonempty _ _ _ Hw) as (w & ws' & ->).
  exists (mk_rep false IPv4 [] []), ([(ToIP, w)] ++ (pair ToIP <$> ws')). split_and!; [|done|].
  - apply (observe_packet _ 64 _ (fun i => mk_rep true IPv4 [] i) (fun i => mk_rep false IPv4 [] i) (pair ToIP) [(ToIP, w)] w ws' _ Hw).
    + cbn. by destruct (a_last w).
    + intros c input. cbn. by destruct (a_last c).
  - unfold to_ip. cbn [app omap list_omap]. by rewrite omap_words.
Qed.

Lemma meta_packet myIp v ws l :
  packet 64 ws (le_bytes 20 v ++ l) -> fits 160 v -> ip_getDstAddr v = myIp ->
  exists s o, runs (extract_ip_meta 512 myIp) (eim_init ws) s o /\ eim_words o = ws /\ eim_valids o = [true] /\
    eim_protocols o = [ip_getProtocol v].
Proof.
  intros Hw Hv Hd. destruct (packet_nonempty _ _ _ Hw) as (w & ws' & ->).
  set (first := [EimWord w; EimValid true; EimProtocol (ip_getProtocol v)]).
  exists (mk_eim (mk_header false 0 v) false []), (first ++ (EimWord <$> ws')). split.
  - apply (observe_packet _ 64 _ (fun i => mk_eim (mk_header true 1 v) true i) (fun i => mk_eim (mk_header false 0 v) false i)
      EimWord first w ws' _ Hw).
    + unfold eim_init. cbn [extract_ip_meta]. rewrite (parse_ip v w ws' l Hw Hv). cbn [h_header h_ready].
      rewrite Hd, Z.eqb_refl. by destruct (a_last w).
    + intros c input. cbn. by destruct (a_last c).
  - unfold eim_words, eim_valids, eim_protocols, first. cbn [app omap list_omap]. by rewrite omap_words, !omap_none.
Qed.

Lemma valid_packet ws l :
  packet 64 ws l ->
  exists s o, runs ip_invalid_dropper (mk_iid GET_VALID ws [true] [true]) s o /\ iid_dataIn s = [] /\
    iid_words o = ws /\ iid_valids o = [true].
Proof.
  intros Hw. exists (mk_iid GET_VALID [] [] []), ([IidValid true] ++ (IidWord <$> ws)). split_and!; [|done|..].
  - eapply runs_step; [reflexivity|].
    pose proof (forward_out ip_invalid_dropper IidWord 64 (fun i => mk_iid IID_FWD i [] []) (fun i => mk_iid GET_VALID i [] [])
      ltac:(intros w input; cbn; by destruct (a_last w)) ws l [] Hw) as Hr. by rewrite app_nil_r in Hr.
  - unfold iid_words. cbn [app omap list_omap]. by rewrite omap_words.
  - unfold iid_valids. cbn [app omap list_omap]. by rewrite omap_none.
Qed.

Lemma protocol_packet p r ws l :
  ip_route p = Some r -> packet 64 ws l ->
  exists s o, runs detect_ipv4_protocol (mk_dip None [p] [true] ws) s o /\ dip_dataIn s = [] /\ to_protocol r o = ws.
Proof.
  intros Hp Hw. exists (mk_dip None [] [] []), ([] ++ (pair r <$> ws)). split_and!; [|done|].
  - eapply runs_step; [reflexivity|].
    pose proof (forward_out detect_ipv4_protocol (pair r) 64 (fun i => mk_dip (Some p) [] [] i) (fun i => mk_dip None [] [] i)
      ltac:(intros w input; cbn; rewrite Hp; by destruct (a_last w)) ws l [] Hw) as Hr. by rewrite app_nil_r in Hr.
  - unfold to_protocol. cbn [app]. apply omap_words. intros w. cbn. by rewrite decide_True.
Qed.

Lemma total_length_reverse d : total_length d = reverse 2 (bits d 16 16).
Proof.
  apply (le_bytes_inj 2); [|apply reverse_fits|].
  - unfold total_length. repeat (apply set_bits_fits; [lia..|]). done.
  - rewrite le_bytes_reverse. unfold total_length.
    rewrite (le_bytes_set_at 2 1 1), (le_bytes_set 2 1) by lia. cbn [le_bytes take drop app rev]. do 2 f_equal.
    + apply Z.bits_inj'. intros i Hi. rewrite Z.shiftr_spec, !bits_testbit by lia. rewrite <- Z.add_assoc.
      by replace (i + 8 <? 16) with (i <? 8) by (destruct (Z.ltb_spec i 8), (Z.ltb_spec (i + 8) 16); lia).
    + apply Z.bits_inj'. intros i Hi. rewrite !wrap_testbit, !bits_testbit by lia.
      destruct (Z.ltb_spec i 8); [|done]. by rewrite (proj2 (Z.ltb_lt i 16)) by lia.
Qed.

Lemma total_length_first v w ws l :
  packet 64 (w :: ws) (le_bytes 20 v ++ l) -> fits 160 v -> total_length (a_data w) = ip_getLength v.
Proof.
  intros Hw Hv. pose proof (fits_le_bytes_header 20 v w ws l ltac:(lia) Hw Hv 0 ltac:(done)) as E.
  rewrite total_length_reverse, <- E. unfold ip_getLength. f_equal. apply Z.bits_inj'. intros i Hi.
  rewrite !bits_testbit, set_bits_testbit by lia. destruct (Z.ltb_spec i 16); [|done]. cbn.
  rewrite (proj2 (Z.leb_le 0 (i + 16))), (proj2 (Z.ltb_lt (i + 16) (0 + 8 * Z.of_nat 20))) by lia. cbn. f_equal. lia.
Qed.

(** A packet is cut to its length; only one of a single word is padded. *)
Lemma cut_packet ws v l pad :
  packet 64 ws (le_bytes 20 v ++ l ++ pad) -> fits 160 v ->
  ip_getLength v = Z.of_nat (20 + length l) -> (20 + length l + length pad <= 64)%nat \/ pad = [] ->
  exists out, runs cut_length_512 (false, ws) (false, []) out /\ packet 64 out (le_bytes 20 v ++ l).
Proof.
  intros Hw Hv Hlen Hpad. destruct (packet_nonempty _ _ _ Hw) as (w & ws' & ->).
  pose proof (total_length_first v w ws' _ Hw Hv) as Ht. rewrite Hlen in Ht.
  assert (length (le_bytes 20 v ++ l) = (20 + length l)%nat) as Hl by (by rewrite length_app, length_le_bytes).
  rewrite app_assoc in Hw. remember ((le_bytes 20 v ++ l) ++ pad) as b eqn:Eb.
  assert (length b = 20 + length l + length pad)%nat as Hb by (by rewrite Eb, length_app, Hl).
  clear Hv. remember 64%nat as n eqn:En.
  destruct (packet_cases n w ws' b Hw) as [(d & k & Hk & -> & -> & E)|(d & l1 & -> & Hw1 & E)]; cbn [a_data] in Ht.
  - assert (k = (20 + length l + length pad)%nat) as Hkl.
    { rewrite E, length_take, length_le_bytes in Hb. lia. }
    exists [mk_axis d (Z.ones (Z.of_nat (20 + length l))) true]. split.
    + apply runs_one. cbn [cut_length_512 a_last a_data]. by rewrite Ht, lenToKeep_ones by lia.
    + eapply (packet_one n _ (20 + length l)); [done | done | lia|]. cbn [a_data].
      transitivity (take (20 + length l) b).
      * by rewrite Eb, take_app_length' by (by rewrite Hl).
      * rewrite E, take_take. f_equal. lia.
  - destruct Hpad as [Hpad| ->].
    { pose proof (packet_length _ _ _ Hw1). rewrite E, length_app, length_le_bytes in Hb. lia. }
    rewrite app_nil_r in Eb. subst b. exists (mk_axis d (Z.ones (Z.of_nat n)) false :: ws'). split; [|exact Hw].
    eapply (runs_step _ _ (true, ws') _ [_] ws'); [done|].
    pose proof (forward_packet cut_length_512 n (fun i => (true, i)) (fun i => (false, i))
      ltac:(intros c input; cbn; by destruct (a_last c)) ws' l1 [] Hw1) as Hr. by rewrite app_nil_r in Hr.
Qed.

Lemma handled_packet r e v ws l pad :
  packet 64 ws (le_bytes 14 e ++ le_bytes 20 v ++ l ++ pad) -> fits 112 e -> eth_getEthertype e = IPv4 ->
  header_ok v -> ip_route (ip_getProtocol v) = Some r -> ip_getLength v = Z.of_nat (20 + length l) ->
  (20 + length l + length pad <= 64)%nat \/ pad = [] ->
  exists out, handled r (ip_getDstAddr v) ws out /\ packet 64 out (le_bytes 20 v ++ l).
Proof.
  intros Hw He Hty (Hv & Hb & Hc) Hp Hlen Hpad.
  destruct (detect_packet e ws _ Hw He) as (s1 & o1 & Hr1 & Hw1 & Ht1).
  destruct (route_ip_packet ws _ Hw) as (s2 & o2 & Hr2 & Hi2 & Hw2).
  assert (14 < length (le_bytes 14 e ++ le_bytes 20 v ++ l ++ pad))%nat as Hl by (rewrite !length_app, !length_le_bytes; lia).
  destruct (unshifted_packet 512 64 eq_refl 14 ws _ ltac:(lia) Hl Hw) as (w3 & Hs3 & Hw3).
  rewrite drop_app_length' in Hw3 by (by rewrite length_le_bytes).
  destruct (meta_packet (ip_getDstAddr v) v w3 _ Hw3 Hv eq_refl) as (s4 & o4 & Hr4 & Hw4 & Hv4 & Hp4).
  pose proof (ihl_header v (l ++ pad) Hb) as Hi.
  destruct (packet_sums 16 false 0 w3 (le_bytes 20 v ++ l ++ pad)) as (o5 & len' & t & Hr5 & Hw5 & Ht5 & Hf);
    [by apply (bool_decide_unpack _) | exact Hw3 | lia | rewrite length_app, length_le_bytes, Hi; lia |].
  rewrite Hi in Hf. cbn iota in Hf. rewrite take_app_length' in Hf by (by rewrite length_le_bytes). rewrite Hc in Hf.
  destruct (valid_packet w3 _ Hw3) as (s6 & o6 & Hr6 & Hi6 & Hw6 & Hv6).
  destruct (cut_packet w3 v l pad Hw3 Hv Hlen Hpad) as (w7 & Hr7 & Hw7).
  destruct (protocol_packet _ r w7 _ Hp Hw7) as (s8 & o8 & Hr8 & Hi8 & Hw8).
  exists w7. split; [|exact Hw7].
  exists s1, o1, s2, o2, w3, s4, o4, (mk_cics (replicate 32 0) len' 0 []), o5, t, true, s6, o6, w7, s8, o8.
  rewrite Hw1, Ht1, Hty, Hw2, Hw4, Hw5, Hv4, Hw6, Hp4, Hv6, Hw8. split_and!; try done.
  unfold ip_handler_check_ipv4_checksum. cbn [toe_check_ipv4_checksum]. do 2 f_equal. apply Z.eqb_eq. exact Hf.
Qed.

(** ** Fields *)

Lemma eth_fill_fields myMac mac : fits 112 (eth_fill myMac 0 mac) /\ eth_getEthertype (eth_fill myMac 0 mac) = IPv4.
Proof.
  split.
  - unfold eth_fill, eth_setEthertype, eth_setSrcAddress, eth_setDstAddress. repeat (apply set_bits_fits; [lia..|]). done.
  - unfold eth_getEthertype, eth_fill, eth_setEthertype. by apply bytes_field2.
Qed.

(** The header that [generate_ipv4] writes for [len] bytes of payload; the
    checksum does not touch these fields. *)
Lemma ip_fill_fields local protocol dst len :
  fits 32 local -> fits 8 protocol -> fits 32 dst ->
  let v := ip_fill local protocol (h_header ipv4Header) (ipv4Meta_new dst len) in
  fits 160 v /\ bits v 0 4 = 5 /\ ip_getDstAddr v = dst /\
  forall c, let v' := with_checksum v c in
    ip_getDstAddr v' = dst /\ ip_getSrcAddr v' = local /\ ip_getProtocol v' = protocol /\ ip_getLength v' = u16 (len + 20).
Proof.
  intros Hs Hp Hd v. unfold v, ip_fill, with_checksum, ip_getDstAddr, ip_getSrcAddr, ip_getProtocol, ip_getLength,
    ip_setProtocol, ip_setSrcAddr, ip_setDstAddr, ip_setLength.
  split_and!; [repeat (apply set_bits_fits; [lia..|]); done | by rewrite !bits_set_bits_ne by lia| |].
  { rewrite !bits_set_bits_ne, bits_set_bits_eq by lia. by apply wrap_small. }
  intros c. cbn zeta. split_and!.
  - rewrite !bits_set_bits_ne by lia. rewrite bits_set_bits_eq by lia. by apply wrap_small.
  - rewrite !bits_set_bits_ne by lia. rewrite bits_set_bits_eq by lia. by apply wrap_small.
  - rewrite !bits_set_bits_ne by lia. rewrite bits_set_bits_eq by lia. by apply wrap_small.
  - rewrite !bits_set_bits_ne by lia. apply bytes_field2; [lia | by apply wrap_range].
Qed.

(** ** A packet over the wire *)

(** The packet of any protocol that [ip_handler] knows, with the header that the
    modules write: it is framed, padded, taken in by the node it is for, and
    arrives with its header (but for the checksum) and its body as they were. *)
Lemma carried_packet fill mask gateway myMac mac local protocol r dst ws body :
  fits 32 local -> fits 8 protocol -> fits 32 dst -> ip_route protocol = Some r -> Z.of_nat (length body) + 20 < 2 ^ 16 ->
  packet 64 ws (le_bytes 20 (ip_fill local protocol (h_header ipv4Header) (ipv4Meta_new dst (Z.of_nat (length body)))) ++ body) ->
  exists v frame wire out,
    framed fill mask gateway myMac (next_hop mask gateway dst) mac ws frame /\ padded frame wire /\ handled r dst wire out /\
    packet 64 out (le_bytes 20 v ++ body) /\ fits 160 v /\ bits v 0 4 = 5 /\
    ip_getSrcAddr v = local /\ ip_getDstAddr v = dst /\ ip_getLength v = Z.of_nat (length body) + 20.
Proof.
  intros Hs Hp Hd Hr Hlen Hw.
  destruct (ip_fill_fields local protocol dst (Z.of_nat (length body)) Hs Hp Hd) as (Hfi & Hbi & Hdi & Hgi).
  destruct (eth_fill_fields myMac mac) as (Hfe & Hte). revert Hfi Hbi Hdi Hgi Hw.
  generalize (ip_fill local protocol (h_header ipv4Header) (ipv4Meta_new dst (Z.of_nat (length body)))). intros v0 Hfi Hbi Hdi Hgi Hw.
  destruct (framed_packet fill mask gateway myMac mac v0 ws body Hw Hfi Hbi) as (v & frame & H1 & Hp1 & Hok & c & Hv). rewrite Hdi in H1.
  destruct (Hgi c) as (Hid & His & Hip & Hil). rewrite <- Hv in Hid, His, Hip, Hil. clear Hv Hgi.
  rewrite wrap_small in Hil by (unfold fits; lia).
  destruct (padded_packet frame _ Hp1) as (wire & H2 & Hp2). rewrite <- !app_assoc in Hp2.
  destruct (handled_packet r _ v wire body _ Hp2 Hfe Hte Hok) as (out & H3 & Hp3); [by rewrite Hip | lia | |].
  { rewrite length_replicate, !length_app, !length_le_bytes.
    destruct (Nat.le_gt_cases (34 + length body) 64); [left; lia | right]. replace (64 - _)%nat with 0%nat by lia. done. }
  rewrite Hid in H3. destruct Hok as (Hfv & Hbv & _). exists v, frame, wire, out. auto 10.
Qed.
