(* ===== verification/ArpWire.v ===== *)
(** Address resolution end to end (Arp): a host asks for an address it does not
    know, the host with this address answers, and the next lookup finds it. *)
From stdpp Require Import base numbers list gmap strings.
From Stdlib Require Import ZArith Lia.
From S2P Require Import Prelude Axi Streams StreamsFacts Wire Ipv4 Ethernet Arp IpHandler FrameWire.

Local Open Scope Z_scope.

Definition to_arp (o : list (ethRoute * net_axis)) : list net_axis := omap (fun x => match x with (ToARP, w) => Some w | _ => None end) o.

(** What [ip_handler] leaves on the stream of the ARP server. *)
Definition sorted_arp (ws out : list net_axis) : Prop :=
  exists s1 o1 s2 o2,
    runs (detect_eth_protocol 512) (dep_init ws) s1 o1 /\
    runs (route_by_eth_protocol 512) (mk_rep false 0 (dep_types o1) (dep_words o1)) s2 o2 /\ rep_dataIn s2 = [] /\
    out = to_arp o2.

(** *** The packet *)

(** The fields a host writes and its peer reads. *)
Record arp_fields (v dstMac srcMac hw ip thw tip : Z) : Prop := {
  af_type : bits v 96 16 = 0x0608; af_dst : arp_getDstMacAddr v = dstMac; af_src : arp_getSrcMacAddr v = srcMac;
  af_hw : arp_getSenderHwAddr v = hw; af_ip : arp_getSenderProtoAddr v = ip;
  af_thw : arp_getTargetHwAddr v = thw; af_tip : arp_getTargetProtoAddr v = tip; af_fits : fits 336 v }.

Lemma arpHeader_fits : fits 336 (h_header arpHeader).
Proof. split; vm_compute; congruence. Qed.

Ltac arp_field :=
  repeat first [rewrite bits_set_bits_eq by lia | rewrite bits_set_bits_ne by lia]; try (by apply wrap_small); try reflexivity.

Lemma request_fields myMac myIp h ip :
  fits 48 myMac -> fits 32 myIp -> fits 32 ip -> fits 336 h -> bits h 96 16 = 0x0608 ->
  let v := arp_request_fill myMac myIp h ip in
  arp_fields v BROADCAST_MAC myMac myMac myIp 0 ip /\ arp_isRequest v = true.
Proof.
  intros Hm Hi Hip Hh Ht v. subst v. unfold arp_request_fill, arp_setDstMacAddr, arp_setSrcMacAddr, arp_setRequest, arp_setSenderHwAddr,
    arp_setSenderProtoAddr, arp_setTargetHwAddr, arp_setTargetProtoAddr.
  split; [constructor; unfold arp_getDstMacAddr, arp_getSrcMacAddr, arp_getSenderHwAddr, arp_getSenderProtoAddr, arp_getTargetHwAddr,
    arp_getTargetProtoAddr | unfold arp_isRequest; apply Z.eqb_eq]; arp_field.
  - exact Ht.
  - repeat (apply set_bits_fits; [lia..|]). exact Hh.
Qed.

Lemma reply_fields myMac myIp h m :
  fits 48 myMac -> fits 32 myIp -> fits 336 h -> bits h 96 16 = 0x0608 ->
  fits 48 (am_srcMacAddr m) -> fits 48 (am_senderHwAddr m) -> fits 32 (am_senderProtoAddr m) ->
  let v := arp_reply_fill myMac myIp h m in
  arp_fields v (am_srcMacAddr m) myMac myMac myIp (am_senderHwAddr m) (am_senderProtoAddr m) /\ arp_isRequest v = false /\ arp_isReply v = true.
Proof.
  intros Hm Hi Hh Ht H1 H2 H3 v. subst v. unfold arp_reply_fill, arp_setDstMacAddr, arp_setSrcMacAddr, arp_setReply, arp_setSenderHwAddr,
    arp_setSenderProtoAddr, arp_setTargetHwAddr, arp_setTargetProtoAddr.
  split; [constructor; unfold arp_getDstMacAddr, arp_getSrcMacAddr, arp_getSenderHwAddr, arp_getSenderProtoAddr, arp_getTargetHwAddr,
    arp_getTargetProtoAddr | unfold arp_isRequest, arp_isReply; split; [apply Z.eqb_neq | apply Z.eqb_eq]]; arp_field.
  - exact Ht.
  - repeat (apply set_bits_fits; [lia..|]). exact Hh.
  - rewrite wrap_small by done. done.
Qed.

(** *** One packet on the wire *)

Definition arp_frame (v : Z) : list net_axis := [mk_axis (set_bits 0 0 336 (bits v 0 336)) (Z.ones 42) true].

Lemma arp_frame_packet v : packet 64 (arp_frame v) (le_bytes 42 v).
Proof.
  unfold arp_frame. change 336 with (8 * Z.of_nat 42). pose proof (header_word 64 42 0 v) as E. rewrite <- E.
  rewrite <- (take_le_bytes_le 42 64) by lia. apply (packet_last 64 _ 42). lia.
Qed.

Lemma generate_request myMac myIp ip :
  runs (generate_arp_pkg 512 myMac myIp) (gap_init [] [ip])
    (mk_gap GAP_IDLE (mk_header false 1 (arp_request_fill myMac myIp (h_header arpHeader) ip)) 0 [] [])
    (arp_frame (arp_request_fill myMac myIp (h_header arpHeader) ip)).
Proof. eapply (runs_step _ _ _ _ []); [reflexivity|]. apply runs_one. reflexivity. Qed.

Lemma generate_reply myMac myIp m :
  runs (generate_arp_pkg 512 myMac myIp) (gap_init [m] [])
    (mk_gap GAP_IDLE (mk_header false 1 (arp_reply_fill myMac myIp (h_header arpHeader) m)) 0 [] [])
    (arp_frame (arp_reply_fill myMac myIp (h_header arpHeader) m)).
Proof. eapply (runs_step _ _ _ _ []); [reflexivity|]. apply runs_one. reflexivity. Qed.

Lemma route_arp_packet ws l :
  packet 64 ws l ->
  exists s o, runs (route_by_eth_protocol 512) (mk_rep false 0 [ARP] ws) s o /\ rep_dataIn s = [] /\ to_arp o = ws.
Proof.
  intros Hw. destruct (packet_nonempty _ _ _ Hw) as (w & ws' & ->).
  exists (mk_rep false ARP [] []), ([(ToARP, w)] ++ (pair ToARP <$> ws')). split_and!; [|done|].
  - apply (observe_packet _ 64 _ (fun i => mk_rep true ARP [] i) (fun i => mk_rep false ARP [] i) (pair ToARP) [(ToARP, w)] w ws' _ Hw).
    + cbn. by destruct (a_last w).
    + intros c input. cbn. by destruct (a_last c).
  - unfold to_arp. cbn [app omap list_omap]. by rewrite omap_words.
Qed.

(** A frame with an ARP packet is padded and reaches the server of the other host. *)
Lemma arp_carried v :
  fits 336 v -> bits v 96 16 = 0x0608 ->
  exists wire w, padded (arp_frame v) wire /\ sorted_arp wire [w] /\ a_last w = true /\ packet 64 [w] (le_bytes 42 v ++ replicate 22 0).
Proof.
  intros Hv Ht. destruct (padded_packet _ _ (arp_frame_packet v)) as (wire & Hpad & Hp).
  rewrite length_le_bytes in Hp. cbn [Nat.sub] in Hp.
  set (e := bits v 0 112). assert (le_bytes 42 v = le_bytes 14 e ++ drop 14 (le_bytes 42 v)) as Esplit.
  { unfold e. rewrite le_bytes_bits, Z.shiftr_0_r, <- (take_le_bytes_le 14 42), take_drop by lia. done. }
  assert (eth_getEthertype e = ARP) as Ee.
  { unfold eth_getEthertype. replace (bits e 96 16) with (bits v 96 16); [by rewrite Ht|].
    unfold e. apply Z.bits_inj'. intros i Hi. rewrite !bits_testbit by lia.
    destruct (Z.ltb_spec i 16); [|done]. by rewrite (proj2 (Z.ltb_lt (i + 96) 112)), Z.add_0_r by lia. }
  rewrite Esplit, <- app_assoc in Hp. destruct (detect_packet e wire _ Hp ltac:(apply bits_range; lia)) as (s1 & o1 & H1 & Hw1 & Ht1).
  destruct (route_arp_packet wire _ Hp) as (s2 & o2 & H2 & Hd2 & Ho2). rewrite app_assoc, <- Esplit in Hp.
  destruct (packet_nonempty _ _ _ Hp) as (w & ws & ->). destruct (packet_cases _ _ _ _ Hp) as [(d & k & Hk & -> & -> & _)|(d & l1 & _ & Hp1 & E)].
  - eexists _, (mk_axis d (Z.ones (Z.of_nat k)) true). split; [exact Hpad|]. split; [|split; [reflexivity | exact Hp]].
    exists s1, o1, s2, o2. rewrite Ht1, Hw1, Ee. split_and!; [exact H1 | exact H2 | exact Hd2 | by rewrite Ho2].
  - exfalso. apply (f_equal length) in E. rewrite !length_app, !length_le_bytes, length_replicate in E.
    apply packet_length in Hp1. lia.
Qed.

Lemma arp_parsed v w :
  packet 64 [w] (le_bytes 42 v ++ replicate 22 0) -> fits 336 v ->
  parseWord 512 ARP_HEADER_SIZE arpHeader (a_data w) = mk_header true 1 v.
Proof.
  intros Hw Hv. unfold arpHeader. rewrite parse_whole by (unfold ARP_HEADER_SIZE; lia). f_equal.
  exact (fits_le_bytes_header 42 v w [] _ ltac:(lia) Hw Hv _ arpHeader_fits).
Qed.

(** *** The theorem *)

(** The server of a host reads a packet. *)
Definition arp_read (myIp : Z) (ws : list net_axis) (replies : list arpReplyMeta) (inserts : list arpTableEntry) : Prop :=
  exists s o, runs (process_arp_pkg 512 myIp) (pap_init ws) s o /\ pap_dataIn s = [] /\
    omap (fun x => match x with PapReply m => Some m | _ => None end) o = replies /\
    omap (fun x => match x with PapInsert e => Some e | _ => None end) o = inserts.

Lemma read_request myIp v dst src hw ip thw tip w :
  packet 64 [w] (le_bytes 42 v ++ replicate 22 0) -> a_last w = true -> arp_fields v dst src hw ip thw tip -> arp_isRequest v = true ->
  arp_read myIp [w] (if tip =? myIp then [mk_arpReplyMeta src hw ip] else []) [].
Proof.
  intros Hw Hl [Ht H1 H2 H3 H4 H5 H6 Hv] Hreq.
  pose proof (arp_parsed v w Hw Hv) as Hp. destruct (tip =? myIp) eqn:E;
    (eexists _, _; split; [apply runs_one; unfold pap_init; cbn [process_arp_pkg]; rewrite Hp, Hl; cbn [h_header];
      rewrite H6, Hreq, E, ?H2, ?H3, ?H4; reflexivity | done]).
Qed.

Lemma read_reply myIp v dst src hw ip thw tip w :
  packet 64 [w] (le_bytes 42 v ++ replicate 22 0) -> a_last w = true -> arp_fields v dst src hw ip thw tip ->
  arp_isRequest v = false -> arp_isReply v = true ->
  arp_read myIp [w] [] (if tip =? myIp then [mk_arpTableEntry ip hw true] else []).
Proof.
  intros Hw Hl [Ht H1 H2 H3 H4 H5 H6 Hv] Hreq Hrep.
  pose proof (arp_parsed v w Hw Hv) as Hp. destruct (tip =? myIp) eqn:E;
    (eexists _, _; split; [apply runs_one; unfold pap_init; cbn [process_arp_pkg]; rewrite Hp, Hl; cbn [h_header];
      rewrite H6, Hreq, Hrep, E, ?H3, ?H4; reflexivity | done]).
Qed.

(** C24: An address is resolved: a lookup of [ipB] that host A cannot answer sends a
    request; the host with this address, and no other, answers it, to A's hardware
    address; A takes the answer into its table, and the next lookup gives B's
    hardware address.  The frames are padded and sorted on their way. *)
Theorem arp_resolves (t : gmap Z arpTableEntry) (macA ipA macB ipB ipC : Z) :
  fits 48 macA -> fits 32 ipA -> fits 48 macB -> fits 32 ipB -> ipC <> ipB -> ae_valid (arp_at t ipB) = false ->
  let ask := mk_arpt t [] [ipB] [] in
  let entry := mk_arpTableEntry ipB macB true in
  exists request wire1 arp1 reply wire2 arp2 sA sB,
    runs arp_table ask (mk_arpt t [] [] []) [ArpAsk ipB; ArpMac (arp_answer (arp_at t ipB))] /\
    runs (generate_arp_pkg 512 macA ipA) (gap_init [] [ipB]) sA request /\ padded request wire1 /\ sorted_arp wire1 arp1 /\
    arp_read ipC arp1 [] [] /\
    arp_read ipB arp1 [mk_arpReplyMeta macA macA ipA] [] /\
    runs (generate_arp_pkg 512 macB ipB) (gap_init [mk_arpReplyMeta macA macA ipA] []) sB reply /\ padded reply wire2 /\
    sorted_arp wire2 arp2 /\ (exists v, reply = arp_frame v /\ arp_getDstMacAddr v = macA) /\
    arp_read ipA arp2 [] [entry] /\
    runs arp_table (mk_arpt t [entry] [ipB] []) (mk_arpt (<[bits ipB 24 8 := entry]> t) [] [] []) [ArpMac (mk_arpTableReply macB true)].
Proof.
  intros HmA HiA HmB HiB HC Hmiss ask entry.
  destruct (request_fields macA ipA (h_header arpHeader) ipB HmA HiA HiB arpHeader_fits eq_refl) as [Hf1 Hreq].
  set (v1 := arp_request_fill macA ipA (h_header arpHeader) ipB) in *.
  destruct (arp_carried v1 (af_fits _ _ _ _ _ _ _ Hf1) (af_type _ _ _ _ _ _ _ Hf1)) as (wire1 & w1 & Hp1 & Hs1 & Hl1 & Hw1).
  set (m := mk_arpReplyMeta macA macA ipA).
  destruct (reply_fields macB ipB (h_header arpHeader) m HmB HiB arpHeader_fits eq_refl HmA HmA HiA) as (Hf2 & Hnreq & Hrep).
  set (v2 := arp_reply_fill macB ipB (h_header arpHeader) m) in *.
  destruct (arp_carried v2 (af_fits _ _ _ _ _ _ _ Hf2) (af_type _ _ _ _ _ _ _ Hf2)) as (wire2 & w2 & Hp2 & Hs2 & Hl2 & Hw2).
  pose proof (read_request ipC v1 _ _ _ _ _ _ w1 Hw1 Hl1 Hf1 Hreq) as HrC. rewrite (proj2 (Z.eqb_neq _ _)) in HrC by done.
  pose proof (read_request ipB v1 _ _ _ _ _ _ w1 Hw1 Hl1 Hf1 Hreq) as HrB. rewrite Z.eqb_refl in HrB.
  pose proof (read_reply ipA v2 _ _ _ _ _ _ w2 Hw2 Hl2 Hf2 Hnreq Hrep) as HrA. rewrite Z.eqb_refl in HrA.
  eexists _, wire1, [w1], _, wire2, [w2], _, _. split_and!.
  - apply runs_one. unfold ask. cbn [arp_table]. unfold arp_miss. by rewrite Hmiss.
  - apply generate_request.
  - exact Hp1.
  - exact Hs1.
  - exact HrC.
  - exact HrB.
  - apply generate_reply.
  - exact Hp2.
  - exact Hs2.
  - exists v2. split; [reflexivity | exact (af_dst _ _ _ _ _ _ _ Hf2)].
  - exact HrA.
  - eapply (runs_step _ _ _ _ []); [reflexivity|]. apply runs_one. cbn [arp_table]. unfold arp_miss, arp_at.
    change (ae_ipAddress entry) with ipB. by rewrite lookup_insert_eq.
Qed.

Lemma arp_resolves_witness :
  let entry := mk_arpTableEntry 0x0402010A 0x665544332211 true in
  let ask := mk_arpt ∅ [] [0x0402010A] [] in
  exists request wire1 arp1 reply wire2 arp2 sA sB,
    runs arp_table ask (mk_arpt ∅ [] [] []) [ArpAsk 0x0402010A; ArpMac (arp_answer (arp_at ∅ 0x0402010A))] /\
    runs (generate_arp_pkg 512 0x060504030201 0x0302010A) (gap_init [] [0x0402010A]) sA request /\ padded request wire1 /\ sorted_arp wire1 arp1 /\
    arp_read 0x0502010A arp1 [] [] /\
    arp_read 0x0402010A arp1 [mk_arpReplyMeta 0x060504030201 0x060504030201 0x0302010A] [] /\
    runs (generate_arp_pkg 512 0x665544332211 0x0402010A) (gap_init [mk_arpReplyMeta 0x060504030201 0x060504030201 0x0302010A] []) sB reply /\
    padded reply wire2 /\ sorted_arp wire2 arp2 /\ (exists v, reply = arp_frame v /\ arp_getDstMacAddr v = 0x060504030201) /\
    arp_read 0x0302010A arp2 [] [entry] /\
    runs arp_table (mk_arpt ∅ [entry] [0x0402010A] []) (mk_arpt (<[bits 0x0402010A 24 8 := entry]> ∅) [] [] []) [ArpMac (mk_arpTableReply 0x665544332211 true)].
Proof.
  assert (fits 48 0x060504030201 /\ fits 48 0x665544332211) as [HA HB] by (split; split; vm_compute; congruence).
  assert (fits 32 0x0302010A /\ fits 32 0x0402010A) as [IA IB] by (split; split; vm_compute; congruence).
  exact (arp_resolves ∅ 0x060504030201 0x0302010A 0x665544332211 0x0402010A 0x0502010A HA IA HB IB ltac:(done) eq_refl).
Defined.
