(* ===== verification/NetWire.v ===== *)
(** A UDP datagram from one node to another: through the UDP and the IP module,
    over the wire (FrameWire), and through the two modules again.  Every stage is
    the process of the code, run on the output of the stage before it, over words
    of 512 bits. *)
From stdpp Require Import base numbers list strings.
From Stdlib Require Import ZArith Lia.
From S2P Require Import Prelude Axi Streams StreamsFacts Wire Ipv4 Ipv4Facts Ethernet IpHandler IbTypes Udp FrameWire.

Local Open Scope Z_scope.

(** ** The transmit side *)

Section transmit.
(** What new words hold. *)
Context (fill : Z).

Definition udp_sent (m : udpMeta) (ws out : list net_axis) : Prop :=
  exists ws' h, shifted 512 8 ws ws' /\
    runs (generate_udp 512 fill) (gudp_init [m] ws') (mk_gudp GU_META h [] []) out.

Definition ip_sent (local protocol : Z) (m : ipv4Meta) (ws out : list net_axis) : Prop :=
  exists ws' h, shifted 512 20 ws ws' /\
    runs (ipv4_generate_ipv4 512 local protocol fill) (gip_init [m] ws') (mk_gip GIP_META h [] []) out.

Lemma udp_sent_packet m ws l :
  packet 64 ws l -> exists out, udp_sent m ws out /\ packet 64 out (le_bytes 8 (udp_fill 0 m) ++ l).
Proof.
  intros Hw. destruct (shifted_packet 512 64 eq_refl 8 ws l) as (ws' & Hs & Hws'); [lia | lia | done |].
  destruct (prepend_packet (generate_udp 512 fill) 64 8 (udp_fill 0 m)
    (fun i => mk_gudp GU_PARTIAL (mk_header false 0 (udp_fill 0 m)) [] i)
    (fun i => mk_gudp GU_BODY (mk_header false 1 (udp_fill 0 m)) [] i)
    (fun i => mk_gudp GU_META (mk_header false 1 (udp_fill 0 m)) [] i) ws' l) as (out & Hr & Hout); [lia | done | | |].
  - intros w input. cbn [generate_udp]. rewrite (consume_partial 512) by (unfold UDP_HEADER_SIZE; lia).
    by destruct (a_last w).
  - intros w input. cbn [generate_udp]. by destruct (a_last w).
  - exists out. split; [|exact Hout]. eexists ws', _. split; [exact Hs|].
    eapply (runs_step _ _ _ _ [] out); [reflexivity | exact Hr].
Qed.

Lemma ip_sent_packet local protocol m ws l :
  packet 64 ws l ->
  exists out, ip_sent local protocol m ws out /\ packet 64 out (le_bytes 20 (ip_fill local protocol (h_header ipv4Header) m) ++ l).
Proof.
  intros Hw. destruct (shifted_packet 512 64 eq_refl 20 ws l) as (ws' & Hs & Hws'); [lia | lia | done |].
  set (v := ip_fill local protocol (h_header ipv4Header) m).
  destruct (prepend_packet (ipv4_generate_ipv4 512 local protocol fill) 64 20 v
    (fun i => mk_gip GIP_PARTIAL (mk_header false 0 v) [] i)
    (fun i => mk_gip GIP_BODY (mk_header false 1 v) [] i)
    (fun i => mk_gip GIP_META (mk_header false 1 v) [] i) ws' l) as (out & Hr & Hout); [lia | done | | |].
  - intros w input. unfold ipv4_generate_ipv4. cbn [generate_ipv4].
    rewrite (consume_partial 512) by (unfold IPV4_HEADER_SIZE; lia). by destruct (a_last w).
  - intros w input. unfold ipv4_generate_ipv4. cbn [generate_ipv4]. by destruct (a_last w).
  - exists out. split; [|exact Hout]. eexists ws', _. split; [exact Hs|].
    eapply (runs_step _ _ _ _ [] out); [reflexivity | exact Hr].
Qed.
End transmit.

(** ** The receive side *)

(** The IP module: what is left of a packet without its header, and its meta data. *)
Definition pip_words (o : list pip_out) : list net_axis := omap (fun x => match x with IpWord w => Some w | _ => None end) o.
Definition pip_lengths (o : list pip_out) : list Z := omap (fun x => match x with IpDropLength l => Some l | _ => None end) o.
Definition pip_metas (o : list pip_out) : list ipv4Meta := omap (fun x => match x with IpMeta m => Some m | _ => None end) o.

Definition ip_received (m : ipv4Meta) (ws out : list net_axis) : Prop :=
  exists s1 o1 s2, runs (process_ipv4 512) (pip_init ws) s1 o1 /\ pip_metas o1 = [m] /\
    runs (ipv4_drop_optional_ip_header 512) (doh_init (pip_lengths o1) (pip_words o1)) s2 out /\ process2dropFifo s2 = [].

Lemma process_ipv4_packet v ws l :
  packet 64 ws (le_bytes 20 v ++ l) -> fits 160 v -> bits v 0 4 = 5 ->
  exists s o, runs (process_ipv4 512) (pip_init ws) s o /\ pip_words o = ws /\ pip_lengths o = [5] /\
    pip_metas o = [ipv4Meta_new (ip_getSrcAddr v) (ip_getLength v)].
Proof.
  intros Hw Hv Hb. destruct (packet_nonempty _ _ _ Hw) as (w & ws' & ->).
  set (first := [IpWord w; IpDropLength 5; IpMeta (ipv4Meta_new (ip_getSrcAddr v) (ip_getLength v))]).
  exists (mk_pip (mk_header false 0 v) 0 false []), (first ++ (IpWord <$> ws')). split.
  - apply (observe_packet _ 64 _ (fun i => mk_pip (mk_header true 1 v) 0 true i) (fun i => mk_pip (mk_header false 0 v) 0 false i)
      IpWord first w ws' _ Hw).
    + unfold pip_init. cbn [process_ipv4]. rewrite (parse_ip v w ws' l Hw Hv). cbn [h_header h_ready orb].
      unfold ip_getHeaderLength. rewrite Hb. by destruct (a_last w).
    + intros c input. cbn. by destruct (a_last c).
  - unfold pip_words, pip_lengths, pip_metas, first. cbn [app omap list_omap]. by rewrite omap_words, !omap_none.
Qed.

Lemma ip_received_packet v ws l :
  packet 64 ws (le_bytes 20 v ++ l) -> fits 160 v -> bits v 0 4 = 5 -> (0 < length l)%nat ->
  exists out, ip_received (ipv4Meta_new (ip_getSrcAddr v) (ip_getLength v)) ws out /\ packet 64 out l.
Proof.
  intros Hw Hv Hb Hl. destruct (process_ipv4_packet v ws l Hw Hv Hb) as (s1 & o1 & Hr1 & Hw1 & Hl1 & Hm1).
  destruct (doh_packet (le_bytes 20 v) ws l) as (s2 & out & Hr2 & Hi2 & Hout); [done | by rewrite length_le_bytes | done |].
  exists out. split; [|exact Hout]. exists s1, o1, s2. by rewrite Hw1, Hl1.
Qed.

(** The UDP module, for datagrams to the port it listens on. *)
Definition pudp_words (o : list pudp_out) : list net_axis := omap (fun x => match x with UdpWord w => Some w | _ => None end) o.
Definition pudp_metas (o : list pudp_out) : list udpMeta := omap (fun x => match x with UdpMeta m => Some m | _ => None end) o.

Definition udp_received (port : Z) (m : udpMeta) (ws out : list net_axis) : Prop :=
  exists s1 o1, runs (process_udp 512 port) (pudp_init ws) s1 o1 /\ pudp_metas o1 = [m] /\ unshifted 512 8 (pudp_words o1) out.

Lemma udp_received_packet v ws l :
  packet 64 ws (le_bytes 8 v ++ l) -> fits 64 v -> (0 < length l)%nat ->
  exists out, udp_received (udp_getDstPort v) (udpMeta_new (udp_getSrcPort v) (udp_getDstPort v) (udp_getLength v)) ws out /\
    packet 64 out l.
Proof.
  intros Hw Hv Hl. destruct (packet_nonempty _ _ _ Hw) as (w & ws' & ->).
  set (m := udpMeta_new (udp_getSrcPort v) (udp_getDstPort v) (udp_getLength v)). set (first := [UdpWord w; UdpMeta m]).
  assert (runs (process_udp 512 (udp_getDstPort v)) (pudp_init (w :: ws')) (mk_pudp (mk_header false 0 v) false []) (first ++ (UdpWord <$> ws'))) as Hr.
  { apply (observe_packet _ 64 _ (fun i => mk_pudp (mk_header true 1 v) true i) (fun i => mk_pudp (mk_header false 0 v) false i)
      UdpWord first w ws' _ Hw).
    - unfold pudp_init, header_new. cbn [process_udp]. rewrite parse_whole by (unfold UDP_HEADER_SIZE; lia).
      change UDP_HEADER_SIZE with (8 * Z.of_nat 8). rewrite (fits_le_bytes_header 8 v w ws' l) by (done || lia).
      cbn [h_header h_ready negb andb orb]. rewrite Z.eqb_refl. by destruct (a_last w).
    - intros c input. cbn. rewrite Z.eqb_refl. cbn. by destruct (a_last c). }
  destruct (unshifted_packet 512 64 eq_refl 8 (w :: ws') (le_bytes 8 v ++ l)) as (out & Hs & Hout);
    [lia | rewrite length_app, length_le_bytes; lia | exact Hw |].
  rewrite drop_app_length' in Hout by (by rewrite length_le_bytes). exists out. split; [|exact Hout].
  eexists _, _. split; [exact Hr|]. unfold pudp_words, pudp_metas, first. cbn [app omap list_omap]. by rewrite omap_words, omap_none.
Qed.

(** ** The fields *)

Lemma udp_fill_fields m :
  fits 16 (um_their_port m) -> fits 16 (um_my_port m) -> fits 16 (um_length m) ->
  let v := udp_fill 0 m in
  fits 64 v /\ udp_getDstPort v = um_their_port m /\ udp_getSrcPort v = um_my_port m /\ udp_getLength v = um_length m.
Proof.
  intros Ht Hm Hl v. unfold v, udp_fill, udp_getDstPort, udp_getSrcPort, udp_getLength, udp_setLength, udp_setSrcPort, udp_setDstPort.
  split_and!; [repeat (apply set_bits_fits; [lia..|]); done|..].
  - rewrite !(bits_set_bits_ne _ 32), !(bits_set_bits_ne _ 0) by lia. by apply bytes_field2.
  - rewrite !(bits_set_bits_ne _ 32) by lia. by apply bytes_field2.
  - by apply bytes_field2.
Qed.

(** ** Theorem *)

(** C6: A datagram handed to [split_tx_meta] arrives: its payload goes through the
    UDP and the IP module of the sender, is framed (with the address from the ARP
    server for the next hop, and with its checksum) and padded, passes the sorting
    of frames, the checksum and address checks and the cutting of the padding at
    the receiver, and its IP and UDP modules; the receiver, which listens on the
    port of the datagram, is handed exactly the bytes of the payload and meta data
    with the sender's address, the ports the other way round and a length that
    counts the UDP header. *)
Theorem datagram_delivered (fill mask gateway myIp myMac mac : Z) (m : ipUdpMeta) ws l :
  packet 64 ws l -> Z.of_nat (length l) + 28 < 2 ^ 16 ->
  iu_length m = Z.of_nat (length l) -> fits 16 (iu_their_port m) -> fits 16 (iu_my_port m) -> fits 32 myIp ->
  let dst := bits (iu_their_address m) 96 32 in
  exists (im rim : ipv4Meta) (um rum : udpMeta) (udpWs ipWs frame wire packetWs payloadWs out : list net_axis),
    split_tx_meta [m] = ([], [(im, um)]) /\
    udp_sent fill um ws udpWs /\ ip_sent fill myIp UDP im udpWs ipWs /\
    framed fill mask gateway myMac (next_hop mask gateway dst) mac ipWs frame /\ padded frame wire /\
    handled ToUDP dst wire packetWs /\ ip_received rim packetWs payloadWs /\ udp_received (iu_their_port m) rum payloadWs out /\
    merge_rx_meta ([rim], [rum]) =
      (([], []), [mk_ipUdpMeta myIp (iu_my_port m) (iu_their_port m) (Z.of_nat (length l) + 8)]) /\
    packet 64 out l.
Proof.
  intros Hw Hlen Hm Htp Hmp Hip dst.
  set (len := Z.of_nat (length l)) in *. set (um := udpMeta_new (iu_their_port m) (iu_my_port m) (len + 8)).
  set (im := ipv4Meta_new dst (len + 8)).
  assert (0 <= len) by lia. assert (fits 16 (len + 8)) as Hl8 by (unfold fits; lia).
  assert (fits 32 dst) as Hd by (by apply bits_range).
  destruct (udp_fill_fields um Htp Hmp Hl8) as (Hfu & Htu & Hmu & Hlu).
  destruct (udp_sent_packet fill um ws l Hw) as (w1 & H1 & Hp1).
  destruct (ip_sent_packet fill myIp UDP im w1 _ Hp1) as (w2 & H2 & Hp2).
  assert (Z.of_nat (length (le_bytes 8 (udp_fill 0 um) ++ l)) = len + 8) as Hbody by (rewrite length_app, length_le_bytes; lia).
  unfold im in Hp2. rewrite <- Hbody in Hp2.
  destruct (carried_packet fill mask gateway myMac mac myIp UDP ToUDP dst w2 (le_bytes 8 (udp_fill 0 um) ++ l) Hip ltac:(done) Hd eq_refl ltac:(lia) Hp2)
    as (v & w3 & w4 & w5 & H3 & H4 & H5 & Hp5 & Hfv & Hbv & Hsrc & Hdst & Hlength).
  destruct (ip_received_packet v w5 _ Hp5 Hfv Hbv) as (w6 & H6 & Hp6); [lia|].
  destruct (udp_received_packet _ w6 l Hp6 Hfu ltac:(pose proof (packet_length _ _ _ Hw); lia)) as (out & H7 & Hp7).
  rewrite Htu in H7. eexists im, _, um, _, w1, w2, w3, w4, w5, w6, out. split_and!; try done.
  - unfold split_tx_meta, ipv4Meta_new128. rewrite Hm. by rewrite wrap_small.
  - rewrite Hsrc, Hmu, Hlu. unfold merge_rx_meta. cbn. unfold ipUdpMeta_new. rewrite !wrap_small; try done. unfold fits in *. lia.
Qed.

(** Three bytes to 10.1.2.4, port 4791. *)
Definition demo_datagram : ipUdpMeta := mk_ipUdpMeta (Z.shiftl 0x0402010A 96) 4791 500 3.

Lemma datagram_delivered_witness :
  packet 64 [mk_axis 0x0A0B0C 7 true] [12; 11; 10] /\
  exists (im rim : ipv4Meta) (um rum : udpMeta) (udpWs ipWs frame wire packetWs payloadWs out : list net_axis),
    split_tx_meta [demo_datagram] = ([], [(im, um)]) /\
    udp_sent 0 um [mk_axis 0x0A0B0C 7 true] udpWs /\ ip_sent 0 0x0302010A UDP im udpWs ipWs /\
    framed 0 0x00FFFFFF 0x0102010A 0x1000 (next_hop 0x00FFFFFF 0x0102010A 0x0402010A) 0x2000 ipWs frame /\ padded frame wire /\
    handled ToUDP 0x0402010A wire packetWs /\ ip_received rim packetWs payloadWs /\ udp_received 4791 rum payloadWs out /\
    merge_rx_meta ([rim], [rum]) = (([], []), [mk_ipUdpMeta 0x0302010A 500 4791 11]) /\
    packet 64 out [12; 11; 10].
Proof.
  assert (packet 64 [mk_axis 0x0A0B0C 7 true] [12; 11; 10]) as Hw by (apply (packet_last 64 0x0A0B0C 3); lia).
  split; [exact Hw|].
  apply (datagram_delivered 0 0x00FFFFFF 0x0102010A 0x0302010A 0x1000 0x2000 demo_datagram _ _ Hw);
    first [reflexivity | split; [done | reflexivity]].
Defined.
