(* ===== verification/RxFsm.v ===== *)
(** The decisions of the RX engine ([rx_engine/rx_engine.cpp]): the metadata
    handler, which checks the port and looks the session up, and the TCP state
    machine, which reads the three tables and decides what becomes of the
    segment.  Each process is a function of its static variables and input
    streams; a call is one iteration. *)
From stdpp Require Import base numbers list strings.
From Stdlib Require Import ZArith Lia.
From S2P Require Import Prelude ToeTypes SessionLookup Axi.

Local Open Scope Z_scope.

(** ** Data ([rx_engine.hpp]) *)

Record rxEngineMetaData : Type := mk_rxMeta {
  seqNumb : Z; ackNumb : Z; winSize : Z; winScale : Z; rx_length : Z;
  f_ack : bool; f_rst : bool; f_syn : bool; f_fin : bool; rx_dataOffset : Z }.

Record rxFsmMetaData : Type := mk_rxFsmMeta {
  fm_sessionID : Z; fm_srcIpAddress : Z; fm_dstIpPort : Z; fm_meta : rxEngineMetaData; fm_srcIpPort : Z }.

(** ** [rxMetadataHandler] *)

Inductive mhStateType : Type := MH_META | MH_LOOKUP.

Record mh : Type := mk_mh {
  mh_state : mhStateType; mh_meta : rxEngineMetaData;
  mh_srcIpAddress : Z; mh_dstIpPort : Z; mh_srcIpPort : Z;
  mh_metaDataFifo : list rxEngineMetaData; mh_portTable_rsp : list bool; mh_tupleBuffer : list fourTuple;
  mh_sLookup_rsp : list sessionLookupReply }.

Inductive mh_out : Type :=
| MhLookup (q : sessionLookupQuery)   (* rxEng2sLookup_req *)
| MhEvent (e : extendedEvent)         (* rxEng2eventEng_setEvent *)
| MhDrop (b : bool)                   (* dropDataFifoOut *)
| MhFsm (m : rxFsmMetaData).          (* fsmMetaDataFifo *)

Section rxMetadataHandler.
Context `{cfg : ToeConfig}.

Definition switch_tuple (t : fourTuple) : fourTuple := mk_fourTuple (dstIp t) (srcIp t) (dstPort t) (srcPort t).

(** The answer to a segment for a closed port. *)
Definition port_closed (m : rxEngineMetaData) (t : fourTuple) : list mh_out :=
  (if f_rst m then [] else
     let seq := seqNumb m + rx_length m + (if f_syn m || f_fin m then 1 else 0) in
     [MhEvent (mk_extendedEvent (rstEvent 0 seq false) (Some (switch_tuple t)))]) ++
  (if rx_length m =? 0 then [] else [MhDrop true]).

Definition rxMetadataHandler (s : mh) : mh * list mh_out :=
  match s with
  | mk_mh MH_META _ _ _ _ (m :: metas) (open :: ports) (t :: tuples) lups =>
      let set st := mk_mh st m (reverse 4 (srcIp t)) (reverse 2 (dstPort t)) (reverse 2 (srcPort t)) metas ports tuples lups in
      if open then
        (set MH_LOOKUP, [MhLookup (mk_slQuery t (f_syn m && negb (f_rst m) && negb (f_fin m)))])
      else (set MH_META, port_closed m t)
  | mk_mh MH_LOOKUP m ip dport sport metas ports tuples (l :: lups) =>
      (mk_mh MH_META m ip dport sport metas ports tuples lups,
       (if sl_hit l then [MhFsm (mk_rxFsmMeta (sl_sessionID l) ip dport m sport)] else []) ++
       (if rx_length m =? 0 then [] else [MhDrop (negb (sl_hit l))]))
  | _ => (s, [])
  end.
End rxMetadataHandler.

(** ** [rxTcpFSM] *)

Inductive rfStateType : Type := RF_LOAD | RF_TRANSITION.

Record rfsm : Type := mk_rfsm {
  fsm_state : rfStateType; fsm_meta : rxFsmMetaData; fsm_txSarRequest : bool;
  rf_metaFifo : list rxFsmMetaData; rf_state_rsp : list sessionState;
  rf_rxSar_rsp : list rxSarEntry; rf_txSar_rsp : list rxTxSarReply }.

Inductive fsm_out : Type :=
| FState (q : stateQuery)             (* rxEng2stateTable_upd_req *)
| FRxSar (q : rxSarRecvd)             (* rxEng2rxSar_upd_req *)
| FTxSar (q : rxTxSarQuery)           (* rxEng2txSar_upd_req *)
| FClearRt (u : rxRetransmitTimerUpdate) (* rxEng2timer_clearRetransmitTimer *)
| FClearProbe (id : Z)                (* rxEng2timer_clearProbeTimer *)
| FSetClose (id : Z)                  (* rxEng2timer_setCloseTimer *)
| FOpen (o : openStatus)              (* openConStatusOut *)
| FEvent (e : event)                  (* rxEng2eventEng_setEvent *)
| FDrop (b : bool)                    (* dropDataFifoOut *)
| FWrite (c : mmCmd)                  (* rxBufferWriteCmd *)
| FNotify (n : appNotification).      (* rxEng2rxApp_notification *)

Section rxTcpFSM.
Context `{cfg : ToeConfig}.
(** What the local [txSar] holds before it is read, and the two counts of the
    receive buffer in builds without memory. *)
Context (uninit : rxTxSarReply) (rxbuffer_data_count rxbuffer_max_data_count : Z).

(** *** The segment and what is known of its session *)

Definition control_bits (m : rxEngineMetaData) : Z :=
  Z.b2z (f_ack m) + 2 * Z.b2z (f_syn m) + 4 * Z.b2z (f_fin m) + 8 * Z.b2z (f_rst m).

Definition state_write (id : Z) (st : sessionState) : fsm_out := FState (mk_stateQuery (u16 id) st true).

(** Address of a segment in the memory of its session. *)
Definition pkgAddr (id seq : Z) : Z :=
  set_bits (set_bits 0 WINDOW_BITS (30 - WINDOW_BITS) (bits id 0 14)) 0 WINDOW_BITS (bits seq 0 WINDOW_BITS).

Definition free_space (e : rxSarEntry) : Z := wrap WINDOW_BITS (re_appd e - wrap WINDOW_BITS (re_head e) - 1).

(** Room in the buffer of builds without memory. *)
Definition buffer_room : bool := 375 <? rxbuffer_max_data_count - rxbuffer_data_count.

(** *** Acknowledgements *)

(** The counters of duplicate acknowledgements and the congestion window. *)
Definition is_duplicate (m : rxEngineMetaData) (x : rxTxSarReply) : bool :=
  (ackNumb m =? xr_prevAck x) && negb (xr_prevAck x =? xr_nextByte x).

Definition grow_window (x : rxTxSarReply) : Z :=
  if xr_cong_window x <=? xr_slowstart_threshold x - MSS then wrap WINDOW_BITS (xr_cong_window x + MSS)
  else if xr_cong_window x <=? CONGESTION_WINDOW_MAX then wrap WINDOW_BITS (xr_cong_window x + 365)
  else xr_cong_window x.

Definition count_ack (m : rxEngineMetaData) (x : rxTxSarReply) : rxTxSarReply :=
  if is_duplicate m x then
    mk_rxTxSarReply (xr_prevAck x) (xr_nextByte x) (xr_cong_window x) (xr_slowstart_threshold x)
      (if rx_length m =? 0 then wrap 2 (xr_count x + 1) else xr_count x) (xr_fastRetransmitted x)
  else mk_rxTxSarReply (xr_prevAck x) (xr_nextByte x) (grow_window x) (xr_slowstart_threshold x) 0 false.

(** The number acknowledges something that has been sent. *)
Definition ack_in_flight (ack : Z) (x : rxTxSarReply) : bool :=
  ((xr_prevAck x <=? ack) && (ack <=? xr_nextByte x)) ||
  (((xr_prevAck x <=? ack) || (ack <=? xr_nextByte x)) && (xr_nextByte x <? xr_prevAck x)).

(** *** Payload *)

(** The segment goes to memory and [n] bytes are announced. *)
Definition store (m : rxFsmMetaData) (q : rxSarRecvd) (n : Z) : list fsm_out :=
  let id := fm_sessionID m in
  [FRxSar q; FWrite (mmCmd_new (pkgAddr id (seqNumb (fm_meta m))) (rx_length (fm_meta m)));
   FNotify (appNotification_data id n (fm_srcIpAddress m) (fm_dstIpPort m)); FDrop false].

Definition in_order (m : rxEngineMetaData) (e : rxSarEntry) : bool :=
  negb (re_gap e) && (seqNumb m =? re_recvd e) && (rx_length m <? free_space e).

(** With memory: one block behind a gap is kept. *)
Definition rx_payload_ddr (m : rxFsmMetaData) (e : rxSarEntry) : list fsm_out :=
  let id := fm_sessionID m in
  let seq := seqNumb (fm_meta m) in
  let len := rx_length (fm_meta m) in
  let put recvd head offset gap n := store m (rxSarRecvd_write id recvd head offset gap) n in
  if in_order (fm_meta m) e then put (seq + len) (seq + len) (re_offset e) (re_gap e) len
  else if negb (re_gap e) && (re_recvd e <? seq) && (wrap WINDOW_BITS (seq + len - re_head e) <? free_space e) then
    put (re_recvd e) (seq + len) seq true 0
  else if re_gap e && (seq =? re_head e) && (len <? free_space e) then
    put (re_recvd e) (seq + len) (re_offset e) (re_gap e) 0
  else if re_gap e && (seq =? re_recvd e) then
    if seq + len =? re_offset e then
      put (re_head e) (re_head e) (re_offset e) false (wrap WINDOW_BITS (re_head e - seq))
    else if seq + len <? re_offset e then put (seq + len) (re_head e) (re_offset e) (re_gap e) len
    else []
  else [FDrop true].

(** Without memory only the next segment is taken. *)
Definition rx_payload_bypass (m : rxFsmMetaData) (e : rxSarEntry) : list fsm_out :=
  let id := fm_sessionID m in
  let seq := seqNumb (fm_meta m) in
  let len := rx_length (fm_meta m) in
  if (seq =? re_recvd e) && buffer_room then
    [FRxSar (rxSarRecvd_write id (seq + len) (seq + len) (re_offset e) (re_gap e));
     FNotify (appNotification_data id len (fm_srcIpAddress m) (fm_dstIpPort m)); FDrop false]
  else [FDrop true].

Definition rx_payload (m : rxFsmMetaData) (e : rxSarEntry) : list fsm_out :=
  if rx_length (fm_meta m) =? 0 then []
  else if RX_DDR_BYPASS then rx_payload_bypass m e else rx_payload_ddr m e.

(** The answer: a retransmission, a delayed or an immediate acknowledgement. *)
Definition ack_event (m : rxFsmMetaData) (e : rxSarEntry) (x : rxTxSarReply) : list fsm_out :=
  let id := fm_sessionID m in
  if FAST_RETRANSMIT && (xr_count x =? 3) && negb (xr_fastRetransmitted x) then [FEvent (event_id RT id)]
  else if rx_length (fm_meta m) =? 0 then []
  else if (if RX_DDR_BYPASS then (seqNumb (fm_meta m) =? re_recvd e) && buffer_room else in_order (fm_meta m) e)
       then [FEvent (event_id ACK id)] else [FEvent (event_id ACK_NODELAY id)].

(** The state after an acknowledgement of everything that was sent. *)
Definition ack_state (id : Z) (acked : bool) (st : sessionState) : list fsm_out :=
  if acked then
    match st with
    | SYN_RECEIVED => [state_write id ESTABLISHED]
    | CLOSING => [state_write id TIME_WAIT; FSetClose id]
    | LAST_ACK => [state_write id CLOSED]
    | _ => [state_write id st]
    end
  else [state_write id st].

Definition ack_states : list sessionState := [ESTABLISHED; SYN_RECEIVED; FIN_WAIT_1; CLOSING; LAST_ACK].

Definition clear_rt (m : rxFsmMetaData) (x : rxTxSarReply) : fsm_out :=
  FClearRt (mk_rtUpdate (fm_sessionID m) (ackNumb (fm_meta m) =? xr_nextByte x)).

Definition on_ack (m : rxFsmMetaData) (st : sessionState) (e : rxSarEntry) (x : rxTxSarReply) : list fsm_out :=
  let id := fm_sessionID m in
  let mt := fm_meta m in
  let x' := count_ack mt x in
  clear_rt m x ::
  if bool_decide (st ∈ ack_states) then
    (if is_duplicate mt x then [] else [FClearProbe id]) ++
    (if ack_in_flight (ackNumb mt) x' then
       [FTxSar (rxTxSarQuery_write id (ackNumb mt) (winSize mt) (xr_cong_window x') (xr_count x')
          ((xr_count x' =? 3) || xr_fastRetransmitted x'))] else []) ++
    rx_payload m e ++ ack_event m e x' ++ ack_state id (ackNumb mt =? xr_nextByte x') st
  else
    [FEvent (rstEvent id (seqNumb mt + rx_length mt) true)] ++
    (if rx_length mt =? 0 then [] else [FDrop true]) ++ [state_write id st].

(** *** Opening *)

(** The tables for a new session; without window scaling the last argument of
    the first only makes the table set the pointer of the application. *)
Definition open_tables (m : rxFsmMetaData) (ackd cong_win : Z) : list fsm_out :=
  let id := fm_sessionID m in
  let seq := seqNumb (fm_meta m) + 1 in
  let ws := winScale (fm_meta m) in
  if WINDOW_SCALE then
    [FRxSar (rxSarRecvd_init id seq seq 0 false (if ws =? 0 then 0 else WINDOW_SCALE_BITS));
     FTxSar (rxTxSarQuery_init id ackd (winSize (fm_meta m)) cong_win 0 false ws)]
  else
    [FRxSar (rxSarRecvd_init id seq seq 0 false 1);
     FTxSar (rxTxSarQuery_write id ackd (winSize (fm_meta m)) cong_win 0 false)].

Definition on_syn (m : rxFsmMetaData) (st : sessionState) (e : rxSarEntry) : list fsm_out :=
  let id := fm_sessionID m in
  let seq := seqNumb (fm_meta m) in
  match st with
  | CLOSED | SYN_SENT =>
      open_tables m 0 (xr_cong_window uninit) ++ [FEvent (event_id SYN_ACK id); state_write id SYN_RECEIVED]
  | SYN_RECEIVED =>
      if seq + 1 =? re_recvd e then [FEvent (event_rt SYN_ACK id 1); state_write id st]
      else [FEvent (rstEvent id (seq + 1) true); state_write id CLOSED]
  | _ => [FEvent (event_id ACK_NODELAY id); state_write id st]
  end.

Definition on_syn_ack (m : rxFsmMetaData) (st : sessionState) (x : rxTxSarReply) : list fsm_out :=
  let id := fm_sessionID m in
  let mt := fm_meta m in
  clear_rt m x ::
  if bool_decide (st = SYN_SENT) then
    if ackNumb mt =? xr_nextByte x then
      open_tables m (ackNumb mt) (xr_cong_window x) ++
      [FEvent (event_id ACK_NODELAY id); state_write id ESTABLISHED;
       FOpen (openStatus_addr id 1 (fm_srcIpAddress m) (fm_srcIpPort m))]
    else [FEvent (rstEvent id (seqNumb mt + rx_length mt + 1) true); state_write id CLOSED]
  else [FEvent (event_id ACK_NODELAY id); state_write id st].

(** *** Closing *)

Definition fin_states : list sessionState := [ESTABLISHED; FIN_WAIT_1; FIN_WAIT_2].

(** Data in front of the FIN, and the news that the peer has closed. *)
Definition fin_payload (m : rxFsmMetaData) (st : sessionState) : list fsm_out :=
  let id := fm_sessionID m in
  let len := rx_length (fm_meta m) in
  if len =? 0 then
    if bool_decide (st = ESTABLISHED) then [FNotify (appNotification_close id (fm_srcIpAddress m) (fm_dstIpPort m))] else []
  else
    (if RX_DDR_BYPASS then [] else [FWrite (mmCmd_new (pkgAddr id (seqNumb (fm_meta m))) len)]) ++
    [FNotify (appNotification_last id len (fm_srcIpAddress m) (fm_dstIpPort m)); FDrop false].

Definition on_fin (m : rxFsmMetaData) (st : sessionState) (e : rxSarEntry) (x : rxTxSarReply) : list fsm_out :=
  let id := fm_sessionID m in
  let mt := fm_meta m in
  clear_rt m x ::
  if bool_decide (st ∈ fin_states) && (re_recvd e =? seqNumb mt) then
    let last := seqNumb mt + rx_length mt + 1 in
    [FTxSar (rxTxSarQuery_write id (ackNumb mt) (winSize mt) (xr_cong_window x) (xr_count x) (xr_fastRetransmitted x));
     FRxSar (rxSarRecvd_write id last last (re_offset e) (re_gap e)); FClearProbe id] ++
    fin_payload m st ++
    (if bool_decide (st = ESTABLISHED) then [FEvent (event_id FIN id); state_write id LAST_ACK]
     else (if ackNumb mt =? xr_nextByte x then [state_write id TIME_WAIT; FSetClose id] else [state_write id CLOSING]) ++
          [FEvent (event_id ACK id)])
  else
    [FEvent (event_id ACK id); state_write id st] ++ (if rx_length mt =? 0 then [] else [FDrop true]).

(** *** Resets and everything else *)

Definition on_other (m : rxFsmMetaData) (st : sessionState) (e : rxSarEntry) (x : rxTxSarReply) : list fsm_out :=
  let id := fm_sessionID m in
  let mt := fm_meta m in
  let stop := FClearRt (mk_rtUpdate id true) in
  if f_rst mt then
    if bool_decide (st = SYN_SENT) then
      if ackNumb mt =? xr_nextByte x then
        [FOpen (openStatus_addr id 0 (fm_srcIpAddress m) (fm_srcIpPort m)); state_write id CLOSED; stop]
      else [state_write id st]
    else if seqNumb mt =? re_recvd e then
      [FNotify (appNotification_close id (fm_srcIpAddress m) (fm_dstIpPort m)); state_write id CLOSED; stop]
    else [state_write id st]
  else [state_write id st].

(** *** The process *)

Definition fsm_transition (m : rxFsmMetaData) (st : sessionState) (e : rxSarEntry) (x : rxTxSarReply) : list fsm_out :=
  let c := control_bits (fm_meta m) in
  if c =? 1 then on_ack m st e x
  else if c =? 2 then on_syn m st e
  else if c =? 3 then on_syn_ack m st x
  else if c =? 5 then on_fin m st e x
  else on_other m st e x.

(** The combinations of flags for which the answer on the window is read
    without a test. *)
Definition needs_txSar (m : rxFsmMetaData) : bool :=
  let c := control_bits (fm_meta m) in (c =? 1) || (c =? 3) || (c =? 5).

Definition fsm_load (m : rxFsmMetaData) : list fsm_out :=
  let id := fm_sessionID m in
  [FState (stateQuery_read id); FRxSar (rxSarRecvd_read id)] ++
  (if f_ack (fm_meta m) then [FTxSar (rxTxSarQuery_read id)] else []).

Definition rxTcpFSM (s : rfsm) : rfsm * list fsm_out :=
  match s with
  | mk_rfsm RF_LOAD _ req (m :: ms) sts sars txs =>
      (mk_rfsm RF_TRANSITION m (req || f_ack (fm_meta m)) ms sts sars txs, fsm_load m)
  | mk_rfsm RF_TRANSITION m req ms (st :: sts) (e :: sars) txs =>
      let go x txs' := (mk_rfsm RF_LOAD m false ms sts sars txs', fsm_transition m st e x) in
      match txs with
      | [] => if req || needs_txSar m then (s, []) else go uninit []
      | x :: txs' => if control_bits (fm_meta m) =? 2 then go uninit txs else go x txs'
      end
  | _ => (s, [])
  end.
End rxTcpFSM.
