(* ===== verification/RxFsmFacts.v ===== *)
(** Theorems on the decisions of the RX engine (RxFsm): the transitions of a
    session and its lock, the flags for the payload, the congestion window. *)
From stdpp Require Import base numbers list gmap strings.
From Stdlib Require Import ZArith Lia.
From S2P Require Import Prelude ToeTypes StateTable SessionLookup Axi RxFsm.

Local Open Scope Z_scope.

(** ** Outputs of one stream *)

Definition fsm_states (o : list fsm_out) : list stateQuery := omap (fun x => match x with FState q => Some q | _ => None end) o.
Definition fsm_drops (o : list fsm_out) : list bool := omap (fun x => match x with FDrop b => Some b | _ => None end) o.
Definition fsm_rxSars (o : list fsm_out) : list rxSarRecvd := omap (fun x => match x with FRxSar q => Some q | _ => None end) o.
Definition fsm_txSars (o : list fsm_out) : list rxTxSarQuery := omap (fun x => match x with FTxSar q => Some q | _ => None end) o.
Definition fsm_writes (o : list fsm_out) : list mmCmd := omap (fun x => match x with FWrite c => Some c | _ => None end) o.
Definition fsm_notes (o : list fsm_out) : list appNotification := omap (fun x => match x with FNotify n => Some n | _ => None end) o.
Definition fsm_events (o : list fsm_out) : list event := omap (fun x => match x with FEvent e => Some e | _ => None end) o.

Definition fsm_closes (o : list fsm_out) : list Z := omap (fun x => match x with FSetClose id => Some id | _ => None end) o.
Definition fsm_opens (o : list fsm_out) : list openStatus := omap (fun x => match x with FOpen q => Some q | _ => None end) o.

(** The branches of the state machine. *)
Ltac fsm_unfold :=
  unfold fsm_transition, on_ack, on_syn, on_syn_ack, on_fin, on_other, fin_payload, open_tables, rx_payload, rx_payload_ddr,
    rx_payload_bypass, ack_event, ack_state, store, clear_rt, state_write.
Ltac fsm_split :=
  repeat match goal with
  | |- context [if ?b then _ else _] =>
      lazymatch b with context [if _ then _ else _] => fail | _ => destruct b eqn:? end
  | |- context [match ?s with CLOSED => _ | _ => _ end] => destruct s eqn:?
  end.

Section transitions.
Context `{cfg : ToeConfig} (uninit : rxTxSarReply) (data_count max_count : Z).

(** ** States *)

(** What a segment is to its session: an acknowledgement, a SYN, both, a FIN with an
    acknowledgement, a reset, or another combination of flags.  [acked]: it acknowledges
    everything that was sent, [next]: it is the next in order, [again]: it repeats the
    SYN. *)
Inductive rx_seg : Type :=
| RAck (acked : bool) | RSyn (again : bool) | RSynAck (acked : bool) | RFin (next acked : bool) | RRst (next acked : bool) | ROther.

Definition seg_of (m : rxFsmMetaData) (e : rxSarEntry) (x : rxTxSarReply) : rx_seg :=
  let mt := fm_meta m in
  let acked := ackNumb mt =? xr_nextByte x in
  let next := seqNumb mt =? re_recvd e in
  if f_rst mt then RRst next acked
  else match f_ack mt, f_syn mt, f_fin mt with
  | true, false, false => RAck acked
  | false, true, false => RSyn (seqNumb mt + 1 =? re_recvd e)
  | true, true, false => RSynAck acked
  | true, false, true => RFin next acked
  | _, _, _ => ROther
  end.

(** The state a session goes to, a table of RFC 793 without the states CLOSE_WAIT and
    FIN_WAIT_2: the stack closes its side as soon as the peer does, and waits in
    FIN_WAIT_1 for the FIN of the peer.  Further differences to the RFC: a SYN with an
    acknowledgement that does not fit closes a session in SYN_SENT (the RFC stays), an
    acknowledgement that comes with a FIN counts in FIN_WAIT_1 and FIN_WAIT_2 only, and
    the last row of FIN_WAIT_2. *)
Definition rx_next (st : sessionState) (g : rx_seg) : sessionState :=
  match g, st with
  | RSyn _, (CLOSED | SYN_SENT) => SYN_RECEIVED
  | RSyn false, SYN_RECEIVED => CLOSED
  | RSynAck acked, SYN_SENT => if acked then ESTABLISHED else CLOSED
  | RAck true, SYN_RECEIVED => ESTABLISHED
  | RAck true, CLOSING => TIME_WAIT
  | RAck true, LAST_ACK => CLOSED
  | RFin true _, ESTABLISHED => LAST_ACK
  | RFin true true, (FIN_WAIT_1 | FIN_WAIT_2) => TIME_WAIT
  | RFin true false, (FIN_WAIT_1 | FIN_WAIT_2) => CLOSING
  | RRst _ true, SYN_SENT => CLOSED
  | RRst _ false, SYN_SENT => SYN_SENT
  | RRst true _, _ => CLOSED
  | _, _ => st
  end.

(** The timer of the last state is set when it is entered, and a session that was
    being opened is reported when its fate is known. *)
Definition rx_closes (id : Z) (st : sessionState) (g : rx_seg) : list Z :=
  if bool_decide (rx_next st g = TIME_WAIT) && negb (bool_decide (st = TIME_WAIT)) then [id] else [].

Definition rx_opens (m : rxFsmMetaData) (st : sessionState) (g : rx_seg) : list openStatus :=
  let report ok := [openStatus_addr (fm_sessionID m) ok (fm_srcIpAddress m) (fm_srcIpPort m)] in
  match g, st with
  | RSynAck true, SYN_SENT => report 1
  | RRst _ true, SYN_SENT => report 0
  | _, _ => []
  end.

(** What the state machine tells the state table, the timer and the application. *)
Definition told (o : list fsm_out) : list stateQuery * list Z * list openStatus := (fsm_states o, fsm_closes o, fsm_opens o).

Definition rx_told (m : rxFsmMetaData) (st : sessionState) (g : rx_seg) : list stateQuery * list Z * list openStatus :=
  ([mk_stateQuery (u16 (fm_sessionID m)) (rx_next st g) true], rx_closes (fm_sessionID m) st g, rx_opens m st g).

Lemma count_ack_next (m : rxEngineMetaData) x : xr_nextByte (count_ack m x) = xr_nextByte x.
Proof. unfold count_ack. by destruct (is_duplicate m x). Qed.

Definition silent (o : list fsm_out) : Prop := told o = ([], [], []).

Lemma silent_app o1 o2 : silent o1 -> told (o1 ++ o2) = told o2.
Proof. unfold silent, told, fsm_states, fsm_closes, fsm_opens. intros [= E1 E2 E3]. rewrite !omap_app, E1, E2, E3. done. Qed.

Lemma told_silent o1 o2 : silent o2 -> told (o1 ++ o2) = told o1.
Proof. unfold silent, told, fsm_states, fsm_closes, fsm_opens. intros [= E1 E2 E3]. by rewrite !omap_app, E1, E2, E3, !app_nil_r. Qed.

Lemma payload_silent m e : silent (rx_payload data_count max_count m e).
Proof. fsm_unfold. by fsm_split. Qed.

Lemma ack_event_silent m e x : silent (ack_event data_count max_count m e x).
Proof. fsm_unfold. by fsm_split. Qed.

Lemma open_silent m a c : silent (open_tables m a c).
Proof. fsm_unfold. by fsm_split. Qed.

Lemma fin_silent m st : silent (fin_payload m st).
Proof. fsm_unfold. by fsm_split. Qed.

Lemma clear_told m x o : told (clear_rt m x :: o) = told o.
Proof. done. Qed.

Lemma drop_silent (b : bool) : silent (if b then [] else [FDrop true]).
Proof. by destruct b. Qed.

Lemma ack_states_table st : bool_decide (st ∈ ack_states) = match st with ESTABLISHED | SYN_RECEIVED | FIN_WAIT_1 | CLOSING | LAST_ACK => true | _ => false end.
Proof. by destruct st. Qed.

Lemma fin_states_table st : bool_decide (st ∈ fin_states) = match st with ESTABLISHED | FIN_WAIT_1 | FIN_WAIT_2 => true | _ => false end.
Proof. by destruct st. Qed.

Lemma ack_told m st e x : told (on_ack data_count max_count m st e x) = rx_told m st (RAck (ackNumb (fm_meta m) =? xr_nextByte x)).
Proof.
  unfold on_ack. rewrite clear_told, ack_states_table. destruct (match st with ESTABLISHED | _ => _ end) eqn:Hst.
  - rewrite !silent_app by (apply payload_silent || apply ack_event_silent || by destruct (is_duplicate _ x) || by destruct (ack_in_flight _ _)).
    rewrite count_ack_next. unfold ack_state. by destruct (ackNumb (fm_meta m) =? xr_nextByte x), st.
  - rewrite silent_app by done. rewrite silent_app by apply drop_silent. by destruct (ackNumb (fm_meta m) =? xr_nextByte x), st.
Qed.

Lemma syn_told m st e : told (on_syn uninit m st e) = rx_told m st (RSyn (seqNumb (fm_meta m) + 1 =? re_recvd e)).
Proof.
  unfold on_syn. destruct (seqNumb (fm_meta m) + 1 =? re_recvd e), st; try reflexivity; rewrite silent_app by apply open_silent; reflexivity.
Qed.

Lemma syn_ack_told m st x : told (on_syn_ack m st x) = rx_told m st (RSynAck (ackNumb (fm_meta m) =? xr_nextByte x)).
Proof.
  unfold on_syn_ack. rewrite clear_told. case_bool_decide as Hst.
  - subst st. destruct (ackNumb (fm_meta m) =? xr_nextByte x); [|reflexivity]. rewrite silent_app by apply open_silent. reflexivity.
  - destruct (ackNumb (fm_meta m) =? xr_nextByte x), st; done.
Qed.

Lemma fin_told m st e x :
  told (on_fin m st e x) = rx_told m st (RFin (seqNumb (fm_meta m) =? re_recvd e) (ackNumb (fm_meta m) =? xr_nextByte x)).
Proof.
  unfold on_fin. rewrite clear_told, (Z.eqb_sym (re_recvd e)), fin_states_table.
  destruct (seqNumb (fm_meta m) =? re_recvd e); [rewrite andb_true_r | rewrite andb_false_r, told_silent by apply drop_silent; by destruct st].
  destruct (ackNumb (fm_meta m) =? xr_nextByte x), st;
    first [rewrite told_silent by apply drop_silent; reflexivity | rewrite silent_app by done; rewrite silent_app by apply fin_silent; reflexivity].
Qed.

Lemma other_told m st e x :
  told (on_other m st e x) =
    rx_told m st (if f_rst (fm_meta m) then RRst (seqNumb (fm_meta m) =? re_recvd e) (ackNumb (fm_meta m) =? xr_nextByte x) else ROther).
Proof.
  unfold on_other. destruct (f_rst (fm_meta m)); [|by destruct st].
  destruct (ackNumb (fm_meta m) =? xr_nextByte x), (seqNumb (fm_meta m) =? re_recvd e), st; reflexivity.
Qed.

(** Every segment writes the state of its session once, which releases the lock. *)
Lemma transition_told m st e x : told (fsm_transition uninit data_count max_count m st e x) = rx_told m st (seg_of m e x).
Proof.
  unfold fsm_transition, seg_of, control_bits.
  pose proof (ack_told m st e x) as Ha. pose proof (syn_told m st e) as Hs. pose proof (syn_ack_told m st x) as Hsa.
  pose proof (fin_told m st e x) as Hf. pose proof (other_told m st e x) as Ho.
  destruct (f_rst (fm_meta m)), (f_ack (fm_meta m)), (f_syn (fm_meta m)), (f_fin (fm_meta m)); assumption.
Qed.

(** ** With the state table *)

(** The state table has nothing else to do for the engine, and the application
    interface neither holds session [id] nor waits. *)
Definition stt_quiet (id : Z) (s : stt) : Prop :=
  rxEng_upd_req s = [] /\ stt_rxWait s = false /\ tx_holds s id = false /\ txApp_upd_req s = [] /\ txApp_req s = [].

Lemma serve_read (id : Z) (s : stt) :
  in_table id = true -> stt_quiet id s -> id = u16 id ->
  exists s', state_table (stt_request (SRxQuery (stateQuery_read id)) s) = Next (s', [ToRxEng (stt_entry s id)]) /\
    RxHeld id (stt_entry s id) s'.
Proof.
  intros Hin (Hq & Hw & Ht & Ha & Hr) Hid. destruct s; unfold tx_holds in Ht; cbn in *. subst. eexists. split.
  - unfold state_table. cbn. unfold tx_holds. cbn. rewrite <- Hid, Ht. unfold rx_serve. cbn. rewrite <- Hid.
    unfold at_index. rewrite Hin. reflexivity.
  - split; unfold rx_holds, tx_holds, stt_entry; cbn; try done. by rewrite Z.eqb_refl.
Qed.

Lemma serve_write (id : Z) (st st' : sessionState) (s : stt) :
  in_table id = true -> RxHeld id st s -> txApp_upd_req s = [] -> txApp_req s = [] ->
  exists s', state_table (stt_request (SRxQuery (mk_stateQuery id st' true)) s) =
      Next (s', if bool_decide (st' = CLOSED) then [ToSLookup id] else []) /\
    stt_entry s' id = st' /\ rx_holds s' id = false /\ forall id', id' <> id -> stt_entry s' id' = stt_entry s id'.
Proof.
  intros Hin [Hl [Hq Hw] Ht He] Ha Hr. destruct s; unfold tx_holds, rx_holds in *; cbn in *. subst. eexists. split.
  - unfold state_table. cbn. unfold tx_holds. cbn. rewrite Ht. unfold rx_serve. cbn.
    unfold at_index. rewrite Hin. reflexivity.
  - unfold stt_entry. cbn. rewrite entry_insert, decide_True by done. split; [done|].
    split; [by rewrite andb_false_r|]. intros id' Hne. by rewrite entry_insert, decide_False.
Qed.


End transitions.

(** An acknowledgement of the SYN of session 3, while the application asks for the
    same session. *)
Definition demo_seg : rxFsmMetaData :=
  mk_rxFsmMeta 3 0x0A010203 5001 (mk_rxMeta 100 201 0x7000 0 0 true false false false 5) 40000.
Definition demo_tables : stt :=
  mk_stt {[ 3 := SYN_RECEIVED ]} 0 0 false false (stateQuery_read 0) (stateQuery_read 0) false false 0 false [] [] [] [].
Definition demo_others : list stt_label := [STxQuery (mk_stateQuery 3 FIN_WAIT_1 true); SCall].

#[local] Instance demo_cfg : ToeConfig := sim_config 1000 true true.
Definition demo_reply : rxTxSarReply := mk_rxTxSarReply 200 201 0x3908 0xFFFF 0 false.
Definition demo_read : stt := match state_table (stt_request (SRxQuery (stateQuery_read 3)) demo_tables) with Next (s, _) => s | _ => demo_tables end.
Definition demo_later : stt := fst (run_or_init demo_others (demo_read, [])).

