(* ===== verification/TcpHeader.v ===== *)
(** The TCP headers ([toe_internals.hpp]): the pseudo header the checksum covers,
    the pseudo header with the TCP header behind it, the TCP header alone, and the
    space of the options.  Ports and checksums are kept in the order of the wire,
    numbers and windows are turned around. *)
From stdpp Require Import base numbers list strings.
From Stdlib Require Import ZArith Lia.
From S2P Require Import Prelude Axi.

Local Open Scope Z_scope.

Definition TCP_PSEUDO_HEADER_SIZE : Z := 96.
Definition TCP_FULL_PSEUDO_HEADER_SIZE : Z := 256.
Definition TCP_HEADER_SIZE : Z := 160.
Definition TCP_OPTIONAL_HEADER_SIZE : Z := 320.

(** ** [tcpPseudoHeader] *)

Definition tcpPseudoHeader : packetHeader := mk_header false 0 (set_bits (set_bits 0 64 8 0x00) 72 8 0x06).

Definition tph_setSrcAddr (h addr : Z) : Z := set_bits h 0 32 addr.
Definition tph_getSrcAddr (h : Z) : Z := bits h 0 32.
Definition tph_setDstAddr (h addr : Z) : Z := set_bits h 32 32 addr.
Definition tph_getDstAddr (h : Z) : Z := bits h 32 32.
Definition tph_setLength (h len : Z) : Z := set_bits h 80 16 (reverse 2 len).
Definition tph_getLength (h : Z) : Z := reverse 2 (bits h 80 16).
Definition tph_setProtocol (h protocol : Z) : Z := set_bits h 72 8 protocol.
Definition tph_getProtocol (h : Z) : Z := bits h 72 8.

(** ** [tcpFullPseudoHeader] *)

(** The constructor clears the reserved bits and flags and sets the protocol. *)
Definition tcpFullPseudoHeader : packetHeader :=
  mk_header false 0
    (set_bits (set_bits (set_bits (set_bits (set_bits (set_bits (set_bits 0 64 8 0x00) 72 8 0x06) 192 1 0) 193 3 0) 203 1 0) 205 3 0)
       240 16 0).

Definition tfh_setSrcAddr (h addr : Z) : Z := set_bits h 0 32 addr.
Definition tfh_getSrcAddr (h : Z) : Z := bits h 0 32.
Definition tfh_setDstAddr (h addr : Z) : Z := set_bits h 32 32 addr.
Definition tfh_getDstAddr (h : Z) : Z := bits h 32 32.
Definition tfh_setProtocol (h protocol : Z) : Z := set_bits h 72 8 protocol.
Definition tfh_getProtocol (h : Z) : Z := bits h 72 8.
Definition tfh_setLength (h len : Z) : Z := set_bits h 80 16 (reverse 2 len).
Definition tfh_getLength (h : Z) : Z := reverse 2 (bits h 80 16).
Definition tfh_setSrcPort (h port : Z) : Z := set_bits h 96 16 port.
Definition tfh_getSrcPort (h : Z) : Z := bits h 96 16.
Definition tfh_setDstPort (h port : Z) : Z := set_bits h 112 16 port.
Definition tfh_getDstPort (h : Z) : Z := bits h 112 16.
Definition tfh_setSeqNumb (h seq : Z) : Z := set_bits h 128 32 (reverse 4 seq).
Definition tfh_getSeqNumb (h : Z) : Z := reverse 4 (bits h 128 32).
Definition tfh_setAckNumb (h ack : Z) : Z := set_bits h 160 32 (reverse 4 ack).
Definition tfh_getAckNumb (h : Z) : Z := reverse 4 (bits h 160 32).
Definition tfh_setDataOffset (h offset : Z) : Z := set_bits h 196 4 offset.
Definition tfh_getDataOffset (h : Z) : Z := bits h 196 4.
Definition tfh_getAckFlag (h : Z) : bool := Z.testbit h 204.
Definition tfh_setAckFlag (h : Z) (flag : bool) : Z := set_bits h 204 1 (Z.b2z flag).
Definition tfh_getRstFlag (h : Z) : bool := Z.testbit h 202.
Definition tfh_setRstFlag (h : Z) (flag : bool) : Z := set_bits h 202 1 (Z.b2z flag).
Definition tfh_getSynFlag (h : Z) : bool := Z.testbit h 201.
Definition tfh_setSynFlag (h : Z) (flag : bool) : Z := set_bits h 201 1 (Z.b2z flag).
Definition tfh_getFinFlag (h : Z) : bool := Z.testbit h 200.
Definition tfh_setFinFlag (h : Z) (flag : bool) : Z := set_bits h 200 1 (Z.b2z flag).
Definition tfh_setWindowSize (h size : Z) : Z := set_bits h 208 16 (reverse 2 size).
Definition tfh_getWindowSize (h : Z) : Z := reverse 2 (bits h 208 16).
Definition tfh_setChecksum (h checksum : Z) : Z := set_bits h 224 16 checksum.
Definition tfh_getChecksum (h : Z) : Z := bits h 224 16.

(** ** [tcpHeader] *)

Definition tcpHeader : packetHeader := mk_header false 0 (set_bits 0 97 3 0).

Definition th_setSrcPort (h port : Z) : Z := set_bits h 0 16 port.
Definition th_getSrcPort (h : Z) : Z := bits h 0 16.
Definition th_setDstPort (h port : Z) : Z := set_bits h 16 16 port.
Definition th_getDstPort (h : Z) : Z := bits h 16 16.
Definition th_setSeqNumb (h seq : Z) : Z := set_bits h 32 32 (reverse 4 seq).
Definition th_getSeqNumb (h : Z) : Z := reverse 4 (bits h 32 32).
Definition th_setAckNumb (h ack : Z) : Z := set_bits h 64 32 (reverse 4 ack).
Definition th_getAckNumb (h : Z) : Z := reverse 4 (bits h 64 32).
Definition th_getDataOffset (h : Z) : Z := bits h 100 4.
Definition th_getAckFlag (h : Z) : bool := Z.testbit h 108.
Definition th_getRstFlag (h : Z) : bool := Z.testbit h 106.
Definition th_getSynFlag (h : Z) : bool := Z.testbit h 105.
Definition th_getFinFlag (h : Z) : bool := Z.testbit h 104.
Definition th_setWindowSize (h size : Z) : Z := set_bits h 112 16 (reverse 2 size).
Definition th_getWindowSize (h : Z) : Z := reverse 2 (bits h 112 16).
Definition th_setChecksum (h checksum : Z) : Z := set_bits h 128 16 checksum.
Definition th_getChecksum (h : Z) : Z := bits h 128 16.

(** ** [tcpOptionalHeader] *)

Definition tcpOptionalHeader : packetHeader := header_new.
