(* ===== verification/RxEngine.v ===== *)
(** The words of received segments in the RX engine ([rx_engine/rx_engine.cpp],
    [two_complement_subchecksums.hpp]): the IP header is exchanged for the pseudo
    header, the checksum is taken, the headers are read and taken off, and the
    payload is dropped or written to memory.  Each process is a function of its
    static variables and input streams; a call is one iteration.  [W] is the width
    of the words. *)
From stdpp Require Import base numbers list strings.
From Stdlib Require Import ZArith Lia.
From S2P Require Import Prelude ToeTypes Axi Streams Ipv4 TcpHeader RxFsm.

Local Open Scope Z_scope.

(** ** Data ([rx_engine.hpp]) *)

Record optionalFieldsMeta : Type := mk_ofMeta { of_dataOffset : Z; of_syn : bool }.
Record pseudoMeta : Type := mk_pseudoMeta { ps_their_address : Z; ps_our_address : Z; ps_length : Z }.

(** ** [toe_process_ipv4] *)

Record tpip : Type := mk_tpip { tp_header : packetHeader; tp_headerWordsDropped : Z; tp_metaWritten : bool; tp_dataIn : list net_axis }.
Inductive tpip_out : Type :=
| TpWord (w : net_axis)          (* dataOut *)
| TpDropLength (l : Z)           (* process2dropLengthFifo *)
| TpMeta (m : pseudoMeta).       (* metaOut *)

Definition tpip_init (input : list net_axis) : tpip := mk_tpip ipv4Header 0 false input.

Section toe_process_ipv4.
Context (W : Z).

Definition toe_process_ipv4 (s : tpip) : tpip * list tpip_out :=
  match s with
  | mk_tpip h dropped written (w :: input) =>
      let h' := parseWord W IPV4_HEADER_SIZE h (a_data w) in
      let v := h_header h' in
      let written' := written || h_ready h' in
      let out := if h_ready h' then
                   TpWord w :: if written then [] else
                     [TpDropLength (wrap 4 (ip_getHeaderLength v - dropped));
                      TpMeta (mk_pseudoMeta (ip_getSrcAddr v) (ip_getDstAddr v) (u16 (ip_getLength v - ip_getHeaderLength v * 4)))]
                 else [] in
      (if a_last w then mk_tpip (header_clear h') 0 false input
       else mk_tpip h' (wrap 4 (dropped + W / 32)) written' input, out)
  | _ => (s, [])
  end.
End toe_process_ipv4.

(** ** [constructPseudoHeader] *)

Inductive cphState : Type := CPH_META | CPH_HEADER.
Record cph : Type := mk_cph { cph_state : cphState; cph_header : packetHeader; cph_ipMetaIn : list pseudoMeta }.

Definition cph_init (metas : list pseudoMeta) : cph := mk_cph CPH_META tcpPseudoHeader metas.

Section constructPseudoHeader.
Context (W : Z).
(** What a new word holds. *)
Context (fill : Z).

Definition pseudo_fill (v : Z) (m : pseudoMeta) : Z :=
  tph_setLength (tph_setDstAddr (tph_setSrcAddr v (ps_their_address m)) (ps_our_address m)) (ps_length m).

Definition constructPseudoHeader (s : cph) : cph * list net_axis :=
  let '(mk_cph st h metas) := s in
  match st with
  | CPH_META =>
      match metas with
      | m :: metas' => (mk_cph CPH_HEADER (mk_header false 0 (pseudo_fill (h_header h) m)) metas', [])
      | [] => (s, [])
      end
  | CPH_HEADER =>
      let '(h', d, remaining) := consumeWord W TCP_PSEUDO_HEADER_SIZE h fill in
      (mk_cph (if remaining =? 0 then CPH_META else CPH_HEADER) h' metas, [mk_axis d (Z.ones (W / 8)) (remaining =? 0)])
  end.
End constructPseudoHeader.

(** ** [prependPseudoHeader] *)

Record pph : Type := mk_pph {
  pph_payload : bool; pph_prevWord : net_axis; pph_firstPayload : bool; pph_headerIn : list net_axis; pph_packetIn : list net_axis }.

Definition pph_init (header input : list net_axis) : pph := mk_pph false (mk_axis 0 0 false) true header input.

Section prependPseudoHeader.
Context (W : Z).

Definition prependPseudoHeader (s : pph) : pph * list net_axis :=
  match s with
  | mk_pph false _ first (w :: header) input =>
      if a_last w then (mk_pph true (mk_axis (a_data w) (a_keep w) false) true header input, [])
      else (mk_pph false w first header input, [w])
  | mk_pph true p first header (c :: input) =>
      let d := if first then
                 if W =? 64 then set_bits (a_data c) 0 32 (bits (a_data p) 0 32)
                 else if 64 <? W then set_bits (a_data c) 0 96 (bits (a_data p) 0 96) else a_data c
               else a_data c in
      (mk_pph (negb (a_last c)) p false header input, [mk_axis d (a_keep c) (a_last c)])
  | _ => (s, [])
  end.
End prependPseudoHeader.

(** ** [two_complement_subchecksums] *)

Record tcts : Type := mk_tcts { tcts_sums : list Z; tcts_dataIn : list net_axis }.

Definition tcts_init (N : nat) (input : list net_axis) : tcts := mk_tcts (replicate N 0) input.

(** The [i]th 16-bit word counts with the bytes of it that are valid. *)
Definition kept_word (w : net_axis) (i : nat) : option Z :=
  if bits (a_keep w) (2 * Z.of_nat i) 2 =? 3 then Some (be16 (a_data w) i)
  else if Z.testbit (a_keep w) (2 * Z.of_nat i) then Some (Z.shiftl (bits (a_data w) (16 * Z.of_nat i) 8) 8)
  else None.

Definition sum_kept (w : net_axis) (sums : list Z) : list Z :=
  imap (fun i s => match kept_word w i with Some x => add_sum s x | None => s end) sums.

Section two_complement_subchecksums.
Context (N : nat).

Definition two_complement_subchecksums (s : tcts) : tcts * list cics_out :=
  match s with
  | mk_tcts sums (w :: input) =>
      let sums' := sum_kept w sums in
      if a_last w then (mk_tcts (replicate N 0) input, [CsWord w; CsSums sums'])
      else (mk_tcts sums' input, [CsWord w])
  | _ => (s, [])
  end.
End two_complement_subchecksums.

(** ** [processPseudoHeader] *)

Record prph : Type := mk_prph {
  prph_header : packetHeader; prph_firstWord : bool; prph_pkgValid : bool; prph_metaWritten : bool;
  prph_dataIn : list net_axis; prph_validFifoIn : list bool }.

Inductive prph_out : Type :=
| PhWord (w : net_axis)                  (* dataOut *)
| PhMeta (m : rxEngineMetaData)          (* metaDataFifoOut *)
| PhPort (p : Z)                         (* portTableOut *)
| PhTuple (t : fourTuple)                (* tupleFifoOut *)
| PhOptions (o : optionalFieldsMeta).    (* ofMetaOut *)

Definition prph_init (input : list net_axis) (valids : list bool) : prph := mk_prph tcpFullPseudoHeader true false false input valids.

Section processPseudoHeader.
Context (W : Z).

(** The length of the payload. *)
Definition tcp_payload (v : Z) : Z := tfh_getLength v - tfh_getDataOffset v * 4.

Definition meta_of_header (v : Z) : rxEngineMetaData :=
  mk_rxMeta (tfh_getSeqNumb v) (tfh_getAckNumb v) (tfh_getWindowSize v) 0 (u16 (tcp_payload v))
    (tfh_getAckFlag v) (tfh_getRstFlag v) (tfh_getSynFlag v) (tfh_getFinFlag v) (tfh_getDataOffset v).

Definition header_outs (v : Z) : list prph_out :=
  [PhMeta (meta_of_header v); PhPort (tfh_getDstPort v);
   PhTuple (mk_fourTuple (tfh_getSrcAddr v) (tfh_getDstAddr v) (tfh_getSrcPort v) (tfh_getDstPort v))] ++
  (if negb (u16 (tcp_payload v) =? 0) || (5 <? tfh_getDataOffset v)
   then [PhOptions (mk_ofMeta (wrap 4 (tfh_getDataOffset v - 5)) (tfh_getSynFlag v))] else []).

Definition processPseudoHeader (s : prph) : prph * list prph_out :=
  let '(mk_prph h first valid written input valids) := s in
  let go valid valids w input' :=
    let h' := parseWord W TCP_FULL_PSEUDO_HEADER_SIZE h (a_data w) in
    let v := h_header h' in
    let out :=
      (if written && valid && (W <=? TCP_FULL_PSEUDO_HEADER_SIZE) then [PhWord w] else []) ++
      (if h_ready h' then
         (if valid && (TCP_FULL_PSEUDO_HEADER_SIZE <? W) && (negb (tcp_payload v =? 0) || (5 <? tfh_getDataOffset v))
          then [PhWord w] else []) ++
         (if written || negb valid then [] else header_outs v)
       else []) in
    (if a_last w then mk_prph (header_clear h') true valid false input' valids
     else mk_prph h' false valid (written || h_ready h') input' valids, out) in
  match input with
  | w :: input' =>
      if first then match valids with v :: valids' => go v valids' w input' | [] => (s, []) end
      else go valid valids w input'
  | [] => (s, [])
  end.
End processPseudoHeader.

(** ** [drop_optional_header_fields] *)

Record dof : Type := mk_dof {
  dof_state : Z; dof_dataOffset : Z; dof_prevWord : net_axis; dof_optionalHeader : packetHeader;
  dof_parseHeader : bool; dof_headerWritten : bool; dof_metaIn : list optionalFieldsMeta; dof_dataIn : list net_axis }.

Inductive dof_out : Type :=
| DofWord (w : net_axis)        (* dataOut *)
| DofOffset (o : Z)             (* dataOffsetOut *)
| DofFields (f : Z).            (* optionalHeaderFieldsOut *)

Definition dof_init (metas : list optionalFieldsMeta) (input : list net_axis) : dof :=
  mk_dof 0 0 (mk_axis 0 0 false) tcpOptionalHeader false false metas input.

Section drop_optional_header_fields.
Context `{cfg : ToeConfig} (W : Z).

(** A valid byte of the word lies behind the options. *)
Definition kept_behind (offset : Z) (w : net_axis) : bool := Z.testbit (a_keep w) (offset * 4).

(** The first word of a segment. *)
Definition dof_first (m : optionalFieldsMeta) (oh : packetHeader) (w : net_axis) metas input : dof * list dof_out :=
  let off := of_dataOffset m in
  let oh' := parseWord W TCP_OPTIONAL_HEADER_SIZE (header_clear oh) (a_data w) in
  let parse := WINDOW_SCALE && negb (off =? 0) && of_syn m in
  let next := if a_last w then
                if negb (off =? 0) && (off * 4 <? W / 8) && kept_behind off w then 2 else 0
              else 1 in
  (mk_dof next off w oh' parse false metas input,
   (if off =? 0 then [DofWord w] else []) ++
   (if parse then DofOffset off :: (if h_ready oh' || a_last w then [DofFields (h_header oh')] else []) else [])).

(** The words after it. *)
Definition dof_later (off : Z) (prev : net_axis) (oh : packetHeader) (parse written : bool) metas (w : net_axis) input : dof * list dof_out :=
  let oh' := if WINDOW_SCALE then parseWord W TCP_OPTIONAL_HEADER_SIZE oh (a_data w) else oh in
  let tell := WINDOW_SCALE && (h_ready oh' || a_last w) && parse && negb written in
  let off' := if W / 32 <=? off then off - W / 32 else off in
  let next := if a_last w then if kept_behind off' w && negb (off' =? 0) then 2 else 0 else 1 in
  (mk_dof next off' w oh' parse (written || tell) metas input,
   (if tell then [DofFields (h_header oh')] else []) ++
   (if W / 32 <=? off then []
    else if off =? 0 then [DofWord w]
    else [DofWord (rshift_join W (4 * off) prev w (negb (kept_behind off w)))])).

Definition drop_optional_header_fields (s : dof) : dof * list dof_out :=
  let '(mk_dof st off prev oh parse written metas input) := s in
  if st =? 0 then
    match metas, input with
    | m :: metas', w :: input' => dof_first m oh w metas' input'
    | _, _ => (s, [])
    end
  else if st =? 1 then
    match input with
    | w :: input' => dof_later off prev oh parse written metas w input'
    | [] => (s, [])
    end
  else
    (mk_dof 0 off prev oh parse written metas input, [DofWord (rshift_join W (4 * off) prev (mk_axis 0 0 false) true)]).
End drop_optional_header_fields.

(** ** [parse_optional_header_fields] *)

Record pof : Type := mk_pof { pof_parse : bool; pof_dataOffset : Z; pof_fields : Z; pof_dataOffsetIn : list Z; pof_fieldsIn : list Z }.

Definition pof_init (offsets fields : list Z) : pof := mk_pof false 0 0 offsets fields.

(** The option at the front: its kind, and the length the code takes it to have. *)
Definition option_kind (f : Z) : Z := bits f 0 8.
Definition option_length (f : Z) : Z := if option_kind f =? 1 then 1 else bits f 8 8.

Definition parse_optional_header_fields (s : pof) : pof * list Z :=
  match s with
  | mk_pof false _ _ (o :: offs) (f :: fs) => (mk_pof true o f offs fs, [])
  | mk_pof true o f offs fs =>
      let next := wrap 4 (o - option_length f) in
      let rest := Z.shiftr f (option_length f * 8) in
      if option_kind f =? 0 then (mk_pof false next rest offs fs, [0])
      else if option_kind f =? 1 then (mk_pof true next rest offs fs, [])
      else if option_kind f =? 3 then (mk_pof false next rest offs fs, [bits f 16 4])
      else if o =? option_length f then (mk_pof false next rest offs fs, [0])
      else (mk_pof true next rest offs fs, [])
  | _ => (s, [])
  end.

(** ** [merge_header_meta] *)

(** [mhm_wait]: a segment with options waits for its window scale. *)
Record mhm : Type := mk_mhm {
  mhm_wait : bool; mhm_meta : rxEngineMetaData; rxEng_winScaleFifo : list Z; rxEng_headerMetaFifo : list rxEngineMetaData }.

Definition set_winScale (m : rxEngineMetaData) (scale : Z) : rxEngineMetaData :=
  mk_rxMeta (seqNumb m) (ackNumb m) (winSize m) scale (rx_length m) (f_ack m) (f_rst m) (f_syn m) (f_fin m) (rx_dataOffset m).

Definition merge_header_meta (s : mhm) : mhm * list rxEngineMetaData :=
  match s with
  | mk_mhm false _ scales (m :: metas) =>
      if f_syn m && (5 <? rx_dataOffset m) then (mk_mhm true m scales metas, [])
      else (mk_mhm false (set_winScale m 0) scales metas, [set_winScale m 0])
  | mk_mhm true m (x :: scales) metas => (mk_mhm false (set_winScale m x) scales metas, [set_winScale m x])
  | _ => (s, [])
  end.

(** ** [rxPackageDropper] *)

Inductive tpfStateType : Type := READ_DROP1 | READ_DROP2 | TPF_FWD | TPF_DROP.

Record tpf : Type := mk_tpf { tpf_state : tpfStateType; tpf_dataIn : list net_axis; dropFifoIn1 : list bool; dropFifoIn2 : list bool }.

Definition rxPackageDropper (s : tpf) : tpf * list net_axis :=
  match s with
  | mk_tpf READ_DROP1 input (d :: drops1) drops2 => (mk_tpf (if d then TPF_DROP else READ_DROP2) input drops1 drops2, [])
  | mk_tpf READ_DROP2 input drops1 (d :: drops2) => (mk_tpf (if d then TPF_DROP else TPF_FWD) input drops1 drops2, [])
  | mk_tpf TPF_FWD (w :: input) drops1 drops2 => (mk_tpf (if a_last w then READ_DROP1 else TPF_FWD) input drops1 drops2, [w])
  | mk_tpf TPF_DROP (w :: input) drops1 drops2 => (mk_tpf (if a_last w then READ_DROP1 else TPF_DROP) input drops1 drops2, [])
  | _ => (s, [])
  end.

(** ** [rxAppNotificationDelayer] *)

Record rand : Type := mk_rand {
  rand_double : bool; rand_fifoCount : Z; rand_status1 : mmStatus; rand_notification : appNotification;
  rand_notificationBuffer : list appNotification;
  rxWriteStatusIn : list mmStatus; internalNotificationFifoIn : list appNotification; doubleAccess : list bool }.

(** Only news of data, and if all its writes succeeded, is passed on. *)
Definition announce (ok : bool) (n : appNotification) : list appNotification :=
  if ok && negb (an_length n =? 0) then [n] else [].

Definition rxAppNotificationDelayer (s : rand) : rand * list appNotification :=
  let '(mk_rand double cnt st1 n buf sts notes dbls) := s in
  if double then
    match sts with
    | st2 :: sts' => (mk_rand false (wrap 5 (cnt - 1)) st1 n buf sts' notes dbls, announce (ms_okay st1 && ms_okay st2) n)
    | [] => (s, [])
    end
  else
    match sts, buf, dbls with
    | st :: sts', n' :: buf', d :: dbls' =>
        if d then (mk_rand true cnt st n' buf' sts' notes dbls', [])
        else (mk_rand false (wrap 5 (cnt - 1)) st n' buf' sts' notes dbls', announce (ms_okay st) n')
    | _, _, _ =>
        match notes with
        | n' :: notes' =>
            if cnt <? 31 then
              if an_closed n' && (an_length n' =? 0) then (mk_rand false cnt st1 n' buf sts notes' dbls, [n'])
              else (mk_rand false (wrap 5 (cnt + 1)) st1 n' (buf ++ [n']) sts notes' dbls, [])
            else (s, [])
        | [] => (s, [])
        end
    end.

(** ** [rxEventMerger] *)

Definition rxEventMerger (s : list extendedEvent * list event) : (list extendedEvent * list event) * list extendedEvent :=
  match s with
  | (e :: es, fs) => ((es, fs), [e])
  | ([], f :: fs) => (([], fs), [extend f])
  | ([], []) => (s, [])
  end.

(** ** [rxEngMemWrite] *)

Inductive rmwState : Type := RMW_IDLE | IDLE_REG | CUT_FIRST | ALIGN_SECOND | FWD_ALIGNED | RESIDUE.

Record rmw : Type := mk_rmw {
  rmw_state : rmwState; rmw_cmd : mmCmd; rmw_remainingLength : Z; rmw_lengthFirstPkg : Z; rmw_offset : Z; rmw_prevWord : net_axis;
  rmw_cmdIn : list mmCmd; rmw_dataIn : list net_axis }.

Inductive rmw_out : Type :=
| RmwCmd (c : mmCmd)            (* cmdOut *)
| RmwWord (w : net_axis)        (* dataOut *)
| RmwDouble (d : bool).         (* doubleAccess *)

Definition rmw_init (cmds : list mmCmd) (input : list net_axis) : rmw :=
  mk_rmw RMW_IDLE (mk_mmCmd 0 0) 0 0 0 (mk_axis 0 0 false) cmds input.

Section rxEngMemWrite.
Context `{cfg : ToeConfig} (W DATA_KEEP_BITS : Z).

(** The part of a command behind the end of the buffer. *)
Definition second_cmd (c : mmCmd) (first : Z) : mmCmd :=
  mk_mmCmd (wrap 23 (mc_bbt c - first)) (set_bits (mc_saddr c) 0 WINDOW_BITS 0).

Definition rxEngMemWrite (s : rmw) : rmw * list rmw_out :=
  let '(mk_rmw st cmd rem first off prev cmds input) := s in
  match st with
  | RMW_IDLE =>
      match cmds with
      | c :: cmds' => (mk_rmw IDLE_REG c rem first off prev cmds' input, [])
      | [] => (s, [])
      end
  | IDLE_REG =>
      if BUFFER_SIZE <? bits (mc_saddr cmd) 0 WINDOW_BITS + mc_bbt cmd then
        let first' := wrap WINDOW_BITS (BUFFER_SIZE - mc_saddr cmd) in
        (mk_rmw CUT_FIRST cmd first' first' (bits first' 0 DATA_KEEP_BITS) prev cmds input,
         [RmwDouble true; RmwCmd (mmCmd_new (mc_saddr cmd) first')])
      else (mk_rmw FWD_ALIGNED cmd rem first off prev cmds input, [RmwDouble false; RmwCmd cmd])
  | CUT_FIRST =>
      match input with
      | w :: input' =>
          if W / 8 <? rem then (mk_rmw CUT_FIRST cmd (rem - W / 8) first off w cmds input', [RmwWord w])
          else if rem =? W / 8 then
            (mk_rmw FWD_ALIGNED (second_cmd cmd first) rem first off w cmds input',
             [RmwCmd (second_cmd cmd first); RmwWord (mk_axis (a_data w) (a_keep w) true)])
          else
            (mk_rmw (if a_last w then RESIDUE else ALIGN_SECOND) (second_cmd cmd first) rem first off w cmds input',
             [RmwCmd (second_cmd cmd first); RmwWord (mk_axis (a_data w) (wrap (W / 8) (lenToKeep (wrap 6 rem))) true)])
      | [] => (s, [])
      end
  | FWD_ALIGNED =>
      match input with
      | w :: input' => (mk_rmw (if a_last w then RMW_IDLE else FWD_ALIGNED) cmd rem first off prev cmds input', [RmwWord w])
      | [] => (s, [])
      end
  | ALIGN_SECOND =>
      match input with
      | w :: input' =>
          let last := negb (Z.testbit (a_keep w) off) in
          (mk_rmw (if a_last w then if last then RMW_IDLE else RESIDUE else ALIGN_SECOND) cmd rem first off w cmds input',
           [RmwWord (rshift_join W off prev w last)])
      | [] => (s, [])
      end
  | RESIDUE => (mk_rmw RMW_IDLE cmd rem first off prev cmds input, [RmwWord (rshift_join W off prev (mk_axis 0 0 false) true)])
  end.
End rxEngMemWrite.
