(* ===== verification/TxEngine.v ===== *)
(** The TX engine ([tx_engine/tx_engine.cpp], [tx_engine.hpp]): the meta loader,
    which turns an event into the meta data of the segments to send, and the
    processes that build these segments.  Each process is a function of its
    static variables and input streams; a call is one iteration.  [W] is the
    width of the words.  The meta loader and the arbiter of the data are those of
    builds with TCP_NODELAY; without it the source does not compile. *)
From stdpp Require Import base numbers list strings.
From Stdlib Require Import ZArith Lia.
From S2P Require Import Prelude ToeTypes Axi Streams Ipv4 TcpHeader RxFsm.

Local Open Scope Z_scope.

(** ** Data ([tx_engine.hpp]) *)

(** [tm_win_shift] exists only with WINDOW_SCALE. *)
Record tx_engine_meta : Type := mk_txMeta {
  tm_seqNumb : Z; tm_ackNumb : Z; tm_window_size : Z; tm_win_shift : Z; tm_length : Z;
  tm_ack : bool; tm_rst : bool; tm_syn : bool; tm_fin : bool }.

Definition tx_engine_meta_new (win_shift seq ack : Z) (a r s f : bool) : tx_engine_meta :=
  mk_txMeta (u32 seq) (u32 ack) 0 win_shift 0 a r s f.

Record twoTuple : Type := mk_twoTuple { tt_srcIp : Z; tt_dstIp : Z }.
Definition twoTuple_of (t : fourTuple) : twoTuple := mk_twoTuple (srcIp t) (dstIp t).

Definition txTxSarQuery_read (id : Z) : txTxSarQuery := mk_txTxSarQuery (u16 id) 0 false false false false false.
Definition txTxSarQuery_write (id not_ackd : Z) (init finReady finSent : bool) : txTxSarQuery :=
  mk_txTxSarQuery (u16 id) (u32 not_ackd) true init finReady finSent false.
Definition txRetransmitTimerSet_new (id : Z) (t : eventType) : txRetransmitTimerSet := mk_rtSet (u16 id) t.

(** ** [metaLoader] *)

(** [ml_busy] is [ml_FsmState]. *)
Record ml : Type := mk_ml {
  ml_busy : bool; ml_sarLoaded : bool; ml_curEvent : extendedEvent; ml_randomValue : Z; ml_segmentCount : Z;
  ml_rxSar : rxSarReply; ml_txSarReg : txTxSarReply; ml_meta : tx_engine_meta;
  eventEng2txEng_event : list extendedEvent; rxSar2txEng_rsp : list rxSarReply; txSar2txEng_upd_rsp : list txTxSarReply }.

Inductive ml_out : Type :=
| MlRead                               (* readCountFifo *)
| MlRxSar (id : Z)                     (* txEng2rxSar_req *)
| MlTxSar (q : txTxSarQuery)           (* txEng2txSar_upd_req *)
| MlTimer (s : txRetransmitTimerSet)   (* txEng2timer_setRetransmitTimer *)
| MlProbe (id : Z)                     (* txEng2timer_setProbeTimer *)
| MlIpMeta (len : Z)                   (* txEng_ipMetaFifoOut *)
| MlTcpMeta (m : tx_engine_meta)       (* txEng_tcpMetaFifoOut *)
| MlReadCmd (c : mmCmd)                (* txBufferReadCmd *)
| MlRevReq (id : Z)                    (* txEng2sLookup_rev_req *)
| MlLookUp (b : bool)                  (* txEng_isLookUpFifoOut *)
| MlBypass (b : bool)                  (* txEng_isDDRbypass *)
| MlTuple (t : fourTuple).             (* txEng_tupleShortCutFifoOut *)

Section metaLoader.
Context `{cfg : ToeConfig}.
(** What the local [txSar] and a tuple that was never set hold. *)
Context (uninit : txTxSarReply) (no_tuple : fourTuple).

(** The queries for an event. *)
Definition ml_queries (e : event) : list ml_out :=
  let id := ev_sessionID e in
  let both := [MlRxSar id; MlTxSar (txTxSarQuery_read id)] in
  match ev_type e with
  | RT | TX | SYN_ACK | FIN | ACK_NODELAY | ACK => both
  | RST => if rst_hasSessionID e then [MlTxSar (txTxSarQuery_read id)] else []
  | SYN => if ev_rt_count e =? 0 then [] else [MlTxSar (txTxSarQuery_read id)]
  end.

(** A segment: its meta data for both headers and the request for its addresses. *)
Definition segment (m : tx_engine_meta) (id : Z) : list ml_out :=
  [MlIpMeta (tm_length m); MlTcpMeta m; MlLookUp true; MlRevReq id].

Definition set_timer (id : Z) (t : eventType) : ml_out := MlTimer (txRetransmitTimerSet_new id t).

(** The meta data of an established session. *)
Definition data_meta (r : rxSarReply) (seq len shift : Z) (fin : bool) : tx_engine_meta :=
  mk_txMeta seq (rr_recvd r) (rr_windowSize r) shift len true false false fin.

(** *** New data, which has not been through the memory *)
Definition ml_tx (e : event) (r : rxSarReply) (t : txTxSarReply) (shift : Z) : tx_engine_meta * list ml_out :=
  let id := ev_sessionID e in
  let len := ev_length e in
  let m := data_meta r (tr_not_ackd t) len shift false in
  (m, (if 0x7FFF <? len then [MlProbe id] else []) ++
      [MlTxSar (txTxSarQuery_write id (tr_not_ackd t + len) false false false)] ++
      (if len =? 0 then [] else segment m id ++ [MlBypass true; set_timer id RT])).

(** *** Retransmission: segments of [MSS] bytes from the oldest byte not yet
    acknowledged on, four of them at most *)

Definition new_threshold (used : Z) : Z := wrap WINDOW_BITS (if 4 * MSS <? used then used / 2 else 2 * MSS).

(** The segment, the state of the session behind it, and what comes next. *)
Inductive rt_next : Type := RtMore | RtFin | RtDone.

Definition ml_rt (e : event) (loaded : bool) (count : Z) (r : rxSarReply) (t : txTxSarReply) (shift : Z)
  : tx_engine_meta * txTxSarReply * rt_next * list ml_out :=
  let id := ev_sessionID e in
  let used := tr_usedLength t in
  let more := MSS <? used in
  let len := if more then MSS else u16 used in
  let m := data_meta r (tr_ackd t) len shift false in
  let t' := if more then mk_txTxSarReply (u32 (tr_ackd t + MSS)) (tr_not_ackd t) (tr_usableWindow t) (tr_app t)
                           (wrap WINDOW_BITS (used - MSS)) (tr_finReady t) (tr_finSent t) else t in
  let next := if more then if count =? 3 then RtDone else RtMore else if tr_finSent t then RtFin else RtDone in
  (m, t', next,
   (if negb loaded && (ev_rt_count e =? 1) then [MlTxSar (txTxSarRtQuery id (new_threshold used))] else []) ++
   (if len =? 0 then []
    else [MlReadCmd (mmCmd_new (pkgAddr id (tr_ackd t)) len)] ++ segment m id ++ [MlBypass false; set_timer id RT])).

(** *** Acknowledgement, opening and closing *)

Definition ml_ack (e : event) (r : rxSarReply) (t : txTxSarReply) (shift : Z) : tx_engine_meta * list ml_out :=
  let m := data_meta r (tr_not_ackd t) 0 shift false in (m, segment m (ev_sessionID e)).

(** The initial sequence number, and the generator's next value. *)
Definition isn (rand : Z) : Z := u32 (u32 (Z.shiftl rand 6) - 1).
Definition next_random (rand : Z) : Z := u32 (Z.lxor (rand * 8) rand).

Definition ml_syn (e : event) (t : txTxSarReply) (rand shift : Z) : tx_engine_meta * Z * list ml_out :=
  let id := ev_sessionID e in
  let first := ev_rt_count e =? 0 in
  let seq := if first then isn rand else tr_ackd t in
  let m := mk_txMeta seq 0 0xFFFF (if WINDOW_SCALE then WINDOW_SCALE_BITS else shift) (if WINDOW_SCALE then 8 else 4)
             false false true false in
  (m, if first then next_random rand else rand,
   (if first then [MlTxSar (txTxSarQuery_write id (seq + 1) true false false)] else []) ++
   segment m id ++ [set_timer id SYN]).

Definition ml_syn_ack (e : event) (r : rxSarReply) (t : txTxSarReply) (rand shift : Z) : tx_engine_meta * Z * list ml_out :=
  let id := ev_sessionID e in
  let first := ev_rt_count e =? 0 in
  let seq := if first then isn rand else tr_ackd t in
  let m := mk_txMeta seq (rr_recvd r) 0xFFFF (if WINDOW_SCALE then rr_win_shift r else shift)
             (if WINDOW_SCALE && negb (rr_win_shift r =? 0) then 8 else 4) true false true false in
  (m, if first then next_random rand else rand,
   (if first then [MlTxSar (txTxSarQuery_write id (seq + 1) true false false)] else []) ++
   segment m id ++ [set_timer id SYN_ACK]).

Definition ml_fin (e : event) (r : rxSarReply) (t : txTxSarReply) (shift : Z) : tx_engine_meta * list ml_out :=
  let id := ev_sessionID e in
  let first := ev_rt_count e =? 0 in
  let m := data_meta r (if first then tr_not_ackd t else u32 (tr_not_ackd t - 1)) 0 shift true in
  (m, (if first then [MlTxSar (txTxSarQuery_write id (tr_not_ackd t + 1) false true true)] else []) ++
      segment m id ++ [set_timer id RT]).

(** A reset for a session, and one for addresses that have none. *)
Definition ml_rst (e : event) (t : txTxSarReply) : list ml_out :=
  [MlIpMeta 0; MlLookUp true; MlRevReq (ev_sessionID e);
   MlTcpMeta (tx_engine_meta_new 0 (tr_not_ackd t) (rst_getAckNumb 0 e) true true false false)].
Definition ml_rst_tuple (x : extendedEvent) : list ml_out :=
  [MlIpMeta 0; MlTcpMeta (tx_engine_meta_new 0 0 (rst_getAckNumb 0 (ee_event x)) true true false false);
   MlLookUp false; MlTuple (default no_tuple (ee_tuple x))].

(** *** The process *)

(** The event with another type. *)
Definition retype (t : eventType) (x : extendedEvent) : extendedEvent :=
  let e := ee_event x in mk_extendedEvent (mk_event t (ev_sessionID e) (ev_address e) (ev_length e) (ev_rt_count e)) (ee_tuple x).

Definition metaLoader (s : ml) : ml * list ml_out :=
  let '(mk_ml busy loaded x rand count rx reg m events rxs txs) := s in
  let e := ee_event x in
  let shift := tm_win_shift m in
  if negb busy then
    match events with
    | x' :: events' =>
        (mk_ml true false x' (u32 (rand + 1)) 0 rx reg m events' rxs txs, MlRead :: ml_queries (ee_event x'))
    | [] => (mk_ml false loaded x rand 0 rx reg m events rxs txs, [])
    end
  else
    let done rand rx m rxs txs := mk_ml false loaded x rand count rx reg m events rxs txs in
    match ev_type e with
    | TX =>
        match rxs, txs with
        | r :: rxs', t :: txs' => let '(m', o) := ml_tx e r t shift in (done rand r m' rxs' txs', o)
        | _, _ => (s, [])
        end
    | RT =>
        let go r t rxs' txs' :=
          let '(m', t', next, o) := ml_rt e loaded count r t shift in
          (mk_ml (match next with RtDone => false | _ => true end) true
             (match next with RtFin => retype FIN x | _ => x end) rand
             (if MSS <? tr_usedLength t then wrap 2 (count + 1) else count) r t' m' events rxs' txs', o) in
        if loaded then go rx reg rxs txs
        else match rxs, txs with r :: rxs', t :: txs' => go r t rxs' txs' | _, _ => (s, []) end
    | ACK | ACK_NODELAY =>
        match rxs, txs with
        | r :: rxs', t :: txs' => let '(m', o) := ml_ack e r t shift in (done rand r m' rxs' txs', o)
        | _, _ => (s, [])
        end
    | SYN =>
        if ev_rt_count e =? 0 then let '(m', rand', o) := ml_syn e uninit rand shift in (done rand' rx m' rxs txs, o)
        else match txs with
             | t :: txs' => let '(m', rand', o) := ml_syn e t rand shift in (done rand' rx m' rxs txs', o)
             | [] => (s, [])
             end
    | SYN_ACK =>
        match rxs, txs with
        | r :: rxs', t :: txs' => let '(m', rand', o) := ml_syn_ack e r t rand shift in (done rand' r m' rxs' txs', o)
        | _, _ => (s, [])
        end
    | FIN =>
        if loaded then let '(m', o) := ml_fin e rx reg shift in (done rand rx m' rxs txs, o)
        else match rxs, txs with
             | r :: rxs', t :: txs' => let '(m', o) := ml_fin e r t shift in (done rand r m' rxs' txs', o)
             | _, _ => (s, [])
             end
    | RST =>
        if rst_hasSessionID e then
          match txs with t :: txs' => (done rand rx m rxs txs', ml_rst e t) | [] => (s, []) end
        else (done rand rx m rxs txs, ml_rst_tuple x)
    end.
End metaLoader.

(** ** [tupleSplitter] *)

Record ts : Type := mk_ts {
  ts_getMeta : bool; ts_isLookUp : bool; ts_revIn : list fourTuple; ts_shortCutIn : list fourTuple; ts_isLookUpIn : list bool }.

(** The addresses for the IP header and the tuple for the TCP header. *)
Definition tupleSplitter (s : ts) : ts * list (twoTuple * fourTuple) :=
  match s with
  | mk_ts true _ revs shorts (b :: lookups) => (mk_ts false b revs shorts lookups, [])
  | mk_ts false true (t :: revs) shorts lookups => (mk_ts true true revs shorts lookups, [(twoTuple_of t, t)])
  | mk_ts false false revs (t :: shorts) lookups => (mk_ts true false revs shorts lookups, [(twoTuple_of t, t)])
  | _ => (s, [])
  end.

(** ** [generate_ipv4] *)

Record tgip : Type := mk_tgip {
  tg_state : giIpState; tg_header : packetHeader; txEng_ipMetaDataFifoIn : list Z; txEng_ipTupleFifoIn : list twoTuple;
  tx_shift2ipv4Fifo : list net_axis }.

Definition tgip_init (lens : list Z) (tuples : list twoTuple) (input : list net_axis) : tgip :=
  mk_tgip GIP_META ipv4Header lens tuples input.

Definition TCP_PROTOCOL : Z := 0x06.

Section generate_ipv4.
Context (W : Z).
(** What a new word holds. *)
Context (fill : Z).

(** The header as it is filled in: the length counts both headers. *)
Definition tx_ip_fill (v len : Z) (t : twoTuple) : Z :=
  ip_setProtocol (ip_setSrcAddr (ip_setDstAddr (ip_setLength v (u16 (len + 40))) (tt_dstIp t)) (tt_srcIp t)) TCP_PROTOCOL.

Definition generate_ipv4 (s : tgip) : tgip * list net_axis :=
  let '(mk_tgip st h lens tuples input) := s in
  match st with
  | GIP_META =>
      match lens, tuples with
      | len :: lens', t :: tuples' =>
          (mk_tgip (if W <=? IPV4_HEADER_SIZE then GIP_HEADER else GIP_PARTIAL)
             (mk_header false 0 (tx_ip_fill (h_header h) len t)) lens' tuples' input, [])
      | _, _ => (s, [])
      end
  | GIP_HEADER =>
      let '(h', d, remaining) := consumeWord W IPV4_HEADER_SIZE h fill in
      (mk_tgip (if remaining <? W / 8 then GIP_PARTIAL else GIP_HEADER) h' lens tuples input,
       [mk_axis d (wrap (W / 8) 0xFFFFFFFF) false])
  | GIP_PARTIAL =>
      match input with
      | w :: input' =>
          let '(h', d, _) := consumeWord W IPV4_HEADER_SIZE h (a_data w) in
          (mk_tgip (if a_last w then GIP_META else GIP_BODY) h' lens tuples input', [mk_axis d (a_keep w) (a_last w)])
      | [] => (s, [])
      end
  | GIP_BODY =>
      match input with
      | w :: input' => (mk_tgip (if a_last w then GIP_META else GIP_BODY) h lens tuples input', [w])
      | [] => (s, [])
      end
  end.
End generate_ipv4.

(** ** [pseudoHeaderConstructionNew] *)

Inductive phcState : Type := PHC_META | PHC_HEADER | PHC_PARTIAL | PHC_BODY | HEADER_MSS_OPTION.

Record phc : Type := mk_phc {
  phc_state : phcState; phc_header : packetHeader; phc_hasBody : bool; phc_isSYN : bool; phc_win_shift : Z;
  tcpMetaDataFifoIn : list tx_engine_meta; tcpTupleFifoIn : list fourTuple; phc_dataIn : list net_axis }.

Definition phc_init (metas : list tx_engine_meta) (tuples : list fourTuple) (input : list net_axis) : phc :=
  mk_phc PHC_META tcpFullPseudoHeader false false 0 metas tuples input.

Section pseudoHeaderConstructionNew.
Context `{cfg : ToeConfig} (W : Z).
(** What a new word holds where nothing is assigned. *)
Context (fill : Z).

(** The length of the header in words of 32 bits. *)
Definition data_offset (m : tx_engine_meta) : Z :=
  if tm_syn m then if WINDOW_SCALE && negb (tm_win_shift m =? 0) then 7 else 6 else 5.

Definition tcp_fill (v : Z) (m : tx_engine_meta) (t : fourTuple) : Z :=
  let v := tfh_setSrcAddr v (srcIp t) in
  let v := tfh_setDstAddr v (dstIp t) in
  let v := tfh_setLength v (u16 (tm_length m + 0x14)) in
  let v := tfh_setSrcPort v (srcPort t) in
  let v := tfh_setDstPort v (dstPort t) in
  let v := tfh_setSeqNumb v (tm_seqNumb m) in
  let v := tfh_setAckNumb v (tm_ackNumb m) in
  let v := tfh_setDataOffset v (data_offset m) in
  let v := tfh_setFinFlag v (tm_fin m) in
  let v := tfh_setSynFlag v (tm_syn m) in
  let v := tfh_setRstFlag v (tm_rst m) in
  let v := tfh_setAckFlag v (tm_ack m) in
  let v := tfh_setWindowSize v (tm_window_size m) in
  tfh_setChecksum v 0.

(** The options, from bit [lo] of the word on: the maximum segment size, and the
    window scale if there is one. *)
Definition mss_option (d lo : Z) : Z := set_bits (set_bits (set_bits d lo 8 2) (lo + 8) 8 4) (lo + 16) 16 (reverse 2 (u16 MSS)).
Definition scale_option (d lo shift : Z) : Z :=
  set_bits (set_bits (set_bits (set_bits d lo 8 3) (lo + 8) 8 3) (lo + 16) 8 shift) (lo + 24) 8 0.
Definition scales (shift : Z) : bool := WINDOW_SCALE && negb (shift =? 0).

Definition pseudoHeaderConstructionNew (s : phc) : phc * list net_axis :=
  let '(mk_phc st h body syn shift metas tuples input) := s in
  match st with
  | PHC_META =>
      match metas, tuples with
      | m :: metas', t :: tuples' =>
          let body' := negb (tm_length m =? 0) && negb (tm_syn m) in
          (mk_phc (if (256 <? W) && body' then PHC_PARTIAL else PHC_HEADER)
             (mk_header false 0 (tcp_fill (h_header h) m t)) body' (tm_syn m)
             (if WINDOW_SCALE then tm_win_shift m else shift) metas' tuples' input, [])
      | _, _ => (s, [])
      end
  | PHC_HEADER =>
      let '(h', d, remaining) := consumeWord W TCP_FULL_PSEUDO_HEADER_SIZE h fill in
      let ends := remaining <? W / 8 in
      let last := ends && negb body && negb (syn && (W <=? 256)) in
      let keep := wrap (W / 8) 0xFFFFFFFF in
      let w := if syn && (W =? 512) then
                 if scales shift
                 then mk_axis (scale_option (mss_option d 256) 288 shift) (set_bits (set_bits keep 32 4 0xF) 36 4 0xF) last
                 else mk_axis (mss_option d 256) (set_bits keep 32 4 0xF) last
               else mk_axis d keep last in
      (mk_phc (if negb ends then PHC_HEADER else if body then PHC_BODY else if syn && (W <=? 256) then HEADER_MSS_OPTION else PHC_META)
         h' body syn shift metas tuples input, [w])
  | PHC_PARTIAL =>
      match input with
      | w :: input' =>
          let '(h', d, _) := consumeWord W TCP_FULL_PSEUDO_HEADER_SIZE h (a_data w) in
          (mk_phc (if a_last w then PHC_META else PHC_BODY) h' body syn shift metas tuples input', [mk_axis d (a_keep w) (a_last w)])
      | [] => (s, [])
      end
  | PHC_BODY =>
      match input with
      | w :: input' => (mk_phc (if a_last w then PHC_META else PHC_BODY) h body syn shift metas tuples input', [w])
      | [] => (s, [])
      end
  | HEADER_MSS_OPTION =>
      let d := mss_option fill 0 in
      (mk_phc PHC_META h body syn shift metas tuples input,
       [if scales shift then mk_axis (scale_option d 32 shift) 0xFF true else mk_axis d 0x0F true])
  end.
End pseudoHeaderConstructionNew.

(** ** [read_data_stitching] *)

Inductive rdsState : Type := RDS_IDLE | FIRST_PART | STITCH | ATTACH_ALIGNED | RDS_RESIDUE.

Record rds : Type := mk_rds {
  rds_state : rdsState; rds_prevWord : net_axis; pkgNeedsMerge : bool; rds_offset : Z;
  memAccessBreakdown2readPkgStitcher : list bool; rds_dataIn : list net_axis }.

Definition rds_init (merges : list bool) (input : list net_axis) : rds :=
  mk_rds RDS_IDLE (mk_axis 0 0 false) false 0 merges input.

Section read_data_stitching.
Context (W : Z).

Definition stitch_join (o : Z) (p c : net_axis) (last : bool) : net_axis :=
  mk_axis (assemble W (8 * o) (bits (a_data p) 0 (8 * o)) (bits (a_data c) 0 (W - 8 * o)))
    (assemble (W / 8) o (bits (a_keep p) 0 o) (bits (a_keep c) 0 (W / 8 - o))) last.

(** The part of the word that did not fit. *)
Definition stitch_keep (o : Z) (p c : net_axis) : net_axis :=
  mk_axis (set_bits (a_data p) 0 (8 * o) (bits (a_data c) (W - 8 * o) (8 * o)))
    (set_bits (a_keep p) 0 o (bits (a_keep c) (W / 8 - o) o)) (a_last p).

(** A word of the first part of a packet that is in two parts if [merge]. *)
Definition rds_word (merge : bool) (w : net_axis) merges input : rds * list net_axis :=
  let o := wrap 8 (keepToLen (a_keep w)) in
  let open := mk_axis (a_data w) (a_keep w) false in
  if a_last w then
    if merge then
      if Z.testbit (a_keep w) (W / 8 - 1) then (mk_rds ATTACH_ALIGNED open merge o merges input, [open])
      else (mk_rds STITCH open merge o merges input, [])
    else (mk_rds RDS_IDLE w merge o merges input, [w])
  else (mk_rds FIRST_PART w merge o merges input, [w]).

Definition read_data_stitching (s : rds) : rds * list net_axis :=
  let '(mk_rds st p merge o merges input) := s in
  match st with
  | RDS_IDLE =>
      match merges, input with
      | m :: merges', w :: input' => rds_word m w merges' input'
      | _, _ => (s, [])
      end
  | FIRST_PART => match input with w :: input' => rds_word merge w merges input' | [] => (s, []) end
  | ATTACH_ALIGNED =>
      match input with
      | w :: input' => (mk_rds (if a_last w then RDS_IDLE else ATTACH_ALIGNED) p merge o merges input', [w])
      | [] => (s, [])
      end
  | STITCH =>
      match input with
      | c :: input' =>
          let last := negb (Z.testbit (a_keep c) (W / 8 - o)) in
          (mk_rds (if a_last c then if last then RDS_IDLE else RDS_RESIDUE else STITCH) (stitch_keep o p c) merge o merges input',
           [stitch_join o p c last])
      | [] => (s, [])
      end
  | RDS_RESIDUE => (mk_rds RDS_IDLE p merge o merges input, [stitch_join o p (mk_axis 0 0 false) true])
  end.
End read_data_stitching.

(** ** [read_data_arbiter] *)

Inductive rdaState : Type := RDA_IDLE | RDA_MEMORY | RDA_APP.

Record rda : Type := mk_rda {
  tps_state : rdaState; txBufferReadData : list net_axis; txEng_isDDRbypass : list bool; txApp2txEng_data_stream : list net_axis }.

Definition read_data_arbiter (s : rda) : rda * list net_axis :=
  match s with
  | mk_rda RDA_IDLE mem (b :: bs) app => (mk_rda (if b then RDA_APP else RDA_MEMORY) mem bs app, [])
  | mk_rda RDA_MEMORY (w :: mem) bs app => (mk_rda (if a_last w then RDA_IDLE else RDA_MEMORY) mem bs app, [w])
  | mk_rda RDA_APP mem bs (w :: app) => (mk_rda (if a_last w then RDA_IDLE else RDA_APP) mem bs app, [w])
  | _ => (s, [])
  end.

(** ** [txEngMemAccessBreakdown] *)

(** [tb_second]: the second access of the command is to be sent. *)
Record tb : Type := mk_tb { tb_second : bool; tb_cmd : mmCmd; lengthFirstAccess : Z; inputMemAccess : list mmCmd }.

Inductive tb_out : Type :=
| TbCmd (c : mmCmd)       (* outputMemAccess *)
| TbMerge (b : bool).     (* memAccessBreakdown2txPkgStitcher *)

Section txEngMemAccessBreakdown.
Context `{cfg : ToeConfig}.

Definition txEngMemAccessBreakdown (s : tb) : tb * list tb_out :=
  match s with
  | mk_tb false _ first (c :: cmds) =>
      if BUFFER_SIZE <? bits (mc_saddr c) 0 WINDOW_BITS + mc_bbt c then
        let first' := wrap WINDOW_BITS (BUFFER_SIZE - mc_saddr c) in
        (mk_tb true c first' cmds, [TbMerge true; TbCmd (mmCmd_new (mc_saddr c) first')])
      else (mk_tb false c first cmds, [TbMerge false; TbCmd c])
  | mk_tb true c first cmds => (mk_tb false c first cmds, [TbCmd (mmCmd_new 0 (mc_bbt c - first))])
  | _ => (s, [])
  end.
End txEngMemAccessBreakdown.

(** ** [remove_pseudo_header] *)

Definition remove_pseudo_header (W : Z) (s : bool * list net_axis) : bool * list net_axis * list net_axis :=
  match s with
  | (first, w :: input) => (a_last w, input, if negb first || (64 <? W) then [w] else [])
  | _ => (s, [])
  end.

(** ** [insert_checksum] *)

Record ic : Type := mk_ic { ic_state : Z; ic_wordCount : Z; ic_checksumIn : list Z; ic_dataIn : list net_axis }.

Section insert_checksum.
Context (W : Z).

Definition ic_start : Z := if 128 <? W then 1 else 0.
Definition ic_init (checksums : list Z) (input : list net_axis) : ic := mk_ic ic_start 0 checksums input.

Definition insert_checksum (s : ic) : ic * list net_axis :=
  let '(mk_ic st cnt cs input) := s in
  match input with
  | [] => (s, [])
  | w :: input' =>
      if st =? 0 then
        let full := wrap 3 (cnt + 1) =? 128 / W in
        (mk_ic (if full then 1 else 0) (if full then 0 else wrap 3 (cnt + 1)) cs input', [w])
      else if st =? 1 then
        match cs with
        | c :: cs' =>
            (mk_ic (if a_last w then ic_start else 2) cnt cs' input',
             [mk_axis (set_bits (a_data w) (if 128 <? W then 128 else 0) 16 (reverse 2 c)) (a_keep w) (a_last w)])
        | [] => (s, [])
        end
      else (mk_ic (if a_last w then ic_start else 2) cnt cs input', [w])
  end.
End insert_checksum.
