(* ===== verification/TcpChecksum.v ===== *)
(** The checksum of TCP segments ([two_complement_subchecksums.hpp], in RxEngine):
    with the tree of the IPv4 module it is the Internet checksum of all the bytes
    of a packet, for every width of the words and for packets of an odd number of
    bytes. *)
From stdpp Require Import base numbers list strings.
From Stdlib Require Import ZArith Lia.
From S2P Require Import Prelude ToeTypes Axi Streams StreamsFacts Wire Ipv4 Ipv4Facts RxEngine.

Local Open Scope Z_scope.

(** ** One word *)

Definition kept_value (w : net_axis) (i : nat) : Z := default 0 (kept_word w i).

Lemma kept_value_fits w i : fits 16 (kept_value w i).
Proof.
  unfold kept_value, kept_word. destruct (_ =? 3); [apply be16_fits|]. destruct (Z.testbit _ _); [|by split]. cbn.
  rewrite Z.shiftl_mul_pow2 by lia. pose proof (bits_range (a_data w) (16 * Z.of_nat i) 8 ltac:(lia)). unfold fits in *. lia.
Qed.

Lemma kept_succ d k last i :
  kept_value (mk_axis d (Z.ones (Z.of_nat k)) last) (S i) =
    kept_value (mk_axis (Z.shiftr d 16) (Z.ones (Z.of_nat (k - 2))) last) i.
Proof.
  unfold kept_value, kept_word. cbn [a_keep a_data]. rewrite !bits_ones, !ones_testbit, be16_succ by lia.
  replace (Z.max 0 (Z.min 2 (Z.of_nat k - 2 * Z.of_nat (S i)))) with (Z.max 0 (Z.min 2 (Z.of_nat (k - 2) - 2 * Z.of_nat i))) by lia.
  assert ((2 * Z.of_nat (S i) <? Z.of_nat k) = (2 * Z.of_nat i <? Z.of_nat (k - 2))) as ->.
  { destruct (Z.ltb_spec (2 * Z.of_nat (S i)) (Z.of_nat k)), (Z.ltb_spec (2 * Z.of_nat i) (Z.of_nat (k - 2))); try done; lia. }
  assert (bits d (16 * Z.of_nat (S i)) 8 = bits (Z.shiftr d 16) (16 * Z.of_nat i) 8) as ->; [|done].
  rewrite !bits_wrap, Z.shiftr_shiftr by lia. do 2 f_equal. lia.
Qed.

Lemma kept_words N k d last :
  (k <= 2 * N)%nat ->
  sumZ (imap (fun i _ => kept_value (mk_axis d (Z.ones (Z.of_nat k)) last) i) (replicate N 0)) =
    sumZ (words_be (take k (le_bytes (2 * N) d))).
Proof.
  revert k d. induction N as [|N IH]; intros k d Hk; [by replace k with 0%nat by lia|].
  replace (2 * S N)%nat with (S (S (2 * N))) by lia. cbn [replicate le_bytes]. rewrite imap_cons. cbn [sumZ].
  rewrite (imap_ext _ (fun i _ => kept_value (mk_axis (Z.shiftr d 16) (Z.ones (Z.of_nat (k - 2))) last) i))
    by (intros; apply kept_succ).
  rewrite IH, Z.shiftr_shiftr by lia. unfold kept_value, kept_word. cbn [a_keep a_data].
  rewrite bits_ones, ones_testbit by lia. destruct k as [|[|k]].
  - done.
  - replace (Z.max 0 (Z.min 2 (Z.of_nat 1 - 2 * Z.of_nat 0))) with 1 by lia. change (Z.ones 1 =? 3) with false.
    change (2 * Z.of_nat 0 <? Z.of_nat 1) with true. change (bits d (16 * Z.of_nat 0) 8) with (bits d 0 8).
    cbn [from_option id take words_be sumZ Nat.sub]. rewrite bits_wrap, Z.shiftr_0_r, Z.shiftl_mul_pow2 by lia. change (2 ^ 8) with 256.
    destruct (le_bytes (2 * N) _); cbn [take words_be sumZ]; lia.
  - replace (Z.max 0 (Z.min 2 (Z.of_nat (S (S k)) - 2 * Z.of_nat 0))) with 2 by lia. cbn [take words_be sumZ].
    change (Z.ones 2 =? 3) with true. cbn [from_option id]. rewrite be16_bytes, Z.mul_0_r, Z.shiftr_0_r. cbn [Nat.sub]. by rewrite Nat.sub_0_r.
Qed.

Lemma sum_kept_total N k d last sums :
  sums_ok N sums -> (k <= 2 * N)%nat ->
  let t := sumZ (words_be (take k (le_bytes (2 * N) d))) in
  let sums' := sum_kept (mk_axis d (Z.ones (Z.of_nat k)) last) sums in
  sums_ok N sums' /\ 0 <= t /\ oc (sumZ sums') = oc (sumZ sums + t).
Proof.
  intros [Hlen Hok] Hk t. unfold t. rewrite <- (kept_words N k d last Hk). set (w := mk_axis d _ last).
  destruct (imap_total (fun i s => match kept_word w i with Some x => add_sum s x | None => s end) (kept_value w) sums Hok) as (H1 & H2 & H3).
  - intros i x _ Hx. pose proof (kept_value_fits w i) as Hf. unfold kept_value in *. destruct (kept_word w i); cbn in *.
    + rewrite add_sum_oc by done. unfold fits in Hf. split; [done | lia].
    + unfold fits in Hx. split; [|lia]. rewrite Z.add_0_r. symmetry. apply oc_small. lia.
  - rewrite imap_const, Hlen in H2, H3. split_and!; [split; [unfold sum_kept; by rewrite length_imap | done] | done | exact H3].
Qed.

(** ** Packets *)

Lemma words_be_front (k : nat) l1 l2 : length l1 = (2 * k)%nat -> words_be (l1 ++ l2) = words_be l1 ++ words_be l2.
Proof.
  revert l1. induction k as [|k IH]; intros l1 Hl; [by destruct l1|].
  destruct l1 as [|a [|b l1]]; [done | cbn in Hl; lia|]. cbn [app words_be]. f_equal. apply IH. cbn in Hl. lia.
Qed.

Lemma words_be_app N d l : words_be (le_bytes (2 * N) d ++ l) = words_be (le_bytes (2 * N) d) ++ words_be l.
Proof. apply (words_be_front N). apply length_le_bytes. Qed.

Lemma tcts_packet N ws l sums :
  packet (2 * N) ws l -> sums_ok N sums ->
  exists o t, runs (two_complement_subchecksums N) (mk_tcts sums ws) (mk_tcts (replicate N 0) []) o /\
    cs_words o = ws /\ cs_sums o = [t] /\ sums_ok N t /\ oc (sumZ t) = oc (sumZ sums + sumZ (words_be l)).
Proof.
  intros Hw. revert sums. induction Hw as [d k Hk|d ws l Hw IH]; intros sums Hs.
  - destruct (sum_kept_total N k d true sums Hs ltac:(lia)) as (H1 & _ & H3).
    eexists _, _. split; [apply runs_one; reflexivity|]. done.
  - destruct (sum_kept_total N (2 * N) d false sums Hs ltac:(lia)) as (H1 & H2 & H3).
    rewrite take_ge in H2, H3 by (rewrite length_le_bytes; lia).
    destruct (IH _ H1) as (o & t & Hr & Ho & Ht & Hok & Hoc). eexists _, t.
    split; [eapply runs_step; [reflexivity | exact Hr]|]. unfold cs_words, cs_sums in *. cbn [app omap list_omap].
    rewrite Ho, Ht. split_and!; [done | done | done|]. rewrite words_be_app, sumZ_app, Z.add_assoc, Hoc.
    pose proof (sumZ_nonneg _ (proj2 Hs)). pose proof (sumZ_nonneg _ (proj2 H1)).
    assert (0 <= sumZ (words_be l)) by (apply sumZ_nonneg, words_be_fits; by eapply packet_fits).
    rewrite <- oc_add_l, H3, oc_add_l by lia. done.
Qed.

(** The sums of a packet are folded to the checksum of all its bytes. *)
Lemma tcts_checksum N ws l :
  N ∈ [4; 8; 16; 32]%nat -> packet (2 * N) ws l ->
  exists o t, runs (two_complement_subchecksums N) (tcts_init N ws) (tcts_init N []) o /\
    cs_words o = ws /\ cs_sums o = [t] /\ fold_sums N t = internet_checksum l.
Proof.
  intros HN Hw. assert (sums_ok N (replicate N 0)) as H0 by (split; [apply length_replicate | by apply Forall_replicate]).
  destruct (tcts_packet N ws l _ Hw H0) as (o & t & Hr & Ho & Ht & Hok & Hoc). exists o, t. split_and!; try done.
  rewrite (fold_sums_total _ _ Hok HN), Hoc. unfold internet_checksum. do 2 f_equal.
  assert (sumZ (replicate N 0) = 0) as ->; [|lia]. clear. induction N; [done | cbn; lia].
Qed.

(** ** Theorem *)

(** C15: The checksum of a segment behind its pseudo header is that of RFC 793, for
    each of the four widths of the words: whatever the length of the packet, also
    an odd one, the packet is passed on unchanged and exactly one answer is given,
    whether the ones' complement sum of all its bytes, taken as 16-bit words and
    an odd byte as the upper half of one, is that of a valid segment.  The process
    is then ready for the next packet. *)
Theorem tcp_checksum_rfc793 (N : nat) ws l :
  N ∈ [4; 8; 16; 32]%nat -> packet (2 * N) ws l ->
  exists o t, runs (two_complement_subchecksums N) (tcts_init N ws) (tcts_init N []) o /\
    cs_words o = ws /\ cs_sums o = [t] /\
    toe_check_ipv4_checksum N [t] = ([], [internet_checksum l =? 0]).
Proof.
  intros HN Hw. destruct (tcts_checksum N ws l HN Hw) as (o & t & Hr & Ho & Ht & Hf).
  exists o, t. cbn [toe_check_ipv4_checksum]. by rewrite Hf.
Qed.

(** Five bytes over words of 64 bits, with a sum of 0xFFFF. *)
Lemma tcp_checksum_rfc793_witness :
  packet 8 [mk_axis 0x00CDAB3254 0x1F true] [0x54; 0x32; 0xAB; 0xCD; 0] /\
  exists o t, runs (two_complement_subchecksums 4) (tcts_init 4 [mk_axis 0x00CDAB3254 0x1F true]) (tcts_init 4 []) o /\
    cs_sums o = [t] /\ toe_check_ipv4_checksum 4 [t] = ([], [true]).
Proof.
  assert (packet 8 [mk_axis 0x00CDAB3254 0x1F true] [0x54; 0x32; 0xAB; 0xCD; 0]) as Hw by (apply (packet_last 8 0x00CDAB3254 5); lia).
  split; [exact Hw|].
  destruct (tcp_checksum_rfc793 4 _ _ ltac:(by apply (bool_decide_unpack _)) Hw) as (o & t & Hr & _ & Ht & Hc).
  exists o, t. split_and!; [exact Hr | exact Ht | exact Hc].
Defined.
