(* ===== verification/Icmp.v ===== *)
(** The ICMP server ([icmp_server.cpp]), over words of 64 bits: answers to echo
    requests, and the messages for ports that are not open and packets that have
    lived too long.  Each process is a function of its static variables and input
    streams; a call is one iteration. *)
From stdpp Require Import base numbers list strings.
From Stdlib Require Import ZArith Lia.
From S2P Require Import Prelude Axi Streams Ipv4 RxEngine.

Local Open Scope Z_scope.

Definition ECHO_REQUEST : Z := 0x08.
Definition ECHO_REPLY : Z := 0x00.

Definition byteSwap16 (inputVector : Z) : Z := reverse 2 inputVector.

(** ** [check_icmp_checksum] *)

Record cic : Type := mk_cic {
  cics_sums : list Z; cics_wordCount : Z; cics_prevWord : net_axis; cics_writeLastOne : bool; cics_computeCs : bool;
  cics_state : Z; icmpChecksum : Z; icmpType : Z; icmpCode : Z; cic_dataIn : list net_axis }.

Inductive cic_out : Type :=
| CicWord (w : net_axis)       (* dataOut *)
| CicValid (b : bool)          (* ValidFifoOut *)
| CicSum (c : Z).              (* checksumFifoOut *)

Definition cic_init (input : list net_axis) : cic := mk_cic [0; 0; 0; 0] 0 (mk_axis 0 0 false) false false 0 0 0 0 input.

(** The four rounds after the last word: the sums are added up, and the type is
    taken out of the checksum of the message. *)
Definition cic_round (st : Z) (sums : list Z) (c : Z) : list Z * Z :=
  match sums with
  | [s0; s1; s2; s3] =>
      if st =? 0 then ([add_sum s0 s2; add_sum s1 s3; s2; s3], wrap 17 (Z.lnot c))
      else if st =? 1 then
        let c := wrap 17 (c - ECHO_REQUEST) in ([add_sum s0 s1; s1; s2; s3], Z.land (c - Z.shiftr c 16) 0xFFFF)
      else if st =? 2 then ([wrap 17 (Z.lnot s0); s1; s2; s3], wrap 17 (Z.lnot c))
      else (sums, c)
  | _ => (sums, c)
  end.

(** The sums of the word the message begins in. *)
Definition cic_first_sums (w : net_axis) : list Z := [0; 0; add_sum 0 (be16 (a_data w) 2); add_sum 0 (be16 (a_data w) 3)].

(** The third word, with the addresses exchanged and the type of a reply. *)
Definition cic_swapped (p c : net_axis) : net_axis :=
  mk_axis (set_bits (bits (a_data p) 0 32) 32 32 (bits (a_data c) 0 32)) 0xFF false.
Definition cic_reply (p c : net_axis) : net_axis :=
  mk_axis (set_bits (set_bits (a_data c) 0 32 (bits (a_data p) 32 32)) 32 8 ECHO_REPLY) (a_keep c) (a_last c).

Definition check_icmp_checksum (s : cic) : cic * list cic_out :=
  let '(mk_cic sums cnt p writeLast compute st cs ty code input) := s in
  if writeLast then (mk_cic sums cnt p false compute st cs ty code input, [CicWord p])
  else if compute then
    let '(sums', cs') := cic_round st sums cs in
    let ok := (bits (nth 0 sums 0) 0 16 =? 0) && (ty =? ECHO_REQUEST) && (code =? 0) in
    (mk_cic sums' cnt p false (negb (st =? 3)) (wrap 2 (st + 1)) cs' ty code input,
     if st =? 3 then if ok then [CicValid true; CicSum (u16 cs)] else [CicValid false] else [])
  else
    match input with
    | [] => (s, [])
    | w :: input' =>
        let next sums p cs ty code :=
          mk_cic sums (if a_last w then 0 else u16 (cnt + 1)) p (a_last w) (a_last w) st cs ty code input' in
        if cnt =? 0 then (next [0; 0; 0; 0] w cs ty code, [])
        else if cnt =? 1 then (next sums w cs ty code, [CicWord p])
        else if cnt =? 2 then
          (next [nth 0 sums 0; nth 1 sums 0; add_sum (nth 2 sums 0) (be16 (a_data w) 2); add_sum (nth 3 sums 0) (be16 (a_data w) 3)]
             (cic_reply p w) (2 ^ 16 + bits (a_data w) 48 16) (bits (a_data w) 32 8) (bits (a_data w) 40 8),
           [CicWord (cic_swapped p w)])
        else (next (sum_kept w sums) w cs ty code, [CicWord p])
    end.

(** ** [udpPortUnreachable]

    A message quotes the packet it is about: of the UDP module, or of the IP module. *)

Inductive udpState : Type := UDP_IDLE | UDP_IP | UDP_STREAM | UDP_CS.

(** [upu_ttl] is [streamSource]. *)
Record upu : Type := mk_upu {
  upu_state : udpState; udpChecksum : Z; ipWordCounter : Z; upu_ttl : bool; udpIn : list net_axis; ttlIn : list net_axis }.

Inductive upu_out : Type :=
| UpuData (w : net_axis)       (* udpPort2addIpHeader_data *)
| UpuHeader (d : Z)            (* udpPort2addIpHeader_header *)
| UpuSum (c : Z).              (* udpPort2insertChecksum_value *)

Definition upu_init (udp ttl : list net_axis) : upu := mk_upu UDP_IDLE 0 0 false udp ttl.

(** The sum has 20 bits. *)
Definition sum16 (acc d : Z) : Z := wrap 20 (acc + (bits d 48 16 + bits d 32 16 + bits d 16 16 + bits d 0 16)).
Definition fold20 (acc : Z) : Z := wrap 20 (Z.land acc 0xFFFF + Z.shiftr acc 16).

(** [dataFull], [headerFull], [sumFull]: the FIFOs behind the process are full. *)
Definition udpPortUnreachable (dataFull headerFull sumFull : bool) (s : upu) : upu * list upu_out :=
  let '(mk_upu st acc cnt ttl udps ttls) := s in
  let take := match (if ttl then ttls else udps) with
              | w :: rest => Some (w, if ttl then udps else rest, if ttl then rest else ttls)
              | [] => None
              end in
  match st with
  | UDP_IDLE =>
      if dataFull then (s, [])
      else
        let start ttl d := (mk_upu UDP_IP (sum16 0 d) 0 ttl udps ttls, [UpuData (mk_axis d 0xFF false)]) in
        match udps, ttls with
        | _ :: _, _ => start false 0x0303
        | [], _ :: _ => start true 0x000B
        | [], [] => (s, [])
        end
  | UDP_IP =>
      match take with
      | Some (w, udps', ttls') =>
          if dataFull || headerFull then (s, [])
          else (mk_upu (if cnt =? 2 then UDP_STREAM else UDP_IP) (sum16 acc (a_data w)) (if cnt =? 2 then cnt else wrap 3 (cnt + 1)) ttl udps' ttls',
                [UpuData w; UpuHeader (a_data w)])
      | None => (s, [])
      end
  | UDP_STREAM =>
      match take with
      | Some (w, udps', ttls') =>
          if dataFull then (s, [])
          else (mk_upu (if a_last w then UDP_CS else UDP_STREAM) (sum16 acc (a_data w)) cnt ttl udps' ttls', [UpuData w])
      | None => (s, [])
      end
  | UDP_CS =>
      if sumFull then (s, [])
      else let acc := wrap 20 (Z.lnot (fold20 (fold20 acc))) in (mk_upu UDP_IDLE acc cnt ttl udps ttls, [UpuSum (bits acc 0 16)])
  end.

(** ** [udpAddIpHeader] *)

Inductive aipState : Type := AIP_IDLE | AIP_IP | AIP_MERGE | AIP_STREAM | AIP_RESIDUE.

Record aip : Type := mk_aip {
  addIpState : aipState; aip_tempWord : net_axis; sourceIP : Z; aip_data : list net_axis; aip_header : list Z }.

Definition aip_init (data : list net_axis) (header : list Z) : aip := mk_aip AIP_IDLE (mk_axis 0 0 false) 0 data header.

(** The header of the packet that is quoted becomes that of the message: 28 bytes
    more, a time to live of 128, ICMP, from 1.1.1.1 to its source. *)
Definition aip_length (d : Z) : Z := set_bits d 16 16 (byteSwap16 (u16 (byteSwap16 (bits d 16 16) + 28))).
Definition aip_source (d : Z) : Z := set_bits (set_bits (set_bits d 0 8 0x80) 8 8 0x01) 32 32 0x01010101.

(** The upper half of a word and the lower half of the next. *)
Definition half_join (p c : net_axis) : Z := set_bits (bits (a_data p) 32 32) 32 32 (bits (a_data c) 0 32).

(** [full]: the FIFO behind the process is full.  [sourceIP] is a signed number. *)
Definition udpAddIpHeader (full : bool) (s : aip) : aip * list net_axis :=
  let '(mk_aip st p src data header) := s in
  if full then (s, [])
  else
    match st with
    | AIP_IDLE =>
        match header with
        | d :: header' => let w := mk_axis (aip_length d) 0xFF false in (mk_aip AIP_IP w src data header', [w])
        | [] => (s, [])
        end
    | AIP_IP =>
        match header with
        | d :: header' =>
            let w := mk_axis (aip_source d) 0xFF false in (mk_aip AIP_MERGE w (sext 32 (bits d 32 32)) data header', [w])
        | [] => (s, [])
        end
    | AIP_MERGE =>
        match header, data with
        | _ :: header', w :: data' =>
            (mk_aip AIP_STREAM w src data' header', [mk_axis (set_bits (wrap 64 src) 32 32 (bits (a_data w) 0 32)) 0xFF false])
        | _, _ => (s, [])
        end
    | AIP_STREAM =>
        match data with
        | w :: data' =>
            let ends := a_last w && (bits (a_keep w) 4 4 =? 0) in
            (mk_aip (if a_last w then if ends then AIP_IDLE else AIP_RESIDUE else AIP_STREAM) w src data' header,
             [mk_axis (half_join p w) (if ends then set_bits 0xFF 4 4 (bits (a_keep w) 0 4) else 0xFF) ends])
        | [] => (s, [])
        end
    | AIP_RESIDUE =>
        (mk_aip AIP_IDLE p src data header, [mk_axis (bits (a_data p) 32 32) (bits (a_keep p) 4 4) true])
    end.

(** ** [dropper] *)

Record idr : Type := mk_idr { d_isFirstWord : bool; d_drop : bool; idr_dataIn : list net_axis; idr_validFifoIn : list bool }.

Definition dropper (s : idr) : idr * list net_axis :=
  match s with
  | mk_idr true drop (w :: input) (v :: valids) =>
      (if a_last w then mk_idr true false input valids else mk_idr false (negb v || drop) input valids, if v then [w] else [])
  | mk_idr true drop (w :: input) [] => (s, [])
  | mk_idr false drop (w :: input) valids =>
      (if a_last w then mk_idr true false input valids else mk_idr false drop input valids, if drop then [] else [w])
  | _ => (s, [])
  end.

(** ** [insertChecksum]: the answers first, then the other messages *)

(** [iic_second] is [streamSource]. *)
Record icin : Type := mk_icin {
  icin_wordCount : Z; icin_second : bool; icin_data0 : list net_axis; icin_data1 : list net_axis; icin_sums0 : list Z; icin_sums1 : list Z }.

Definition insertChecksum (s : icin) : icin * list net_axis :=
  let '(mk_icin cnt second d0 d1 c0 c1) := s in
  let advance w := if a_last w then 0 else u16 (cnt + 1) in
  if cnt =? 0 then
    match d0, d1 with
    | w :: d0', _ => (mk_icin 1 false d0' d1 c0 c1, [w])
    | [], w :: d1' => (mk_icin 1 true d0 d1' c0 c1, [w])
    | [], [] => (s, [])
    end
  else if cnt =? 2 then
    let put w c := mk_axis (set_bits (a_data w) 48 16 c) (a_keep w) (a_last w) in
    match second, d0, d1, c0, c1 with
    | false, w :: d0', _, c :: c0', _ => (mk_icin 3 second d0' d1 c0' c1, [put w c])
    | true, _, w :: d1', _, c :: c1' => (mk_icin 3 second d0 d1' c0 c1', [put w c])
    | _, _, _, _, _ => (s, [])
    end
  else
    match second, d0, d1 with
    | false, w :: d0', _ => (mk_icin (advance w) second d0' d1 c0 c1, [w])
    | true, _, w :: d1' => (mk_icin (advance w) second d0 d1' c0 c1, [w])
    | _, _, _ => (s, [])
    end.
