(* ===== verification/IcmpFacts.v ===== *)
(** Echo requests are answered (Icmp): the checks, the exchange of the addresses
    and the checksum of the reply. *)
From stdpp Require Import base numbers list strings.
From Stdlib Require Import ZArith Lia.
From S2P Require Import Prelude Axi Streams StreamsFacts Wire Ipv4 Ipv4Facts RxEngine TcpChecksum Icmp.

Local Open Scope Z_scope.

Definition cic_words (o : list cic_out) : list net_axis := omap (fun x => match x with CicWord w => Some w | _ => None end) o.
Definition cic_valids (o : list cic_out) : list bool := omap (fun x => match x with CicValid b => Some b | _ => None end) o.
Definition cic_sums_out (o : list cic_out) : list Z := omap (fun x => match x with CicSum c => Some c | _ => None end) o.

Definition full_word (d : Z) : net_axis := mk_axis d (Z.ones 8) false.

(** ** The words behind the third *)

Lemma cic_stream ws l : packet 8 ws l -> forall sums cnt p st cs ty code,
  sums_ok 4 sums -> 3 <= cnt -> cnt + Z.of_nat (length ws) < 2 ^ 16 ->
  exists t last o,
    runs check_icmp_checksum (mk_cic sums cnt p false false st cs ty code ws) (mk_cic t 0 last true true st cs ty code []) o /\
    cic_valids o = [] /\ cic_sums_out o = [] /\ cic_words o ++ [last] = p :: ws /\
    sums_ok 4 t /\ oc (sumZ t) = oc (sumZ sums + sumZ (words_be l)).
Proof.
  induction 1 as [d k Hk|d ws l Hw IH]; intros sums cnt p st cs ty code Hs Hc Hb.
  - set (w := mk_axis d (Z.ones (Z.of_nat k)) true).
    destruct (sum_kept_total 4 k d true sums Hs ltac:(lia)) as (H1 & _ & H3). fold w in H1, H3.
    eexists (sum_kept w sums), w, [CicWord p]. split; [|split_and!; try done].
    apply runs_one. cbn [check_icmp_checksum]. rewrite !(proj2 (Z.eqb_neq cnt _)) by lia. done.
  - set (w := full_word d). cbn [length] in Hb.
    destruct (sum_kept_total 4 8 d false sums Hs ltac:(lia)) as (H1 & H2 & H3). change (mk_axis d (Z.ones (Z.of_nat 8)) false) with w in *.
    rewrite take_ge in H2, H3 by (rewrite length_le_bytes; lia).
    destruct (IH (sum_kept w sums) (cnt + 1) w st cs ty code H1 ltac:(lia) ltac:(lia)) as (t & last & o & Hr & Hv & Hso & Hwo & Hok & Hoc).
    exists t, last, (CicWord p :: o). split; [|split_and!; try done].
    + eapply (runs_step _ _ _ _ [CicWord p]); [|exact Hr]. cbn [check_icmp_checksum]. rewrite !(proj2 (Z.eqb_neq cnt _)) by lia.
      cbn [a_last w full_word]. rewrite wrap_small by (unfold fits; lia). done.
    + unfold cic_words in *. cbn [omap list_omap app]. by rewrite Hwo.
    + change 8%nat with (2 * 4)%nat in *. rewrite words_be_app, sumZ_app, Z.add_assoc, Hoc.
      pose proof (sumZ_nonneg _ (proj2 Hs)). pose proof (sumZ_nonneg _ (proj2 H1)).
      assert (0 <= sumZ (words_be l)) by (apply sumZ_nonneg, words_be_fits; by eapply packet_fits).
      rewrite <- oc_add_l, H3, oc_add_l by lia. done.
Qed.

(** ** The four rounds *)

(** The checksum of the reply, from that of the request. *)
Definition reply_checksum (c : Z) : Z := if c <=? 65527 then c + 8 else c + 8 - 65535.

Definition round_one (c : Z) : Z := wrap 17 (Z.lnot (2 ^ 16 + c)).
Definition round_two (c : Z) : Z := let c := wrap 17 (c - ECHO_REQUEST) in Z.land (c - Z.shiftr c 16) 0xFFFF.

Lemma lnot_17 x : 0 <= x < 2 ^ 17 -> wrap 17 (Z.lnot x) = 2 ^ 17 - 1 - x.
Proof. intros Hx. unfold wrap, Z.lnot. symmetry. apply Z.mod_unique with (-1); lia. Qed.

Lemma rounds_checksum c : fits 16 c -> u16 (wrap 17 (Z.lnot (round_two (round_one c)))) = reply_checksum c.
Proof.
  unfold fits, round_one, round_two, reply_checksum, ECHO_REQUEST. intros Hc. cbv zeta. rewrite (lnot_17 (2 ^ 16 + c)) by lia.
  replace (2 ^ 17 - 1 - (2 ^ 16 + c)) with (65535 - c) by lia. 
  match goal with |- context [Z.land ?x 65535] => change (Z.land x 65535) with (Z.land x (Z.ones 16)) end. rewrite Z.land_ones, Z.shiftr_div_pow2 by lia.
  destruct (Z.leb_spec c 65527).
  - rewrite (wrap_small 17 (65535 - c - 8)) by (unfold fits; lia). rewrite (Z.div_small (_ - _ - _)) by lia. rewrite Z.sub_0_r. rewrite (Z.mod_small (_ - _ - _)) by lia. rewrite lnot_17 by lia.
    unfold wrap. symmetry. apply Z.mod_unique with 1; lia.
  - assert (wrap 17 (65535 - c - 8) = 2 ^ 17 + 65527 - c) as -> by (unfold wrap; symmetry; apply Z.mod_unique with (-1); lia).
    assert ((2 ^ 17 + 65527 - c) / 2 ^ 16 = 1) as -> by (symmetry; apply Z.div_unique with (2 ^ 16 + 65527 - c); lia).
    assert ((2 ^ 17 + 65527 - c - 1) mod 2 ^ 16 = 131062 - c) as -> by (symmetry; apply Z.mod_unique with 1; lia).
    rewrite lnot_17 by lia. unfold wrap. symmetry. apply Z.mod_unique with 1; lia.
Qed.

Lemma sums_four t : sums_ok 4 t -> exists s0 s1 s2 s3, t = [s0; s1; s2; s3] /\ fits 16 s0 /\ fits 16 s1 /\ fits 16 s2 /\ fits 16 s3.
Proof.
  intros [Hl Hf]. destruct t as [|s0 [|s1 [|s2 [|s3 [|? ?]]]]]; try done. rewrite !Forall_cons in Hf. destruct Hf as (?&?&?&?&_). by exists s0, s1, s2, s3.
Qed.

Definition answer (ok : bool) (c : Z) : list cic_out := if ok then [CicValid true; CicSum c] else [CicValid false].

(** The last word is written, the sums are folded, and the answer is given. *)
Lemma cic_finish t last c ty code :
  sums_ok 4 t -> fits 16 c ->
  exists s,
    runs check_icmp_checksum (mk_cic t 0 last true true 0 (2 ^ 16 + c) ty code []) s
      (CicWord last :: answer ((oc (sumZ t) =? 65535) && (ty =? ECHO_REQUEST) && (code =? 0)) (reply_checksum c)) /\
    cic_dataIn s = [] /\ cics_wordCount s = 0 /\ cics_writeLastOne s = false /\ cics_computeCs s = false /\ cics_state s = 0.
Proof.
  intros Ht Hc. destruct (sums_four t Ht) as (s0 & s1 & s2 & s3 & -> & F0 & F1 & F2 & F3).
  set (a := add_sum s0 s2). set (b := add_sum s1 s3). set (s := add_sum a b).
  assert (0 <= s0 /\ 0 <= s1 /\ 0 <= s2 /\ 0 <= s3) as Hpos by (unfold fits in *; lia).
  assert (s = oc (sumZ [s0; s1; s2; s3])) as Es.
  { assert (a = oc (s0 + s2)) as Ea by by apply add_sum_oc. assert (b = oc (s1 + s3)) as Eb by by apply add_sum_oc.
    unfold s. rewrite add_sum_oc, Ea, Eb by (rewrite ?Ea, ?Eb; apply fits_oc; lia). cbn [sumZ].
    rewrite oc_add_l, oc_add_r by (try lia; apply oc_range; lia). f_equal. lia. }
  assert (fits 16 s) as Fs by (rewrite Es; apply fits_oc; cbn; lia). cbn [sumZ] in Es.
  eexists. split; [|split_and!].
  - eapply (runs_step _ _ _ _ [CicWord last]); [reflexivity|]. eapply (runs_step _ _ _ _ []); [reflexivity|].
    eapply (runs_step _ _ _ _ []); [reflexivity|]. eapply (runs_step _ _ _ _ []); [reflexivity|].
    apply runs_one. cbn [check_icmp_checksum cic_round]. change (wrap 2 (wrap 2 (wrap 2 (0 + 1) + 1) + 1)) with 3. cbn [Z.eqb Pos.eqb nth negb].
    fold a b s. fold (round_one c). fold (round_two (round_one c)). rewrite (rounds_checksum c Hc). unfold answer.
    replace (bits (wrap 17 (Z.lnot s)) 0 16 =? 0) with (oc (s0 + (s1 + (s2 + (s3 + 0)))) =? 65535); [reflexivity|].
    rewrite <- Es, bits_wrap, Z.shiftr_0_r by lia. unfold fits in Fs. rewrite lnot_17 by lia. apply eq_true_iff_eq. rewrite !Z.eqb_eq.
    unfold wrap. assert ((2 ^ 17 - 1 - s) mod 2 ^ 16 = 65535 - s) as -> by (symmetry; apply Z.mod_unique with 1; lia). lia.
  - done.
  - done.
  - done.
  - done.
  - done.
Qed.

(** ** A whole packet *)

(** The message adds up to a valid checksum and is an echo request. *)
Definition echo_valid (d2 : Z) (l : list Z) : bool :=
  (oc (be16 d2 2 + be16 d2 3 + sumZ (words_be l)) =? 65535) && (bits d2 32 8 =? ECHO_REQUEST) && (bits d2 40 8 =? 0).

Lemma cic_packet d0 d1 d2 ws l :
  packet 8 ws l -> Z.of_nat (length ws) < 2 ^ 16 - 3 ->
  let w1 := full_word d1 in let w2 := full_word d2 in
  exists s o, runs check_icmp_checksum (cic_init (full_word d0 :: w1 :: w2 :: ws)) s o /\ cic_dataIn s = [] /\
    cics_wordCount s = 0 /\ cics_writeLastOne s = false /\ cics_computeCs s = false /\ cics_state s = 0 /\
    cic_words o = full_word d0 :: cic_swapped w1 w2 :: cic_reply w1 w2 :: ws /\
    cic_valids o = [echo_valid d2 l] /\ cic_sums_out o = if echo_valid d2 l then [reply_checksum (bits d2 48 16)] else [].
Proof.
  intros Hw Hlen w1 w2. set (c := bits d2 48 16). assert (fits 16 c) as Fc by (apply bits_range; lia).
  set (sums := [0; 0; add_sum 0 (be16 d2 2); add_sum 0 (be16 d2 3)]).
  assert (forall i, add_sum 0 (be16 d2 i) = be16 d2 i) as Hadd.
  { intros i. pose proof (be16_fits d2 i) as Hf. rewrite add_sum_oc by done. unfold fits in Hf. apply oc_small. lia. }
  assert (sums_ok 4 sums) as Hs.
  { split; [done|]. unfold sums. rewrite !Hadd. repeat constructor; try done; apply be16_fits. }
  destruct (cic_stream ws l Hw sums 3 (cic_reply w1 w2) 0 (2 ^ 16 + c) (bits d2 32 8) (bits d2 40 8) Hs ltac:(lia) ltac:(lia))
    as (t & last & o & Hr & Hv & Hso & Hwo & Hok & Hoc).
  destruct (cic_finish t last c (bits d2 32 8) (bits d2 40 8) Hok Fc) as (s & Hr2 & Hs1 & Hs2 & Hs3 & Hs4 & Hs5).
  assert (oc (sumZ t) = oc (be16 d2 2 + be16 d2 3 + sumZ (words_be l))) as E.
  { rewrite Hoc. unfold sums. rewrite !Hadd. cbn [sumZ]. f_equal. lia. }
  rewrite E in Hr2. fold (echo_valid d2 l) in Hr2.
  exists s. eexists. split.
  - eapply (runs_step _ _ _ _ []); [reflexivity|]. eapply (runs_step _ _ _ _ [_]); [reflexivity|].
    eapply (runs_step _ _ _ _ [_]); [reflexivity|]. eapply runs_trans; [exact Hr | exact Hr2].
  - split_and!; try done; unfold cic_words, cic_valids, cic_sums_out, answer in *; cbn [app omap list_omap]; rewrite ?omap_app, ?Hv, ?Hso.
    + do 2 f_equal. rewrite <- Hwo. f_equal. by destruct (echo_valid d2 l).
    + by destruct (echo_valid d2 l).
    + by destruct (echo_valid d2 l).
Qed.

Lemma dropper_packet (v : bool) ws l :
  packet 8 ws l -> runs dropper (mk_idr true false ws [v]) (mk_idr true false [] []) (if v then ws else []).
Proof.
  intros Hw. destruct (packet_nonempty _ _ _ Hw) as (w & ws' & ->).
  assert (forall drop ws l, packet 8 ws l -> runs dropper (mk_idr false drop ws []) (mk_idr true false [] []) (if drop then [] else ws)) as Hrest.
  { clear. intros drop ws l Hw. induction Hw as [d k Hk|d ws l Hw IH].
    - apply runs_one. by destruct drop.
    - change (mk_axis d (Z.ones (Z.of_nat 8)) false) with (full_word d).
      replace (if drop then [] else full_word d :: ws) with ((if drop then [] else [full_word d]) ++ if drop then [] else ws) by (by destruct drop).
      eapply runs_step; [reflexivity | exact IH]. }
  destruct (packet_cases _ _ _ _ Hw) as [(d & k & Hk & -> & -> & _)|(d & l1 & -> & Hp & _)].
  - apply runs_one. by destruct v.
  - change (mk_axis d (Z.ones (Z.of_nat 8)) false) with (full_word d).
    replace (if v then full_word d :: ws' else []) with ((if v then [full_word d] else []) ++ if negb v then [] else ws') by (by destruct v).
    eapply runs_step; [|exact (Hrest (negb v) ws' l1 Hp)]. cbn. by destruct v.
Qed.

Lemma insert_rest ws l : packet 8 ws l -> forall cnt, 3 <= cnt -> cnt + Z.of_nat (length ws) < 2 ^ 16 ->
  runs insertChecksum (mk_icin cnt false ws [] [] []) (mk_icin 0 false [] [] [] []) ws.
Proof.
  induction 1 as [d k Hk|d ws l Hw IH]; intros cnt Hc Hb; cbn [length] in Hb.
  - apply runs_one. cbn [insertChecksum]. by rewrite !(proj2 (Z.eqb_neq cnt _)) by lia.
  - eapply (runs_step _ _ (mk_icin (cnt + 1) false ws [] [] []) _ [_]); [|apply IH; lia].
    cbn [insertChecksum]. rewrite !(proj2 (Z.eqb_neq cnt _)) by lia. cbn [a_last]. by rewrite wrap_small by (unfold fits; lia).
Qed.

Lemma insert_packet_checksum w0 w1 w2 ws l c :
  packet 8 ws l -> Z.of_nat (length ws) < 2 ^ 16 - 3 -> a_last w1 = false ->
  runs insertChecksum (mk_icin 0 false (w0 :: w1 :: w2 :: ws) [] [c] []) (mk_icin 0 false [] [] [] [])
    (w0 :: w1 :: mk_axis (set_bits (a_data w2) 48 16 c) (a_keep w2) (a_last w2) :: ws).
Proof.
  intros Hw Hlen Hl. eapply (runs_step _ _ _ _ [_]); [reflexivity|].
  eapply (runs_step _ _ (mk_icin 2 false (w2 :: ws) [] [c] []) _ [_]); [cbn; by rewrite Hl|].
  eapply (runs_step _ _ _ _ [_]); [reflexivity|]. apply (insert_rest ws l Hw); lia.
Qed.

(** ** The checksum of the reply *)

Lemma oc_full x : 0 <= x -> (oc x = 65535 <-> 0 < x /\ x mod 65535 = 0).
Proof.
  intros Hx. unfold oc. destruct (Z.eqb_spec x 0) as [->|Hne]; [lia|].
  pose proof (Z.div_mod (x - 1) 65535 ltac:(lia)). pose proof (Z.mod_pos_bound (x - 1) 65535 ltac:(lia)). split.
  - intros E. split; [lia|]. symmetry. apply Z.mod_unique with ((x - 1) / 65535 + 1); lia.
  - intros [_ E]. pose proof (Z.div_mod x 65535 ltac:(lia)).
    assert ((x - 1) mod 65535 = 65534) as ->; [|done]. symmetry. apply Z.mod_unique with (x / 65535 - 1); lia.
Qed.

Lemma reply_sum c0 c1 T :
  fits 8 c0 -> fits 8 c1 -> 0 <= T -> oc (2048 + (256 * c0 + c1) + T) = 65535 ->
  let c := reply_checksum (c0 + 256 * c1) in
  oc (256 * wrap 8 c + wrap 8 (Z.shiftr c 8) + T) = 65535.
Proof.
  intros H0 H1 HT Hold c. unfold fits in H0, H1. apply oc_full in Hold as [_ Hold]; [|lia].
  assert (0 < c < 2 ^ 16 /\ (c = c0 + 256 * c1 + 8 \/ c = c0 + 256 * c1 + 8 - 65535)) as [Hc Hk].
  { unfold c, reply_checksum. destruct (Z.leb_spec (c0 + 256 * c1) 65527); lia. }
  clearbody c. unfold wrap. rewrite Z.shiftr_div_pow2 by lia. change (2 ^ 8) with 256.
  rewrite (Z.mod_small (c / 256)) by (split; [apply Z.div_pos; lia | apply Z.div_lt_upper_bound; lia]).
  pose proof (Z.div_mod c 256 ltac:(lia)). pose proof (Z.mod_pos_bound c 256 ltac:(lia)).
  assert (0 <= c / 256) by (apply Z.div_pos; lia). apply oc_full; [lia|]. split; [lia|].
  pose proof (Z.div_mod (2048 + (256 * c0 + c1) + T) 65535 ltac:(lia)) as E. rewrite Hold in E.
  set (q := (2048 + (256 * c0 + c1) + T) / 65535) in E. symmetry.
  destruct Hk as [Hk|Hk].
  - apply Z.mod_unique with (q + c1 - c / 256); lia.
  - apply Z.mod_unique with (q + c1 - c / 256 - 256); lia.
Qed.

(** ** Bytes *)

Lemma packet_long n ws l : packet n ws l -> (n < length l)%nat -> exists d ws' l', ws = mk_axis d (Z.ones (Z.of_nat n)) false :: ws' /\ packet n ws' l' /\ l = le_bytes n d ++ l'.
Proof.
  intros Hw Hl. destruct (packet_nonempty _ _ _ Hw) as (w & ws' & ->).
  destruct (packet_cases _ _ _ _ Hw) as [(d & k & Hk & -> & -> & ->)|(d & l1 & -> & Hp & ->)]; [|by exists d, ws', l1].
  rewrite length_take, length_le_bytes in Hl. lia.
Qed.

Lemma packet_words n ws l : packet n ws l -> (1 <= n)%nat -> (length ws <= length l)%nat.
Proof.
  intros Hw Hn. induction Hw as [d k Hk|d ws l Hw IH]; cbn [length].
  - rewrite length_take, length_le_bytes. lia.
  - rewrite length_app, length_le_bytes. lia.
Qed.

Lemma swapped_bytes d1 d2 : le_bytes 8 (a_data (cic_swapped (full_word d1) (full_word d2))) = le_bytes 4 d1 ++ le_bytes 4 d2.
Proof.
  unfold cic_swapped, full_word. cbn [a_data]. change (set_bits (bits d1 0 32) 32 32 (bits d2 0 32))
    with (set_bits (bits d1 0 32) (8 * Z.of_nat 4) (8 * Z.of_nat 4) (bits d2 0 32)).
  rewrite le_bytes_set_at, take_le_bytes_le, !le_bytes_bits, !Z.shiftr_0_r by lia. rewrite (drop_ge (le_bytes 8 _)) by (by rewrite length_le_bytes).
  by rewrite app_nil_r.
Qed.

Lemma reply_bytes d1 d2 c :
  le_bytes 8 (set_bits (a_data (cic_reply (full_word d1) (full_word d2))) 48 16 c) =
  le_bytes 4 (Z.shiftr d1 32) ++ [0; wrap 8 (Z.shiftr d2 40)] ++ le_bytes 2 c.
Proof.
  unfold cic_reply, full_word, ECHO_REPLY. cbn [a_data].
  change 48 with (8 * Z.of_nat 6). change 16 with (8 * Z.of_nat 2). rewrite le_bytes_set_at by lia.
  change (set_bits (set_bits d2 0 32 (bits d1 32 32)) 32 8 0) with
    (set_bits (set_bits d2 0 (8 * Z.of_nat 4) (bits d1 32 32)) (8 * Z.of_nat 4) (8 * Z.of_nat 1) 0).
  rewrite le_bytes_set_at, le_bytes_set, le_bytes_bits by lia. cbn [le_bytes take drop app Nat.add].
  rewrite !Z.shiftr_shiftr by lia. by cbn [Z.add Pos.add Pos.succ Pos.add_carry].
Qed.

Lemma be_pair (a b : Z) l : words_be (a :: b :: l) = (256 * a + b) :: words_be l.
Proof. done. Qed.

Lemma halves d : le_bytes 8 d = le_bytes 4 d ++ le_bytes 4 (Z.shiftr d 32).
Proof. exact (le_bytes_app 4 4 d). Qed.

(** The parts of a packet, from its words. *)
Lemma packet_parts d0 d1 d2 l (hdr src dst msg rest : list Z) :
  hdr ++ src ++ dst ++ msg ++ rest = le_bytes 8 d0 ++ le_bytes 8 d1 ++ le_bytes 8 d2 ++ l ->
  length hdr = 12%nat -> length src = 4%nat -> length dst = 4%nat -> length msg = 4%nat ->
  hdr = le_bytes 8 d0 ++ le_bytes 4 d1 /\ src = le_bytes 4 (Z.shiftr d1 32) /\ dst = le_bytes 4 d2 /\
  msg = le_bytes 4 (Z.shiftr d2 32) /\ rest = l.
Proof.
  intros E Hh Hs Hd Hm. rewrite (halves d1), (halves d2), <- !app_assoc, (app_assoc (le_bytes 8 d0)) in E.
  apply app_inj_1 in E as [-> E]; [|by rewrite Hh, length_app, !length_le_bytes].
  apply app_inj_1 in E as [-> E]; [|by rewrite Hs, length_le_bytes].
  apply app_inj_1 in E as [-> E]; [|by rewrite Hd, length_le_bytes].
  apply app_inj_1 in E as [-> ->]; [done|]. by rewrite Hm, length_le_bytes.
Qed.

Lemma bits_pair d : bits d 48 16 = wrap 8 (Z.shiftr d 48) + 256 * wrap 8 (Z.shiftr d 56).
Proof.
  rewrite bits_wrap by lia. replace (Z.shiftr d 56) with (Z.shiftr (Z.shiftr d 48) 8) by (by rewrite Z.shiftr_shiftr by lia).
  unfold wrap. rewrite (Z.shiftr_div_pow2 _ 8) by lia. apply (Z.rem_mul_r _ 256 256); lia.
Qed.

(** The message begins in the upper half of the third word. *)
Lemma message_word d ty code c0 c1 l :
  [ty; code; c0; c1] = le_bytes 4 (Z.shiftr d 32) ->
  echo_valid d l = (internet_checksum ([ty; code; c0; c1] ++ l) =? 0) && (ty =? ECHO_REQUEST) && (code =? 0) /\
  bits d 48 16 = c0 + 256 * c1 /\ fits 8 c0 /\ fits 8 c1 /\ code = wrap 8 (Z.shiftr d 40).
Proof.
  cbn [le_bytes]. rewrite !Z.shiftr_shiftr by lia. intros [= -> -> -> ->]. cbn [Z.add Pos.add Pos.succ Pos.add_carry].
  split; [|split; [apply bits_pair|split_and!; try done; apply wrap_range; lia]].
  unfold echo_valid, internet_checksum. cbn [app]. rewrite !be_pair, !be16_bytes, !bits_wrap by lia. cbn [sumZ].
  do 2 f_equal. match goal with |- (oc ?a =? _) = (_ - oc ?b =? _) => replace b with a; [destruct (Z.eqb_spec (oc a) 65535); lia|] end.
  exact (eq_sym (Z.add_assoc _ _ _)).
Qed.

(** C23: Echo requests, and only they, are answered: of a packet with an ICMP message the
    server sends nothing if the message is not an echo request with the checksum of
    RFC 792; otherwise it sends the packet with source and destination exchanged,
    the type of a reply, a checksum that is right again, and the identifier, the
    sequence number and the data as they were.  The sum of the IP header is the
    same as before. *)
Theorem echo_answered ws (hdr src dst rest : list Z) (ty code c0 c1 : Z) :
  packet 8 ws (hdr ++ src ++ dst ++ [ty; code; c0; c1] ++ rest) ->
  length hdr = 12%nat -> length src = 4%nat -> length dst = 4%nat -> (1 <= length rest)%nat -> Z.of_nat (length rest) < 2 ^ 16 - 24 ->
  let valid := (internet_checksum ([ty; code; c0; c1] ++ rest) =? 0) && (ty =? ECHO_REQUEST) && (code =? 0) in
  exists s o d,
    runs check_icmp_checksum (cic_init ws) s o /\ cic_dataIn s = [] /\
    runs dropper (mk_idr true false (cic_words o) (cic_valids o)) (mk_idr true false [] []) d /\
    if valid then
      exists out c0' c1',
        runs insertChecksum (mk_icin 0 false d [] (cic_sums_out o) []) (mk_icin 0 false [] [] [] []) out /\
        packet 8 out (hdr ++ dst ++ src ++ [ECHO_REPLY; 0; c0'; c1'] ++ rest) /\
        internet_checksum ([ECHO_REPLY; 0; c0'; c1'] ++ rest) = 0 /\
        internet_checksum (hdr ++ dst ++ src) = internet_checksum (hdr ++ src ++ dst)
    else d = [] /\ cic_sums_out o = [].
Proof.
  intros Hw Hh Hs Hd Hr Hlen valid.
  assert (length (hdr ++ src ++ dst ++ [ty; code; c0; c1] ++ rest) = 24 + length rest)%nat as Hl.
  { rewrite !length_app, Hh, Hs, Hd. cbn [length]. lia. }
  destruct (packet_long _ _ _ Hw ltac:(lia)) as (d0 & ws1 & l1 & -> & Hw1 & E1).
  assert (length l1 = 16 + length rest)%nat as Hl1 by (rewrite E1, length_app, length_le_bytes in Hl; lia).
  destruct (packet_long _ _ _ Hw1 ltac:(lia)) as (d1 & ws2 & l2 & -> & Hw2 & ->). rewrite length_app, length_le_bytes in Hl1.
  destruct (packet_long _ _ _ Hw2 ltac:(lia)) as (d2 & ws3 & l3 & -> & Hw3 & ->).
  destruct (packet_parts _ _ _ _ _ _ _ _ _ E1 Hh Hs Hd eq_refl) as (-> & -> & -> & Em & ->). clear Hw Hw1 Hw2 Hl Hl1 E1 Hh Hs Hd.
  pose proof (packet_words 8 ws3 l3 Hw3 ltac:(lia)) as Hn. pose proof (packet_fits _ _ _ Hw3) as Fl.
  destruct (message_word d2 ty code c0 c1 l3 Em) as (Ev & Ec & F0 & F1 & Ecode). fold valid in Ev.
  destruct (cic_packet d0 d1 d2 ws3 l3 Hw3 ltac:(lia)) as (s & o & Hr1 & Hs1 & _ & _ & _ & _ & Hwo & Hv & Hso).
  rewrite Ev in Hv, Hso. rewrite Ec in Hso. apply Z.lt_le_incl in Hlen as Hlen'.
  exists s, o, (if valid then cic_words o else []). split; [exact Hr1|]. split; [done|].
  split.
  { rewrite Hv, Hwo. eapply (dropper_packet valid). apply (packet_more 8), (packet_more 8), (packet_more 8). exact Hw3. }
  destruct valid eqn:Evalid; [|done]. rewrite Hwo, Hso. unfold valid in Evalid. rewrite !andb_true_iff, !Z.eqb_eq in Evalid.
  destruct Evalid as [[Hz ->] ->].
  set (c := reply_checksum (c0 + 256 * c1)).
  eexists _, (wrap 8 c), (wrap 8 (Z.shiftr c 8)). split; [|split; [|split]].
  - eapply insert_packet_checksum; [exact Hw3 | lia | done].
  - assert (le_bytes 8 d0 ++ le_bytes 8 (a_data (cic_swapped (full_word d1) (full_word d2))) ++
      le_bytes 8 (set_bits (a_data (cic_reply (full_word d1) (full_word d2))) 48 16 c) ++ l3 =
      (le_bytes 8 d0 ++ le_bytes 4 d1) ++ le_bytes 4 d2 ++ le_bytes 4 (Z.shiftr d1 32) ++ [ECHO_REPLY; 0; wrap 8 c; wrap 8 (Z.shiftr c 8)] ++ l3) as <-.
    { rewrite swapped_bytes, reply_bytes, <- Ecode, <- !app_assoc. done. }
    apply (packet_more 8), (packet_more 8), (packet_more 8). exact Hw3.
  - unfold internet_checksum in *. cbn [app] in *. rewrite !be_pair in *. cbn [sumZ] in *.
    pose proof (reply_sum c0 c1 (sumZ (words_be l3)) F0 F1 (sumZ_nonneg _ (words_be_fits _ Fl))) as H.
    fold c in H. cbv zeta in H.
    match type of Hz with _ - oc ?a = _ => replace a with (2048 + (256 * c0 + c1) + sumZ (words_be l3)) in Hz by (unfold ECHO_REQUEST; lia) end.
    match goal with |- _ - oc ?a = _ => replace a with (256 * wrap 8 c + wrap 8 (Z.shiftr c 8) + sumZ (words_be l3)) by (unfold ECHO_REPLY; lia) end.
    rewrite H; lia.
  - unfold internet_checksum. rewrite !(words_be_front 6 (le_bytes 8 d0 ++ le_bytes 4 d1)) by (by rewrite length_app, !length_le_bytes).
    rewrite !(words_be_front 2 (le_bytes 4 _)) by (by rewrite length_le_bytes). rewrite !sumZ_app. do 2 f_equal. lia.
Qed.

(** An echo request of 10.0.0.1, in four words. *)
Definition echo_header : list Z := [0x45; 0; 0; 0x1E; 0; 0; 0x40; 0; 0x40; 1; 0x26; 0xDD].
Definition echo_rest : list Z := [0x12; 0x34; 0; 1; 0x61; 0x62].
Definition echo_words : list net_axis :=
  [full_word 0x004000001E000045; full_word 0x0100000ADD260140; full_word 0x688400080200000A; mk_axis 0x626101003412 (Z.ones 6) true].

Lemma echo_answered_witness :
  exists s o d out c0' c1',
    runs check_icmp_checksum (cic_init echo_words) s o /\
    runs dropper (mk_idr true false (cic_words o) (cic_valids o)) (mk_idr true false [] []) d /\
    runs insertChecksum (mk_icin 0 false d [] (cic_sums_out o) []) (mk_icin 0 false [] [] [] []) out /\
    packet 8 out (echo_header ++ [10; 0; 0; 2] ++ [10; 0; 0; 1] ++ [ECHO_REPLY; 0; c0'; c1'] ++ echo_rest).
Proof.
  destruct (echo_answered echo_words echo_header [10; 0; 0; 1] [10; 0; 0; 2] echo_rest 8 0 0x84 0x68)
    as (s & o & d & Hr1 & _ & Hr2 & out & c0' & c1' & Hr3 & Hp & _).
  - apply (packet_more 8 0x004000001E000045), (packet_more 8 0x0100000ADD260140), (packet_more 8 0x688400080200000A),
      (packet_last 8 0x626101003412 6). lia.
  - done.
  - done.
  - done.
  - cbn. lia.
  - cbn. lia.
  - by exists s, o, d, out, c0', c1'.
Defined.
