(* ===== verification/Dhcp.v ===== *)
(** The DHCP client ([dhcp_client.cpp], [dhcp_client.hpp]), over words of 64 bits: the
    port, the messages of the server, those of the client and the state machine.  Each
    process is a function of its static variables and input streams; a call is one
    iteration. *)
From stdpp Require Import base numbers list strings.
From Stdlib Require Import ZArith Lia.
From S2P Require Import Prelude Axi.

Local Open Scope Z_scope.

(** ** Data *)

Definition DISCOVER : Z := 0x01.
Definition OFFER : Z := 0x02.
Definition REQUEST : Z := 0x03.
Definition ACK : Z := 0x05.

Record dhcpReplyMeta : Type := mk_dhcpReply { dr_identifier : Z; assignedIpAddress : Z; serverAddress : Z; dr_type : Z }.
Record dhcpRequestMeta : Type := mk_dhcpRequest { dq_identifier : Z; dq_type : Z; requestedIpAddress : Z }.

Definition MAGIC_COOKIE : Z := 0x63538263.

(** For synthesis, and for simulation. *)
Definition TIME_5S (synthesis : bool) : Z := if synthesis then 750750750 else 100.

Record sockaddr_in : Type := mk_sockaddr { sin_addr : Z; sin_port : Z }.
Record udpMetadata : Type := mk_udpMetadata { sourceSocket : sockaddr_in; destinationSocket : sockaddr_in }.

(** ** [open_dhcp_port] *)

Record odp : Type := mk_odp { odp_listenDone : bool; odp_waitListenStatus : bool; openPortWaitTime : Z; confirmPortStatus : list bool }.

Inductive odp_out : Type :=
| OpenPort (p : Z)
| PortOpen.

Definition odp_init (synthesis : bool) (input : list bool) : odp := mk_odp false false (TIME_5S synthesis) input.

(** [full]: the FIFO of requests for ports is full. *)
Definition open_dhcp_port (full : bool) (s : odp) : odp * list odp_out :=
  let '(mk_odp done waiting t input) := s in
  if t =? 0 then
    if negb done && negb waiting && negb full then (mk_odp done true t input, [OpenPort 68])
    else match input with
         | b :: input' => if waiting then (mk_odp b waiting t input', [PortOpen]) else (s, [])
         | [] => (s, [])
         end
  else (mk_odp done waiting (u32 (t - 1)) input, []).

(** ** [receive_message] *)

Record rmsg : Type := mk_rmsg {
  rm_isReply : bool; rm_correctMac : bool; rm_isDHCP : bool; rm_wordCount : Z; rm_meta : dhcpReplyMeta;
  rm_dataInMeta : list udpMetadata; rm_dataIn : list net_axis }.

Definition rmsg_init (metas : list udpMetadata) (input : list net_axis) : rmsg :=
  mk_rmsg false true false 0 (mk_dhcpReply 0 0 0 0) metas input.

(** One word of a message. *)
Definition rm_word (mac : Z) (cnt d : Z) (r c h : bool) (m : dhcpReplyMeta) : bool * bool * bool * dhcpReplyMeta :=
  let '(mk_dhcpReply id ip srv ty) := m in
  if cnt =? 0 then (bits d 0 8 =? 0x2, true, h, mk_dhcpReply (bits d 32 32) ip srv ty)
  else if cnt =? 2 then (r, c, h, mk_dhcpReply id (bits d 0 32) (bits d 32 32) ty)
  else if cnt =? 3 then (r, c && (bits mac 0 32 =? bits d 32 32), h, m)
  else if cnt =? 4 then (r, c && (bits mac 32 16 =? bits d 0 16), h, m)
  else if cnt =? 29 then (r, c, MAGIC_COOKIE =? bits d 32 32, m)
  else if cnt =? 30 then (r, c, h, if bits d 0 16 =? 0x0135 then mk_dhcpReply id ip srv (bits d 16 8) else m)
  else (r, c, h, m).

Definition receive_message (mac : Z) (s : rmsg) : rmsg * list dhcpReplyMeta :=
  let '(mk_rmsg r c h cnt m metas input) := s in
  let metas := tail metas in
  match input with
  | w :: input' =>
      let '(r, c, h, m) := rm_word mac cnt (a_data w) r c h m in
      (mk_rmsg r c h (if a_last w then 0 else wrap 6 (cnt + 1)) m metas input', if a_last w && r && c && h then [m] else [])
  | [] => (mk_rmsg r c h cnt m metas [], [])
  end.

(** ** [send_message] *)

Record smsg : Type := mk_smsg { sm_wordCount : Z; sm_meta : dhcpRequestMeta; sm_metaIn : list dhcpRequestMeta }.

Inductive smsg_out : Type :=
| SmWord (w : net_axis)          (* dataOut *)
| SmMeta (m : udpMetadata)       (* dataOutMeta *)
| SmLength (n : Z).              (* dataOutLength *)

Definition smsg_init (input : list dhcpRequestMeta) : smsg := mk_smsg 0 (mk_dhcpRequest 0 0 0) input.

(** The words behind the first. *)
Definition sm_data (mac cnt : Z) (m : dhcpRequestMeta) : Z :=
  if cnt =? 1 then set_bits (set_bits (set_bits 0 0 23 0) 23 1 1) 24 40 0
  else if cnt =? 3 then set_bits (set_bits 0 0 32 0) 32 32 (bits mac 0 32)
  else if cnt =? 4 then set_bits (set_bits 0 0 16 (bits mac 32 16)) 16 48 0
  else if cnt =? 29 then set_bits (set_bits 0 0 32 0) 32 32 MAGIC_COOKIE
  else if cnt =? 30 then
    let d := set_bits (set_bits 0 0 16 0x0135) 16 8 (dq_type m) in
    if dq_type m =? DISCOVER then set_bits (set_bits d 24 8 0xff) 32 32 0
    else set_bits (set_bits (set_bits d 24 8 0x32) 32 8 0x04) 40 24 (bits (requestedIpAddress m) 0 24)
  else if cnt =? 31 then if dq_type m =? REQUEST then set_bits 0 0 8 (bits (requestedIpAddress m) 24 8) else 0
  else 0.

Definition sm_first (m : dhcpRequestMeta) : Z :=
  set_bits (set_bits (set_bits (set_bits (set_bits 0 0 8 0x01) 8 8 0x01) 16 8 0x06) 24 8 0x00) 32 32 (dq_identifier m).

Definition broadcast : udpMetadata := mk_udpMetadata (mk_sockaddr 0x00000000 68) (mk_sockaddr 0xffffffff 67).

Definition send_message (mac : Z) (s : smsg) : smsg * list smsg_out :=
  let '(mk_smsg cnt m input) := s in
  if cnt =? 0 then
    match input with
    | m' :: input' => (mk_smsg 1 m' input', [SmWord (mk_axis (sm_first m') 0xff false); SmMeta broadcast; SmLength 300])
    | [] => (s, [])
    end
  else if cnt =? 37 then (mk_smsg 0 m input, [SmWord (mk_axis 0 0x0f true)])
  else (mk_smsg (wrap 6 (cnt + 1)) m input, [SmWord (mk_axis (sm_data mac cnt m) 0xff false)]).

(** ** [dhcp_fsm] *)

Inductive dhcpStateType : Type := PORT_WAIT | INIT | SELECTING | REQUESTING | BOUND.

Record dfsm : Type := mk_dfsm {
  df_state : dhcpStateType; randomValue : Z; myIdentity : Z; myIpAddress : Z; IpAddressBuffer : Z; df_time : Z }.

Definition dfsm_init : dfsm := mk_dfsm PORT_WAIT 0x34aad34b 0 0 0 100.

(** What a call reads: the head of each stream, if there is one, and the signals. *)
Record dfsm_in : Type := mk_dfsm_in { df_reply : option dhcpReplyMeta; df_portOpen : bool; dhcpEnable : bool; inputIpAddress : Z }.

(** What it writes: the address it announces and perhaps a request, and whether it
    took the reply and the word of [portOpen]. *)
Record dfsm_out : Type := mk_dfsm_out { ipAddressOut : Z; df_request : option dhcpRequestMeta; took_reply : bool; took_port : bool }.

Definition next_random (r : Z) : Z := u32 (Z.lxor (r * 8) r).

Definition dhcp_fsm (synthesis : bool) (s : dfsm) (i : dfsm_in) : dfsm * dfsm_out :=
  let '(mk_dfsm st r id ip buf t) := s in
  let '(mk_dfsm_in reply port enable input) := i in
  let r' := u32 (r + 1) in
  let quiet := mk_dfsm_out ip None false false in
  let took := mk_dfsm_out ip None true false in
  let wait := if t =? 0 then mk_dfsm INIT r' id ip buf t else mk_dfsm st r' id ip buf (u32 (t - 1)) in
  match st with
  | PORT_WAIT => (mk_dfsm (if port then INIT else PORT_WAIT) r' id input buf t, mk_dfsm_out ip None false port)
  | INIT =>
      if enable then
        if t =? 0 then
          (mk_dfsm SELECTING (u32 (next_random r + 1)) r input buf (TIME_5S synthesis),
           mk_dfsm_out ip (Some (mk_dhcpRequest r DISCOVER 0)) false false)
        else (mk_dfsm INIT r' id input buf (u32 (t - 1)), quiet)
      else (mk_dfsm INIT r' id input buf t, quiet)
  | SELECTING =>
      match reply with
      | Some m =>
          if dr_identifier m =? id then
            if dr_type m =? OFFER then
              (mk_dfsm REQUESTING r' id ip (assignedIpAddress m) (TIME_5S synthesis),
               mk_dfsm_out ip (Some (mk_dhcpRequest id REQUEST (assignedIpAddress m))) true false)
            else (mk_dfsm INIT r' id ip buf t, took)
          else (mk_dfsm SELECTING r' id ip buf t, took)
      | None => (wait, quiet)
      end
  | REQUESTING =>
      match reply with
      | Some m =>
          if dr_identifier m =? id then
            if dr_type m =? ACK then (mk_dfsm BOUND r' id buf buf t, took) else (mk_dfsm INIT r' id ip buf t, took)
          else (mk_dfsm REQUESTING r' id ip buf t, took)
      | None => (wait, quiet)
      end
  | BOUND => (mk_dfsm (if enable then BOUND else INIT) r' id ip buf t, mk_dfsm_out ip None (bool_decide (is_Some reply)) false)
  end.
