(* ===== verification/DhcpFacts.v ===== *)
(** The DHCP client: the messages it sends, byte by byte, and the exchange behind an
    address it has taken. *)
From stdpp Require Import base numbers list strings.
From Stdlib Require Import ZArith Lia.
From S2P Require Import Prelude Axi Streams StreamsFacts Wire Dhcp.

Local Open Scope Z_scope.

(** ** The exchange *)

Inductive dhcp_event : Type :=
| Asked (m : dhcpRequestMeta)
| Heard (m : dhcpReplyMeta).

(** What a call sends and what it takes from the server. *)
Definition dhcp_events (i : dfsm_in) (o : dfsm_out) : list dhcp_event :=
  (if took_reply o then match df_reply i with Some m => [Heard m] | None => [] end else []) ++
  match df_request o with Some m => [Asked m] | None => [] end.

Inductive dhcp_reach (synthesis : bool) : dfsm -> list dhcp_event -> Prop :=
| dhcp_start : dhcp_reach synthesis dfsm_init []
| dhcp_call s log i s' o :
    dhcp_reach synthesis s log -> dhcp_fsm synthesis s i = (s', o) -> dhcp_reach synthesis s' (log ++ dhcp_events i o).

(** Nothing was sent. *)
Definition only_heard (l : list dhcp_event) : Prop := Forall (fun e => match e with Heard _ => True | Asked _ => False end) l.

(** The exchange the client is in, at the end of the log. *)
Definition discovering (id : Z) (log : list dhcp_event) : Prop :=
  exists pre mid, log = pre ++ Asked (mk_dhcpRequest id DISCOVER 0) :: mid /\ only_heard mid.

Definition requesting (id ip : Z) (log : list dhcp_event) : Prop :=
  exists pre offer mid, discovering id pre /\ log = pre ++ Heard offer :: Asked (mk_dhcpRequest id REQUEST ip) :: mid /\ only_heard mid /\
    dr_identifier offer = id /\ dr_type offer = OFFER /\ assignedIpAddress offer = ip.

Definition acknowledged (id ip : Z) (log : list dhcp_event) : Prop :=
  exists pre ack post, requesting id ip pre /\ log = pre ++ Heard ack :: post /\ only_heard post /\
    dr_identifier ack = id /\ dr_type ack = ACK.

Definition dhcp_inv (s : dfsm) (log : list dhcp_event) : Prop :=
  match df_state s with
  | PORT_WAIT | INIT => True
  | SELECTING => discovering (myIdentity s) log
  | REQUESTING => requesting (myIdentity s) (IpAddressBuffer s) log
  | BOUND => acknowledged (myIdentity s) (myIpAddress s) log
  end.

Lemma discovering_heard id log l : discovering id log -> only_heard l -> discovering id (log ++ l).
Proof. intros (pre & mid & -> & H) Hl. exists pre, (mid ++ l). rewrite <- app_assoc. split; [done|]. by apply Forall_app. Qed.

Lemma requesting_heard id ip log l : requesting id ip log -> only_heard l -> requesting id ip (log ++ l).
Proof.
  intros (pre & offer & mid & Hd & -> & H & Ho) Hl. exists pre, offer, (mid ++ l). rewrite <- app_assoc. split; [done|]. split; [done|].
  split; [by apply Forall_app | done].
Qed.

Lemma acknowledged_heard id ip log l : acknowledged id ip log -> only_heard l -> acknowledged id ip (log ++ l).
Proof.
  intros (pre & ack & post & Hr & -> & H & Ha) Hl. exists pre, ack, (post ++ l). rewrite <- app_assoc. split; [done|]. split; [done|].
  split; [by apply Forall_app | done].
Qed.

Lemma heard_one m : only_heard [Heard m].
Proof. by repeat constructor. Qed.

Lemma dhcp_inv_step synthesis s log i s' o :
  dhcp_inv s log -> dhcp_fsm synthesis s i = (s', o) -> dhcp_inv s' (log ++ dhcp_events i o).
Proof.
  destruct s as [st r id ip buf t], i as [reply port enable input]. unfold dhcp_inv. cbn [df_state myIdentity IpAddressBuffer myIpAddress].
  intros Hi E. destruct st; cbn in E.
  - destruct port; by simplify_eq.
  - destruct enable; [|by simplify_eq]. destruct (t =? 0); simplify_eq; cbn; [|done]. exists log, []. split; [done | constructor].
  - destruct reply as [m|].
    + destruct (Z.eqb_spec (dr_identifier m) id) as [Hid|Hid]; [destruct (Z.eqb_spec (dr_type m) OFFER) as [Hty|Hty]|]; simplify_eq; cbn; [|done|].
      * exists log, m, []. split_and!; try done. constructor.
      * apply discovering_heard; [done | apply heard_one].
    + destruct (t =? 0); simplify_eq; cbn; [done|]. by rewrite app_nil_r.
  - destruct reply as [m|].
    + destruct (Z.eqb_spec (dr_identifier m) id) as [Hid|Hid]; [destruct (Z.eqb_spec (dr_type m) ACK) as [Hty|Hty]|]; simplify_eq; cbn; [|done|].
      * exists log, m, []. split_and!; try done. constructor.
      * apply requesting_heard; [done | apply heard_one].
    + destruct (t =? 0); simplify_eq; cbn; [done|]. by rewrite app_nil_r.
  - destruct enable; simplify_eq; cbn; [|done]. destruct reply as [m|]; cbn; [|by rewrite app_nil_r].
    apply acknowledged_heard; [done | apply heard_one].
Qed.

Lemma dhcp_reach_inv synthesis s log : dhcp_reach synthesis s log -> dhcp_inv s log.
Proof. induction 1 as [|s log i s' o Hr IH E]; [done|]. by eapply dhcp_inv_step. Qed.

(** C25: A client that has taken an address got it in the exchange it began last: it sent a
    discovery, an offer with the identity of the discovery named the address, it sent a
    request for that address, an acknowledgement with the same identity came, and it has
    sent nothing else since. *)
Theorem dhcp_bound_safe synthesis s log :
  dhcp_reach synthesis s log -> df_state s = BOUND ->
  exists pre offers replies rest offer ack,
    let id := myIdentity s in
    log = pre ++ [Asked (mk_dhcpRequest id DISCOVER 0)] ++ offers ++ [Heard offer; Asked (mk_dhcpRequest id REQUEST (myIpAddress s))] ++
      replies ++ [Heard ack] ++ rest /\
    only_heard offers /\ only_heard replies /\ only_heard rest /\
    dr_identifier offer = id /\ dr_type offer = OFFER /\ assignedIpAddress offer = myIpAddress s /\
    dr_identifier ack = id /\ dr_type ack = ACK.
Proof.
  intros Hr Hb. apply dhcp_reach_inv in Hr. unfold dhcp_inv in Hr. rewrite Hb in Hr.
  destruct Hr as (p1 & ack & rest & (p2 & offer & replies & (pre & offers & -> & Ho) & -> & Hre & Hof) & -> & Hrest & Hack).
  exists pre, offers, replies, rest, offer, ack. cbv zeta. split; [|tauto]. by rewrite <- !app_assoc.
Qed.

(** An exchange: the port is open, the time runs out, and the server answers twice. *)
Definition dhcp_offer (ty : Z) : dhcpReplyMeta := mk_dhcpReply (0x34aad34b + 101) 0x0A01A8C0 0x0101A8C0 ty.
Definition dhcp_demo_inputs : list dfsm_in :=
  mk_dfsm_in None true true 7 :: replicate 101 (mk_dfsm_in None false true 7) ++
  [mk_dfsm_in (Some (dhcp_offer OFFER)) false true 7; mk_dfsm_in (Some (dhcp_offer ACK)) false true 7].

Fixpoint dhcp_calls (synthesis : bool) (s : dfsm) (log : list dhcp_event) (l : list dfsm_in) : dfsm * list dhcp_event :=
  match l with
  | [] => (s, log)
  | i :: l' => let '(s', o) := dhcp_fsm synthesis s i in dhcp_calls synthesis s' (log ++ dhcp_events i o) l'
  end.

Lemma dhcp_calls_reach synthesis l : forall s log s' log',
  dhcp_reach synthesis s log -> dhcp_calls synthesis s log l = (s', log') -> dhcp_reach synthesis s' log'.
Proof.
  induction l as [|i l IH]; intros s log s' log' Hr E; cbn in E; [by simplify_eq|].
  destruct (dhcp_fsm synthesis s i) as [s1 o] eqn:Ef. eapply IH; [|exact E]. by eapply dhcp_call.
Qed.

Definition dhcp_demo : dfsm * list dhcp_event := Eval vm_compute in dhcp_calls true dfsm_init [] dhcp_demo_inputs.

Lemma dhcp_bound_safe_witness :
  df_state (fst dhcp_demo) = BOUND /\ myIpAddress (fst dhcp_demo) = 0x0A01A8C0 /\
  exists offer, In (Heard offer) (snd dhcp_demo) /\ assignedIpAddress offer = myIpAddress (fst dhcp_demo).
Proof.
  split; [reflexivity|]. split; [reflexivity|].
  destruct (dhcp_bound_safe true (fst dhcp_demo) (snd dhcp_demo)) as (pre & offers & replies & rest & offer & ack & E & _ & _ & _ & _ & _ & Ha & _).
  - apply (dhcp_calls_reach true dhcp_demo_inputs dfsm_init []); [constructor|]. vm_compute. reflexivity.
  - reflexivity.
  - exists offer. split; [|exact Ha]. rewrite E, !in_app_iff. cbn [In]. tauto.
Defined.

(** ** The messages *)

Definition sm_words (o : list smsg_out) : list net_axis := omap (fun x => match x with SmWord w => Some w | _ => None end) o.

(** A message as RFC 2131 lays it out: operation, hardware type and length, hops;
    identifier; seconds and flags; four addresses; the hardware address; server name
    and file; the options, the first the type of the message; padding. *)
Definition dhcp_options (m : dhcpRequestMeta) : list Z :=
  if dq_type m =? DISCOVER then [53; 1; DISCOVER; 255; 0; 0; 0; 0; 0] else [53; 1; dq_type m; 50; 4] ++ le_bytes 4 (requestedIpAddress m).
Definition dhcp_bytes (mac : Z) (m : dhcpRequestMeta) : list Z :=
  [1; 1; 6; 0] ++ le_bytes 4 (dq_identifier m) ++ [0; 0; 0x80; 0] ++ replicate 16 0 ++ le_bytes 6 mac ++ replicate (10 + 64 + 128) 0 ++
  [0x63; 0x82; 0x53; 0x63] ++ dhcp_options m ++ replicate 51 0.

Definition full (d : Z) : net_axis := mk_axis d 0xff false.

Lemma send_words mac m k : forall cnt, 1 <= cnt -> cnt + Z.of_nat k = 37 ->
  runs (send_message mac) (mk_smsg cnt m []) (mk_smsg 37 m []) (map (fun i => SmWord (full (sm_data mac i m))) (seqZ cnt (Z.of_nat k))).
Proof.
  induction k as [|k IH]; intros cnt Hc Hk.
  - assert (cnt = 37) as -> by lia. apply runs_refl.
  - rewrite seqZ_cons by lia. replace (Z.pred (Z.of_nat (S k))) with (Z.of_nat k) by lia. cbn [map].
    eapply (runs_step _ _ (mk_smsg (cnt + 1) m []) _ [_]); [|replace (Z.succ cnt) with (cnt + 1) by lia; apply IH; lia].
    cbn [send_message]. rewrite (proj2 (Z.eqb_neq cnt 0)), (proj2 (Z.eqb_neq cnt 37)), wrap_small by (unfold fits; lia). done.
Qed.

Lemma sent_parts mac m :
  let o := map (fun i => SmWord (full (sm_data mac i m))) (seqZ 1 36) in
  sm_words o = map full (map (fun i => sm_data mac i m) (seqZ 1 36)) /\
  omap (fun x => match x with SmLength n => Some n | _ => None end) o = [] /\
  omap (fun x => match x with SmMeta u => Some u | _ => None end) o = [].
Proof. cbv zeta. by induction (seqZ 1 36) as [|i l (IH1 & IH2 & IH3)]; [|cbn; rewrite <- IH1, IH2, IH3]. Qed.

Lemma full_packet ds w l : packet 8 [w] l -> packet 8 (map full ds ++ [w]) (concat (map (le_bytes 8) ds) ++ l).
Proof.
  intros Hw. induction ds as [|d ds IH]; [done|]. cbn [map concat app]. rewrite <- app_assoc. by apply (packet_more 8).
Qed.

Lemma zero_words mac m a k : 5 <= a -> (forall i, a <= i < a + Z.of_nat k -> i < 29 \/ 31 < i) ->
  concat (map (le_bytes 8) (map (fun i => sm_data mac i m) (seqZ a (Z.of_nat k)))) = replicate (8 * k) 0.
Proof.
  revert a. induction k as [|k IH]; intros a Ha Hi; [done|]. rewrite seqZ_cons by lia. replace (Z.pred (Z.of_nat (S k))) with (Z.of_nat k) by lia.
  cbn [map concat]. rewrite IH by (lia || intros i Hi'; apply Hi; lia). assert (a < 29 \/ 31 < a) as Hr by (apply Hi; lia).
  assert (sm_data mac a m = 0) as ->.
  { unfold sm_data. by rewrite !(proj2 (Z.eqb_neq a _)) by lia. }
  replace (8 * S k)%nat with (8 + 8 * k)%nat by lia. by rewrite replicate_add.
Qed.

(** The words with fields in them. *)
Lemma first_word m : le_bytes 8 (sm_first m) = [1; 1; 6; 0] ++ le_bytes 4 (dq_identifier m).
Proof.
  unfold sm_first. change (set_bits ?d 32 32 ?v) with (set_bits d (8 * Z.of_nat 4) (8 * Z.of_nat 4) v). rewrite le_bytes_set_at by lia.
  rewrite (drop_ge (le_bytes 8 _)) by (by rewrite length_le_bytes). by rewrite app_nil_r.
Qed.

Lemma mac_words mac m : le_bytes 8 (sm_data mac 3 m) ++ le_bytes 8 (sm_data mac 4 m) = replicate 4 0 ++ le_bytes 6 mac ++ replicate 6 0.
Proof.
  rewrite (le_bytes_app 4 2 mac : le_bytes 6 mac = _), <- app_assoc. unfold sm_data. cbn [Z.eqb Pos.eqb].
  change (set_bits ?d 32 32 (bits mac 0 32)) with (set_bits d (8 * Z.of_nat 4) (8 * Z.of_nat 4) (bits mac 0 32)).
  change (set_bits 0 0 16 (bits mac 32 16)) with (set_bits 0 0 (8 * Z.of_nat 2) (bits mac 32 16)).
  change (set_bits ?d 16 48 0) with (set_bits d (8 * Z.of_nat 2) (8 * Z.of_nat 6) 0).
  rewrite !le_bytes_set_at, le_bytes_set, !le_bytes_bits, Z.shiftr_0_r by lia. done.
Qed.

Lemma option_words mac m : dq_type m = DISCOVER \/ dq_type m = REQUEST ->
  le_bytes 8 (sm_data mac 30 m) ++ le_bytes 8 (sm_data mac 31 m) = dhcp_options m ++ replicate 7 0.
Proof.
  destruct m as [id ty ip]. cbn [dq_type]. unfold sm_data, dhcp_options. cbn [Z.eqb Pos.eqb dq_type requestedIpAddress].
  intros [-> | ->]; [by vm_compute|]. unfold DISCOVER, REQUEST. cbn [Z.eqb Pos.eqb].
  change (set_bits ?d 40 24 (bits ip 0 24)) with (set_bits d (8 * Z.of_nat 5) (8 * Z.of_nat 3) (bits ip 0 24)).
  change (set_bits 0 0 8 (bits ip 24 8)) with (set_bits 0 0 (8 * Z.of_nat 1) (bits ip 24 8)).
  rewrite le_bytes_set_at, le_bytes_set, !le_bytes_bits, Z.shiftr_0_r by lia.
  rewrite (le_bytes_app 3 1 ip : le_bytes 4 ip = _). done.
Qed.

Lemma message_bytes mac m : dq_type m = DISCOVER \/ dq_type m = REQUEST ->
  concat (map (le_bytes 8) (sm_first m :: map (fun i => sm_data mac i m) (seqZ 1 36))) ++ [0; 0; 0; 0] = dhcp_bytes mac m.
Proof.
  intros Hty. cbn [map concat]. rewrite first_word.
  change (seqZ 1 36) with ([1; 2; 3; 4] ++ seqZ 5 (Z.of_nat 24) ++ [29; 30; 31] ++ seqZ 32 (Z.of_nat 5)).
  rewrite !map_app, !concat_app, !zero_words by lia. cbn [map concat]. rewrite !app_nil_r.
  rewrite mac_words, option_words by done.
  change (le_bytes 8 (sm_data mac 1 m)) with [0; 0; 0x80; 0; 0; 0; 0; 0]. change (le_bytes 8 (sm_data mac 2 m)) with (replicate 8 0).
  change (le_bytes 8 (sm_data mac 29 m)) with (replicate 4 0 ++ [0x63; 0x82; 0x53; 0x63]).
  unfold dhcp_bytes. rewrite <- !app_assoc. reflexivity.
Qed.

Lemma length_dhcp_bytes mac m : dq_type m = DISCOVER \/ dq_type m = REQUEST -> length (dhcp_bytes mac m) = 300%nat.
Proof. destruct m. cbn. by intros [-> | ->]. Qed.

(** The identifier and the address of the client are sent as they are, and the lengths
    are those of the message. *)
Theorem dhcp_message_layout mac m :
  dq_type m = DISCOVER \/ dq_type m = REQUEST ->
  exists o, runs (send_message mac) (smsg_init [m]) (mk_smsg 0 m []) o /\
    packet 8 (sm_words o) (dhcp_bytes mac m) /\
    omap (fun x => match x with SmLength n => Some n | _ => None end) o = [Z.of_nat (length (dhcp_bytes mac m))] /\
    omap (fun x => match x with SmMeta u => Some u | _ => None end) o = [broadcast].
Proof.
  intros Hty. set (ds := sm_first m :: map (fun i => sm_data mac i m) (seqZ 1 36)).
  assert (packet 8 (map full ds ++ [mk_axis 0 (Z.ones 4) true]) (concat (map (le_bytes 8) ds) ++ [0; 0; 0; 0])) as Hp.
  { apply full_packet. apply (packet_last 8 0 4). lia. }
  assert (concat (map (le_bytes 8) ds) ++ [0; 0; 0; 0] = dhcp_bytes mac m) as E by by apply message_bytes.
  destruct (sent_parts mac m) as (Ew & El & Em). pose proof (send_words mac m 36 1 ltac:(lia) eq_refl) as Hr. change (Z.of_nat 36) with 36 in Hr.
  eexists. split; [|split; [|split]].
  - eapply runs_step; [reflexivity|]. eapply runs_trans; [exact Hr|]. apply runs_one. reflexivity.
  - rewrite <- E. unfold sm_words in *. rewrite !omap_app, Ew. exact Hp.
  - rewrite !omap_app, El, length_dhcp_bytes by done. done.
  - rewrite !omap_app, Em. done.
Qed.

Lemma dhcp_message_layout_witness :
  exists o, runs (send_message 0x665544332211) (smsg_init [mk_dhcpRequest 0x01020304 REQUEST 0x0A01A8C0])
      (mk_smsg 0 (mk_dhcpRequest 0x01020304 REQUEST 0x0A01A8C0) []) o /\
    packet 8 (sm_words o)
      ([1; 1; 6; 0; 4; 3; 2; 1; 0; 0; 0x80; 0] ++ replicate 16 0 ++ [0x11; 0x22; 0x33; 0x44; 0x55; 0x66] ++ replicate 202 0 ++
       [0x63; 0x82; 0x53; 0x63; 53; 1; 3; 50; 4; 192; 168; 1; 10] ++ replicate 51 0).
Proof.
  destruct (dhcp_message_layout 0x665544332211 (mk_dhcpRequest 0x01020304 REQUEST 0x0A01A8C0)) as (o & Hr & Hp & _); [by right|].
  exists o. split; [exact Hr | exact Hp].
Defined.

(** Words are counted with six bits: a reply of more than 512 bytes is read again from
    its beginning, and lost. *)
Definition long_reply (words : nat) : list net_axis :=
  full 0x0000000700060102 :: full 0 :: full 0x0101A8C00A01A8C0 :: full (Z.shiftl 0x44332211 32) :: full 0x6655 ::
  replicate 24 (full 0) ++ [full (Z.shiftl MAGIC_COOKIE 32); full 0x020135] ++ replicate (words - 32) (full 0) ++ [mk_axis 0 0xff true].

Example reply_received : snd (calls (receive_message 0x665544332211) 64 (rmsg_init [] (long_reply 64))) = [mk_dhcpReply 7 0x0A01A8C0 0x0101A8C0 OFFER].
Proof. vm_compute. reflexivity. Qed.

Example long_reply_lost : snd (calls (receive_message 0x665544332211) 65 (rmsg_init [] (long_reply 65))) = [].
Proof. vm_compute. reflexivity. Qed.

(** A port that is refused counts as open. *)
Example refused_port_open : snd (calls (open_dhcp_port false) 102 (odp_init false [false])) = [OpenPort 68; PortOpen].
Proof. vm_compute. reflexivity. Qed.
