(* ===== verification/TcpSegment.v ===== *)
(** The header of a TCP segment: the fields [pseudoHeaderConstructionNew] (in
    TxEngine) writes are those [processPseudoHeader] (in RxEngine) reads, and with
    its checksum in its field the segment has the checksum zero. *)
From stdpp Require Import base numbers list strings.
From Stdlib Require Import ZArith Lia.
From S2P Require Import Prelude ToeTypes Axi Streams StreamsFacts Wire Ipv4 Ipv4Facts TcpHeader RxFsm RxEngine TxEngine TcpChecksum.

Local Open Scope Z_scope.

(** ** Fields *)

Definition with_tcp_checksum (v c : Z) : Z := set_bits v 224 16 (reverse 2 c).

Lemma flag_field (h lo : Z) (b : bool) : 0 <= lo -> Z.testbit (set_bits h lo 1 (Z.b2z b)) lo = b.
Proof.
  intros. rewrite set_bits_testbit, Z.sub_diag by lia.
  rewrite (proj2 (Z.leb_le lo lo)), (proj2 (Z.ltb_lt lo (lo + 1))) by lia. by destruct b.
Qed.

Lemma flag_other (h lo w v i : Z) : 0 <= lo -> 0 <= w -> 0 <= i -> i < lo \/ lo + w <= i -> Z.testbit (set_bits h lo w v) i = Z.testbit h i.
Proof.
  intros. rewrite set_bits_testbit by lia. destruct (Z.leb_spec lo i), (Z.ltb_spec i (lo + w)); done || lia.
Qed.

(** The values of the fields fit. *)
Record meta_fits (m : tx_engine_meta) (t : fourTuple) : Prop := {
  seq_fits : fits 32 (tm_seqNumb m); ack_fits : fits 32 (tm_ackNumb m); window_fits : fits 16 (tm_window_size m);
  length_fits : 0 <= tm_length m < 2 ^ 16 - 40;
  srcIp_fits : fits 32 (srcIp t); dstIp_fits : fits 32 (dstIp t); srcPort_fits : fits 16 (srcPort t); dstPort_fits : fits 16 (dstPort t) }.

Section fields.
Context `{cfg : ToeConfig} (m : tx_engine_meta) (t : fourTuple).
Hypothesis ok : meta_fits m t.

Abbreviation header := (tcp_fill (h_header tcpFullPseudoHeader) m t).

Lemma full_header_fits : fits 256 (h_header tcpFullPseudoHeader).
Proof. cbn [h_header tcpFullPseudoHeader]. repeat (apply set_bits_fits; [lia..|]). done. Qed.

Lemma data_offset_range : 5 <= data_offset m <= 7.
Proof. unfold data_offset. destruct (tm_syn m); [destruct (WINDOW_SCALE && negb (tm_win_shift m =? 0))|]; lia. Qed.

Lemma header_fits : fits 256 header.
Proof.
  pose proof full_header_fits as H0. revert H0. generalize (h_header tcpFullPseudoHeader). intros v0 H0.
  unfold tcp_fill, tfh_setChecksum, tfh_setWindowSize, tfh_setAckFlag, tfh_setRstFlag, tfh_setSynFlag, tfh_setFinFlag, tfh_setDataOffset,
    tfh_setAckNumb, tfh_setSeqNumb, tfh_setDstPort, tfh_setSrcPort, tfh_setLength, tfh_setDstAddr, tfh_setSrcAddr.
  repeat (apply set_bits_fits; [lia..|]). exact H0.
Qed.

(** What the receiver reads, with any checksum in its field. *)
Lemma header_fields c :
  let v := with_tcp_checksum header c in
  tfh_getSrcAddr v = srcIp t /\ tfh_getDstAddr v = dstIp t /\ tfh_getSrcPort v = srcPort t /\ tfh_getDstPort v = dstPort t /\
  tfh_getSeqNumb v = tm_seqNumb m /\ tfh_getAckNumb v = tm_ackNumb m /\ tfh_getWindowSize v = tm_window_size m /\
  tfh_getLength v = tm_length m + 20 /\ tfh_getDataOffset v = data_offset m.
Proof.
  destruct ok. pose proof data_offset_range as Ho. assert (u16 (tm_length m + 0x14) = tm_length m + 20) as Hl by (apply wrap_small; unfold fits; lia).
  unfold with_tcp_checksum, tcp_fill, tfh_setChecksum, tfh_setWindowSize, tfh_setAckFlag, tfh_setRstFlag, tfh_setSynFlag, tfh_setFinFlag,
    tfh_setDataOffset, tfh_setAckNumb, tfh_setSeqNumb, tfh_setDstPort, tfh_setSrcPort, tfh_setLength, tfh_setDstAddr, tfh_setSrcAddr,
    tfh_getSrcAddr, tfh_getDstAddr, tfh_getSrcPort, tfh_getDstPort, tfh_getSeqNumb, tfh_getAckNumb, tfh_getWindowSize, tfh_getLength,
    tfh_getDataOffset.
  split_and!; rewrite !bits_set_bits_ne by lia.
  1-4: rewrite bits_set_bits_eq by lia; by apply wrap_small.
  - by apply (bytes_field 4).
  - by apply (bytes_field 4).
  - by apply bytes_field2.
  - rewrite Hl. apply bytes_field2; [lia | unfold fits; lia].
  - rewrite bits_set_bits_eq by lia. apply wrap_small. unfold fits. lia.
Qed.

Lemma header_flags c :
  let v := with_tcp_checksum header c in
  tfh_getAckFlag v = tm_ack m /\ tfh_getRstFlag v = tm_rst m /\ tfh_getSynFlag v = tm_syn m /\ tfh_getFinFlag v = tm_fin m.
Proof.
  unfold with_tcp_checksum, tcp_fill, tfh_setChecksum, tfh_setWindowSize, tfh_setAckFlag, tfh_setRstFlag, tfh_setSynFlag, tfh_setFinFlag,
    tfh_getAckFlag, tfh_getRstFlag, tfh_getSynFlag, tfh_getFinFlag.
  split_and!; repeat (rewrite flag_other by lia); by rewrite flag_field by lia.
Qed.
End fields.

(** ** The pseudo header *)

Lemma pseudo_bytes (x : Z) :
  le_bytes 12 x = le_bytes 4 (bits x 0 32) ++ le_bytes 4 (bits x 32 32) ++ le_bytes 1 (bits x 64 8) ++ le_bytes 1 (bits x 72 8) ++
    le_bytes 2 (bits x 80 16).
Proof.
  rewrite !le_bytes_bits, Z.shiftr_0_r by lia.
  rewrite (le_bytes_app 4 8 x : le_bytes 12 x = _), (le_bytes_app 4 4 _ : le_bytes 8 _ = _), (le_bytes_app 1 3 _ : le_bytes 4 (Z.shiftr _ _) = _),
    (le_bytes_app 1 2 _ : le_bytes 3 _ = _), !Z.shiftr_shiftr by lia. done.
Qed.

Lemma pseudo_fill_bytes `{cfg : ToeConfig} (v0 v1 : Z) (m : tx_engine_meta) (t : fourTuple) c :
  meta_fits m t -> bits v0 64 8 = bits v1 64 8 -> bits v0 72 8 = bits v1 72 8 ->
  le_bytes 12 (pseudo_fill v0 (mk_pseudoMeta (srcIp t) (dstIp t) (tm_length m + 20))) =
    le_bytes 12 (with_tcp_checksum (tcp_fill v1 m t) c).
Proof.
  intros [] H8 H6. assert (u16 (tm_length m + 0x14) = tm_length m + 20) as Hl by (apply wrap_small; unfold fits; lia).
  unfold pseudo_fill, tph_setLength, tph_setDstAddr, tph_setSrcAddr, with_tcp_checksum, tcp_fill, tfh_setChecksum, tfh_setWindowSize,
    tfh_setAckFlag, tfh_setRstFlag, tfh_setSynFlag, tfh_setFinFlag, tfh_setDataOffset, tfh_setAckNumb, tfh_setSeqNumb, tfh_setDstPort,
    tfh_setSrcPort, tfh_setLength, tfh_setDstAddr, tfh_setSrcAddr.
  cbn [ps_their_address ps_our_address ps_length]. rewrite Hl, !pseudo_bytes.
  f_equal; [|f_equal; [|f_equal; [|f_equal]]].
  - by rewrite !bits_set_bits_ne, bits_set_bits_eq, !bits_set_bits_ne, bits_set_bits_eq by lia.
  - by rewrite !bits_set_bits_ne, bits_set_bits_eq, !bits_set_bits_ne, bits_set_bits_eq by lia.
  - by rewrite !bits_set_bits_ne, H8 by lia.
  - by rewrite !bits_set_bits_ne, H6 by lia.
  - by rewrite bits_set_bits_eq, !bits_set_bits_ne, bits_set_bits_eq by lia.
Qed.

(** The pseudo header the receiver makes of the IP header is the front of the
    one the sender computed the checksum over. *)
Lemma pseudo_header `{cfg : ToeConfig} (m : tx_engine_meta) (t : fourTuple) c :
  meta_fits m t ->
  le_bytes 12 (pseudo_fill (h_header tcpPseudoHeader) (mk_pseudoMeta (srcIp t) (dstIp t) (tm_length m + 20))) =
    le_bytes 12 (with_tcp_checksum (tcp_fill (h_header tcpFullPseudoHeader) m t) c).
Proof. intros ok. apply pseudo_fill_bytes; [done | by vm_compute..]. Qed.

(** ** The checksum *)

Lemma sum_field (k : nat) c l1 l2 :
  fits 16 c -> length l1 = (2 * k)%nat ->
  sumZ (words_be (l1 ++ le_bytes 2 (reverse 2 c) ++ l2)) = sumZ (words_be (l1 ++ [0; 0] ++ l2)) + c.
Proof.
  intros Hc Hl. rewrite !(words_be_front k l1) by done. rewrite !(words_be_front 1 _ l2) by (done || by rewrite length_le_bytes).
  rewrite words_be_field, !sumZ_app by done. cbn [words_be sumZ]. lia.
Qed.

(** With its checksum where zeros were the whole has the checksum zero. *)
Lemma field_valid (k : nat) l1 l2 :
  Forall (fits 8) l1 -> Forall (fits 8) l2 -> length l1 = (2 * k)%nat ->
  internet_checksum (l1 ++ le_bytes 2 (reverse 2 (internet_checksum (l1 ++ [0; 0] ++ l2))) ++ l2) = 0.
Proof.
  intros H1 H2 Hl. set (S0 := sumZ (words_be (l1 ++ [0; 0] ++ l2))).
  assert (0 <= S0) as Hpos.
  { apply sumZ_nonneg, words_be_fits. rewrite !Forall_app. split; [done|]. split; [by repeat constructor | done]. }
  pose proof (oc_range S0 Hpos). unfold internet_checksum at 2. fold S0. unfold internet_checksum.
  rewrite (sum_field k) by (try (unfold fits); lia). fold S0.
  rewrite <- oc_add_l by lia. replace (oc S0 + (65535 - oc S0)) with 65535 by lia. reflexivity.
Qed.

Lemma checksum_bytes v c :
  le_bytes 32 (with_tcp_checksum v c) = take 28 (le_bytes 32 v) ++ le_bytes 2 (reverse 2 c) ++ drop 30 (le_bytes 32 v).
Proof. unfold with_tcp_checksum. change 224 with (8 * Z.of_nat 28). change 16 with (8 * Z.of_nat 2). apply (le_bytes_set_at 32 28 2). lia. Qed.

(** A header that is still without its checksum. *)
Lemma header_blank `{cfg : ToeConfig} v0 m t :
  let v := tcp_fill v0 m t in le_bytes 32 v = take 28 (le_bytes 32 v) ++ [0; 0] ++ drop 30 (le_bytes 32 v).
Proof.
  intros v. assert (v = with_tcp_checksum v 0) as Hv.
  { unfold v, tcp_fill, tfh_setChecksum, with_tcp_checksum. apply Z.bits_inj'. intros i Hi.
    rewrite !set_bits_testbit by lia. by destruct ((224 <=? i) && (i <? 224 + 16)). }
  rewrite Hv at 1. by rewrite checksum_bytes.
Qed.

Lemma segment_valid `{cfg : ToeConfig} v0 m t body :
  Forall (fits 8) body ->
  let v := tcp_fill v0 m t in
  internet_checksum (le_bytes 32 (with_tcp_checksum v (internet_checksum (le_bytes 32 v ++ body))) ++ body) = 0.
Proof.
  intros Hb v. rewrite checksum_bytes, <- !app_assoc.
  pose proof (header_blank v0 m t) as Hv. fold v in Hv. cbn zeta in Hv. rewrite Hv at 2. rewrite <- !app_assoc.
  apply (field_valid 14).
  - apply Forall_take, le_bytes_fits.
  - apply Forall_app. split; [apply Forall_drop, le_bytes_fits | done].
  - by rewrite length_take, length_le_bytes.
Qed.
