(* ===== verification/AppRx.v ===== *)
(** The receiving side of the application's interface: [rx_app_if], the requests
    for received data ([rx_app_stream_if]), and the processes of [toe.cpp] that
    read this data from memory. *)
From stdpp Require Import base numbers list strings.
From Stdlib Require Import ZArith Lia.
From S2P Require Import Prelude ToeTypes Axi Streams RxFsm.

Local Open Scope Z_scope.

(** ** [rx_app_if]: passive opening *)

Record rai : Type := mk_rai { rai_wait : bool; appListenPortReq : list Z; portTable2rxApp_listen_rsp : list bool }.

Inductive rai_out : Type :=
| RaiListen (port : Z)    (* rxApp2portTable_listen_req *)
| RaiRsp (ok : bool).     (* appListenPortRsp *)

Definition rx_app_if (s : rai) : rai * list rai_out :=
  match s with
  | mk_rai false (port :: ports) rsps => (mk_rai true ports rsps, [RaiListen port])
  | mk_rai true ports (ok :: rsps) => (mk_rai false ports rsps, [RaiRsp ok])
  | _ => (s, [])
  end.

(** ** [rx_app_stream_if]: requests for received data *)

Record appReadRequest : Type := mk_appReadRequest { ard_sessionID : Z; ard_length : Z }.

Definition rxSarAppd_read (id : Z) : rxSarAppd := mk_rxSarAppd (u16 id) 0 false.

(** [rasi_busy] is [rasi_fsmState]. *)
Record rasi : Type := mk_rasi {
  rasi_busy : bool; rasi_readLength : Z; appRxDataReq : list appReadRequest; rxSar2rxApp_upd_rsp : list rxSarAppd }.

Inductive rasi_out : Type :=
| RasiSar (q : rxSarAppd)       (* rxApp2rxSar_upd_req *)
| RasiMeta (id : Z)             (* appRxDataRspMetadata *)
| RasiCmd (c : mmCmd)           (* rxBufferReadCmd *)
| RasiToken.                    (* the same without memory *)

Definition rx_app_stream_if `{cfg : ToeConfig} (s : rasi) : rasi * list rasi_out :=
  match s with
  | mk_rasi false len (r :: reqs) rsps =>
      if ard_length r =? 0 then (mk_rasi false len reqs rsps, [])
      else (mk_rasi true (ard_length r) reqs rsps, [RasiSar (rxSarAppd_read (ard_sessionID r))])
  | mk_rasi true len reqs (rsp :: rsps) =>
      let id := ra_sessionID rsp in
      (mk_rasi false len reqs rsps,
       [RasiMeta id; if RX_DDR_BYPASS then RasiToken else RasiCmd (mmCmd_new (pkgAddr id (ra_appd rsp)) len);
        RasiSar (rxSarAppd_pt id (ra_appd rsp + len))])
  | _ => (s, [])
  end.

(** ** [rxAppMemAccessBreakdown] *)

Record rab : Type := mk_rab { rxAppBreakdown : bool; rxAppTempCmd : mmCmd; rxAppAccLength : Z; rab_inputMemAccess : list mmCmd }.

Inductive rab_out : Type :=
| RabCmd (c : mmCmd)            (* outputMemAccess *)
| RabDouble (b : bool).         (* rxAppDoubleAccess *)

(** The boundary is 64 KiB, whatever the size of the buffers. *)
Definition rxAppMemAccessBreakdown (s : rab) : rab * list rab_out :=
  match s with
  | mk_rab false _ acc (c :: cmds) =>
      if 65536 <? bits (mc_saddr c) 0 16 + mc_bbt c then
        let acc' := u16 (65536 - mc_saddr c) in
        (mk_rab true c acc' cmds, [RabCmd (mmCmd_new (mc_saddr c) acc'); RabDouble true])
      else (mk_rab false c acc cmds, [RabCmd c; RabDouble false])
  | mk_rab true c acc cmds =>
      let c' := mk_mmCmd (mc_bbt c) (set_bits (mc_saddr c) 0 16 0) in
      let acc' := u16 (mc_bbt c - acc) in
      (mk_rab false c' acc' cmds, [RabCmd (mmCmd_new (mc_saddr c') acc')])
  | _ => (s, [])
  end.

(** ** [rxAppMemDataRead]

    Without memory the data waits in a FIFO and a token lets one packet pass. *)

Record ramdr : Type := mk_ramdr { ramdr_fsmState : bool; ramdr_tokens : list unit; ramdr_data : list net_axis }.

Definition rxAppMemDataRead_bypass (s : ramdr) : ramdr * list net_axis :=
  match s with
  | mk_ramdr false (_ :: ts) ws => (mk_ramdr true ts ws, [])
  | mk_ramdr true ts (w :: ws) => (mk_ramdr (negb (a_last w)) ts ws, [w])
  | _ => (s, [])
  end.

(** With memory the two parts of a packet that was wrapped around are joined.
    The model is that of words of 64 bits: for wider words the bounds
    [8 - offset] of the ranges become negative. *)

Inductive ramdState : Type :=
| RXAPP_IDLE | RXAPP_STREAM | RXAPP_JOIN | RXAPP_STREAMMERGED | RXAPP_STREAMUNMERGED | RXAPP_RESIDUE.

Record ramd : Type := mk_ramd {
  rxAppState : ramdState; rxAppMemRdRxWord : net_axis; rxAppDoubleAccessFlag : bool; rxAppMemRdOffset : Z; rxAppOffsetBuffer : Z;
  ramd_double : list bool; ramd_data : list net_axis }.

Definition ramd_init (dbl : list bool) (ws : list net_axis) : ramd :=
  mk_ramd RXAPP_IDLE (mk_axis 0 0 false) false 0 0 dbl ws.

(** A word of the first access in state [st]. *)
Definition ramd_word (st : ramdState) (dbl : bool) (w : net_axis) (buffer : Z) dbls ws : ramd * list net_axis :=
  let o := wrap 8 (keepToLen (a_keep w)) in
  if a_last w then
    if dbl then
      let w' := mk_axis (a_data w) (a_keep w) false in
      if o =? 8 then (mk_ramd RXAPP_STREAMUNMERGED w' dbl o buffer dbls ws, [w'])
      else (mk_ramd (if o <? 8 then RXAPP_JOIN else st) w' dbl o buffer dbls ws, [])
    else (mk_ramd RXAPP_IDLE w dbl o buffer dbls ws, [w])
  else (mk_ramd RXAPP_STREAM w dbl o buffer dbls ws, [w]).

(** [low]: what is left of the word before, the lower bytes of the new word. *)
Definition ramd_join (low : Z) (o : Z) (c : net_axis) dbl dbls ws : ramd * list net_axis :=
  let d := set_bits (set_bits 0 0 (8 * o) low) (8 * o) (64 - 8 * o) (bits (a_data c) 0 (8 * (8 - o))) in
  let n := wrap 8 (keepToLen (a_keep c)) in
  let buffer := wrap 8 (n - (8 - o)) in
  if a_last c then
    if n + o <=? 8 then
      (mk_ramd RXAPP_IDLE c dbl o buffer dbls ws, [mk_axis d (wrap 8 (lenToKeep (wrap 6 (n + o)))) true])
    else (mk_ramd RXAPP_RESIDUE c dbl o buffer dbls ws, [mk_axis d 0xFF false])
  else (mk_ramd RXAPP_STREAMMERGED c dbl o buffer dbls ws, [mk_axis d 0xFF false]).

Definition rxAppMemDataRead_64 (s : ramd) : ramd * list net_axis :=
  let '(mk_ramd st p dbl o buffer dbls ws) := s in
  match st, ws with
  | RXAPP_IDLE, w :: ws' =>
      match dbls with d :: dbls' => ramd_word st d w buffer dbls' ws' | [] => (s, []) end
  | RXAPP_STREAM, w :: ws' => ramd_word st dbl w buffer dbls ws'
  | RXAPP_STREAMUNMERGED, w :: ws' =>
      (mk_ramd (if a_last w then RXAPP_IDLE else RXAPP_STREAMUNMERGED) p dbl o buffer dbls ws', [w])
  | RXAPP_JOIN, c :: ws' => ramd_join (bits (a_data p) 0 (8 * o)) o c dbl dbls ws'
  | RXAPP_STREAMMERGED, c :: ws' => ramd_join (bits (a_data p) (8 * (8 - o)) (8 * o)) o c dbl dbls ws'
  | RXAPP_RESIDUE, _ =>
      let d := set_bits 0 0 (8 * o) (bits (a_data p) (8 * (8 - o)) (8 * o)) in
      (mk_ramd RXAPP_IDLE p dbl o buffer dbls ws, [mk_axis d (wrap 8 (lenToKeep (wrap 6 buffer))) true])
  | _, [] => (s, [])
  end.
