(* ===== verification/AppTx.v ===== *)
(** The sending side of the application's interface: opening and closing of
    connections ([tx_app_if]), the requests to send ([tx_app_stream_if]), and the
    processes of [tx_app_interface] between them and the rest of the engine. *)
From stdpp Require Import base numbers list gmap strings.
From Stdlib Require Import ZArith Lia.
From S2P Require Import Prelude ToeTypes Axi Streams RxFsm RxEngine SessionLookup.

Local Open Scope Z_scope.

(** ** [tx_app_if] *)

Record ipTuple : Type := mk_ipTuple { it_address : Z; it_port : Z }.

(** [tai_closing] is [tai_fsmState]. *)
Record tai : Type := mk_tai {
  tai_closing : bool; tai_closeSessionID : Z;
  appOpenConnReq : list ipTuple; closeConnReq : list Z; sLookup2txApp_rsp : list sessionLookupReply;
  portTable2txApp_port_rsp : list Z; stateTable2txApp_upd_rsp : list sessionState; conEstablishedIn : list openStatus;
  rtTimer2txApp_notification : list openStatus }.

Inductive tai_out : Type :=
| TaiOpen (s : openStatus)       (* appOpenConnRsp *)
| TaiLookup (t : fourTuple)      (* txApp2sLookup_req *)
| TaiState (q : stateQuery)      (* txApp2stateTable_upd_req *)
| TaiEvent (e : event).          (* txApp2eventEng_setEvent *)

Section tx_app_if.
Context (myIpAddress : Z).

(** The lookup for a new connection, as soon as there is a port. *)
Definition tai_connect (reqs : list ipTuple) (ports : list Z) : list ipTuple * list Z * list tai_out :=
  match reqs, ports with
  | a :: reqs', p :: ports' =>
      (reqs', ports', [TaiLookup (mk_fourTuple myIpAddress (reverse 4 (it_address a)) (reverse 2 p) (reverse 2 (it_port a)))])
  | _, _ => (reqs, ports, [])
  end.

(** A session that may send its FIN. *)
Definition closable (st : sessionState) : bool :=
  match st with ESTABLISHED | FIN_WAIT_2 | FIN_WAIT_1 => true | _ => false end.

(** The other states only give the lock back. *)
Definition tai_close (id : Z) (st : sessionState) : list tai_out :=
  if closable st then [TaiState (mk_stateQuery id FIN_WAIT_1 true); TaiEvent (event_id FIN id)]
  else [TaiState (mk_stateQuery id st true)].

Definition tai_opened (r : sessionLookupReply) : list tai_out :=
  if sl_hit r then
    [TaiEvent (event_id SYN (sl_sessionID r)); TaiState (mk_stateQuery (sl_sessionID r) SYN_SENT true)]
  else [TaiOpen (openStatus_id 0 0)].

Definition tx_app_if (s : tai) : tai * list tai_out :=
  let '(mk_tai closing id reqs closes lookups ports states est rt) := s in
  let '(reqs, ports, o) := tai_connect reqs ports in
  if closing then
    match states with
    | st :: states' => (mk_tai false id reqs closes lookups ports states' est rt, o ++ tai_close id st)
    | [] => (mk_tai true id reqs closes lookups ports states est rt, o)
    end
  else
    match lookups, est, rt, closes with
    | r :: lookups', _, _, _ => (mk_tai false id reqs closes lookups' ports states est rt, o ++ tai_opened r)
    | [], x :: est', _, _ => (mk_tai false id reqs closes lookups ports states est' rt, o ++ [TaiOpen x])
    | [], [], x :: rt', _ => (mk_tai false id reqs closes lookups ports states est rt', o ++ [TaiOpen x])
    | [], [], [], c :: closes' =>
        (mk_tai true c reqs closes' lookups ports states est rt, o ++ [TaiState (stateQuery_read c)])
    | [], [], [], [] => (mk_tai false id reqs closes lookups ports states est rt, o)
    end.
End tx_app_if.

(** ** Data of the requests to send *)

Record appTxMeta : Type := mk_appTxMeta { atm_sessionID : Z; atm_length : Z }.
Record appTxRsp : Type := mk_appTxRsp { atr_sessionID : Z; atr_length : Z; atr_remaining_space : Z; atr_error : Z }.
Definition appTxRsp_new (id len space err : Z) : appTxRsp := mk_appTxRsp (u16 id) (u16 len) (wrap 30 space) (wrap 2 err).

Definition NO_ERROR : Z := 0.
Definition ERROR_NOCONNCECTION : Z := 1.
Definition ERROR_NOSPACE : Z := 2.

Record txAppTxSarQuery : Type := mk_txAppTxSarQuery { aq_sessionID : Z; aq_mempt : Z; aq_write : bool }.
Record txAppTxSarReply : Type := mk_txAppTxSarReply { ay_sessionID : Z; ay_ackd : Z; ay_mempt : Z; ay_min_window : Z }.
(** [et_min_window] exists only with [TCP_NODELAY]. *)
Record txAppTableEntry : Type := mk_txAppTableEntry { et_ackd : Z; et_mempt : Z; et_min_window : Z }.

Definition txAppTableEntry_zero : txAppTableEntry := mk_txAppTableEntry 0 0 0.

Section tx_app_interface.
Context `{cfg : ToeConfig}.

Definition txAppTxSarQuery_read (id : Z) : txAppTxSarQuery := mk_txAppTxSarQuery (u16 id) 0 false.
Definition txAppTxSarQuery_write (id pt : Z) : txAppTxSarQuery := mk_txAppTxSarQuery (u16 id) (wrap WINDOW_BITS pt) true.
Definition txAppTxSarPush_new (id app : Z) : txAppTxSarPush := mk_txAppTxSarPush (u16 id) (wrap WINDOW_BITS app).
Definition event_tx (t : eventType) (id addr len : Z) : event := mk_event t (u16 id) (wrap WINDOW_BITS addr) (u16 len) 0.

(** Without [TCP_NODELAY] the constructor takes 16 bits of each pointer. *)
Definition txAppTxSarReply_new (id ackd pt min_window : Z) : txAppTxSarReply :=
  if TCP_NODELAY then mk_txAppTxSarReply (u16 id) ackd pt min_window else mk_txAppTxSarReply (u16 id) (u16 ackd) (u16 pt) 0.

(** ** [tx_app_table]: what the application may write *)

Record txapp : Type := mk_txapp {
  app_table : gmap Z txAppTableEntry; txSar2txApp_ack_push : list txSarAckPush; txApp_upd_req : list txAppTxSarQuery }.

Definition app_entry (t : gmap Z txAppTableEntry) (id : Z) : txAppTableEntry := entry txAppTableEntry_zero t id.

Definition app_acked (p : txSarAckPush) (e : txAppTableEntry) : txAppTableEntry :=
  let w := if TCP_NODELAY then ak_min_window p else et_min_window e in
  if ak_init p then mk_txAppTableEntry (wrap WINDOW_BITS (ak_ackd p - 1)) (ak_ackd p) w
  else mk_txAppTableEntry (ak_ackd p) (et_mempt e) w.

Definition tx_app_table (s : txapp) : step_result (txapp * list txAppTxSarReply) :=
  let '(mk_txapp t acks reqs) := s in
  match acks, reqs with
  | p :: acks', _ =>
      let id := ak_sessionID p in
      at_index id (Next (mk_txapp (<[id := app_acked p (app_entry t id)]> t) acks' reqs, []))
  | [], q :: reqs' =>
      let id := aq_sessionID q in
      let e := app_entry t id in
      at_index id (Next (
        if aq_write q then
          (mk_txapp (<[id := mk_txAppTableEntry (et_ackd e) (aq_mempt q) (et_min_window e)]> t) acks reqs', [])
        else (mk_txapp t acks reqs', [txAppTxSarReply_new id (et_ackd e) (et_mempt e) (et_min_window e)])))
  | [], [] => Next (s, [])
  end.

(** ** [tasi_metaLoader] *)

(** [tasi_wait] is [tai_state]. *)
Record tasi : Type := mk_tasi {
  tasi_wait : bool; tasi_writeMeta : appTxMeta;
  appTxDataReqMetaData : list appTxMeta; stateTable2txApp_rsp : list sessionState; txSar2txApp_upd_rsp : list txAppTxSarReply }.

Inductive tasi_out : Type :=
| TasiRsp (r : appTxRsp)            (* appTxDataRsp *)
| TasiState (id : Z)                (* txApp2stateTable_req *)
| TasiSar (q : txAppTxSarQuery)     (* txApp2txSar_upd_req *)
| TasiCmd (c : mmCmd)               (* tasi_meta2pkgPushCmd *)
| TasiEvent (e : event).            (* txAppStream2eventEng_setEvent *)

Definition max_write_length (r : txAppTxSarReply) : Z := wrap WINDOW_BITS (ay_ackd r - ay_mempt r - 1).

(** What the congestion and the receive window leave; exists with [TCP_NODELAY]. *)
Definition app_usable_window (r : txAppTxSarReply) : Z :=
  let used := wrap WINDOW_BITS (ay_mempt r - ay_ackd r) in
  if used <? ay_min_window r then wrap WINDOW_BITS (ay_min_window r - used) else 0.

Definition no_space (len : Z) (r : txAppTxSarReply) : bool :=
  (max_write_length r <? len) || (TCP_NODELAY && (app_usable_window r <? len)).

Definition tasi_answer (m : appTxMeta) (st : sessionState) (r : txAppTxSarReply) : list tasi_out :=
  let id := atm_sessionID m in
  let len := atm_length m in
  if negb (bool_decide (st = ESTABLISHED)) then [TasiRsp (appTxRsp_new id len (max_write_length r) ERROR_NOCONNCECTION)]
  else if no_space len r then
    [TasiRsp (appTxRsp_new id len (if TCP_NODELAY then app_usable_window r else max_write_length r) ERROR_NOSPACE)]
  else
    [TasiCmd (mmCmd_new (pkgAddr id (ay_mempt r)) len);
     TasiRsp (appTxRsp_new id len (max_write_length r) NO_ERROR);
     TasiEvent (event_tx TX id (ay_mempt r) len);
     TasiSar (txAppTxSarQuery_write id (ay_mempt r + len))].

Definition tasi_metaLoader (s : tasi) : tasi * list tasi_out :=
  match s with
  | mk_tasi false _ (m :: reqs) sts rsps =>
      (mk_tasi true m reqs sts rsps, [TasiState (atm_sessionID m); TasiSar (txAppTxSarQuery_read (atm_sessionID m))])
  | mk_tasi true m reqs (st :: sts) (r :: rsps) => (mk_tasi false m reqs sts rsps, tasi_answer m st r)
  | _ => (s, [])
  end.

(** ** [tasi_pkg_pusher]

    The state machine is that of [rxEngMemWrite], without the news of double
    accesses; [empty] is the word [emptyWord], which is never assigned. *)

Inductive tpp_out : Type :=
| TppCmd (c : mmCmd)                (* txBufferWriteCmd *)
| TppWord (w : net_axis).           (* txBufferWriteData *)

Definition tasi_pkg_pusher (W DATA_KEEP_BITS : Z) (empty : net_axis) (s : rmw) : rmw * list tpp_out :=
  let '(mk_rmw st cmd rem first off prev cmds input) := s in
  match st with
  | RMW_IDLE =>
      match cmds with
      | c :: cmds' => (mk_rmw IDLE_REG c rem first off prev cmds' input, [])
      | [] => (s, [])
      end
  | IDLE_REG =>
      if BUFFER_SIZE <? bits (mc_saddr cmd) 0 WINDOW_BITS + mc_bbt cmd then
        let first' := wrap WINDOW_BITS (BUFFER_SIZE - mc_saddr cmd) in
        (mk_rmw CUT_FIRST cmd first' first' (bits first' 0 DATA_KEEP_BITS) prev cmds input, [TppCmd (mmCmd_new (mc_saddr cmd) first')])
      else (mk_rmw FWD_ALIGNED cmd rem first off prev cmds input, [TppCmd cmd])
  | CUT_FIRST =>
      match input with
      | w :: input' =>
          if W / 8 <? rem then (mk_rmw CUT_FIRST cmd (rem - W / 8) first off w cmds input', [TppWord w])
          else if rem =? W / 8 then
            (mk_rmw FWD_ALIGNED (second_cmd cmd first) rem first off w cmds input',
             [TppCmd (second_cmd cmd first); TppWord (mk_axis (a_data w) (a_keep w) true)])
          else
            (mk_rmw (if a_last w then RESIDUE else ALIGN_SECOND) (second_cmd cmd first) rem first off w cmds input',
             [TppCmd (second_cmd cmd first); TppWord (mk_axis (a_data w) (wrap (W / 8) (lenToKeep (wrap 6 rem))) true)])
      | [] => (s, [])
      end
  | FWD_ALIGNED =>
      match input with
      | w :: input' => (mk_rmw (if a_last w then RMW_IDLE else FWD_ALIGNED) cmd rem first off prev cmds input', [TppWord w])
      | [] => (s, [])
      end
  | ALIGN_SECOND =>
      match input with
      | w :: input' =>
          let last := negb (Z.testbit (a_keep w) off) in
          (mk_rmw (if a_last w then if last then RMW_IDLE else RESIDUE else ALIGN_SECOND) cmd rem first off w cmds input',
           [TppWord (rshift_join W off prev w last)])
      | [] => (s, [])
      end
  | RESIDUE => (mk_rmw RMW_IDLE cmd rem first off prev cmds input, [TppWord (rshift_join W off prev empty true)])
  end.

(** ** [toe_duplicate_stream] *)

Definition toe_duplicate_stream {T : Type} (s : list T) : list T * (list T * list T) :=
  match s with x :: s' => (s', ([x], [x])) | [] => ([], ([], [])) end.

(** ** [txEventMerger] *)

Inductive tem_out : Type :=
| TemEvent (e : event)              (* out *)
| TemCache (e : event).             (* tasi_txEventCacheFifo *)

Definition txEventMerger (s : list event * list event) : (list event * list event) * list tem_out :=
  match s with
  | (e :: es, ds) => ((es, ds), [TemEvent e])
  | ([], e :: ds) =>
      (([], ds), TemEvent e :: if TCP_NODELAY && bool_decide (ev_type e = TX) then [TemCache e] else [])
  | ([], []) => (s, [])
  end.

(** ** [txAppStatusHandler] *)

Inductive tashState : Type := READ_EV | READ_STATUS_1 | READ_STATUS_2.

Record tash : Type := mk_tash { tash_state : tashState; tash_ev : event; txBufferWriteStatus : list mmStatus; tasi_eventCacheFifo : list event }.

Inductive tash_out : Type :=
| TashPush (p : txAppTxSarPush)     (* txApp2txSar_app_push *)
| TashEvent (e : event).            (* txAppStream2eventEng_setEvent, without TCP_NODELAY *)

(** The data of the event is in memory. *)
Definition tash_done (e : event) : list tash_out :=
  TashPush (txAppTxSarPush_new (ev_sessionID e) (ev_address e + ev_length e)) :: if TCP_NODELAY then [] else [TashEvent e].

Definition txAppStatusHandler (s : tash) : tash * list tash_out :=
  match s with
  | mk_tash READ_EV _ sts (e :: es) =>
      if bool_decide (ev_type e = TX) then (mk_tash READ_STATUS_1 e sts es, [])
      else (mk_tash READ_EV e sts es, if TCP_NODELAY then [] else [TashEvent e])
  | mk_tash READ_STATUS_1 e (st :: sts) es =>
      if ms_okay st then
        if BUFFER_SIZE <? u32 (ev_address e + ev_length e) then (mk_tash READ_STATUS_2 e sts es, [])
        else (mk_tash READ_EV e sts es, tash_done e)
      else (mk_tash READ_STATUS_1 e sts es, [])
  | mk_tash READ_STATUS_2 e (st :: sts) es =>
      if ms_okay st then (mk_tash READ_EV e sts es, tash_done e) else (mk_tash READ_STATUS_2 e sts es, [])
  | _ => (s, [])
  end.
End tx_app_interface.
