(* ===== verification/AppFacts.v ===== *)
(** The application's requests to send (AppTx): under every interleaving of the
    meta loader, the table of the write pointers, the application and the
    acknowledgements, no byte of the send buffer is written over before it has
    been acknowledged. *)
From stdpp Require Import base numbers list gmap strings.
From Stdlib Require Import ZArith Lia.
From S2P Require Import Prelude ToeTypes Axi Streams RxFsm SessionLookup AppTx.

Local Open Scope Z_scope.

(** The meta loader and the table with the FIFOs between them.  The lists hold
    what has left the pair; [ss_acked] counts the bytes the peer has acknowledged
    in the session that is looked at. *)
Record sendSys : Type := mk_sendSys {
  ss_loader : tasi; ss_table : txapp; ss_acked : Z;
  ss_cmds : list mmCmd; ss_rsps : list appTxRsp; ss_events : list event }.

Inductive send_label : Type :=
| SRequest (m : appTxMeta)           (* the application asks to send *)
| SState (st : sessionState)         (* the state table answers *)
| SAck (n w : Z)                     (* [n] more bytes are acknowledged *)
| SOther (p : txSarAckPush)          (* news of another session *)
| SLoader                            (* a call of tasi_metaLoader *)
| STable.                            (* a call of tx_app_table *)

Section send.
Context `{cfg : ToeConfig} (id isn : Z).

(** The bytes of the session that have been accepted, after the SYN. *)
Definition of_session (evs : list event) : list event := filter (fun e => ev_sessionID e = id) evs.
Definition accepted (evs : list event) : Z := foldr (fun e n => ev_length e + n) 0 (of_session evs).
Definition outstanding (s : sendSys) : Z := 1 + accepted (ss_events s) - ss_acked s.

Definition loader_reqs (o : list tasi_out) : list txAppTxSarQuery := omap (fun x => match x with TasiSar q => Some q | _ => None end) o.
Definition loader_cmds (o : list tasi_out) : list mmCmd := omap (fun x => match x with TasiCmd c => Some c | _ => None end) o.
Definition loader_rsps (o : list tasi_out) : list appTxRsp := omap (fun x => match x with TasiRsp r => Some r | _ => None end) o.
Definition loader_events (o : list tasi_out) : list event := omap (fun x => match x with TasiEvent e => Some e | _ => None end) o.

Definition push_ack (p : txSarAckPush) (t : txapp) : txapp :=
  mk_txapp (app_table t) (txSar2txApp_ack_push t ++ [p]) (txApp_upd_req t).

Definition send_step (l : send_label) (s : sendSys) : step_result sendSys :=
  let '(mk_sendSys ld t acked cmds rsps evs) := s in
  match l with
  | SRequest m =>
      Next (mk_sendSys (mk_tasi (tasi_wait ld) (tasi_writeMeta ld) (appTxDataReqMetaData ld ++ [m])
                          (stateTable2txApp_rsp ld) (txSar2txApp_upd_rsp ld)) t acked cmds rsps evs)
  | SState st =>
      Next (mk_sendSys (mk_tasi (tasi_wait ld) (tasi_writeMeta ld) (appTxDataReqMetaData ld)
                          (stateTable2txApp_rsp ld ++ [st]) (txSar2txApp_upd_rsp ld)) t acked cmds rsps evs)
  | SAck n w =>
      if (0 <=? n) && (n <=? outstanding s) then
        Next (mk_sendSys ld (push_ack (mk_txSarAckPush id (wrap WINDOW_BITS (isn + (acked + n))) w false) t) (acked + n) cmds rsps evs)
      else Blocked
  | SOther p => if ak_sessionID p =? id then Blocked else Next (mk_sendSys ld (push_ack p t) acked cmds rsps evs)
  | SLoader =>
      let '(ld', o) := tasi_metaLoader ld in
      Next (mk_sendSys ld' (mk_txapp (app_table t) (txSar2txApp_ack_push t) (txApp_upd_req t ++ loader_reqs o)) acked
              (cmds ++ loader_cmds o) (rsps ++ loader_rsps o) (evs ++ loader_events o))
  | STable =>
      match tx_app_table t with
      | Next (t', rs) =>
          Next (mk_sendSys (mk_tasi (tasi_wait ld) (tasi_writeMeta ld) (appTxDataReqMetaData ld)
                              (stateTable2txApp_rsp ld) (txSar2txApp_upd_rsp ld ++ rs)) t' acked cmds rsps evs)
      | Blocked => Blocked
      | StepUndef e => StepUndef e
      end
  end.

(** The connection has been opened with sequence number [isn]: the table has
    taken in the pointers that follow. *)
Definition send_start (t : gmap Z txAppTableEntry) (e : txAppTableEntry) (w : Z) : sendSys :=
  mk_sendSys (mk_tasi false (mk_appTxMeta 0 0) [] [] [])
    (mk_txapp (<[id := app_acked (mk_txSarAckPush id (wrap WINDOW_BITS (isn + 1)) w true) e]> t) [] []) 0 [] [] [].

(** Requests have fields of 16 bits. *)
Definition meta_ok (m : appTxMeta) : Prop := fits 16 (atm_sessionID m) /\ fits 16 (atm_length m).
Definition label_ok (l : send_label) : Prop := match l with SRequest m => meta_ok m | _ => True end.

(** Consecutive ranges of the buffer, from [a] on. *)
Fixpoint laid_out (a : Z) (evs : list event) : Prop :=
  match evs with
  | [] => True
  | e :: evs' => ev_address e = wrap WINDOW_BITS a /\ laid_out (a + ev_length e) evs'
  end.

(** Acknowledgements on their way to the table: from [a] up to [b] bytes. *)
Fixpoint on_the_way (a b : Z) (acks : list txSarAckPush) : Prop :=
  match acks with
  | [] => a = b
  | p :: acks' =>
      if ak_sessionID p =? id then
        ak_init p = false /\ exists a', a <= a' /\ ak_ackd p = wrap WINDOW_BITS (isn + a') /\ on_the_way a' b acks'
      else on_the_way a b acks'
  end.

Lemma on_the_way_le a b acks : on_the_way a b acks -> a <= b.
Proof.
  revert a. induction acks as [|p acks IH]; intros a; cbn [on_the_way]; [lia|].
  destruct (ak_sessionID p =? id); [|apply IH]. intros (_ & a' & Ha & _ & H). specialize (IH _ H). lia.
Qed.

Lemma on_the_way_app a b acks p :
  on_the_way a b acks -> forall c, on_the_way b c [p] -> on_the_way a c (acks ++ [p]).
Proof.
  revert a. induction acks as [|q acks IH]; intros a H c Hp; cbn [on_the_way app] in *; [by subst b|].
  destruct (ak_sessionID q =? id); [|by apply IH]. destruct H as (Hi & a' & Ha & Hq & H).
  split; [done|]. exists a'. split_and!; [done..|]. by apply IH.
Qed.

Lemma laid_out_app a evs e :
  laid_out a evs -> ev_address e = wrap WINDOW_BITS (a + foldr (fun e n => ev_length e + n) 0 evs) -> laid_out a (evs ++ [e]).
Proof.
  revert a. induction evs as [|x evs IH]; intros a H He; cbn [laid_out app foldr] in *; [by rewrite Z.add_0_r in He|].
  destruct H as [Hx H]. split; [done|]. apply IH; [done|]. rewrite He. f_equal. lia.
Qed.

Lemma accepted_event evs e :
  ev_sessionID e = id /\ accepted (evs ++ [e]) = accepted evs + ev_length e /\ of_session (evs ++ [e]) = of_session evs ++ [e] \/
  ev_sessionID e <> id /\ accepted (evs ++ [e]) = accepted evs /\ of_session (evs ++ [e]) = of_session evs.
Proof.
  assert (of_session (evs ++ [e]) = of_session evs ++ of_session [e]) as Happ by apply filter_app.
  unfold accepted. rewrite Happ.
  destruct (decide (ev_sessionID e = id)) as [He|He]; [left | right]; (split; [done|]).
  - assert (of_session [e] = [e]) as -> by (unfold of_session; by rewrite filter_cons_True by done).
    split; [|done]. generalize (of_session evs). induction l as [|x l IH]; cbn in *; lia.
  - assert (of_session [e] = []) as -> by (unfold of_session; by rewrite filter_cons_False by done).
    by rewrite app_nil_r.
Qed.

Lemma window_bits_nonneg : 0 <= WINDOW_BITS.
Proof. pose proof window_bits_range. lia. Qed.

Lemma pkgAddr_wrap i x : pkgAddr i (wrap WINDOW_BITS x) = pkgAddr i x.
Proof.
  unfold pkgAddr. rewrite !(bits_wrap _ 0 WINDOW_BITS), !Z.shiftr_0_r by apply window_bits_nonneg.
  by rewrite wrap_wrap by apply window_bits_nonneg.
Qed.

(** *** The invariant

    [n] bytes follow [isn], [a] of them are acknowledged as far as the table knows. *)

Definition current (n : Z) (t : gmap Z txAppTableEntry) : Prop := et_mempt (app_entry t id) = wrap WINDOW_BITS (isn + n).

(** The write pointer is in the table or on its way there. *)
Definition pending (n : Z) (t : gmap Z txAppTableEntry) (qs : list txAppTxSarQuery) : Prop :=
  match qs with
  | [] => current n t
  | [q] => aq_write q = true /\ if decide (aq_sessionID q = id) then aq_mempt q = wrap WINDOW_BITS (isn + n) else current n t
  | _ => False
  end.

(** The table's answer may be older than its entry. *)
Definition told (n a : Z) (r : txAppTxSarReply) : Prop :=
  exists b, 0 <= b <= a /\ n - b < BUFFER_SIZE /\ ay_ackd r = wrap WINDOW_BITS (isn + b) /\ ay_mempt r = wrap WINDOW_BITS (isn + n).

Inductive phase (n a : Z) (t : gmap Z txAppTableEntry) : tasi -> list txAppTxSarQuery -> Prop :=
| PhIdle m ms sts qs : pending n t qs -> phase n a t (mk_tasi false m ms sts []) qs
| PhAsked m ms sts qs : pending n t qs -> phase n a t (mk_tasi true m ms sts []) (qs ++ [txAppTxSarQuery_read (atm_sessionID m)])
| PhTold m ms sts r : current n t -> (atm_sessionID m = id -> told n a r) -> phase n a t (mk_tasi true m ms sts [r]) [].

Lemma phase_entry t t' n a a' ld qs :
  (current n t -> current n t') -> a <= a' -> phase n a t ld qs -> phase n a' t' ld qs.
Proof.
  intros Hc Ha. assert (forall qs, pending n t qs -> pending n t' qs) as Hpend.
  { intros [|q [|? ?]]; cbn; [done | | done]. destruct (decide _); naive_solver. }
  destruct 1 as [m ms sts qs Hq | m ms sts qs Hq | m ms sts r Hq Ht]; [constructor; by apply Hpend.. |].
  constructor; [by apply Hc|]. intros Hid. destruct (Ht Hid) as (b & Hb & Hrest). exists b. split; [lia | exact Hrest].
Qed.

Definition cmd_of (e : event) : mmCmd := mmCmd_new (pkgAddr (ev_sessionID e) (ev_address e)) (ev_length e).

Record SendInv (s : sendSys) : Prop := {
  si_metas : Forall meta_ok (tasi_writeMeta (ss_loader s) :: appTxDataReqMetaData (ss_loader s));
  si_acked : ss_acked s <= 1 + accepted (ss_events s);
  si_laid : laid_out (isn + 1) (of_session (ss_events s));
  si_cmds : ss_cmds s = cmd_of <$> ss_events s;
  si_buffer : exists a, 0 <= a /\ on_the_way a (ss_acked s) (txSar2txApp_ack_push (ss_table s)) /\
    et_ackd (app_entry (app_table (ss_table s)) id) = wrap WINDOW_BITS (isn + a) /\
    1 + accepted (ss_events s) - a < BUFFER_SIZE /\
    phase (1 + accepted (ss_events s)) a (app_table (ss_table s)) (ss_loader s) (txApp_upd_req (ss_table s))
}.

Lemma SendInv_outstanding s : SendInv s -> outstanding s < BUFFER_SIZE.
Proof.
  intros [_ _ _ _ (a & _ & H & _ & Hb & _)]. apply on_the_way_le in H. unfold outstanding. lia.
Qed.

Lemma SendInv_start t e w : SendInv (send_start t e w).
Proof.
  assert (1 < BUFFER_SIZE) as Hb by (rewrite BUFFER_SIZE_pow; pose proof window_bits_range; apply (Z.pow_gt_1 2); lia).
  constructor; cbn; [repeat constructor; cbn; lia | lia | done | done|].
  unfold app_entry. exists 0. rewrite !entry_insert, decide_True by done. split_and!; [lia | done | | lia |].
  - cbn. rewrite wrap_sub_l. f_equal. lia.
  - constructor. unfold pending, current, app_entry. rewrite entry_insert, decide_True by done. done.
Qed.

(** *** The steps *)

Lemma inv_request m s s' : meta_ok m -> SendInv s -> send_step (SRequest m) s = Next s' -> SendInv s'.
Proof.
  destruct s as [ld t acked cmds rsps evs]. intros Hm [H1 H2 H3 H4 (a & Ha & Hw & He & Hb & Hp)] [= <-].
  cbn [ss_loader ss_table ss_acked ss_cmds ss_events] in *.
  constructor; [| done.. | exists a; split_and!; [done.. |]]; cbn [ss_loader ss_table ss_events tasi_writeMeta appTxDataReqMetaData].
  - rewrite app_comm_cons. apply Forall_app. split; [exact H1 | by constructor].
  - destruct Hp; by constructor.
Qed.

Lemma inv_state st s s' : SendInv s -> send_step (SState st) s = Next s' -> SendInv s'.
Proof.
  destruct s as [ld t acked cmds rsps evs]. intros [H1 H2 H3 H4 (a & Ha & Hw & He & Hb & Hp)] [= <-].
  cbn [ss_loader ss_table ss_acked ss_cmds ss_events] in *.
  constructor; [done.. | exists a; split_and!; [done.. |]]. cbn [ss_loader ss_table ss_events]. destruct Hp; by constructor.
Qed.

Lemma inv_push p acked' s s' :
  SendInv s -> (on_the_way (ss_acked s) acked' [p]) -> acked' <= 1 + accepted (ss_events s) ->
  s' = mk_sendSys (ss_loader s) (push_ack p (ss_table s)) acked' (ss_cmds s) (ss_rsps s) (ss_events s) -> SendInv s'.
Proof.
  destruct s as [ld t acked cmds rsps evs]. intros [H1 H2 H3 H4 (a & Ha & Hw & He & Hb & Hp)] Hp' Hle ->.
  constructor; [done.. | exists a; split_and!; [done | | done..]]. by eapply on_the_way_app.
Qed.

Lemma sent_cmd m addr :
  meta_ok m -> cmd_of <$> [event_tx TX (atm_sessionID m) addr (atm_length m)] = [mmCmd_new (pkgAddr (atm_sessionID m) addr) (atm_length m)].
Proof. intros [Hid Hlen]. unfold cmd_of. cbn. by rewrite pkgAddr_wrap, !(wrap_small 16) by done. Qed.

(** A request is accepted: it fits behind what is not acknowledged. *)
Lemma told_space n a r len :
  told n a r -> a <= n -> no_space len r = false -> 0 <= len ->
  n + len - a < BUFFER_SIZE /\ ay_mempt r = wrap WINDOW_BITS (isn + n).
Proof.
  intros (b & Hba & Hb & Hack & Hmem) Ha Hsp Hlen. split; [|done].
  unfold no_space, max_write_length in Hsp. apply orb_false_iff in Hsp as [Hsp _]. apply Z.ltb_ge in Hsp.
  rewrite Hack, Hmem in Hsp. replace (wrap WINDOW_BITS (isn + b) - wrap WINDOW_BITS (isn + n) - 1)
    with (wrap WINDOW_BITS (isn + b) - (wrap WINDOW_BITS (isn + n) + 1)) in Hsp by lia.
  rewrite wrap_sub_l in Hsp. replace (isn + b - (wrap WINDOW_BITS (isn + n) + 1)) with (isn + b - 1 - wrap WINDOW_BITS (isn + n)) in Hsp by lia.
  rewrite wrap_sub_r in Hsp. replace (isn + b - 1 - (isn + n)) with (BUFFER_SIZE - 1 - (n - b) + (-1) * BUFFER_SIZE) in Hsp by lia.
  unfold wrap in Hsp. rewrite <- BUFFER_SIZE_pow, Z.mod_add, Z.mod_small in Hsp by lia. lia.
Qed.

Lemma accept_inv m ms sts0 r t acks acked cmds rsps evs :
  no_space (atm_length m) r = false -> SendInv (mk_sendSys (mk_tasi true m ms sts0 [r]) (mk_txapp t acks []) acked cmds rsps evs) ->
  forall sts rsps',
  SendInv (mk_sendSys (mk_tasi false m ms sts [])
    (mk_txapp t acks [txAppTxSarQuery_write (atm_sessionID m) (ay_mempt r + atm_length m)]) acked
    (cmds ++ [mmCmd_new (pkgAddr (atm_sessionID m) (ay_mempt r)) (atm_length m)]) rsps'
    (evs ++ [event_tx TX (atm_sessionID m) (ay_mempt r) (atm_length m)])).
Proof.
  intros Hn [H1 H2 H3 H4 (a & Ha & Hw & He & Hb & Hp)] sts rsps'.
  cbn [ss_loader ss_table ss_acked ss_cmds ss_events app_table txSar2txApp_ack_push txApp_upd_req tasi_writeMeta] in *.
  inversion H1 as [|? ? [Hid Hlen] ?]; subst. inversion Hp as [| |? ? ? ? Hcur Ht]; subst.
  set (e := event_tx TX (atm_sessionID m) (ay_mempt r) (atm_length m)).
  assert (ev_sessionID e = atm_sessionID m) as Ei by (by apply wrap_small).
  assert (ev_length e = atm_length m) as El by (by apply wrap_small).
  pose proof (sent_cmd m (ay_mempt r) (conj Hid Hlen)) as Ec. fold e in Ec.
  pose proof (on_the_way_le _ _ _ Hw) as Hle. destruct (accepted_event evs e) as [(Hs & Hacc & Hof) | (Hs & Hacc & Hof)].
  - rewrite Ei in Hs. destruct (told_space _ a r (atm_length m) (Ht Hs)) as [Hroom Hmem]; [lia | done | apply Hlen|].
    constructor; cbn [ss_loader ss_table ss_acked ss_cmds ss_events app_table txSar2txApp_ack_push txApp_upd_req]; [done | rewrite Hacc; unfold fits in Hlen; lia | | |].
    + rewrite Hof. apply laid_out_app; [done|]. cbn. rewrite Hmem, wrap_wrap by apply window_bits_nonneg. f_equal. unfold accepted. lia.
    + by rewrite fmap_app, Ec.
    + exists a. rewrite Hacc. split_and!; [done.. | lia |]. constructor. cbn [pending txAppTxSarQuery_write aq_sessionID aq_mempt aq_write]. rewrite (wrap_small 16), decide_True by done.
      split; [done|]. rewrite Hmem, wrap_add_l. f_equal. lia.
  - rewrite Ei in Hs. constructor; cbn [ss_loader ss_table ss_acked ss_cmds ss_events app_table txSar2txApp_ack_push txApp_upd_req]; [done | by rewrite Hacc | by rewrite Hof | |].
    + by rewrite fmap_app, Ec.
    + exists a. rewrite Hacc. split_and!; [done..|]. constructor. cbn. by rewrite (wrap_small 16), decide_False.
Qed.

Lemma inv_loader s s' : SendInv s -> send_step SLoader s = Next s' -> SendInv s'.
Proof.
  destruct s as [ld t acked cmds rsps evs]. intros HI. pose proof HI as [H1 H2 H3 H4 (a & Ha & Hw & He & Hb & Hp)].
  destruct t as [t acks qs]. cbn [ss_loader ss_table ss_acked ss_cmds ss_events app_table txSar2txApp_ack_push txApp_upd_req] in *.
  destruct Hp as [m [|m' ms] sts qs Hq | m ms [|st sts] qs Hq | m ms [|st sts] r Hq Ht]; cbn [send_step tasi_metaLoader].
  - intros [= <-]. cbn. by rewrite !app_nil_r.
  - intros [= <-]. cbn. rewrite !app_nil_r. inversion H1; subst.
    constructor; [done.. |]. exists a. split_and!; [done..|]. by constructor.
  - intros [= <-]. cbn. by rewrite !app_nil_r.
  - intros [= <-]. cbn. by rewrite !app_nil_r.
  - intros [= <-]. cbn. by rewrite !app_nil_r.
  - unfold tasi_answer. destruct (negb _); [|destruct (no_space (atm_length m) r) eqn:Hn].
    + intros [= <-]. cbn. rewrite !app_nil_r. constructor; [done..|]. exists a. split_and!; [done..|]. by constructor.
    + intros [= <-]. cbn. rewrite !app_nil_r. constructor; [done..|]. exists a. split_and!; [done..|]. by constructor.
    + intros [= <-]. cbn [omap loader_reqs loader_cmds loader_rsps loader_events app]. 
      by eapply accept_inv.
Qed.

(** News moves the table's pointer to acknowledged bytes. *)
Lemma inv_news ld t p acks qs acked cmds rsps evs :
  SendInv (mk_sendSys ld (mk_txapp t (p :: acks) qs) acked cmds rsps evs) ->
  SendInv (mk_sendSys ld (mk_txapp (<[ak_sessionID p := app_acked p (app_entry t (ak_sessionID p))]> t) acks qs) acked cmds rsps evs).
Proof.
  intros [H1 H2 H3 H4 (a & Ha & Hw & He & Hb & Hp)].
  cbn [ss_loader ss_table ss_acked ss_cmds ss_events app_table txSar2txApp_ack_push txApp_upd_req] in *. cbn [on_the_way] in Hw.
  constructor; [done.. |]. cbn [ss_loader ss_table ss_acked ss_cmds ss_events app_table txSar2txApp_ack_push txApp_upd_req].
  destruct (Z.eqb_spec (ak_sessionID p) id) as [Hid|Hid].
  - destruct Hw as (Hi & a' & Haa & Hack & Hw). exists a'. unfold app_entry at 1. rewrite entry_insert, decide_True by done.
    assert (et_mempt (app_acked p (app_entry t (ak_sessionID p))) = et_mempt (app_entry t id)) as Hm.
    { unfold app_acked. by rewrite Hi, Hid. }
    split_and!; [lia | exact Hw | unfold app_acked; by rewrite Hi | lia|].
    apply (phase_entry t _ _ a).
    + unfold current, app_entry at 2. rewrite entry_insert, decide_True by done. by rewrite Hm.
    + lia.
    + exact Hp.
  - exists a. unfold app_entry at 1. rewrite entry_insert, decide_False by done. split_and!; [done..|].
    apply (phase_entry t _ _ a); [|lia | done]. unfold current, app_entry. by rewrite entry_insert, decide_False.
Qed.

(** A write lands, or a read is answered. *)
Definition landed (t : gmap Z txAppTableEntry) (q : txAppTxSarQuery) : gmap Z txAppTableEntry :=
  let e := app_entry t (aq_sessionID q) in <[aq_sessionID q := mk_txAppTableEntry (et_ackd e) (aq_mempt q) (et_min_window e)]> t.

Lemma write_lands n t q :
  pending n t [q] -> current n (landed t q) /\ et_ackd (app_entry (landed t q) id) = et_ackd (app_entry t id).
Proof.
  intros [_ H]. unfold current, landed, app_entry in *. rewrite entry_insert.
  destruct (decide (aq_sessionID q = id)) as [->|]; done.
Qed.

Definition table_answer (t : gmap Z txAppTableEntry) (i : Z) : txAppTxSarReply :=
  let e := app_entry t i in txAppTxSarReply_new i (et_ackd e) (et_mempt e) (et_min_window e).

Lemma answer_told n a t :
  TCP_NODELAY = true \/ WINDOW_SCALE = false -> 0 <= a -> n - a < BUFFER_SIZE -> current n t ->
  et_ackd (app_entry t id) = wrap WINDOW_BITS (isn + a) -> told n a (table_answer t id).
Proof.
  intros Hbuild Ha Hn Hc He. exists a. split_and!; [lia | lia | done | |]; unfold table_answer, txAppTxSarReply_new;
    (destruct TCP_NODELAY; [done|]); destruct Hbuild as [|Hb]; try done; cbn [ay_ackd ay_mempt]; rewrite ?He, ?Hc; unfold WINDOW_BITS; rewrite Hb;
    by apply wrap_wrap.
Qed.

Lemma inv_query ld t q qs acked cmds rsps evs :
  TCP_NODELAY = true \/ WINDOW_SCALE = false ->
  SendInv (mk_sendSys ld (mk_txapp t [] (q :: qs)) acked cmds rsps evs) ->
  SendInv (mk_sendSys (mk_tasi (tasi_wait ld) (tasi_writeMeta ld) (appTxDataReqMetaData ld) (stateTable2txApp_rsp ld)
                        (txSar2txApp_upd_rsp ld ++ if aq_write q then [] else [table_answer t (aq_sessionID q)]))
             (mk_txapp (if aq_write q then landed t q else t) [] qs) acked cmds rsps evs).
Proof.
  intros Hbuild [H1 H2 H3 H4 (a & Ha & Hw & He & Hb & Hp)].
  cbn [ss_loader ss_table ss_acked ss_cmds ss_events app_table txSar2txApp_ack_push txApp_upd_req] in *.
  constructor; [done.. |]. cbn [ss_loader ss_table ss_acked ss_cmds ss_events app_table txSar2txApp_ack_push txApp_upd_req].
  exists a. inversion Hp as [m ms sts qs' Hq | m ms sts qs' Hq | ]; subst.
  - destruct qs; [|done]. destruct (write_lands _ _ _ Hq) as [Hc Hk]. rewrite (proj1 Hq). cbn.
    split_and!; [done.. | by rewrite Hk | done | by constructor].
  - destruct qs' as [|w [|? ?]]; [| |done]; cbn [app] in *; simplify_eq.
    + cbn [aq_write txAppTxSarQuery_read tasi_wait tasi_writeMeta appTxDataReqMetaData stateTable2txApp_rsp txSar2txApp_upd_rsp aq_sessionID app].
      split_and!; [done..|]. inversion H1 as [|? ? [Hid _] _]; subst. constructor; [exact Hq|]. intros Hsid.
      rewrite (wrap_small 16), Hsid by exact Hid. by apply answer_told.
    + destruct (write_lands _ _ _ Hq) as [Hc Hk]. rewrite (proj1 Hq). cbn.
      split_and!; [done.. | by rewrite Hk | done | by apply (PhAsked _ _ _ _ _ _ [])].
Qed.

Lemma inv_table s s' : TCP_NODELAY = true \/ WINDOW_SCALE = false -> SendInv s -> send_step STable s = Next s' -> SendInv s'.
Proof.
  intros Hbuild. destruct s as [ld [t [|p acks] qs] acked cmds rsps evs]; cbn [send_step tx_app_table].
  - destruct qs as [|q qs].
    + intros HI [= <-]. rewrite app_nil_r. by destruct ld.
    + intros HI. pose proof (inv_query _ _ _ _ _ _ _ _ Hbuild HI) as HI'. unfold at_index.
      destruct (in_table _); [|done]. destruct (aq_write q); by intros [= <-].
  - intros HI. pose proof (inv_news _ _ _ _ _ _ _ _ _ HI) as HI'. unfold at_index.
    destruct (in_table _); [|done]. intros [= <-]. rewrite app_nil_r. by destruct ld.
Qed.

Lemma SendInv_step l s s' :
  TCP_NODELAY = true \/ WINDOW_SCALE = false -> label_ok l -> SendInv s -> send_step l s = Next s' -> SendInv s'.
Proof.
  intros Hbuild Hl HI Hs. destruct l as [m|st|n w|p| |].
  - by eapply inv_request.
  - by eapply inv_state.
  - pose proof (si_acked _ HI). destruct s as [ld t acked cmds rsps evs]. cbn [send_step] in Hs.
    destruct (Z.leb_spec 0 n); [|done]. destruct (Z.leb_spec n (outstanding (mk_sendSys ld t acked cmds rsps evs))) as [Hn|]; [|done].
    injection Hs as <-. unfold outstanding in Hn. cbn in Hn.
    eapply inv_push; [exact HI | | | reflexivity]; cbn; [|lia].
    rewrite Z.eqb_refl. split; [done|]. exists (acked + n). split_and!; [lia | done | done].
  - destruct s as [ld t acked cmds rsps evs]. cbn [send_step] in Hs. destruct (ak_sessionID p =? id) eqn:Hp; [done|].
    injection Hs as <-. eapply inv_push; [exact HI | | | reflexivity]; cbn; [by rewrite Hp | apply HI].
  - by eapply inv_loader.
  - by eapply inv_table.
Qed.
End send.

(** C20: The send buffer is never overrun: in every interleaving of requests of the
    application, answers of the tables and acknowledgements, once a connection is
    open, the bytes accepted for a session that its peer has not acknowledged are
    fewer than the bytes of its buffer, the memory commands are those of the
    events handed to the TX engine, and the ranges of these events follow one
    another without gap or overlap from the first byte behind the SYN on. *)
Theorem send_buffer_safe `{cfg : ToeConfig} (id isn w : Z) (t : gmap Z txAppTableEntry) (e : txAppTableEntry) (ls : list send_label) (s : sendSys) :
  TCP_NODELAY = true \/ WINDOW_SCALE = false -> Forall label_ok ls ->
  steps (send_step id isn) ls (send_start id isn t e w) = Next s ->
  outstanding id s < BUFFER_SIZE /\
  ss_cmds s = (fun e => mmCmd_new (pkgAddr (ev_sessionID e) (ev_address e)) (ev_length e)) <$> ss_events s /\
  laid_out (isn + 1) (of_session id (ss_events s)).
Proof.
  intros Hbuild Hls Hs. assert (SendInv id isn s) as HI.
  { eapply (steps_invariant _ label_ok (SendInv id isn)); [|exact Hls | apply SendInv_start | exact Hs].
    intros l s0 s1. by apply SendInv_step. }
  split_and!; [by eapply SendInv_outstanding | apply HI | apply HI].
Qed.

(** Two requests; the acknowledgement of the first arrives between them. *)
Definition demo_sending : list send_label :=
  [SRequest (mk_appTxMeta 3 1000); SLoader; STable; SState ESTABLISHED; SLoader; STable; SAck 1 65535; SAck 1000 65535;
   SRequest (mk_appTxMeta 3 500); SLoader; STable; STable; STable; SState ESTABLISHED; SLoader; STable].

Lemma send_buffer_safe_witness :
  let cfg := sim_config 16 false true in
  exists s, steps (send_step 3 70000) demo_sending (send_start 3 70000 ∅ txAppTableEntry_zero 65535) = Next s /\
    (ev_address <$> ss_events s) = [4465; 5465] /\ outstanding 3 s = 500 /\ outstanding 3 s < BUFFER_SIZE /\
    ss_cmds s = (fun e => mmCmd_new (pkgAddr (ev_sessionID e) (ev_address e)) (ev_length e)) <$> ss_events s /\
    laid_out (70000 + 1) (of_session 3 (ss_events s)).
Proof.
  intros cfg. destruct (steps (send_step 3 70000) demo_sending (send_start 3 70000 ∅ txAppTableEntry_zero 65535)) as [| |s] eqn:Hs;
    [by vm_compute in Hs | by vm_compute in Hs|].
  exists s. split; [done|]. split; [vm_compute in Hs; by injection Hs as <-|]. split; [vm_compute in Hs; by injection Hs as <-|].
  apply (send_buffer_safe 3 70000 65535 ∅ txAppTableEntry_zero demo_sending s); [by left | | exact Hs].
  unfold demo_sending. rewrite !Forall_cons, Forall_nil. cbn. unfold meta_ok, fits. cbn. lia.
Defined.
