(* ===== verification/TcpWire.v ===== *)
(** A TCP segment from one node to another: built and sealed by the TX engine,
    over the wire (FrameWire), and taken apart by the RX engine.  Every stage is
    the process of the code, run on the output of the stage before it, over words
    of 512 bits. *)
From stdpp Require Import base numbers list strings.
From Stdlib Require Import ZArith Lia.
From S2P Require Import Prelude ToeTypes Axi Streams StreamsFacts Wire Ipv4 Ipv4Facts Ethernet IpHandler FrameWire TcpHeader RxFsm RxEngine TxEngine TcpSegment TcpChecksum.

Local Open Scope Z_scope.

(** The words of a payload, which may be empty. *)
Definition payload (ws : list net_axis) (l : list Z) : Prop := ws = [] /\ l = [] \/ packet 64 ws l.

Lemma payload_fits ws l : payload ws l -> Forall (fits 8) l.
Proof. intros [[_ ->]|Hw]; [done | by eapply packet_fits]. Qed.

(** ** The transmit side *)

Section transmit.
Context `{cfg : ToeConfig} (fill : Z).

(** Both headers in front of the payload. *)
Definition tcp_built (m : tx_engine_meta) (t : fourTuple) (ws out : list net_axis) : Prop :=
  exists ws' s, shifted 512 32 ws ws' /\
    runs (pseudoHeaderConstructionNew 512 fill) (phc_init [m] [t] ws') s out /\ phc_state s = PHC_META /\ phc_dataIn s = [].

(** The pseudo header exchanged for the checksum. *)
Definition tcp_sealed (ws out : list net_axis) : Prop :=
  exists o t c w1 w2 s,
    runs (two_complement_subchecksums 32) (tcts_init 32 ws) (tcts_init 32 []) o /\ cs_sums o = [t] /\
    finalize_ipv4_checksum 32 [t] = ([], [c]) /\
    runs (remove_pseudo_header 512) (true, cs_words o) (true, []) w1 /\ unshifted 512 12 w1 w2 /\
    runs (insert_checksum 512) (ic_init 512 [c] w2) s out /\ ic_dataIn s = [].

Definition tcp_enclosed (len : Z) (t : twoTuple) (ws out : list net_axis) : Prop :=
  exists ws' s, shifted 512 20 ws ws' /\
    runs (generate_ipv4 512 fill) (tgip_init [len] [t] ws') s out /\ tg_state s = GIP_META /\ tx_shift2ipv4Fifo s = [].

Definition segment_sent (m : tx_engine_meta) (t : fourTuple) (ws out : list net_axis) : Prop :=
  exists w1 w2, tcp_built m t ws w1 /\ tcp_sealed w1 w2 /\ tcp_enclosed (tm_length m) (twoTuple_of t) w2 out.

Abbreviation header m t := (tcp_fill (h_header tcpFullPseudoHeader) m t).

Lemma built_packet m t ws l :
  payload ws l -> tm_syn m = false -> tm_length m = Z.of_nat (length l) ->
  exists out, tcp_built m t ws out /\ packet 64 out (le_bytes 32 (header m t) ++ l).
Proof.
  intros Hw Hsyn Hlen. set (v := header m t).
  assert (forall ws', pseudoHeaderConstructionNew 512 fill (phc_init [m] [t] ws') =
    (mk_phc (if (0 <? length l)%nat then PHC_PARTIAL else PHC_HEADER) (mk_header false 0 v) (0 <? length l)%nat false
       (if WINDOW_SCALE then tm_win_shift m else 0) [] [] ws', [])) as H0.
  { intros ws'. unfold phc_init. cbn [pseudoHeaderConstructionNew]. rewrite Hsyn, Hlen, andb_true_r.
    assert (negb (Z.of_nat (length l) =? 0) = (0 <? length l)%nat) as ->; [|by destruct (0 <? length l)%nat].
    destruct (Z.eqb_spec (Z.of_nat (length l)) 0), (Nat.ltb_spec 0 (length l)); done || lia. }
  destruct Hw as [[-> ->]|Hw].
  - set (w := mk_axis (set_bits fill 0 256 (bits v 0 256)) (Z.ones (Z.of_nat 32)) true). exists [w]. split.
    + exists [], (mk_phc PHC_META (mk_header false 1 v) false false (if WINDOW_SCALE then tm_win_shift m else 0) [] [] []).
      split_and!; [|..|done|done].
      * unfold shifted. rewrite decide_False by done. eexists. split; [apply runs_refl | done].
      * eapply (runs_step _ _ _ _ [] [w]); [apply H0|]. apply runs_one. cbn [pseudoHeaderConstructionNew length Nat.ltb Nat.leb].
        rewrite (consume_partial 512) by (unfold TCP_FULL_PSEUDO_HEADER_SIZE; lia). done.
    + eapply (packet_one 64 w 32); [done | done | lia|]. rewrite app_nil_r. cbn [a_data w].
      change 256 with (8 * Z.of_nat 32). rewrite le_bytes_set, take_app_length' by (rewrite ?length_le_bytes; lia).
      by rewrite le_bytes_bits, Z.shiftr_0_r by lia.
  - pose proof (packet_length _ _ _ Hw) as Hl. rewrite (proj2 (Nat.ltb_lt 0 (length l))) in H0 by lia.
    destruct (shifted_packet 512 64 eq_refl 32 ws l) as (ws' & Hs & Hws'); [lia | lia | done |].
    set (at_ st i h := mk_phc st (mk_header false i v) true false (if WINDOW_SCALE then tm_win_shift m else 0) [] [] h).
    destruct (prepend_packet (pseudoHeaderConstructionNew 512 fill) 64 32 v (at_ PHC_PARTIAL 0) (at_ PHC_BODY 1) (at_ PHC_META 1) ws' l)
      as (out & Hr & Hout); [lia | done | | |].
    + intros w input. unfold at_. cbn [pseudoHeaderConstructionNew].
      rewrite (consume_partial 512) by (unfold TCP_FULL_PSEUDO_HEADER_SIZE; lia). by destruct (a_last w).
    + intros w input. unfold at_. cbn [pseudoHeaderConstructionNew]. by destruct (a_last w).
    + exists out. split; [|exact Hout]. exists ws', (at_ PHC_META 1 []). split_and!; [done | | done | done].
      eapply (runs_step _ _ _ _ [] out); [apply H0 | exact Hr].
Qed.

Lemma removed_packet ws l : packet 64 ws l -> runs (remove_pseudo_header 512) (true, ws) (true, []) ws.
Proof.
  intros Hw. destruct Hw as [d k Hk|d ws l Hw]; [by apply runs_one|].
  eapply (runs_step _ _ (false, ws) _ [_] ws); [done|].
  pose proof (forward_packet (remove_pseudo_header 512) 64 (pair false) (pair true)
    ltac:(intros w i; cbn; by destruct (a_last w)) ws l [] Hw) as Hr. by rewrite app_nil_r in Hr.
Qed.

Lemma checksum_packet ws l c :
  packet 64 ws l -> (18 <= length l)%nat ->
  exists s out, runs (insert_checksum 512) (ic_init 512 [c] ws) s out /\ ic_dataIn s = [] /\
    packet 64 out (take 16 l ++ le_bytes 2 (reverse 2 c) ++ drop 18 l).
Proof.
  intros Hw Hl. exists (mk_ic 1 0 [] []), (patch_at 16 2 (reverse 2 c) ws).
  split_and!; [|done|by apply packet_patch_at; [|lia|]].
  destruct Hw as [d k Hk|d ws l Hw]; cbn [patch_at]; [by apply runs_one|].
  eapply (runs_step _ _ (mk_ic 2 0 [] ws) _ [_] ws); [done|].
  pose proof (forward_packet (insert_checksum 512) 64 (mk_ic 2 0 []) (mk_ic 1 0 [])
    ltac:(intros w i; cbn; by destruct (a_last w)) ws l [] Hw) as Hr. by rewrite app_nil_r in Hr.
Qed.

Lemma sealed_packet v ws l :
  packet 64 ws (le_bytes 32 v ++ l) ->
  let c := internet_checksum (le_bytes 32 v ++ l) in
  exists out, tcp_sealed ws out /\ packet 64 out (drop 12 (le_bytes 32 (with_tcp_checksum v c)) ++ l).
Proof.
  intros Hw c. destruct (tcts_checksum 32 ws _ ltac:(by apply (bool_decide_unpack _)) Hw) as (o & t & Hr & Ho & Ht & Hf).
  assert (length (le_bytes 32 v ++ l) = 32 + length l)%nat as Hlen by (by rewrite length_app, length_le_bytes).
  destruct (unshifted_packet 512 64 eq_refl 12 ws (le_bytes 32 v ++ l) ltac:(lia) ltac:(lia) Hw) as (w2 & Hs2 & Hw2).
  destruct (checksum_packet w2 _ c Hw2) as (s & out & Hr3 & Hi3 & Hp3); [rewrite length_drop; lia|].
  exists out. split.
  - exists o, t, c, ws, w2, s. rewrite Ho. split_and!; [done | done | | by eapply removed_packet | done..].
    cbn [finalize_ipv4_checksum]. by rewrite Hf.
  - rewrite drop_app_le, take_app_le, drop_app_le, drop_drop, take_drop_commute in Hp3 by (rewrite ?length_drop, length_le_bytes; lia).
    rewrite checksum_bytes. rewrite drop_app_le by (rewrite length_take, length_le_bytes; lia). rewrite <- !app_assoc. exact Hp3.
Qed.

Lemma enclosed_packet len t ws l :
  packet 64 ws l ->
  exists out, tcp_enclosed len t ws out /\ packet 64 out (le_bytes 20 (tx_ip_fill (h_header ipv4Header) len t) ++ l).
Proof.
  intros Hw. destruct (shifted_packet 512 64 eq_refl 20 ws l) as (ws' & Hs & Hws'); [lia | lia | done |].
  set (v := tx_ip_fill (h_header ipv4Header) len t). set (at_ st i h := mk_tgip st (mk_header false i v) [] [] h).
  destruct (prepend_packet (generate_ipv4 512 fill) 64 20 v (at_ GIP_PARTIAL 0) (at_ GIP_BODY 1) (at_ GIP_META 1) ws' l)
    as (out & Hr & Hout); [lia | done | | |].
  - intros w input. unfold at_. cbn [generate_ipv4]. rewrite (consume_partial 512) by (unfold IPV4_HEADER_SIZE; lia). by destruct (a_last w).
  - intros w input. unfold at_. cbn [generate_ipv4]. by destruct (a_last w).
  - exists out. split; [|exact Hout]. exists ws', (at_ GIP_META 1 []). split_and!; [done | | done | done].
    eapply (runs_step _ _ _ _ [] out); [reflexivity | exact Hr].
Qed.
End transmit.

(** ** The receive side *)

Definition tp_words (o : list tpip_out) : list net_axis := omap (fun x => match x with TpWord w => Some w | _ => None end) o.
Definition tp_lengths (o : list tpip_out) : list Z := omap (fun x => match x with TpDropLength l => Some l | _ => None end) o.
Definition tp_metas (o : list tpip_out) : list pseudoMeta := omap (fun x => match x with TpMeta m => Some m | _ => None end) o.
Definition ph_words (o : list prph_out) : list net_axis := omap (fun x => match x with PhWord w => Some w | _ => None end) o.
Definition ph_metas (o : list prph_out) : list rxEngineMetaData := omap (fun x => match x with PhMeta m => Some m | _ => None end) o.
Definition ph_ports (o : list prph_out) : list Z := omap (fun x => match x with PhPort p => Some p | _ => None end) o.
Definition ph_tuples (o : list prph_out) : list fourTuple := omap (fun x => match x with PhTuple t => Some t | _ => None end) o.
Definition ph_options (o : list prph_out) : list optionalFieldsMeta := omap (fun x => match x with PhOptions m => Some m | _ => None end) o.
Definition dof_words (o : list dof_out) : list net_axis := omap (fun x => match x with DofWord w => Some w | _ => None end) o.

Section receive.
Context `{cfg : ToeConfig} (fill : Z).

(** The IP header exchanged for the pseudo header. *)
Definition tcp_exposed (m : pseudoMeta) (ws out : list net_axis) : Prop :=
  exists s1 o1 s2 w2 w3 s4 hs s5,
    runs (toe_process_ipv4 512) (tpip_init ws) s1 o1 /\ tp_metas o1 = [m] /\
    runs (drop_optional_ip_header 512) (doh_init (tp_lengths o1) (tp_words o1)) s2 w2 /\ process2dropFifo s2 = [] /\
    shifted 512 12 w2 w3 /\
    runs (constructPseudoHeader 512 fill) (cph_init [m]) s4 hs /\ cph_state s4 = CPH_META /\
    runs (prependPseudoHeader 512) (pph_init hs w3) s5 out /\ pph_packetIn s5 = [].

(** What the state machine is told of the segment, and its payload. *)
Definition tcp_parsed (rm : rxEngineMetaData) (port : Z) (t : fourTuple) (ws out : list net_axis) : Prop :=
  exists o1 sums b s2 o2 w3 s4 o4,
    runs (two_complement_subchecksums 32) (tcts_init 32 ws) (tcts_init 32 []) o1 /\ cs_sums o1 = [sums] /\
    toe_check_ipv4_checksum 32 [sums] = ([], [b]) /\
    runs (processPseudoHeader 512) (prph_init (cs_words o1) [b]) s2 o2 /\ prph_dataIn s2 = [] /\
    ph_metas o2 = [rm] /\ ph_ports o2 = [port] /\ ph_tuples o2 = [t] /\
    unshifted 512 32 (ph_words o2) w3 /\
    runs (drop_optional_header_fields 512) (dof_init (ph_options o2) w3) s4 o4 /\ dof_state s4 = 0 /\ dof_metaIn s4 = [] /\
    dof_dataIn s4 = [] /\ out = dof_words o4.

Definition segment_received (rm : rxEngineMetaData) (port : Z) (t : fourTuple) (ws out : list net_axis) : Prop :=
  exists m w, tcp_exposed m ws w /\ tcp_parsed rm port t w out.

Lemma toe_ipv4_packet v ws l :
  packet 64 ws (le_bytes 20 v ++ l) -> fits 160 v -> bits v 0 4 = 5 ->
  exists s o, runs (toe_process_ipv4 512) (tpip_init ws) s o /\ tp_words o = ws /\ tp_lengths o = [5] /\
    tp_metas o = [mk_pseudoMeta (ip_getSrcAddr v) (ip_getDstAddr v) (u16 (ip_getLength v - 20))].
Proof.
  intros Hw Hv Hb. destruct (packet_nonempty _ _ _ Hw) as (w & ws' & ->).
  set (m := mk_pseudoMeta (ip_getSrcAddr v) (ip_getDstAddr v) (u16 (ip_getLength v - 20))).
  set (first := [TpWord w; TpDropLength 5; TpMeta m]).
  exists (mk_tpip (mk_header false 0 v) 0 false []), (first ++ (TpWord <$> ws')). split.
  - apply (observe_packet _ 64 _ (fun i => mk_tpip (mk_header true 1 v) 0 true i) (fun i => mk_tpip (mk_header false 0 v) 0 false i)
      TpWord first w ws' _ Hw).
    + unfold tpip_init. cbn [toe_process_ipv4]. rewrite (parse_ip v w ws' l Hw Hv). cbn [h_header h_ready orb].
      unfold ip_getHeaderLength. rewrite Hb. by destruct (a_last w).
    + intros c input. cbn. by destruct (a_last c).
  - unfold tp_words, tp_lengths, tp_metas, first. cbn [app omap list_omap]. by rewrite omap_words, !omap_none.
Qed.

Lemma prepended_packet d keep ws l :
  packet 64 ws l -> (12 <= length l)%nat ->
  exists s out, runs (prependPseudoHeader 512) (pph_init [mk_axis d keep true] ws) s out /\ pph_packetIn s = [] /\
    packet 64 out (le_bytes 12 d ++ drop 12 l).
Proof.
  intros Hw Hl. set (p := mk_axis d keep false). set (later st i := mk_pph st p false [] i).
  exists (later false []), (patch 12 (bits d 0 96) ws). split_and!; [|done|].
  - destruct (packet_nonempty _ _ _ Hw) as (w & ws' & ->). cbn [patch]. eapply (runs_step _ _ (mk_pph true p true [] (w :: ws')) _ []); [done|].
    pose proof (observe_packet (prependPseudoHeader 512) 64 (mk_pph true p true [] (w :: ws')) (later true) (later false) id
      [mk_axis (set_bits (a_data w) 0 96 (bits d 0 96)) (a_keep w) (a_last w)] w ws' _ Hw) as Hr.
    rewrite list_fmap_id in Hr. apply Hr; [cbn; by destruct (a_last w)|]. intros c i. unfold later. cbn. by destruct c as [? ? []].
  - pose proof (packet_patch 64 12 (bits d 0 96) ws l Hw ltac:(lia) Hl) as Hp.
    by rewrite le_bytes_bits, Z.shiftr_0_r in Hp by lia.
Qed.

Lemma exposed_packet v ws hd l :
  packet 64 ws (le_bytes 20 v ++ hd ++ l) -> fits 160 v -> bits v 0 4 = 5 -> length hd = 20%nat ->
  let m := mk_pseudoMeta (ip_getSrcAddr v) (ip_getDstAddr v) (u16 (ip_getLength v - 20)) in
  exists out, tcp_exposed m ws out /\ packet 64 out (le_bytes 12 (pseudo_fill (h_header tcpPseudoHeader) m) ++ hd ++ l).
Proof.
  intros Hw Hv Hb Hh m. destruct (toe_ipv4_packet v ws _ Hw Hv Hb) as (s1 & o1 & Hr1 & Hw1 & Hl1 & Hm1).
  destruct (doh_packet (le_bytes 20 v) ws (hd ++ l)) as (s2 & w2 & Hr2 & Hi2 & Hp2);
    [done | by rewrite length_le_bytes | rewrite length_app; lia |].
  destruct (shifted_packet 512 64 eq_refl 12 w2 (hd ++ l)) as (w3 & Hs3 & Hp3); [lia | lia | done |].
  set (pv := pseudo_fill (h_header tcpPseudoHeader) m). set (d := set_bits fill 0 96 (bits pv 0 96)).
  destruct (prepended_packet d (Z.ones (512 / 8)) w3 _ Hp3) as (s5 & out & Hr5 & Hi5 & Hp5); [rewrite length_app, length_replicate; lia|].
  exists out. split.
  - exists s1, o1, s2, w2, w3, (mk_cph CPH_META (mk_header false 1 pv) []), [mk_axis d (Z.ones (512 / 8)) true], s5.
    rewrite Hw1, Hl1. split_and!; try done.
    eapply (runs_step _ _ _ _ [] [_]); [reflexivity|]. apply runs_one. cbn [constructPseudoHeader]. fold m pv.
    by rewrite (consume_partial 512) by (unfold TCP_PSEUDO_HEADER_SIZE; lia).
  - rewrite drop_app_length' in Hp5 by (by rewrite length_replicate). unfold d in Hp5. by rewrite (header_word 64 12 fill pv : le_bytes 12 (set_bits fill 0 96 (bits pv 0 96)) = _) in Hp5.
Qed.

(** The whole header in the first word. *)
Lemma parse_tcp v w ws l :
  packet 64 (w :: ws) (le_bytes 32 v ++ l) -> fits 256 v ->
  parseWord 512 TCP_FULL_PSEUDO_HEADER_SIZE tcpFullPseudoHeader (a_data w) = mk_header true 1 v.
Proof.
  intros Hw Hv. unfold tcpFullPseudoHeader. rewrite parse_whole by (unfold TCP_FULL_PSEUDO_HEADER_SIZE; lia).
  f_equal. exact (fits_le_bytes_header 32 v w ws l ltac:(lia) Hw Hv _ full_header_fits).
Qed.

(** Segments without options: the payload is what is behind the header. *)
Lemma header_packet v ws l :
  packet 64 ws (le_bytes 32 v ++ l) -> fits 256 v -> tfh_getDataOffset v = 5 -> tfh_getLength v = 20 + Z.of_nat (length l) ->
  Z.of_nat (length l) < 2 ^ 16 ->
  exists s o, runs (processPseudoHeader 512) (prph_init ws [true]) s o /\ prph_dataIn s = [] /\
    ph_words o = (if (length l =? 0)%nat then [] else ws) /\ ph_metas o = [meta_of_header v] /\ ph_ports o = [tfh_getDstPort v] /\
    ph_tuples o = [mk_fourTuple (tfh_getSrcAddr v) (tfh_getDstAddr v) (tfh_getSrcPort v) (tfh_getDstPort v)] /\
    ph_options o = (if (length l =? 0)%nat then [] else [mk_ofMeta 0 (tfh_getSynFlag v)]).
Proof.
  intros Hw Hv Ho Hl Hlen. destruct (packet_nonempty _ _ _ Hw) as (w & ws' & ->).
  assert (length l = 0%nat -> a_last w = true /\ ws' = []) as Hone.
  { intros E. apply nil_length_inv in E as ->. rewrite app_nil_r in Hw. remember (le_bytes 32 v) as b eqn:Eb.
    assert (length b = 32)%nat as Hb by (by rewrite Eb, length_le_bytes).
    destruct (packet_cases 64 w ws' b Hw) as [(d & k & _ & -> & -> & _)|(d & l1 & _ & _ & E)]; [done|].
    rewrite E, length_app, length_le_bytes in Hb. lia. }
  assert (tcp_payload v = Z.of_nat (length l)) as Hp by (unfold tcp_payload; lia).
  assert ((Z.of_nat (length l) =? 0) = (length l =? 0)%nat) as Hz.
  { destruct (Z.eqb_spec (Z.of_nat (length l)) 0), (Nat.eqb_spec (length l) 0); done || lia. }
  set (first := (if (length l =? 0)%nat then [] else [PhWord w]) ++ header_outs v).
  assert (processPseudoHeader 512 (prph_init (w :: ws') [true]) =
    (if a_last w then mk_prph (mk_header false 0 v) true true false ws' [] else mk_prph (mk_header true 1 v) false true true ws' [], first)) as H0.
  { unfold prph_init. cbn [processPseudoHeader]. rewrite (parse_tcp v w ws' l Hw Hv). cbn [h_header h_ready andb orb negb app].
    rewrite Hp, Hz, Ho. unfold first. destruct (length l =? 0)%nat; by destruct (a_last w). }
  assert (header_outs v = [PhMeta (meta_of_header v); PhPort (tfh_getDstPort v);
    PhTuple (mk_fourTuple (tfh_getSrcAddr v) (tfh_getDstAddr v) (tfh_getSrcPort v) (tfh_getDstPort v))] ++
    (if (length l =? 0)%nat then [] else [PhOptions (mk_ofMeta 0 (tfh_getSynFlag v))])) as Houts.
  { unfold header_outs. rewrite Hp, Ho, wrap_small, Hz by (unfold fits; lia). by destruct (length l =? 0)%nat. }
  exists (mk_prph (mk_header false 0 v) true true false [] []), (first ++ (PhWord <$> ws')). split.
  - destruct (Nat.eqb_spec (length l) 0) as [E|E].
    + destruct (Hone E) as [Hlast ->].
      rewrite Hlast in H0. rewrite app_nil_r. by apply runs_one.
    + apply (observe_packet _ 64 _ (fun i => mk_prph (mk_header true 1 v) false true true i []) (fun i => mk_prph (mk_header false 0 v) true true false i [])
        PhWord first w ws' _ Hw H0).
      intros c i. cbn [processPseudoHeader].
      change (parseWord 512 TCP_FULL_PSEUDO_HEADER_SIZE (mk_header true 1 v) (a_data c)) with (mk_header true 1 v).
      cbn [h_header h_ready andb orb negb app]. rewrite Hp, (proj2 (Z.eqb_neq _ _)) by lia. by destruct (a_last c).
  - split; [done|]. unfold first. rewrite Houts. unfold ph_words, ph_metas, ph_ports, ph_tuples, ph_options.
    destruct (Nat.eqb_spec (length l) 0) as [E|E].
    + by destruct (Hone E) as [_ ->].
    + cbn [app omap list_omap]. by rewrite omap_words, !omap_none.
Qed.

Lemma plain_packet ws l syn :
  packet 64 ws l ->
  exists s o, runs (drop_optional_header_fields 512) (dof_init [mk_ofMeta 0 syn] ws) s o /\ dof_state s = 0 /\ dof_metaIn s = [] /\
    dof_dataIn s = [] /\ dof_words o = ws.
Proof.
  assert (forall ws l, packet 64 ws l -> forall prev oh written,
    exists s o, runs (drop_optional_header_fields 512) (mk_dof 1 0 prev oh false written [] ws) s o /\ dof_state s = 0 /\ dof_metaIn s = [] /\
      dof_dataIn s = [] /\ dof_words o = ws) as Hlater.
  { induction 1 as [d k Hk|d ws0 l0 Hw IH]; intros prev oh written.
    - eexists _, _. split; [apply runs_one; reflexivity|]. cbn. rewrite !andb_false_r. done.
    - set (w := mk_axis d (Z.ones (Z.of_nat 64)) false).
      set (oh' := if WINDOW_SCALE then parseWord 512 TCP_OPTIONAL_HEADER_SIZE oh (a_data w) else oh).
      destruct (IH w oh' written) as (s & o & Hr & H1 & H2 & H3 & H4). exists s, ([DofWord w] ++ o). split_and!; try done.
      + eapply runs_step; [|exact Hr]. cbn. unfold dof_later. rewrite !andb_false_r. cbn. by rewrite orb_false_r.
      + unfold dof_words in *. cbn. by rewrite H4. }
  intros Hw. destruct Hw as [d k Hk|d ws l Hw].
  - eexists _, _. split; [apply runs_one; reflexivity|]. cbn. by rewrite andb_false_r.
  - set (w := mk_axis d (Z.ones (Z.of_nat 64)) false).
    destruct (Hlater ws l Hw w (parseWord 512 TCP_OPTIONAL_HEADER_SIZE (header_clear tcpOptionalHeader) (a_data w)) false)
      as (s & o & Hr & H1 & H2 & H3 & H4). exists s, ([DofWord w] ++ o). split_and!; try done.
    + eapply runs_step; [|exact Hr]. cbn. unfold dof_first. cbn. by rewrite andb_false_r.
    + unfold dof_words in *. cbn. by rewrite H4.
Qed.

Lemma parsed_packet v ws l :
  packet 64 ws (le_bytes 32 v ++ l) -> fits 256 v -> tfh_getDataOffset v = 5 -> tfh_getLength v = 20 + Z.of_nat (length l) ->
  Z.of_nat (length l) < 2 ^ 16 -> internet_checksum (le_bytes 32 v ++ l) = 0 ->
  exists out, tcp_parsed (meta_of_header v) (tfh_getDstPort v)
      (mk_fourTuple (tfh_getSrcAddr v) (tfh_getDstAddr v) (tfh_getSrcPort v) (tfh_getDstPort v)) ws out /\ payload out l.
Proof.
  intros Hw Hv Ho Hl Hlen Hc. destruct (tcts_checksum 32 ws _ ltac:(by apply (bool_decide_unpack _)) Hw) as (o1 & t & Hr1 & Hw1 & Ht & Hf).
  rewrite Hc in Hf. destruct (header_packet v ws l Hw Hv Ho Hl Hlen) as (s2 & o2 & Hr2 & Hi2 & Hw2 & Hm2 & Hp2 & Ht2 & Ho2).
  assert (toe_check_ipv4_checksum 32 [t] = ([], [true])) as Hb by (cbn [toe_check_ipv4_checksum]; by rewrite Hf).
  destruct (Nat.eqb_spec (length l) 0) as [E|E].
  - apply nil_length_inv in E as ->. exists []. split; [|by left].
    exists o1, t, true, s2, o2, [], (dof_init [] []), []. rewrite Hw1, Hw2, Ho2.
    split_and!; [exact Hr1 | exact Ht | exact Hb | exact Hr2 | exact Hi2 | exact Hm2 | exact Hp2 | exact Ht2 | | apply runs_refl | done..].
    unfold unshifted. rewrite decide_False by done. eexists. split; [apply runs_refl | done].
  - destruct (unshifted_packet 512 64 eq_refl 32 ws (le_bytes 32 v ++ l)) as (w3 & Hs3 & Hp3);
      [lia | rewrite length_app, length_le_bytes; lia | done |]. rewrite drop_app_length' in Hp3 by (by rewrite length_le_bytes).
    destruct (plain_packet w3 l (tfh_getSynFlag v) Hp3) as (s4 & o4 & Hr4 & H1 & H2 & H3 & H4).
    exists w3. split; [|by right]. exists o1, t, true, s2, o2, w3, s4, o4. by rewrite Hw1, Hw2, Ho2.
Qed.
End receive.

(** ** Theorem *)

(** The same header as that of the IP module for the TCP header and the payload. *)
Lemma tx_ip_fill_eq v len t : tx_ip_fill v len t = ip_fill (tt_srcIp t) TCP_PROTOCOL v (ipv4Meta_new (tt_dstIp t) (len + 20)).
Proof. unfold tx_ip_fill, ip_fill. cbn [im_length im_their_address ipv4Meta_new]. by replace (len + 20 + 20) with (len + 40) by lia. Qed.

(** What the receiver learns of a segment without options. *)
Definition received_meta (m : tx_engine_meta) : rxEngineMetaData :=
  mk_rxMeta (tm_seqNumb m) (tm_ackNumb m) (tm_window_size m) 0 (tm_length m) (tm_ack m) (tm_rst m) (tm_syn m) (tm_fin m) 5.

Lemma meta_of_sent `{cfg : ToeConfig} m t c :
  meta_fits m t -> tm_syn m = false ->
  let v := with_tcp_checksum (tcp_fill (h_header tcpFullPseudoHeader) m t) c in
  meta_of_header v = received_meta m /\ fits 256 v /\ tfh_getDataOffset v = 5 /\ tfh_getLength v = 20 + tm_length m /\
  tfh_getDstPort v = dstPort t /\ mk_fourTuple (tfh_getSrcAddr v) (tfh_getDstAddr v) (tfh_getSrcPort v) (tfh_getDstPort v) = t.
Proof.
  intros ok Hsyn v. destruct (header_fields m t ok c) as (Hs & Hd & Hsp & Hdp & Hseq & Hack & Hwin & Hlen & Hoff).
  destruct (header_flags m t c) as (Ha & Hr & Hy & Hf). fold v in Hs, Hd, Hsp, Hdp, Hseq, Hack, Hwin, Hlen, Hoff, Ha, Hr, Hy, Hf.
  assert (data_offset m = 5) as H5 by (unfold data_offset; by rewrite Hsyn). rewrite H5 in Hoff.
  split_and!; [| | exact Hoff | | exact Hdp |].
  - unfold meta_of_header, received_meta, tcp_payload. rewrite Hseq, Hack, Hwin, Hlen, Hoff, Ha, Hr, Hy, Hf.
    f_equal. replace (tm_length m + 20 - 5 * 4) with (tm_length m) by lia. apply wrap_small. destruct ok. unfold fits. lia.
  - apply set_bits_fits; [lia..|]. apply header_fits.
  - lia.
  - rewrite Hs, Hd, Hsp, Hdp. by destruct t.
Qed.

(** What leaves the TX engine: a packet with the header [v], which the receiver
    will find again, and a valid checksum. *)
Lemma sent_packet `{cfg : ToeConfig} fill m t ws l :
  payload ws l -> meta_fits m t -> tm_syn m = false -> tm_length m = Z.of_nat (length l) ->
  exists v out, segment_sent fill m t ws out /\
    packet 64 out (le_bytes 20 (ip_fill (srcIp t) TCP_PROTOCOL (h_header ipv4Header) (ipv4Meta_new (dstIp t) (tm_length m + 20))) ++
                   drop 12 (le_bytes 32 v) ++ l) /\
    meta_of_header v = received_meta m /\ fits 256 v /\ tfh_getDataOffset v = 5 /\ tfh_getLength v = 20 + tm_length m /\
    tfh_getDstPort v = dstPort t /\ mk_fourTuple (tfh_getSrcAddr v) (tfh_getDstAddr v) (tfh_getSrcPort v) (tfh_getDstPort v) = t /\
    le_bytes 12 (pseudo_fill (h_header tcpPseudoHeader) (mk_pseudoMeta (srcIp t) (dstIp t) (tm_length m + 20))) = le_bytes 12 v /\
    internet_checksum (le_bytes 32 v ++ l) = 0.
Proof.
  intros Hw ok Hsyn Hlen. destruct (built_packet fill m t ws l Hw Hsyn Hlen) as (w1 & H1 & Hp1).
  destruct (sealed_packet _ w1 l Hp1) as (w2 & H2 & Hp2).
  destruct (enclosed_packet fill (tm_length m) (twoTuple_of t) w2 _ Hp2) as (w3 & H3 & Hp3). rewrite tx_ip_fill_eq in Hp3.
  eexists _, w3. split; [exists w1, w2; split_and!; [exact H1 | exact H2 | exact H3]|]. split; [exact Hp3|].
  destruct (meta_of_sent m t (internet_checksum (le_bytes 32 (tcp_fill (h_header tcpFullPseudoHeader) m t) ++ l)) ok Hsyn) as (E1 & E2 & E3 & E4 & E5 & E6).
  split_and!; [exact E1 | exact E2 | exact E3 | exact E4 | exact E5 | exact E6 | by apply pseudo_header |].
  exact (segment_valid _ m t l (payload_fits ws l Hw)).
Qed.

(** C13: A segment arrives: for the meta data and the payload of any segment that is
    not a SYN (data, a pure acknowledgement, a FIN or a reset; the payload may be
    empty), the TX engine builds the headers, computes the checksum over the pseudo
    header and puts it into the segment, which is framed and padded; the receiver
    sorts the frame, checks the IP header, cuts the padding, and its RX engine
    builds the pseudo header again, finds the checksum right, and hands the state
    machine exactly the numbers, the window, the flags and the length that were
    sent, the port table the destination port, the session lookup the addresses,
    and the memory the bytes of the payload. *)
Theorem segment_delivered `{cfg : ToeConfig} (fill mask gateway myMac mac : Z) (m : tx_engine_meta) (t : fourTuple) ws l :
  payload ws l -> meta_fits m t -> tm_syn m = false -> tm_length m = Z.of_nat (length l) ->
  exists ipWs frame wire packetWs out,
    segment_sent fill m t ws ipWs /\
    framed fill mask gateway myMac (next_hop mask gateway (dstIp t)) mac ipWs frame /\ padded frame wire /\
    handled ToTCP (dstIp t) wire packetWs /\
    segment_received fill (received_meta m) (dstPort t) t packetWs out /\ payload out l.
Proof.
  intros Hw ok Hsyn Hlen. destruct (sent_packet fill m t ws l Hw ok Hsyn Hlen) as (v & w1 & H1 & Hp1 & Hm & Hfv & Hoff & Hl & Hport & Htup & Hps & Hc).
  assert (0 <= tm_length m < 2 ^ 16 - 40) as Hrange by apply ok. assert (fits 32 (srcIp t) /\ fits 32 (dstIp t)) as [Hsrc Hdst] by (split; apply ok).
  assert (Z.of_nat (length (drop 12 (le_bytes 32 v) ++ l)) = tm_length m + 20) as Hbody by (rewrite length_app, length_drop, length_le_bytes; lia).
  rewrite <- Hbody in Hp1 at 1.
  destruct (carried_packet fill mask gateway myMac mac (srcIp t) TCP_PROTOCOL ToTCP (dstIp t) w1 (drop 12 (le_bytes 32 v) ++ l) Hsrc ltac:(done) Hdst eq_refl ltac:(lia) Hp1)
    as (vi & w2 & w3 & w4 & H2 & H3 & H4 & Hp4 & Hfi & Hbi & Hs & Hd & Hil).
  destruct (exposed_packet fill vi w4 (drop 12 (le_bytes 32 v)) l Hp4 Hfi Hbi) as (w5 & H5 & Hp5); [by rewrite length_drop, length_le_bytes|].
  rewrite Hs, Hd, Hil, Hbody in H5, Hp5. assert (u16 (tm_length m + 20 + 20 - 20) = tm_length m + 20) as El.
  { rewrite wrap_small by (unfold fits; lia). lia. }
  rewrite El in H5, Hp5. rewrite Hps, <- (take_le_bytes_le 12 32 v), app_assoc, take_drop in Hp5 by lia.
  destruct (parsed_packet v w5 l Hp5 Hfv Hoff ltac:(lia) ltac:(lia) Hc) as (out & H6 & Hp6).
  exists w1, w2, w3, w4, out. split_and!; [exact H1 | exact H2 | exact H3 | exact H4 | | exact Hp6].
  eexists _, w5. split; [exact H5|]. rewrite <- Hm, <- Hport. rewrite <- Htup. exact H6.
Qed.

(** Three bytes from 10.1.2.3, port 500, to 10.1.2.4, port 5001. *)
Definition demo_tuple : fourTuple := mk_fourTuple 0x0302010A 0x0402010A 0xF401 0x8913.
Definition demo_segment : tx_engine_meta := mk_txMeta 0x12345678 0x9ABCDEF0 0x7210 0 3 true false false false.

Lemma segment_delivered_witness :
  let cfg := sim_config 16 false true in
  let ws := [mk_axis 0x0A0B0C 7 true] in
  packet 64 ws [12; 11; 10] /\
  exists ipWs frame wire packetWs out,
    segment_sent 0 demo_segment demo_tuple ws ipWs /\
    framed 0 0x00FFFFFF 0x0102010A 0x1000 (next_hop 0x00FFFFFF 0x0102010A 0x0402010A) 0x2000 ipWs frame /\ padded frame wire /\
    handled ToTCP 0x0402010A wire packetWs /\
    segment_received 0 (mk_rxMeta 0x12345678 0x9ABCDEF0 0x7210 0 3 true false false false 5) 0x8913 demo_tuple packetWs out /\
    payload out [12; 11; 10].
Proof.
  intros cfg ws. assert (packet 64 ws [12; 11; 10]) as Hw by (apply (packet_last 64 0x0A0B0C 3); lia). split; [exact Hw|].
  assert (meta_fits demo_segment demo_tuple) as ok by (constructor; split; vm_compute; congruence).
  exact (segment_delivered 0 0x00FFFFFF 0x0102010A 0x1000 0x2000 demo_segment demo_tuple ws [12; 11; 10] (or_intror Hw) ok eq_refl eq_refl).
Defined.
