(* ===== verification/TxFacts.v ===== *)
(** Retransmission by the meta loader (TxEngine): the segments sent for an event
    of the retransmit timer cover the bytes that have not been acknowledged. *)
From stdpp Require Import base numbers list strings.
From Stdlib Require Import ZArith Lia.
From S2P Require Import Prelude ToeTypes Axi Streams StreamsFacts RxFsm TxEngine.

Local Open Scope Z_scope.

Definition sent_metas (o : list ml_out) : list tx_engine_meta := omap (fun x => match x with MlTcpMeta m => Some m | _ => None end) o.
Definition read_cmds (o : list ml_out) : list mmCmd := omap (fun x => match x with MlReadCmd c => Some c | _ => None end) o.
Definition bypasses (o : list ml_out) : list bool := omap (fun x => match x with MlBypass b => Some b | _ => None end) o.
Definition sar_writes (o : list ml_out) : list txTxSarQuery := omap (fun x => match x with MlTxSar q => Some q | _ => None end) o.
Definition armed (o : list ml_out) : list txRetransmitTimerSet := omap (fun x => match x with MlTimer s => Some s | _ => None end) o.

(** Consecutive segments of the given lengths: where each starts, and its length. *)
Fixpoint numbered (seq : Z) (lens : list Z) : list (Z * Z) :=
  match lens with
  | [] => []
  | len :: lens' => (seq, len) :: numbered (u32 (seq + len)) lens'
  end.

Definition total (lens : list Z) : Z := foldr Z.add 0 lens.

Section retransmission.
Context `{cfg : ToeConfig} (uninit : txTxSarReply) (no_tuple : fourTuple).
Hypothesis mss_range : 0 < MSS < 2 ^ 16.

Abbreviation f := (metaLoader uninit no_tuple).

(** The lengths of the segments, [k] of them at most. *)
Fixpoint cut (k : nat) (used : Z) : list Z :=
  match k with
  | O => []
  | S k' => if MSS <? used then MSS :: cut k' (used - MSS) else if used =? 0 then [] else [used]
  end.

Lemma cut_total k used : 0 <= used -> total (cut k used) = Z.min used (Z.of_nat k * MSS).
Proof.
  revert used. induction k as [|k IH]; intros used H; [cbn; lia|]. cbn [cut]. split_ifs; cbn [total foldr]; [|lia|lia].
  fold (total (cut k (used - MSS))). rewrite IH by lia. lia.
Qed.

Lemma cut_sizes k used : 0 <= used -> Forall (fun len => 0 < len <= MSS) (cut k used).
Proof.
  revert used. induction k as [|k IH]; intros used H; [constructor|]. cbn [cut].
  split_ifs; repeat constructor; try lia. apply IH. lia.
Qed.

(** The meta loader waits for the next event. *)
Definition rests (s : ml) (events : list extendedEvent) (rxs : list rxSarReply) (txs : list txTxSarReply) : Prop :=
  ml_busy s = false /\ eventEng2txEng_event s = events /\ rxSar2txEng_rsp s = rxs /\ txSar2txEng_upd_rsp s = txs.

(** What a retransmission writes for consecutive segments of these lengths, and
    the FIN behind them. *)
Record resent (writes : list txTxSarQuery) (id : Z) (r : rxSarReply) (shift seq : Z) (lens : list Z) (fin : list Z) (o : list ml_out) : Prop := {
  rs_metas : sent_metas o = ((fun '(q, len) => data_meta r q len shift false) <$> numbered seq lens) ++
               ((fun q => data_meta r q 0 shift true) <$> fin);
  rs_reads : read_cmds o = (fun '(q, len) => mmCmd_new (pkgAddr id q) len) <$> numbered seq lens;
  rs_memory : Forall (fun b => b = false) (bypasses o) /\ length (bypasses o) = length lens;
  rs_timer : armed o = replicate (length lens + length fin) (txRetransmitTimerSet_new id RT);
  rs_table : sar_writes o = writes
}.

Lemma resent_segment w id r shift seq len lens fin o :
  resent w id r shift (u32 (seq + len)) lens fin o ->
  resent w id r shift seq (len :: lens) fin
    (([MlReadCmd (mmCmd_new (pkgAddr id seq) len)] ++ segment (data_meta r seq len shift false) id ++
      [MlBypass false; set_timer id RT]) ++ o).
Proof.
  intros [H1 H2 [H3 H4] H5 H6]. constructor.
  - unfold sent_metas in *. rewrite omap_app, H1. done.
  - unfold read_cmds in *. rewrite omap_app, H2. done.
  - unfold bypasses in *. rewrite omap_app. cbn. rewrite H4. by repeat constructor.
  - unfold armed in *. rewrite omap_app, H5. done.
  - unfold sar_writes in *. by rewrite omap_app, H6.
Qed.

Lemma resent_nothing id r shift seq : resent [] id r shift seq [] [] [].
Proof. repeat constructor. Qed.

(** The FIN behind the segments: after a timeout ([again]) it is sent with its own
    number; the event of a fast retransmission has no count, and the FIN is sent
    with the number behind it, which the table is told. *)
Definition fin_number (again : bool) (t : txTxSarReply) : Z := if again then u32 (tr_not_ackd t - 1) else tr_not_ackd t.
Definition fin_write (again : bool) (id : Z) (t : txTxSarReply) : list txTxSarQuery :=
  if again then [] else [txTxSarQuery_write id (tr_not_ackd t + 1) false true true].

Definition repeated (x : extendedEvent) : bool := negb (ev_rt_count (ee_event x) =? 0).

(** The calls after the first, and the FIN. *)
Lemma rt_fin x rand count r t m events rxs txs :
  ev_type (ee_event x) = FIN ->
  exists s o, runs f (mk_ml true true x rand count r t m events rxs txs) s o /\ rests s events rxs txs /\
    forall seq, resent (fin_write (repeated x) (ev_sessionID (ee_event x)) t) (ev_sessionID (ee_event x)) r (tm_win_shift m) seq []
      [fin_number (repeated x) t] o.
Proof.
  intros Hty. eexists _, _. split; [apply runs_one; cbn [metaLoader negb]; rewrite Hty; reflexivity|].
  split; [done|]. unfold ml_fin, fin_write, fin_number, repeated.
  destruct (ev_rt_count (ee_event x) =? 0); by repeat constructor.
Qed.

(** One call: a full segment, or the last bytes. *)
Lemma rt_full x rand count r t m events rxs txs :
  ev_type (ee_event x) = RT -> MSS < tr_usedLength t ->
  let id := ev_sessionID (ee_event x) in
  let m' := data_meta r (tr_ackd t) MSS (tm_win_shift m) false in
  f (mk_ml true true x rand count r t m events rxs txs) =
  (mk_ml (negb (count =? 3)) true x rand (wrap 2 (count + 1)) r
     (mk_txTxSarReply (u32 (tr_ackd t + MSS)) (tr_not_ackd t) (tr_usableWindow t) (tr_app t)
        (wrap WINDOW_BITS (tr_usedLength t - MSS)) (tr_finReady t) (tr_finSent t)) m' events rxs txs,
   [MlReadCmd (mmCmd_new (pkgAddr id (tr_ackd t)) MSS)] ++ segment m' id ++ [MlBypass false; set_timer id RT]).
Proof.
  intros Hty Hu id m'. cbn [metaLoader negb]. rewrite Hty. unfold ml_rt. rewrite (proj2 (Z.ltb_lt _ _) Hu).
  rewrite (proj2 (Z.eqb_neq MSS 0)) by lia. by destruct (count =? 3).
Qed.

Lemma rt_last x rand count r t m events rxs txs :
  ev_type (ee_event x) = RT -> 0 <= tr_usedLength t <= MSS ->
  let id := ev_sessionID (ee_event x) in
  let m' := data_meta r (tr_ackd t) (tr_usedLength t) (tm_win_shift m) false in
  f (mk_ml true true x rand count r t m events rxs txs) =
  (mk_ml (tr_finSent t) true (if tr_finSent t then retype FIN x else x) rand count r t m' events rxs txs,
   if tr_usedLength t =? 0 then []
   else [MlReadCmd (mmCmd_new (pkgAddr id (tr_ackd t)) (tr_usedLength t))] ++ segment m' id ++ [MlBypass false; set_timer id RT]).
Proof.
  intros Hty Hu id m'. cbn [metaLoader negb]. rewrite Hty. unfold ml_rt. rewrite (proj2 (Z.ltb_ge _ _)) by lia.
  rewrite wrap_small by (unfold fits; lia). by destruct (tr_finSent t).
Qed.

(** The number of the FIN, if it has been sent and [k] segments reach it, and
    what is written to the table for it. *)
Definition fin_reached (k : nat) (t : txTxSarReply) : bool := tr_finSent t && (tr_usedLength t <=? Z.of_nat k * MSS).
Definition fin_numbers (k : nat) (again : bool) (t : txTxSarReply) : list Z := if fin_reached k t then [fin_number again t] else [].
Definition fin_writes (k : nat) (again : bool) (id : Z) (t : txTxSarReply) : list txTxSarQuery :=
  if fin_reached k t then fin_write again id t else [].

Lemma rt_ends x rand count r t m events rxs txs :
  ev_type (ee_event x) = RT -> 0 <= tr_usedLength t <= MSS ->
  exists s o, runs f (mk_ml true true x rand count r t m events rxs txs) s o /\ rests s events rxs txs /\
    resent (if tr_finSent t then fin_write (repeated x) (ev_sessionID (ee_event x)) t else [])
      (ev_sessionID (ee_event x)) r (tm_win_shift m) (tr_ackd t) (if tr_usedLength t =? 0 then [] else [tr_usedLength t])
      (if tr_finSent t then [fin_number (repeated x) t] else []) o.
Proof.
  intros Hty Hu. pose proof (rt_last x rand count r t m events rxs txs Hty Hu) as Hstep. cbn zeta in Hstep.
  destruct (tr_finSent t).
  - edestruct (rt_fin (retype FIN x) rand count r t) as (s & o & Hr & Hs & Ho); [done|].
    exists s. eexists. split; [eapply runs_step; [exact Hstep | exact Hr]|]. split; [exact Hs|].
    destruct (tr_usedLength t =? 0); [apply Ho | apply resent_segment, Ho].
  - eexists _, _. split; [by apply runs_one|]. split; [done|].
    destruct (tr_usedLength t =? 0); [apply resent_nothing|]. rewrite <- (app_nil_r (_ ++ _)).
    apply resent_segment, resent_nothing.
Qed.

Lemma rt_loop x rand r events rxs txs (k : nat) :
  ev_type (ee_event x) = RT -> forall t m, (0 < k <= 4)%nat -> fits WINDOW_BITS (tr_usedLength t) ->
  exists s o, runs f (mk_ml true true x rand (4 - Z.of_nat k) r t m events rxs txs) s o /\ rests s events rxs txs /\
    resent (fin_writes k (repeated x) (ev_sessionID (ee_event x)) t) (ev_sessionID (ee_event x)) r (tm_win_shift m) (tr_ackd t)
      (cut k (tr_usedLength t)) (fin_numbers k (repeated x) t) o.
Proof.
  intros Hty. induction k as [|k IH]; intros t m Hk Hu; [lia|].
  destruct (Z.ltb_spec MSS (tr_usedLength t)) as [Hmore|Hlast].
  - pose proof (rt_full x rand (4 - Z.of_nat (S k)) r t m events rxs txs Hty Hmore) as Hstep. cbn zeta in Hstep.
    cbn [cut]. rewrite (proj2 (Z.ltb_lt _ _)) by done. destruct k as [|k].
    + eexists _, _. split; [apply runs_one; exact Hstep|]. split; [done|]. unfold fin_numbers.
      unfold fin_writes, fin_reached. rewrite (proj2 (Z.leb_gt _ _)), andb_false_r by lia. cbn [cut].
      rewrite <- (app_nil_r (_ ++ _)). apply resent_segment, resent_nothing.
    + rewrite (proj2 (Z.eqb_neq _ 3)), (wrap_small 2) in Hstep by (unfold fits; lia). cbn [negb] in Hstep.
      replace (4 - Z.of_nat (S (S k)) + 1) with (4 - Z.of_nat (S k)) in Hstep by lia.
      assert (wrap WINDOW_BITS (tr_usedLength t - MSS) = tr_usedLength t - MSS) as Hw by (apply wrap_small; unfold fits in *; lia).
      rewrite Hw in Hstep.
      set (t' := mk_txTxSarReply (u32 (tr_ackd t + MSS)) (tr_not_ackd t) (tr_usableWindow t) (tr_app t)
                   (tr_usedLength t - MSS) (tr_finReady t) (tr_finSent t)) in Hstep.
      destruct (IH t' (data_meta r (tr_ackd t) MSS (tm_win_shift m) false)) as (s & o & Hr & Hs & Ho);
        [lia | cbn; unfold fits in *; lia|].
      eexists s, _. split; [eapply runs_step; [exact Hstep | exact Hr]|]. split; [exact Hs|].
      assert (fin_reached (S (S k)) t = fin_reached (S k) t') as Hreached;
        [|unfold fin_numbers, fin_writes in *; rewrite Hreached; by apply resent_segment].
      unfold fin_reached, t'. cbn [tr_finSent tr_usedLength tr_not_ackd].
      f_equal. apply eq_true_iff_eq. rewrite !Z.leb_le. lia.
  - edestruct (rt_ends x rand (4 - Z.of_nat (S k)) r t m) as (s & o & Hr & Hs & Ho); [done | unfold fits in Hu; lia|].
    exists s, o. split; [exact Hr|]. split; [exact Hs|]. unfold fin_numbers, fin_writes, fin_reached. cbn [cut].
    rewrite (proj2 (Z.ltb_ge _ _)) by done. rewrite (proj2 (Z.leb_le _ _)), andb_true_r by lia. exact Ho.
Qed.

(** The first call takes the answers of the tables. *)
Lemma rt_first x rand r t rx reg m events rxs txs :
  ev_type (ee_event x) = RT ->
  let s := mk_ml true false x rand 0 rx reg m events (r :: rxs) (t :: txs) in
  let '(s', o) := f (mk_ml true true x rand 0 r t m events rxs txs) in
  f s = (s', (if ev_rt_count (ee_event x) =? 1
              then [MlTxSar (txTxSarRtQuery (ev_sessionID (ee_event x)) (new_threshold (tr_usedLength t)))] else []) ++ o).
Proof.
  intros Hty s. subst s. cbn [metaLoader negb]. rewrite Hty. unfold ml_rt. cbn [negb andb].
  by destruct (ev_rt_count (ee_event x) =? 1).
Qed.

Lemma resent_told writes w id r shift seq lens fin o :
  resent w id r shift seq lens fin o -> resent (writes ++ w) id r shift seq lens fin ((MlTxSar <$> writes) ++ o).
Proof.
  assert (forall {A} (p : ml_out -> option A), (forall q, p (MlTxSar q) = None) -> omap p ((MlTxSar <$> writes) ++ o) = omap p o) as Hnone.
  { intros A p Hp. rewrite omap_app. induction writes as [|q qs IH]; [done|]. cbn. by rewrite Hp. }
  assert (omap (fun x => match x with MlTxSar q => Some q | _ => None end) (MlTxSar <$> writes) = writes) as Hw.
  { clear Hnone. induction writes as [|q qs IH]; [done|]. cbn. by rewrite IH. }
  intros [H1 H2 H34 H5 H6].
  constructor; unfold sent_metas, read_cmds, bypasses, armed, sar_writes in *; rewrite ?Hnone by done; [done..|].
  by rewrite omap_app, Hw, H6.
Qed.

End retransmission.

(** C22: Retransmission sends what is missing: when the retransmit timer or a third
    duplicate acknowledgement asks for it and the tables have answered, the meta
    loader sends consecutive segments of at most [MSS] bytes, the first at the
    oldest byte that is not acknowledged, whose lengths add up to the length the
    table reports as outstanding (to four segments at most); every one is read
    from the memory at the address of its sequence number, never taken from the
    application, and arms the timer; the congestion control is told at the first
    timeout only; and the meta loader comes to rest after finitely many calls.
    With a FIN outstanding two things differ from what is meant: the length the
    table reports counts the FIN, so that the last segment has one byte more than
    the application gave; and while after a timeout the FIN follows with its own
    number, after the third duplicate acknowledgement it follows with the number
    behind that, and the table is told that it has been sent there. *)
Theorem retransmission_complete `{cfg : ToeConfig} uninit no_tuple x rand rx reg m events r t rxs txs :
  0 < MSS < 2 ^ 16 -> fits WINDOW_BITS (tr_usedLength t) -> ev_type (ee_event x) = RT ->
  let id := ev_sessionID (ee_event x) in
  exists s o lens,
    runs (metaLoader uninit no_tuple) (mk_ml true false x rand 0 rx reg m events (r :: rxs) (t :: txs)) s o /\
    rests s events rxs txs /\
    Forall (fun len => 0 < len <= MSS) lens /\ total lens = Z.min (tr_usedLength t) (4 * MSS) /\
    resent ((if ev_rt_count (ee_event x) =? 1 then [txTxSarRtQuery id (new_threshold (tr_usedLength t))] else []) ++
            fin_writes 4 (repeated x) id t)
      id r (tm_win_shift m) (tr_ackd t) lens (fin_numbers 4 (repeated x) t) o.
Proof.
  intros Hm Hu Hty id.
  destruct (rt_loop uninit no_tuple Hm x rand r events rxs txs 4 Hty t m ltac:(lia) Hu) as (s & o & Hr & Hs & Ho).
  pose proof (rt_first uninit no_tuple x rand r t rx reg m events rxs txs Hty) as Hfirst. cbn zeta in Hfirst.
  destruct (runs_first _ _ _ _ Hr) as [-> | (s1 & o1 & o2 & Hf & -> & Hr')]; [by destruct Hs|]. change (4 - Z.of_nat 4) with 0 in Hf.
  rewrite Hf in Hfirst. cbn beta iota in Hfirst. exists s. eexists _, (cut 4 (tr_usedLength t)).
  split; [eapply runs_step; [exact Hfirst | exact Hr']|]. split; [exact Hs|].
  split; [apply cut_sizes; [exact Hm | apply Hu] | split; [apply cut_total; [exact Hm | apply Hu]|]].
  rewrite <- app_assoc. destruct (_ =? 1); [exact (resent_told [_] _ _ _ _ _ _ _ _ Ho) | exact Ho].
Qed.

(** 10000 bytes and a FIN, for the second timeout in a row. *)
Definition demo_outstanding : txTxSarReply := mk_txTxSarReply 0xFFFFF000 5905 0 0 10000 true true.
Definition demo_window : rxSarReply := mk_rxSarReply 77 0 0x7000.
Definition demo_meta : tx_engine_meta := mk_txMeta 0 0 0 0 0 false false false false.
Definition no_reply : txTxSarReply := mk_txTxSarReply 0 0 0 0 0 false false.

Lemma retransmission_complete_witness :
  let cfg := sim_config 16 false true in
  let x := extend (event_rt RT 5 2) in
  exists s o lens,
    runs (metaLoader no_reply (mk_fourTuple 0 0 0 0))
      (mk_ml true false x 1 0 demo_window no_reply demo_meta [] [demo_window] [demo_outstanding]) s o /\
    rests s [] [] [] /\
    Forall (fun len => 0 < len <= 4096) lens /\ total lens = 10000 /\
    resent [] 5 demo_window 0 0xFFFFF000 lens [5904] o.
Proof.
  intros cfg x.
  assert (0 < MSS < 2 ^ 16) as Hm by (split; done).
  assert (fits WINDOW_BITS (tr_usedLength demo_outstanding)) as Hu by (split; vm_compute; congruence).
  exact (retransmission_complete no_reply (mk_fourTuple 0 0 0 0) x 1 demo_window no_reply demo_meta [] demo_window demo_outstanding [] []
           Hm Hu eq_refl).
Defined.

(** The same for the event of a fast retransmission, which has no count: the FIN
    is taken for a first one, so that it gets a new number and [not_ackd] moves on. *)
Example fast_retransmission_fin :
  let cfg := sim_config 16 false true in
  let s := mk_ml true false (extend (event_id RT 5)) 1 0 demo_window no_reply demo_meta [] [demo_window]
             [mk_txTxSarReply 100 301 0 0 201 true true] in
  let o := snd (calls (metaLoader no_reply (mk_fourTuple 0 0 0 0)) 2 s) in
  tm_seqNumb <$> sent_metas o = [100; 301] /\ sar_writes o = [txTxSarQuery_write 5 302 false true true].
Proof. split; vm_compute; reflexivity. Qed.
