(* ===== verification/RxMemory.v ===== *)
(** Received data on its way to memory (RxEngine): a segment that runs over the
    end of its session's buffer is split in two writes. *)
From stdpp Require Import base numbers list strings.
From Stdlib Require Import ZArith Lia.
From S2P Require Import Prelude ToeTypes Axi Streams StreamsFacts Wire RxFsm RxEngine.

Local Open Scope Z_scope.

Definition rmw_words (o : list rmw_out) : list net_axis := omap (fun x => match x with RmwWord w => Some w | _ => None end) o.
Definition rmw_cmds (o : list rmw_out) : list mmCmd := omap (fun x => match x with RmwCmd c => Some c | _ => None end) o.
Definition rmw_doubles (o : list rmw_out) : list bool := omap (fun x => match x with RmwDouble d => Some d | _ => None end) o.

(** ** The place where a command is cut *)

Lemma first_length `{cfg : ToeConfig} a : 0 < bits a 0 WINDOW_BITS -> wrap WINDOW_BITS (BUFFER_SIZE - a) = BUFFER_SIZE - bits a 0 WINDOW_BITS.
Proof.
  pose proof window_bits_range. rewrite BUFFER_SIZE_pow. intros Ha. assert (fits WINDOW_BITS (bits a 0 WINDOW_BITS)) as Hr by (apply bits_range; lia).
  rewrite bits_wrap, Z.shiftr_0_r in * by lia. unfold wrap, fits in *. symmetry.
  apply Z.mod_unique with (- (a / 2 ^ WINDOW_BITS)); [lia|]. pose proof (Z.div_mod a (2 ^ WINDOW_BITS)). lia.
Qed.

Lemma window_start `{cfg : ToeConfig} a : set_bits a 0 WINDOW_BITS 0 = a - bits a 0 WINDOW_BITS.
Proof.
  pose proof window_bits_range. transitivity (Z.shiftl (Z.shiftr a WINDOW_BITS) WINDOW_BITS).
  - apply Z.bits_inj'. intros i Hi. rewrite set_bits_testbit, Z.shiftl_spec by lia. destruct (Z.ltb_spec i WINDOW_BITS).
    + rewrite (proj2 (Z.leb_le 0 i)), (proj2 (Z.ltb_lt i (0 + WINDOW_BITS))) by lia. cbn. by rewrite Z.bits_0, Z.testbit_neg_r by lia.
    + rewrite (proj2 (Z.ltb_ge i (0 + WINDOW_BITS))), andb_false_r, Z.shiftr_spec by lia. f_equal. lia.
  - rewrite bits_wrap, Z.shiftr_0_r, Z.shiftl_mul_pow2, Z.shiftr_div_pow2 by lia. unfold wrap.
    pose proof (Z.div_mod a (2 ^ WINDOW_BITS)). lia.
Qed.

Section rxEngMemWrite.
Context `{cfg : ToeConfig} (W KB : Z) (n : nat).
Hypothesis width : W = 8 * Z.of_nat n.
Hypothesis keep_bits : 0 <= KB /\ Z.of_nat n = 2 ^ KB.
Hypothesis narrow : (n <= 64)%nat.

Abbreviation f := (rxEngMemWrite W KB).

Lemma words_bytes : W / 8 = Z.of_nat n.
Proof. rewrite width, Z.mul_comm. by apply Z.div_mul. Qed.

(** The states from which the rest of the second packet is written. *)
Definition aligning (o : nat) (cmd : mmCmd) (rem first : Z) (p : net_axis) (i : list net_axis) : rmw :=
  mk_rmw ALIGN_SECOND cmd rem first (Z.of_nat o) p [] i.

Lemma align_joins o cmd rem first :
  (0 < o < n)%nat ->
  joins n o f RmwWord (aligning o cmd rem first) (fun p i => mk_rmw RESIDUE cmd rem first (Z.of_nat o) p [] i)
    (fun p i => mk_rmw RMW_IDLE cmd rem first (Z.of_nat o) p [] i).
Proof.
  intros Ho. constructor; [|by rewrite <- width].
  intros p c k input Hk Hkn Hlast. unfold aligning. cbn [rxEngMemWrite]. rewrite <- width.
  rewrite Hk, ones_testbit by lia.
  assert (negb (Z.of_nat o <? Z.of_nat k) = bool_decide (k <= o)%nat) as E.
  { destruct (Z.ltb_spec (Z.of_nat o) (Z.of_nat k)); [rewrite bool_decide_eq_false_2 by lia | rewrite bool_decide_eq_true_2 by lia]; done. }
  rewrite E. destruct (a_last c); [by destruct (bool_decide _)|].
  rewrite Hlast by done. by rewrite bool_decide_eq_false_2 by lia.
Qed.

Lemma keep_of_length (r : nat) : (0 < r < n)%nat -> wrap (W / 8) (lenToKeep (wrap 6 (Z.of_nat r))) = Z.ones (Z.of_nat r).
Proof.
  intros Hr. rewrite lenToKeep_ones, words_bytes, Z.ones_equiv by lia.
  pose proof (Z.pow_le_mono_r 2 (Z.of_nat r) (Z.of_nat n)). pose proof (pow2_pos (Z.of_nat r)).
  apply wrap_small. unfold fits. lia.
Qed.

(** The outputs of a run, stream by stream. *)
Definition rmw_wrote (o : list rmw_out) (ws : list net_axis) (cmds : list mmCmd) (doubles : list bool) : Prop :=
  rmw_words o = ws /\ rmw_cmds o = cmds /\ rmw_doubles o = doubles.

Lemma wrote_app o1 o2 w1 w2 c1 c2 d1 d2 :
  rmw_wrote o1 w1 c1 d1 -> rmw_wrote o2 w2 c2 d2 -> rmw_wrote (o1 ++ o2) (w1 ++ w2) (c1 ++ c2) (d1 ++ d2).
Proof.
  unfold rmw_wrote, rmw_words, rmw_cmds, rmw_doubles. rewrite !omap_app. by intros (-> & -> & ->) (-> & -> & ->).
Qed.

Lemma wrote_words ws : rmw_wrote (RmwWord <$> ws) ws [] [].
Proof. unfold rmw_wrote, rmw_words, rmw_cmds, rmw_doubles. by rewrite omap_words, !omap_none. Qed.

(** A segment has been written. *)
Definition rmw_done (s : rmw) : Prop := rmw_state s = RMW_IDLE /\ rmw_cmdIn s = [] /\ rmw_dataIn s = [].

Lemma forward_rest cmd rem first off prev ws l :
  packet n ws l ->
  exists s, runs f (mk_rmw FWD_ALIGNED cmd rem first off prev [] ws) s (RmwWord <$> ws) /\ rmw_done s.
Proof.
  intros Hw. exists (mk_rmw RMW_IDLE cmd rem first off prev [] []). split; [|done].
  pose proof (forward_out f RmwWord n (fun i => mk_rmw FWD_ALIGNED cmd rem first off prev [] i)
    (fun i => mk_rmw RMW_IDLE cmd rem first off prev [] i) ltac:(intros w i; cbn; by destruct (a_last w)) ws l [] Hw) as Hr.
  by rewrite app_nil_r in Hr.
Qed.

(** The word in which the first packet ends. *)
Lemma cut_packet_first cmd F ws l :
  packet n ws l -> forall r prev, (0 < r < length l)%nat ->
  exists s o w1 w2, runs f (mk_rmw CUT_FIRST cmd (Z.of_nat r) F (Z.of_nat (r mod n)) prev [] ws) s o /\ rmw_done s /\
    rmw_wrote o (w1 ++ w2) [second_cmd cmd F] [] /\ packet n w1 (take r l) /\ packet n w2 (drop r l).
Proof.
  induction 1 as [d k Hk|d ws l Hw IH]; intros r prev Hr.
  - rewrite length_take, length_le_bytes in Hr. rewrite Nat.mod_small by lia.
    set (p := mk_axis d (Z.ones (Z.of_nat k)) true).
    exists (mk_rmw RMW_IDLE (second_cmd cmd F) (Z.of_nat r) F (Z.of_nat r) p [] []),
      [RmwCmd (second_cmd cmd F); RmwWord (mk_axis d (Z.ones (Z.of_nat r)) true); RmwWord (rshift_join W (Z.of_nat r) p (mk_axis 0 0 false) true)],
      [mk_axis d (Z.ones (Z.of_nat r)) true], [rshift_join W (Z.of_nat r) p (mk_axis 0 0 false) true]. split_and!; try done.
    + apply (runs_step _ _ (mk_rmw RESIDUE (second_cmd cmd F) (Z.of_nat r) F (Z.of_nat r) p [] []) _
        [RmwCmd (second_cmd cmd F); RmwWord (mk_axis d (Z.ones (Z.of_nat r)) true)] [RmwWord _]); [|by apply runs_one].
      cbn [rxEngMemWrite]. rewrite words_bytes, (proj2 (Z.ltb_ge (Z.of_nat n) (Z.of_nat r))) by lia.
      rewrite (proj2 (Z.eqb_neq (Z.of_nat r) (Z.of_nat n))) by lia. rewrite <- words_bytes, keep_of_length by lia. done.
    + rewrite take_take. replace (r `min` k)%nat with r by lia. constructor. lia.
    + rewrite width. apply (rest_packet n r ltac:(lia) p k); [done | lia].
  - assert (length (le_bytes n d ++ l) = n + length l)%nat as Hl by (by rewrite length_app, length_le_bytes). rewrite Hl in Hr.
    set (w := mk_axis d (Z.ones (Z.of_nat n)) false). destruct (Nat.lt_trichotomy n r) as [Hnr|[Hnr|Hnr]].
    + destruct (IH (r - n)%nat w ltac:(lia)) as (s & o & w1 & w2 & Hrun & Hd & Hwr & Hp1 & Hp2).
      exists s, ([RmwWord w] ++ o), (w :: w1), w2. split_and!; [|done|by apply (wrote_app [RmwWord w] o [w] _ [] _ [] [])|..].
      * eapply runs_step; [|exact Hrun]. cbn [rxEngMemWrite]. rewrite words_bytes, (proj2 (Z.ltb_lt (Z.of_nat n) (Z.of_nat r))) by lia.
        rewrite <- (Nat2Z.inj_sub r n) by lia. do 3 f_equal. replace r with ((r - n) + 1 * n)%nat at 1 by lia. by rewrite Nat.Div0.mod_add.
      * rewrite take_app_ge, length_le_bytes by (rewrite length_le_bytes; lia). by constructor.
      * by rewrite drop_app_ge, length_le_bytes by (rewrite length_le_bytes; lia).
    + subst r. destruct (forward_rest (second_cmd cmd F) (Z.of_nat n) F (Z.of_nat (n mod n)) w ws l Hw) as (s & Hrun & Hd).
      exists s, ([RmwCmd (second_cmd cmd F); RmwWord (mk_axis d (Z.ones (Z.of_nat n)) true)] ++ (RmwWord <$> ws)),
        [mk_axis d (Z.ones (Z.of_nat n)) true], ws. split_and!; [|done|..].
      * eapply runs_step; [|exact Hrun]. cbn [rxEngMemWrite]. by rewrite words_bytes, Z.ltb_irrefl, Z.eqb_refl.
      * apply (wrote_app _ _ [_] ws [_] [] [] []); [done | apply wrote_words].
      * rewrite take_app_length' by (by rewrite length_le_bytes). rewrite <- (firstn_all (le_bytes n d)), length_le_bytes. constructor. lia.
      * by rewrite drop_app_length' by (by rewrite length_le_bytes).
    + rewrite Nat.mod_small by lia.
      destruct (join_rest n r ltac:(lia) _ _ _ _ _ (align_joins r (second_cmd cmd F) (Z.of_nat r) F ltac:(lia)) ws l [] w Hw eq_refl)
        as (p' & out & Hrun & Hout). rewrite app_nil_r in Hrun.
      exists (mk_rmw RMW_IDLE (second_cmd cmd F) (Z.of_nat r) F (Z.of_nat r) p' [] []),
        ([RmwCmd (second_cmd cmd F); RmwWord (mk_axis d (Z.ones (Z.of_nat r)) true)] ++ (RmwWord <$> out)),
        [mk_axis d (Z.ones (Z.of_nat r)) true], out. split_and!; [|done|..].
      * eapply runs_step; [|exact Hrun]. cbn [rxEngMemWrite]. rewrite words_bytes, (proj2 (Z.ltb_ge (Z.of_nat n) (Z.of_nat r))) by lia.
        rewrite (proj2 (Z.eqb_neq (Z.of_nat r) (Z.of_nat n))) by lia. rewrite <- words_bytes, keep_of_length by lia. done.
      * apply (wrote_app _ _ [_] out [_] [] [] []); [done | apply wrote_words].
      * rewrite take_app_le by (rewrite length_le_bytes; lia). constructor. lia.
      * rewrite drop_app_le by (rewrite length_le_bytes; lia). exact Hout.
Qed.

Lemma first_offset (r : nat) : bits (Z.of_nat r) 0 KB = Z.of_nat (r mod n).
Proof. destruct keep_bits as [Hk Hn]. by rewrite bits_wrap, Z.shiftr_0_r, Nat2Z.inj_mod, Hn. Qed.

(** A segment over the end of the buffer. *)
Lemma crossing_runs (c : mmCmd) ws l :
  packet n ws l -> mc_bbt c = Z.of_nat (length l) -> Z.of_nat (length l) < 2 ^ 16 -> fits 32 (mc_saddr c) ->
  let addr := bits (mc_saddr c) 0 WINDOW_BITS in
  let first := BUFFER_SIZE - addr in
  first < Z.of_nat (length l) ->
  exists s o w1 w2, runs f (rmw_init [c] ws) s o /\ rmw_done s /\
    rmw_wrote o (w1 ++ w2) [mk_mmCmd first (mc_saddr c); mk_mmCmd (Z.of_nat (length l) - first) (mc_saddr c - addr)] [true] /\
    packet n w1 (take (Z.to_nat first) l) /\ packet n w2 (drop (Z.to_nat first) l).
Proof.
  intros Hw Hlen Hl Hs addr first Hlt.
  assert (0 <= addr < BUFFER_SIZE) as Ha by (unfold addr; rewrite BUFFER_SIZE_pow; apply bits_range; pose proof window_bits_range; lia).
  assert (2 ^ 16 <= BUFFER_SIZE) as HB by (rewrite BUFFER_SIZE_pow; apply Z.pow_le_mono_r; pose proof window_bits_range; lia).
  assert (0 < addr) as Hpos by (unfold first in Hlt; lia).
  assert ((BUFFER_SIZE <? addr + mc_bbt c) = true) as Hcut by (apply Z.ltb_lt; unfold first in Hlt; lia).
  set (r := Z.to_nat first). assert (Z.of_nat r = first) as Hr by (unfold r, first in *; lia).
  destruct (cut_packet_first c (Z.of_nat r) ws l Hw r (mk_axis 0 0 false) ltac:(unfold first in *; lia)) as (s & o & w1 & w2 & Hrun & Hd & Hwr & Hp1 & Hp2).
  exists s, ([] ++ [RmwDouble true; RmwCmd (mmCmd_new (mc_saddr c) first)] ++ o), w1, w2. split; [|split; [done|]].
  - eapply runs_step; [reflexivity|]. eapply runs_step; [|exact Hrun]. cbn [rxEngMemWrite]. fold addr. rewrite Hcut.
    rewrite first_length by exact Hpos. fold addr first. by rewrite <- Hr, first_offset.
  - split; [|done]. rewrite <- (app_nil_l (w1 ++ w2)).
    destruct Hwr as (Ho1 & Ho2 & Ho3). unfold rmw_wrote. cbn. unfold rmw_words, rmw_cmds, rmw_doubles in *. cbn.
    rewrite Ho1, Ho2, Ho3. split_and!; [done| |done].
    unfold mmCmd_new, second_cmd. rewrite Hr, Hlen, !wrap_small by (done || unfold fits; lia).
    by rewrite window_start.
Qed.

(** One that fits. *)
Lemma whole_runs (c : mmCmd) ws l :
  packet n ws l -> mc_bbt c = Z.of_nat (length l) -> Z.of_nat (length l) <= BUFFER_SIZE - bits (mc_saddr c) 0 WINDOW_BITS ->
  exists s o, runs f (rmw_init [c] ws) s o /\ rmw_done s /\ rmw_wrote o ws [c] [false].
Proof.
  intros Hw Hlen Hge. assert ((BUFFER_SIZE <? bits (mc_saddr c) 0 WINDOW_BITS + mc_bbt c) = false) as Hcut by (apply Z.ltb_ge; lia).
  destruct (forward_rest c 0 0 0 (mk_axis 0 0 false) ws l Hw) as (s & Hrun & Hd).
  exists s, ([] ++ [RmwDouble false; RmwCmd c] ++ (RmwWord <$> ws)). split; [|split; [done|]].
  - eapply runs_step; [reflexivity|]. eapply runs_step; [|exact Hrun]. cbn [rxEngMemWrite]. by rewrite Hcut.
  - apply (wrote_app [RmwDouble false; RmwCmd c] _ [] ws [c] [] [false] []); [done | apply wrote_words].
Qed.

(** ** Theorem *)

(** C16: A segment goes to its place in the buffer of its session in one write, or, if
    it runs over the end of the buffer, in two: the first takes the bytes up to the
    end, the second the others to the beginning, whether or not the place where it
    is cut falls on the border of a word; the data of each write is a packet of
    its own.  One flag says whether there are two, and the process ends ready for
    the next segment. *)
Theorem memory_write_split (c : mmCmd) ws l :
  packet n ws l -> mc_bbt c = Z.of_nat (length l) -> Z.of_nat (length l) < 2 ^ 16 -> fits 32 (mc_saddr c) ->
  let addr := bits (mc_saddr c) 0 WINDOW_BITS in
  let first := BUFFER_SIZE - addr in
  exists s o, runs f (rmw_init [c] ws) s o /\ rmw_done s /\
    if first <? Z.of_nat (length l) then
      exists w1 w2, rmw_wrote o (w1 ++ w2)
          [mk_mmCmd first (mc_saddr c); mk_mmCmd (Z.of_nat (length l) - first) (mc_saddr c - addr)] [true] /\
        packet n w1 (take (Z.to_nat first) l) /\ packet n w2 (drop (Z.to_nat first) l)
    else rmw_wrote o ws [c] [false].
Proof.
  intros Hw Hlen Hl Hs addr first. destruct (Z.ltb_spec first (Z.of_nat (length l))) as [Hlt|Hge].
  - destruct (crossing_runs c ws l Hw Hlen Hl Hs Hlt) as (s & o & w1 & w2 & Hrun & Hd & Hwr & Hp). by exists s, o; split_and!; [| |exists w1, w2].
  - by apply (whole_runs c ws l).
Qed.

End rxEngMemWrite.

(** Twelve bytes over words of 64 bits, written five bytes in front of the end
    of a buffer of 64 KiB. *)
Lemma memory_write_split_witness :
  let cfg := ddr_config 16 false false in
  let ws := [mk_axis 0x0807060504030201 0xFF false; mk_axis 0x0C0B0A09 0x0F true] in
  packet 8 ws [1; 2; 3; 4; 5; 6; 7; 8; 9; 10; 11; 12] /\
  exists s o, runs (rxEngMemWrite 64 3) (rmw_init [mk_mmCmd 12 0x3FFFB] ws) s o /\ rmw_done s /\
    exists w1 w2, rmw_wrote o (w1 ++ w2) [mk_mmCmd 5 0x3FFFB; mk_mmCmd 7 0x30000] [true] /\
      packet 8 w1 [1; 2; 3; 4; 5] /\ packet 8 w2 [6; 7; 8; 9; 10; 11; 12].
Proof.
  intros cfg ws. assert (packet 8 ws [1; 2; 3; 4; 5; 6; 7; 8; 9; 10; 11; 12]) as Hw.
  { apply (packet_more 8 0x0807060504030201 _ [9; 10; 11; 12]), (packet_last 8 0x0C0B0A09 4). lia. }
  split; [exact Hw|].
  apply (memory_write_split 64 3 8 ltac:(done) ltac:(done) ltac:(lia) (mk_mmCmd 12 0x3FFFB) ws _ Hw); done.
Defined.
