(* ===== verification/TxMemory.v ===== *)
(** Data to send on its way through the memory: the pusher of the application's
    interface (AppTx) writes it, in two parts if it runs over the end of the
    buffer, and the TX engine (TxEngine) puts the parts together again. *)
From stdpp Require Import base numbers list strings.
From Stdlib Require Import ZArith Lia.
From S2P Require Import Prelude ToeTypes Axi Streams StreamsFacts Wire RxFsm RxEngine TxEngine AppTx RxMemory.

Local Open Scope Z_scope.

Lemma keepToLen_ones (k : nat) : (1 <= k <= 64)%nat -> wrap 8 (keepToLen (Z.ones (Z.of_nat k))) = Z.of_nat k.
Proof.
  intros Hk. unfold keepToLen. rewrite Z.ones_equiv, <- Z.sub_1_r.
  replace (2 ^ Z.of_nat k - 1 + 1) with (2 ^ Z.of_nat k) by lia. rewrite Z.log2_pow2, Z.eqb_refl, andb_true_r by lia.
  pose proof (Z.pow_le_mono_r 2 1 (Z.of_nat k)). rewrite (proj2 (Z.ltb_lt _ _)) by lia. apply wrap_small. unfold fits. lia.
Qed.

(** ** Stitching *)

Section stitching.
Context (n : nat).
Hypothesis narrow : (1 <= n <= 64)%nat.

Abbreviation W := (8 * Z.of_nat n).
Abbreviation f := (read_data_stitching W).

Lemma stitch_bytes : W / 8 = Z.of_nat n.
Proof. rewrite Z.mul_comm. by apply Z.div_mul. Qed.

Lemma stitch_data (o : nat) p c last :
  (o <= n)%nat -> le_bytes n (a_data (stitch_join W (Z.of_nat o) p c last)) = le_bytes o (a_data p) ++ le_bytes (n - o) (a_data c).
Proof.
  intros Ho. unfold stitch_join. cbn [a_data]. rewrite le_bytes_assemble by lia.
  replace (W - 8 * Z.of_nat o) with (8 * Z.of_nat (n - o)) by lia. rewrite !le_bytes_bits by lia. by rewrite !Z.shiftr_0_r.
Qed.

(** [j] of the bytes kept are valid, [k] of the new word. *)
Lemma stitch_mask (o j k : nat) p c last :
  (j <= o <= n)%nat -> (k <= n)%nat -> j = o \/ k = 0%nat ->
  bits (a_keep p) 0 (Z.of_nat o) = Z.ones (Z.of_nat j) -> a_keep c = Z.ones (Z.of_nat k) ->
  a_keep (stitch_join W (Z.of_nat o) p c last) = Z.ones (Z.of_nat (j + (n - o) `min` k)).
Proof.
  intros ??? Hp Hc. unfold stitch_join. cbn [a_keep]. rewrite stitch_bytes, Hp, Hc, bits_ones by lia.
  rewrite assemble_ones by lia. f_equal. lia.
Qed.

(** What is kept of a word: its upper [o] bytes. *)
Lemma kept_data (o : nat) p c :
  (o <= n)%nat -> le_bytes o (a_data (stitch_keep W (Z.of_nat o) p c)) = drop (n - o) (le_bytes n (a_data c)).
Proof.
  intros Ho. unfold stitch_keep. cbn [a_data]. rewrite (le_bytes_set o o), (drop_ge (le_bytes o _)), app_nil_r by (rewrite ?length_le_bytes; lia).
  replace (W - 8 * Z.of_nat o) with (8 * Z.of_nat (n - o)) by lia. rewrite le_bytes_bits, drop_le_bytes_le by lia. f_equal. lia.
Qed.

Lemma kept_mask (o k : nat) p c :
  (o <= n)%nat -> a_keep c = Z.ones (Z.of_nat k) ->
  bits (a_keep (stitch_keep W (Z.of_nat o) p c)) 0 (Z.of_nat o) = Z.ones (Z.of_nat (o `min` (k - (n - o)))).
Proof.
  intros Ho Hc. unfold stitch_keep. cbn [a_keep]. rewrite bits_set_bits_eq by lia. rewrite stitch_bytes, Hc, bits_ones by lia.
  rewrite wrap_small; [f_equal; lia|]. unfold fits. rewrite Z.ones_equiv.
  assert (2 ^ Z.max 0 (Z.min (Z.of_nat o) (Z.of_nat k - (Z.of_nat n - Z.of_nat o))) <= 2 ^ Z.of_nat o) by (apply Z.pow_le_mono_r; lia).
  pose proof (pow2_pos (Z.max 0 (Z.min (Z.of_nat o) (Z.of_nat k - (Z.of_nat n - Z.of_nat o))))). lia.
Qed.

(** The second part of a packet is put behind the bytes that are kept. *)
Lemma stitch_rest (o : nat) merge merges ws l :
  (0 < o < n)%nat -> packet n ws l -> forall p, bits (a_keep p) 0 (Z.of_nat o) = Z.ones (Z.of_nat o) ->
  exists s out, runs f (mk_rds STITCH p merge (Z.of_nat o) merges ws) s out /\
    rds_state s = RDS_IDLE /\ rds_dataIn s = [] /\ memAccessBreakdown2readPkgStitcher s = merges /\
    packet n out (le_bytes o (a_data p) ++ l).
Proof.
  intros Ho. induction 1 as [d k Hk|d ws l Hw IH]; intros p Hp.
  - set (c := mk_axis d (Z.ones (Z.of_nat k)) true). set (j := stitch_join W (Z.of_nat o) p c).
    assert (f (mk_rds STITCH p merge (Z.of_nat o) merges [c]) =
      (mk_rds (if bool_decide (k <= n - o)%nat then RDS_IDLE else RDS_RESIDUE) (stitch_keep W (Z.of_nat o) p c) merge (Z.of_nat o) merges [],
       [j (bool_decide (k <= n - o)%nat)])) as Hstep.
    { cbn [read_data_stitching]. rewrite stitch_bytes. cbn [a_keep a_last c]. rewrite ones_testbit by lia.
      assert (negb (Z.of_nat n - Z.of_nat o <? Z.of_nat k) = bool_decide (k <= n - o)%nat) as ->; [|done].
      destruct (Z.ltb_spec (Z.of_nat n - Z.of_nat o) (Z.of_nat k)); [rewrite bool_decide_eq_false_2 by lia | rewrite bool_decide_eq_true_2 by lia]; done. }
    assert (forall last, a_keep (j last) = Z.ones (Z.of_nat (o + (n - o) `min` k))) as Hkeep.
    { intros last. apply stitch_mask; try lia; done. }
    destruct (Nat.leb_spec k (n - o)) as [Hle|Hgt].
    + rewrite bool_decide_eq_true_2 in Hstep by done. eexists _, [j true]. split; [apply runs_one; exact Hstep|].
      split_and!; [done..|]. eapply (packet_one n _ (o + k)); [done | rewrite Hkeep; do 2 f_equal; lia | lia|].
      unfold j. rewrite stitch_data, take_app_ge, length_le_bytes by (rewrite ?length_le_bytes; lia). f_equal. cbn [a_data c].
      rewrite !take_le_bytes_le by lia. f_equal. lia.
    + rewrite bool_decide_eq_false_2 in Hstep by lia. set (q := stitch_keep W (Z.of_nat o) p c) in *.
      set (r := stitch_join W (Z.of_nat o) q (mk_axis 0 0 false) true).
      eexists _, [j false; r]. split; [eapply (runs_step _ _ _ _ [_]); [exact Hstep|]; apply runs_one; reflexivity|].
      split_and!; [done..|]. eapply packet_cons; [done | rewrite Hkeep; do 2 f_equal; lia | |].
      * eapply (packet_one n r (k - (n - o))); [done | | lia | reflexivity].
        unfold r. rewrite (stitch_mask o (k - (n - o)) 0); [do 2 f_equal; lia | lia | lia | lia | | done].
        unfold q. rewrite (kept_mask o k) by (done || lia). do 2 f_equal. lia.
      * unfold j, r. rewrite !stitch_data, take_app_le, <- app_assoc by (rewrite ?length_le_bytes; lia). f_equal.
        unfold q. rewrite kept_data by lia. cbn [a_data c]. replace k with ((n - o) + (k - (n - o)))%nat at 1 by lia.
        rewrite drop_le_bytes_le, !take_le_bytes_le, le_bytes_app by lia. done.
  - set (c := mk_axis d (Z.ones (Z.of_nat n)) false). set (q := stitch_keep W (Z.of_nat o) p c).
    destruct (IH q) as (s & out & Hr & Hs & Hd & Hm & Hout).
    { unfold q. rewrite (kept_mask o n) by (done || lia). do 2 f_equal. lia. }
    exists s, (stitch_join W (Z.of_nat o) p c false :: out). split; [|split_and!; [done..|]].
    + eapply (runs_step _ _ _ _ [_]); [|exact Hr]. cbn [read_data_stitching]. rewrite stitch_bytes. cbn [a_keep a_last c].
      rewrite ones_testbit by lia. by rewrite (proj2 (Z.ltb_lt _ _)) by lia.
    + eapply packet_cons; [done | | exact Hout |].
      * rewrite (stitch_mask o o n) by (done || lia). do 2 f_equal. lia.
      * rewrite stitch_data, <- !app_assoc by lia. f_equal. unfold q. rewrite kept_data, app_assoc by lia. f_equal. cbn [a_data c].
        replace n with ((n - o) + o)%nat at 1 by lia. rewrite le_bytes_app, drop_le_bytes_le by lia. do 2 f_equal; lia.
Qed.

Definition rds_done (s : rds) (merges : list bool) : Prop :=
  rds_state s = RDS_IDLE /\ rds_dataIn s = [] /\ memAccessBreakdown2readPkgStitcher s = merges.

Lemma attach_rest p merge o merges ws l :
  packet n ws l -> exists s, runs f (mk_rds ATTACH_ALIGNED p merge o merges ws) s ws /\ rds_done s merges.
Proof.
  intros Hw. exists (mk_rds RDS_IDLE p merge o merges []). split; [|done].
  pose proof (forward_packet f n (fun i => mk_rds ATTACH_ALIGNED p merge o merges i) (fun i => mk_rds RDS_IDLE p merge o merges i)
    ltac:(intros w i; cbn; by destruct (a_last w)) ws l [] Hw) as Hr. by rewrite app_nil_r in Hr.
Qed.

(** Both parts, from the state in which the words of the first are read. *)
Lemma stitch_both w1 l1 w2 l2 merges :
  packet n w1 l1 -> packet n w2 l2 -> forall start,
  (forall w input, f (start (w :: input)) = rds_word W true w merges input) ->
  exists s out, runs f (start (w1 ++ w2)) s out /\ rds_done s merges /\ packet n out (l1 ++ l2).
Proof.
  intros Hw1 Hw2. induction Hw1 as [d k Hk|d ws l Hw IH]; intros start Hstart.
  - set (w := mk_axis d (Z.ones (Z.of_nat k)) true). set (open := mk_axis d (Z.ones (Z.of_nat k)) false).
    pose proof (Hstart w w2) as Hstep. unfold rds_word in Hstep. cbn [a_last a_keep a_data w] in Hstep. fold open in Hstep.
    rewrite stitch_bytes, ones_testbit, keepToLen_ones in Hstep by lia.
    destruct (Nat.eq_dec k n) as [->|Hne].
    + rewrite (proj2 (Z.ltb_lt _ _)) in Hstep by lia. destruct (attach_rest open true (Z.of_nat n) merges w2 l2 Hw2) as (s & Hr & Hs).
      exists s, ([open] ++ w2). split; [by eapply runs_step|]. split; [done|].
      eapply packet_cons; [done | done | exact Hw2|]. cbn [a_data open]. by rewrite take_ge by (rewrite length_le_bytes; lia).
    + rewrite (proj2 (Z.ltb_ge _ _)) in Hstep by lia.
      destruct (stitch_rest k true merges w2 l2 ltac:(lia) Hw2 open) as (s & out & Hr & Hs1 & Hs2 & Hs3 & Hout).
      { cbn [a_keep open]. rewrite bits_ones by lia. f_equal. lia. }
      exists s, ([] ++ out). split; [by eapply runs_step|]. split; [done|]. rewrite take_le_bytes_le by lia. exact Hout.
  - set (w := mk_axis d (Z.ones (Z.of_nat n)) false).
    destruct (IH (fun i => mk_rds FIRST_PART w true (wrap 8 (keepToLen (a_keep w))) merges i) ltac:(done)) as (s & out & Hr & Hs & Hout).
    exists s, ([w] ++ out). split; [eapply runs_step; [exact (Hstart w (ws ++ w2)) | exact Hr]|]. split; [done|].
    eapply packet_cons; [done | done | exact Hout|]. cbn [a_data w]. by rewrite app_assoc.
Qed.

(** A packet in one part passes. *)
Lemma stitch_whole ws l merges :
  packet n ws l -> forall start, (forall w input, f (start (w :: input)) = rds_word W false w merges input) ->
  exists s, runs f (start ws) s ws /\ rds_done s merges.
Proof.
  induction 1 as [d k Hk|d ws l Hw IH]; intros start Hstart.
  - eexists. split; [apply runs_one; exact (Hstart (mk_axis d (Z.ones (Z.of_nat k)) true) [])|]. done.
  - set (w := mk_axis d (Z.ones (Z.of_nat n)) false).
    destruct (IH (fun i => mk_rds FIRST_PART w false (wrap 8 (keepToLen (a_keep w))) merges i) ltac:(done)) as (s & Hr & Hs).
    exists s. split; [|done]. eapply (runs_step _ _ _ _ [w]); [exact (Hstart w ws) | exact Hr].
Qed.
End stitching.

(** ** The pusher writes what the RX engine's writer would write *)

(** Two words with the same valid bytes. *)
Definition same_valid (n : nat) (w w' : net_axis) : Prop :=
  a_keep w = a_keep w' /\ a_last w = a_last w' /\
  forall k, (k <= n)%nat -> a_keep w = Z.ones (Z.of_nat k) -> take k (le_bytes n (a_data w)) = take k (le_bytes n (a_data w')).

Lemma same_valid_refl n w : same_valid n w w.
Proof. by split_and!. Qed.

Lemma packet_same n ws ws' l : packet n ws l -> Forall2 (same_valid n) ws ws' -> packet n ws' l.
Proof.
  intros Hw. revert ws'. induction Hw as [d k Hk|d ws l Hw IH]; intros ws' Hs.
  - apply Forall2_cons_inv_l in Hs as (w' & ? & (Hkeep & Hlast & Hd) & ->%Forall2_nil_inv_l & ->).
    cbn in Hkeep, Hlast, Hd. by eapply (packet_one n _ k); [done | done | done | apply Hd; lia].
  - apply Forall2_cons_inv_l in Hs as (w' & ws1 & (Hkeep & Hlast & Hd) & Hs & ->). cbn in Hkeep, Hlast, Hd.
    specialize (Hd n ltac:(lia) eq_refl). rewrite !take_ge in Hd by (rewrite length_le_bytes; lia).
    eapply packet_cons; [done | done | by apply IH | by rewrite Hd].
Qed.

(** The word [emptyWord] the last bytes are joined with is never assigned: when
    none of its keep bits is set, what its data are does not show. *)
Lemma residue_same (n o : nat) p e :
  (o <= n)%nat -> bits (a_keep e) 0 (Z.of_nat n) = 0 ->
  same_valid n (rshift_join (8 * Z.of_nat n) (Z.of_nat o) p (mk_axis 0 0 false) true)
               (rshift_join (8 * Z.of_nat n) (Z.of_nat o) p e true).
Proof.
  intros Ho He. assert (8 * Z.of_nat n / 8 = Z.of_nat n) as Hw by (rewrite Z.mul_comm; by apply Z.div_mul).
  assert (bits (a_keep e) 0 (Z.of_nat o) = 0) as He'.
  { apply Z.bits_inj'. intros i Hi. rewrite bits_testbit, Z.bits_0 by lia. destruct (Z.ltb_spec i (Z.of_nat o)); [|done].
    rewrite Z.add_0_r, <- (bits_low (a_keep e) i (Z.of_nat n)), He by lia. by rewrite Z.bits_0. }
  unfold same_valid, rshift_join. rewrite Hw. cbn [a_data a_keep a_last]. rewrite He'.
  assert (bits 0 0 (Z.of_nat o) = 0) as H0 by (apply bits_0).
  split_and!; [by rewrite H0 | done|].
  intros k Hk Hkeep. assert (k <= n - o)%nat as Hle.
  { destruct (Nat.le_gt_cases k (n - o)) as [|Hgt]; [done|]. exfalso.
    assert (Z.testbit (Z.ones (Z.of_nat k)) (Z.of_nat (n - o)) = true) as Ht by (rewrite ones_testbit by lia; apply Z.ltb_lt; lia).
    rewrite <- Hkeep, H0 in Ht.
    rewrite assemble_testbit in Ht by lia.
    rewrite (proj2 (Z.ltb_ge (Z.of_nat (n - o)) (Z.of_nat n - Z.of_nat o))), Z.bits_0 in Ht by lia. done. }
  replace (8 * Z.of_nat n - 8 * Z.of_nat o) with (8 * Z.of_nat (n - o)) by lia.
  rewrite !le_bytes_assemble, !take_app_le by (rewrite ?length_le_bytes; lia). done.
Qed.

Definition pushed (o : list rmw_out) : list tpp_out :=
  omap (fun x => match x with RmwCmd c => Some (TppCmd c) | RmwWord w => Some (TppWord w) | RmwDouble _ => None end) o.

(** Commands are equal, words have the same valid bytes. *)
Definition same_out (n : nat) (x y : tpp_out) : Prop :=
  match x, y with
  | TppCmd c, TppCmd c' => c = c'
  | TppWord w, TppWord w' => same_valid n w w'
  | _, _ => False
  end.

Lemma same_out_refl n x : same_out n x x.
Proof. destruct x; [done | apply same_valid_refl]. Qed.

Section pusher.
Context `{cfg : ToeConfig} (KB : Z) (n : nat) (empty : net_axis).
Hypothesis keep_bits : 0 <= KB /\ Z.of_nat n = 2 ^ KB.
Hypothesis invalid : bits (a_keep empty) 0 (Z.of_nat n) = 0.

Lemma pusher_step s :
  0 <= rmw_offset s <= Z.of_nat n ->
  exists o', tasi_pkg_pusher (8 * Z.of_nat n) KB empty s = (fst (rxEngMemWrite (8 * Z.of_nat n) KB s), o') /\
    Forall2 (same_out n) (pushed (snd (rxEngMemWrite (8 * Z.of_nat n) KB s))) o' /\
    0 <= rmw_offset (fst (rxEngMemWrite (8 * Z.of_nat n) KB s)) <= Z.of_nat n.
Proof.
  assert (forall l, Forall2 (same_out n) l l) as Hrefl
    by (intros l; induction l; constructor; [apply same_out_refl | done]).
  intros Hoff. destruct s as [st cmd rem first off prev cmds input]. cbn [rmw_offset] in Hoff.
  destruct st; cbn [tasi_pkg_pusher rxEngMemWrite];
    try (destruct cmds as [|c cmds]); try (destruct input as [|w input]);
    repeat match goal with |- context [if ?b then _ else _] => destruct b end; cbn [fst snd rmw_offset];
    try (eexists; split; [reflexivity|]; split; [apply Hrefl | done]).
  1, 2, 3, 4: eexists; split; [reflexivity|]; split; [apply Hrefl|]; 
    destruct keep_bits as [HK Hn]; pose proof (bits_range (wrap WINDOW_BITS (BUFFER_SIZE - mc_saddr cmd)) 0 KB HK) as Hb;
    unfold fits in Hb; lia.
  all: eexists; split; [reflexivity|]; split; [|done]; constructor; [|constructor]; cbn [same_out];
    replace off with (Z.of_nat (Z.to_nat off)) by lia; apply residue_same; [lia | exact invalid].
Qed.

Lemma pusher_runs s s' o :
  0 <= rmw_offset s <= Z.of_nat n -> runs (rxEngMemWrite (8 * Z.of_nat n) KB) s s' o ->
  exists o', runs (tasi_pkg_pusher (8 * Z.of_nat n) KB empty) s s' o' /\ Forall2 (same_out n) (pushed o) o'.
Proof.
  intros Hoff [k Hk]. revert s o Hoff Hk. induction k as [|k IH]; intros s o Hoff Hk; cbn [calls] in Hk.
  - simplify_eq. exists []. by split; [exists 0%nat | constructor].
  - destruct (pusher_step s Hoff) as (o1' & Hs & Ho & Hoff').
    destruct (rxEngMemWrite _ KB s) as [s1 o1]. cbn [fst snd] in *. destruct (calls _ k s1) as [s2 o2] eqn:Hc.
    injection Hk as <- <-. destruct (IH s1 o2 Hoff' Hc) as (o2' & Hr & Ho2).
    exists (o1' ++ o2'). split; [by eapply runs_step|]. unfold pushed in *. rewrite omap_app. by apply Forall2_app.
Qed.
End pusher.

Definition tpp_words (o : list tpp_out) : list net_axis := omap (fun x => match x with TppWord w => Some w | _ => None end) o.
Definition tpp_cmds (o : list tpp_out) : list mmCmd := omap (fun x => match x with TppCmd c => Some c | _ => None end) o.

Lemma same_outs n o o' :
  Forall2 (same_out n) o o' -> Forall2 (same_valid n) (tpp_words o) (tpp_words o') /\ tpp_cmds o = tpp_cmds o'.
Proof.
  unfold tpp_words, tpp_cmds. induction 1 as [|[c|w] [c'|w'] o o' Hx _ [IH1 IH2]]; [done|..]; cbn in *; try done.
  - subst. split; [exact IH1 | by f_equal].
  - by split; [constructor|].
Qed.

Lemma pushed_wrote o ws cmds doubles : rmw_wrote o ws cmds doubles -> tpp_words (pushed o) = ws /\ tpp_cmds (pushed o) = cmds.
Proof.
  intros (<- & <- & _). unfold tpp_words, tpp_cmds, pushed, rmw_words, rmw_cmds. induction o as [|[c|w|d] o [IH1 IH2]]; [done|..]; cbn; by rewrite ?IH1, ?IH2.
Qed.

(** ** Through the memory *)

Section through_memory.
Context `{cfg : ToeConfig} (KB : Z) (n : nat).
Hypothesis keep_bits : 0 <= KB /\ Z.of_nat n = 2 ^ KB.
Hypothesis narrow : (1 <= n <= 64)%nat.

Abbreviation W := (8 * Z.of_nat n).

(** The accesses of the TX engine to a range that is in two parts. *)
Lemma breakdown_runs c (len first : Z) :
  mc_bbt c = len -> len < 2 ^ 16 -> fits 32 (mc_saddr c) -> first = BUFFER_SIZE - bits (mc_saddr c) 0 WINDOW_BITS -> first < len ->
  exists t, runs txEngMemAccessBreakdown (mk_tb false (mk_mmCmd 0 0) 0 [c]) t
      [TbMerge true; TbCmd (mk_mmCmd first (mc_saddr c)); TbCmd (mk_mmCmd (len - first) 0)] /\
    tb_second t = false /\ inputMemAccess t = [].
Proof.
  intros Hlen Hl Hs -> Hlt. set (addr := bits (mc_saddr c) 0 WINDOW_BITS) in *.
  assert (2 ^ 16 <= BUFFER_SIZE) as HB by (rewrite BUFFER_SIZE_pow; apply Z.pow_le_mono_r; pose proof window_bits_range; lia).
  assert (0 <= addr < BUFFER_SIZE) as Ha by (unfold addr; rewrite BUFFER_SIZE_pow; apply bits_range; pose proof window_bits_range; lia).
  assert (wrap WINDOW_BITS (BUFFER_SIZE - mc_saddr c) = BUFFER_SIZE - addr) as Hf by (apply first_length; fold addr; lia).
  assert ((BUFFER_SIZE <? addr + mc_bbt c) = true) as Hcut by (apply Z.ltb_lt; lia).
  exists (mk_tb false c (BUFFER_SIZE - addr) []). split; [|done].
  apply (runs_step _ _ (mk_tb true c (BUFFER_SIZE - addr) []) _ [_; _] [_]).
  - cbn [txEngMemAccessBreakdown]. fold addr. rewrite Hcut, Hf. unfold mmCmd_new. by rewrite !wrap_small by (done || unfold fits; lia).
  - apply runs_one. cbn [txEngMemAccessBreakdown]. unfold mmCmd_new. rewrite Hlen. by rewrite !wrap_small by (unfold fits; lia).
Qed.

(** A range in one part passes, whatever the unassigned word holds. *)
Lemma pushed_whole empty (c : mmCmd) ws l :
  packet n ws l -> mc_bbt c = Z.of_nat (length l) -> Z.of_nat (length l) <= BUFFER_SIZE - bits (mc_saddr c) 0 WINDOW_BITS ->
  exists s o, runs (tasi_pkg_pusher W KB empty) (rmw_init [c] ws) s o /\ rmw_done s /\ tpp_words o = ws /\ tpp_cmds o = [c].
Proof.
  intros Hw Hlen Hge. set (at_ := fun input => mk_rmw FWD_ALIGNED c 0 0 0 (mk_axis 0 0 false) [] input).
  set (fin := fun input => mk_rmw RMW_IDLE c 0 0 0 (mk_axis 0 0 false) [] input).
  pose proof (forward_out (tasi_pkg_pusher W KB empty) TppWord n at_ fin
    ltac:(intros w input; cbn; by destruct (a_last w)) ws l [] Hw) as Hr. rewrite app_nil_r in Hr.
  exists (fin []), ([] ++ [TppCmd c] ++ (TppWord <$> ws)). split_and!; [|done|..].
  - eapply runs_step; [reflexivity|]. eapply runs_step; [|exact Hr]. cbn [tasi_pkg_pusher].
    rewrite (proj2 (Z.ltb_ge _ _)) by lia. reflexivity.
  - cbn [app]. unfold tpp_words. cbn [omap list_omap]. clear. induction ws as [|w ws IH]; [done|]. cbn. by rewrite IH.
  - cbn [app]. unfold tpp_cmds. cbn [omap list_omap]. f_equal. clear. by induction ws.
Qed.

(** C21: Data to send survives the wrap-around of the buffer: whatever the range of the
    session's buffer and wherever its end falls in a word, the writes of the
    application's interface are packets, one for each command; the TX engine,
    asked for the same range, reads as many parts with the same lengths, and says
    so to the stitcher; and when the memory returns what was written, the stitcher
    gives back a packet with the bytes of the application.  The address of the
    second read is 0, where that of the second write is the start of the buffer.
    The condition: when the range runs over the end of the buffer, no keep bit of
    [emptyWord], which the code never assigns and joins the last bytes with, is
    set; its data may be anything ([send_buffer_spoilt] is a run with keep bits
    set). *)
Theorem send_buffer_roundtrip (empty : net_axis) (c : mmCmd) ws l :
  packet n ws l -> mc_bbt c = Z.of_nat (length l) -> Z.of_nat (length l) < 2 ^ 16 -> fits 32 (mc_saddr c) ->
  let addr := bits (mc_saddr c) 0 WINDOW_BITS in
  let first := BUFFER_SIZE - addr in
  (first < Z.of_nat (length l) -> bits (a_keep empty) 0 (Z.of_nat n) = 0) ->
  exists s o written reads r out,
    runs (tasi_pkg_pusher W KB empty) (rmw_init [c] ws) s o /\ rmw_done s /\ tpp_words o = written /\
    (if first <? Z.of_nat (length l) then
       tpp_cmds o = [mk_mmCmd first (mc_saddr c); mk_mmCmd (Z.of_nat (length l) - first) (mc_saddr c - addr)] /\
       reads = [TbMerge true; TbCmd (mk_mmCmd first (mc_saddr c)); TbCmd (mk_mmCmd (Z.of_nat (length l) - first) 0)]
     else tpp_cmds o = [c] /\ reads = [TbMerge false; TbCmd c]) /\
    (exists t, runs txEngMemAccessBreakdown (mk_tb false (mk_mmCmd 0 0) 0 [c]) t reads /\ tb_second t = false /\ inputMemAccess t = []) /\
    runs (read_data_stitching W) (rds_init (omap (fun x => match x with TbMerge b => Some b | _ => None end) reads) written) r out /\
    rds_done r [] /\ packet n out l.
Proof.
  intros Hw Hlen Hl Hs addr first Hempty. destruct (Z.ltb_spec first (Z.of_nat (length l))) as [Hlt|Hge].
  - destruct (crossing_runs W KB n eq_refl keep_bits ltac:(lia) c ws l Hw Hlen Hl Hs Hlt) as (s & o & w1 & w2 & Hr & Hd & Hwr & Hp1 & Hp2).
    destruct (pushed_wrote _ _ _ _ Hwr) as [Hws Hcs]. destruct (breakdown_runs c _ first Hlen Hl Hs eq_refl Hlt) as (t & Ht).
    destruct (pusher_runs KB n empty keep_bits (Hempty Hlt) (rmw_init [c] ws) s o ltac:(cbn; lia) Hr) as (o' & Hr' & Ho).
    destruct (same_outs _ _ _ Ho) as [Hsame Hcmds]. rewrite Hws in Hsame.
    apply Forall2_app_inv_l in Hsame as (w1' & w2' & Hs1 & Hs2 & Hwords).
    destruct (stitch_both n narrow w1' _ w2' _ [] (packet_same _ _ _ _ Hp1 Hs1) (packet_same _ _ _ _ Hp2 Hs2) (rds_init [true]) ltac:(done))
      as (r & out & Hst & Hrd & Hout).
    rewrite take_drop in Hout. eexists s, o', (w1' ++ w2'), _, r, out.
    split_and!; [exact Hr' | done | done | by rewrite <- Hcmds | reflexivity | by exists t | exact Hst | done | done].
  - destruct (pushed_whole empty c ws l Hw Hlen Hge) as (s & o & Hr & Hd & Hws & Hcs).
    destruct (stitch_whole n ws l [] Hw (rds_init [false]) ltac:(done)) as (r & Hst & Hrd).
    eexists s, o, ws, _, r, ws.
    split_and!; [exact Hr | done | done | exact Hcs | reflexivity | | exact Hst | done | done].
    eexists (mk_tb false c 0 []). split; [|done]. apply runs_one. cbn [txEngMemAccessBreakdown]. fold addr.
    by rewrite (proj2 (Z.ltb_ge _ _)) by (unfold first in Hge; lia).
Qed.
End through_memory.

(** The same twelve bytes as in RxMemory, for session 0. *)
Lemma send_buffer_roundtrip_witness :
  let cfg := ddr_config 16 false true in
  let ws := [mk_axis 0x0807060504030201 0xFF false; mk_axis 0x0C0B0A09 0x0F true] in
  packet 8 ws [1; 2; 3; 4; 5; 6; 7; 8; 9; 10; 11; 12] /\
  exists s o written reads r out,
    runs (tasi_pkg_pusher 64 3 (mk_axis 0xABCD 0 false)) (rmw_init [mk_mmCmd 12 0xFFFB] ws) s o /\ rmw_done s /\ tpp_words o = written /\
    (tpp_cmds o = [mk_mmCmd 5 0xFFFB; mk_mmCmd 7 0] /\
     reads = [TbMerge true; TbCmd (mk_mmCmd 5 0xFFFB); TbCmd (mk_mmCmd 7 0)]) /\
    (exists t, runs txEngMemAccessBreakdown (mk_tb false (mk_mmCmd 0 0) 0 [mk_mmCmd 12 0xFFFB]) t reads /\
       tb_second t = false /\ inputMemAccess t = []) /\
    runs (read_data_stitching 64) (rds_init (omap (fun x => match x with TbMerge b => Some b | _ => None end) reads) written) r out /\
    rds_done r [] /\ packet 8 out [1; 2; 3; 4; 5; 6; 7; 8; 9; 10; 11; 12].
Proof.
  intros cfg ws. assert (packet 8 ws [1; 2; 3; 4; 5; 6; 7; 8; 9; 10; 11; 12]) as Hw.
  { apply (packet_more 8 0x0807060504030201 _ [9; 10; 11; 12]), (packet_last 8 0x0C0B0A09 4). lia. }
  split; [exact Hw|].
  assert (fits 32 0xFFFB) as Hs by done.
  exact (send_buffer_roundtrip 3 8 ltac:(done) ltac:(lia) (mk_axis 0xABCD 0 false) (mk_mmCmd 12 0xFFFB) ws _ Hw eq_refl ltac:(done) Hs
           (fun _ => eq_refl)).
Defined.

(** With keep bits set in the unassigned word, the eight bytes of a word come
    back as thirteen. *)
Definition spoilt_words : list net_axis :=
  let cfg := ddr_config 16 false true in
  tpp_words (snd (calls (tasi_pkg_pusher 64 3 (mk_axis 0 0xFF false)) 10
    (rmw_init [mk_mmCmd 8 0xFFFB] [mk_axis 0x0807060504030201 0xFF true]))).

Example send_buffer_spoilt :
  a_keep <$> snd (calls (read_data_stitching 64) 10 (rds_init [true] spoilt_words)) = [0xFF; 0x1F] /\
  a_keep <$> spoilt_words = [0x1F; 0xFF].
Proof. by vm_compute. Qed.
