(* ===== verification/Driver.v ===== *)
(** The kernel driver, first half: the static configuration ([fpga_dev.c]), the pools of
    card memory ([fpga_mmu.c]) and of Coyote process ids ([fpga_fops.c]).

    A pool is an array of chunks threaded by a free list.  Pointers into the array are
    indices, and a null pointer is [None].  Functions are computations: [Undef] is a null
    pointer or an access outside an array, [Spin] waiting for a lock that is held. *)
From stdpp Require Import base numbers list strings.
From Stdlib Require Import ZArith Lia.
From S2P Require Import Prelude.

Local Open Scope Z_scope.

(** ** Constants ([coyote_dev.h]) *)

Definition TLB_VADDR_RANGE : Z := 48.
Definition TLB_PADDR_RANGE : Z := 40.
Definition PID_SIZE : Z := 6.
Definition LTLB_PAGE_BITS : Z := 21.
Definition STLB_PAGE_BITS : Z := 12.
Definition N_LARGE_CHUNKS : nat := 512.
Definition N_SMALL_CHUNKS : nat := Z.to_nat (256 * 1024).
Definition MEM_SEP : Z := (256 * 1024) * (4 * 1024).
Definition N_CPID_MAX : nat := 64.
Definition ENOMEM : Z := 12.

(** ** Static configuration *)

(** The registers that say what the shell has. *)
Record stat_cnfg_regs : Type := mk_stat_cnfg {
  sc_n_chan : Z; sc_n_regions : Z; sc_ctrl_cnfg : Z; sc_mem_cnfg : Z; sc_pr_cnfg : Z; sc_rdma_cnfg : Z; sc_tcp_cnfg : Z }.

(** The part of [bus_drvdata] they are copied to. *)
Record bus_cnfg : Type := mk_bus_cnfg {
  bus_n_fpga_chan : Z; bus_n_fpga_reg : Z; bus_en_avx : Z; bus_en_bypass : Z; bus_en_tlbf : Z; bus_en_wb : Z; bus_en_strm : Z;
  bus_en_mem : Z; bus_en_pr : Z; bus_en_rdma_0 : Z; bus_en_rdma_1 : Z; bus_en_tcp_0 : Z; bus_en_tcp_1 : Z; bus_en_net_0 : Z; bus_en_net_1 : Z }.

(** A flag of a register. *)
Definition cnfg_flag (reg mask shft : Z) : Z := Z.shiftr (Z.land reg mask) shft.

Definition read_static_config (r : stat_cnfg_regs) : bus_cnfg :=
  let rdma_0 := cnfg_flag (sc_rdma_cnfg r) 0x1 0x0 in
  let rdma_1 := cnfg_flag (sc_rdma_cnfg r) 0x2 0x1 in
  let tcp_0 := cnfg_flag (sc_tcp_cnfg r) 0x1 0x0 in
  let tcp_1 := cnfg_flag (sc_tcp_cnfg r) 0x2 0x1 in
  mk_bus_cnfg (sext 32 (sc_n_chan r)) (sext 32 (sc_n_regions r)) (cnfg_flag (sc_ctrl_cnfg r) 0x1 0x0) (cnfg_flag (sc_ctrl_cnfg r) 0x2 0x1)
    (cnfg_flag (sc_ctrl_cnfg r) 0x4 0x2) (cnfg_flag (sc_ctrl_cnfg r) 0x8 0x3) (cnfg_flag (sc_mem_cnfg r) 0x1 0x0)
    (cnfg_flag (sc_mem_cnfg r) 0x2 0x1) (cnfg_flag (sc_pr_cnfg r) 0x1 0x0) rdma_0 rdma_1 tcp_0 tcp_1 (Z.lor rdma_0 tcp_0) (Z.lor rdma_1 tcp_1).

(** The word [IOCTL_READ_CNFG] hands to a user. *)
Definition read_cnfg (d : bus_cnfg) : Z :=
  let at_bit v k := u64 (Z.shiftl (u64 v) k) in
  Z.lor (at_bit (bus_n_fpga_chan d) 32) (Z.lor (at_bit (bus_n_fpga_reg d) 48) (Z.lor (at_bit (bus_en_avx d) 0) (Z.lor (at_bit (bus_en_bypass d) 1)
    (Z.lor (at_bit (bus_en_tlbf d) 2) (Z.lor (at_bit (bus_en_wb d) 3) (Z.lor (at_bit (bus_en_strm d) 4) (Z.lor (at_bit (bus_en_mem d) 5)
      (Z.lor (at_bit (bus_en_pr d) 6) (Z.lor (at_bit (bus_en_rdma_0 d) 16) (Z.lor (at_bit (bus_en_rdma_1 d) 17)
        (Z.lor (at_bit (bus_en_tcp_0 d) 18) (at_bit (bus_en_tcp_1 d) 19)))))))))))).

(** ** Orders of the two TLBs *)

Record tlb_order : Type := mk_tlb_order {
  to_hugepage : bool; page_shift : Z; page_size : Z; page_mask : Z; key_mask : Z; key_size : Z; tag_size : Z; phy_mask : Z; phy_size : Z }.

(** Fields of the control register: orders and page shifts.  The masks are computed in
    [int]; the sizes are below 31 where that is defined. *)
Definition tlb_order_of (huge : bool) (key shift : Z) : tlb_order :=
  let size := Z.shiftl 1 shift in
  mk_tlb_order huge shift size (u64 (Z.lnot (size - 1))) (Z.shiftl 1 key - 1) key (TLB_VADDR_RANGE - shift - key)
    (Z.shiftl 1 (TLB_PADDR_RANGE - shift) - 1) (TLB_PADDR_RANGE - shift).

Definition stlb_order (ctrl_cnfg : Z) : tlb_order :=
  tlb_order_of false (cnfg_flag ctrl_cnfg 0xf0 0x4) (cnfg_flag ctrl_cnfg 0x3f00000 0x14).
Definition ltlb_order (ctrl_cnfg : Z) : tlb_order :=
  tlb_order_of true (cnfg_flag ctrl_cnfg 0xf000 0xc) (cnfg_flag ctrl_cnfg 0xfc000000 0x1a).

(** ** Pools *)

Record chunk : Type := mk_chunk { ck_used : bool; ck_id : Z; ck_next : option nat }.

(** [pl_alloc] is [salloc], [lalloc] or [pid_alloc], [pl_locked] the lock of the pool. *)
Record pool : Type := mk_pool { pl_chunks : list chunk; num_free : Z; pl_alloc : option nat; pl_locked : bool }.

Definition set_chunks (l : list chunk) (p : pool) : pool := mk_pool l (num_free p) (pl_alloc p) (pl_locked p).
Definition set_alloc (a : option nat) (p : pool) : pool := mk_pool (pl_chunks p) (num_free p) a (pl_locked p).
Definition set_locked (b : bool) (p : pool) : pool := mk_pool (pl_chunks p) (num_free p) (pl_alloc p) b.

(** The last chunk is left as it was allocated, zero. *)
Definition pool_init (n : nat) : pool :=
  mk_pool (map (fun i => mk_chunk false (Z.of_nat i) (Some (S i))) (seq 0 (n - 1)) ++ [mk_chunk false 0 None]) (Z.of_nat n) (Some 0%nat) false.

Definition spin_lock : M pool unit := fun p => if pl_locked p then (Spin, p) else (Ret tt, set_locked true p).
Definition spin_unlock : M pool unit := modify (set_locked false).

(** An element of the array; an access outside it is undefined. *)
Definition chunk_at (i : nat) : M pool chunk :=
  fun p => match pl_chunks p !! i with Some c => (Ret c, p) | None => (Undef "chunk index out of range", p) end.
Definition put_chunk (i : nat) (c : chunk) : M pool unit := modify (fun p => set_chunks (<[i := c]> (pl_chunks p)) p).

(** One chunk off the list. *)
Definition take_chunk : M pool Z :=
  a ← gets pl_alloc;
  match a with
  | None => undef "null chunk"
  | Some i =>
      c ← chunk_at i;
      put_chunk i (mk_chunk true (ck_id c) (ck_next c)) ;;
      modify (set_alloc (ck_next c)) ;;
      mret (ck_id c)
  end.

Fixpoint take_chunks (addr : Z -> Z) (n : nat) : M pool (list Z) :=
  match n with
  | 0%nat => mret []
  | S n => id ← take_chunk; l ← take_chunks addr n; mret (addr id :: l)
  end.

(** A case of [card_alloc]: the return value and the addresses written. *)
Definition pool_take (addr : Z -> Z) (n : Z) : M pool (Z * list Z) :=
  spin_lock ;;
  free ← gets num_free;
  if free <? n then mret (- ENOMEM, [])
  else
    l ← take_chunks addr (Z.to_nat n);
    spin_unlock ;;
    mret (0, l).

(** A chunk back onto the list. *)
Definition put_back (i : nat) : M pool unit :=
  c ← chunk_at i;
  if ck_used c then
    a ← gets pl_alloc;
    put_chunk i (mk_chunk (ck_used c) (ck_id c) a) ;;
    modify (set_alloc (Some i))
  else skip.

(** A case of [card_free]: the pages are freed from the last to the first. *)
Definition pool_give (index : Z -> Z) (l : list Z) : M pool unit :=
  spin_lock ;;
  for_each (fun a => put_back (Z.to_nat (index a))) (reverse l) ;;
  spin_unlock.

(** ** Card memory *)

Definition small_addr (id : Z) : Z := u32 (Z.shiftl id STLB_PAGE_BITS).
Definition small_index (a : Z) : Z := Z.shiftr a STLB_PAGE_BITS.
Definition large_addr (id : Z) : Z := u32 (u32 (Z.shiftl id LTLB_PAGE_BITS) + MEM_SEP).
Definition large_index (a : Z) : Z := Z.shiftr (u64 (a - MEM_SEP)) LTLB_PAGE_BITS.

Record card : Type := mk_card { card_small : pool; card_large : pool }.

Definition card_init : card := mk_card (pool_init N_SMALL_CHUNKS) (pool_init N_LARGE_CHUNKS).

(** A computation on one of the two pools. *)
Definition on_small {A} (m : M pool A) : M card A := fun c => let '(r, p) := m (card_small c) in (r, mk_card p (card_large c)).
Definition on_large {A} (m : M pool A) : M card A := fun c => let '(r, p) := m (card_large c) in (r, mk_card (card_small c) p).

(** [large] is the type of the pages. *)
Definition card_alloc (large : bool) (n : Z) : M card (Z * list Z) :=
  if large then on_large (pool_take large_addr n) else on_small (pool_take small_addr n).
Definition card_free (large : bool) (l : list Z) : M card unit :=
  if large then on_large (pool_give large_index l) else on_small (pool_give small_index l).

(** ** Coyote process ids *)

Record pids : Type := mk_pids { pid_pool : pool; pid_array : list Z }.

Definition pids_init : pids := mk_pids (pool_init N_CPID_MAX) (replicate N_CPID_MAX 0).

Definition on_pids {A} (m : M pool A) : M pids A := fun s => let '(r, p) := m (pid_pool s) in (r, mk_pids p (pid_array s)).

(** The chunk that is marked is the one with the index of the identifier. *)
Definition register_pid (pid : Z) : M pids Z :=
  on_pids spin_lock ;;
  free ← gets (fun s => num_free (pid_pool s));
  if free =? 0 then mret (- ENOMEM)
  else
    a ← gets (fun s => pl_alloc (pid_pool s));
    match a with
    | None => undef "null chunk"
    | Some i =>
        c ← on_pids (chunk_at i);
        let k := Z.to_nat (ck_id c) in
        m ← on_pids (chunk_at k);
        on_pids (put_chunk k (mk_chunk true (ck_id m) (ck_next m))) ;;
        modify (fun s => mk_pids (pid_pool s) (<[k := pid]> (pid_array s))) ;;
        c ← on_pids (chunk_at i);
        on_pids (modify (set_alloc (ck_next c))) ;;
        on_pids spin_unlock ;;
        mret (ck_id c)
    end.

Definition unregister_pid (cpid : Z) : M pids Z :=
  on_pids spin_lock ;;
  (if cpid <? 0 then undef "chunk index out of range" else skip) ;;
  c ← on_pids (chunk_at (Z.to_nat cpid));
  (if ck_used c then
     a ← gets (fun s => pl_alloc (pid_pool s));
     on_pids (put_chunk (Z.to_nat cpid) (mk_chunk false (ck_id c) a)) ;;
     on_pids (modify (set_alloc (Some (Z.to_nat cpid))))
   else skip) ;;
  on_pids spin_unlock ;;
  mret 0.
