(* ===== verification/DriverFacts.v ===== *)
(** The pools of the driver: pages that are handed out are nobody else's. *)
From stdpp Require Import base numbers list sorting strings.
From Stdlib Require Import ZArith Lia Btauto.
From S2P Require Import Prelude CoyoteDefs Driver.

Local Open Scope Z_scope.

(** ** Configuration *)

Lemma shifted_word n v k : 0 <= n -> 0 <= k -> n + k <= 64 -> fits n v -> u64 (Z.shiftl (u64 v) k) = Z.shiftl v k.
Proof.
  intros Hn Hk Hs Hv. rewrite (wrap_small 64 v) by (apply (fits_weaken n); [lia|done]).
  apply wrap_small. by apply (fits_shiftl n).
Qed.

Lemma sext_byte v : fits 8 v -> sext 32 v = v.
Proof.
  intros Hv. unfold sext. rewrite wrap_small by (by apply (fits_weaken 8); [lia|]). cbv zeta.
  unfold fits in Hv. by rewrite (proj2 (Z.ltb_lt _ _)) by lia.
Qed.

Lemma cnfg_flag_bit reg k : 0 <= k -> cnfg_flag reg (Z.shiftl 1 k) k = Z.b2z (Z.testbit reg k).
Proof.
  intros Hk. unfold cnfg_flag. rewrite Z.shiftl_1_l. apply Z.bits_inj'. intros i Hi. rewrite Z.shiftr_spec, Z.land_spec by lia.
  rewrite Z.pow2_bits_eqb by lia. destruct (Z.eqb_spec k (i + k)) as [E|E].
  - replace i with 0 by lia. rewrite Z.add_0_l, Z.b2z_bit0. by rewrite andb_true_r.
  - rewrite andb_false_r. symmetry. apply (fits_testbit 1); [lia | apply fits_flag | lia].
Qed.

Lemma testbit_flag b k i : 0 <= i -> Z.testbit (Z.shiftl (Z.b2z b) k) i = (i =? k) && b.
Proof.
  intros Hi. rewrite Z.shiftl_spec by lia. destruct (Z.eqb_spec i k) as [->|Hne]; [by rewrite Z.sub_diag, Z.b2z_bit0|].
  destruct (Z.ltb_spec i k); [by rewrite Z.testbit_neg_r by lia|]. apply (fits_testbit 1); [lia | apply fits_flag | lia].
Qed.

(** The word a flag is parsed from. *)
Lemma parsed_flag x i : bool_decide (Z.land (Z.shiftr x i) 0x1 <> 0) = Z.testbit x i.
Proof.
  change 0x1 with (Z.ones 1). rewrite Z.land_ones by lia. change (2 ^ 1) with 2. rewrite <- Z.bit0_mod, Z.shiftr_spec by lia.
  rewrite Z.add_0_l. by destruct (Z.testbit x i).
Qed.

(** The flags and numbers of a word. *)
Definition cnfg_word (chan reg : Z) (l : list (bool * Z)) : Z :=
  foldr (fun x w => Z.lor (Z.shiftl (Z.b2z (fst x)) (snd x)) w) (Z.lor (Z.shiftl chan 32) (Z.shiftl reg 48)) l.

Lemma cnfg_word_bit chan reg l i : 0 <= i < 32 -> Z.testbit (cnfg_word chan reg l) i = existsb (fun x => (i =? snd x) && fst x) l.
Proof.
  intros Hi. induction l as [|[b k] l IH]; cbn [cnfg_word foldr existsb].
  - rewrite Z.lor_spec, !Z.shiftl_spec by lia. by rewrite !Z.testbit_neg_r by lia.
  - cbn [fst snd]. rewrite Z.lor_spec, testbit_flag by lia. f_equal. exact IH.
Qed.

Lemma cnfg_word_field chan reg l lo w : 32 <= lo -> 0 <= w -> Forall (fun x => 0 <= snd x < 32) l ->
  bits (cnfg_word chan reg l) lo w = bits (Z.lor (Z.shiftl chan 32) (Z.shiftl reg 48)) lo w.
Proof.
  intros Hlo Hw. induction 1 as [|[b k] l Hk Hl IH]; [done|]. cbn [cnfg_word foldr fst snd] in *. rewrite bits_lor.
  rewrite (bits_shiftl_low 1) by (try apply fits_flag; lia). rewrite Z.lor_0_l. exact IH.
Qed.

Lemma read_cnfg_word r :
  fits 8 (sc_n_chan r) -> fits 8 (sc_n_regions r) ->
  read_cnfg (read_static_config r) = cnfg_word (sc_n_chan r) (sc_n_regions r)
    [(Z.testbit (sc_ctrl_cnfg r) 0, 0); (Z.testbit (sc_ctrl_cnfg r) 1, 1); (Z.testbit (sc_ctrl_cnfg r) 2, 2); (Z.testbit (sc_ctrl_cnfg r) 3, 3);
     (Z.testbit (sc_mem_cnfg r) 0, 4); (Z.testbit (sc_mem_cnfg r) 1, 5); (Z.testbit (sc_pr_cnfg r) 0, 6); (Z.testbit (sc_rdma_cnfg r) 0, 16);
     (Z.testbit (sc_rdma_cnfg r) 1, 17); (Z.testbit (sc_tcp_cnfg r) 0, 18); (Z.testbit (sc_tcp_cnfg r) 1, 19)].
Proof.
  intros Hc Hr. unfold read_cnfg, read_static_config. cbn [bus_n_fpga_chan bus_n_fpga_reg bus_en_avx bus_en_bypass bus_en_tlbf bus_en_wb bus_en_strm bus_en_mem bus_en_pr bus_en_rdma_0 bus_en_rdma_1 bus_en_tcp_0 bus_en_tcp_1].
  rewrite !sext_byte by done. rewrite (shifted_word 8 (sc_n_chan r)), (shifted_word 8 (sc_n_regions r)) by (done || lia).
  pose proof (fun reg => cnfg_flag_bit reg 0 ltac:(lia)) as F0. pose proof (fun reg => cnfg_flag_bit reg 1 ltac:(lia)) as F1.
  pose proof (fun reg => cnfg_flag_bit reg 2 ltac:(lia)) as F2. pose proof (fun reg => cnfg_flag_bit reg 3 ltac:(lia)) as F3.
  change (Z.shiftl 1 0) with 1 in F0. change (Z.shiftl 1 1) with 2 in F1. change (Z.shiftl 1 2) with 4 in F2. change (Z.shiftl 1 3) with 8 in F3.
  rewrite ?F0, ?F1, ?F2, ?F3. clear F0 F1 F2 F3. rewrite !(shifted_word 1) by (apply fits_flag || lia).
  unfold cnfg_word. cbn [foldr fst snd]. generalize (Z.shiftl (sc_n_chan r) 32), (Z.shiftl (sc_n_regions r) 48). intros x y.
  apply Z.bits_inj'. intros i Hi. rewrite !Z.lor_spec. 
  match goal with |- context [Z.testbit x i || _] => generalize (Z.testbit x i), (Z.testbit y i) end. intros c d.
  repeat match goal with |- context [Z.testbit (Z.shiftl ?a ?k) i] => generalize (Z.testbit (Z.shiftl a k) i); intros ? end. by destruct c, d; rewrite ?orb_true_r, ?orb_false_r.
Qed.

Lemma cnfg_word_number chan reg l lo : 32 <= lo -> Forall (fun x => 0 <= snd x < 32) l ->
  Z.land (Z.shiftr (cnfg_word chan reg l) lo) 0xff = bits (Z.lor (Z.shiftl chan 32) (Z.shiftl reg 48)) lo 8.
Proof. intros Hlo Hl. change 0xff with (Z.ones 8). exact (cnfg_word_field chan reg l lo 8 Hlo ltac:(lia) Hl). Qed.

Lemma lor_flags a b : bool_decide (Z.lor (Z.b2z a) (Z.b2z b) <> 0) = a || b.
Proof. by destruct a, b. Qed.

Lemma net_flags r :
  bool_decide (bus_en_net_0 (read_static_config r) <> 0) = Z.testbit (sc_rdma_cnfg r) 0 || Z.testbit (sc_tcp_cnfg r) 0 /\
  bool_decide (bus_en_net_1 (read_static_config r) <> 0) = Z.testbit (sc_rdma_cnfg r) 1 || Z.testbit (sc_tcp_cnfg r) 1.
Proof.
  pose proof (fun reg => cnfg_flag_bit reg 0 ltac:(lia)) as F0. pose proof (fun reg => cnfg_flag_bit reg 1 ltac:(lia)) as F1.
  change (Z.shiftl 1 0) with 1 in F0. change (Z.shiftl 1 1) with 2 in F1.
  unfold read_static_config. cbn [bus_en_net_0 bus_en_net_1]. by rewrite !F0, !F1, !lor_flags.
Qed.

(** C11: The host library finds the configuration of the shell: the word the driver makes of
    the registers is parsed to the flags of the registers, whatever else they hold, and to
    the numbers of channels and of vFPGAs when they fit their bytes. *)
Theorem configuration_handed_over r :
  fits 8 (sc_n_chan r) -> fits 8 (sc_n_regions r) ->
  let c := parseCnfg (read_cnfg (read_static_config r)) in
  n_fpga_chan c = sc_n_chan r /\ n_fpga_reg c = sc_n_regions r /\
  [en_avx c; en_bypass c; en_tlbf c; en_wb c] = map (Z.testbit (sc_ctrl_cnfg r)) [0; 1; 2; 3] /\
  [en_strm c; en_mem c] = map (Z.testbit (sc_mem_cnfg r)) [0; 1] /\ en_pr c = Z.testbit (sc_pr_cnfg r) 0 /\
  [en_rdma_0 c; en_rdma_1 c] = map (Z.testbit (sc_rdma_cnfg r)) [0; 1] /\
  [en_tcp_0 c; en_tcp_1 c] = map (Z.testbit (sc_tcp_cnfg r)) [0; 1] /\
  en_net_0 c = bool_decide (bus_en_net_0 (read_static_config r) <> 0) /\ en_net_1 c = bool_decide (bus_en_net_1 (read_static_config r) <> 0).
Proof.
  intros Hc Hr. cbv zeta. destruct (net_flags r) as [-> ->]. rewrite read_cnfg_word by done. unfold parseCnfg.
  cbn [n_fpga_chan n_fpga_reg en_avx en_bypass en_tlbf en_wb en_strm en_mem en_pr en_rdma_0 en_rdma_1 en_tcp_0 en_tcp_1 en_net_0 en_net_1 map].
  rewrite !parsed_flag, !cnfg_word_bit by lia. cbn [existsb fst snd Z.eqb Pos.eqb andb orb]. rewrite !orb_false_r.
  split_and!; try done.
  - rewrite cnfg_word_number by (repeat constructor; cbn; lia). solve_bits. by apply wrap_small.
  - rewrite cnfg_word_number by (repeat constructor; cbn; lia). solve_bits. by apply wrap_small.
Qed.

Lemma configuration_handed_over_witness :
  let r := mk_stat_cnfg 3 10 0xc152045 0x3 0x1 0x2 0x1 in
  let c := parseCnfg (read_cnfg (read_static_config r)) in
  n_fpga_chan c = 3 /\ n_fpga_reg c = 10 /\ en_net_1 c = true.
Proof.
  cbv zeta. destruct (configuration_handed_over (mk_stat_cnfg 3 10 0xc152045 0x3 0x1 0x2 0x1)) as (H1 & H2 & _ & _ & _ & _ & _ & _ & H3).
  - split; cbn; lia.
  - split; cbn; lia.
  - split; [exact H1|]. split; [exact H2|]. rewrite H3. reflexivity.
Defined.

Lemma filter_same {A} (P : A -> Prop) `{!forall x, Decision (P x)} (l : list A) : (forall x, x ∈ l -> P x) -> filter P l = l.
Proof.
  induction l as [|x l IH]; intros Hl; [done|]. rewrite filter_cons_True by (apply Hl; by left). f_equal. apply IH. intros y Hy. apply Hl. by right.
Qed.

(** ** The free list

    [chain cs a l]: from the pointer [a] the list goes through the chunks [l] and ends
    in the last chunk of the array, whose identifier is not its index. *)
Inductive chain (cs : list chunk) : option nat -> list nat -> Prop :=
| chain_last : chain cs (Some (length cs - 1)%nat) []
| chain_cons i c l : cs !! i = Some c -> ck_id c = Z.of_nat i -> (i < length cs - 1)%nat -> chain cs (ck_next c) l -> chain cs (Some i) (i :: l).

(** The chunks [out] are handed out and the chunks [free] are on the list. *)
Record pool_ok (n : nat) (p : pool) (out free : list nat) : Prop := mk_pool_ok {
  po_size : length (pl_chunks p) = n; po_free : num_free p = Z.of_nat n;
  po_chain : chain (pl_chunks p) (pl_alloc p) free;
  po_split : out ++ free ≡ₚ seq 0 (n - 1);
  po_used : forall i, i ∈ out -> exists c, pl_chunks p !! i = Some c /\ ck_used c = true /\ ck_id c = Z.of_nat i }.

Lemma chain_insert cs a l i c :
  chain cs a l -> i ∉ l -> chain (<[i := c]> cs) a l.
Proof.
  induction 1 as [|j cj l Hj Hid Hlt Hc IH]; intros Hi.
  - rewrite <- (length_insert cs i c). constructor.
  - rewrite not_elem_of_cons in Hi. destruct Hi as [Hne Hi]. econstructor; [by rewrite list_lookup_insert_ne by done | done | by rewrite length_insert | auto].
Qed.

Lemma chain_range cs a l i : chain cs a l -> i ∈ l -> (i < length cs - 1)%nat.
Proof. induction 1; rewrite ?elem_of_nil, ?elem_of_cons; [done|]. intros [->|]; auto. Qed.

Lemma pool_ok_locked n b p out free : pool_ok n p out free -> pool_ok n (set_locked b p) out free.
Proof. intros [? ? ? ? ?]. by constructor. Qed.

Lemma pool_nodup n p out free : pool_ok n p out free -> NoDup (out ++ free).
Proof. intros H. rewrite (po_split _ _ _ _ H). apply NoDup_seq. Qed.

(** The list threads the chunks in order at first. *)
Lemma init_chain n k : (0 < n)%nat -> (k <= n - 1)%nat ->
  chain (pl_chunks (pool_init n)) (Some (n - 1 - k)%nat) (seq (n - 1 - k) k).
Proof.
  intros Hn. induction k as [|k IH]; intros Hk.
  - replace (n - 1 - 0)%nat with (length (pl_chunks (pool_init n)) - 1)%nat at 1; [constructor|].
    cbn. rewrite length_app, length_map, length_seq. cbn. lia.
  - cbn [seq]. replace (S (n - 1 - S k)) with (n - 1 - k)%nat by lia.
    apply (chain_cons _ _ (mk_chunk false (Z.of_nat (n - 1 - S k)) (Some (n - 1 - k)%nat))).
    + cbn [pl_chunks pool_init]. rewrite lookup_app_l by (rewrite length_map, length_seq; lia).
      rewrite list_lookup_fmap, lookup_seq_lt by lia. cbn. do 2 f_equal. f_equal. lia.
    + done.
    + cbn. rewrite length_app, length_map, length_seq. cbn. lia.
    + apply IH. lia.
Qed.

Lemma pool_init_ok n : (0 < n)%nat -> pool_ok n (pool_init n) [] (seq 0 (n - 1)).
Proof.
  intros Hn. constructor; try done.
  - cbn. rewrite length_app, length_map, length_seq. cbn. lia.
  - pose proof (init_chain n (n - 1) Hn ltac:(lia)) as H. replace (n - 1 - (n - 1))%nat with 0%nat in H by lia. exact H.
  - intros i Hi. by apply elem_of_nil in Hi.
Qed.

(** ** Taking and giving *)

Lemma take_chunk_ok n p out i free :
  pool_ok n p out (i :: free) ->
  exists p', take_chunk p = (Ret (Z.of_nat i), p') /\ pool_ok n p' (i :: out) free.
Proof.
  intros H. pose proof (pool_nodup _ _ _ _ H) as Hnd. destruct H as [Hsz Hnf Hch Hsp Hus].
  inversion Hch as [|i' c l Hc Hid Hlt Hch' Ea]; subst i' l.
  unfold take_chunk, mbind, M_bind, gets. rewrite <- Ea. unfold chunk_at. rewrite Hc. cbn. rewrite Hid. eexists. split; [done|].
  apply NoDup_app in Hnd as (Hno & Hdis & Hnf'). apply NoDup_cons in Hnf' as [Hi Hnf'].
  constructor; cbn; rewrite ?length_insert; try done.
  - by apply chain_insert.
  - rewrite <- Hsp. by rewrite <- Permutation_middle.
  - intros j Hj. apply elem_of_cons in Hj as [->|Hj].
    + eexists. rewrite list_lookup_insert_eq by lia. by split_and!.
    + destruct (Hus j Hj) as (cj & Hcj & Hu & Hidj). exists cj. rewrite list_lookup_insert_ne; [done|].
      intros ->. apply (Hdis j Hj). by left.
Qed.

Lemma take_chunks_ok n addr k : forall p out free,
  pool_ok n p out free -> (k <= length free)%nat ->
  exists p', take_chunks addr k p = (Ret (map (fun i => addr (Z.of_nat i)) (take k free)), p') /\
    pool_ok n p' (reverse (take k free) ++ out) (drop k free).
Proof.
  induction k as [|k IH]; intros p out free H Hk; [by exists p|].
  destruct free as [|i free]; [cbn in Hk; lia|]. destruct (take_chunk_ok n p out i free H) as (p1 & E1 & H1).
  destruct (IH p1 (i :: out) free H1 ltac:(cbn in Hk; lia)) as (p2 & E2 & H2).
  exists p2. cbn [take_chunks]. unfold mbind, M_bind. rewrite E1, E2. split; [done|].
  cbn [take drop]. rewrite reverse_cons, <- app_assoc. done.
Qed.

Lemma pool_take_ok n addr k p out free :
  pool_ok n p out free -> pl_locked p = false -> (k <= length free)%nat ->
  exists p', pool_take addr (Z.of_nat k) p = (Ret (0, map (fun i => addr (Z.of_nat i)) (take k free)), p') /\
    pool_ok n p' (reverse (take k free) ++ out) (drop k free) /\ pl_locked p' = false.
Proof.
  intros H Hl Hk. assert (length free <= n - 1)%nat as Hf.
  { rewrite <- (length_seq (n - 1) 0), <- (po_split _ _ _ _ H), length_app. lia. }
  destruct (take_chunks_ok n addr k (set_locked true p) out free) as (q & E & Hq); [by apply pool_ok_locked | done|].
  exists (set_locked false q). split; [|split; [by apply pool_ok_locked | done]].
  unfold pool_take, spin_lock, spin_unlock, mbind, M_bind, gets, modify. rewrite Hl. cbn [num_free set_locked].
  rewrite (po_free _ _ _ _ H). rewrite (proj2 (Z.ltb_ge (Z.of_nat n) (Z.of_nat k))) by lia. by rewrite Nat2Z.id, E.
Qed.

(** A chunk that was out at the head of the list. *)
Lemma given_ok n p out free i c u :
  pool_ok n p (i :: out) free -> pl_chunks p !! i = Some c -> ck_id c = Z.of_nat i ->
  pool_ok n (set_alloc (Some i) (set_chunks (<[i := mk_chunk u (ck_id c) (pl_alloc p)]> (pl_chunks p)) p)) out (i :: free).
Proof.
  intros H Hc Hid. pose proof (pool_nodup _ _ _ _ H) as Hnd. destruct H as [Hsz Hnf Hch Hsp Hus].
  assert (i < n - 1)%nat as Hi. { cut (i ∈ seq 0 (n - 1)); [rewrite elem_of_seq; lia|]. rewrite <- Hsp. by left. }
  cbn [app] in Hnd. apply NoDup_cons in Hnd as [Hni Hnd].
  constructor; cbn; rewrite ?length_insert; try done.
  - econstructor; [by rewrite list_lookup_insert_eq by lia | done | rewrite length_insert; lia|]. cbn.
    apply chain_insert; [done|]. intros Hin. apply Hni. apply elem_of_app. by right.
  - rewrite <- Hsp. by rewrite <- Permutation_middle.
  - intros j Hj. destruct (Hus j) as (cj & Hcj & Huj); [by right|]. exists cj. rewrite list_lookup_insert_ne; [done|].
    intros ->. apply Hni, elem_of_app. by left.
Qed.

Lemma put_back_ok n p out free i :
  pool_ok n p (i :: out) free -> exists p', put_back i p = (Ret tt, p') /\ pool_ok n p' out (i :: free).
Proof.
  intros H. destruct (po_used _ _ _ _ H i) as (c & Hc & Hu & Hid); [by left|].
  unfold put_back, mbind, M_bind, gets. unfold chunk_at. rewrite Hc, Hu. eexists. split; [done|]. by eapply given_ok.
Qed.

Lemma put_back_all n l : forall p out free,
  pool_ok n p (l ++ out) free ->
  exists p', for_each put_back l p = (Ret tt, p') /\ pool_ok n p' out (reverse l ++ free).
Proof.
  induction l as [|i l IH]; intros p out free H; [by exists p|].
  destruct (put_back_ok n p (l ++ out) free i H) as (p1 & E1 & H1). destruct (IH p1 out (i :: free) H1) as (p2 & E2 & H2).
  exists p2. cbn [for_each]. unfold mbind, M_bind. rewrite E1, E2. split; [done|]. by rewrite reverse_cons, <- app_assoc.
Qed.

Lemma pool_ok_perm n p out out' free : out ≡ₚ out' -> pool_ok n p out free -> pool_ok n p out' free.
Proof. intros E [? ? ? ? Hu]. constructor; try done; [by rewrite <- E|]. intros i Hi. apply Hu. by rewrite E. Qed.

Lemma pool_give_ok n index l p out free :
  pool_ok n p (map (fun a => Z.to_nat (index a)) l ++ out) free -> pl_locked p = false ->
  exists p', pool_give index l p = (Ret tt, p') /\ pool_ok n p' out (map (fun a => Z.to_nat (index a)) l ++ free) /\ pl_locked p' = false.
Proof.
  intros H Hl. set (ids := map (fun a => Z.to_nat (index a)) l) in *.
  destruct (put_back_all n (reverse ids) (set_locked true p) out free) as (q & E & Hq).
  { apply pool_ok_locked. eapply pool_ok_perm; [|exact H]. by rewrite (reverse_Permutation ids). }
  rewrite reverse_involutive in Hq. exists (set_locked false q). split; [|split; [by apply pool_ok_locked | done]].
  unfold pool_give, spin_lock, spin_unlock, mbind, M_bind, modify. rewrite Hl.
  assert (forall q, for_each (fun a => put_back (Z.to_nat (index a))) (reverse l) q = for_each put_back (reverse ids) q) as ->; [|by rewrite E].
  clear. intros q. unfold ids. rewrite <- fmap_reverse. generalize q. induction (reverse l) as [|a r IH]; intros q'; [done|].
  cbn [for_each fmap list_fmap]. unfold mbind, M_bind. destruct (put_back _ q') as [[] ?]; auto.
Qed.

(** ** Card memory *)

Lemma n_small : Z.of_nat N_SMALL_CHUNKS = 2 ^ 18.
Proof. unfold N_SMALL_CHUNKS. by rewrite Z2Nat.id by lia. Qed.
Lemma n_large : Z.of_nat N_LARGE_CHUNKS = 2 ^ 9.
Proof. done. Qed.
#[local] Opaque N_SMALL_CHUNKS N_LARGE_CHUNKS.

(** Chunks whose pages are handed out: small and large ones. *)
Definition page_addr (large : bool) (i : nat) : Z := if large then large_addr (Z.of_nat i) else small_addr (Z.of_nat i).
Definition page_bytes (large : bool) : Z := if large then 2 ^ LTLB_PAGE_BITS else 2 ^ STLB_PAGE_BITS.

Definition n_chunks (large : bool) : nat := if large then N_LARGE_CHUNKS else N_SMALL_CHUNKS.

(** Any sequence of allocations and of releases of pages that are out, in which not all
    chunks of a kind are out at once. *)
Inductive card_reach : card -> list (bool * nat) -> Prop :=
| card_start : card_reach card_init []
| card_takes c out large ids ret c' :
    card_reach c out -> (length (filter (fun x => fst x = large) out) + length ids < n_chunks large)%nat ->
    Forall (fun i => i < n_chunks large)%nat ids ->
    card_alloc large (Z.of_nat (length ids)) c = (Ret (ret, map (page_addr large) ids), c') ->
    card_reach c' (map (pair large) ids ++ out)
| card_gives c out large ids rest c' :
    card_reach c out -> out ≡ₚ map (pair large) ids ++ rest ->
    card_free large (map (page_addr large) ids) c = (Ret tt, c') ->
    card_reach c' rest.

Definition outs (large : bool) (out : list (bool * nat)) : list nat := map snd (filter (fun x => fst x = large) out).

Definition pool_of (large : bool) (c : card) : pool := if large then card_large c else card_small c.

Definition card_ok (c : card) (out : list (bool * nat)) : Prop :=
  forall large, exists free, pool_ok (n_chunks large) (pool_of large c) (outs large out) free /\ pl_locked (pool_of large c) = false.

Lemma outs_pairs large large' ids out :
  outs large (map (pair large') ids ++ out) = if bool_decide (large' = large) then ids ++ outs large out else outs large out.
Proof.
  unfold outs. rewrite filter_app, map_app. case_bool_decide as E.
  - subst. f_equal. induction ids as [|i ids IH]; [done|]. cbn [map]. rewrite filter_cons_True by done. cbn. by rewrite IH.
  - replace (filter (fun x : bool * nat => fst x = large) (map (pair large') ids)) with (@nil (bool * nat)); [done|].
    induction ids as [|i ids IH]; [done|]. cbn [map]. by rewrite filter_cons_False.
Qed.

Lemma outs_perm large out out' : out ≡ₚ out' -> outs large out ≡ₚ outs large out'.
Proof. intros E. unfold outs. by rewrite E. Qed.

Lemma small_addr_value i : 0 <= i < 2 ^ 18 -> small_addr i = i * 2 ^ 12.
Proof. intros Hi. unfold small_addr, STLB_PAGE_BITS. rewrite Z.shiftl_mul_pow2 by lia. apply wrap_small. unfold fits. lia. Qed.

Lemma large_addr_value i : 0 <= i < 2 ^ 9 -> large_addr i = i * 2 ^ 21 + 2 ^ 30.
Proof.
  intros Hi. unfold large_addr, LTLB_PAGE_BITS, MEM_SEP. rewrite Z.shiftl_mul_pow2 by lia.
  rewrite (wrap_small 32 (i * 2 ^ 21)) by (unfold fits; lia). apply wrap_small. unfold fits. lia.
Qed.

Definition page_index (large : bool) (a : Z) : Z := if large then large_index a else small_index a.

Lemma index_addr large i : (i < n_chunks large)%nat -> Z.to_nat (page_index large (page_addr large i)) = i.
Proof.
  intros Hi. unfold n_chunks in Hi. pose proof n_small. pose proof n_large. unfold page_index, page_addr. destruct large.
  - rewrite large_addr_value by lia. unfold large_index, MEM_SEP, LTLB_PAGE_BITS.
    rewrite wrap_small by (unfold fits; lia). rewrite Z.shiftr_div_pow2 by lia.
    replace (Z.of_nat i * 2 ^ 21 + 2 ^ 30 - 256 * 1024 * (4 * 1024)) with (Z.of_nat i * 2 ^ 21) by lia. rewrite Z.div_mul by lia. lia.
  - rewrite small_addr_value by lia. unfold small_index, STLB_PAGE_BITS. rewrite Z.shiftr_div_pow2, Z.div_mul by lia. lia.
Qed.

Lemma pool_out_range n p out free i : pool_ok n p out free -> i ∈ out -> (i < n - 1)%nat.
Proof. intros H Hi. cut (i ∈ seq 0 (n - 1)); [rewrite elem_of_seq; lia|]. rewrite <- (po_split _ _ _ _ H). apply elem_of_app. by left. Qed.

(** The two operations on their pool. *)
Lemma card_alloc_pool large n c :
  card_alloc large n c = let '(r, p) := pool_take (fun id => if large then large_addr id else small_addr id) n (pool_of large c) in
    (r, if large then mk_card (card_small c) p else mk_card p (card_large c)).
Proof. by destruct large. Qed.

Lemma card_free_pool large l c :
  card_free large l c = let '(r, p) := pool_give (page_index large) l (pool_of large c) in
    (r, if large then mk_card (card_small c) p else mk_card p (card_large c)).
Proof. by destruct large. Qed.

Lemma card_alloc_ok c out large k :
  card_ok c out -> (length (outs large out) + k < n_chunks large)%nat ->
  exists ids c', card_alloc large (Z.of_nat k) c = (Ret (0, map (page_addr large) ids), c') /\ length ids = k /\
    card_ok c' (map (pair large) ids ++ out).
Proof.
  intros H Hk. destruct (H large) as (free & Hp & Hl).
  assert (length free = n_chunks large - 1 - length (outs large out))%nat as Hlen.
  { pose proof (Permutation_length (po_split _ _ _ _ Hp)) as E. rewrite length_app, length_seq in E. lia. }
  destruct (pool_take_ok _ (fun id => if large then large_addr id else small_addr id) k _ _ _ Hp Hl ltac:(lia)) as (p' & E & Hp' & Hl').
  exists (take k free). eexists. split; [|split].
  - rewrite card_alloc_pool, E. reflexivity.
  - rewrite length_take. lia.
  - intros large'. rewrite outs_pairs. destruct (H large') as (free' & Hpo & Hlo).
    case_bool_decide as Eq; [subst large'|].
    + exists (drop k free). destruct large; (split; [|exact Hl']); (eapply pool_ok_perm; [|exact Hp']; by rewrite reverse_Permutation).
    + exists free'. destruct large, large'; try done.
Qed.

Lemma card_free_ok c out large ids rest :
  card_ok c out -> out ≡ₚ map (pair large) ids ++ rest ->
  exists c', card_free large (map (page_addr large) ids) c = (Ret tt, c') /\ card_ok c' rest.
Proof.
  intros H Hout. destruct (H large) as (free & Hp & Hl).
  assert (outs large out ≡ₚ ids ++ outs large rest) as Ho.
  { rewrite (outs_perm _ _ _ Hout), outs_pairs. by rewrite bool_decide_true. }
  pose proof (pool_ok_perm _ _ _ _ _ Ho Hp) as Hp1.
  assert (map (fun a => Z.to_nat (page_index large a)) (map (page_addr large) ids) = ids) as Hids.
  { rewrite map_map. rewrite <- (map_id ids) at 2. apply map_ext_in. intros i Hi. apply index_addr.
    pose proof (pool_out_range _ _ _ _ i Hp1) as Hr. rewrite elem_of_app in Hr. specialize (Hr (or_introl (proj2 (list_elem_of_In _ _) Hi))). lia. }
  rewrite <- Hids in Hp1. destruct (pool_give_ok _ _ _ _ _ _ Hp1 Hl) as (p' & E & Hp' & Hl').
  eexists. split; [rewrite card_free_pool, E; reflexivity|].
  intros large'. destruct (H large') as (free' & Hpo & Hlo). destruct (decide (large' = large)) as [->|Hne].
  - eexists. destruct large; (split; [exact Hp' | exact Hl']).
  - exists free'. assert (outs large' out ≡ₚ outs large' rest) as Ho'.
    { rewrite (outs_perm _ _ _ Hout), outs_pairs. by rewrite bool_decide_false by congruence. }
    apply (pool_ok_perm _ _ _ _ _ Ho') in Hpo. by destruct large, large'.
Qed.

Lemma card_init_ok : card_ok card_init [].
Proof.
  intros large. exists (seq 0 (n_chunks large - 1)). destruct large; (split; [|done]); apply pool_init_ok; pose proof n_small; pose proof n_large; unfold n_chunks; lia.
Qed.

Lemma page_addrs_inj large ids ids' :
  Forall (fun i => i < n_chunks large)%nat ids -> Forall (fun i => i < n_chunks large)%nat ids' ->
  map (page_addr large) ids = map (page_addr large) ids' -> ids = ids'.
Proof.
  intros H H' E. assert (forall l, Forall (fun i => i < n_chunks large)%nat l -> map (fun a => Z.to_nat (page_index large a)) (map (page_addr large) l) = l) as Hinv.
  { induction 1 as [|i l Hi Hl IH]; [done|]. cbn [map]. by rewrite index_addr, IH. }
  by rewrite <- (Hinv ids H), <- (Hinv ids' H'), E.
Qed.

Lemma outs_range c out large : card_ok c out -> Forall (fun i => i < n_chunks large - 1)%nat (outs large out).
Proof. intros H. destruct (H large) as (free & Hp & _). apply Forall_forall. intros i Hi. by eapply pool_out_range. Qed.

Lemma card_reach_ok c out : card_reach c out -> card_ok c out.
Proof.
  induction 1 as [|c out large ids ret c' Hr IH Hlen Hids E|c out large ids rest c' Hr IH Hp E].
  - apply card_init_ok.
  - destruct (card_alloc_ok c out large (length ids) IH) as (ids' & c1 & E' & Hl & Hok).
    { unfold outs. by rewrite length_map. }
    rewrite E in E'. injection E' as _ Eids Ec. subst c1. apply page_addrs_inj in Eids as ->; [done | done|].
    pose proof (outs_range _ _ large Hok) as Hrange. rewrite outs_pairs, bool_decide_true, Forall_app in Hrange by done.
    eapply Forall_impl; [exact (proj1 Hrange)|]. cbn. lia.
  - destruct (card_free_ok c out large ids rest IH Hp) as (c1 & E' & Hok). rewrite E in E'. by simplify_eq.
Qed.

(** The bytes of a page. *)
Definition page_start (x : bool * nat) : Z := page_addr (fst x) (snd x).
Definition page_end (x : bool * nat) : Z := page_start x + page_bytes (fst x).

Lemma outs_cons large x out : outs large (x :: out) = if bool_decide (fst x = large) then snd x :: outs large out else outs large out.
Proof. unfold outs. case_bool_decide; [by rewrite filter_cons_True | by rewrite filter_cons_False]. Qed.

Lemma outs_elem large i out : (large, i) ∈ out -> i ∈ outs large out.
Proof.
  intros H. unfold outs. apply list_elem_of_In, in_map_iff. exists (large, i). split; [done|].
  apply list_elem_of_In, list_elem_of_filter. by split.
Qed.

Lemma outs_nodup out : (forall large, NoDup (outs large out)) -> NoDup out.
Proof.
  induction out as [|[l i] out IH]; intros H; [constructor|]. constructor.
  - intros Hin. apply outs_elem in Hin. specialize (H l). rewrite outs_cons, bool_decide_true in H by done. by apply NoDup_cons in H as [H _].
  - apply IH. intros l'. specialize (H l'). rewrite outs_cons in H. case_bool_decide; [by apply NoDup_cons in H as [_ H] | done].
Qed.

Lemma card_ok_nodup c out : card_ok c out -> NoDup out.
Proof.
  intros H. apply outs_nodup. intros large. destruct (H large) as (free & Hp & _). pose proof (pool_nodup _ _ _ _ Hp) as Hn.
  by apply NoDup_app in Hn as [Hn _].
Qed.

Lemma pages_apart c out x y i j :
  card_ok c out -> out !! i = Some x -> out !! j = Some y -> i <> j -> page_end x <= page_start y \/ page_end y <= page_start x.
Proof.
  intros H Hx Hy Hne. pose proof n_small as Ns. pose proof n_large as Nl.
  assert (forall k z, out !! k = Some z -> Z.of_nat (snd z) < Z.of_nat (n_chunks (fst z)) - 1) as Hrange.
  { intros k [lz z] Hk. pose proof (outs_range _ _ lz H) as Hf. rewrite Forall_forall in Hf. specialize (Hf z). cbn. apply list_elem_of_lookup_2 in Hk.
    cut (z < n_chunks lz - 1)%nat; [unfold n_chunks; destruct lz; lia|]. by apply Hf, outs_elem. }
  assert (x <> y) as Hxy by (intros ->; apply Hne; by eapply NoDup_lookup; [eapply card_ok_nodup|..]).
  pose proof (Hrange i x Hx) as Rx. pose proof (Hrange j y Hy) as Ry. destruct x as [lx x], y as [ly y]. unfold page_end, page_start, page_addr, page_bytes, n_chunks in *. cbn [fst snd] in *.
  assert (lx = ly -> x <> y) as Hxy' by (intros -> ->; by apply Hxy).
  unfold LTLB_PAGE_BITS, STLB_PAGE_BITS in *. destruct lx, ly; rewrite ?large_addr_value, ?small_addr_value by lia; lia.
Qed.

Lemma page_room large l : l = [] -> (length (A := bool * nat) l + 2 < n_chunks large)%nat.
Proof. pose proof n_small. pose proof n_large. intros ->. unfold n_chunks. destruct large; change (length (A := bool * nat) []) with 0%nat; lia. Qed.

Lemma other_pages ids : filter (fun x : bool * nat => fst x = true) (map (pair false) ids ++ []) = [].
Proof. rewrite app_nil_r. by induction ids. Qed.

(** C9: Card memory is exclusive: after any sequence of allocations and of releases of pages
    that are out, with at least one chunk of each kind left, the pages that are out do
    not overlap, an allocation of pages that leaves a chunk succeeds with as many pages
    as asked for, and a release of pages that are out succeeds. *)
Theorem card_pages_exclusive c out :
  card_reach c out ->
  (forall x y i j, out !! i = Some x -> out !! j = Some y -> i <> j -> page_end x <= page_start y \/ page_end y <= page_start x) /\
  (forall large k, (length (filter (fun x => fst x = large) out) + k < n_chunks large)%nat ->
     exists ids c', card_alloc large (Z.of_nat k) c = (Ret (0, map (page_addr large) ids), c') /\ length ids = k /\
       card_reach c' (map (pair large) ids ++ out)) /\
  (forall large ids rest, out ≡ₚ map (pair large) ids ++ rest ->
     exists c', card_free large (map (page_addr large) ids) c = (Ret tt, c') /\ card_reach c' rest).
Proof.
  intros Hr. pose proof (card_reach_ok _ _ Hr) as H. split; [|split].
  - intros x y i j. by apply (pages_apart c).
  - intros large k Hk. destruct (card_alloc_ok c out large k H) as (ids & c' & E & Hl & Hok); [unfold outs; by rewrite length_map|].
    exists ids, c'. split; [done|]. split; [done|]. subst k. eapply card_takes; [done | done | | done].
    pose proof (outs_range _ _ large Hok) as Hf. rewrite outs_pairs, bool_decide_true, Forall_app in Hf by done.
    eapply Forall_impl; [exact (proj1 Hf)|]. cbn. lia.
  - intros large ids rest Hp. destruct (card_free_ok c out large ids rest H Hp) as (c' & E & _).
    exists c'. split; [done|]. by eapply card_gives.
Qed.

(** Two pages of each kind. *)
Lemma card_pages_exclusive_witness :
  exists ids c' ids' c'',
    card_alloc false 2 card_init = (Ret (0, map (page_addr false) ids), c') /\
    card_alloc true 2 c' = (Ret (0, map (page_addr true) ids'), c'') /\
    forall x y i j, (map (pair true) ids' ++ map (pair false) ids) !! i = Some x -> (map (pair true) ids' ++ map (pair false) ids) !! j = Some y -> i <> j ->
      page_end x <= page_start y \/ page_end y <= page_start x.
Proof.
  destruct (card_pages_exclusive card_init [] card_start) as (_ & Ht & _).
  destruct (Ht false 2%nat (page_room _ _ eq_refl)) as (ids & c' & E & Hl & Hr).
  destruct (card_pages_exclusive c' _ Hr) as (_ & Ht' & _).
  destruct (Ht' true 2%nat (page_room _ _ (other_pages ids))) as (ids' & c'' & E' & Hl' & Hr').
  rewrite app_nil_r in Hr'. destruct (card_pages_exclusive c'' _ Hr') as (Hx & _).
  exists ids, c', ids', c''. split; [exact E|]. split; [exact E' | exact Hx].
Defined.

(** Small pools.  The last chunk has the identifier of the first: its page is handed
    out twice.  Too large a request leaves the lock taken.  The count of free chunks is
    never changed: after three of four chunks are taken two more are asked for. *)
Example last_chunk_shared : fst (pool_take id 4 (pool_init 4)) = Ret (0, [0; 1; 2; 0]).
Proof. reflexivity. Qed.

Example lock_kept :
  let '(r, p) := pool_take id 5 (pool_init 4) in r = Ret (- ENOMEM, []) /\ fst (pool_take id 1 p) = Spin.
Proof. by split. Qed.

Example null_chunk_taken :
  let '(_, p) := pool_take id 3 (pool_init 4) in fst (pool_take id 2 p) = Undef "null chunk".
Proof. reflexivity. Qed.

(** A page freed twice is handed out twice. *)
Example freed_twice :
  let '(_, p) := pool_take id 1 (pool_init 4) in
  let '(_, p) := pool_give id [0; 0] p in fst (pool_take id 2 p) = Ret (0, [0; 0]).
Proof. reflexivity. Qed.
