(* ===== verification/DrvPidFacts.v ===== *)
(** The process identifiers of the driver are those of one process each. *)
From stdpp Require Import base numbers list sorting strings.
From Stdlib Require Import ZArith Lia.
From S2P Require Import Prelude Driver DriverFacts.

Local Open Scope Z_scope.

(** Registrations while an identifier besides the last is free, and unregistrations of
    any identifier in range, with the processes that are registered. *)
Inductive pids_reach : pids -> list (Z * Z) -> Prop :=
| pids_start : pids_reach pids_init []
| pids_registered s live pid cpid s' :
    pids_reach s live -> (length live < N_CPID_MAX - 1)%nat -> register_pid pid s = (Ret cpid, s') -> pids_reach s' ((cpid, pid) :: live)
| pids_unregistered s live cpid ret s' :
    pids_reach s live -> 0 <= cpid < Z.of_nat N_CPID_MAX -> unregister_pid cpid s = (Ret ret, s') ->
    pids_reach s' (filter (fun x => fst x <> cpid) live).

Definition cpids (live : list (Z * Z)) : list nat := map (fun x => Z.to_nat (fst x)) live.

Record pids_ok (s : pids) (live : list (Z * Z)) (free : list nat) : Prop := mk_pids_ok {
  pi_pool : pool_ok N_CPID_MAX (pid_pool s) (cpids live) free; pi_lock : pl_locked (pid_pool s) = false;
  pi_size : length (pid_array s) = N_CPID_MAX;
  pi_unused : forall i, i ∈ free \/ i = (N_CPID_MAX - 1)%nat -> exists c, pl_chunks (pid_pool s) !! i = Some c /\ ck_used c = false;
  pi_owner : forall cpid pid, (cpid, pid) ∈ live -> 0 <= cpid /\ pid_array s !! Z.to_nat cpid = Some pid }.

Lemma pool_init_unused n i : (i < n)%nat -> exists c, pl_chunks (pool_init n) !! i = Some c /\ ck_used c = false.
Proof.
  intros Hi. assert (Forall (fun c => ck_used c = false) (pl_chunks (pool_init n))) as Hf.
  { cbn. apply Forall_app. split; [apply Forall_map, Forall_true; done | by repeat constructor]. }
  destruct (lookup_lt_is_Some_2 (pl_chunks (pool_init n)) i) as [c Hc].
  - cbn. rewrite length_app, length_map, length_seq. cbn. lia.
  - exists c. split; [done|]. by apply (proj1 (Forall_lookup _ _) Hf i).
Qed.

Lemma pids_init_ok : pids_ok pids_init [] (seq 0 (N_CPID_MAX - 1)).
Proof.
  constructor; try done.
  - apply pool_init_ok. unfold N_CPID_MAX. lia.
  - intros i Hi. apply pool_init_unused. rewrite elem_of_seq in Hi. unfold N_CPID_MAX in *. lia.
  - intros cpid pid Hin. by apply elem_of_nil in Hin.
Qed.

(** The chunk at the head of the list. *)
Lemma pool_head n p out i free :
  pool_ok n p out (i :: free) -> exists c, pl_alloc p = Some i /\ pl_chunks p !! i = Some c /\ ck_id c = Z.of_nat i /\ (i < n - 1)%nat.
Proof.
  intros [Hsz _ Hch _ _]. inversion Hch as [|i' c l Hc Hid Hlt _ Ea]; subst i' l. exists c. rewrite <- Hsz. by split_and!.
Qed.

Lemma register_ok s live i free pid :
  pids_ok s live (i :: free) ->
  exists s', register_pid pid s = (Ret (Z.of_nat i), s') /\ pids_ok s' ((Z.of_nat i, pid) :: live) free.
Proof.
  intros [Hp Hl Hs Hu Ho]. destruct (pool_head _ _ _ _ _ Hp) as (c & Ea & Hc & Hid & Hi).
  destruct (take_chunk_ok _ _ _ _ _ (pool_ok_locked _ false _ _ _ Hp)) as (p' & Et & Hp').
  pose proof (pool_nodup _ _ _ _ Hp) as Hnd. apply NoDup_app in Hnd as (_ & Hdis & Hnf). apply NoDup_cons in Hnf as [Hni Hnf].
  pose proof (po_size _ _ _ _ Hp) as Hsz.
  assert (p' = set_alloc (ck_next c) (set_chunks (<[i := mk_chunk true (ck_id c) (ck_next c)]> (pl_chunks (pid_pool s))) (set_locked false (pid_pool s)))) as ->.
  { unfold take_chunk, mbind, M_bind, gets, chunk_at in Et. cbn -[lookup] in Et. rewrite Ea in Et. cbn -[lookup] in Et. rewrite Hc in Et. cbn -[lookup insert] in Et. injection Et as _ <-. reflexivity. }
  exists (mk_pids (set_alloc (ck_next c) (set_chunks (<[i := mk_chunk true (ck_id c) (ck_next c)]> (pl_chunks (pid_pool s))) (set_locked false (pid_pool s)))) (<[i := pid]> (pid_array s))).
  split.
  - unfold register_pid, spin_lock, spin_unlock, on_pids, chunk_at, put_chunk, mbind, M_bind, gets, modify. rewrite Hl. cbn -[N_CPID_MAX lookup insert].
    rewrite (po_free _ _ _ _ Hp). change (Z.of_nat N_CPID_MAX =? 0) with false. cbn -[N_CPID_MAX lookup insert]. rewrite Ea. cbn -[N_CPID_MAX lookup insert]. rewrite Hc. cbn -[N_CPID_MAX lookup insert]. rewrite Hid, Nat2Z.id, Hc. cbn -[N_CPID_MAX lookup insert].
    rewrite list_lookup_insert_eq by lia. cbn -[N_CPID_MAX lookup insert]. by rewrite Hid.
  - constructor; cbn -[N_CPID_MAX lookup insert]; rewrite ?length_insert; try done.
    + unfold cpids. cbn [map fst]. by rewrite Nat2Z.id.
    + intros j Hj. destruct (Hu j) as (cj & Hcj & Huj); [destruct Hj; [left; by right | by right]|].
      exists cj. rewrite list_lookup_insert_ne; [done|]. intros ->. destruct Hj as [Hj| ->]; [done | lia].
    + intros cpid q Hin. apply elem_of_cons in Hin as [E|Hin].
      * injection E as -> ->. split; [lia|]. rewrite Nat2Z.id. rewrite list_lookup_insert_eq; [done | lia].
      * destruct (Ho _ _ Hin) as [H0 Hq]. split; [done|]. rewrite list_lookup_insert_ne; [done|]. intros ->. apply (Hdis (Z.to_nat cpid)); [|by left].
        unfold cpids. apply (list_elem_of_fmap_2 (fun x => Z.to_nat (fst x)) _ (cpid, q) Hin).
Qed.

Lemma cpids_filter cpid live :
  0 <= cpid -> (forall x, x ∈ live -> 0 <= fst x) -> cpids (filter (fun x => fst x <> cpid) live) = filter (fun i => i <> Z.to_nat cpid) (cpids live).
Proof.
  intros H0. induction live as [|x live IH]; intros Hn; [done|]. pose proof (Hn x ltac:(by left)) as Hx.
  unfold cpids in *. cbn [map]. rewrite !filter_cons. specialize (IH ltac:(intros y Hy; apply Hn; by right)).
  do 2 case_decide; try (exfalso; lia); cbn [map]; by rewrite IH.
Qed.

Lemma filter_out (i : nat) l : NoDup l -> i ∈ l -> l ≡ₚ i :: filter (fun j => j <> i) l.
Proof.
  induction 1 as [|j l Hj Hl IH]; intros Hi; [by apply elem_of_nil in Hi|].
  rewrite filter_cons. apply elem_of_cons in Hi as [<-|Hi].
  - rewrite decide_False by auto. rewrite filter_same; [done|]. by intros k Hk ->.
  - rewrite decide_True by (intros ->; done). rewrite (IH Hi) at 1. by constructor.
Qed.

Lemma unregister_ok s live free cpid :
  pids_ok s live free -> 0 <= cpid < Z.of_nat N_CPID_MAX ->
  exists s' free', unregister_pid cpid s = (Ret 0, s') /\ pids_ok s' (filter (fun x => fst x <> cpid) live) free'.
Proof.
  intros [Hp Hl Hs Hu Ho] Hc. set (k := Z.to_nat cpid). assert (k < N_CPID_MAX)%nat as Hk by lia.
  pose proof (pool_nodup _ _ _ _ Hp) as Hnd. pose proof (po_size _ _ _ _ Hp) as Hsz.
  assert (cpids (filter (fun x => fst x <> cpid) live) = filter (fun i => i <> k) (cpids live)) as Hf.
  { apply cpids_filter; [lia|]. intros [c p] Hx. by destruct (Ho c p Hx). }
  destruct (decide (k ∈ cpids live)) as [Hin|Hni].
  - destruct (po_used _ _ _ _ Hp k Hin) as (c & Hck & Hus & Hid).
    set (s1 := mk_chunk false (ck_id c) (pl_alloc (pid_pool s))).
    exists (mk_pids (set_alloc (Some k) (set_chunks (<[k := s1]> (pl_chunks (pid_pool s))) (set_locked false (pid_pool s)))) (pid_array s)), (k :: free).
    split; [|constructor; cbn -[N_CPID_MAX lookup insert]; try done].
    + unfold unregister_pid, spin_lock, spin_unlock, on_pids, chunk_at, put_chunk, mbind, M_bind, gets, modify. rewrite Hl.
      rewrite (proj2 (Z.ltb_ge cpid 0)) by lia. cbn -[N_CPID_MAX lookup insert]. fold k. rewrite Hck. cbn -[N_CPID_MAX lookup insert]. by rewrite Hus.
    + apply (given_ok N_CPID_MAX (set_locked false (pid_pool s)) _ free k c false); [|done|done].
      apply pool_ok_locked. rewrite Hf. eapply pool_ok_perm; [|exact Hp]. apply filter_out; [|done]. by apply NoDup_app in Hnd as [Hnd _].
    + intros i Hi. destruct (decide (i = k)) as [->|Hne].
      * exists s1. rewrite list_lookup_insert_eq; [done | lia].
      * rewrite list_lookup_insert_ne by done. apply Hu. destruct Hi as [Hi| ->]; [|by right]. apply elem_of_cons in Hi as [->|Hi]; [done | by left].
    + intros c' p' Hx. apply list_elem_of_filter in Hx as [_ Hx]. by apply Ho.
  - assert (exists c, pl_chunks (pid_pool s) !! k = Some c /\ ck_used c = false) as (c & Hck & Hus).
    { apply Hu. destruct (decide (k = N_CPID_MAX - 1)%nat) as [->|Hne]; [by right|]. left.
      cut (k ∈ cpids live ++ free); [rewrite elem_of_app; by intros [?|?]|]. rewrite (po_split _ _ _ _ Hp), elem_of_seq. lia. }
    exists s, free. rewrite filter_same.
    + split; [|done]. unfold unregister_pid, spin_lock, spin_unlock, on_pids, chunk_at, put_chunk, mbind, M_bind, gets, modify. rewrite Hl.
      rewrite (proj2 (Z.ltb_ge cpid 0)) by lia. cbn -[N_CPID_MAX lookup insert]. fold k. rewrite Hck. cbn -[N_CPID_MAX lookup insert]. rewrite Hus.
      destruct s as [[? ? ? ?] ?]. cbn in Hl. by subst.
    + intros x Hx E. apply Hni. unfold k. rewrite <- E. by apply (list_elem_of_fmap_2 (fun x => Z.to_nat (fst x))).
Qed.

Lemma free_count s live free : pids_ok s live free -> length free = (N_CPID_MAX - 1 - length live)%nat.
Proof.
  intros H. pose proof (Permutation_length (po_split _ _ _ _ (pi_pool _ _ _ H))) as E. unfold cpids in E. rewrite length_app, length_map, length_seq in E. lia.
Qed.

Lemma register_room s live free pid :
  pids_ok s live free -> (length live < N_CPID_MAX - 1)%nat ->
  exists i free' s', register_pid pid s = (Ret (Z.of_nat i), s') /\ (i ∉ cpids live) /\ pids_ok s' ((Z.of_nat i, pid) :: live) free'.
Proof.
  intros H Hlt. pose proof (free_count _ _ _ H) as Hf. destruct free as [|i free]; [change (length (@nil nat)) with 0%nat in Hf; lia|].
  destruct (register_ok _ _ _ _ pid H) as (s' & E & H'). exists i, free, s'. split_and!; [done| |done].
  pose proof (pool_nodup _ _ _ _ (pi_pool _ _ _ H)) as Hnd. apply NoDup_app in Hnd as (_ & Hdis & _). intros Hi. apply (Hdis i Hi). by left.
Qed.

Lemma pids_reach_ok s live : pids_reach s live -> exists free, pids_ok s live free.
Proof.
  induction 1 as [|s live pid cpid s' Hr [free IH] Hlt E|s live cpid ret s' Hr [free IH] Hc E].
  - eexists. apply pids_init_ok.
  - destruct (register_room _ _ _ pid IH Hlt) as (i & free' & s1 & E' & _ & H'). rewrite E in E'. simplify_eq. by exists free'.
  - destruct (unregister_ok _ _ _ cpid IH Hc) as (s1 & free' & E' & H'). rewrite E in E'. simplify_eq. by exists free'.
Qed.

(** C10: Process identifiers are exclusive: after any registrations, while at least one
    identifier besides the last of the pool is free, and any unregistrations, of
    identifiers in use or not, the identifiers in use are distinct and the array maps
    each to its process; a registration then succeeds with an identifier not in use, and
    an unregistration succeeds and takes away at most its own identifier. *)
Theorem cpids_exclusive s live :
  pids_reach s live ->
  NoDup (map fst live) /\
  (forall cpid pid, (cpid, pid) ∈ live -> 0 <= cpid < Z.of_nat N_CPID_MAX - 1 /\ pid_array s !! Z.to_nat cpid = Some pid) /\
  ((length live < N_CPID_MAX - 1)%nat -> forall pid, exists cpid s', register_pid pid s = (Ret cpid, s') /\ (cpid ∉ map fst live) /\ pids_reach s' ((cpid, pid) :: live)) /\
  (forall cpid, 0 <= cpid < Z.of_nat N_CPID_MAX -> exists s', unregister_pid cpid s = (Ret 0, s') /\ pids_reach s' (filter (fun x => fst x <> cpid) live)).
Proof.
  intros Hr. destruct (pids_reach_ok _ _ Hr) as [free H]. pose proof (pool_nodup _ _ _ _ (pi_pool _ _ _ H)) as Hnd.
  apply NoDup_app in Hnd as (Hnd & _ & _). split_and!.
  - unfold cpids in Hnd. rewrite <- (map_map fst Z.to_nat) in Hnd. by apply NoDup_fmap_1 in Hnd.
  - intros cpid pid Hin. destruct (pi_owner _ _ _ H _ _ Hin) as [H0 Ha]. split; [|done].
    pose proof (pool_out_range _ _ _ _ (Z.to_nat cpid) (pi_pool _ _ _ H)) as Hlt. unfold cpids in Hlt.
    specialize (Hlt (list_elem_of_fmap_2 (fun x => Z.to_nat (fst x)) _ (cpid, pid) Hin)). lia.
  - intros Hlt pid. destruct (register_room _ _ _ pid H Hlt) as (i & free' & s' & E & Hni & _).
    exists (Z.of_nat i), s'. split_and!; [done| |by econstructor]. intros Hin. apply Hni. unfold cpids.
    rewrite <- (map_map fst Z.to_nat), <- (Nat2Z.id i). by apply (list_elem_of_fmap_2 Z.to_nat).
  - intros cpid Hc. destruct (unregister_ok _ _ _ cpid H Hc) as (s' & free' & E & _). exists s'. split; [done|]. by econstructor.
Qed.

(** Three processes, the second unregistered. *)
Definition pids_1 : pids := snd (register_pid 100 pids_init).
Definition pids_2 : pids := snd (register_pid 200 pids_1).
Definition pids_3 : pids := snd (register_pid 300 pids_2).

Lemma three_registered : pids_reach pids_3 [(2, 300); (1, 200); (0, 100)].
Proof.
  apply (pids_registered pids_2 _ 300); [|cbn; unfold N_CPID_MAX; lia | by vm_compute].
  apply (pids_registered pids_1 _ 200); [|cbn; unfold N_CPID_MAX; lia | by vm_compute].
  apply (pids_registered pids_init _ 100); [apply pids_start | cbn; unfold N_CPID_MAX; lia | by vm_compute].
Qed.

Lemma cpids_exclusive_witness :
  exists s, unregister_pid 1 pids_3 = (Ret 0, s) /\ NoDup [2; 0] /\ pid_array s !! 2%nat = Some 300.
Proof.
  destruct (cpids_exclusive _ _ three_registered) as (_ & _ & _ & Hu).
  destruct (Hu 1) as (s & E & Hr); [unfold N_CPID_MAX; lia|].
  exists s. split; [exact E|]. destruct (cpids_exclusive s _ Hr) as (Hn & Ha & _). split; [exact Hn|]. apply (Ha 2 300). by left.
Defined.
