(* ===== verification/DrvMmu.v ===== *)
(** The kernel driver, second half: TLB entries, the pages of users and of bitstreams
    ([fpga_mmu.c]) and their mapping into user space ([fpga_mmap] of [fpga_fops.c]).

    The functions are those of one vFPGA.  What they do to the kernel and to the device
    is a trace of events.  A [struct page *] is the physical address of the page.  Tables
    are lists with the newest entry first: a bucket is the entries whose keys hash to it. *)
From stdpp Require Import base numbers list strings.
From Stdlib Require Import ZArith Lia.
From S2P Require Import Prelude Driver.

Local Open Scope Z_scope.

(** ** Constants *)

Definition PAGE_SHIFT : Z := 12.
Definition PAGE_SIZE : Z := 4096.
Definition PAGE_MASK : Z := u64 (Z.lnot (PAGE_SIZE - 1)).
Definition MAX_MAP_AXIL_PAGES : Z := 64.
Definition TLBF_CTRL_START : Z := 0x7.
Definition TLBF_CTRL_ID_MASK : Z := 0xff.
Definition TLBF_CTRL_ID_SHFT : Z := 0x3.
Definition MAX_BUFF_NUM : Z := 64.
Definition MAX_PR_BUFF_NUM : Z := 64.
Definition MAX_N_MAP_PAGES : Z := 128.
Definition MAX_N_MAP_HUGE_PAGES : Z := 16 * 512.
Definition PR_CTRL_START_MIDDLE : Z := 0x1.
Definition PR_CTRL_START_LAST : Z := 0x7.
Definition PR_BATCH_SIZE : Z := 2 * 1024 * 1024.
Definition USER_HASH_TABLE_ORDER : Z := 8.
Definition FPGA_CTRL_USER_OFFS : Z := 0x20000.
Definition FPGA_CTRL_USER_SIZE : Z := 256 * 1024 / 4.
Definition FPGA_CTRL_CNFG_OFFS : Z := 0x30000.
Definition FPGA_CTRL_CNFG_SIZE : Z := 256 * 1024 / 4.
Definition FPGA_CTRL_CNFG_AVX_SIZE : Z := 256 * 1024.
Definition WB_SIZE : Z := 4 * 64 * 4.
Definition MMAP_CTRL : Z := 0x0.
Definition MMAP_CNFG : Z := 0x1.
Definition MMAP_CNFG_AVX : Z := 0x2.
Definition MMAP_WB : Z := 0x3.
Definition MMAP_BUFF : Z := 0x200.
Definition MMAP_PR : Z := 0x400.
Definition EINVAL : Z := 22.
Definition EIO : Z := 5.

(** ** TLB entries *)

Definition tlb_key (o : tlb_order) (vaddr : Z) : Z := Z.land (Z.shiftr vaddr (page_shift o)) (key_mask o).
Definition tlb_tag (o : tlb_order) (vaddr : Z) : Z := Z.shiftr vaddr (page_shift o + key_size o).

(** The two words of an entry. *)
Definition tlb_create_map (o : tlb_order) (vaddr paddr_host paddr_card cpid : Z) (entry : Z * Z) : Z * Z :=
  let phost := Z.land (Z.shiftr paddr_host (page_shift o)) (phy_mask o) in
  let pcard := Z.land (Z.shiftr paddr_card (page_shift o)) (phy_mask o) in
  (Z.lor (fst entry) (Z.lor (tlb_key o vaddr) (Z.lor (u64 (Z.shiftl (tlb_tag o vaddr) (key_size o)))
     (Z.lor (u64 (Z.shiftl (u64 cpid) (key_size o + tag_size o))) (u64 (Z.shiftl 1 (key_size o + tag_size o + PID_SIZE)))))),
   Z.lor (snd entry) (Z.lor phost (u64 (Z.shiftl pcard (phy_size o))))).

Definition tlb_create_unmap (o : tlb_order) (vaddr cpid : Z) (entry : Z * Z) : Z * Z :=
  (Z.lor (fst entry) (Z.lor (tlb_key o vaddr) (Z.lor (u64 (Z.shiftl (tlb_tag o vaddr) (key_size o)))
     (Z.lor (u64 (Z.shiftl (u64 cpid) (key_size o + tag_size o))) (u64 (Z.shiftl 0 (key_size o + tag_size o + PID_SIZE)))))),
   Z.lor (snd entry) 0).

(** ** State *)

Record user_pages : Type := mk_user_pages {
  up_vaddr : Z; up_huge : bool; up_cpid : Z; up_n_hpages : Z; up_n_pages : Z; up_hpages : list Z; up_cpages : list Z }.

Record pr_pages : Type := mk_pr_pages { pr_reg_id : Z; pr_vaddr : Z; pr_n_pages : Z; pr_list : list Z }.

(** What the kernel and the device see: a page allocated, freed, marked dirty, unpinned;
    two words written to one of the TLBs; a map array given to the DMA engine of the
    TLBs; a transfer of a bitstream; physical memory mapped to a user; the vFPGA decoupled from
    the shell or coupled again; its engine restarted. *)
Inductive event : Type :=
| EAlloc (page : Z) | EFree (page : Z) | EDirty (page : Z) | EPut (page : Z)
| ETlb (huge : bool) (entry : Z * Z)
| EDma (entries : list (Z * Z)) (len ctrl : Z)
| EPr (addr len ctrl : Z)
| ERemap (vaddr pfn size : Z)
| EDatapath (couple : bool)
| ERestart.

(** [mm_allocs] and [mm_avail] are the outcomes of the calls of [kzalloc] and of
    [alloc_pages] to come; after them [kzalloc] succeeds and [alloc_pages] fails. *)
Record mmu : Type := mk_mmu {
  mm_card : card; mm_tlb_lock : bool; mm_small : list (nat * user_pages); mm_large : list (nat * user_pages); mm_curr : user_pages;
  mm_pr_lock : bool; mm_prc_lock : bool; mm_pr_map : list (nat * pr_pages); mm_pr_curr : pr_pages;
  mm_next : nat; mm_allocs : list bool; mm_avail : list (option Z); mm_trace : list event }.

Definition set_mm_card (c : card) (s : mmu) : mmu :=
  mk_mmu c (mm_tlb_lock s) (mm_small s) (mm_large s) (mm_curr s) (mm_pr_lock s) (mm_prc_lock s) (mm_pr_map s) (mm_pr_curr s) (mm_next s) (mm_allocs s) (mm_avail s) (mm_trace s).
Definition set_mm_tlb_lock (b : bool) (s : mmu) : mmu :=
  mk_mmu (mm_card s) b (mm_small s) (mm_large s) (mm_curr s) (mm_pr_lock s) (mm_prc_lock s) (mm_pr_map s) (mm_pr_curr s) (mm_next s) (mm_allocs s) (mm_avail s) (mm_trace s).
Definition set_mm_small (l : list (nat * user_pages)) (s : mmu) : mmu :=
  mk_mmu (mm_card s) (mm_tlb_lock s) l (mm_large s) (mm_curr s) (mm_pr_lock s) (mm_prc_lock s) (mm_pr_map s) (mm_pr_curr s) (mm_next s) (mm_allocs s) (mm_avail s) (mm_trace s).
Definition set_mm_large (l : list (nat * user_pages)) (s : mmu) : mmu :=
  mk_mmu (mm_card s) (mm_tlb_lock s) (mm_small s) l (mm_curr s) (mm_pr_lock s) (mm_prc_lock s) (mm_pr_map s) (mm_pr_curr s) (mm_next s) (mm_allocs s) (mm_avail s) (mm_trace s).
Definition set_mm_curr (u : user_pages) (s : mmu) : mmu :=
  mk_mmu (mm_card s) (mm_tlb_lock s) (mm_small s) (mm_large s) u (mm_pr_lock s) (mm_prc_lock s) (mm_pr_map s) (mm_pr_curr s) (mm_next s) (mm_allocs s) (mm_avail s) (mm_trace s).
Definition set_mm_pr (lock prc : bool) (map : list (nat * pr_pages)) (curr : pr_pages) (s : mmu) : mmu :=
  mk_mmu (mm_card s) (mm_tlb_lock s) (mm_small s) (mm_large s) (mm_curr s) lock prc map curr (mm_next s) (mm_allocs s) (mm_avail s) (mm_trace s).
Definition set_mm_env (n : nat) (allocs : list bool) (avail : list (option Z)) (s : mmu) : mmu :=
  mk_mmu (mm_card s) (mm_tlb_lock s) (mm_small s) (mm_large s) (mm_curr s) (mm_pr_lock s) (mm_prc_lock s) (mm_pr_map s) (mm_pr_curr s) n allocs avail (mm_trace s).
Definition emit (e : event) (s : mmu) : mmu :=
  mk_mmu (mm_card s) (mm_tlb_lock s) (mm_small s) (mm_large s) (mm_curr s) (mm_pr_lock s) (mm_prc_lock s) (mm_pr_map s) (mm_pr_curr s) (mm_next s) (mm_allocs s) (mm_avail s) (mm_trace s ++ [e]).

Definition happens (e : event) : M mmu unit := modify (emit e).
Definition on_card {A} (m : M card A) : M mmu A := fun s => let '(r, c) := m (mm_card s) in (r, set_mm_card c s).

(** An element of an array. *)
Definition elem {A} (l : list A) (i : nat) : M mmu A :=
  match l !! i with Some x => mret x | None => undef "index out of range" end.

(** [n] elements of [size] bytes; a negative number is far too many. *)
Definition kzalloc (n : Z) : M mmu bool :=
  fun s => match mm_allocs s with
           | b :: l => (Ret (b && (0 <=? n)), set_mm_env (mm_next s) l (mm_avail s) s)
           | [] => (Ret (0 <=? n), s)
           end.

Definition alloc_pages : M mmu (option Z) :=
  fun s => match mm_avail s with
           | p :: l => (Ret p, set_mm_env (mm_next s) (mm_allocs s) l s)
           | [] => (Ret None, s)
           end.

(** The address of a new entry of a table. *)
Definition new_entry : M mmu nat := fun s => (Ret (mm_next s), set_mm_env (S (mm_next s)) (mm_allocs s) (mm_avail s) s).

Definition i32 (x : Z) : Z := sext 32 x.
Definition no_pages : user_pages := mk_user_pages 0 false 0 0 0 [] [].
Definition no_pr : pr_pages := mk_pr_pages 0 0 0 [].

(** ** One vFPGA

    [cfg], [lo] and [so] are what [read_static_config] found, [reg_id] is the number of
    the vFPGA.  [ends] says whether the kernel's loop over a bucket ends at an entry its
    body has removed, [hash] is the bucket of a key.  [task], [vma] and [pin] are the
    kernel's answers on the user: whether the process exists, whether a memory area is
    made of huge pages (or there is none), the pages pinned and their number or an error;
    [remap_fails] is the answer of [remap_pfn_range]. *)
Section device.
Context (cfg : bus_cnfg) (lo so : tlb_order) (reg_id : Z) (ends : bool) (hash : Z -> Z).
Context (task : Z -> bool) (vma : Z -> option bool) (pin : Z -> Z -> Z * list Z) (remap_fails : Z -> Z -> Z -> bool).

Definition en_mem : bool := bool_decide (bus_en_mem cfg <> 0).

(** The control word: the identifier is tested, not masked. *)
Definition tlbf_ctrl (huge : bool) : Z :=
  let id := if huge then reg_id else bus_n_fpga_reg cfg + reg_id in
  Z.lor TLBF_CTRL_START (Z.shiftl (Z.b2z (bool_decide (id <> 0) && bool_decide (TLBF_CTRL_ID_MASK <> 0))) TLBF_CTRL_ID_SHFT).

(** The polling loop ends: the device completes the transfer. *)
Definition tlb_service_dev (o : tlb_order) (map_array : list (Z * Z)) (n_pages : Z) : M mmu unit :=
  if bool_decide (bus_en_tlbf cfg <> 0) && (MAX_MAP_AXIL_PAGES <? n_pages) then
    held ← gets mm_tlb_lock;
    (if held : bool then spin else modify (set_mm_tlb_lock true)) ;;
    happens (EDma map_array (n_pages * 2 * 8) (tlbf_ctrl (to_hugepage o))) ;;
    modify (set_mm_tlb_lock false)
  else
    for_each (fun i => e ← elem map_array i; happens (ETlb (to_hugepage o) e)) (seq 0 (Z.to_nat n_pages)).

(** The entries for pages from [vaddr] on, [step] bytes apart; the array is zero. *)
Fixpoint fill_map (o : tlb_order) (step cpid : Z) (hosts : list Z) (cpages : list Z) (i n : nat) (vaddr : Z) : M mmu (list (Z * Z)) :=
  match n with
  | 0%nat => mret []
  | S n =>
      h ← elem hosts i;
      c ← (if en_mem then elem cpages i else mret 0);
      l ← fill_map o step cpid hosts cpages (S i) n (u64 (vaddr + step));
      mret (tlb_create_map o vaddr h c cpid (0, 0) :: l)
  end.

Fixpoint fill_unmap (o : tlb_order) (step cpid : Z) (n : nat) (vaddr : Z) : list (Z * Z) :=
  match n with
  | 0%nat => []
  | S n => tlb_create_unmap o vaddr cpid (0, 0) :: fill_unmap o step cpid n (u64 (vaddr + step))
  end.

(** An event for each of the first [n] pages. *)
Definition each_page (ev : Z -> event) (pages : list Z) (n : Z) : M mmu unit :=
  for_each (fun i => p ← elem pages i; happens (ev p)) (seq 0 (Z.to_nat n)).

(** [card_free] of the first [n] addresses. *)
Definition free_card (large : bool) (cpages : list Z) (n : Z) : M mmu unit :=
  if Z.of_nat (length cpages) <? n then undef "index out of range" else on_card (card_free large (take (Z.to_nat n) cpages)).

(** ** Loops over the tables *)

(** The body returns a value of the function or whether it removed the entry. *)
Fixpoint visit {S A} (body : nat * A -> M S (Z + bool)) (l : list (nat * A)) : M S (option Z) :=
  match l with
  | [] => mret None
  | e :: l =>
      r ← body e;
      match r with
      | inl v => mret (Some v)
      | inr removed => if removed && ends then mret None else visit body l
      end
  end.

Definition bucket {A} (key : A -> Z) (b : Z) (l : list (nat * A)) : list (nat * A) := filter (fun e => hash (key (snd e)) = b) l.

(** [hash_for_each_possible] and [hash_for_each]. *)
Definition for_possible (body : nat * user_pages -> M mmu (Z + bool)) (table : mmu -> list (nat * user_pages)) (k : Z) : M mmu (option Z) :=
  l ← gets table; visit body (bucket up_vaddr (hash k) l).

Fixpoint for_buckets (body : nat * user_pages -> M mmu (Z + bool)) (table : mmu -> list (nat * user_pages)) (bs : list nat) : M mmu (option Z) :=
  match bs with
  | [] => mret None
  | b :: bs =>
      l ← gets table;
      r ← visit body (bucket up_vaddr (Z.of_nat b) l);
      match r with Some v => mret (Some v) | None => for_buckets body table bs end
  end.

Definition for_all (body : nat * user_pages -> M mmu (Z + bool)) (table : mmu -> list (nat * user_pages)) : M mmu (option Z) :=
  for_buckets body table (seq 0 (Z.to_nat (2 ^ USER_HASH_TABLE_ORDER))).

Definition del_entry {A} (i : nat) (l : list (nat * A)) : list (nat * A) := filter (fun e => fst e <> i) l.
Definition hash_del_small (i : nat) : M mmu unit := modify (fun s => set_mm_small (del_entry i (mm_small s)) s).
Definition hash_del_large (i : nat) : M mmu unit := modify (fun s => set_mm_large (del_entry i (mm_large s)) s).

Definition returns (m : M mmu (option Z)) : M mmu Z := r ← m; mret (default 0 r).

(** ** User pages *)

(** What the three functions do with an entry: [vaddr] and [cpid] are what they unmap. *)
Definition put_entry (dirtied : bool) (vaddr cpid : Z) (e : nat * user_pages) : M mmu (Z + bool) :=
  let u := snd e in
  when dirtied (each_page EDirty (up_hpages u) (up_n_hpages u)) ;;
  each_page EPut (up_hpages u) (up_n_hpages u) ;;
  when en_mem (free_card (up_huge u) (up_cpages u) (up_n_pages u)) ;;
  ok ← kzalloc (up_n_pages u);
  if negb ok then mret (inl (- ENOMEM))
  else
    (if up_huge u
     then tlb_service_dev lo (fill_unmap lo (page_size lo) cpid (Z.to_nat (up_n_pages u)) vaddr) (u32 (up_n_pages u))
     else tlb_service_dev so (fill_unmap so PAGE_SIZE cpid (Z.to_nat (up_n_pages u)) vaddr) (u32 (up_n_pages u))) ;;
    hash_del_small (fst e) ;;
    mret (inr true).

Definition tlb_put_user_pages_all (dirtied : bool) : M mmu Z :=
  returns (for_all (fun e => put_entry dirtied (up_vaddr (snd e)) (up_cpid (snd e)) e) mm_small).

Definition tlb_put_user_pages_cpid (cpid : Z) (dirtied : bool) : M mmu Z :=
  returns (for_all (fun e => if up_cpid (snd e) =? cpid then put_entry dirtied (up_vaddr (snd e)) cpid e else mret (inr false)) mm_small).

Definition tlb_put_user_pages (vaddr cpid : Z) (dirtied : bool) : M mmu Z :=
  returns (for_possible (fun e => if (up_vaddr (snd e) =? vaddr) && (up_cpid (snd e) =? cpid) then put_entry dirtied vaddr cpid e else mret (inr false)) mm_small vaddr).

(** The number of pages of [2 ^ shift] bytes that hold the [count] bytes from [start]. *)
Definition pages_of (start count mask shift : Z) : Z :=
  let first := Z.shiftr (Z.land start mask) shift in
  let last := Z.shiftr (Z.land (u64 (start + count - 1)) mask) shift in
  i32 (last - first + 1).

(** The addresses of the huge pages that hold the first [n] pages. *)
Fixpoint huge_starts (pages : list Z) (i n : nat) (curr last : Z) : M mmu (list Z) :=
  match n with
  | 0%nat => mret []
  | S n =>
      if Z.shiftr (Z.land curr (page_mask lo)) (page_shift lo) =? Z.shiftr (Z.land last (page_mask lo)) (page_shift lo)
      then huge_starts pages (S i) n (u64 (curr + PAGE_SIZE)) last
      else
        p ← elem pages i;
        l ← huge_starts pages (S i) n (u64 (curr + PAGE_SIZE)) curr;
        mret (Z.land p (page_mask lo) :: l)
  end.

(** Card pages for a mapping, its TLB entries, and the entry of the table; [hosts] are
    the addresses of its [n] pages.  The identifier of the process stays zero. *)
Definition map_pages (huge : bool) (start cpid : Z) (hosts pages : list Z) (n n_pages : Z) : M mmu Z :=
  let o := if huge then lo else so in
  let step := if huge then page_size lo else PAGE_SIZE in
  card ← (if en_mem then
            ok ← kzalloc n;
            if negb ok then mret (inl (- ENOMEM))
            else
              r ← on_card (card_alloc huge (u64 n));
              if bool_decide (fst r <> 0) then each_page EPut pages n_pages ;; mret (inl (- ENOMEM))
              else mret (inr (snd r))
          else mret (inr []));
  match card with
  | inl e => mret e
  | inr cpages =>
      ok ← kzalloc n;
      if negb ok then mret (- ENOMEM)
      else
        map_array ← fill_map o step cpid hosts cpages 0 (Z.to_nat n) start;
        tlb_service_dev o map_array (u32 n) ;;
        i ← new_entry;
        modify (fun s => set_mm_small ((i, mk_user_pages start huge 0 n_pages (u64 n) pages cpages) :: mm_small s) s) ;;
        mret n_pages
  end.

Definition tlb_get_user_pages (start count cpid pid : Z) : M mmu Z :=
  if negb (task pid) then undef "null task"
  else match vma start with
  | None => undef "null memory area"
  | Some hugepages =>
      let n_pages := Z.min (pages_of start count PAGE_MASK PAGE_SHIFT) (if hugepages : bool then MAX_N_MAP_HUGE_PAGES else MAX_N_MAP_PAGES) in
      if u64 (start + count) <? start then mret (- EINVAL)
      else if count =? 0 then mret 0
      else
        entry ← kzalloc 1;
        (if entry : bool then skip else throw "BUG") ;;
        ok ← kzalloc n_pages;
        if negb ok then mret (- 1)
        else
          let '(got, pages) := pin start n_pages in
          if got <? n_pages then each_page EPut pages got ;; mret (- ENOMEM)
          else if hugepages then
            let n_huge := pages_of start count (page_mask lo) (page_shift lo) in
            ok ← kzalloc n_huge;
            if negb ok then mret (- ENOMEM)
            else
              starts ← huge_starts pages 0 (Z.to_nat n_pages) start (2 ^ 64 - 1);
              if n_huge <? Z.of_nat (length starts) then undef "index out of range"
              else map_pages true start cpid (starts ++ replicate (Z.to_nat n_huge - length starts) 0) pages n_huge n_pages
          else map_pages false start cpid pages pages n_pages n_pages
  end.

(** ** Buffers of users without huge pages *)

Definition set_hpages (n : Z) (u : user_pages) : user_pages :=
  mk_user_pages (up_vaddr u) (up_huge u) (up_cpid u) n (up_n_pages u) (up_hpages u) (up_cpages u).
Definition change_curr (f : user_pages -> user_pages) : M mmu unit := modify (fun s => set_mm_curr (f (mm_curr s)) s).

(** [n] pages, or those that were there before one was missing. *)
Fixpoint alloc_loop (n : nat) : M mmu (bool * list Z) :=
  match n with
  | 0%nat => mret (true, [])
  | S n =>
      p ← alloc_pages;
      match p with
      | None => mret (false, [])
      | Some p => happens (EAlloc p) ;; r ← alloc_loop n; mret (fst r, p :: snd r)
      end
  end.

Definition free_pages (l : list Z) : M mmu unit := for_each (fun p => happens (EFree p)) l.

Definition alloc_user_buffers (n_pages cpid : Z) : M mmu Z :=
  curr ← gets mm_curr;
  if bool_decide (up_n_hpages curr <> 0) then mret (- 1)
  else
    let n := if MAX_BUFF_NUM <? n_pages then MAX_BUFF_NUM else n_pages in
    change_curr (set_hpages n) ;;
    free ← gets (fun s => num_free (card_large (mm_card s)));
    if en_mem && (u64 free <? n) then mret (- ENOMEM)
    else
      change_curr (fun u => mk_user_pages (up_vaddr u) true cpid n (up_n_pages u) (up_hpages u) (up_cpages u)) ;;
      ok ← kzalloc n;
      if negb ok then
        change_curr (fun u => mk_user_pages (up_vaddr u) true cpid n (up_n_pages u) [] (up_cpages u)) ;; mret (- ENOMEM)
      else
        r ← alloc_loop (Z.to_nat n);
        change_curr (fun u => mk_user_pages (up_vaddr u) true cpid n (up_n_pages u) (snd r) (up_cpages u)) ;;
        if negb (fst r) then
          free_pages (reverse (snd r)) ;; change_curr (set_hpages 0) ;; mret (- ENOMEM)
        else if en_mem then
          change_curr (fun u => mk_user_pages (up_vaddr u) true cpid n n (up_hpages u) []) ;;
          ok ← kzalloc n;
          if negb ok then mret (- ENOMEM)
          else
            c ← on_card (card_alloc true n);
            if bool_decide (fst c <> 0) then
              free_pages (snd r) ;;
              change_curr (fun u => mk_user_pages (up_vaddr u) true cpid 0 0 (up_hpages u) (up_cpages u)) ;; mret (- ENOMEM)
            else
              change_curr (fun u => mk_user_pages (up_vaddr u) true cpid n n (up_hpages u) (snd c)) ;; mret 0
        else mret 0.

Definition free_entry (cpid : Z) (e : nat * user_pages) : M mmu (Z + bool) :=
  let u := snd e in
  each_page EFree (up_hpages u) (up_n_hpages u) ;;
  when en_mem (free_card true (up_cpages u) (up_n_pages u)) ;;
  ok ← kzalloc (up_n_hpages u);
  if negb ok then mret (inl (- ENOMEM))
  else
    tlb_service_dev lo (fill_unmap lo (page_size lo) cpid (Z.to_nat (up_n_hpages u)) (up_vaddr u)) (u32 (up_n_hpages u)) ;;
    hash_del_large (fst e) ;;
    mret (inr true).

Definition free_user_buffers (vaddr cpid : Z) : M mmu Z :=
  returns (for_possible (fun e => if (up_vaddr (snd e) =? vaddr) && (up_cpid (snd e) =? cpid) then free_entry cpid e else mret (inr false)) mm_large vaddr).

(** ** Buffers of bitstreams *)

Definition pr_spin_lock : M mmu unit :=
  held ← gets mm_pr_lock;
  if held : bool then spin else modify (fun s => set_mm_pr true (mm_prc_lock s) (mm_pr_map s) (mm_pr_curr s) s).
Definition pr_spin_unlock : M mmu unit := modify (fun s => set_mm_pr false (mm_prc_lock s) (mm_pr_map s) (mm_pr_curr s) s).
Definition change_pr (f : pr_pages -> pr_pages) : M mmu unit := modify (fun s => set_mm_pr (mm_pr_lock s) (mm_prc_lock s) (mm_pr_map s) (f (mm_pr_curr s)) s).
Definition change_pr_map (f : list (nat * pr_pages) -> list (nat * pr_pages)) : M mmu unit :=
  modify (fun s => set_mm_pr (mm_pr_lock s) (mm_prc_lock s) (f (mm_pr_map s)) (mm_pr_curr s) s).

Definition alloc_pr_buffers (n_pages : Z) : M mmu Z :=
  pr_spin_lock ;;
  curr ← gets mm_pr_curr;
  if bool_decide (pr_n_pages curr <> 0) then mret (- 1)
  else
    let n := if MAX_PR_BUFF_NUM <? n_pages then MAX_PR_BUFF_NUM else n_pages in
    ok ← kzalloc n_pages;
    change_pr (fun p => mk_pr_pages (pr_reg_id p) (pr_vaddr p) n []) ;;
    if negb ok then mret (- ENOMEM)
    else
      r ← alloc_loop (Z.to_nat n);
      change_pr (fun p => mk_pr_pages (pr_reg_id p) (pr_vaddr p) n (snd r)) ;;
      if negb (fst r) then free_pages (reverse (snd r)) ;; pr_spin_unlock ;; mret (- ENOMEM)
      else pr_spin_unlock ;; mret 0.

Definition pr_for_possible (body : nat * pr_pages -> M mmu (Z + bool)) (vaddr : Z) : M mmu (option Z) :=
  l ← gets mm_pr_map; visit body (bucket pr_vaddr (hash vaddr) l).

Definition is_pr (vaddr : Z) (e : nat * pr_pages) : bool := (pr_vaddr (snd e) =? vaddr) && (pr_reg_id (snd e) =? reg_id).

Definition free_pr_buffers (vaddr : Z) : M mmu Z :=
  pr_spin_lock ;;
  pr_for_possible (fun e =>
    if is_pr vaddr e then
      each_page EFree (pr_list (snd e)) (pr_n_pages (snd e)) ;;
      change_pr_map (del_entry (fst e)) ;;
      mret (inr true)
    else mret (inr false)) vaddr ;;
  pr_spin_unlock ;;
  mret 0.

(** The bitstream in batches of a page; the device reports that it is done. *)
Definition reconfigure (vaddr len : Z) : M mmu Z :=
  held ← gets mm_prc_lock;
  (if held : bool then spin else modify (fun s => set_mm_pr (mm_pr_lock s) true (mm_pr_map s) (mm_pr_curr s) s)) ;;
  pr_for_possible (fun e =>
    if is_pr vaddr e then
      let fsz_m := len / PR_BATCH_SIZE in
      let fsz_r := len mod PR_BATCH_SIZE in
      for_each (fun i => p ← elem (pr_list (snd e)) i;
        happens (EPr p PR_BATCH_SIZE (if (fsz_r =? 0) && (Z.of_nat i =? fsz_m - 1) then PR_CTRL_START_LAST else PR_CTRL_START_MIDDLE)))
        (seq 0 (Z.to_nat fsz_m)) ;;
      when (0 <? fsz_r) (p ← elem (pr_list (snd e)) (Z.to_nat fsz_m); happens (EPr p fsz_r PR_CTRL_START_LAST)) ;;
      mret (inr false)
    else mret (inr false)) vaddr ;;
  modify (fun s => set_mm_pr (mm_pr_lock s) false (mm_pr_map s) (mm_pr_curr s) s) ;;
  mret 0.

(** ** Mapping into user space *)

Definition remap (vaddr phys size : Z) : M mmu bool :=
  let pfn := Z.shiftr phys PAGE_SHIFT in
  if remap_fails vaddr pfn size then mret false else happens (ERemap vaddr pfn size) ;; mret true.

Definition remap_region (vaddr phys size : Z) : M mmu Z :=
  ok ← remap vaddr phys size; mret (if ok : bool then 0 else - EIO).

Fixpoint remap_pages (pages : list Z) (i n : nat) (vaddr : Z) : M mmu bool :=
  match n with
  | 0%nat => mret true
  | S n =>
      p ← elem pages i;
      ok ← remap vaddr p (page_size lo);
      if ok : bool then remap_pages pages (S i) n (u64 (vaddr + page_size lo)) else mret false
  end.

(** The first huge page boundary from [vm_start] on. *)
Definition align_up (vm_start : Z) : Z :=
  u64 (Z.shiftl (Z.shiftr (u64 (vm_start + page_size lo - 1)) (page_shift lo)) (page_shift lo)).

Definition mmap_buff (vm_start : Z) : M mmu Z :=
  let vaddr := align_up vm_start in
  curr ← gets mm_curr;
  entry ← kzalloc 1;
  (if entry : bool then skip else throw "BUG") ;;
  i ← new_entry;
  modify (fun s => set_mm_large ((i, mk_user_pages vaddr (up_huge curr) (up_cpid curr) (up_n_hpages curr) (up_n_pages curr) (up_hpages curr) (up_cpages curr)) :: mm_large s) s) ;;
  ok ← remap_pages (up_hpages curr) 0 (Z.to_nat (up_n_hpages curr)) vaddr;
  if negb ok then mret (- EIO)
  else
    ok ← kzalloc (up_n_hpages curr);
    if negb ok then mret (- ENOMEM)
    else
      map_array ← fill_map lo (page_size lo) (up_cpid curr) (up_hpages curr) (up_cpages curr) 0 (Z.to_nat (up_n_hpages curr)) vaddr;
      tlb_service_dev lo map_array (u32 (up_n_hpages curr)) ;;
      change_curr (set_hpages 0) ;;
      mret 0.

Definition mmap_pr (vm_start : Z) : M mmu Z :=
  let vaddr := align_up vm_start in
  pr_spin_lock ;;
  curr ← gets mm_pr_curr;
  entry ← kzalloc 1;
  (if entry : bool then skip else throw "BUG") ;;
  i ← new_entry;
  change_pr_map (fun l => (i, mk_pr_pages reg_id vaddr (pr_n_pages curr) (pr_list curr)) :: l) ;;
  ok ← remap_pages (pr_list curr) 0 (Z.to_nat (pr_n_pages curr)) vaddr;
  if negb ok then mret (- EIO)
  else
    change_pr (fun p => mk_pr_pages (pr_reg_id p) (pr_vaddr p) 0 (pr_list p)) ;;
    pr_spin_unlock ;;
    mret 0.

(** [ctrl], [avx] and [wb] are the physical addresses of the device's regions. *)
Definition fpga_mmap (ctrl avx wb vm_start vm_pgoff : Z) : M mmu Z :=
  if vm_pgoff =? MMAP_CTRL then remap_region vm_start (u64 (ctrl + FPGA_CTRL_USER_OFFS)) FPGA_CTRL_USER_SIZE
  else if vm_pgoff =? MMAP_CNFG then remap_region vm_start (u64 (ctrl + FPGA_CTRL_CNFG_OFFS)) FPGA_CTRL_CNFG_SIZE
  else if vm_pgoff =? MMAP_CNFG_AVX then remap_region vm_start avx FPGA_CTRL_CNFG_AVX_SIZE
  else if vm_pgoff =? MMAP_WB then remap_region vm_start wb WB_SIZE
  else
    n ← gets (fun s => up_n_hpages (mm_curr s));
    n_pr ← gets (fun s => pr_n_pages (mm_pr_curr s));
    if (vm_pgoff =? MMAP_BUFF) && bool_decide (n <> 0) then mmap_buff vm_start
    else if (vm_pgoff =? MMAP_PR) && bool_decide (n_pr <> 0) then mmap_pr vm_start
    else mret (- EINVAL).

End device.
