(* ===== verification/DrvTlbFacts.v ===== *)
(** The entries of the TLBs the driver makes, read back. *)
From stdpp Require Import base numbers list strings.
From Stdlib Require Import ZArith Lia.
From S2P Require Import Prelude Driver DrvMmu.

Local Open Scope Z_scope.

(** An order whose sizes and masks agree; the mask of physical pages is an [int]. *)
Record order_wf (o : tlb_order) : Prop := mk_order_wf {
  ow_shift : 0 <= page_shift o; ow_key : 0 <= key_size o; ow_tag : 0 <= tag_size o; ow_phy : 0 <= phy_size o < 31;
  ow_sizes : page_shift o + key_size o + tag_size o = TLB_VADDR_RANGE; ow_pages : page_shift o + phy_size o = TLB_PADDR_RANGE;
  ow_key_mask : key_mask o = Z.ones (key_size o); ow_phy_mask : phy_mask o = Z.ones (phy_size o) }.

Lemma tlb_order_wf huge key shift : 0 <= key -> 9 < shift <= TLB_PADDR_RANGE -> shift + key <= TLB_VADDR_RANGE -> order_wf (tlb_order_of huge key shift).
Proof.
  unfold TLB_VADDR_RANGE, TLB_PADDR_RANGE. intros. constructor; cbn [tlb_order_of page_shift key_size tag_size phy_size key_mask phy_mask]; unfold TLB_VADDR_RANGE, TLB_PADDR_RANGE; try lia.
  - rewrite Z.shiftl_1_l, Z.ones_equiv. lia.
  - rewrite Z.shiftl_1_l, Z.ones_equiv. lia.
Qed.

(** Fields of an entry: the number of the virtual page, the process, whether it is valid,
    the numbers of the host and of the card page. *)
Definition entry_page (o : tlb_order) (e : Z * Z) : Z := bits (fst e) 0 (TLB_VADDR_RANGE - page_shift o).
Definition entry_cpid (o : tlb_order) (e : Z * Z) : Z := bits (fst e) (TLB_VADDR_RANGE - page_shift o) PID_SIZE.
Definition entry_valid (o : tlb_order) (e : Z * Z) : bool := Z.testbit (fst e) (TLB_VADDR_RANGE - page_shift o + PID_SIZE).
Definition entry_host (o : tlb_order) (e : Z * Z) : Z := bits (snd e) 0 (phy_size o).
Definition entry_card (o : tlb_order) (e : Z * Z) : Z := bits (snd e) (phy_size o) (phy_size o).

Lemma lor_split x k : 0 <= k -> Z.lor (Z.land x (Z.ones k)) (Z.shiftl (Z.shiftr x k) k) = x.
Proof.
  intros Hk. apply Z.bits_inj'. intros i Hi. rewrite Z.lor_spec, Z.land_spec, Z.shiftl_spec by lia. destruct (Z.ltb_spec i k).
  - by rewrite Z.ones_spec_low, (Z.testbit_neg_r _ (i - k)), andb_true_r, orb_false_r by lia.
  - rewrite Z.ones_spec_high, Z.shiftr_spec by lia. rewrite andb_false_r. cbn. f_equal. lia.
Qed.

Lemma fits_shiftr n k x : 0 <= k <= n -> fits n x -> fits (n - k) (Z.shiftr x k).
Proof.
  unfold fits. intros Hk Hx. rewrite Z.shiftr_div_pow2 by lia. pose proof (pow2_pos k ltac:(lia)).
  split; [apply Z.div_pos; lia|]. apply Z.div_lt_upper_bound; [done|]. rewrite <- Z.pow_add_r by lia. replace (k + (n - k)) with n by lia. lia.
Qed.

(** The first word of an entry. *)
Lemma entry_word o vaddr cpid v :
  order_wf o -> fits TLB_VADDR_RANGE vaddr -> fits PID_SIZE cpid -> fits 1 v ->
  Z.lor (tlb_key o vaddr) (Z.lor (u64 (Z.shiftl (tlb_tag o vaddr) (key_size o)))
    (Z.lor (u64 (Z.shiftl (u64 cpid) (key_size o + tag_size o))) (u64 (Z.shiftl v (key_size o + tag_size o + PID_SIZE))))) =
  Z.lor (Z.shiftr vaddr (page_shift o)) (Z.lor (Z.shiftl cpid (TLB_VADDR_RANGE - page_shift o)) (Z.shiftl v (TLB_VADDR_RANGE - page_shift o + PID_SIZE))).
Proof.
  intros [H1 H2 H3 H4 H5 H6 H7 H8] Hv Hc Hb. replace (key_size o + tag_size o) with (TLB_VADDR_RANGE - page_shift o) by lia.
  unfold tlb_key, tlb_tag, TLB_VADDR_RANGE, PID_SIZE in *. rewrite H7.
  rewrite (wrap_small 64 cpid) by (by apply (fits_weaken 6); [lia|]).
  rewrite (wrap_small 64 (Z.shiftl cpid _)) by (apply (fits_shiftl 6); [lia..|done]).
  rewrite (wrap_small 64 (Z.shiftl v _)) by (apply (fits_shiftl 1); [lia..|done]).
  rewrite <- Z.shiftr_shiftr by lia.
  rewrite (wrap_small 64 (Z.shiftl (Z.shiftr (Z.shiftr vaddr _) _) _)).
  - rewrite Z.lor_assoc. by rewrite lor_split.
  - apply (fits_shiftl (48 - page_shift o - key_size o)); [lia..|]. apply fits_shiftr; [lia|]. by apply fits_shiftr; [lia|].
Qed.

Lemma entry_fields o x cpid v w :
  order_wf o -> fits (TLB_VADDR_RANGE - page_shift o) x -> fits PID_SIZE cpid ->
  let e := (Z.lor x (Z.lor (Z.shiftl cpid (TLB_VADDR_RANGE - page_shift o)) (Z.shiftl (Z.b2z v) (TLB_VADDR_RANGE - page_shift o + PID_SIZE))), w) in
  entry_page o e = x /\ entry_cpid o e = cpid /\ entry_valid o e = v.
Proof.
  intros [H1 H2 H3 H4 H5 H6 H7 H8] Hx Hc. cbv zeta. unfold entry_page, entry_cpid, entry_valid, PID_SIZE, TLB_VADDR_RANGE in *. cbn [fst].
  split_and!.
  - rewrite !bits_lor, !bits_shiftl_high by lia. rewrite !Z.lor_0_r, bits_wrap, Z.shiftr_0_r by lia. by apply wrap_small.
  - rewrite <- (Z.shiftl_0_r x). rewrite !bits_lor, bits_shiftl_eq by lia.
    rewrite (bits_shiftl_high (Z.b2z v)) by lia. rewrite (bits_shiftl_low (48 - page_shift o)) by (done || lia).
    rewrite Z.lor_0_l, Z.lor_0_r. by apply wrap_small.
  - rewrite !Z.lor_spec, !Z.shiftl_spec by lia. rewrite (fits_testbit (48 - page_shift o)), (fits_testbit 6 cpid) by (done || lia).
    cbn [orb]. replace (48 - page_shift o + 6 - (48 - page_shift o + 6)) with 0 by lia. apply Z.b2z_bit0.
Qed.

(** The second word of an entry. *)
Lemma second_word o host card :
  order_wf o -> fits (phy_size o) host -> fits (phy_size o) card ->
  let w := Z.lor (Z.land host (phy_mask o)) (u64 (Z.shiftl (Z.land card (phy_mask o)) (phy_size o))) in
  bits w 0 (phy_size o) = host /\ bits w (phy_size o) (phy_size o) = card.
Proof.
  intros [H1 H2 H3 H4 H5 H6 H7 H8] Hh Hc. cbv zeta. rewrite H8, <- !wrap_land by lia. rewrite !(wrap_small (phy_size o)) by done.
  unfold TLB_PADDR_RANGE in *. rewrite wrap_small by (apply (fits_shiftl (phy_size o)); [lia..|done]). split.
  - rewrite bits_lor, bits_shiftl_high, Z.lor_0_r, bits_wrap, Z.shiftr_0_r by lia. by apply wrap_small.
  - rewrite bits_lor, bits_shiftl_eq by lia. rewrite <- (Z.shiftl_0_r host) at 1. rewrite (bits_shiftl_low (phy_size o)) by (done || lia).
    rewrite Z.lor_0_l. by apply wrap_small.
Qed.

(** C12: What the entries of the driver say.  An entry that maps a page names the page, the
    process and the host and card pages, and is valid; one that unmaps it names the same
    page and process, is not valid, and has no other field. *)
Theorem tlb_entry_decoded o vaddr host card cpid :
  order_wf o -> fits TLB_VADDR_RANGE vaddr -> fits TLB_PADDR_RANGE host -> fits TLB_PADDR_RANGE card -> fits PID_SIZE cpid ->
  let m := tlb_create_map o vaddr host card cpid (0, 0) in
  let u := tlb_create_unmap o vaddr cpid (0, 0) in
  entry_page o m = Z.shiftr vaddr (page_shift o) /\ entry_cpid o m = cpid /\ entry_valid o m = true /\
  entry_host o m = Z.shiftr host (page_shift o) /\ entry_card o m = Z.shiftr card (page_shift o) /\
  entry_page o u = entry_page o m /\ entry_cpid o u = cpid /\ entry_valid o u = false /\ snd u = 0.
Proof.
  intros Hw Hv Hh Hk Hc. cbv zeta. unfold tlb_create_map, tlb_create_unmap. cbn [fst snd]. rewrite !Z.lor_0_l.
  rewrite (entry_word o vaddr cpid 1), (entry_word o vaddr cpid 0) by (done || unfold fits; lia).
  pose proof Hw as [H1 H2 H3 H4 H5 H6 H7 H8].
  assert (fits (TLB_VADDR_RANGE - page_shift o) (Z.shiftr vaddr (page_shift o))) as Hx by (apply fits_shiftr; [lia|done]).
  destruct (entry_fields o (Z.shiftr vaddr (page_shift o)) cpid true (Z.lor (Z.land (Z.shiftr host (page_shift o)) (phy_mask o)) (u64 (Z.shiftl (Z.land (Z.shiftr card (page_shift o)) (phy_mask o)) (phy_size o)))) Hw Hx Hc) as (E1 & E2 & E3).
  destruct (entry_fields o (Z.shiftr vaddr (page_shift o)) cpid false 0 Hw Hx Hc) as (U1 & U2 & U3). cbn [Z.b2z] in *.
  assert (forall p, fits TLB_PADDR_RANGE p -> fits (phy_size o) (Z.shiftr p (page_shift o))) as Hp.
  { intros p Hp. replace (phy_size o) with (TLB_PADDR_RANGE - page_shift o) by lia. by apply fits_shiftr; [lia|]. }
  pose proof (Hp host Hh) as Fh. pose proof (Hp card Hk) as Fk. split_and!; try done; try congruence.
  - unfold entry_host. cbn [snd]. by rewrite (proj1 (second_word o _ _ Hw (Hp host Hh) (Hp card Hk))).
  - unfold entry_card. cbn [snd]. by rewrite (proj2 (second_word o _ _ Hw (Hp host Hh) (Hp card Hk))).
Qed.

(** The TLBs of a shell with 64 and 8 sets, a large page of a process and its card page. *)
Lemma tlb_entry_decoded_witness :
  let o := tlb_order_of true 3 21 in
  let m := tlb_create_map o 0x7f0000400000 0x12600000 0x40200000 5 (0, 0) in
  order_wf o /\ entry_valid o m = true /\ entry_page o m = 0x3f80002 /\ entry_cpid o m = 5 /\ entry_host o m = 0x93 /\ entry_card o m = 0x201.
Proof.
  cbv zeta. assert (order_wf (tlb_order_of true 3 21)) as Hw by (apply tlb_order_wf; unfold TLB_PADDR_RANGE, TLB_VADDR_RANGE; lia).
  destruct (tlb_entry_decoded (tlb_order_of true 3 21) 0x7f0000400000 0x12600000 0x40200000 5 Hw) as (E1 & E2 & E3 & E4 & E5 & _);
    [unfold fits, TLB_VADDR_RANGE, TLB_PADDR_RANGE, PID_SIZE; lia ..|].
  split; [exact Hw|]. split; [exact E3|]. split; [rewrite E1; reflexivity|]. split; [exact E2|]. split; [rewrite E4; reflexivity | rewrite E5; reflexivity].
Defined.
