(* ===== verification/DrvMmuFacts.v ===== *)
(** The pages of users: a mapping and its release. *)
From stdpp Require Import base numbers list strings.
From Stdlib Require Import ZArith Lia.
From S2P Require Import Prelude Driver DriverFacts DrvMmu.

Local Open Scope Z_scope.

(** ** Runs *)

Lemma bind_run {S A B} (m : M S A) (k : A -> M S B) s a s' : m s = (Ret a, s') -> (m ≫= k) s = k a s'.
Proof. intros E. unfold mbind, M_bind. by rewrite E. Qed.

(** The events [evs], one after the other. *)
Definition emits (evs : list event) (s : mmu) : mmu := foldl (fun s e => emit e s) s evs.

Lemma emits_app a b s : emits (a ++ b) s = emits b (emits a s).
Proof. apply foldl_app. Qed.

Lemma emits_trace evs s : mm_trace (emits evs s) = mm_trace s ++ evs.
Proof.
  revert s. induction evs as [|e evs IH]; intros s; [by rewrite app_nil_r|]. cbn [emits foldl]. unfold emits in IH. rewrite IH. cbn. by rewrite <- app_assoc.
Qed.

(** Events change the trace only. *)
Lemma emits_fields evs s :
  mm_card (emits evs s) = mm_card s /\ mm_tlb_lock (emits evs s) = mm_tlb_lock s /\ mm_small (emits evs s) = mm_small s /\
  mm_next (emits evs s) = mm_next s /\ mm_allocs (emits evs s) = mm_allocs s.
Proof. revert s. induction evs as [|e evs IH]; intros s; [done|]. exact (IH (emit e s)). Qed.

Lemma elem_run {A} (l : list A) i x s : l !! i = Some x -> elem l i s = (Ret x, s).
Proof. unfold elem. by intros ->. Qed.

Lemma kzalloc_run n s : mm_allocs s = [] -> 0 <= n -> kzalloc n s = (Ret true, s).
Proof. intros E Hn. unfold kzalloc. rewrite E. by rewrite (proj2 (Z.leb_le 0 n)). Qed.

Lemma each_run {A} (ev : A -> event) (l : list A) n : forall i s, (i + n <= length l)%nat ->
  for_each (fun j => x ← elem l j; happens (ev x)) (seq i n) s = (Ret tt, emits (map ev (take n (drop i l))) s).
Proof.
  induction n as [|n IH]; intros i s Hi; [done|]. cbn [seq for_each].
  destruct (lookup_lt_is_Some_2 l i) as [x Hx]; [lia|]. rewrite (drop_S l x i Hx). cbn [take map].
  erewrite (bind_run _ _ s tt (emit (ev x) s)); [|erewrite bind_run by (by apply elem_run); done].
  rewrite IH by lia. done.
Qed.

Lemma each_page_run ev l n s : n = Z.of_nat (length l) -> each_page ev l n s = (Ret tt, emits (map ev l) s).
Proof. intros ->. unfold each_page. rewrite Nat2Z.id, each_run by lia. by rewrite drop_0, firstn_all. Qed.

(** ** The device *)
Section device.
Context (cfg : bus_cnfg) (lo so : tlb_order) (reg_id : Z) (ends : bool) (hash : Z -> Z).

(** What the device sees of the entries [l]. *)
Definition service_events (o : tlb_order) (l : list (Z * Z)) : list event :=
  if bool_decide (bus_en_tlbf cfg <> 0) && (MAX_MAP_AXIL_PAGES <? Z.of_nat (length l))
  then [EDma l (Z.of_nat (length l) * 2 * 8) (tlbf_ctrl cfg reg_id (to_hugepage o))]
  else map (ETlb (to_hugepage o)) l.

Lemma service_run o l n s :
  mm_tlb_lock s = false -> n = Z.of_nat (length l) -> tlb_service_dev cfg reg_id o l n s = (Ret tt, emits (service_events o l) s).
Proof.
  intros Hl ->. unfold tlb_service_dev, service_events. destruct (_ && _).
  - unfold gets. erewrite bind_run by done. rewrite Hl. destruct s. cbn in *. by subst.
  - rewrite Nat2Z.id, each_run by lia. by rewrite drop_0, firstn_all.
Qed.

(** The entries of pages on the host and on the card. *)
Fixpoint map_entries (o : tlb_order) (step cpid : Z) (hosts cards : list Z) (vaddr : Z) : list (Z * Z) :=
  match hosts, cards with
  | h :: hosts, c :: cards => tlb_create_map o vaddr h c cpid (0, 0) :: map_entries o step cpid hosts cards (u64 (vaddr + step))
  | _, _ => []
  end.

(** Without card memory the card pages are zero. *)
Definition card_pages (cpages : list Z) (n : nat) : list Z := if en_mem cfg then cpages else replicate n 0.

Lemma fill_map_run o step cpid hosts cpages n : forall i vaddr s,
  (i + n <= length hosts)%nat -> (en_mem cfg = true -> i + n <= length cpages)%nat ->
  fill_map cfg o step cpid hosts cpages i n vaddr s =
    (Ret (map_entries o step cpid (take n (drop i hosts)) (take n (drop i (card_pages cpages (i + n)))) vaddr), s).
Proof.
  unfold card_pages. induction n as [|n IH]; intros i vaddr s Hh Hc; [done|]. cbn [fill_map].
  destruct (lookup_lt_is_Some_2 hosts i) as [h Eh]; [lia|]. rewrite (drop_S hosts h i Eh). erewrite bind_run by (by apply elem_run).
  specialize (IH (S i) (u64 (vaddr + step)) s ltac:(lia)). rewrite Nat.add_succ_r. rewrite Nat.add_succ_l in IH.
  destruct (en_mem cfg) eqn:Em.
  - specialize (Hc eq_refl). destruct (lookup_lt_is_Some_2 cpages i) as [c Ec]; [lia|]. rewrite (drop_S cpages c i Ec).
    erewrite bind_run by (by apply elem_run). erewrite bind_run by (apply IH; lia). done.
  - erewrite bind_run by done. erewrite bind_run by (by apply IH). rewrite !drop_replicate.
    replace (S (i + n) - i)%nat with (S n) by lia. replace (S (i + n) - S i)%nat with n by lia. done.
Qed.

Lemma map_entries_length o step cpid hosts : forall cards vaddr, length cards = length hosts -> length (map_entries o step cpid hosts cards vaddr) = length hosts.
Proof. induction hosts as [|h hosts IH]; intros [|c cards] vaddr E; try done. cbn in *. f_equal. apply IH. lia. Qed.

Lemma fill_unmap_length o step cpid n : forall vaddr, length (fill_unmap o step cpid n vaddr) = n.
Proof. induction n as [|n IH]; intros vaddr; [done|]. cbn. by rewrite IH. Qed.

(** An entry that takes a mapping back: the same word without the valid bit. *)
Definition takes_back (o : tlb_order) (m u : Z * Z) : Prop :=
  snd u = 0 /\ fst m = Z.lor (fst u) (u64 (Z.shiftl 1 (key_size o + tag_size o + PID_SIZE))).

Lemma unmap_entries o step cpid hosts : forall cards vaddr, length cards = length hosts ->
  Forall2 (takes_back o) (map_entries o step cpid hosts cards vaddr) (fill_unmap o step cpid (length hosts) vaddr).
Proof.
  induction hosts as [|h hosts IH]; intros [|c cards] vaddr E; try done. cbn [map_entries fill_unmap length]. constructor; [|apply IH; cbn in E; lia].
  unfold takes_back, tlb_create_map, tlb_create_unmap. cbn [fst snd]. rewrite !Z.lor_0_l, Z.shiftl_0_l. split; [done|].
  by rewrite Z.lor_0_r, <- !Z.lor_assoc.
Qed.

Lemma visit_none {A} (b : bool) (f : nat * A -> bool) (m : nat * A -> M mmu (Z + bool)) l s :
  Forall (fun e => f e = false) l -> visit b (fun e => if f e then m e else mret (inr false)) l s = (Ret None, s).
Proof. induction 1 as [|e l He Hl IH]; [done|]. cbn [visit]. rewrite He. erewrite bind_run by done. exact IH. Qed.

(** ** Release *)

(** A release of pages whose card pages are out. *)
Definition put_events (dirtied : bool) (cpid : Z) (u : user_pages) : list event :=
  let o := if up_huge u then lo else so in
  let step := if up_huge u then page_size lo else PAGE_SIZE in
  (if dirtied then map EDirty (up_hpages u) else []) ++ map EPut (up_hpages u) ++
  service_events o (fill_unmap o step cpid (Z.to_nat (up_n_pages u)) (up_vaddr u)).

(** The card memory an entry holds. *)
Definition holds (u : user_pages) (ids : list nat) : Prop :=
  if en_mem cfg then up_cpages u = map (page_addr (up_huge u)) ids /\ up_n_pages u = Z.of_nat (length ids) else ids = [].

Lemma free_card_run u ids c0 rest s :
  holds u ids -> mm_card s = c0 -> card_ok c0 (map (pair (up_huge u)) ids ++ rest) ->
  exists c, when (en_mem cfg) (free_card (up_huge u) (up_cpages u) (up_n_pages u)) s = (Ret tt, set_mm_card c s) /\ card_ok c rest.
Proof.
  unfold holds, when. intros Hh <- Hok. destruct (en_mem cfg).
  - destruct Hh as [-> ->]. unfold free_card. rewrite length_map, Z.ltb_irrefl, Nat2Z.id.
    rewrite <- (length_map (page_addr (up_huge u)) ids), firstn_all.
    destruct (card_free_ok _ _ (up_huge u) ids rest Hok) as (c & E & Hc); [done|]. exists c. split; [|done]. unfold on_card. by rewrite E.
  - subst ids. exists (mm_card s). split; [by destruct s | done].
Qed.

Lemma service_run_either (huge : bool) cpid n vaddr s :
  mm_tlb_lock s = false -> 0 <= n < 2 ^ 32 ->
  (if huge then tlb_service_dev cfg reg_id lo (fill_unmap lo (page_size lo) cpid (Z.to_nat n) vaddr) (u32 n)
   else tlb_service_dev cfg reg_id so (fill_unmap so PAGE_SIZE cpid (Z.to_nat n) vaddr) (u32 n)) s =
  (Ret tt, emits (service_events (if huge then lo else so) (fill_unmap (if huge then lo else so) (if huge then page_size lo else PAGE_SIZE) cpid (Z.to_nat n) vaddr)) s).
Proof.
  intros Hl Hn. destruct huge; apply service_run; try done; rewrite fill_unmap_length, wrap_small by (unfold fits; lia); lia.
Qed.

Lemma put_entry_run dirtied cpid i u ids rest s :
  mm_allocs s = [] -> mm_tlb_lock s = false -> up_n_hpages u = Z.of_nat (length (up_hpages u)) -> 0 <= up_n_pages u < 2 ^ 32 ->
  holds u ids -> card_ok (mm_card s) (map (pair (up_huge u)) ids ++ rest) ->
  exists c s', put_entry cfg lo so reg_id dirtied (up_vaddr u) cpid (i, u) s = (Ret (inr true), s') /\
    card_ok c rest /\ mm_card s' = c /\ mm_trace s' = mm_trace s ++ put_events dirtied cpid u /\
    mm_small s' = del_entry i (mm_small s) /\ mm_tlb_lock s' = false /\ mm_allocs s' = [] /\ mm_next s' = mm_next s.
Proof.
  intros Ha Hl Hp Hn Hh Hok. unfold put_entry. cbn [fst snd].
  set (s1 := emits (if dirtied then map EDirty (up_hpages u) else []) s).
  erewrite bind_run by (instantiate (1 := s1); unfold s1; destruct dirtied; [by apply each_page_run | done]).
  set (s2 := emits (map EPut (up_hpages u)) s1). erewrite bind_run by (by apply each_page_run).
  fold s2. destruct (emits_fields (map EPut (up_hpages u)) s1) as (F1 & F2 & F3 & F4 & F5). fold s2 in F1, F2, F3, F4, F5.
  destruct (emits_fields (if dirtied then map EDirty (up_hpages u) else []) s) as (G1 & G2 & G3 & G4 & G5). fold s1 in G1, G2, G3, G4, G5.
  destruct (free_card_run u ids (mm_card s2) rest s2 Hh eq_refl) as (c & Ec & Hc); [by rewrite F1, G1|].
  erewrite bind_run by exact Ec. erewrite bind_run by (apply kzalloc_run; [cbn; congruence | lia]). cbn [negb].
  erewrite bind_run by (apply service_run_either; [cbn; congruence | done]).
  set (s3 := emits _ (set_mm_card c s2)). destruct (emits_fields (service_events (if up_huge u then lo else so) (fill_unmap (if up_huge u then lo else so) (if up_huge u then page_size lo else PAGE_SIZE) cpid (Z.to_nat (up_n_pages u)) (up_vaddr u))) (set_mm_card c s2)) as (K1 & K2 & K3 & K4 & K5).
  fold s3 in K1, K2, K3, K4, K5. exists c, (set_mm_small (del_entry i (mm_small s3)) s3). split; [done|]. split; [done|].
  cbn [set_mm_small mm_card mm_trace mm_small mm_tlb_lock mm_allocs mm_next]. split_and!; try (cbn in *; congruence).
  unfold s3. rewrite emits_trace. cbn [set_mm_card mm_trace]. unfold s2, s1. rewrite !emits_trace, <- !app_assoc. done.
Qed.

(** The entries of an address: an entry whose address and process no other one has. *)
Lemma put_pages_run dirtied i u ids rest old s :
  mm_allocs s = [] -> mm_tlb_lock s = false -> up_n_hpages u = Z.of_nat (length (up_hpages u)) -> 0 <= up_n_pages u < 2 ^ 32 ->
  holds u ids -> card_ok (mm_card s) (map (pair (up_huge u)) ids ++ rest) ->
  mm_small s = (i, u) :: old -> Forall (fun e => fst e <> i /\ ~ (up_vaddr (snd e) = up_vaddr u /\ up_cpid (snd e) = up_cpid u)) old ->
  exists s', tlb_put_user_pages cfg lo so reg_id ends hash (up_vaddr u) (up_cpid u) dirtied s = (Ret 0, s') /\
    card_ok (mm_card s') rest /\ mm_trace s' = mm_trace s ++ put_events dirtied (up_cpid u) u /\ mm_small s' = old.
Proof.
  intros Ha Hl Hp Hn Hh Hok Hs Hold.
  destruct (put_entry_run dirtied (up_cpid u) i u ids rest s Ha Hl Hp Hn Hh Hok) as (c & s' & E & Hc & E1 & E2 & E3 & _).
  exists s'. subst c. split_and!; try done.
  - unfold tlb_put_user_pages, returns, for_possible, gets. rewrite (bind_run _ _ s None s'); [done|]. erewrite bind_run by done.
    rewrite Hs. unfold bucket. rewrite filter_cons_True by done. cbn [visit snd]. rewrite !Z.eqb_refl. cbn [andb]. erewrite bind_run by exact E. cbn [andb].
    destruct ends; [done|]. apply (visit_none false (fun e => (up_vaddr (snd e) =? up_vaddr u) && (up_cpid (snd e) =? up_cpid u))), Forall_forall. intros e He. apply list_elem_of_filter in He as [_ He].
    rewrite Forall_forall in Hold. destruct (Hold e He) as [_ Hne]. destruct (Z.eqb_spec (up_vaddr (snd e)) (up_vaddr u)); [|done]. cbn.
    apply Z.eqb_neq. intros ?. by apply Hne.
  - rewrite E3, Hs. unfold del_entry. rewrite filter_cons_False by (intros ?; done). apply filter_same. intros e He.
    rewrite Forall_forall in Hold. by destruct (Hold e He).
Qed.

(** ** Mapping *)

Definition order_of (huge : bool) : tlb_order := if huge then lo else so.
Definition step_of (huge : bool) : Z := if huge then page_size lo else PAGE_SIZE.

(** Room for [n] card pages, when there is card memory. *)
Definition room (huge : bool) (n : nat) (pages : list (bool * nat)) : Prop :=
  en_mem cfg = true -> (length (outs huge pages) + n < n_chunks huge)%nat.

Lemma card_pages_run huge hpages n n_pages pages s :
  mm_allocs s = [] -> card_ok (mm_card s) pages -> room huge n pages -> Z.of_nat n < 2 ^ 32 ->
  exists ids c, (if en_mem cfg then
       ok ← kzalloc (Z.of_nat n);
       if negb ok then mret (inl (- ENOMEM))
       else
         r ← on_card (card_alloc huge (u64 (Z.of_nat n)));
         if bool_decide (fst r <> 0) then each_page EPut hpages n_pages ;; mret (inl (- ENOMEM)) else mret (inr (snd r))
     else mret (inr [])) s = (Ret (inr (map (page_addr huge) ids)), set_mm_card c s) /\
    length ids = (if en_mem cfg then n else 0%nat) /\ card_ok c (map (pair huge) ids ++ pages).
Proof.
  intros Ha Hok Hr Hn. unfold room in Hr. destruct (en_mem cfg); [|by exists [], (mm_card s); destruct s].
  destruct (card_alloc_ok _ _ huge n Hok (Hr eq_refl)) as (ids & c & E & Hl & Hc). exists ids, c. split; [|done].
  erewrite bind_run by (apply kzalloc_run; [done|lia]). cbn [negb]. rewrite wrap_small by (unfold fits; lia).
  erewrite bind_run by (unfold on_card; rewrite E; reflexivity). done.
Qed.

Lemma map_pages_run huge start cpid hosts pages n_pages held s :
  mm_allocs s = [] -> mm_tlb_lock s = false -> card_ok (mm_card s) held -> room huge (length hosts) held -> Z.of_nat (length hosts) < 2 ^ 32 ->
  exists ids s', let u := mk_user_pages start huge 0 n_pages (Z.of_nat (length hosts)) pages (map (page_addr huge) ids) in
    map_pages cfg lo so reg_id huge start cpid hosts pages (Z.of_nat (length hosts)) n_pages s = (Ret n_pages, s') /\
    mm_small s' = (mm_next s, u) :: mm_small s /\ holds u ids /\ card_ok (mm_card s') (map (pair huge) ids ++ held) /\
    mm_trace s' = mm_trace s ++ service_events (order_of huge) (map_entries (order_of huge) (step_of huge) cpid hosts (card_pages (map (page_addr huge) ids) (length hosts)) start) /\
    length ids = (if en_mem cfg then length hosts else 0%nat) /\ mm_tlb_lock s' = false /\ mm_allocs s' = [] /\ mm_next s' = S (mm_next s).
Proof.
  intros Ha Hl Hok Hr Hn. cbv zeta. destruct (card_pages_run huge pages (length hosts) n_pages held s Ha Hok Hr Hn) as (ids & c & E & Hi & Hc).
  set (cards := card_pages (map (page_addr huge) ids) (length hosts)). assert (length cards = length hosts) as Hcl.
  { unfold cards, card_pages. destruct (en_mem cfg); [by rewrite length_map|by rewrite length_replicate]. }
  set (s2 := emits (service_events (order_of huge) (map_entries (order_of huge) (step_of huge) cpid hosts cards start)) (set_mm_card c s)).
  destruct (emits_fields (service_events (order_of huge) (map_entries (order_of huge) (step_of huge) cpid hosts cards start)) (set_mm_card c s)) as (K1 & K2 & K3 & K4 & K5).
  fold s2 in K1, K2, K3, K4, K5. exists ids. eexists. split.
  { unfold map_pages. cbv zeta.
    rewrite (bind_run _ _ _ _ _ E). erewrite bind_run by (apply kzalloc_run; [done|lia]). cbn [negb].
    rewrite Nat2Z.id. erewrite bind_run by (apply fill_map_run; [done|intros Em; rewrite Em in Hi; rewrite length_map; lia]).
    rewrite !drop_0, firstn_all. cbn [Nat.add]. fold cards. rewrite <- Hcl at 1. rewrite firstn_all. fold (order_of huge) (step_of huge).
    erewrite bind_run by (apply service_run; [done|]; rewrite map_entries_length by done; apply wrap_small; unfold fits; lia).
    fold s2. unfold new_entry. erewrite bind_run by done. cbn. rewrite wrap_small by (unfold fits; lia). reflexivity. }
  cbn [set_mm_small set_mm_env mm_card mm_trace mm_small mm_tlb_lock mm_allocs mm_next]. split_and!; try (cbn in *; congruence).
  - unfold holds. cbn [up_cpages up_huge up_n_pages]. destruct (en_mem cfg); [by rewrite Hi | by apply nil_length_inv].
  - by rewrite K1.
  - unfold s2. by rewrite emits_trace.
Qed.

(** ** Numbers of pages *)

Definition page_of (shift x : Z) : Z := x / 2 ^ shift.

Lemma masked_shift sh x : 0 <= sh <= 64 -> fits 64 x -> Z.shiftr (Z.land x (u64 (Z.lnot (2 ^ sh - 1)))) sh = page_of sh x.
Proof.
  intros Hs Hx. unfold page_of. rewrite <- Z.shiftr_div_pow2 by lia. apply Z.bits_inj'. intros i Hi.
  rewrite !Z.shiftr_spec, Z.land_spec, wrap_testbit, Z.lnot_spec by lia. replace (2 ^ sh - 1) with (Z.ones sh) by (rewrite Z.ones_equiv; lia).
  rewrite Z.ones_spec_high by lia. destruct (Z.ltb_spec (i + sh) 64); [by rewrite andb_true_r|].
  rewrite (fits_testbit 64 x) by (done || lia). done.
Qed.

(** The pages that hold the bytes from [start] on. *)
Definition span (shift start count : Z) : Z := page_of shift (start + count - 1) - page_of shift start + 1.

Lemma page_of_bounds sh x y : 0 <= sh -> 0 <= x <= y -> 0 <= page_of sh x <= page_of sh y.
Proof. intros Hs Hx. unfold page_of. pose proof (pow2_pos sh Hs). split; [apply Z.div_pos; lia | apply Z.div_le_mono; lia]. Qed.

Lemma page_of_coarse sh x : PAGE_SHIFT <= sh -> page_of sh x = page_of (sh - PAGE_SHIFT) (page_of PAGE_SHIFT x).
Proof.
  unfold PAGE_SHIFT, page_of. intros Hs. rewrite Z.div_div by (pose proof (pow2_pos (sh - 12)); lia). f_equal.
  rewrite <- Z.pow_add_r by lia. f_equal. lia.
Qed.

Lemma span_coarse sh start count : PAGE_SHIFT <= sh -> 0 <= start -> 0 < count -> 1 <= span sh start count <= span PAGE_SHIFT start count.
Proof.
  intros Hs H0 Hc. unfold span. rewrite !(page_of_coarse sh) by done. unfold PAGE_SHIFT in *.
  pose proof (page_of_bounds 12 start (start + count - 1) ltac:(lia) ltac:(lia)) as Hb.
  set (a := page_of 12 start) in *. set (b := page_of 12 (start + count - 1)) in *.
  pose proof (page_of_bounds (sh - 12) a b ltac:(lia) ltac:(lia)). split; [lia|]. unfold page_of. pose proof (pow2_pos (sh - 12) ltac:(lia)).
  replace b with (a + (b - a)) at 1 by lia. set (Q := 2 ^ (sh - 12)) in *.
  cut ((a + (b - a)) / Q <= a / Q + (b - a)); [lia|]. rewrite <- Z.div_add by lia. apply Z.div_le_mono; nia.
Qed.

Lemma pages_of_span sh start count :
  0 <= sh <= 64 -> 0 <= start -> 0 < count -> start + count <= 2 ^ 64 -> 0 <= span sh start count < 2 ^ 31 ->
  pages_of start count (u64 (Z.lnot (2 ^ sh - 1))) sh = span sh start count.
Proof.
  intros Hs H0 Hc Hm Hn. unfold pages_of. rewrite (wrap_small 64 (start + count - 1)) by (unfold fits; lia).
  rewrite !masked_shift by (try lia; unfold fits; lia). fold (span sh start count). unfold i32, sext. rewrite wrap_small by (unfold fits; lia).
  cbv zeta. by rewrite (proj2 (Z.ltb_lt _ _)) by lia.
Qed.

(** ** Huge pages *)

Definition lo_wf : Prop := PAGE_SHIFT <= page_shift lo <= TLB_PADDR_RANGE /\ page_mask lo = u64 (Z.lnot (2 ^ page_shift lo - 1)).

Lemma next_page c : lo_wf -> 0 <= c -> page_of (page_shift lo) c <= page_of (page_shift lo) (c + PAGE_SIZE) <= page_of (page_shift lo) c + 1.
Proof.
  intros [[Hs _] _] H0. rewrite !(page_of_coarse _ _ Hs). unfold page_of, PAGE_SHIFT, PAGE_SIZE in *.
  replace ((c + 4096) / 2 ^ 12) with (c / 2 ^ 12 + 1) by (rewrite <- Z.div_add by lia; f_equal; lia).
  pose proof (pow2_pos (page_shift lo - 12) ltac:(lia)). set (Q := 2 ^ (page_shift lo - 12)) in *. set (x := c / 2 ^ 12).
  split; [apply Z.div_le_mono; lia|]. rewrite <- (Z.div_add x 1 Q) by lia. apply Z.div_le_mono; lia.
Qed.

(** The pages of [hosts] are the huge pages of pages of the list. *)
Definition huge_of (pages hosts : list Z) : Prop := Forall (fun h => exists p, p ∈ pages /\ h = Z.land p (page_mask lo)) hosts.

Lemma huge_starts_S pages i n curr last :
  huge_starts lo pages i (S n) curr last =
    if Z.shiftr (Z.land curr (page_mask lo)) (page_shift lo) =? Z.shiftr (Z.land last (page_mask lo)) (page_shift lo)
    then huge_starts lo pages (S i) n (u64 (curr + PAGE_SIZE)) last
    else p ← elem pages i; l ← huge_starts lo pages (S i) n (u64 (curr + PAGE_SIZE)) curr; mret (Z.land p (page_mask lo) :: l).
Proof. done. Qed.

Lemma huge_starts_run pages n s : lo_wf -> forall i curr last,
  (i + S n <= length pages)%nat -> 0 <= curr -> curr + Z.of_nat (S n) * PAGE_SIZE <= 2 ^ 64 -> fits 64 last ->
  page_of (page_shift lo) last <= page_of (page_shift lo) curr <= page_of (page_shift lo) last + 1 ->
  exists l, huge_starts lo pages i (S n) curr last s = (Ret l, s) /\ huge_of pages l /\
    Z.of_nat (length l) = page_of (page_shift lo) (curr + Z.of_nat n * PAGE_SIZE) - page_of (page_shift lo) last.
Proof.
  intros Hw. pose proof Hw as [Hs Hm]. unfold PAGE_SHIFT, TLB_PADDR_RANGE in Hs. pose proof (next_page) as Hnext.
  induction n as [|n IH]; intros i curr last Hi H0 Hc Hl Hp; unfold PAGE_SIZE in Hc;
    destruct (lookup_lt_is_Some_2 pages i ltac:(lia)) as [p Ep]; pose proof (Hnext curr Hw H0) as Hn1; rewrite huge_starts_S;
    rewrite Hm, !masked_shift, <- Hm by (lia || done || (unfold fits; lia)).
  - destruct (Z.eqb_spec (page_of (page_shift lo) curr) (page_of (page_shift lo) last)) as [E|E].
    + exists []. split_and!; [done|constructor|]. cbn [length Z.of_nat]. rewrite Z.mul_0_l, Z.add_0_r. lia.
    + erewrite bind_run by (by apply elem_run). exists [Z.land p (page_mask lo)]. split_and!; [done| |cbn [length]; rewrite Z.mul_0_l, Z.add_0_r; lia].
      repeat constructor. exists p. split; [by eapply list_elem_of_lookup_2 | done].
  - assert (u64 (curr + PAGE_SIZE) = curr + PAGE_SIZE) as Hu by (apply wrap_small; unfold fits, PAGE_SIZE; lia).
    assert (curr + Z.of_nat (S n) * PAGE_SIZE = curr + PAGE_SIZE + Z.of_nat n * PAGE_SIZE) as -> by lia. rewrite Hu.
    destruct (Z.eqb_spec (page_of (page_shift lo) curr) (page_of (page_shift lo) last)) as [E|E].
    + destruct (IH (S i) (curr + PAGE_SIZE) last) as (l & El & Hh & Hlen); [lia|unfold PAGE_SIZE; lia..|done|lia|]. by exists l.
    + erewrite bind_run by (by apply elem_run).
      destruct (IH (S i) (curr + PAGE_SIZE) curr) as (l & El & Hh & Hlen); [lia|unfold PAGE_SIZE; lia..|unfold fits; lia|lia|].
      exists (Z.land p (page_mask lo) :: l). split_and!.
      * by rewrite (bind_run _ _ _ _ _ El).
      * constructor; [|done]. exists p. split; [by eapply list_elem_of_lookup_2 | done].
      * cbn [length]. lia.
Qed.

End device.

(** The huge pages of a range that is not cut short: as many as it spans. *)
Lemma huge_starts_all lo pages start count s :
  lo_wf lo -> 0 <= start -> 0 < count -> start + count <= 2 ^ 48 -> Z.of_nat (length pages) = span PAGE_SHIFT start count ->
  exists l, huge_starts lo pages 0 (length pages) start (2 ^ 64 - 1) s = (Ret l, s) /\ huge_of lo pages l /\
    Z.of_nat (length l) = span (page_shift lo) start count.
Proof.
  intros Hw H0 Hc Hm Hlen. pose proof Hw as [Hs Hmask]. pose proof (span_coarse (page_shift lo) start count ltac:(lia) H0 Hc) as Hsp.
  destruct pages as [|p pages]; [cbn in Hlen; lia|]. cbn [length]. rewrite huge_starts_S.
  unfold PAGE_SHIFT, TLB_PADDR_RANGE in Hs. assert (0 < page_of (page_shift lo) (2 ^ 64 - 1) - page_of (page_shift lo) (2 ^ 48)) as Hlast.
  { unfold page_of. pose proof (pow2_pos (page_shift lo) ltac:(lia)) as Hp. assert (2 ^ page_shift lo <= 2 ^ 40) by (apply Z.pow_le_mono_r; lia).
    set (Q := 2 ^ page_shift lo) in *. assert (2 ^ 48 / Q + 1 <= (2 ^ 64 - 1) / Q); [|lia].
    rewrite <- Z.div_add by lia. apply Z.div_le_mono; lia. }
  pose proof (page_of_bounds (page_shift lo) start (2 ^ 48) ltac:(lia) ltac:(lia)) as Hst.
  rewrite Hmask, !masked_shift, <- Hmask by (lia || (unfold fits; lia)). rewrite (proj2 (Z.eqb_neq _ _)) by lia.
  erewrite bind_run by (by apply elem_run).
  assert (forall q, huge_of lo (p :: pages) q -> huge_of lo (p :: pages) (Z.land p (page_mask lo) :: q)) as Hcons.
  { intros q Hq. constructor; [exists p; split; [by left|done]|done]. }
  assert (page_of PAGE_SHIFT (start + Z.of_nat (length pages) * PAGE_SIZE) = page_of PAGE_SHIFT (start + count - 1)) as Hend.
  { unfold span in Hlen. cbn [length] in Hlen. unfold page_of, PAGE_SHIFT, PAGE_SIZE in *. change 4096 with (2 ^ 12) at 1. rewrite Z.div_add by lia. lia. }
  assert (Z.of_nat (length pages) * PAGE_SIZE <= count + PAGE_SIZE) as Hbytes.
  { unfold span in Hlen. cbn [length] in Hlen. unfold page_of, PAGE_SHIFT, PAGE_SIZE in *. pose proof (Z.div_mod start (2 ^ 12)). pose proof (Z.div_mod (start + count - 1) (2 ^ 12)).
    pose proof (Z.mod_pos_bound start (2 ^ 12)). pose proof (Z.mod_pos_bound (start + count - 1) (2 ^ 12)). lia. }
  assert (u64 (start + PAGE_SIZE) = start + PAGE_SIZE) as Hu by (apply wrap_small; unfold fits, PAGE_SIZE; lia). rewrite Hu.
  pose proof (next_page lo start Hw H0) as Hnext. unfold span. rewrite (page_of_coarse (page_shift lo) (start + count - 1)), <- Hend, <- page_of_coarse by (unfold PAGE_SHIFT; lia).
  destruct pages as [|p' pages].
  - exists [Z.land p (page_mask lo)]. split_and!; [done | by apply Hcons; constructor | cbn [length]; rewrite Z.mul_0_l, Z.add_0_r; lia].
  - destruct (huge_starts_run lo (p :: p' :: pages) (length pages) s Hw 1 (start + PAGE_SIZE) start) as (l & El & Hl & Hll);
      [cbn; lia | unfold PAGE_SIZE; lia | cbn [length] in Hbytes; unfold PAGE_SIZE in *; lia | unfold fits; lia | lia |].
    exists (Z.land p (page_mask lo) :: l). split_and!; [by rewrite (bind_run _ _ _ _ _ El) | by apply Hcons|].
    cbn [length]. rewrite Nat2Z.inj_succ, Hll. replace (start + Z.of_nat (S (length pages)) * PAGE_SIZE) with (start + PAGE_SIZE + Z.of_nat (length pages) * PAGE_SIZE) by lia. lia.
Qed.

(** ** A mapping and its release *)
Section mapping.
Context (cfg : bus_cnfg) (lo so : tlb_order) (reg_id : Z) (ends : bool) (hash : Z -> Z).
Context (task : Z -> bool) (vma : Z -> option bool) (pin : Z -> Z -> Z * list Z).

(** The pages a mapping takes: small pages on the host, huge or small ones in the TLB. *)
Definition map_size (huge : bool) (start count : Z) : Z := if huge then span (page_shift lo) start count else span PAGE_SHIFT start count.

(** A request that is answered as asked for: the range is mapped, within the limit, and
    all its pages are pinned. *)
Record answered (huge : bool) (start count pid : Z) (pages : list Z) : Prop := mk_answered {
  an_task : task pid = true; an_vma : vma start = Some huge; an_start : 0 <= start; an_count : 0 < count; an_end : start + count <= 2 ^ 48;
  an_limit : span PAGE_SHIFT start count <= (if huge then MAX_N_MAP_HUGE_PAGES else MAX_N_MAP_PAGES);
  an_pin : pin start (span PAGE_SHIFT start count) = (span PAGE_SHIFT start count, pages);
  an_pages : Z.of_nat (length pages) = span PAGE_SHIFT start count }.

(** A device in which allocations succeed, with the card pages [held] out. *)
Record ready (s : mmu) (held : list (bool * nat)) : Prop := mk_ready {
  rd_allocs : mm_allocs s = []; rd_lock : mm_tlb_lock s = false; rd_card : card_ok (mm_card s) held;
  rd_fresh : Forall (fun e => (fst e < mm_next s)%nat) (mm_small s) }.

Definition hosts_of (huge : bool) (pages hosts : list Z) : Prop := if huge then huge_of lo pages hosts else hosts = pages.

Lemma get_pages_run huge start count cpid pid pages held s :
  lo_wf lo -> answered huge start count pid pages -> ready s held -> room cfg huge (Z.to_nat (map_size huge start count)) held ->
  exists hosts, Z.of_nat (length hosts) = map_size huge start count /\ hosts_of huge pages hosts /\
    tlb_get_user_pages cfg lo so reg_id task vma pin start count cpid pid s =
      map_pages cfg lo so reg_id huge start cpid hosts pages (Z.of_nat (length hosts)) (span PAGE_SHIFT start count) s.
Proof.
  intros Hw [Ht Hv H0 Hc He Hl Hp Hn] [Ra _ _ _] Hr. pose proof Hw as [Hs Hmask]. unfold PAGE_SHIFT, TLB_PADDR_RANGE in Hs.
  pose proof (span_coarse (page_shift lo) start count ltac:(unfold PAGE_SHIFT; lia) H0 Hc) as Hsp.
  assert (span PAGE_SHIFT start count <= 8192) as Hcap by (destruct huge; unfold MAX_N_MAP_HUGE_PAGES, MAX_N_MAP_PAGES in Hl; lia).
  assert (pages_of start count PAGE_MASK PAGE_SHIFT = span PAGE_SHIFT start count) as Hpo by (apply pages_of_span; unfold PAGE_SHIFT in *; lia).
  assert (pages_of start count (page_mask lo) (page_shift lo) = span (page_shift lo) start count) as Hph by (rewrite Hmask; apply pages_of_span; lia).
  assert (tlb_get_user_pages cfg lo so reg_id task vma pin start count cpid pid s =
    (if huge then
       ok ← kzalloc (span (page_shift lo) start count);
       if negb ok then mret (- ENOMEM)
       else
         starts ← huge_starts lo pages 0 (length pages) start (2 ^ 64 - 1);
         if span (page_shift lo) start count <? Z.of_nat (length starts) then undef "index out of range"
         else map_pages cfg lo so reg_id true start cpid (starts ++ replicate (Z.to_nat (span (page_shift lo) start count) - length starts) 0) pages (span (page_shift lo) start count) (span PAGE_SHIFT start count)
     else map_pages cfg lo so reg_id false start cpid pages pages (span PAGE_SHIFT start count) (span PAGE_SHIFT start count)) s) as Eq.
  { unfold tlb_get_user_pages. rewrite Ht, Hv. cbn [negb]. cbv zeta. rewrite Hpo, Hph, Z.min_l by (destruct huge; lia).
    rewrite wrap_small by (unfold fits; lia). rewrite (proj2 (Z.ltb_ge (start + count) start)), (proj2 (Z.eqb_neq count 0)) by lia.
    erewrite bind_run by (apply kzalloc_run; [done|lia]). erewrite bind_run by done. erewrite bind_run by (apply kzalloc_run; [done|lia]). cbn [negb].
    rewrite Hp, Z.ltb_irrefl, <- Hn, Nat2Z.id. by rewrite Hn. }
  rewrite Eq. clear Eq. destruct huge; cbn [map_size hosts_of].
  - destruct (huge_starts_all lo pages start count s Hw H0 Hc He Hn) as (l & El & Hh & Hll). exists l. split_and!; [done|done|].
    erewrite bind_run by (apply kzalloc_run; [done|lia]). cbn [negb]. rewrite (bind_run _ _ _ _ _ El). rewrite <- Hll, Z.ltb_irrefl, Nat2Z.id, Nat.sub_diag.
    cbn [replicate]. by rewrite app_nil_r.
  - exists pages. split_and!; [done|done|]. by rewrite Hn.
Qed.

(** C7: The pages of a mapping come back.  A request of the process with identifier 0 that is
    answered - the range is mapped and within the limit, the kernel pins all its pages and
    grants its allocations, the card has room, the TLB lock is free - maps every page the
    range touches, with card pages of its own.  If no entry of the table had this address
    yet, the release of the address then shows each host page to the kernel again, gives the
    card pages back, leaves the table as it was and sends the TLB, for each entry of the
    mapping, the same entry without the valid bit, through the registers or the DMA
    engine as before.  Entries do not record their process, all have identifier 0: an entry
    another process has at the same address would be released as well, or in its place
    ([address_shared]). *)
Theorem mapping_released huge start count pid pages dirtied held s :
  lo_wf lo -> answered huge start count pid pages -> ready s held ->
  room cfg huge (Z.to_nat (map_size huge start count)) held ->
  Forall (fun e => ~ (up_vaddr (snd e) = start /\ up_cpid (snd e) = 0)) (mm_small s) ->
  exists s1 ids hosts maps unmaps s2,
    tlb_get_user_pages cfg lo so reg_id task vma pin start count 0 pid s = (Ret (span PAGE_SHIFT start count), s1) /\
    hosts_of huge pages hosts /\ Z.of_nat (length hosts) = map_size huge start count /\
    card_ok (mm_card s1) (map (pair huge) ids ++ held) /\
    maps = map_entries (order_of lo so huge) (step_of lo huge) 0 hosts (card_pages cfg (map (page_addr huge) ids) (length hosts)) start /\
    mm_trace s1 = mm_trace s ++ service_events cfg reg_id (order_of lo so huge) maps /\
    tlb_put_user_pages cfg lo so reg_id ends hash start 0 dirtied s1 = (Ret 0, s2) /\
    card_ok (mm_card s2) held /\ mm_small s2 = mm_small s /\
    Forall2 (takes_back (order_of lo so huge)) maps unmaps /\
    mm_trace s2 = mm_trace s1 ++ (if dirtied then map EDirty pages else []) ++ map EPut pages ++ service_events cfg reg_id (order_of lo so huge) unmaps.
Proof.
  intros Hw Ha Hr Hroom Hnone. destruct (get_pages_run huge start count 0 pid pages held s Hw Ha Hr Hroom) as (hosts & Hlh & Hho & Eg).
  pose proof (span_coarse (page_shift lo) start count (proj1 (proj1 Hw)) (an_start _ _ _ _ _ Ha) (an_count _ _ _ _ _ Ha)) as Hsp.
  pose proof (an_limit _ _ _ _ _ Ha) as Hl. assert (Z.of_nat (length hosts) <= 8192) as Hsmall.
  { rewrite Hlh. unfold map_size. destruct huge; unfold MAX_N_MAP_HUGE_PAGES, MAX_N_MAP_PAGES in Hl; lia. }
  rewrite <- Hlh, Nat2Z.id in Hroom. destruct Hr as [Ra Rl Rc Rf].
  destruct (map_pages_run cfg lo so reg_id huge start 0 hosts pages (span PAGE_SHIFT start count) held s Ra Rl Rc Hroom ltac:(lia)) as (ids & s1 & Em & Es & Hh & Hc & Etr & Hi & Hlk & Hal & Hnx).
  cbv zeta in *. set (u := mk_user_pages start huge 0 (span PAGE_SHIFT start count) (Z.of_nat (length hosts)) pages (map (page_addr huge) ids)) in *.
  destruct (put_pages_run cfg lo so reg_id ends hash dirtied (mm_next s) u ids held (mm_small s) s1 Hal Hlk) as (s2 & Ep & Hc2 & Et2 & Es2); try done.
  - symmetry. exact (an_pages _ _ _ _ _ Ha).
  - cbn. lia.
  - apply Forall_forall. intros e He. rewrite Forall_forall in Hnone, Rf. split; [|by apply Hnone]. specialize (Rf e He). lia.
  - exists s1, ids, hosts. eexists. exists (fill_unmap (order_of lo so huge) (step_of lo huge) 0 (length hosts) start), s2. rewrite Eg. split_and!; try done.
    + apply unmap_entries. unfold card_pages. destruct (en_mem cfg); [by rewrite length_map, Hi | by rewrite length_replicate].
    + rewrite Et2. unfold put_events. cbn [u up_huge up_hpages up_n_pages up_vaddr up_cpid]. by rewrite Nat2Z.id.
Qed.

End mapping.

(** Five thousand bytes in two pages, on a shell with card memory. *)
Definition small_cfg : bus_cnfg := mk_bus_cnfg 1 1 0 0 1 0 1 1 0 0 0 0 0 0 0.
Definition small_start : mmu := mk_mmu card_init false [] [] no_pages false false [] no_pr 0 [] [] [].

Lemma mapping_released_witness :
  exists s1 s2, let lo := tlb_order_of true 3 21 in let so := tlb_order_of false 6 12 in
    tlb_get_user_pages small_cfg lo so 0 (fun _ => true) (fun _ => Some false) (fun _ n => (n, [0x5000; 0x9000])) 0x1000 5000 0 77 small_start = (Ret 2, s1) /\
    tlb_put_user_pages small_cfg lo so 0 true id 0x1000 0 true s1 = (Ret 0, s2) /\ mm_small s2 = [] /\ card_ok (mm_card s2) [].
Proof.
  destruct (mapping_released small_cfg (tlb_order_of true 3 21) (tlb_order_of false 6 12) 0 true id (fun _ => true) (fun _ => Some false) (fun _ n => (n, [0x5000; 0x9000]))
    false 0x1000 5000 77 [0x5000; 0x9000] true [] small_start) as (s1 & ids & hosts & maps & unmaps & s2 & E1 & _ & _ & _ & _ & _ & E2 & Hc & Hs & _).
  - split; [unfold PAGE_SHIFT, TLB_PADDR_RANGE; cbn; lia | reflexivity].
  - constructor; try reflexivity; unfold MAX_N_MAP_PAGES; try lia. vm_compute. discriminate.
  - constructor; [reflexivity | reflexivity | exact card_init_ok | constructor].
  - intros _. change (Z.to_nat (map_size (tlb_order_of true 3 21) false 4096 5000)) with 2%nat. change (length (outs false [])) with (length (@nil (bool * nat))).
    exact (page_room false [] eq_refl).
  - constructor.
  - exists s1, s2. split; [exact E1|]. split; [exact E2|]. split; [exact Hs | exact Hc].
Defined.

(** Process 1 maps the address process 0 has mapped, with a page of its own; the
    release by process 0 gives back the page of process 1, and, if the loop goes on
    behind an entry it has removed, its own (a shell without card memory). *)
Definition no_mem_cfg : bus_cnfg := mk_bus_cnfg 1 1 0 0 1 0 1 0 0 0 0 0 0 0 0.
Definition map_at_4096 (cpid pid page : Z) : M _ Z :=
  tlb_get_user_pages no_mem_cfg (tlb_order_of true 3 21) (tlb_order_of false 6 12) 0
    (fun _ => true) (fun _ => Some false) (fun _ n => (n, [page])) 0x1000 4096 cpid pid.

Example address_shared (c : card) (ends : bool) :
  exists s2 s3, (map_at_4096 0 77 0x5000 ;; map_at_4096 1 78 0x9000) (mk_mmu c false [] [] no_pages false false [] no_pr 0 [] [] []) = (Ret 1, s2) /\
    map (fun e => (up_cpid (snd e), up_hpages (snd e))) (mm_small s2) = [(0, [0x9000]); (0, [0x5000])] /\
    tlb_put_user_pages no_mem_cfg (tlb_order_of true 3 21) (tlb_order_of false 6 12) 0 ends id 0x1000 0 false s2 = (Ret 0, s3) /\
    map (fun e => up_hpages (snd e)) (mm_small s3) = (if ends then [[0x5000]] else []) /\
    omap (fun e => match e with EPut p => Some p | _ => None end) (mm_trace s3) = (if ends then [0x9000] else [0x9000; 0x5000]).
Proof.
  destruct ends; (eexists _, _; split; [vm_compute; reflexivity|]; split; [reflexivity|]; split; [vm_compute; reflexivity|]; by split).
Qed.
