(* ===== verification/DrvFops.v ===== *)
(** The kernel driver: the requests of users on buffers, mappings, process identifiers and
    bitstreams ([fpga_fops.c]), and the page faults of the vFPGA ([fpga_isr.c]).

    A request carries the words copied from the user.  The state of a vFPGA is that of
    its memory, the pool of its identifiers and the table of registered processes. *)
From stdpp Require Import base numbers list strings.
From Stdlib Require Import ZArith Lia.
From S2P Require Import Prelude Driver DrvMmu.

Local Open Scope Z_scope.

Record cid_entry : Type := mk_cid_entry { ce_pid : Z; ce_cpid : Z }.

Record device : Type := mk_device { dv_mmu : mmu; dv_pids : pids; dv_cids : list (nat * cid_entry); dv_stat_lock : bool }.

Definition on_mmu {A} (m : M mmu A) : M device A :=
  fun s => let '(r, x) := m (dv_mmu s) in (r, mk_device x (dv_pids s) (dv_cids s) (dv_stat_lock s)).
Definition on_proc {A} (m : M pids A) : M device A :=
  fun s => let '(r, x) := m (dv_pids s) in (r, mk_device (dv_mmu s) x (dv_cids s) (dv_stat_lock s)).
Definition change_cids (f : list (nat * cid_entry) -> list (nat * cid_entry)) : M device unit :=
  modify (fun s => mk_device (dv_mmu s) (dv_pids s) (f (dv_cids s)) (dv_stat_lock s)).
Definition stat_spin_lock : M device unit :=
  fun s => if dv_stat_lock s then (Spin, s) else (Ret tt, mk_device (dv_mmu s) (dv_pids s) (dv_cids s) true).
Definition stat_spin_unlock : M device unit := modify (fun s => mk_device (dv_mmu s) (dv_pids s) (dv_cids s) false).

(** The requests with the words they read. *)
Inductive request : Type :=
| IOCTL_ALLOC_HOST_USER_MEM (n_pages cpid : Z)
| IOCTL_FREE_HOST_USER_MEM (vaddr cpid : Z)
| IOCTL_ALLOC_HOST_PR_MEM (n_pages : Z)
| IOCTL_FREE_HOST_PR_MEM (vaddr : Z)
| IOCTL_MAP_USER (vaddr len cpid : Z)
| IOCTL_UNMAP_USER (vaddr cpid : Z)
| IOCTL_REGISTER_PID (pid : Z)
| IOCTL_UNREGISTER_PID (cpid : Z)
| IOCTL_RECONFIG_LOAD (vaddr len : Z).

Section device.
Context (cfg : bus_cnfg) (lo so : tlb_order) (reg_id : Z) (ends : bool) (hash : Z -> Z).
Context (task : Z -> bool) (vma : Z -> option bool) (pin : Z -> Z -> Z * list Z).

(** The loop over the entries of a process. *)
Definition for_process (pid : Z) (body : nat * cid_entry -> M device (Z + bool)) : M device (option Z) :=
  fun s => visit ends body (bucket hash ce_pid (hash pid) (dv_cids s)) s.

(** The owner of an identifier. *)
Definition pid_of (cpid : Z) : M device Z :=
  fun s => if cpid <? 0 then (Undef "index out of range", s)
           else match pid_array (dv_pids s) !! Z.to_nat cpid with
                | Some pid => (Ret pid, s)
                | None => (Undef "index out of range", s)
                end.

Definition fpga_release (pid : Z) : M device Z :=
  for_process pid (fun e =>
    if ce_pid (snd e) =? pid then
      on_mmu (tlb_put_user_pages_cpid cfg lo so reg_id ends hash (ce_cpid (snd e)) true) ;;
      on_proc (unregister_pid (ce_cpid (snd e))) ;;
      change_cids (del_entry (fst e)) ;;
      mret (inr true)
    else mret (inr false)) ;;
  mret 0.

(** A page fault of the vFPGA ([fpga_isr.c]), with the words of its two registers.  No
    other function takes the lock of the handler. *)
Definition fpga_tlb_miss_isr (vaddr_miss len_miss : Z) : M device unit :=
  let len := Z.land len_miss 0xffffffff in
  let cpid := i32 (Z.shiftr (Z.shiftr len_miss 16) 16) in
  pid ← pid_of cpid;
  ret ← on_mmu (tlb_get_user_pages cfg lo so reg_id task vma pin vaddr_miss len cpid pid);
  when (0 <? ret) (on_mmu (happens ERestart)).

(** What the calls return is not what the request returns.  The words are those written
    back to the user. *)
Definition fpga_ioctl (copied : bool) (r : request) : M device (Z * list Z) :=
  if negb copied then mret (0, [])
  else match r with
  | IOCTL_ALLOC_HOST_USER_MEM n_pages cpid => on_mmu (alloc_user_buffers cfg n_pages (i32 cpid)) ;; mret (0, [])
  | IOCTL_FREE_HOST_USER_MEM vaddr cpid => on_mmu (free_user_buffers cfg lo reg_id ends hash vaddr (i32 cpid)) ;; mret (0, [])
  | IOCTL_ALLOC_HOST_PR_MEM n_pages => on_mmu (alloc_pr_buffers n_pages) ;; mret (0, [])
  | IOCTL_FREE_HOST_PR_MEM vaddr => on_mmu (free_pr_buffers reg_id ends hash vaddr) ;; mret (0, [])
  | IOCTL_MAP_USER vaddr len cpid =>
      pid ← pid_of (u32 cpid);
      on_mmu (tlb_get_user_pages cfg lo so reg_id task vma pin vaddr len (i32 cpid) pid) ;; mret (0, [])
  | IOCTL_UNMAP_USER vaddr cpid =>
      on_mmu (tlb_put_user_pages cfg lo so reg_id ends hash vaddr (i32 cpid) true) ;; mret (0, [])
  | IOCTL_REGISTER_PID w =>
      stat_spin_lock ;;
      let pid := i32 w in
      cpid ← on_proc (register_pid pid);
      if u64 cpid =? u64 (- 1) then mret (- 1, [])
      else
        entry ← on_mmu (kzalloc 1);
        (if entry : bool then skip else throw "BUG") ;;
        i ← on_mmu new_entry;
        change_cids (fun l => (i, mk_cid_entry pid (i32 cpid)) :: l) ;;
        stat_spin_unlock ;;
        mret (0, [u64 cpid])
  | IOCTL_UNREGISTER_PID cpid =>
      stat_spin_lock ;;
      pid ← pid_of cpid;
      for_process pid (fun e =>
        if (ce_pid (snd e) =? pid) && (u64 (ce_cpid (snd e)) =? cpid) then
          on_mmu (tlb_put_user_pages_cpid cfg lo so reg_id ends hash (i32 cpid) true) ;;
          change_cids (del_entry (fst e)) ;;
          mret (inr true)
        else mret (inr false)) ;;
      ret ← on_proc (unregister_pid (i32 cpid));
      if ret =? - 1 then mret (- 1, [])
      else stat_spin_unlock ;; mret (0, [])
  | IOCTL_RECONFIG_LOAD vaddr len =>
      on_mmu pr_spin_lock ;;
      on_mmu (happens (EDatapath false)) ;;
      ret ← on_mmu (reconfigure reg_id ends hash vaddr len);
      if bool_decide (ret <> 0) then mret (- 1, [])
      else
        on_mmu (happens (EDatapath true)) ;;
        on_mmu pr_spin_unlock ;;
        mret (0, [])
  end.

End device.
