(* ===== verification/DrvFopsFacts.v ===== *)
(** The requests of users: what they leave of the mappings of processes. *)
From stdpp Require Import base numbers list strings.
From Stdlib Require Import ZArith Lia.
From S2P Require Import Prelude Driver DrvMmu DrvMmuFacts DrvFops.

Local Open Scope Z_scope.

(** ** Computations that keep a property, however they end *)

Definition keeps {S A} (P : S -> Prop) (m : M S A) : Prop := forall s, P s -> P (snd (m s)).

Create HintDb keeps discriminated.

Section keeps.
Context {S : Type} (P : S -> Prop).

Lemma stays_bind {A B} (m : M S A) (k : A -> M S B) : keeps P m -> (forall a, keeps P (k a)) -> keeps P (m ≫= k).
Proof. intros Hm Hk s Hs. specialize (Hm s Hs). unfold mbind, M_bind. destruct (m s) as [[a| | |] s']; try done. by apply Hk. Qed.

Lemma stays_for_each {A} (f : A -> M S unit) l : (forall x, keeps P (f x)) -> keeps P (for_each f l).
Proof. intros Hf. induction l as [|x l IH]; [by intros s Hs|]. by apply stays_bind. Qed.

Lemma stays_visit {A} ends (body : nat * A -> M S (Z + bool)) l : (forall e, keeps P (body e)) -> keeps P (visit ends body l).
Proof.
  intros Hb. induction l as [|e l IH]; [by intros s Hs|]. apply stays_bind; [done|]. intros [v|r]; [by intros s Hs|].
  by destruct (r && ends); [intros s Hs|].
Qed.

Lemma stays_modify (f : S -> S) : (forall s, P s -> P (f s)) -> keeps P (modify f).
Proof. intros Hf s Hs. by apply Hf. Qed.
End keeps.

(** ** The table of mappings *)

(** The entries of the table carry the identifier zero. *)
Definition unowned (s : mmu) : Prop := Forall (fun e => up_cpid (snd e) = 0) (mm_small s).

Lemma stays_same {A} (m : M mmu A) : (forall s, mm_small (snd (m s)) = mm_small s) -> keeps unowned m.
Proof. intros Hm s Hs. unfold unowned. by rewrite Hm. Qed.

#[local] Hint Extern 1 (keeps _ (mret _)) => (intros ? ?; assumption) : keeps.
#[local] Hint Extern 1 (keeps _ (gets _)) => (intros ? ?; assumption) : keeps.
#[local] Hint Extern 1 (keeps _ skip) => (intros ? ?; assumption) : keeps.
#[local] Hint Extern 1 (keeps _ spin) => (intros ? ?; assumption) : keeps.
#[local] Hint Extern 1 (keeps _ (undef _)) => (intros ? ?; assumption) : keeps.
#[local] Hint Extern 1 (keeps _ (throw _)) => (intros ? ?; assumption) : keeps.
#[local] Hint Extern 2 (keeps _ (modify _)) => (apply stays_modify; intros ? ?; assumption) : keeps.
#[local] Hint Resolve stays_bind stays_for_each stays_visit : keeps.

(** Goes through the branches of a computation. *)
Ltac keeps_all :=
  repeat match goal with
  | |- keeps _ (_ ≫= _) => apply stays_bind; [|intros ?]
  | |- keeps _ (for_each _ _) => apply stays_for_each; intros ?
  | |- keeps _ (visit _ _ _) => apply stays_visit; intros ?
  | |- keeps _ (when ?b _) => destruct b; unfold when
  | |- keeps _ (let _ := _ in _) => cbv zeta
  | |- keeps _ (if ?b then _ else _) => destruct b
  | |- keeps _ (match ?b with _ => _ end) => destruct b
  | |- _ => progress eauto 2 with keeps nocore
  end.

Lemma stays_kzalloc n : keeps unowned (kzalloc n).
Proof. apply stays_same. intros s. unfold kzalloc. by destruct (mm_allocs s). Qed.

Lemma stays_alloc_pages : keeps unowned alloc_pages.
Proof. apply stays_same. intros s. unfold alloc_pages. by destruct (mm_avail s). Qed.

Lemma stays_on_card {A} (m : M card A) : keeps unowned (on_card m).
Proof. apply stays_same. intros s. unfold on_card. by destruct (m (mm_card s)). Qed.

Lemma stays_elem {A} (l : list A) i : keeps unowned (elem l i).
Proof. apply stays_same. intros s. unfold elem. by destruct (l !! i). Qed.

Lemma stays_new_entry : keeps unowned new_entry.
Proof. by apply stays_same. Qed.

Lemma stays_hash_del i : keeps unowned (hash_del_small i).
Proof. apply stays_modify. intros s Hs. unfold unowned. cbn. unfold del_entry. rewrite Forall_forall in *. intros e He. apply list_elem_of_filter in He as [_ He]. unfold unowned in Hs. rewrite Forall_forall in Hs. by apply Hs. Qed.

Lemma stays_happens e : keeps unowned (happens e).
Proof. by apply stays_same. Qed.

#[local] Hint Resolve stays_kzalloc stays_alloc_pages stays_on_card stays_elem stays_new_entry stays_hash_del stays_happens : keeps.

Section device.
Context (cfg : bus_cnfg) (lo so : tlb_order) (reg_id : Z) (ends : bool) (hash : Z -> Z).
Context (task : Z -> bool) (vma : Z -> option bool) (pin : Z -> Z -> Z * list Z) (remap_fails : Z -> Z -> Z -> bool).

Lemma stays_service o l n : keeps unowned (tlb_service_dev cfg reg_id o l n).
Proof. unfold tlb_service_dev. keeps_all. Qed.

Lemma stays_each_page ev l n : keeps unowned (each_page ev l n).
Proof. unfold each_page. keeps_all. Qed.

Lemma stays_free_card large l n : keeps unowned (free_card large l n).
Proof. unfold free_card. keeps_all. Qed.

Lemma stays_fill_map o step cpid hosts cpages n : forall i vaddr, keeps unowned (fill_map cfg o step cpid hosts cpages i n vaddr).
Proof. induction n as [|n IH]; intros i vaddr; cbn [fill_map]; keeps_all; try apply IH. Qed.

#[local] Hint Resolve stays_service stays_each_page stays_free_card stays_fill_map : keeps.

Lemma stays_put_entry dirtied vaddr cpid e : keeps unowned (put_entry cfg lo so reg_id dirtied vaddr cpid e).
Proof. unfold put_entry. keeps_all. Qed.

Lemma stays_map_pages huge start cpid hosts pages n n_pages : keeps unowned (map_pages cfg lo so reg_id huge start cpid hosts pages n n_pages).
Proof. unfold map_pages. keeps_all. apply stays_modify. intros s Hs. by constructor. Qed.

Lemma stays_huge_starts pages n : forall i curr last, keeps unowned (huge_starts lo pages i n curr last).
Proof. induction n as [|n IH]; intros i curr last; cbn [huge_starts]; keeps_all; try apply IH. Qed.

#[local] Hint Resolve stays_put_entry stays_map_pages stays_huge_starts : keeps.

Lemma stays_get start count cpid pid : keeps unowned (tlb_get_user_pages cfg lo so reg_id task vma pin start count cpid pid).
Proof. unfold tlb_get_user_pages. keeps_all. Qed.

Lemma stays_put vaddr cpid dirtied : keeps unowned (tlb_put_user_pages cfg lo so reg_id ends hash vaddr cpid dirtied).
Proof. unfold tlb_put_user_pages, returns, for_possible. keeps_all. Qed.

Lemma stays_for_buckets body table bs : (forall e, keeps unowned (body e)) -> keeps unowned (for_buckets ends hash body table bs).
Proof. intros Hb. induction bs as [|b bs IH]; cbn [for_buckets]; keeps_all; try apply Hb; done. Qed.

Lemma stays_put_cpid cpid dirtied : keeps unowned (tlb_put_user_pages_cpid cfg lo so reg_id ends hash cpid dirtied).
Proof. unfold tlb_put_user_pages_cpid, returns, for_all. keeps_all. apply stays_for_buckets. intros e. keeps_all. Qed.

Lemma stays_alloc_loop n : keeps unowned (alloc_loop n).
Proof. induction n as [|n IH]; cbn [alloc_loop]; keeps_all; try apply IH. Qed.

Lemma stays_remap vaddr phys size : keeps unowned (remap remap_fails vaddr phys size).
Proof. unfold remap. keeps_all. Qed.

#[local] Hint Resolve stays_alloc_loop stays_remap : keeps.

Lemma stays_remap_pages pages n : forall i vaddr, keeps unowned (remap_pages lo remap_fails pages i n vaddr).
Proof. induction n as [|n IH]; intros i vaddr; cbn [remap_pages]; keeps_all; try apply IH. Qed.

#[local] Hint Resolve stays_remap_pages : keeps.

Lemma stays_alloc_user n_pages cpid : keeps unowned (alloc_user_buffers cfg n_pages cpid).
Proof. unfold alloc_user_buffers, change_curr, free_pages. keeps_all. Qed.

Lemma stays_free_user vaddr cpid : keeps unowned (free_user_buffers cfg lo reg_id ends hash vaddr cpid).
Proof. unfold free_user_buffers, returns, for_possible, free_entry, hash_del_large. keeps_all. Qed.

Lemma stays_pr_lock : keeps unowned pr_spin_lock.
Proof. unfold pr_spin_lock. keeps_all. Qed.

Lemma stays_alloc_pr n_pages : keeps unowned (alloc_pr_buffers n_pages).
Proof. unfold alloc_pr_buffers, pr_spin_lock, pr_spin_unlock, change_pr, free_pages. keeps_all. Qed.

Lemma stays_free_pr vaddr : keeps unowned (free_pr_buffers reg_id ends hash vaddr).
Proof. unfold free_pr_buffers, pr_spin_lock, pr_spin_unlock, pr_for_possible, change_pr_map. keeps_all. Qed.

Lemma stays_reconfigure vaddr len : keeps unowned (reconfigure reg_id ends hash vaddr len).
Proof. unfold reconfigure, pr_for_possible. keeps_all. Qed.

Lemma stays_mmap ctrl avx wb vm_start vm_pgoff : keeps unowned (fpga_mmap cfg lo reg_id remap_fails ctrl avx wb vm_start vm_pgoff).
Proof. unfold fpga_mmap, remap_region, mmap_buff, mmap_pr, pr_spin_lock, pr_spin_unlock, change_curr, change_pr, change_pr_map. keeps_all. Qed.

(** ** Requests *)

Definition dev_unowned (s : device) : Prop := unowned (dv_mmu s).

Lemma stays_on_mmu {A} (m : M mmu A) : keeps unowned m -> keeps dev_unowned (on_mmu m).
Proof. intros Hm s Hs. specialize (Hm (dv_mmu s) Hs). unfold on_mmu. by destruct (m (dv_mmu s)). Qed.

Lemma stays_dev_same {A} (m : M device A) : (forall s, dv_mmu (snd (m s)) = dv_mmu s) -> keeps dev_unowned m.
Proof. intros Hm s Hs. unfold dev_unowned. by rewrite Hm. Qed.

Lemma stays_on_proc {A} (m : M pids A) : keeps dev_unowned (on_proc m).
Proof. apply stays_dev_same. intros s. unfold on_proc. by destruct (m (dv_pids s)). Qed.

Lemma stays_stat_lock : keeps dev_unowned stat_spin_lock.
Proof. apply stays_dev_same. intros s. unfold stat_spin_lock. by destruct (dv_stat_lock s). Qed.

Lemma stays_pid_of cpid : keeps dev_unowned (pid_of cpid).
Proof. apply stays_dev_same. intros s. unfold pid_of. destruct (cpid <? 0); [done|]. by destruct (_ !! _). Qed.

Lemma stays_for_process pid body : (forall e, keeps dev_unowned (body e)) -> keeps dev_unowned (for_process ends hash pid body).
Proof. intros Hb s. by apply (stays_visit dev_unowned ends body). Qed.

#[local] Hint Resolve stays_on_mmu stays_on_proc stays_stat_lock stays_pid_of stays_get stays_put stays_put_cpid stays_alloc_user stays_free_user
  stays_pr_lock stays_alloc_pr stays_free_pr stays_reconfigure stays_mmap : keeps.

Lemma stays_ioctl copied r : keeps dev_unowned (fpga_ioctl cfg lo so reg_id ends hash task vma pin copied r).
Proof.
  unfold fpga_ioctl, change_cids, stat_spin_unlock, pr_spin_unlock. destruct copied; [|by intros s Hs]. destruct r; cbn [negb]; keeps_all.
  apply stays_for_process. intros e. keeps_all.
Qed.

Lemma stays_release pid : keeps dev_unowned (fpga_release cfg lo so reg_id ends hash pid).
Proof. unfold fpga_release, change_cids. keeps_all. apply stays_for_process. intros e. keeps_all. Qed.

Lemma stays_miss vaddr len : keeps dev_unowned (fpga_tlb_miss_isr cfg lo so reg_id task vma pin vaddr len).
Proof. unfold fpga_tlb_miss_isr. keeps_all. Qed.

(** What happens to the vFPGA: requests, maps into the address space of users, releases
    and page faults, from a device without mappings. *)
Inductive dev_reach : device -> Prop :=
| dev_start s : mm_small (dv_mmu s) = [] -> dev_reach s
| dev_ioctl s copied r : dev_reach s -> dev_reach (snd (fpga_ioctl cfg lo so reg_id ends hash task vma pin copied r s))
| dev_mmap s ctrl avx wb vm_start vm_pgoff :
    dev_reach s -> dev_reach (snd (on_mmu (fpga_mmap cfg lo reg_id remap_fails ctrl avx wb vm_start vm_pgoff) s))
| dev_miss s vaddr len : dev_reach s -> dev_reach (snd (fpga_tlb_miss_isr cfg lo so reg_id task vma pin vaddr len s))
| dev_release s pid : dev_reach s -> dev_reach (snd (fpga_release cfg lo so reg_id ends hash pid s)).

Lemma dev_reach_unowned s : dev_reach s -> dev_unowned s.
Proof.
  induction 1 as [s Hs| | | |].
  - unfold dev_unowned, unowned. by rewrite Hs.
  - by apply stays_ioctl.
  - by apply stays_on_mmu; [apply stays_mmap|].
  - by apply stays_miss.
  - by apply stays_release.
Qed.

Lemma for_buckets_none cpid dirtied s : unowned s -> cpid <> 0 -> forall bs,
  for_buckets ends hash (fun e => if up_cpid (snd e) =? cpid then put_entry cfg lo so reg_id dirtied (up_vaddr (snd e)) cpid e else mret (inr false)) mm_small bs s = (Ret None, s).
Proof.
  intros Hu Hc bs. induction bs as [|b bs IH]; [done|]. cbn [for_buckets]. unfold gets at 1. erewrite bind_run by done.
  erewrite bind_run; [|apply (visit_none ends (fun e => up_cpid (snd e) =? cpid))]; [exact IH|].
  apply Forall_forall. intros e He. apply list_elem_of_filter in He as [_ He]. unfold unowned in Hu. rewrite Forall_forall in Hu.
  apply Z.eqb_neq. by rewrite (Hu e He).
Qed.

(** C8: Only the process with identifier zero can give its pages back.  Whatever users have
    done, entries of the table carry the identifier zero, so a request of a process with
    another identifier to unmap an address succeeds and changes nothing, and the release
    of all its pages, when it unregisters or closes the device, leaves the memory as
    it was. *)
Theorem process_pages_kept s cpid :
  dev_reach s -> i32 cpid <> 0 ->
  (forall vaddr, fpga_ioctl cfg lo so reg_id ends hash task vma pin true (IOCTL_UNMAP_USER vaddr cpid) s = (Ret (0, []), s)) /\
  (forall dirtied, tlb_put_user_pages_cpid cfg lo so reg_id ends hash (i32 cpid) dirtied (dv_mmu s) = (Ret 0, dv_mmu s)).
Proof.
  intros Hr Hc. apply dev_reach_unowned in Hr. split.
  - intros vaddr. unfold fpga_ioctl, on_mmu. cbn [negb]. erewrite bind_run; [done|].
    assert (tlb_put_user_pages cfg lo so reg_id ends hash vaddr (i32 cpid) true (dv_mmu s) = (Ret 0, dv_mmu s)) as ->; [|by destruct s].
    unfold tlb_put_user_pages, returns, for_possible. rewrite (bind_run _ _ _ None (dv_mmu s)); [done|]. unfold gets. erewrite bind_run by done.
    apply (visit_none ends (fun e => (up_vaddr (snd e) =? vaddr) && (up_cpid (snd e) =? i32 cpid))).
    apply Forall_forall. intros e He. apply list_elem_of_filter in He as [_ He]. unfold dev_unowned, unowned in Hr. rewrite Forall_forall in Hr.
    rewrite (Hr e He). by rewrite (proj2 (Z.eqb_neq 0 (i32 cpid))), andb_false_r by auto.
  - intros dirtied. unfold tlb_put_user_pages_cpid, returns, for_all. by rewrite (bind_run _ _ _ _ _ (for_buckets_none (i32 cpid) dirtied _ Hr Hc _)).
Qed.

End device.

(** Two processes register, the second maps two pages and unmaps them: they stay. *)
Definition two_pages : Z -> Z -> Z * list Z := fun _ n => (n, [0x5000; 0x9000]).
Definition tiny_start : device :=
  mk_device (mk_mmu (mk_card (pool_init 8) (pool_init 8)) false [] [] no_pages false false [] no_pr 0 [] [] []) pids_init [] false.

Definition small_ioctl : bool -> request -> M device (Z * list Z) :=
  fpga_ioctl small_cfg (tlb_order_of true 3 21) (tlb_order_of false 6 12) 0 true id (fun _ => true) (fun _ => Some false) two_pages.

Definition two_processes : device :=
  snd (small_ioctl true (IOCTL_MAP_USER 0x1000 5000 1) (snd (small_ioctl true (IOCTL_REGISTER_PID 200) (snd (small_ioctl true (IOCTL_REGISTER_PID 100) tiny_start))))).

Lemma process_pages_kept_witness :
  dev_reach small_cfg (tlb_order_of true 3 21) (tlb_order_of false 6 12) 0 true id (fun _ => true) (fun _ => Some false) two_pages (fun _ _ _ => false) two_processes /\
  length (mm_small (dv_mmu two_processes)) = 1%nat /\ small_ioctl true (IOCTL_UNMAP_USER 0x1000 1) two_processes = (Ret (0, []), two_processes).
Proof.
  assert (dev_reach small_cfg (tlb_order_of true 3 21) (tlb_order_of false 6 12) 0 true id (fun _ => true) (fun _ => Some false) two_pages (fun _ _ _ => false) two_processes) as Hr.
  { unfold two_processes, small_ioctl. do 3 apply dev_ioctl. by apply dev_start. }
  split; [exact Hr|]. split; [vm_compute; reflexivity|].
  destruct (process_pages_kept small_cfg (tlb_order_of true 3 21) (tlb_order_of false 6 12) 0 true id (fun _ => true) (fun _ => Some false) two_pages (fun _ _ _ => false) two_processes 1 Hr) as [H _];
    [vm_compute; discriminate | exact (H 0x1000)].
Defined.

(** A request that failed is answered like one that succeeded: no page could be pinned. *)
Example failure_not_told :
  let '(_, s) := small_ioctl true (IOCTL_REGISTER_PID 100) tiny_start in
  fpga_ioctl small_cfg (tlb_order_of true 3 21) (tlb_order_of false 6 12) 0 true id (fun _ => true) (fun _ => Some false) (fun _ _ => (0, [])) true
    (IOCTL_MAP_USER 0x1000 5000 0) s = (Ret (0, []), s).
Proof. by vm_compute. Qed.

(** Releases of everything a device has: one entry of each bucket. *)
Example one_of_each_bucket :
  let u := mk_user_pages 0x1000 false 0 1 1 [0x5000] [] in
  let no_mem := mk_bus_cnfg 1 1 0 0 1 0 1 0 0 0 0 0 0 0 0 in
  let s := mk_mmu (mk_card (pool_init 8) (pool_init 8)) false [(1%nat, u); (0%nat, u)] [] no_pages false false [] no_pr 2 [] [] [] in
  map fst (mm_small (snd (tlb_put_user_pages_all no_mem (tlb_order_of true 3 21) (tlb_order_of false 6 12) 0 true (fun _ => 7) false s))) = [0%nat] /\
  map fst (mm_small (snd (tlb_put_user_pages_all no_mem (tlb_order_of true 3 21) (tlb_order_of false 6 12) 0 false (fun _ => 7) false s))) = [].
Proof. by vm_compute. Qed.
